(* ===== verification/_CoqProject ===== *)
-Q . S2P
Prelude.v
Wire.v
State.v
Text.v
Decimal.v
Inventory.v
Collections.v
Checksum.v
Prefix.v
Fletcher.v
EventQueue.v
Link.v
Qos.v
Ethernet.v
Switching.v
Ipv4.v
AccessList.v
RoutePolicy.v
Arp.v
Icmp.v
Udp.v
Ntp.v
TcpSegment.v
TcpConnection.v
Dhcp.v
Dns.v
Ipv6.v
Config.v
Icmpv6.v
OspfLsa.v
OspfAdvertisement.v
OspfPacket.v
OspfElection.v
Spf.v
OspfSpf.v
OspfExchange.v
BgpAttributes.v
BgpMessages.v
BgpSession.v
BgpSelection.v
Device.v
Interfaces.v
AccessControl.v
Nat.v
Stp.v
Switch.v
Frame.v
DhcpServer.v
Forwarding.v
Transport.v
QosPolicy.v
SpanningTree.v
DeviceCalls.v
Lab.v
Wiring.v
Cables.v
