(* ===== verification/Prelude.v ===== *)
(** * A verification development for rios

    rios simulates a network of routers, switches and hosts: a deterministic
    event queue moves packets over links with bandwidth, delay and loss; every
    device holds its interfaces, VLANs, access lists, address translation,
    routing protocols and transport connections; a command line configures
    them. This development models the parts of it that decide anything (codecs,
    tables, state machines, schedulers, device operations) as executable
    functions and proves what they promise.

    ** How the model reads the code

    - An unsigned integer of [w] bits is a [Z]; a well-formedness predicate
      ([u8], [u16], [u32], ...) says when it is in range. [sat_add]/[sat_sub]
      are [saturating_add]/[saturating_sub]; wrapping arithmetic takes the
      result modulo [2 ^ w]; a plain [+] of the code that could overflow has
      the result [Panic].
    - [Result<T, E>] is [res E T] ([Prelude]): [Ok], [Err], or [Panic] for an
      index out of range, a failed [unwrap]/[expect] or an overflow.
      [Option] is [option]; [?] is the bind of the monad.
    - A method on [&mut self] is a function that returns the new state. The
      operations of a device are in the monad [op] of [State]: they return a
      result and the device they leave, so an operation that fails half-way
      leaves what it has written.
    - [Vec] and slices are lists, [u8] buffers are [bytes] ([list Z]), and
      strings are their bytes ([Text] has the notation and the comparison).
    - [BTreeMap] and [BTreeSet] are [gmap] and [gset]; where the order of
      iteration matters the model goes through [entries] ([Collections]), the
      entries sorted by key. [BinaryHeap] is a list from which the greatest
      element is taken.
    - [SimTime] is a [Z] of microseconds.

    ** Files

    Shared: [Prelude] (results, ranges, list lemmas, tactics, hints), [Wire]
    (big-endian fields, decoders), [State] (the device monad), [Text],
    [Decimal] (numbers in strings), [Collections] (sorted maps), [Checksum]
    (the Internet checksum; shared by IPv4, ICMP, UDP and TCP), [Fletcher]
    (the OSPF checksum), [Prefix] (networks of a given length), [Inventory]
    (interface names and device errors).

    - rios-simulator: [EventQueue] (queue.rs), [Link] (link.rs), [Qos]
      (qos/mod.rs, qos/bucket.rs).
    - rios-ethernet, rios-switching: [Ethernet], [Switching] (rstp.rs,
      lacp.rs).
    - rios-ipv4, rios-ipv6, rios-protocol: [Ipv4], [Ipv6], [Icmpv6], [Arp],
      [Icmp], [Udp], [Ntp], [TcpSegment], [Dhcp], [Dns].
    - rios-routing: [OspfLsa], [OspfAdvertisement], [OspfPacket],
      [OspfElection], [OspfExchange], [Spf] and [OspfSpf]; [BgpAttributes],
      [BgpMessages], [BgpSession], [BgpSelection].
    - rios-config: [AccessList] (acl.rs), [RoutePolicy] (route_policy.rs),
      [Config] (the records of a running configuration and their defaults).
    - rios-device: [TcpConnection] (the connection of tcp.rs), [Device] (the
      device record, its construction, whether an interface is up),
      [Interfaces] (the operations on interfaces, VLANs, subinterfaces and
      bundles of lib.rs, subinterface.rs and channel.rs), [AccessControl]
      (acl.rs, named_acl.rs), [Nat] (nat.rs, nat/), [Stp] (stp.rs, stp/),
      [Switch] (the data plane of a switch: VLANs, learned addresses, bundles
      and LACP, of lib.rs, ethernet.rs, subinterface.rs, channel.rs and
      lacp.rs, with [forward_switch_frame] of rios-topology's delivery.rs),
      [DhcpServer] (dhcp.rs, dhcp/), [Forwarding] (the routing table, the
      resolution of routes and the ARP cache of network.rs), [Transport] (the
      sockets of tcp.rs: the connection table of a device and the packets it
      exchanges), [QosPolicy] (qos/mod.rs, qos/config.rs: class maps, policies
      and the profile a port gets). [Frame] says which parts of a device an
      operation of [Interfaces] leaves alone; [DeviceCalls] is one device with
      the calls of all these components; [SpanningTree] puts the switches
      of [Stp] into a network of links.
    - rios-topology: [Lab] (lab.rs, delivery.rs, qos.rs, network/lacp.rs: the
      devices, the cables between them, their output queues and the events of
      the queue), [Wiring] (its invariant, kept by every operation) and
      [Cables] (what the cables promise over any run of a lab). What the
      protocols above Ethernet do in the lab is a parameter of it, a program of
      the calls they make.

    ** What the theorems show

    - Scheduling: the event queue is a stable agenda ordered by time and
      arrival; links deliver in order within their bound; a token bucket never
      lets more than its rate through; classes are served in the order and
      share configured.
    - Codecs: encoding then decoding gives the message back, decoders accept
      only what they should, terminate, and detect a changed header or
      advertisement.
    - Transport: the bytes a TCP connection delivers are a prefix of the bytes
      the peer wrote, whatever segments are lost, repeated or reordered; a
      handshake, a transfer and an orderly close complete.
    - Routing: OSPF adjacencies synchronise, the election converges, the
      shortest-path calculation terminates with the least distances; a BGP
      session follows its transitions, its timers make progress, and the best
      path is the one the decision process names; the longest prefix wins.
    - Devices: one invariant of the whole device record that every call of a
      device keeps, of whatever component ([DeviceCalls.device_invariant]); it
      speaks of configured addresses, since a DHCP lease can give a switch port
      one ([DhcpServer]); rejected configuration calls change nothing, and on a
      well-formed device none panics; access lists keep their meaning when a
      numbered list becomes a named one; translations are unique in both
      directions however the router is configured, a port is always found and
      replies come back to the host that asked; no address is leased or offered
      twice.
    - Forwarding: a resolved next hop is on the network of the interface,
      connected networks are reached directly, and the ARP cache answers what
      was last heard within its lifetime.
    - Cables: over any run of a lab, what a port sends over a cable arrives in
      the order it was sent, a frame that finds room is put on its way, and a
      frame on its way when the cable stops carrying is lost even if the cable
      comes back.
    - Hosts: every call of a host moves its sockets as the connection state
      machine does; two hosts connect through their packets, and a connection
      to a closed port is refused and forgotten.
    - Quality of service: whatever configures it, a policy a port names exists,
      makes a scheduler and has a class for every frame.
    - Switching: in a network whose spanning-tree messages agree with what the
      switches say, every loop has a port that does not forward; a frame leaves
      a switch only in the VLAN it came in, towards a learned address when
      there is one; a bundle that is up sends the frames of one flow over one
      member.

    ** Fuel

    Where the recursion of the code is not structural the model counts rounds,
    and a lemma shows the count suffices: decoders are fuelled by the length of
    their input, which every round shortens; the checksum folds its carry twice
    ([MAX_SUMMED] bytes); DNS names stop after the 128 rounds and IPv6
    extension headers after the 16 the code itself counts; the shortest-path
    loop of [Spf] has a binary fuel of [2 ^ 170] that [ospf_calculate_total]
    shows is never exhausted; whether an interface is up is computed in two
    rounds over bundles, a fixed point by [protocol_up_equation], and enough
    for the version of it that panics where the code does, by
    [protocol_up_checked_ok]; the search
    for a port of [Nat] makes the code's own 50,001 tries; numbers in text are
    at most 20 digits long; the search for a DHCP address tries as many
    candidates as there are obstacles (addresses in use and excluded ranges)
    and four more, since every obstacle stops it at most once. The sixteen
    rounds of route resolution in [Forwarding] are the code's own.

    ** Not modelled

    Rendering (the show commands, running configurations as text, capture
    files), because its meaning is its layout; the command-line crate
    (rios-cli), which maps words to the operations modelled here; how the
    protocols above Ethernet pass between the lab and its devices
    (rios-topology network/); the processes of src/ (terminals, SSH and Telnet
    servers, storage), which are input and output; test code. PROJECT.json
    lists every part with its status. *)
From stdpp Require Export base tactics decidable numbers list gmap strings.
From Stdlib Require Export ZArith Lia ZifyBool ZifyNat.

#[global] Open Scope Z_scope.

(** ** Fallible computations *)

(** [res E A] is the outcome of a Rust expression of type [Result<A, E>] (or
    of a plain [A] when no [Err] is produced): a value, an error, or a panic
    (an index out of range, a failed [unwrap], an arithmetic overflow, or a
    loop that outlives the fuel its model was given). *)
Inductive res (E A : Type) : Type :=
| Ok (a : A)
| Err (e : E)
| Panic.
Arguments Ok {E A} a.
Arguments Err {E A} e.
Arguments Panic {E A}.

Definition res_bind {E A B : Type} (f : A → res E B) (m : res E A) : res E B :=
  match m with
  | Ok a => f a
  | Err e => Err e
  | Panic => Panic
  end.
Arguments res_bind {E A B} f !m /.

#[export] Instance res_mret E : MRet (res E) := λ A a, Ok a.
#[export] Instance res_mbind E : MBind (res E) := λ A B f m, res_bind f m.

(** [Option::ok_or]. *)
Definition ok_or {E A : Type} (o : option A) (e : E) : res E A :=
  match o with Some a => Ok a | None => Err e end.
Arguments ok_or {E A} !o e /.

(** [Result::map_err] with a constant error. *)
Definition or_err {E F A : Type} (m : res E A) (e : F) : res F A :=
  match m with Ok a => Ok a | Err _ => Err e | Panic => Panic end.
Arguments or_err {E F A} !m e /.

(** [Result::map_err]. *)
Definition map_err {E F A : Type} (f : E → F) (m : res E A) : res F A :=
  match m with Ok a => Ok a | Err e => Err (f e) | Panic => Panic end.
Arguments map_err {E F A} f !m /.

(** [Result::unwrap]. *)
Definition unwrap {E F A : Type} (m : res E A) : res F A :=
  match m with Ok a => Ok a | _ => Panic end.
Arguments unwrap {E F A} !m /.

(** [Result::is_ok] and [Result::ok]. *)
Definition is_ok {E A : Type} (m : res E A) : bool :=
  match m with Ok _ => true | _ => false end.
Arguments is_ok {E A} !m /.
Definition ok {E A : Type} (m : res E A) : option A :=
  match m with Ok a => Some a | _ => None end.
Arguments ok {E A} !m /.

(** [Option::is_none_or]. *)
Definition is_none_or {A} (o : option A) (p : A → bool) : bool :=
  match o with None => true | Some a => p a end.
(** [Option::is_some_and]. *)
Definition is_some_and {A} (o : option A) (p : A → bool) : bool :=
  match o with None => false | Some a => p a end.

#[export] Instance res_eq_dec {E A} `{EqDecision E, EqDecision A} : EqDecision (res E A).
Proof. solve_decision. Defined.

(** [iter().map(f).collect::<Result<Vec<_>, _>>()], and a [for] loop that
    pushes what [f] returns and leaves the function on an error. *)
Fixpoint try_map {E A B : Type} (f : A → res E B) (l : list A) : res E (list B) :=
  match l with
  | [] => Ok []
  | x :: l => y ← f x; ys ← try_map f l; Ok (y :: ys)
  end.
(** [Iterator::filter] and [Iterator::any] with a closure that may panic; [any]
    stops at the first element that satisfies it. *)
Fixpoint try_filter {E A : Type} (f : A → res E bool) (l : list A) : res E (list A) :=
  match l with
  | [] => Ok []
  | x :: l => b ← f x; ys ← try_filter f l; Ok (if b : bool then x :: ys else ys)
  end.
Fixpoint try_any {E A : Type} (f : A → res E bool) (l : list A) : res E bool :=
  match l with
  | [] => Ok false
  | x :: l => b ← f x; if b : bool then Ok true else try_any f l
  end.

(** A computation is [safe] when it does not panic. *)
Definition safe {E A : Type} (m : res E A) : Prop := m ≠ Panic.

Lemma safe_Ok {E A} (a : A) : safe (@Ok E A a).
Proof. done. Qed.
Lemma safe_Err {E A} (e : E) : safe (@Err E A e).
Proof. done. Qed.
Lemma safe_bind {E A B} (f : A → res E B) (m : res E A) :
  safe m → (∀ a, m = Ok a → safe (f a)) → safe (m ≫= f).
Proof. intros Hm Hf. destruct m; cbn; [by apply Hf | done | done]. Qed.
Lemma safe_ok_or {E A} (o : option A) (e : E) : safe (ok_or o e).
Proof. by destruct o. Qed.
Lemma safe_or_err {E F A} (m : res E A) (e : F) : safe m → safe (or_err m e).
Proof. by destruct m. Qed.
Lemma safe_map_err {E F A} (f : E → F) (m : res E A) : safe m → safe (map_err f m).
Proof. by destruct m. Qed.
Lemma safe_if {E A} (b : bool) (m n : res E A) :
  (b = true → safe m) → (b = false → safe n) → safe (if b then m else n).
Proof. destruct b; auto. Qed.

Lemma bind_Ok {E A B} (f : A → res E B) a : (Ok a ≫= f) = f a.
Proof. done. Qed.
Lemma Ok_inj {E A} (a b : A) : @Ok E A a = Ok b → a = b.
Proof. congruence. Qed.
Lemma bind_Ok_inv {E A B} (f : A → res E B) (m : res E A) b :
  m ≫= f = Ok b → ∃ a, m = Ok a ∧ f a = Ok b.
Proof. destruct m; cbn; naive_solver. Qed.
Lemma bind_Err_inv {E A B} (f : A → res E B) (m : res E A) e :
  m ≫= f = Err e → m = Err e ∨ ∃ a, m = Ok a ∧ f a = Err e.
Proof. destruct m; cbn; naive_solver. Qed.
Lemma ok_or_Ok_inv {E A} (o : option A) (e : E) a : ok_or o e = Ok a → o = Some a.
Proof. destruct o; cbn; naive_solver. Qed.
Lemma or_err_Ok_inv {E F A} (m : res E A) (e : F) a : or_err m e = Ok a → m = Ok a.
Proof. destruct m; cbn; naive_solver. Qed.
Lemma map_err_Ok_inv {E F A} (f : E → F) (m : res E A) a : map_err f m = Ok a → m = Ok a.
Proof. destruct m; cbn; naive_solver. Qed.

Lemma try_filter_pure {E A : Type} (f : A → res E bool) (p : A → bool) (l : list A) :
  (∀ x, x ∈ l → f x = Ok (p x)) → try_filter f l = Ok (filter (λ x, p x = true) l).
Proof.
  induction l as [|x l IH]; intros H; [done|]. cbn [try_filter]. rewrite (H x) by by left.
  rewrite bind_Ok, IH by (intros; apply H; by right). rewrite bind_Ok, filter_cons. by destruct (p x).
Qed.
Lemma try_any_pure {E A : Type} (f : A → res E bool) (p : A → bool) (l : list A) :
  (∀ x, x ∈ l → f x = Ok (p x)) → try_any f l = Ok (existsb p l).
Proof.
  induction l as [|x l IH]; intros H; [done|]. cbn [try_any existsb]. rewrite (H x) by by left.
  rewrite bind_Ok. destruct (p x); [done|]. apply IH. intros. apply H. by right.
Qed.
Lemma try_map_pure {E A B : Type} (f : A → res E B) (g : A → B) (l : list A) :
  (∀ x, x ∈ l → f x = Ok (g x)) → try_map f l = Ok (map g l).
Proof.
  induction l as [|x l IH]; intros H; [done|]. cbn [try_map map]. rewrite (H x) by by left.
  rewrite bind_Ok, IH by (intros; apply H; by right). done.
Qed.
Lemma try_map_safe {E A B} (f : A → res E B) l : (∀ x, x ∈ l → safe (f x)) → safe (try_map f l).
Proof.
  induction l as [|x l IH]; intros H; cbn [try_map]; [apply safe_Ok|].
  apply safe_bind; [apply H; set_solver|]. intros y _.
  apply safe_bind; [apply IH; set_solver|]. intros ys _. apply safe_Ok.
Qed.
Lemma try_map_Ok {E A B} (f : A → res E B) l ys :
  try_map f l = Ok ys ↔ Forall2 (λ x y, f x = Ok y) l ys.
Proof.
  revert ys. induction l as [|x l IH]; intros ys; cbn [try_map].
  - split; [intros ->%Ok_inj || intros <-%Ok_inj; constructor | by intros ->%Forall2_nil_inv_l].
  - split.
    + intros (y & Hy & H)%bind_Ok_inv. apply bind_Ok_inv in H as (zs & Hzs & H).
      apply Ok_inj in H as <-. constructor; [done|]. by apply IH.
    + intros (y & zs & Hy & Hzs & ->)%Forall2_cons_inv_l. rewrite Hy, bind_Ok.
      apply IH in Hzs as ->. by rewrite bind_Ok.
Qed.
Lemma try_map_encoded {E A B C} (f : A → res E B) (enc : C → A) (g : C → B) l :
  Forall (λ c, f (enc c) = Ok (g c)) l → try_map f (map enc l) = Ok (map g l).
Proof. induction 1 as [|c l Hc _ IH]; cbn [map try_map]; [done|]. by rewrite Hc, bind_Ok, IH, bind_Ok. Qed.
Lemma try_map_Forall {E A B} (f : A → res E B) (P : A → Prop) (Q : B → Prop) l ys :
  (∀ x y, P x → f x = Ok y → Q y) → Forall P l → try_map f l = Ok ys → Forall Q ys.
Proof.
  intros HPQ HP H%try_map_Ok. revert HP. induction H as [|x y l ys Hxy _ IH]; [by constructor|].
  intros [? ?]%Forall_cons. constructor; eauto.
Qed.

(** ** Machine integers *)

Definition U8_MAX : Z := 255.
Definition U16_MAX : Z := 65535.
Definition U32_MAX : Z := 4294967295.
Definition U64_MAX : Z := 18446744073709551615.
Definition U128_MAX : Z := 340282366920938463463374607431768211455.

Abbreviation u8 x := (0 ≤ x ≤ 255)%Z.
Abbreviation u16 x := (0 ≤ x ≤ 65535)%Z.
Abbreviation u32 x := (0 ≤ x ≤ 4294967295)%Z.
Abbreviation u64 x := (0 ≤ x ≤ 18446744073709551615)%Z.
Abbreviation u128 x := (0 ≤ x ≤ 340282366920938463463374607431768211455)%Z.

(** [saturating_add], [saturating_mul] and [saturating_sub] of an unsigned
    type whose largest value is [max]. *)
Definition sat_add (max a b : Z) : Z := Z.min max (a + b).
Definition sat_mul (max a b : Z) : Z := Z.min max (a * b).
Definition sat_sub (a b : Z) : Z := Z.max 0 (a - b).

(** [checked_add] and [checked_mul]. *)
Definition checked_add (max a b : Z) : option Z :=
  if a + b <=? max then Some (a + b) else None.
Definition checked_mul (max a b : Z) : option Z :=
  if a * b <=? max then Some (a * b) else None.

(** [uN::try_from] of a value already known to be nonnegative. *)
Definition try_from (max a : Z) : option Z := if a <=? max then Some a else None.

(** Plain [+], [-] and [*]: a result outside [0..max] is an overflow, which
    panics in a build with overflow checks. *)
Definition arith {E : Type} (max a : Z) : res E Z :=
  if (0 <=? a) && (a <=? max) then Ok a else Panic.

(** [u32::wrapping_add]. *)
Definition wrapping_add32 (a b : Z) : Z := (a + b) `mod` 4294967296.

(** [u128::div_ceil]. *)
Definition div_ceil (a b : Z) : Z := (a + b - 1) `div` b.

Lemma safe_arith {E} max a : 0 ≤ a ≤ max → safe (@arith E max a).
Proof. intros. unfold arith. destruct (_ && _) eqn:?; [done | lia]. Qed.
Lemma arith_Ok {E} max a : 0 ≤ a ≤ max → @arith E max a = Ok a.
Proof. intros. unfold arith. destruct (_ && _) eqn:?; [done | lia]. Qed.

Lemma div_ceil_spec a b : 0 < b → b * (div_ceil a b - 1) < a ≤ b * div_ceil a b.
Proof.
  intros Hb. unfold div_ceil.
  pose proof (Z.div_mod (a + b - 1) b ltac:(lia)).
  pose proof (Z.mod_pos_bound (a + b - 1) b Hb). nia.
Qed.
Lemma div_ceil_nonneg a b : 0 ≤ a → 0 < b → 0 ≤ div_ceil a b.
Proof. intros. unfold div_ceil. apply Z.div_pos; lia. Qed.

(** ** Record update *)

(** [Eta R] rebuilds a record from its fields; from it [build_setter] finds how
    one field is replaced.  [r <| f := v |>] is the record [r] with [v] for its
    field [f], an assignment to a field of a Rust structure. *)
Class Eta (R : Type) := eta : R → R.
Class Setter {R T : Type} (field : R → T) := set_field : (T → T) → R → R.
Arguments set_field {R T} field {_} f r /.
Ltac build_setter :=
  lazymatch goal with
  | |- @Setter ?R ?T ?p =>
      let f := fresh "f" in let r := fresh "r" in
      intros f r;
      let i := constr:(_ : Eta R) in
      let e := eval red in (i r) in
      let e := eval cbv beta in e in
      match e with context C [p r] => let e' := context C [f (p r)] in exact e' end
  end.
#[export] Hint Extern 0 (Setter _) => build_setter : typeclass_instances.
Declare Scope record_scope.
Delimit Scope record_scope with record.
Notation "r <| p := v |>" := (set_field p (λ _, v) r)
  (at level 12, left associativity, format "r  <| p  :=  v |>") : record_scope.
Notation "r <| p ::= f |>" := (set_field p f r)
  (at level 12, left associativity, format "r  <| p  ::=  f |>") : record_scope.
#[global] Open Scope record_scope.

(** ** Tactics *)

(** Decide every [if] of the goal whose boolean condition [lia] settles. *)
Ltac decide_ifs :=
  repeat match goal with
  | |- context [if ?c then _ else _] =>
      lazymatch type of c with bool => idtac end;
      first
        [ let H := fresh in assert (H : c = true) by (lia || reflexivity); rewrite H; clear H
        | let H := fresh in assert (H : c = false) by (lia || reflexivity); rewrite H; clear H ]
  end.

(** Split a conjunction but keep the ranges [a ≤ x ≤ b] whole. *)
Ltac split_wf :=
  lazymatch goal with
  | |- _ ≤ ?x ∧ ?x ≤ _ => idtac
  | |- _ ∧ _ => split; split_wf
  | _ => idtac
  end.

(** Split a hypothesis [m ≫= f = Ok a] and its relatives into its parts. *)
Ltac inv_ok :=
  repeat match goal with
  | H : mbind _ _ = Ok _ |- _ =>
      let x := fresh "x" in let Hx := fresh "Hx" in
      apply bind_Ok_inv in H as (x & Hx & H)
  | H : ok_or _ _ = Ok _ |- _ => apply ok_or_Ok_inv in H
  | H : or_err _ _ = Ok _ |- _ => apply or_err_Ok_inv in H
  | H : map_err _ _ = Ok _ |- _ => apply map_err_Ok_inv in H
  | H : Ok _ = Ok _ |- _ => apply (f_equal ok) in H; cbn [ok] in H; simplify_eq
  | H : Err _ = Ok _ |- _ => discriminate H
  | H : Panic = Ok _ |- _ => discriminate H
  | H : (if ?c then _ else _) = Ok _ |- _ =>
      lazymatch type of c with bool => destruct c eqn:? end
  | H : match ?x with _ => _ end = Ok _ |- _ => destruct x eqn:?
  end.

Create HintDb safe.
#[export] Hint Resolve safe_Ok safe_Err safe_ok_or : safe.

(** ** Lexicographic keys and minima *)

(** Rust's derived order on tuples, for keys of one length. *)
Fixpoint lex_ltb (a b : list Z) : bool :=
  match a, b with
  | x :: a, y :: b => (x <? y) || ((x =? y) && lex_ltb a b)
  | [], _ :: _ => true
  | _, [] => false
  end.

Lemma lex_ltb_irrefl a : lex_ltb a a = false.
Proof. induction a as [|x a IH]; cbn; [done|]. rewrite IH. lia. Qed.
Lemma lex_ltb_asym a b : lex_ltb a b = true → lex_ltb b a = false.
Proof.
  revert b. induction a as [|x a IH]; intros [|y b]; cbn; try done.
  intros [H|[H1 H2]%andb_prop]%orb_prop; [lia|]. rewrite (IH _ H2). lia.
Qed.
Lemma lex_ltb_trans a b c : lex_ltb a b = true → lex_ltb b c = true → lex_ltb a c = true.
Proof.
  revert b c. induction a as [|x a IH]; intros [|y b] [|z c]; cbn; try done.
  intros [?|[? H1]%andb_prop]%orb_prop [?|[? H2]%andb_prop]%orb_prop.
  1-3: assert ((x <? z) = true) as -> by lia; done.
  rewrite (IH _ _ H1 H2). lia.
Qed.
Lemma lex_ltb_total a b : lex_ltb a b = false → lex_ltb b a = false → a = b.
Proof.
  revert b. induction a as [|x a IH]; intros [|y b]; cbn; try done.
  intros H1 H2. assert (x = y) as -> by lia. f_equal. apply IH; lia.
Qed.
(** [lex_ltb b a = false] is [a ≤ b]. *)
Lemma lex_le_trans a b c : lex_ltb b a = false → lex_ltb c b = false → lex_ltb c a = false.
Proof.
  intros H1 H2. destruct (lex_ltb c a) eqn:H3; [|done]. destruct (lex_ltb a b) eqn:H4.
  - by rewrite (lex_ltb_trans _ _ _ H3 H4) in H2.
  - by rewrite (lex_ltb_total _ _ H4 H1), H2 in H3.
Qed.

(** [iter().min_by_key(key)]: the first of the elements with the least key. *)
Section min_by.
Context {A : Type} (key : A → list Z).
Fixpoint min_from (best : A) (l : list A) : A :=
  match l with
  | [] => best
  | x :: l => min_from (if lex_ltb (key x) (key best) then x else best) l
  end.
Definition min_by_key (l : list A) : option A :=
  match l with [] => None | x :: l => Some (min_from x l) end.

Lemma min_from_spec b l :
  (min_from b l = b ∧ Forall (λ y, lex_ltb (key y) (key b) = false) l)
  ∨ ∃ l1 l2, l = l1 ++ min_from b l :: l2
     ∧ lex_ltb (key (min_from b l)) (key b) = true
     ∧ Forall (λ y, lex_ltb (key (min_from b l)) (key y) = true) l1
     ∧ Forall (λ y, lex_ltb (key y) (key (min_from b l)) = false) l2.
Proof.
  revert b. induction l as [|x l IH]; intros b; cbn; [by left|].
  destruct (lex_ltb (key x) (key b)) eqn:Hx; destruct (IH (if true then x else b)) as [[H1 H2]|H];
    destruct (IH b) as [[H3 H4]|H']; cbn in *.
  all: try (left; split; [done|]; by constructor).
  all: try (right; rewrite H1; exists [], l; by split_and!).
  all: try (destruct H as (l1&l2&Hl&?&?&?); right; exists (x :: l1), l2; split_and!;
    [by rewrite Hl at 1 | by eapply lex_ltb_trans | by constructor | done]).
  all: destruct H' as (l1&l2&Hl&Hb&?&?); right; exists (x :: l1), l2; split_and!;
    [by rewrite Hl at 1 | done | constructor; [|done] | done].
  all: destruct (lex_ltb (key (min_from b l)) (key x)) eqn:E; [done|].
  all: by rewrite (lex_le_trans _ _ _ Hx E) in Hb.
Qed.

Lemma min_by_key_spec l m :
  min_by_key l = Some m →
  ∃ l1 l2, l = l1 ++ m :: l2
    ∧ Forall (λ y, lex_ltb (key m) (key y) = true) l1
    ∧ Forall (λ y, lex_ltb (key y) (key m) = false) l2.
Proof.
  destruct l as [|x l]; cbn; [done|]. intros [= <-].
  destruct (min_from_spec x l) as [[-> H]|(l1&l2&Hl&Hm&H1&H2)].
  - exists [], l. by split_and!.
  - exists (x :: l1), l2. split_and!; [by rewrite Hl at 1 | by constructor | done].
Qed.
Lemma min_by_key_least l m :
  min_by_key l = Some m → m ∈ l ∧ ∀ y, y ∈ l → lex_ltb (key y) (key m) = false.
Proof.
  intros (l1&l2&->&H1&H2)%min_by_key_spec. rewrite Forall_forall in H1, H2. split; [set_solver|].
  intros y [Hy|[->|Hy]%elem_of_cons]%elem_of_app;
    [by apply lex_ltb_asym, H1 | apply lex_ltb_irrefl | by apply H2].
Qed.
Lemma min_by_key_None l : min_by_key l = None ↔ l = [].
Proof. by destruct l. Qed.
End min_by.

(** A split of a filtered list comes from a split of the list. *)
Lemma filter_split {A} (P : A → Prop) `{∀ x, Decision (P x)} (l l1 l2 : list A) x :
  filter P l = l1 ++ x :: l2 →
  ∃ b c, l = b ++ x :: c ∧ P x ∧ filter P b = l1 ∧ filter P c = l2.
Proof.
  revert l1. induction l as [|y l IH]; intros l1; [by destruct l1|].
  rewrite filter_cons. case_decide as HP.
  - destruct l1 as [|z l1]; cbn; intros [= -> Hl].
    + by exists [], l.
    + destruct (IH _ Hl) as (b & c & -> & ? & Hb & ?). exists (z :: b), c.
      split_and!; try done. rewrite filter_cons, Hb. by rewrite decide_True.
  - intros Hl. destruct (IH _ Hl) as (b & c & -> & ? & ? & ?). exists (y :: b), c.
    split_and!; try done. by rewrite filter_cons, decide_False.
Qed.
