(* ===== verification/Wire.v ===== *)
(** Byte strings and the big-endian codecs shared by every wire format.

    A Rust [&[u8]] or [Vec<u8>] is a [list Z] whose elements are octets
    ([bytes_ok]); indexing and slicing out of range panic as in Rust, while
    [get] returns an option.  [be n x] is [x.to_be_bytes()] of an [8 n]-bit
    integer and [of_be] is [from_be_bytes]. *)
From S2P Require Import Prelude.

Abbreviation bytes := (list Z).

Definition bytes_ok (l : bytes) : Prop := Forall (λ b, 0 ≤ b ≤ 255) l.

(** [l.len()] as a [usize]. *)
Definition len {A} (l : list A) : Z := Z.of_nat (length l).
Lemma len_app {A} (a b : list A) : len (a ++ b) = len a + len b.
Proof. unfold len. rewrite length_app. lia. Qed.

(** [l[i]]. *)
Definition idx {E A} (l : list A) (i : nat) : res E A :=
  match l !! i with Some b => Ok b | None => Panic end.

(** [l[a..b]], [l[a..]] and the fallible [l.get(a..b)], [l.get(a..)]. *)
Definition slice {E A} (l : list A) (a b : nat) : res E (list A) :=
  if (a <=? b)%nat && (b <=? length l)%nat then Ok (take (b - a) (drop a l)) else Panic.
Definition slice_from {E A} (l : list A) (a : nat) : res E (list A) :=
  if (a <=? length l)%nat then Ok (drop a l) else Panic.
Definition get_slice {A} (l : list A) (a b : nat) : option (list A) :=
  if (a <=? b)%nat && (b <=? length l)%nat then Some (take (b - a) (drop a l)) else None.
Definition get_from {A} (l : list A) (a : nat) : option (list A) :=
  if (a <=? length l)%nat then Some (drop a l) else None.

(** [l[a..a + d.len()].copy_from_slice(d)]; a single store is [put l a [b]]. *)
Definition put {E} (l : bytes) (a : nat) (d : bytes) : res E bytes :=
  if (a + length d <=? length l)%nat
  then Ok (take a l ++ d ++ drop (a + length d) l) else Panic.

(** [l.starts_with(p)]. *)
Definition starts_with (l p : bytes) : bool := bool_decide (take (length p) l = p).

(** [vec![0; n]]. *)
Definition zeros (n : nat) : bytes := replicate n 0.

(** ** Big-endian integers *)

Definition byte_of (x : Z) (k : nat) : Z := (x `div` 256 ^ Z.of_nat k) `mod` 256.

Fixpoint be (n : nat) (x : Z) : bytes :=
  match n with
  | O => []
  | S k => byte_of x k :: be k x
  end.

Definition of_be (l : bytes) : Z := foldl (λ acc b, acc * 256 + b) 0 l.

Definition u16_at {E} (l : bytes) (i : nat) : res E Z :=
  a ← idx l i; b ← idx l (S i); Ok (of_be [a; b]).
Definition u32_at {E} (l : bytes) (i : nat) : res E Z :=
  a ← idx l i; b ← idx l (S i); c ← idx l (S (S i)); d ← idx l (S (S (S i)));
  Ok (of_be [a; b; c; d]).

(** [l.as_chunks::<n>().0] for an [n] that divides [l.len()] at its call sites:
    the complete [n]-byte chunks, any remainder dropped. *)
Fixpoint chunks_aux (fuel n : nat) (l : bytes) : list bytes :=
  match fuel with
  | O => []
  | S k => if (length l <? n)%nat then [] else take n l :: chunks_aux k n (drop n l)
  end.
Definition as_chunks (n : nat) (l : bytes) : list bytes := chunks_aux (length l) n l.

(** ** Facts *)

Lemma byte_of_range x k : 0 ≤ byte_of x k ≤ 255.
Proof. unfold byte_of. pose proof (Z.mod_pos_bound (x `div` 256 ^ Z.of_nat k) 256 ltac:(lia)). lia. Qed.

Lemma bytes_ok_nil : bytes_ok [].
Proof. constructor. Qed.
Lemma bytes_ok_cons b l : 0 ≤ b ≤ 255 → bytes_ok l → bytes_ok (b :: l).
Proof. by constructor. Qed.
Lemma bytes_ok_app l k : bytes_ok l → bytes_ok k → bytes_ok (l ++ k).
Proof. intros. by apply Forall_app. Qed.
Lemma bytes_ok_be n x : bytes_ok (be n x).
Proof. induction n; cbn; constructor; [apply byte_of_range | done]. Qed.
Lemma bytes_ok_zeros n : bytes_ok (zeros n).
Proof. apply Forall_replicate. lia. Qed.
Lemma bytes_ok_take n l : bytes_ok l → bytes_ok (take n l).
Proof. apply Forall_take. Qed.
Lemma bytes_ok_drop n l : bytes_ok l → bytes_ok (drop n l).
Proof. apply Forall_drop. Qed.

Lemma length_be n x : length (be n x) = n.
Proof. induction n; cbn; congruence. Qed.
Lemma length_zeros n : length (zeros n) = n.
Proof. apply length_replicate. Qed.

Lemma of_be_acc l a : foldl (λ acc b, acc * 256 + b) a l = a * 256 ^ len l + of_be l.
Proof.
  unfold of_be, len. revert a. induction l as [|b l IH]; intros a; cbn [foldl length].
  - lia.
  - rewrite IH, (IH (0 * 256 + b)). rewrite Nat2Z.inj_succ, Z.pow_succ_r by lia. ring.
Qed.
Lemma of_be_cons b l : of_be (b :: l) = b * 256 ^ len l + of_be l.
Proof. unfold of_be. cbn [foldl]. rewrite of_be_acc. f_equal. Qed.
Lemma of_be_app l k : of_be (l ++ k) = of_be l * 256 ^ len k + of_be k.
Proof. unfold of_be. rewrite foldl_app, of_be_acc. done. Qed.

Lemma of_be_bound l : bytes_ok l → 0 ≤ of_be l < 256 ^ len l.
Proof.
  induction 1 as [|b l Hb Hl IH]; [done|].
  rewrite of_be_cons. unfold len in *. cbn [length].
  rewrite Nat2Z.inj_succ, Z.pow_succ_r by lia. nia.
Qed.

Lemma mod_mul_256 x n :
  x `mod` 256 ^ Z.of_nat (S n) = byte_of x n * 256 ^ Z.of_nat n + x `mod` 256 ^ Z.of_nat n.
Proof.
  unfold byte_of. rewrite Nat2Z.inj_succ, Z.pow_succ_r by lia.
  assert (0 < 256 ^ Z.of_nat n) by (apply Z.pow_pos_nonneg; lia).
  rewrite (Z.mul_comm 256), Z.rem_mul_r by lia. ring.
Qed.

Lemma of_be_be n x : of_be (be n x) = x `mod` 256 ^ Z.of_nat n.
Proof.
  induction n as [|n IH]; [cbn; by rewrite Z.mod_1_r|].
  cbn [be]. rewrite of_be_cons, IH. unfold len. rewrite length_be.
  by rewrite mod_mul_256.
Qed.
Lemma of_be_be_id n x : 0 ≤ x < 256 ^ Z.of_nat n → of_be (be n x) = x.
Proof. intros. rewrite of_be_be. by apply Z.mod_small. Qed.

Lemma be_mod n x y : x `mod` 256 ^ Z.of_nat n = y `mod` 256 ^ Z.of_nat n → be n x = be n y.
Proof.
  induction n as [|n IH]; [done|]. intros H. rewrite !mod_mul_256 in H.
  assert (0 < 256 ^ Z.of_nat n) by (apply Z.pow_pos_nonneg; lia).
  pose proof (Z.mod_pos_bound x (256 ^ Z.of_nat n) ltac:(lia)).
  pose proof (Z.mod_pos_bound y (256 ^ Z.of_nat n) ltac:(lia)).
  assert (byte_of x n = byte_of y n) by nia.
  cbn [be]. f_equal; [done|]. apply IH. nia.
Qed.

Lemma be_of_be l : bytes_ok l → be (length l) (of_be l) = l.
Proof.
  induction 1 as [|b l Hb Hl IH]; [done|]. cbn [be length].
  pose proof (of_be_bound l Hl) as Hbd. unfold len in Hbd. rewrite of_be_cons. unfold len. f_equal.
  - unfold byte_of. rewrite Z.div_add_l by lia.
    rewrite Z.div_small by lia. rewrite Z.add_0_r. apply Z.mod_small. lia.
  - etrans; [|exact IH]. apply be_mod. rewrite Z.add_comm. by rewrite Z_mod_plus_full.
Qed.

(** The folded forms that decoding an encoded field produces. *)
Lemma of_be_1 x : u8 x → of_be [byte_of x 0] = x.
Proof. intros. apply (of_be_be_id 1). lia. Qed.
Lemma of_be_2 x : u16 x → of_be [byte_of x 1; byte_of x 0] = x.
Proof. intros. apply (of_be_be_id 2). lia. Qed.
Lemma of_be_4 x : u32 x → of_be [byte_of x 3; byte_of x 2; byte_of x 1; byte_of x 0] = x.
Proof. intros. apply (of_be_be_id 4). lia. Qed.
Lemma of_be_8 x : u64 x →
  of_be [byte_of x 7; byte_of x 6; byte_of x 5; byte_of x 4;
         byte_of x 3; byte_of x 2; byte_of x 1; byte_of x 0] = x.
Proof. intros. apply (of_be_be_id 8). lia. Qed.
Lemma of_be_16 x : u128 x →
  of_be [byte_of x 15; byte_of x 14; byte_of x 13; byte_of x 12;
         byte_of x 11; byte_of x 10; byte_of x 9; byte_of x 8;
         byte_of x 7; byte_of x 6; byte_of x 5; byte_of x 4;
         byte_of x 3; byte_of x 2; byte_of x 1; byte_of x 0] = x.
Proof. intros. apply (of_be_be_id 16). lia. Qed.

Lemma slice_ok {E A} (l : list A) a b :
  (a ≤ b)%nat → (b ≤ length l)%nat → @slice E A l a b = Ok (take (b - a) (drop a l)).
Proof.
  intros. unfold slice. by rewrite (proj2 (Nat.leb_le a b)), (proj2 (Nat.leb_le b (length l))).
Qed.
Lemma slice_from_ok {E A} (l : list A) a :
  (a ≤ length l)%nat → @slice_from E A l a = Ok (drop a l).
Proof. intros. unfold slice_from. by rewrite (proj2 (Nat.leb_le _ _)). Qed.
Lemma get_slice_ok {A} (l : list A) a b :
  (a ≤ b)%nat → (b ≤ length l)%nat → get_slice l a b = Some (take (b - a) (drop a l)).
Proof.
  intros. unfold get_slice. by rewrite (proj2 (Nat.leb_le a b)), (proj2 (Nat.leb_le b (length l))).
Qed.
Lemma get_from_ok {A} (l : list A) a : (a ≤ length l)%nat → get_from l a = Some (drop a l).
Proof. intros. unfold get_from. by rewrite (proj2 (Nat.leb_le _ _)). Qed.
Lemma put_ok {E} l a d :
  (a + length d ≤ length l)%nat → @put E l a d = Ok (take a l ++ d ++ drop (a + length d) l).
Proof. intros. unfold put. by rewrite (proj2 (Nat.leb_le _ _)). Qed.

Lemma get_slice_Some {A} (l : list A) a b k :
  get_slice l a b = Some k → (a ≤ b ≤ length l)%nat ∧ k = take (b - a) (drop a l).
Proof. unfold get_slice. destruct (_ && _) eqn:E; [|done]. intros [= <-]. split; [lia|done]. Qed.
Lemma get_from_Some {A} (l : list A) a k :
  get_from l a = Some k → (a ≤ length l)%nat ∧ k = drop a l.
Proof. unfold get_from. destruct (_ <=? _)%nat eqn:E; [|done]. intros [= <-]. split; [lia|done]. Qed.

(** ** Absence of panics *)

Lemma safe_idx {E A} (l : list A) i : (i < length l)%nat → safe (@idx E A l i).
Proof. intros [x Hx]%lookup_lt_is_Some. unfold idx. by rewrite Hx. Qed.
Lemma safe_slice {E A} (l : list A) a b :
  (a ≤ b)%nat → (b ≤ length l)%nat → safe (@slice E A l a b).
Proof. intros. by rewrite slice_ok. Qed.
Lemma safe_slice_from {E A} (l : list A) a : (a ≤ length l)%nat → safe (@slice_from E A l a).
Proof. intros. by rewrite slice_from_ok. Qed.
Lemma safe_put {E} l a d : (a + length d ≤ length l)%nat → safe (@put E l a d).
Proof. intros. by rewrite put_ok. Qed.
Lemma safe_u16_at {E} l i : (i + 1 < length l)%nat → safe (@u16_at E l i).
Proof. intros. unfold u16_at. do 2 (apply safe_bind; [apply safe_idx; lia | intros ? _]). done. Qed.
Lemma safe_u32_at {E} l i : (i + 3 < length l)%nat → safe (@u32_at E l i).
Proof. intros. unfold u32_at. do 4 (apply safe_bind; [apply safe_idx; lia | intros ? _]). done. Qed.

Lemma idx_Ok {E A} (l : list A) i x : @idx E A l i = Ok x ↔ l !! i = Some x.
Proof. unfold idx. destruct (l !! i); split; congruence. Qed.
Lemma slice_Ok_inv {E A} (l k : list A) a b :
  @slice E A l a b = Ok k → (a ≤ b ≤ length l)%nat ∧ k = take (b - a) (drop a l).
Proof. unfold slice. destruct (_ && _) eqn:H; [|done]. intros [= <-]. split; [lia|done]. Qed.
Lemma slice_from_Ok_inv {E A} (l k : list A) a :
  @slice_from E A l a = Ok k → (a ≤ length l)%nat ∧ k = drop a l.
Proof. unfold slice_from. destruct (_ <=? _)%nat eqn:H; [|done]. intros [= <-]. split; [lia|done]. Qed.
#[export] Hint Resolve safe_idx safe_slice safe_slice_from safe_put safe_u16_at safe_u32_at : safe.
Create HintDb bytes_ok.
#[export] Hint Resolve bytes_ok_nil bytes_ok_cons bytes_ok_app bytes_ok_be bytes_ok_zeros
  bytes_ok_take bytes_ok_drop byte_of_range : bytes_ok.

(** Lengths of concatenated and sliced byte strings, for [lia]. *)
Create Rewrite HintDb lens.
#[export] Hint Rewrite @length_app @length_take @length_drop @length_cons @length_nil
  @length_replicate length_be length_zeros : lens.
Ltac lens := unfold len in *; autorewrite with lens in *; cbn [length] in *; try lia.

(** Solve [safe m] by walking the monadic code; every guard is in the context. *)
Ltac solve_safe :=
  repeat first
    [ progress intros
    | apply safe_Ok | apply safe_Err | apply safe_ok_or
    | apply safe_or_err | apply safe_map_err
    | apply safe_bind
    | match goal with |- safe (if ?c then _ else _) => apply safe_if end
    | match goal with |- safe (match ?x with _ => _ end) => destruct x eqn:? end
    | apply safe_idx; lens | apply safe_slice; lens | apply safe_slice_from; lens
    | apply safe_u16_at; lens | apply safe_u32_at; lens | apply safe_put; lens
    | apply safe_arith; lens
    | solve [eauto with safe] ].

Arguments byte_of : simpl never.
Arguments of_be : simpl never.
Arguments Z.div : simpl never.
Arguments Z.modulo : simpl never.
Arguments slice : simpl never.
Arguments slice_from : simpl never.
Arguments get_slice : simpl never.
Arguments get_from : simpl never.
Arguments put : simpl never.
Arguments len : simpl never.

(** Compute every accessor applied to an explicit list: [read] evaluates the
    indices, [seek] the slices whose bounds [lia] can establish. *)
Ltac read :=
  unfold u16_at, u32_at;
  cbn -[of_be byte_of Z.div Z.modulo Z.of_nat Z.to_nat length len slice slice_from put Z.pow
        Z.ltb Z.leb Z.eqb Z.add Z.mul Z.sub Nat.leb Nat.ltb Nat.add Nat.eqb get_slice get_from
        Z.land Z.lor Z.shiftr Z.shiftl Z.lxor].
Ltac seek :=
  repeat first
    [ rewrite slice_ok by lens | rewrite slice_from_ok by lens
    | rewrite get_slice_ok by lens | rewrite get_from_ok by lens
    | rewrite put_ok by lens ];
  read.

Lemma get_slice_at {A} (l : list A) a n :
  (a + n ≤ length l)%nat → get_slice l a (a + n) = Some (take n (drop a l)).
Proof. intros. rewrite get_slice_ok by lia. do 2 f_equal. lia. Qed.
Lemma slice_at {E A} (l : list A) a n :
  (a + n ≤ length l)%nat → @slice E A l a (a + n) = Ok (take n (drop a l)).
Proof. intros. rewrite slice_ok by lia. do 2 f_equal. lia. Qed.

(** Compute an encoder or decoder applied to explicit bytes, keeping the
    arithmetic on symbolic octets folded. *)
Ltac crunch :=
  cbv -[byte_of of_be Z.eqb Z.leb Z.ltb Z.land Z.lor Z.lxor Z.shiftl Z.shiftr Z.testbit
        Z.add Z.sub Z.mul Z.div Z.modulo Z.pow not].
Ltac crunch_in H :=
  cbv -[byte_of of_be Z.eqb Z.leb Z.ltb Z.land Z.lor Z.lxor Z.shiftl Z.shiftr Z.testbit
        Z.add Z.sub Z.mul Z.div Z.modulo Z.pow not] in H.
(** Put back the boolean connectives that [crunch] unfolded. *)
Ltac fold_bools :=
  repeat match goal with
  | H : context [if ?a then true else ?b] |- _ => change (if a then true else b) with (orb a b) in H
  | H : context [if ?a then ?b else false] |- _ => change (if a then b else false) with (andb a b) in H
  | H : context [if ?a then false else true] |- _ => change (if a then false else true) with (negb a) in H
  end.

(** The octets of a decoded field are the octets it was read from. *)
Lemma nth_be n x k : (k < n)%nat → nth (n - 1 - k) (be n x) 0 = byte_of x k.
Proof.
  intros Hn. induction n as [|n IH]; [lia|]. cbn [be].
  destruct (decide (k = n)) as [->|Hne].
  - by replace (S n - 1 - n)%nat with 0%nat by lia.
  - replace (S n - 1 - k)%nat with (S (n - 1 - k)) by lia. cbn [nth]. apply IH. lia.
Qed.
Lemma byte_of_of_be l k :
  bytes_ok l → (k < length l)%nat → byte_of (of_be l) k = nth (length l - 1 - k) l 0.
Proof. intros Hl Hk. rewrite <-(nth_be (length l)) by done. by rewrite be_of_be. Qed.
Ltac octets :=
  unfold bytes_ok;
  repeat (apply Forall_cons_2; [cbv beta; try first [assumption | lia]|]);
  try first [apply Forall_nil_2 | assumption | lia].

(** The octets of an explicit byte string, each with its own range. *)
Ltac split_octets H :=
  unfold bytes_ok in H;
  repeat (let x := fresh "Hb" in apply Forall_cons in H as [x H]).

(** Equality of explicit byte strings up to re-encoding decoded fields. *)
Ltac fields :=
  repeat (rewrite byte_of_of_be by (octets || (cbn [length]; lia)));
  cbn [nth length Nat.sub].

(** [explode l n] splits [l], known to have length [n], into its octets. *)
Ltac explode l n :=
  lazymatch n with
  | O => destruct l; [|exfalso; cbn [length] in *; lia]
  | S ?k => let b := fresh "b" in destruct l as [|b l]; [exfalso; cbn [length] in *; lia|]; explode l k
  end.

(** The octets of a decoded integer are in range. *)
Lemma u8_of_be a : bytes_ok [a] → u8 (of_be [a]).
Proof. intros H%of_be_bound. unfold len in H. cbn in H. lia. Qed.
Lemma u16_of_be a b : bytes_ok [a; b] → u16 (of_be [a; b]).
Proof. intros H%of_be_bound. unfold len in H. cbn in H. lia. Qed.
Lemma u32_of_be a b c d : bytes_ok [a; b; c; d] → u32 (of_be [a; b; c; d]).
Proof. intros H%of_be_bound. unfold len in H. cbn in H. lia. Qed.
Lemma u64_of_be a b c d e f g h :
  bytes_ok [a; b; c; d; e; f; g; h] → u64 (of_be [a; b; c; d; e; f; g; h]).
Proof. intros H%of_be_bound. unfold len in H. cbn in H. lia. Qed.

Lemma starts_with_spec l p : starts_with l p = true → l = p ++ drop (length p) l.
Proof. unfold starts_with. intros H%bool_decide_eq_true_1. rewrite <-H at 1. by rewrite take_drop. Qed.

(** What the accessors return from octets. *)
Lemma idx_u8 {E} l i x : bytes_ok l → @idx E Z l i = Ok x → u8 x.
Proof. intros Hl H%idx_Ok. exact (Forall_lookup_1 _ _ _ _ Hl H). Qed.
Lemma u16_at_u16 {E} l i x : bytes_ok l → @u16_at E l i = Ok x → u16 x.
Proof.
  unfold u16_at. intros Hl H. inv_ok. apply u16_of_be. octets; by eapply idx_u8.
Qed.
Lemma u32_at_u32 {E} l i x : bytes_ok l → @u32_at E l i = Ok x → u32 x.
Proof.
  unfold u32_at. intros Hl H. inv_ok. apply u32_of_be. octets; by eapply idx_u8.
Qed.
Lemma slice_bytes_ok {E} l a b k : bytes_ok l → @slice E Z l a b = Ok k → bytes_ok k.
Proof. intros Hl [_ ->]%slice_Ok_inv. auto with bytes_ok. Qed.
Lemma slice_from_bytes_ok {E} l a k : bytes_ok l → @slice_from E Z l a = Ok k → bytes_ok k.
Proof. intros Hl [_ ->]%slice_from_Ok_inv. auto with bytes_ok. Qed.
Lemma get_slice_bytes_ok l a b k : bytes_ok l → get_slice l a b = Some k → bytes_ok k.
Proof. intros Hl [_ ->]%get_slice_Some. auto with bytes_ok. Qed.
Lemma get_from_bytes_ok l a k : bytes_ok l → get_from l a = Some k → bytes_ok k.
Proof. intros Hl [_ ->]%get_from_Some. auto with bytes_ok. Qed.
(** The range of a value read by one of the accessors. *)
Ltac ranges :=
  first
    [ assumption
    | solve [eapply idx_u8; [|eassumption]; ranges]
    | solve [eapply u16_at_u16; [|eassumption]; ranges]
    | solve [eapply u32_at_u32; [|eassumption]; ranges]
    | solve [eapply slice_bytes_ok; [|eassumption]; ranges]
    | solve [eapply slice_from_bytes_ok; [|eassumption]; ranges]
    | solve [eapply get_slice_bytes_ok; [|eassumption]; ranges]
    | solve [eapply get_from_bytes_ok; [|eassumption]; ranges] ].

(** Run a sequence of stores into a buffer whose first octets are explicit. *)
Ltac tidy :=
  cbn [take drop app length Nat.add Nat.sub be zeros replicate]; rewrite ?take_0, ?drop_0, ?app_nil_l, ?bind_Ok.
Ltac puts := repeat (tidy; rewrite put_ok by lens); tidy.

(** Compute the octets of constants. *)
Ltac const_byte x k :=
  lazymatch x with
  | Z0 => eval vm_compute in (byte_of x k)
  | Zpos _ => eval vm_compute in (byte_of x k)
  end.
Ltac const_bytes :=
  repeat match goal with
  | |- context [byte_of ?x ?k] => let v := const_byte x k in change (byte_of x k) with v
  | H : context [byte_of ?x ?k] |- _ => let v := const_byte x k in change (byte_of x k) with v in H
  end.
Lemma of_be_one a : of_be [a] = a.
Proof. unfold of_be. cbn. lia. Qed.
Lemma of_be_two a b : of_be [a; b] = a * 256 + b.
Proof. unfold of_be. cbn. lia. Qed.

(** ** Cursors *)

(** [cursor l n t]: reading [l] from position [n] sees [t]. *)
Definition cursor {A} (l : list A) (n : nat) (t : list A) : Prop := (n ≤ length l)%nat ∧ drop n l = t.

Lemma cursor_0 {A} (l : list A) : cursor l 0 l.
Proof. split; [lia|done]. Qed.
Lemma cursor_app {A} (pre t : list A) : cursor (pre ++ t) (length pre) t.
Proof. split; [lens|]. apply drop_app_length. Qed.
Lemma cursor_skip {A} (l : list A) n p t : cursor l n (p ++ t) → cursor l (n + length p) t.
Proof.
  intros [Hn Hd]. assert (Hl : length (drop n l) = length (p ++ t)) by by rewrite Hd. split; [lens|].
  rewrite <-drop_drop, Hd. apply drop_app_length.
Qed.
Lemma cursor_cons {A} (l : list A) n x t :
  cursor l n (x :: t) → l !! n = Some x ∧ cursor l (n + 1) t.
Proof.
  intros H. split; [|exact (cursor_skip l n [x] t H)].
  destruct H as [_ H]. rewrite <-(Nat.add_0_r n), <-lookup_drop, H. done.
Qed.
Lemma cursor_slice {A} (l : list A) n p t :
  cursor l n (p ++ t) → get_slice l n (n + length p) = Some p ∧ cursor l (n + length p) t.
Proof.
  intros H. pose proof (cursor_skip _ _ _ _ H) as [Hn _]. split; [|by apply cursor_skip].
  destruct H as [_ H]. rewrite get_slice_at, H, take_app_length by done. done.
Qed.
Lemma cursor_end {A} (l : list A) n : cursor l n [] → n = length l.
Proof. intros [Hn H]. apply (f_equal length) in H. lens. Qed.
Lemma cursor_length {A} (l : list A) n t : cursor l n t → length l = (n + length t)%nat.
Proof. intros [Hn <-]. lens. Qed.

(** ** Bit fields *)

(** Shifting a field left and or-ing in the low bits is an addition. *)
Lemma lor_shiftl a b n : 0 ≤ n → 0 ≤ b < 2 ^ n → Z.lor (Z.shiftl a n) b = a * 2 ^ n + b.
Proof.
  intros Hn Hb. pose proof (Z.add_lor_land (Z.shiftl a n) b) as Hadd.
  assert (Z.land (Z.shiftl a n) b = 0) as Hz.
  { apply Z.bits_inj'. intros k Hk. rewrite Z.land_spec, Z.bits_0, Z.shiftl_spec by done.
    destruct (Z.ltb_spec k n); [by rewrite Z.testbit_neg_r by lia|].
    destruct (Z.eq_dec b 0) as [->|]; [by rewrite Z.bits_0, andb_false_r|].
    rewrite (Z.bits_above_log2 b k), andb_false_r; [done|lia|].
    apply Z.log2_lt_pow2; [lia|]. assert (2 ^ n ≤ 2 ^ k) by (apply Z.pow_le_mono_r; lia). lia. }
  rewrite <-Z.shiftl_mul_pow2 by done. lia.
Qed.

(** Fields read out of a word, the low ones by mask and the high ones by shift. *)
Lemma be_split m n x : be (m + n) x = be m (x `div` 256 ^ Z.of_nat n) ++ be n x.
Proof.
  induction m as [|m IH]; [done|]. cbn [Nat.add be app]. rewrite IH. f_equal. unfold byte_of.
  assert (0 < 256 ^ Z.of_nat n) by (apply Z.pow_pos_nonneg; lia).
  assert (0 < 256 ^ Z.of_nat m) by (apply Z.pow_pos_nonneg; lia).
  rewrite Z.div_div, <-Z.pow_add_r by lia. do 3 f_equal. lia.
Qed.
Lemma of_be_four a b c d : of_be [a; b; c; d] = ((a * 256 + b) * 256 + c) * 256 + d.
Proof. unfold of_be. cbn. lia. Qed.

(** Masks and shifts of octets as arithmetic. *)
Lemma land_mask x n : 0 ≤ n → Z.land x (2 ^ n - 1) = x `mod` 2 ^ n.
Proof. intros. rewrite <-Z.land_ones by done. by rewrite Z.ones_equiv. Qed.
Lemma land_15 x : Z.land x 15 = x `mod` 16.
Proof. exact (land_mask x 4 ltac:(lia)). Qed.
Lemma shiftr_4 x : Z.shiftr x 4 = x `div` 16.
Proof. by rewrite Z.shiftr_div_pow2. Qed.
Lemma be_of_be_n n l : length l = n → bytes_ok l → be n (of_be l) = l.
Proof. intros <-. apply be_of_be. Qed.
Lemma of_be_inj l k : length l = length k → bytes_ok l → bytes_ok k → of_be l = of_be k → l = k.
Proof. intros Hn Hl Hk H. rewrite <-(be_of_be l), <-(be_of_be k) by done. by rewrite Hn, H. Qed.

(** The complete chunks of a string of [n]-octet integers. *)
Lemma length_concat_be n xs : length (concat (map (be n) xs)) = (n * length xs)%nat.
Proof.
  induction xs as [|x xs IH]; cbn [map concat length]; [lia|]. rewrite length_app, IH, length_be. lia.
Qed.
Lemma chunks_be n xs : (0 < n)%nat → as_chunks n (concat (map (be n) xs)) = map (be n) xs.
Proof.
  intros Hn. unfold as_chunks. rewrite length_concat_be.
  assert (H : ∀ fuel, (length xs ≤ fuel)%nat → chunks_aux fuel n (concat (map (be n) xs)) = map (be n) xs).
  { induction xs as [|x xs IH]; intros [|fuel] Hf; cbn [length] in Hf; try lia; try done.
    { cbn [map concat chunks_aux length]. destruct (Nat.ltb_spec 0 n); [done|lia]. }
    cbn [map concat chunks_aux]. destruct (Nat.ltb_spec (length (be n x ++ concat (map (be n) xs))) n);
      [lens|]. rewrite take_app_length', drop_app_length' by by rewrite length_be.
    f_equal. apply IH. lia. }
  apply H. nia.
Qed.
Lemma map_of_be n xs :
  Forall (λ x, 0 ≤ x < 256 ^ Z.of_nat n) xs → map of_be (map (be n) xs) = xs.
Proof.
  induction 1 as [|x xs Hx _ IH]; [done|]. cbn [map]. rewrite IH. f_equal. by apply of_be_be_id.
Qed.
(** The low octets of a multiple of a power of two are zero. *)
Lemma byte_of_multiple x m k :
  8 * (Z.of_nat k + 1) ≤ m → x `mod` 2 ^ m = 0 → byte_of x k = 0.
Proof.
  intros Hk Hx. apply Z.mod_divide in Hx as [q ->]; [|apply Z.pow_nonzero; lia]. unfold byte_of.
  change 256 with (2 ^ 8). rewrite <-Z.pow_mul_r by lia.
  replace m with (m - 8 * (Z.of_nat k + 1) + 8 + 8 * Z.of_nat k) by lia.
  rewrite !Z.pow_add_r by lia. rewrite !Z.mul_assoc, Z.div_mul by (apply Z.pow_nonzero; lia).
  apply Z_mod_mult.
Qed.
Lemma u16_at_be {E} x rest : u16 x → @u16_at E (be 2 x ++ rest) 0 = Ok x.
Proof. intros. cbn [be app]. read. by rewrite of_be_2. Qed.

(** Blocks of one size, as [as_chunks] cuts them. *)
Lemma chunks_concat n xs :
  (0 < n)%nat → Forall (λ x, length x = n) xs → as_chunks n (concat xs) = xs.
Proof.
  intros Hn Hxs. unfold as_chunks.
  assert (Hf : ∀ f, (length (concat xs) ≤ f)%nat → chunks_aux f n (concat xs) = xs); [|by apply Hf].
  induction Hxs as [|x xs Hx Hxs IH]; intros f Hf.
  - destruct f; [done|]. cbn [concat chunks_aux length]. destruct (_ <? n)%nat eqn:E; [done|lia].
  - cbn [concat] in *. rewrite length_app in Hf. destruct f as [|f]; [lia|]. cbn [chunks_aux].
    rewrite length_app. destruct (_ <? n)%nat eqn:E; [lia|].
    rewrite take_app_length', drop_app_length' by done. f_equal. apply IH. lia.
Qed.
Lemma length_concat_blocks n (xs : list bytes) :
  Forall (λ x, length x = n) xs → length (concat xs) = (n * length xs)%nat.
Proof. induction 1 as [|x xs Hx _ IH]; cbn [concat length]; [lia|]. rewrite length_app. lia. Qed.
Lemma bytes_ok_concat xs : Forall bytes_ok xs → bytes_ok (concat xs).
Proof. induction 1; cbn [concat]; auto with bytes_ok. Qed.
Lemma as_chunks_sizes n l :
  (0 < n)%nat → bytes_ok l → Forall (λ x, length x = n ∧ bytes_ok x) (as_chunks n l).
Proof.
  intros Hn. unfold as_chunks. generalize (length l) at 1 as f. intros f. revert l.
  induction f as [|f IH]; intros l Hl; cbn [chunks_aux]; [constructor|].
  destruct (_ <? n)%nat eqn:E; [constructor|]. constructor.
  - split; [lens|]. by apply bytes_ok_take.
  - by apply IH, bytes_ok_drop.
Qed.

Lemma as_chunks_count n l : (0 < n)%nat → length l = (n * length (as_chunks n l) + length l `mod` n)%nat.
Proof.
  intros Hn. unfold as_chunks.
  assert (H : ∀ f l, (length l ≤ f)%nat → length l = (n * length (chunks_aux f n l) + length l `mod` n)%nat);
    [|by apply H].
  clear l. induction f as [|f IH]; intros l Hl; cbn [chunks_aux].
  - assert (length l = 0%nat) as -> by lia. rewrite Nat.Div0.mod_0_l. cbn. lia.
  - destruct (length l <? n)%nat eqn:E.
    + rewrite Nat.mod_small by lia. cbn. lia.
    + cbn [length]. specialize (IH (drop n l) ltac:(lens)). rewrite length_drop in IH.
      assert ((length l `mod` n)%nat = ((length l - n) `mod` n)%nat) as ->.
      { replace (length l) with (length l - n + 1 * n)%nat at 1 by lia. by rewrite Nat.Div0.mod_add. }
      lia.
Qed.
Lemma parsed_chunks {E A} (f : bytes → res E A) n l ys m :
  (0 < n)%nat → try_map f (as_chunks n l) = Ok ys → length l = (n * m)%nat → length ys = m.
Proof.
  intros Hn H%try_map_Ok%Forall2_length Hl. pose proof (as_chunks_count n l Hn) as Hc.
  assert ((length l `mod` n)%nat = 0%nat) as H0 by (by rewrite Hl, Nat.mul_comm, Nat.Div0.mod_mul).
  rewrite H, H0 in Hc. nia.
Qed.

(** ** Signed 32-bit integers: [i32::to_be_bytes] is [be 4], since [be] reduces
    modulo [2^32]; [i32::from_be_bytes] reinterprets the top bit. *)
Definition I32_MIN : Z := -2147483648.
Abbreviation i32 x := (-2147483648 ≤ x ≤ 2147483647)%Z.
Definition to_i32 (x : Z) : Z := if x <? 2147483648 then x else x - 4294967296.
Lemma to_i32_be x : i32 x → to_i32 (of_be (be 4 x)) = x.
Proof.
  intros Hx. rewrite of_be_be. change (256 ^ Z.of_nat 4) with 4294967296. unfold to_i32.
  destruct (decide (0 ≤ x)).
  - rewrite Z.mod_small by lia. decide_ifs. done.
  - replace x with ((x + 4294967296) + -1 * 4294967296) by lia. rewrite Z_mod_plus_full.
    rewrite Z.mod_small by lia. decide_ifs. lia.
Qed.
Lemma to_i32_range x : u32 x → i32 (to_i32 x).
Proof. intros. unfold to_i32. case_match; lia. Qed.
