(* ===== verification/State.v ===== *)
(** Methods that take [&mut self] and return a [Result]: a small state and error
    monad. An error leaves the state as it is at that point, as a Rust [?]
    does.

    Two facts about such methods are proved by composition: that they preserve
    an invariant ([preserves]), and that a rejected call leaves the state
    unchanged ([atomic]). *)
From S2P Require Import Prelude.

Definition stateful (S E A : Type) : Type := S → res E A * S.
#[export] Instance stateful_mret {S E} : MRet (stateful S E) := λ A a s, (Ok a, s).
#[export] Instance stateful_mbind {S E} : MBind (stateful S E) := λ A B f m s,
  match m s with
  | (Ok a, s) => f a s
  | (Err e, s) => (Err e, s)
  | (Panic, s) => (Panic, s)
  end.

Section operations.
Context {S E : Type}.
(** Read, write, return an error, and use a computation without state. *)
Definition gets {A} (f : S → A) : stateful S E A := λ s, (Ok (f s), s).
Definition modify (f : S → S) : stateful S E () := λ s, (Ok (), f s).
Definition fail {A} (e : E) : stateful S E A := λ s, (Err e, s).
Definition lift {A} (m : res E A) : stateful S E A := λ s, (m, s).
Definition try_gets {A} (f : S → res E A) : stateful S E A := λ s, (f s, s).
(** [if c { return Err(e) }]. *)
Definition reject_if (c : S → bool) (e : E) : stateful S E () := λ s, if c s then (Err e, s) else (Ok (), s).
(** The same where evaluating the condition may panic. *)
Definition try_reject_if (c : S → res E bool) (e : E) : stateful S E () := λ s,
  match c s with
  | Ok b => (if b : bool then Err e else Ok (), s)
  | Err e => (Err e, s)
  | Panic => (Panic, s)
  end.
(** [self.f().ok_or(e)?]. *)
Definition require {A} (f : S → option A) (e : E) : stateful S E A := λ s, (ok_or (f s) e, s).
End operations.

(** Running a bind whose first part is one of the steps. *)
Section run.
Context {S E A B : Type}.
Lemma run_reject (c : S → bool) (e : E) (k : () → stateful S E B) s :
  (reject_if c e ≫= k) s = if c s then (Err e, s) else k () s.
Proof. unfold mbind, stateful_mbind, reject_if. by destruct (c s). Qed.
Lemma run_try_reject (c : S → res E bool) (e : E) (k : () → stateful S E B) s b :
  c s = Ok b → (try_reject_if c e ≫= k) s = if b then (Err e, s) else k () s.
Proof. intros H. unfold mbind, stateful_mbind, try_reject_if. rewrite H. by destruct b. Qed.
Lemma run_gets (f : S → A) (k : A → stateful S E B) s : (gets f ≫= k) s = k (f s) s.
Proof. done. Qed.
Lemma run_modify (f : S → S) (k : () → stateful S E B) s : (modify f ≫= k) s = k () (f s).
Proof. done. Qed.
Lemma run_try_gets (f : S → res E A) (k : A → stateful S E B) s :
  (try_gets f ≫= k) s = match f s with Ok a => k a s | Err e => (Err e, s) | Panic => (Panic, s) end.
Proof. unfold mbind, stateful_mbind, try_gets. by destruct (f s). Qed.
Lemma run_lift (r : res E A) (k : A → stateful S E B) s :
  (lift r ≫= k) s = match r with Ok a => k a s | Err e => (Err e, s) | Panic => (Panic, s) end.
Proof. unfold mbind, stateful_mbind, lift. by destruct r. Qed.
Lemma run_require (f : S → option A) (e : E) (k : A → stateful S E B) s :
  (require f e ≫= k) s = match f s with Some a => k a s | None => (Err e, s) end.
Proof. unfold mbind, stateful_mbind, require, ok_or. by destruct (f s). Qed.
Lemma run_reject_false (p : S → bool) (e : E) (k : () → stateful S E B) s :
  p s = false → (reject_if p e ≫= k) s = k () s.
Proof. intros H. by rewrite run_reject, H. Qed.
Lemma run_bind (m : stateful S E A) (k : A → stateful S E B) s :
  (m ≫= k) s = match m s with (Ok a, s) => k a s | (Err e, s) => (Err e, s) | (Panic, s) => (Panic, s) end.
Proof. done. Qed.
End run.

Section logic.
Context {S E : Type}.
Implicit Types (I : S → Prop).

(** The state after a call satisfies the invariant again. *)
Definition preserves {A} I (m : stateful S E A) : Prop := ∀ s, I s → I (m s).2.
(** A call that returns an error has changed nothing. *)
Definition atomic {A} (m : stateful S E A) : Prop := ∀ s e, (m s).1 = Err e → (m s).2 = s.
(** A call that changes nothing, and one that returns no error. *)
Definition reads {A} (m : stateful S E A) : Prop := ∀ s, (m s).2 = s.
Definition succeeds {A} (m : stateful S E A) : Prop := ∀ s e, (m s).1 ≠ Err e.

Lemma preserves_bind {A B} I (m : stateful S E A) (k : A → stateful S E B) :
  preserves I m → (∀ a, preserves I (k a)) → preserves I (m ≫= k).
Proof.
  intros Hm Hk s Hs. specialize (Hm s Hs). unfold mbind, stateful_mbind.
  destruct (m s) as [[a|e|] s']; cbn in *; [by apply Hk|done|done].
Qed.
(** What the state and the result of the first part are known for the rest. *)
Lemma preserves_bind_with {A B} I (m : stateful S E A) (k : A → stateful S E B) :
  reads m → (∀ s a, I s → (m s).1 = Ok a → I (k a s).2) → preserves I (m ≫= k).
Proof.
  intros Hm Hk s Hs. specialize (Hm s). specialize (Hk s). unfold mbind, stateful_mbind.
  destruct (m s) as [[a|e|] s']; cbn in *; subst; [by apply Hk|done|done].
Qed.
Lemma preserves_reads {A} I (m : stateful S E A) : reads m → preserves I m.
Proof. intros H s Hs. by rewrite H. Qed.
Lemma preserves_modify I f : (∀ s, I s → I (f s)) → preserves I (@modify S E f).
Proof. intros H s Hs. by apply H. Qed.

Lemma reads_gets {A} (f : S → A) : reads (@gets S E A f).
Proof. done. Qed.
Lemma reads_fail {A} e : reads (@fail S E A e).
Proof. done. Qed.
Lemma reads_try_gets {A} (f : S → res E A) : reads (try_gets f).
Proof. done. Qed.
Lemma reads_lift {A} r : reads (@lift S E A r).
Proof. done. Qed.
Lemma reads_reject_if c e : reads (@reject_if S E c e).
Proof. intros s. unfold reject_if. by destruct (c s). Qed.
Lemma reads_try_reject_if c e : reads (@try_reject_if S E c e).
Proof. intros s. unfold try_reject_if. by destruct (c s) as [[]| |]. Qed.
Lemma reads_require {A} (f : S → option A) e : reads (@require S E A f e).
Proof. done. Qed.
Lemma reads_ret {A} (a : A) : reads (mret (M:=stateful S E) a).
Proof. done. Qed.
Lemma reads_bind {A B} (m : stateful S E A) (k : A → stateful S E B) :
  reads m → (∀ a, reads (k a)) → reads (m ≫= k).
Proof.
  intros Hm Hk s. specialize (Hm s). unfold mbind, stateful_mbind.
  destruct (m s) as [[a|e|] s']; cbn in *; subst; [apply Hk|done|done].
Qed.

Lemma atomic_reads {A} (m : stateful S E A) : reads m → atomic m.
Proof. intros H s e _. apply H. Qed.
Lemma atomic_succeeds {A} (m : stateful S E A) : succeeds m → atomic m.
Proof. intros H s e He. by destruct (H s e). Qed.
(** Checks before a change, and a change before calls that cannot fail. *)
Lemma atomic_bind_reads {A B} (m : stateful S E A) (k : A → stateful S E B) :
  reads m → (∀ a, atomic (k a)) → atomic (m ≫= k).
Proof.
  intros Hm Hk s e. specialize (Hm s). unfold mbind, stateful_mbind.
  destruct (m s) as [[a|e'|] s']; cbn in *; subst; [apply Hk|done|done].
Qed.
Lemma atomic_bind_succeeds {A B} (m : stateful S E A) (k : A → stateful S E B) :
  atomic m → (∀ s a, (m s).1 = Ok a → ∀ e, (k a (m s).2).1 ≠ Err e) → atomic (m ≫= k).
Proof.
  intros Hm Hk s e. specialize (Hm s e). specialize (Hk s). unfold mbind, stateful_mbind.
  destruct (m s) as [[a|e'|] s']; cbn in *; [|intros [= ->]; by apply Hm|done]. intros He. by destruct (Hk a eq_refl e).
Qed.
Lemma atomic_if {A} (b : bool) (m n : stateful S E A) : atomic m → atomic n → atomic (if b then m else n).
Proof. by destruct b. Qed.
Lemma succeeds_modify f : succeeds (@modify S E f).
Proof. done. Qed.
Lemma succeeds_ret {A} (a : A) : succeeds (mret (M:=stateful S E) a).
Proof. done. Qed.
Lemma succeeds_gets {A} (f : S → A) : succeeds (@gets S E A f).
Proof. done. Qed.
Lemma succeeds_bind {A B} (m : stateful S E A) (k : A → stateful S E B) :
  succeeds m → (∀ a, succeeds (k a)) → succeeds (m ≫= k).
Proof.
  intros Hm Hk s e. specialize (Hm s e). unfold mbind, stateful_mbind.
  destruct (m s) as [[a|e'|] s']; cbn in *; [apply Hk|intros [= ->]; by apply Hm|done].
Qed.
Lemma atomic_bind {A B} (m : stateful S E A) (k : A → stateful S E B) :
  atomic m → (∀ a, succeeds (k a)) → atomic (m ≫= k).
Proof. intros Hm Hk. apply atomic_bind_succeeds; [done|]. intros s a _ e. apply Hk. Qed.

(** A call that does not panic. *)
Definition panic_free {A} (m : stateful S E A) : Prop := ∀ s, (m s).1 ≠ Panic.
Lemma panic_free_bind {A B} (m : stateful S E A) (k : A → stateful S E B) :
  panic_free m → (∀ a, panic_free (k a)) → panic_free (m ≫= k).
Proof.
  intros Hm Hk s. specialize (Hm s). unfold mbind, stateful_mbind.
  destruct (m s) as [[a|e'|] s']; cbn in *; [apply Hk|done|done].
Qed.
Lemma panic_free_succeeds f : panic_free (@modify S E f).
Proof. done. Qed.
Lemma panic_free_ret {A} (a : A) : panic_free (mret (M:=stateful S E) a).
Proof. done. Qed.
Lemma panic_free_gets {A} (f : S → A) : panic_free (@gets S E A f).
Proof. done. Qed.
Lemma panic_free_reject_if c e : panic_free (@reject_if S E c e).
Proof. intros s. unfold reject_if. by destruct (c s). Qed.
Lemma panic_free_require {A} (f : S → option A) e : panic_free (@require S E A f e).
Proof. intros s. cbn. unfold ok_or. by destruct (f s). Qed.
Lemma panic_free_lift {A} (r : res E A) : r ≠ Panic → panic_free (@lift S E A r).
Proof. by intros H s. Qed.
End logic.

Create HintDb stateful.
#[export] Hint Resolve reads_gets reads_try_gets reads_fail reads_lift reads_reject_if reads_try_reject_if reads_require reads_ret
  atomic_reads succeeds_modify succeeds_ret succeeds_gets : stateful.
#[export] Hint Resolve reads_bind succeeds_bind : stateful.
#[export] Hint Resolve panic_free_bind panic_free_succeeds panic_free_ret panic_free_gets panic_free_reject_if
  panic_free_require panic_free_lift : stateful.
(** Split a method into its checks and its change. *)
Ltac atomic :=
  repeat lazymatch goal with
  | |- atomic (if _ then _ else _) => apply atomic_if
  | |- atomic (_ ≫= _) =>
      first [ apply atomic_bind_reads; [solve [eauto 8 with stateful] | intros ?]
            | apply atomic_bind; [ | intros ?; solve [eauto 8 with stateful] ] ]
  | |- atomic (let '(_, _) := ?x in _) => destruct x
  | |- atomic (match ?x with _ => _ end) => destruct x
  | |- atomic (modify _) => apply atomic_succeeds, succeeds_modify
  | |- atomic _ => solve [eauto with stateful]
  end.
