(* ===== verification/Text.v ===== *)
(** Text helpers shared by the parsers: a Rust [&str] is the list of its UTF-8
    octets, so splitting at an ASCII separator acts on octets. *)
From S2P Require Import Prelude Wire.

(** [s.split(c)] for an ASCII separator. *)
Fixpoint split (c : Z) (s : bytes) : list bytes :=
  match s with
  | [] => [[]]
  | b :: s' =>
      if b =? c then [] :: split c s'
      else match split c s' with
           | [] => [[b]]
           | p :: ps => (b :: p) :: ps
           end
  end.

(** The parts written out with a separator between them ([parts.join(c)]). *)
Fixpoint join (c : Z) (parts : list bytes) : bytes :=
  match parts with
  | [] => []
  | [p] => p
  | p :: ps => p ++ c :: join c ps
  end.
(** A literal of the source. *)
Fixpoint text (s : string) : bytes :=
  match s with
  | EmptyString => []
  | String a s => Z.of_nat (Ascii.nat_of_ascii a) :: text s
  end.
(** [str::to_ascii_lowercase]. *)
Definition lower (b : Z) : Z := if (65 <=? b) && (b <=? 90) then b + 32 else b.
Definition to_ascii_lowercase (s : bytes) : bytes := map lower s.

(** [u8::is_ascii_alphanumeric] and [str::is_ascii]. *)
Definition is_ascii_alphanumeric (b : Z) : bool :=
  ((48 <=? b) && (b <=? 57)) || ((65 <=? b) && (b <=? 90)) || ((97 <=? b) && (b <=? 122)).
Definition is_ascii (s : bytes) : bool := forallb (λ b, b <? 128) s.


(** [std::str::from_utf8]: the well-formed sequences of the Unicode standard. *)
Definition cont (b : Z) : bool := (128 <=? b) && (b <=? 191).
Definition within (lo hi b : Z) : bool := (lo <=? b) && (b <=? hi).
Fixpoint utf8_valid (s : bytes) : bool :=
  match s with
  | [] => true
  | b0 :: s =>
      if b0 <? 128 then utf8_valid s
      else if within 194 223 b0 then
        match s with b1 :: s => cont b1 && utf8_valid s | _ => false end
      else if within 224 239 b0 then
        match s with
        | b1 :: b2 :: s =>
            within (if b0 =? 224 then 160 else 128) (if b0 =? 237 then 159 else 191) b1
            && cont b2 && utf8_valid s
        | _ => false
        end
      else if within 240 244 b0 then
        match s with
        | b1 :: b2 :: b3 :: s =>
            within (if b0 =? 240 then 144 else 128) (if b0 =? 244 then 143 else 191) b1
            && cont b2 && cont b3 && utf8_valid s
        | _ => false
        end
      else false
  end.

(** [s.strip_suffix(c).unwrap_or(s)] for an ASCII character. *)
Definition strip_suffix (c : Z) (s : bytes) : bytes :=
  match last s with
  | Some b => if b =? c then removelast s else s
  | None => s
  end.

(** ** Facts *)

Lemma ascii_utf8 s : Forall (λ b, 0 ≤ b < 128) s → utf8_valid s = true.
Proof. induction 1 as [|b s Hb _ IH]; cbn; [done|]. by assert ((b <? 128) = true) as -> by lia. Qed.

Lemma split_not_nil c s : split c s ≠ [].
Proof. destruct s as [|b s]; cbn; [done|]. repeat case_match; done. Qed.

Lemma split_plain c p : c ∉ p → split c p = [p].
Proof.
  induction p as [|b p IH]; intros H; [done|]. cbn.
  rewrite not_elem_of_cons in H. destruct H as [Hb Hp].
  destruct (b =? c) eqn:?; [lia|]. by rewrite IH.
Qed.
Lemma split_app c p s : c ∉ p → split c (p ++ c :: s) = p :: split c s.
Proof.
  induction p as [|b p IH]; intros H; cbn; [by rewrite Z.eqb_refl|].
  rewrite not_elem_of_cons in H. destruct H as [Hb Hp].
  destruct (b =? c) eqn:?; [lia|]. by rewrite IH.
Qed.
Lemma split_join c ps : ps ≠ [] → Forall (λ p, c ∉ p) ps → split c (join c ps) = ps.
Proof.
  intros Hne H. induction H as [|p ps Hp Hps IH]; [done|].
  destruct ps as [|q ps]; [by apply split_plain|].
  change (join c (p :: q :: ps)) with (p ++ c :: join c (q :: ps)).
  rewrite split_app by done. by rewrite IH.
Qed.
Lemma join_split c s : join c (split c s) = s.
Proof.
  induction s as [|b s IH]; [done|]. cbn. destruct (Z.eqb_spec b c) as [->|].
  - destruct (split c s) eqn:E; [by apply split_not_nil in E|]. cbn in *. by rewrite IH.
  - destruct (split c s) as [|p ps] eqn:E; [by apply split_not_nil in E|].
    cbn in *. rewrite <-IH. by destruct ps.
Qed.

Lemma split_lower c s : ¬ (97 ≤ c ≤ 122) → ¬ (65 ≤ c ≤ 90) →
  split c (map lower s) = map (map lower) (split c s).
Proof.
  intros H1 H2. induction s as [|b s IH]; [done|]. cbn [map split].
  assert (Hb : (lower b =? c) = (b =? c)) by (unfold lower; case_match; lia).
  rewrite Hb, IH. destruct (b =? c); [done|]. by destruct (split c s).
Qed.
Lemma split_snoc c s : split c (s ++ [c]) = split c s ++ [[]].
Proof.
  induction s as [|b s IH]; cbn; [by rewrite Z.eqb_refl|]. rewrite IH.
  destruct (b =? c); [done|]. destruct (split c s) eqn:E; [by apply split_not_nil in E|done].
Qed.

(** A boolean property of octets is checked on all 256 of them. *)
Definition all_bytes (P : Z → bool) : bool := forallb P (map Z.of_nat (seq 0 256)).
Lemma all_bytes_spec (P : Z → bool) : all_bytes P = true → ∀ b, 0 ≤ b ≤ 255 → P b = true.
Proof.
  unfold all_bytes. rewrite forallb_forall. intros H b Hb. apply H.
  apply in_map_iff. exists (Z.to_nat b). split; [lia|]. apply in_seq. lia.
Qed.
