(* ===== verification/Decimal.v ===== *)
(** Decimal numbers as Rust prints and parses them: [uN::to_string] and
    [str::parse::<uN>], on the list of the characters of the text. *)
From S2P Require Import Prelude Wire Text.

Definition is_ascii_digit (c : Z) : bool := (48 <=? c) && (c <=? 57).

(** The digits of [n] before [acc]; twenty are enough for a [u64]. *)
Fixpoint decimal_from (fuel : nat) (n : Z) (acc : bytes) : bytes :=
  match fuel with
  | O => acc
  | S fuel =>
      if n <? 10 then (48 + n) :: acc
      else decimal_from fuel (n `div` 10) ((48 + n `mod` 10) :: acc)
  end.
Definition to_string (n : Z) : bytes := decimal_from 20 n [].

(** A digit that is none, or an overflow, is an error. *)
Fixpoint parse_digits (max n : Z) (s : bytes) : option Z :=
  match s with
  | [] => Some n
  | c :: s =>
      if is_ascii_digit c
      then n ← checked_mul max n 10; n ← checked_add max n (c - 48); parse_digits max n s
      else None
  end.
(** One leading [+] is accepted when a digit follows. *)
Definition parse (max : Z) (s : bytes) : option Z :=
  match s with
  | [] => None
  | c :: s' => if (c =? 43) && negb (bool_decide (s' = [])) then parse_digits max 0 s' else parse_digits max 0 s
  end.

(** ** Facts *)

Definition digit (c : Z) : Prop := 48 ≤ c ≤ 57.

Lemma decimal_from_digits fuel n acc :
  0 ≤ n → Forall digit acc → Forall digit (decimal_from fuel n acc).
Proof.
  revert n acc. induction fuel as [|fuel IH]; intros n acc Hn Ha; cbn [decimal_from]; [done|].
  destruct (n <? 10) eqn:E.
  - constructor; [unfold digit; lia|done].
  - pose proof (Z.mod_pos_bound n 10). apply IH; [apply Z.div_pos; lia|]. constructor; [unfold digit; lia|done].
Qed.
Lemma to_string_digits n : 0 ≤ n → Forall digit (to_string n).
Proof. intros. by apply decimal_from_digits. Qed.
Lemma decimal_from_nonempty fuel n acc : fuel ≠ O → decimal_from fuel n acc ≠ [].
Proof.
  assert (H : ∀ fuel n acc, acc ≠ [] → decimal_from fuel n acc ≠ []).
  { clear. induction fuel as [|fuel IH]; intros n acc Ha; cbn [decimal_from]; [done|].
    destruct (n <? 10); [done|]. by apply IH. }
  destruct fuel; [done|]. intros _. cbn. destruct (n <? 10); [done|]. by apply H.
Qed.
Lemma to_string_nonempty n : to_string n ≠ [].
Proof. by apply decimal_from_nonempty. Qed.

(** What is left to parse after the digits of [n]. *)
Lemma parse_decimal_from fuel max n acc :
  0 ≤ n ≤ max → n < 10 ^ Z.of_nat fuel →
  parse_digits max 0 (decimal_from fuel n acc) = parse_digits max n acc.
Proof.
  revert n acc. induction fuel as [|fuel IH]; intros n acc Hn Hf.
  { cbn in *. by replace n with 0 by lia. }
  cbn [decimal_from]. destruct (n <? 10) eqn:E.
  - cbn [parse_digits]. assert (is_ascii_digit (48 + n) = true) as -> by (unfold is_ascii_digit; lia).
    unfold checked_mul, checked_add. assert ((0 * 10 <=? max) = true) as -> by lia. cbn [mbind option_bind].
    assert ((0 * 10 + (48 + n - 48) <=? max) = true) as -> by lia. cbn [mbind option_bind]. f_equal. lia.
  - pose proof (Z.div_mod n 10 ltac:(lia)). pose proof (Z.mod_pos_bound n 10 ltac:(lia)).
    rewrite Nat2Z.inj_succ, Z.pow_succ_r in Hf by lia.
    assert (0 ≤ n `div` 10) by (apply Z.div_pos; lia).
    assert (n `div` 10 < 10 ^ Z.of_nat fuel) by (apply Z.div_lt_upper_bound; lia).
    rewrite IH by (done || lia).
    cbn [parse_digits]. assert (is_ascii_digit (48 + n `mod` 10) = true) as -> by (unfold is_ascii_digit; lia).
    unfold checked_mul, checked_add. assert ((n `div` 10 * 10 <=? max) = true) as -> by lia. cbn [mbind option_bind].
    assert ((n `div` 10 * 10 + (48 + n `mod` 10 - 48) <=? max) = true) as -> by lia. cbn [mbind option_bind].
    f_equal. lia.
Qed.

Lemma digits_not c s : ¬ digit c → Forall digit s → c ∉ s.
Proof. intros Hc Hs Hin. rewrite Forall_forall in Hs. by apply Hc, Hs. Qed.
Lemma digits_all s : Forall digit s → forallb is_ascii_digit s = true.
Proof. induction 1 as [|c s Hc _ IH]; cbn; [done|]. rewrite IH. unfold is_ascii_digit, digit in *. lia. Qed.

(** A number printed and parsed again, at any width that holds it. *)
Lemma parse_to_string max n : 0 ≤ n ≤ max → n < 10 ^ 20 → parse max (to_string n) = Some n.
Proof.
  intros Hn Hb. pose proof (to_string_digits n ltac:(lia)) as Hd.
  assert (Hp : parse_digits max 0 (to_string n) = Some n) by (unfold to_string; by rewrite parse_decimal_from).
  unfold parse. destruct (to_string n) as [|c s] eqn:E; [by apply to_string_nonempty in E|].
  apply Forall_cons in Hd as [Hd _]. unfold digit in Hd. destruct (c =? 43) eqn:E43; [lia|done].
Qed.
Lemma to_string_inj m n : 0 ≤ m < 10 ^ 20 → 0 ≤ n < 10 ^ 20 → to_string m = to_string n → m = n.
Proof.
  intros Hm Hn H. pose proof (parse_to_string (10 ^ 20) m ltac:(lia) ltac:(lia)) as H1.
  rewrite H, parse_to_string in H1 by lia. congruence.
Qed.

(** What parses is made of digits, but for a leading sign, and parses at any
    wider type. *)
Lemma parse_digits_Some max n s m :
  parse_digits max n s = Some m → forallb is_ascii_digit s = true ∧ ∀ max', max ≤ max' → parse_digits max' n s = Some m.
Proof.
  revert n. induction s as [|c s IH]; intros n; cbn; [done|]. destruct (is_ascii_digit c); [|done].
  unfold checked_mul, checked_add. destruct (n * 10 <=? max) eqn:E1; cbn; [|done].
  destruct (n * 10 + (c - 48) <=? max) eqn:E2; cbn; [|done]. intros [H1 H2]%IH. split; [done|]. intros max' Hm.
  assert ((n * 10 <=? max') = true) as -> by lia. cbn. assert ((n * 10 + (c - 48) <=? max') = true) as -> by lia. cbn. by apply H2.
Qed.
Lemma parse_digits_only max s n : parse max s = Some n → ¬ (∃ t, s = 43 :: t) → forallb is_ascii_digit s = true.
Proof.
  destruct s as [|c s]; [done|]. unfold parse. destruct (c =? 43) eqn:E; cbn [andb].
  - intros _ H. destruct H. exists s. f_equal. lia.
  - intros H _. by apply parse_digits_Some in H as [? _].
Qed.
Lemma parse_wider max max' s n : parse max s = Some n → max ≤ max' → parse max' s = Some n.
Proof. intros H Hm. destruct s as [|c s]; [done|]. unfold parse in *. destruct (_ && _); by apply (parse_digits_Some max). Qed.
