(* ===== verification/Inventory.v ===== *)
(** The inventory of a device (src/crates/rios-device/src/lib.rs): the kinds of
    device and interface, the errors of the device's operations, and the names
    of interfaces as the operator writes them.

    [canonical_idempotent] says that [canonical_interface] normalizes: the name
    it returns is its own canonical form. A name is the list of its
    characters. *)
From S2P Require Import Prelude Wire Text Decimal.

Inductive DeviceType := Router | Switch | Layer3Switch | Host.
#[export] Instance DeviceType_eq_dec : EqDecision DeviceType.
Proof. solve_decision. Defined.

Inductive InterfaceKind :=
| GigabitEthernet | TenGigabitEthernet | EthernetSubinterface | PortChannel | Serial | Console
| Loopback | Vlan.
#[export] Instance InterfaceKind_eq_dec : EqDecision InterfaceKind.
Proof. solve_decision. Defined.
Definition is_ethernet (k : InterfaceKind) : bool :=
  match k with GigabitEthernet | TenGigabitEthernet => true | _ => false end.
Definition is_physical (k : InterfaceKind) : bool :=
  match k with Loopback | Vlan | EthernetSubinterface | PortChannel => false | _ => true end.

Inductive InterfaceMedia := Rj45 | Sfp | SfpPlus | MediaSerial | MediaConsole | Virtual.
#[export] Instance InterfaceMedia_eq_dec : EqDecision InterfaceMedia.
Proof. solve_decision. Defined.

Inductive DeviceError :=
| InvalidServiceConfig | InvalidBgpConfig | InvalidRoutingPolicy | InvalidQosConfig | InvalidSpanningTree
| InvalidChannel | InvalidAccessList | AccessListCapacity | NotSubinterface | DuplicateEncapsulation
| InvalidHostname | InvalidInterface (name : bytes) | MissingInterface | InvalidDescription
| InvalidDeviceId | NotSwitchport | NotRoutedPort | UnsupportedIpv4Interface | InvalidVlanName
| DefaultVlan | InvalidOspfProcess | InvalidOspfConfig | InvalidIpv6Config | OspfUnsupported
| AccessListUnsupported | MissingAccessList | DhcpUnsupported | InvalidDhcpPoolName | MissingDhcpPool
| InvalidDhcpNetwork | NatUnsupported | InvalidNatConfig.
#[export] Instance DeviceError_eq_dec : EqDecision DeviceError.
Proof. solve_decision. Defined.

(** ** Interface names *)

(** [char::is_whitespace], the White_Space property of Unicode. *)
Definition is_whitespace (c : Z) : bool :=
  ((9 <=? c) && (c <=? 13)) || (c =? 32) || (c =? 133) || (c =? 160) || (c =? 5760)
  || ((8192 <=? c) && (c <=? 8202)) || (c =? 8232) || (c =? 8233) || (c =? 8239) || (c =? 8287) || (c =? 12288).

(** [s.split(p)] and [s.split_whitespace()]. *)
Fixpoint split_if (p : Z → bool) (s : bytes) : list bytes :=
  match s with
  | [] => [[]]
  | c :: s' =>
      if p c then [] :: split_if p s'
      else match split_if p s' with
           | [] => [[c]]
           | w :: ws => (c :: w) :: ws
           end
  end.
Definition split_whitespace (s : bytes) : list bytes :=
  filter (λ w, w ≠ []) (split_if is_whitespace s).

(** [s.split_once(c)], and [s.split_at(s.find(p)?)]. *)
Fixpoint split_once (c : Z) (s : bytes) : option (bytes * bytes) :=
  match s with
  | [] => None
  | b :: s => if b =? c then Some ([], s) else '(l, r) ← split_once c s; Some (b :: l, r)
  end.
Fixpoint split_at_first (p : Z → bool) (s : bytes) : option (bytes * bytes) :=
  match s with
  | [] => None
  | b :: s' => if p b then Some ([], s) else '(l, r) ← split_at_first p s'; Some (b :: l, r)
  end.
Fixpoint starts_with (s prefix : bytes) : bool :=
  match prefix, s with
  | [], _ => true
  | p :: prefix, c :: s => (c =? p) && starts_with s prefix
  | _ :: _, [] => false
  end.

Definition is_ascii_alphabetic (c : Z) : bool := ((65 <=? c) && (c <=? 90)) || ((97 <=? c) && (c <=? 122)).

Definition candidates : list (bytes * InterfaceKind) :=
  [(text "GigabitEthernet", GigabitEthernet); (text "TenGigabitEthernet", TenGigabitEthernet);
   (text "Serial", Serial); (text "Console", Console); (text "Port-channel", PortChannel);
   (text "Loopback", Loopback); (text "Vlan", Vlan)].

(** The numbers a kind accepts. *)
Definition numbers_valid (kind : InterfaceKind) (numbers : list Z) : bool :=
  match kind with
  | GigabitEthernet | TenGigabitEthernet | Serial => (2 <=? len numbers) && (len numbers <=? 3)
  | EthernetSubinterface => false
  | PortChannel => (len numbers =? 1) && (1 <=? nth 0 numbers 0) && (nth 0 numbers 0 <=? 4096)
  | Console | Loopback => len numbers =? 1
  | Vlan => (len numbers =? 1) && (1 <=? nth 0 numbers 0) && (nth 0 numbers 0 <=? 4094)
  end.

(** The part of [canonical_interface] for a name without a dot. *)
Definition canonical_family (input compact : bytes) : res DeviceError (bytes * InterfaceKind) :=
  match split_at_first is_ascii_digit compact with
  | None => Err (InvalidInterface input)
  | Some (family, suffix) =>
      match filter (λ c : bytes * InterfaceKind,
              family ≠ [] ∧ starts_with (to_ascii_lowercase c.1) (to_ascii_lowercase family) = true) candidates with
      | [(name, kind)] =>
          if negb (forallb (λ b, is_ascii_digit b || (b =? 47)) suffix) then Err (InvalidInterface input)
          else
            numbers ← ok_or (mapM (parse U16_MAX) (split 47 suffix)) (InvalidInterface input);
            if negb (numbers_valid kind numbers) then Err (InvalidInterface input)
            else Ok (name ++ join 47 (map to_string numbers), kind)
      | _ => Err (InvalidInterface input)
      end
  end.

(** The parent of a subinterface has no dot, so two rounds are enough. *)
Fixpoint canonical_rounds (fuel : nat) (input : bytes) : res DeviceError (bytes * InterfaceKind) :=
  match fuel with
  | O => Panic
  | S fuel =>
      let parts := split_whitespace input in
      if (2 <? len parts)
         || ((len parts =? 2) && negb (forallb (λ b, is_ascii_alphabetic b || (b =? 45)) (nth 0 parts [])))
      then Err (InvalidInterface input)
      else
        let compact := concat parts in
        match split_once 46 compact with
        | Some (parent, number) =>
            if bool_decide (parent = []) || bool_decide (number = []) || negb (forallb is_ascii_digit number)
            then Err (InvalidInterface input)
            else
              number ← ok_or (n ← parse U32_MAX number; if 0 <? n then Some n else None) (InvalidInterface input);
              '(parent, kind) ← canonical_rounds fuel parent;
              if negb (is_ethernet kind) then Err (InvalidInterface input)
              else Ok (parent ++ 46 :: to_string number, EthernetSubinterface)
        | None => canonical_family input compact
        end
  end.
Definition canonical_interface (input : bytes) : res DeviceError (bytes * InterfaceKind) :=
  canonical_rounds 2 input.

Example canonical_gi : canonical_interface (text " gi 0/01 ") = Ok (text "GigabitEthernet0/1", GigabitEthernet).
Proof. reflexivity. Qed.
Example canonical_sub : canonical_interface (text "te1/0/2.010") = Ok (text "TenGigabitEthernet1/0/2.10", EthernetSubinterface).
Proof. reflexivity. Qed.

(** ** Helper lemmas: text *)

Lemma split_if_none p s : Forall (λ c, p c = false) s → split_if p s = [s].
Proof. induction 1 as [|c s Hc _ IH]; cbn; [done|]. by rewrite Hc, IH. Qed.
Lemma split_if_elem p s w c : w ∈ split_if p s → c ∈ w → c ∈ s ∧ p c = false.
Proof.
  revert w. induction s as [|b s IH]; intros w; cbn [split_if].
  - intros ->%list_elem_of_singleton. by intros ?%not_elem_of_nil.
  - destruct (p b) eqn:Hb.
    + intros [->|Hw]%elem_of_cons Hc; [by apply not_elem_of_nil in Hc|]. destruct (IH w Hw Hc). split; [by right|done].
    + destruct (split_if p s) as [|w0 ws].
      * intros ->%list_elem_of_singleton ->%list_elem_of_singleton. split; [by left|done].
      * intros [->|Hw]%elem_of_cons Hc.
        -- apply elem_of_cons in Hc as [->|Hc]; [split; [by left|done]|].
           destruct (IH w0 ltac:(by left) Hc). split; [by right|done].
        -- destruct (IH w ltac:(by right) Hc). split; [by right|done].
Qed.
Lemma split_whitespace_plain s :
  s ≠ [] → Forall (λ c, is_whitespace c = false) s → split_whitespace s = [s].
Proof. intros Hs Hw. unfold split_whitespace. rewrite split_if_none by done. by rewrite filter_cons_True, filter_nil. Qed.
Lemma compact_elem s c : c ∈ concat (split_whitespace s) → c ∈ s.
Proof.
  unfold split_whitespace. intros Hc.
  apply list_elem_of_In, in_concat in Hc as (w & Hw%list_elem_of_In & Hc%list_elem_of_In).
  apply list_elem_of_filter in Hw as [_ Hw]. by destruct (split_if_elem _ _ _ _ Hw Hc).
Qed.

Lemma split_once_None c s : c ∉ s → split_once c s = None.
Proof.
  induction s as [|b s IH]; intros H; [done|]. cbn. apply not_elem_of_cons in H as [Hb Hs].
  destruct (b =? c) eqn:E; [lia|]. by rewrite IH.
Qed.
Lemma split_once_app c l r : c ∉ l → split_once c (l ++ c :: r) = Some (l, r).
Proof.
  induction l as [|b l IH]; intros H; cbn; [by rewrite Z.eqb_refl|]. apply not_elem_of_cons in H as [Hb Hl].
  destruct (b =? c) eqn:E; [lia|]. by rewrite IH.
Qed.
Lemma split_once_Some c s l r : split_once c s = Some (l, r) → s = l ++ c :: r ∧ c ∉ l.
Proof.
  revert l. induction s as [|b s IH]; intros l; cbn [split_once]; [done|]. destruct (b =? c) eqn:E.
  - intros [= <- <-]. apply Z.eqb_eq in E as ->. split; [done|]. apply not_elem_of_nil.
  - destruct (split_once c s) as [[l' r']|]; [|done]. cbn. intros [= <- <-]. destruct (IH l' eq_refl) as [-> ?].
    split; [done|]. apply not_elem_of_cons. split; [lia|done].
Qed.
Lemma split_at_first_app p l b r :
  Forall (λ c, p c = false) l → p b = true → split_at_first p (l ++ b :: r) = Some (l, b :: r).
Proof. intros Hl Hb. induction Hl as [|c l Hc _ IH]; cbn; [by rewrite Hb|]. by rewrite Hc, IH. Qed.

Lemma parse_all max ns : Forall (λ n, 0 ≤ n ≤ max ∧ n < 10 ^ 20) ns → mapM (parse max) (map to_string ns) = Some ns.
Proof.
  intros H. apply mapM_Some_2. induction H as [|n ns [Hn Hb] _ IH]; [constructor|].
  constructor; [by apply parse_to_string|done].
Qed.
Lemma parse_digits_range max n s m : 0 ≤ n ≤ max → parse_digits max n s = Some m → 0 ≤ m ≤ max.
Proof.
  revert n. induction s as [|c s IH]; intros n Hn; cbn [parse_digits]; [by intros [= <-]|].
  destruct (is_ascii_digit c) eqn:Hc; [|done]. unfold is_ascii_digit in Hc. unfold checked_mul, checked_add.
  destruct (n * 10 <=? max) eqn:?; [cbn [mbind option_bind]|done].
  destruct (n * 10 + (c - 48) <=? max) eqn:?; [cbn [mbind option_bind]|done]. apply IH. lia.
Qed.
Lemma parse_range max s m : 0 ≤ max → parse max s = Some m → 0 ≤ m ≤ max.
Proof.
  intros Hm. unfold parse. destruct s as [|c s]; [done|]. destruct (_ && _); apply parse_digits_range; lia.
Qed.

(** ** Helper lemmas: canonical names *)

(** The characters of a canonical name before its dot. *)
Definition name_char (c : Z) : bool := is_ascii_alphabetic c || (c =? 45) || is_ascii_digit c || (c =? 47).

(** A canonical name of an interface that is no subinterface. *)
Definition plain (n : bytes) (k : InterfaceKind) : Prop :=
  ∃ name numbers, (name, k) ∈ candidates ∧ n = name ++ join 47 (map to_string numbers)
    ∧ numbers_valid k numbers = true ∧ Forall (λ n, 0 ≤ n ≤ U16_MAX) numbers.

Lemma family_plain input compact n k : canonical_family input compact = Ok (n, k) → plain n k.
Proof.
  unfold canonical_family. destruct (split_at_first _ _) as [[family suffix]|]; [|done].
  destruct (filter _ candidates) as [|[name kind] [|? ?]] eqn:Hf; [done| |done].
  destruct (negb _); [done|]. intros H. apply bind_Ok_inv in H as (numbers & Hn%ok_or_Ok_inv & H).
  destruct (negb (numbers_valid kind numbers)) eqn:Hv; [done|]. apply Ok_inj in H as [= <- <-].
  exists name, numbers. split.
  - assert (Hin : (name, kind) ∈ [(name, kind)]) by by left. rewrite <-Hf in Hin.
    by apply list_elem_of_filter in Hin as [_ ?].
  - split; [done|]. split; [by apply negb_false_iff|]. apply mapM_Some in Hn.
    eapply Forall2_Forall_r; [exact Hn|]. apply Forall_forall. intros s _ m. by apply parse_range.
Qed.

(** What the seven families have in common. *)
Lemma candidates_names name k :
  (name, k) ∈ candidates →
  name ≠ [] ∧ Forall (λ c, is_ascii_alphabetic c || (c =? 45) = true) name
  ∧ filter (λ c : bytes * InterfaceKind,
       name ≠ [] ∧ starts_with (to_ascii_lowercase c.1) (to_ascii_lowercase name) = true) candidates = [(name, k)].
Proof.
  unfold candidates. rewrite !elem_of_cons, elem_of_nil. intros H.
  repeat destruct H as [[= -> ->]|H]; try done; (split; [done|]; split; [repeat constructor|reflexivity]).
Qed.

Definition suffix_char (c : Z) : bool := is_ascii_digit c || (c =? 47).
Lemma suffix_chars numbers :
  Forall (λ n, 0 ≤ n ≤ U16_MAX) numbers → Forall (λ c, suffix_char c = true) (join 47 (map to_string numbers)).
Proof.
  assert (Hd : ∀ n, 0 ≤ n ≤ U16_MAX → Forall (λ c, suffix_char c = true) (to_string n)).
  { intros n Hn. eapply Forall_impl; [apply to_string_digits; lia|]. intros c Hc.
    unfold digit, suffix_char, is_ascii_digit in *. lia. }
  induction 1 as [|n ns Hn Hns IH]; [constructor|]. destruct ns as [|m ns]; [by apply Hd|].
  change (join 47 (map to_string (n :: m :: ns))) with (to_string n ++ 47 :: join 47 (map to_string (m :: ns))).
  apply Forall_app. split; [by apply Hd|]. by constructor.
Qed.
Lemma suffix_head n ns :
  0 ≤ n → ∃ c s, join 47 (map to_string (n :: ns)) = c :: s ∧ is_ascii_digit c = true.
Proof.
  intros Hn. pose proof (to_string_digits n Hn) as Hd. pose proof (to_string_nonempty n) as Hne.
  destruct (to_string n) as [|c s] eqn:E; [done|]. apply Forall_cons in Hd as [Hc _].
  exists c. destruct ns as [|m ns].
  - exists s. cbn [map join]. rewrite E. split; [done|]. unfold digit, is_ascii_digit in *. lia.
  - exists (s ++ 47 :: join 47 (map to_string (m :: ns))).
    change (join 47 (map to_string (n :: m :: ns))) with (to_string n ++ 47 :: join 47 (map to_string (m :: ns))).
    rewrite E. split; [done|]. unfold digit, is_ascii_digit in *. lia.
Qed.

Lemma plain_chars n k : plain n k → n ≠ [] ∧ Forall (λ c, name_char c = true) n.
Proof.
  intros (name & numbers & Hin & -> & _ & Hr). apply candidates_names in Hin as (Hne & Hc & _).
  split; [by destruct name|]. apply Forall_app. split.
  - eapply Forall_impl; [exact Hc|]. intros c H. unfold name_char. by rewrite H.
  - eapply Forall_impl; [by apply suffix_chars|]. intros c. unfold suffix_char, name_char. lia.
Qed.
Lemma name_char_plain c : name_char c = true → is_whitespace c = false ∧ c ≠ 46.
Proof. unfold name_char, is_ascii_alphabetic, is_ascii_digit, is_whitespace. lia. Qed.

Lemma plain_family n k input : plain n k → canonical_family input n = Ok (n, k).
Proof.
  intros (name & numbers & Hin & -> & Hv & Hr). pose proof Hin as Hin'.
  apply candidates_names in Hin as (_ & Hc & Hf).
  assert (Hns : ∃ m ms, numbers = m :: ms).
  { destruct numbers as [|m ms]; [|by exists m, ms]. by destruct k. }
  destruct Hns as (m & ms & ->). pose proof Hr as [Hm _]%Forall_cons.
  destruct (suffix_head m ms) as (c & s & Es & Hd); [lia|].
  unfold canonical_family. rewrite Es, split_at_first_app; [|eapply Forall_impl; [exact Hc|]|done].
  2:{ intros x. cbn. unfold is_ascii_alphabetic, is_ascii_digit. lia. }
  rewrite Hf, <-Es. rewrite (proj2 (forallb_forall _ _)).
  2:{ intros x Hx%list_elem_of_In. pose proof (suffix_chars _ Hr) as Hs. rewrite Forall_forall in Hs. by apply Hs. }
  cbn [negb]. rewrite split_join.
  - rewrite parse_all by (eapply Forall_impl; [exact Hr|]; unfold U16_MAX; cbn; lia).
    cbn [ok_or]. by rewrite bind_Ok, Hv.
  - done.
  - apply Forall_fmap, Forall_forall. intros x Hx. cbn. apply digits_not; [unfold digit; lia|].
    apply to_string_digits. rewrite Forall_forall in Hr. apply (Hr x Hx).
Qed.

(** A round on a text without white space. *)
Lemma canonical_round fuel n :
  n ≠ [] → Forall (λ c, is_whitespace c = false) n →
  canonical_rounds (S fuel) n =
  match split_once 46 n with
  | Some (parent, number) =>
      if bool_decide (parent = []) || bool_decide (number = []) || negb (forallb is_ascii_digit number)
      then Err (InvalidInterface n)
      else
        number ← ok_or (n ← parse U32_MAX number; if 0 <? n then Some n else None) (InvalidInterface n);
        '(parent, kind) ← canonical_rounds fuel parent;
        if negb (is_ethernet kind) then Err (InvalidInterface n)
        else Ok (parent ++ 46 :: to_string number, EthernetSubinterface)
  | None => canonical_family n n
  end.
Proof.
  intros Hn Hw. cbn [canonical_rounds]. rewrite split_whitespace_plain by done. cbn [length len concat].
  change (2 <? len [n]) with false. change (len [n] =? 2) with false. cbn [orb andb]. by rewrite app_nil_r.
Qed.
Lemma plain_round fuel n k : plain n k → canonical_rounds (S fuel) n = Ok (n, k).
Proof.
  intros H. destruct (plain_chars _ _ H) as [Hne Hc]. rewrite canonical_round by
    (done || (eapply Forall_impl; [exact Hc|]; intros c Hx; apply (name_char_plain c Hx))).
  rewrite split_once_None; [by apply plain_family|]. intros Hin. rewrite Forall_forall in Hc.
  by apply Hc, name_char_plain in Hin as [_ ?].
Qed.

(** One round on a text without a dot is the last. *)
Lemma last_round fuel n : 46 ∉ n → safe (canonical_rounds (S fuel) n) ∧ ∀ m k,
  canonical_rounds (S fuel) n = Ok (m, k) → plain m k.
Proof.
  intros Hdot. cbn [canonical_rounds]. destruct (_ || _); [done|].
  rewrite split_once_None by (intros ?%compact_elem; done). split; [|apply family_plain].
  unfold canonical_family. destruct (split_at_first _ _) as [[]|]; [|done].
  destruct (filter _ _) as [|[] [|]]; try done. destruct (negb _); [done|].
  apply safe_bind; [apply safe_ok_or|]. intros ? _. by destruct (negb _).
Qed.

Lemma family_safe input compact : safe (canonical_family input compact).
Proof.
  unfold canonical_family. destruct (split_at_first _ _) as [[]|]; [|done].
  destruct (filter _ _) as [|[] [|]]; try done. destruct (negb _); [done|].
  apply safe_bind; [apply safe_ok_or|]. intros ? _. by destruct (negb _).
Qed.

(** A canonical name, with or without a dot. *)
Definition canonical (n : bytes) (k : InterfaceKind) : Prop :=
  plain n k ∨ ∃ p kind num, plain p kind ∧ is_ethernet kind = true ∧ n = p ++ 46 :: to_string num
                ∧ 0 < num ≤ U32_MAX ∧ k = EthernetSubinterface.

Lemma rounds_canonical input :
  safe (canonical_rounds 2 input) ∧ ∀ n k, canonical_rounds 2 input = Ok (n, k) → canonical n k.
Proof.
  set (f := 1%nat). cbn [canonical_rounds]. destruct (_ || (_ && _)); [done|].
  destruct (split_once 46 _) as [[parent number]|] eqn:Es.
  2:{ split; [apply family_safe|]. intros n k H. left. by apply family_plain in H. }
  apply split_once_Some in Es as [_ Hdot]. destruct (_ || _ || _); [done|].
  pose proof (last_round 0 parent Hdot) as [Hsafe Hplain]. split.
  { apply safe_bind; [apply safe_ok_or|]. intros num _. apply safe_bind; [done|]. intros [p k] _. by destruct (negb _). }
  intros n k H. apply bind_Ok_inv in H as (num & Hnum%ok_or_Ok_inv & H).
  apply bind_Ok_inv in H as ([p kind] & Hp%Hplain & H). destruct (negb (is_ethernet kind)) eqn:Ek; [done|].
  apply Ok_inj in H as [= <- <-]. destruct (parse U32_MAX number) as [num'|] eqn:Hparse; [|done].
  cbn in Hnum. destruct (0 <? num') eqn:Hpos; [|done]. injection Hnum as <-.
  apply parse_range in Hparse; [|done]. right. exists p, kind, num'. apply negb_false_iff in Ek.
  split_and!; try done; lia.
Qed.

Lemma canonical_fix n k : canonical n k → canonical_rounds 2 n = Ok (n, k).
Proof.
  intros [Hp|(p & kind & num & Hp & Ek & -> & Hn & ->)]; [by apply plain_round|].
  destruct (plain_chars _ _ Hp) as [Hne Hc]. unfold U32_MAX in Hn. pose proof (to_string_digits num ltac:(lia)) as Hd.
  rewrite canonical_round; [|by destruct p|].
  2:{ apply Forall_app. split; [eapply Forall_impl; [exact Hc|]; intros c Hx; apply (name_char_plain c Hx)|].
      constructor; [done|]. eapply Forall_impl; [exact Hd|]. intros c. unfold digit, is_whitespace. lia. }
  rewrite split_once_app; [|intros Hin; rewrite Forall_forall in Hc; by apply Hc, name_char_plain in Hin as [_ ?]].
  rewrite bool_decide_false, bool_decide_false, digits_all by (done || apply to_string_nonempty). cbn [negb orb].
  rewrite parse_to_string by (unfold U32_MAX; lia). cbn [mbind option_bind].
  assert ((0 <? num) = true) as -> by lia. cbn [ok_or].
  rewrite bind_Ok, (plain_round 0 p kind), bind_Ok by done. by rewrite Ek.
Qed.

(** ** Properties *)

(** [canonical_interface] never runs out of rounds, and normalizes: the name
    it returns for an operator's abbreviation is its own canonical form, of the
    same kind. *)
Theorem canonical_idempotent input :
  safe (canonical_interface input)
  ∧ ∀ n k, canonical_interface input = Ok (n, k) → canonical_interface n = Ok (n, k).
Proof.
  destruct (rounds_canonical input) as [Hs Hc]. split; [done|]. intros n k H. apply canonical_fix, Hc, H.
Qed.
