(* ===== verification/Collections.v ===== *)
(** Collections of the standard library as the program uses them: the chunks of
    a slice, and the iteration of a [BTreeMap] in the order of its keys.

    A [BTreeMap<K, V>] is a [gmap K V]; [entries code m] lists it in ascending
    order of the keys, whose derived [Ord] is the lexicographic order of
    [code]. *)
From S2P Require Import Prelude Wire.
From stdpp Require Import sorting.
#[local] Open Scope Z_scope.

(** ** [l.chunks(n)]: the last chunk may be short *)

Fixpoint chunks_from {A} (fuel n : nat) (l : list A) : list (list A) :=
  match fuel, l with
  | S fuel, _ :: _ => take n l :: chunks_from fuel n (drop n l)
  | _, _ => []
  end.
Definition chunks {A} (n : nat) (l : list A) : list (list A) := chunks_from (length l) n l.

Lemma chunks_from_spec {A} fuel n (l : list A) :
  (0 < n)%nat → (length l ≤ fuel)%nat →
  concat (chunks_from fuel n l) = l ∧ Forall (λ c, 0 < length c ≤ n)%nat (chunks_from fuel n l).
Proof.
  intros Hn. revert l. induction fuel as [|fuel IH]; intros [|x l] Hl; cbn [length] in Hl; try lia;
    cbn [chunks_from concat]; [split; [done|constructor]..|].
  destruct (IH (drop n (x :: l))) as [H1 H2]; [lens|]. rewrite H1, take_drop. split; [done|].
  constructor; [|done]. rewrite length_take. cbn [length]. lia.
Qed.

(** ** Ordered iteration of a map *)

Section entries.
Context {K V : Type} `{Countable K} (code : K → list Z).

Definition code_le (a b : K * V) : Prop := lex_ltb (code b.1) (code a.1) = false.
#[local] Instance code_le_dec a b : Decision (code_le a b).
Proof. unfold code_le. apply _. Defined.
#[local] Instance code_le_total : Total code_le.
Proof.
  intros a b. unfold code_le. destruct (lex_ltb (code b.1) (code a.1)) eqn:E; [right|by left].
  by apply lex_ltb_asym.
Qed.
#[local] Instance code_le_trans : Transitive code_le.
Proof. intros a b c. apply lex_le_trans. Qed.

Definition entries (m : gmap K V) : list (K * V) := merge_sort code_le (map_to_list m).

Lemma entries_perm m : entries m ≡ₚ map_to_list m.
Proof. apply merge_sort_Permutation. Qed.
Lemma entries_sorted m : StronglySorted code_le (entries m).
Proof. apply Sorted_StronglySorted; [apply _|]. apply Sorted_merge_sort. apply _. Qed.
Lemma elem_of_entries m k v : (k, v) ∈ entries m ↔ m !! k = Some v.
Proof. rewrite (entries_perm m). apply elem_of_map_to_list. Qed.
Lemma entries_NoDup m : NoDup (entries m).*1.
Proof. rewrite (entries_perm m). apply NoDup_fst_map_to_list. Qed.
Lemma length_entries m : length (entries m) = size m.
Proof. rewrite (entries_perm m). apply length_map_to_list. Qed.
Lemma entries_empty : entries ∅ = [].
Proof. apply Permutation_nil_r. rewrite entries_perm, map_to_list_empty. done. Qed.

(** [BTreeMap::last_key_value]. *)
Definition last_entry (m : gmap K V) : option (K * V) := last (entries m).

(** The first entry [iter().find(p)] returns has the least of the keys that
    satisfy [p]. *)
Lemma find_entries p m k v :
  find p (entries m) = Some (k, v) →
  m !! k = Some v ∧ p (k, v) = true
  ∧ ∀ k' v', m !! k' = Some v' → p (k', v') = true → lex_ltb (code k') (code k) = false.
Proof.
  intros Hf. destruct (find_some _ _ Hf) as [Hin%list_elem_of_In Hp].
  split; [by apply elem_of_entries|]. split; [done|]. intros k' v' Hk Hp'.
  apply elem_of_entries in Hk. pose proof (entries_sorted m) as Hs. revert Hf Hk Hs. clear Hin.
  induction (entries m) as [|[k1 v1] l IH]; [done|]. cbn [find]. intros Hf Hk [Hs Hl]%StronglySorted_inv.
  rewrite Forall_forall in Hl. destruct (p (k1, v1)) eqn:E.
  - injection Hf as <- <-. apply elem_of_cons in Hk as [[= <- <-]|Hk]; [apply lex_ltb_irrefl|]. exact (Hl _ Hk).
  - apply IH; try done. apply elem_of_cons in Hk as [[= -> ->]|]; congruence.
Qed.
Lemma find_entries_None p m :
  find p (entries m) = None ↔ ∀ k v, m !! k = Some v → p (k, v) = false.
Proof.
  split.
  - intros Hf k v Hk%elem_of_entries%list_elem_of_In. exact (find_none _ _ Hf _ Hk).
  - intros Hnone. destruct (find p (entries m)) as [[k v]|] eqn:E; [|done].
    apply find_entries in E as (Hk & Hp & _). by rewrite (Hnone k v Hk) in Hp.
Qed.
Lemma last_entry_spec m k v :
  last_entry m = Some (k, v) → m !! k = Some v ∧ ∀ k', is_Some (m !! k') → lex_ltb (code k) (code k') = false.
Proof.
  unfold last_entry. intros Hl. split; [by apply elem_of_entries, last_Some_elem_of|].
  intros k' [v' Hk]. apply elem_of_entries in Hk. pose proof (entries_sorted m) as Hs.
  apply last_Some in Hl as [l' El]. rewrite El in Hk, Hs.
  apply elem_of_app in Hk as [Hk|Hk%list_elem_of_singleton]; [|injection Hk as -> ->; apply lex_ltb_irrefl].
  apply StronglySorted_app_1_elem_of with (x1 := (k', v')) (x2 := (k, v)) in Hs; [done|done|]. by apply list_elem_of_singleton.
Qed.
Lemma last_entry_None m : last_entry m = None ↔ m = ∅.
Proof.
  unfold last_entry. rewrite last_None, <-length_zero_iff_nil, length_entries. apply map_size_empty_iff.
Qed.
End entries.
#[export] Typeclasses Opaque entries.

(** [BTreeMap::values] of a map keyed by a number. *)
Definition values {V} (m : gmap Z V) : list V := (entries (λ k, [k]) m).*2.

Lemma find_fmap {A B} (f : A → B) (p : B → bool) l : find p (f <$> l) = f <$> find (λ x, p (f x)) l.
Proof. induction l as [|x l IH]; cbn; [done|]. by destruct (p (f x)). Qed.
Lemma find_ext {A} (p q : A → bool) l : (∀ x, p x = q x) → find p l = find q l.
Proof. intros H. induction l as [|x l IH]; cbn; [done|]. by rewrite H, IH. Qed.
Lemma lex_single x y : lex_ltb [x] [y] = false → y ≤ x.
Proof. cbn. lia. Qed.

(** The first value that satisfies [p] is the one of the least such key. *)
Lemma find_values {V} (p : V → bool) (m : gmap Z V) v :
  find p (values m) = Some v →
  ∃ k, m !! k = Some v ∧ p v = true ∧ ∀ k' v', m !! k' = Some v' → p v' = true → k ≤ k'.
Proof.
  unfold values. rewrite find_fmap. destruct (find _ _) as [[k v1]|] eqn:E; [|done]. intros [= <-].
  apply find_entries in E as (Hk & Hp & Hmin). exists k. split_and!; [done|done|].
  intros k' v' Hk' Hp'. by apply lex_single, (Hmin k' v').
Qed.
Lemma find_values_None {V} (p : V → bool) (m : gmap Z V) :
  find p (values m) = None ↔ ∀ k v, m !! k = Some v → p v = false.
Proof.
  unfold values. rewrite find_fmap, fmap_None, find_entries_None. done.
Qed.
Lemma find_values_least {V} (p : V → bool) (m : gmap Z V) k v :
  m !! k = Some v → p v = true → (∀ k' v', m !! k' = Some v' → p v' = true → k ≤ k') →
  find p (values m) = Some v.
Proof.
  intros Hk Hp Hmin. destruct (find p (values m)) as [v1|] eqn:E.
  - apply find_values in E as (k1 & Hk1 & Hp1 & Hmin1).
    assert (k1 = k) as -> by (pose proof (Hmin1 k v Hk Hp); pose proof (Hmin k1 v1 Hk1 Hp1); lia). congruence.
  - rewrite find_values_None in E. by rewrite (E k v Hk) in Hp.
Qed.

(** A list numbered in increasing order, as a map and in the order of the map. *)
Section numbered.
Context {A V : Type} (g : A → V).
Lemma imap_NoDup (f : nat → Z) (l : list A) :
  (∀ i j, (i < j)%nat → f i < f j) → NoDup (imap (λ i e, (f i, g e)) l).*1.
Proof.
  intros Hf. rewrite fmap_imap. apply NoDup_alt. intros i j x. rewrite !list_lookup_imap.
  intros (y & _ & Ey)%fmap_Some (z & _ & Ez)%fmap_Some. cbn in *.
  destruct (Nat.lt_total i j) as [H|[H|H]]; [|done|]; apply Hf in H; lia.
Qed.
Lemma imap_sorted (f : nat → Z) (l : list A) :
  (∀ i j, (i < j)%nat → f i < f j) → StronglySorted (code_le (λ k : Z, [k])) (imap (λ i e, (f i, g e)) l).
Proof.
  revert f. induction l as [|x l IH]; intros f Hf; cbn; [constructor|]. constructor.
  - apply (IH (f ∘ S)). intros i j Hij. apply Hf. lia.
  - apply Forall_lookup. intros i [k y]. rewrite list_lookup_imap. intros (e & _ & E)%fmap_Some. injection E as -> ->.
    unfold code_le. cbn. unfold compose. pose proof (Hf 0%nat (S i) ltac:(lia)) as H. revert H. generalize (f (S i)), (f 0%nat). lia.
Qed.
Lemma entries_imap (f : nat → Z) (l : list A) :
  (∀ i j, (i < j)%nat → f i < f j) →
  entries (λ k : Z, [k]) (list_to_map (imap (λ i e, (f i, g e)) l)) = imap (λ i e, (f i, g e)) l.
Proof.
  intros Hf. pose proof (imap_NoDup f l Hf) as Hnd.
  apply (StronglySorted_unique_strong (code_le (λ k : Z, [k]))).
  - intros [x ex] [y ey] Hx Hy Hxy Hyx. unfold code_le in Hxy, Hyx. apply lex_single in Hxy, Hyx. cbn in Hxy, Hyx.
    assert (x = y) as <- by lia. f_equal. apply elem_of_entries in Hx. apply (elem_of_list_to_map_1 (M:=gmap Z)) in Hy; [|done]. congruence.
  - apply entries_sorted.
  - by apply imap_sorted.
  - rewrite entries_perm. by apply map_to_list_to_map.
Qed.
End numbered.
(** The value a search through a numbered list finds. *)
Lemma find_imap_snd {A B} (q : B → bool) (g : A → B) (f : nat → Z) (l : list A) :
  snd <$> find (λ e, q e.2) (imap (λ i e, (f i, g e)) l) = g <$> find (λ e, q (g e)) l.
Proof.
  revert f. induction l as [|x l IH]; intros f; [done|]. cbn. destruct (q (g x)); [done|].
  apply (IH (f ∘ S)).
Qed.
(** [Iterator::max_by_key]: the last of the elements with the greatest key. *)
Section max_by.
Context {A : Type} (key : A → list Z).
Fixpoint max_from (best : A) (l : list A) : A :=
  match l with
  | [] => best
  | x :: l => max_from (if lex_ltb (key x) (key best) then best else x) l
  end.
Definition max_by_key (l : list A) : option A :=
  match l with [] => None | x :: l => Some (max_from x l) end.

Lemma max_from_spec b l :
  max_from b l ∈ b :: l ∧ Forall (λ y, lex_ltb (key (max_from b l)) (key y) = false) (b :: l).
Proof.
  revert b. induction l as [|x l IH]; intros b; cbn [max_from].
  - split; [set_solver|]. constructor; [apply lex_ltb_irrefl|constructor].
  - destruct (lex_ltb (key x) (key b)) eqn:E.
    + destruct (IH b) as [H1 H2]. apply Forall_cons in H2 as [H2 H3]. split; [set_solver|].
      constructor; [done|]. constructor; [|done]. eapply lex_le_trans; [by apply lex_ltb_asym|done].
    + destruct (IH x) as [H1 H2]. apply Forall_cons in H2 as [H2 H3]. split; [set_solver|].
      constructor; [|by constructor]. by eapply lex_le_trans.
Qed.
Lemma max_by_key_spec l m :
  max_by_key l = Some m → m ∈ l ∧ ∀ y, y ∈ l → lex_ltb (key m) (key y) = false.
Proof.
  destruct l as [|x l]; [done|]. cbn. intros [= <-]. destruct (max_from_spec x l) as [H1 H2].
  rewrite Forall_forall in H2. done.
Qed.
Lemma max_by_key_None l : max_by_key l = None ↔ l = [].
Proof. by destruct l. Qed.
End max_by.

(** ** [slice::sort_by_key], which is stable *)

Section sort_by.
Context {A : Type} (key : A → list Z).
Fixpoint insert_by (x : A) (l : list A) : list A :=
  match l with
  | [] => [x]
  | y :: l' => if lex_ltb (key x) (key y) then x :: l else y :: insert_by x l'
  end.
Definition sort_by_key (l : list A) : list A := foldl (λ acc x, insert_by x acc) [] l.

Lemma elem_of_insert_by x y l : y ∈ insert_by x l ↔ y = x ∨ y ∈ l.
Proof. induction l as [|z l IH]; cbn [insert_by]; [set_solver|]. destruct (lex_ltb _ _); set_solver. Qed.
Lemma elem_of_sort_by_key y l : y ∈ sort_by_key l ↔ y ∈ l.
Proof.
  unfold sort_by_key. assert (H : ∀ acc, y ∈ foldl (λ acc x, insert_by x acc) acc l ↔ y ∈ acc ∨ y ∈ l).
  { induction l as [|x l IH]; intros acc; cbn [foldl]; [set_solver|]. rewrite IH, elem_of_insert_by. set_solver. }
  rewrite H. set_solver.
Qed.
End sort_by.

(** [iter.collect::<BTreeMap<_, _>>()]: a later pair replaces an earlier one. *)
Definition collect {K V} `{Countable K} (l : list (K * V)) : gmap K V :=
  foldl (λ m e, <[e.1 := e.2]> m) ∅ l.
Lemma collect_lookup {K V} `{Countable K} (l : list (K * V)) k v :
  collect l !! k = Some v → (k, v) ∈ l.
Proof.
  unfold collect. assert (Hf : ∀ m : gmap K V, foldl (λ m e, <[e.1 := e.2]> m) m l !! k = Some v →
    m !! k = Some v ∨ (k, v) ∈ l).
  { induction l as [|[k' v'] l IH]; intros m Hl; cbn [foldl] in Hl; [by left|].
    apply IH in Hl as [Hl|]; [|set_solver]. cbn in Hl. apply lookup_insert_Some in Hl as [[-> ->]|[_ Hl]]; set_solver. }
  intros [Hm|]%Hf; [|done]. by rewrite lookup_empty in Hm.
Qed.
