(* ===== verification/Checksum.v ===== *)
(** The Internet checksum of rios-ipv4 (src/crates/rios-ipv4/src/packet.rs),
    shared by every protocol that carries one, with the facts its users need:
    a message whose checksum was inserted verifies, and changing one octet of a
    message that verifies is detected. *)
From S2P Require Import Prelude Wire.

(** The 16-bit words of [bytes.chunks(2)], a last odd octet padded with zero. *)
Fixpoint words (bs : bytes) : list Z :=
  match bs with
  | [] => []
  | [a] => [of_be [a; 0]]
  | a :: b :: bs => of_be [a; b] :: words bs
  end.
Fixpoint sum_words (ws : list Z) (sum : Z) : Z :=
  match ws with
  | [] => sum
  | w :: ws => sum_words ws ((sum + w) `mod` 2 ^ 32)
  end.
(** [while sum >> 16 != 0]: a 32-bit sum needs at most two rounds. *)
Fixpoint fold_carry {E} (fuel : nat) (sum : Z) : res E Z :=
  if Z.shiftr sum 16 =? 0 then Ok sum
  else match fuel with
       | O => Panic
       | S fuel => fold_carry fuel (Z.land sum 0xffff + Z.shiftr sum 16)
       end.
Definition checksum {E} (bs : bytes) : res E Z :=
  sum ← fold_carry 2 (sum_words (words bs) 0);
  Ok (U16_MAX - sum `mod` 2 ^ 16).

(** ** Facts *)

(** The sum without wrap-around: octets at even offsets weigh 256. *)
Fixpoint wsum (hi : bool) (bs : bytes) : Z :=
  match bs with
  | [] => 0
  | b :: bs => b * (if hi then 256 else 1) + wsum (negb hi) bs
  end.

Lemma wsum_app hi a b :
  wsum hi (a ++ b) = wsum hi a + wsum (if Nat.even (length a) then hi else negb hi) b.
Proof.
  revert hi. induction a as [|x a IH]; intros hi; [done|].
  cbn [app wsum length]. rewrite IH, Nat.even_succ, <-Nat.negb_even.
  destruct (Nat.even (length a)), hi; cbn; lia.
Qed.
Lemma wsum_bound hi bs : bytes_ok bs → 0 ≤ wsum hi bs ≤ 65280 * len bs.
Proof.
  intros H. revert hi. induction H as [|b bs Hb _ IH]; intros hi; [done|].
  specialize (IH (negb hi)). unfold len in *. cbn [wsum length]. destruct hi; lia.
Qed.
Lemma wsum_insert hi bs i b v :
  bs !! i = Some b →
  wsum hi (<[i:=v]> bs) = wsum hi bs + (v - b) * (if Bool.eqb (Nat.even i) hi then 256 else 1).
Proof.
  revert hi bs. induction i as [|i IH]; intros hi [|x bs] H; try done; cbn in H; simplify_eq.
  - cbn. destruct hi; cbn; lia.
  - cbn [insert list_insert wsum]. rewrite (IH _ _ H), Nat.even_succ, <-Nat.negb_even.
    destruct (Nat.even i), hi; cbn; lia.
Qed.

Lemma sum_words_wsum bs s :
  bytes_ok bs → 0 ≤ s → s + wsum true bs < 2 ^ 32 → sum_words (words bs) s = s + wsum true bs.
Proof.
  revert bs s. fix IH 1. intros [|a [|b bs]] s H Hs Hlt.
  - cbn. lia.
  - cbn in *. unfold of_be. cbn. rewrite Z.mod_small; [lia|]. inversion H; subst. lia.
  - inversion H as [|?? Ha H']; subst. inversion H' as [|?? Hb H'']; subst.
    pose proof (wsum_bound true bs H''). cbn [wsum negb] in *. cbn [words sum_words].
    replace (of_be [a; b]) with (a * 256 + b) by (unfold of_be; cbn; lia).
    rewrite Z.mod_small by lia. rewrite IH by (done || lia). lia.
Qed.

Lemma land_ffff s : Z.land s 0xffff = s `mod` 65536.
Proof. change 0xffff with (Z.ones 16). by rewrite Z.land_ones. Qed.
Lemma fold_carry_spec {E} s :
  0 ≤ s < 2 ^ 32 →
  ∃ r, @fold_carry E 2 s = Ok r ∧ u16 r ∧ r `mod` 65535 = s `mod` 65535 ∧ (r = 0 ↔ s = 0).
Proof.
  intros Hs.
  assert (Hround : ∀ x, 0 ≤ x → let y := x `mod` 65536 + x `div` 65536 in
     y `mod` 65535 = x `mod` 65535 ∧ (y = 0 ↔ x = 0) ∧ 0 ≤ y).
  { intros x Hx y. subst y. pose proof (Z.div_mod x 65536 ltac:(lia)).
    pose proof (Z.mod_pos_bound x 65536 ltac:(lia)).
    split; [|split; [split; intros; nia | nia]].
    replace x with (x `mod` 65536 + x `div` 65536 + x `div` 65536 * 65535) at 3 by lia.
    by rewrite Z_mod_plus_full. }
  assert (Hdone : ∀ n x, 0 ≤ x < 65536 → @fold_carry E n x = Ok x).
  { intros n x Hx. destruct n; cbn [fold_carry];
      rewrite Z.shiftr_div_pow2, Z.div_small by lia; done. }
  cbn [fold_carry]. rewrite !land_ffff, !Z.shiftr_div_pow2 by lia.
  change (2 ^ 16) with 65536. set (y := s `mod` 65536 + s `div` 65536).
  destruct (Hround s ltac:(lia)) as (H1 & H2 & H3). fold y in H1, H2, H3.
  assert (Hy : y < 131071).
  { pose proof (Z.mod_pos_bound s 65536 ltac:(lia)).
    assert (s `div` 65536 < 65536) by (apply Z.div_lt_upper_bound; lia). lia. }
  destruct (Z.eqb_spec (s `div` 65536) 0).
  { exists s. pose proof (Z.div_mod s 65536 ltac:(lia)).
    pose proof (Z.mod_pos_bound s 65536 ltac:(lia)). split_and!; try done; lia. }
  destruct (Z.eqb_spec (y `div` 65536) 0).
  { exists y. pose proof (Z.div_mod y 65536 ltac:(lia)).
    pose proof (Z.mod_pos_bound y 65536 ltac:(lia)). split_and!; try done; lia. }
  destruct (Hround y ltac:(lia)) as (H4 & H5 & H6).
  set (z := y `mod` 65536 + y `div` 65536) in *.
  assert (z < 65536).
  { pose proof (Z.div_mod y 65536 ltac:(lia)). pose proof (Z.mod_pos_bound y 65536 ltac:(lia)).
    subst z. lia. }
  exists z. rewrite Z.div_small by lia. split_and!; (done || lia).
Qed.

(** Every message in this program is far shorter. *)
Definition MAX_SUMMED : Z := 65793.

Lemma checksum_spec {E} bs :
  bytes_ok bs → len bs ≤ MAX_SUMMED →
  ∃ c, @checksum E bs = Ok c ∧ u16 c ∧ (wsum true bs + c) `mod` 65535 = 0
    ∧ (c = 65535 ↔ wsum true bs = 0).
Proof.
  intros Hb Hl. unfold checksum, MAX_SUMMED, U16_MAX in *. pose proof (wsum_bound true bs Hb).
  rewrite sum_words_wsum by (done || lia). rewrite Z.add_0_l.
  destruct (@fold_carry_spec E (wsum true bs)) as (r & -> & Hr & Hm & H0); [lia|].
  cbn [mbind res_mbind res_bind]. rewrite (Z.mod_small r) by lia.
  exists (65535 - r). split; [done|]. split; [lia|]. split; [|lia].
  apply Z.cong_iff_0 in Hm. apply Z.mod_divide in Hm as [k Hk]; [|lia].
  apply Z.mod_divide; [lia|]. exists (1 - k). lia.
Qed.
Lemma checksum_zero {E} bs :
  bytes_ok bs → len bs ≤ MAX_SUMMED →
  @checksum E bs = Ok 0 ↔ wsum true bs ≠ 0 ∧ wsum true bs `mod` 65535 = 0.
Proof.
  intros Hb Hl. destruct (@checksum_spec E bs Hb Hl) as (c & -> & Hc & Hm & H0).
  split.
  - intros [= ->]. rewrite Z.add_0_r in Hm. split; [lia|done].
  - intros [Hne Hz]. rewrite <-Zplus_mod_idemp_l, Hz, Z.add_0_l in Hm.
    assert (c ≠ 65535) by tauto. rewrite Z.mod_small in Hm by lia. by subst.
Qed.
Lemma checksum_safe {E} bs : bytes_ok bs → len bs ≤ MAX_SUMMED → safe (@checksum E bs).
Proof. intros Hb Hl. by destruct (@checksum_spec E bs Hb Hl) as (c & -> & _). Qed.
Lemma checksum_u16 {E} bs c : bytes_ok bs → len bs ≤ MAX_SUMMED → @checksum E bs = Ok c → u16 c.
Proof. intros Hb Hl Hc. destruct (@checksum_spec E bs Hb Hl) as (c' & Hc' & H & _). congruence. Qed.

Lemma wsum_field pre post c :
  u16 c → Nat.even (length pre) = true →
  wsum true (pre ++ be 2 c ++ post) = wsum true (pre ++ [0; 0] ++ post) + c.
Proof.
  intros Hc He. rewrite !wsum_app, He. cbn [be length Nat.even wsum negb].
  pose proof (of_be_2 c Hc) as Hbe. rewrite of_be_two in Hbe. lia.
Qed.

(** A message whose checksum field held zero while it was summed verifies; as in
    UDP, a sum of zero may be sent as its other representation [0xffff]. *)
Lemma checksum_insert_as {E F} pre post c c' :
  bytes_ok (pre ++ [0; 0] ++ post) → len (pre ++ [0; 0] ++ post) ≤ MAX_SUMMED →
  Nat.even (length pre) = true → @checksum E (pre ++ [0; 0] ++ post) = Ok c →
  c' = c ∨ (c = 0 ∧ c' = 65535) → @checksum F (pre ++ be 2 c' ++ post) = Ok 0.
Proof.
  intros Hb Hl He Hc Hc'. destruct (@checksum_spec E _ Hb Hl) as (c0 & Hc0 & Hr & Hm & H0).
  rewrite Hc in Hc0. injection Hc0 as <-.
  pose proof (wsum_bound true _ Hb) as Hw.
  apply Forall_app in Hb as [Hb1 Hb2]. apply Forall_app in Hb2 as [_ Hb2].
  assert (Hb' : bytes_ok (pre ++ be 2 c' ++ post))
    by (apply bytes_ok_app; [exact Hb1|]; apply bytes_ok_app; [apply bytes_ok_be|exact Hb2]).
  apply checksum_zero; [done | lens|]. rewrite wsum_field by (done || lia).
  destruct Hc' as [->|[-> ->]]; split; try lia; try done.
Qed.
Lemma checksum_insert {E F} pre post c :
  bytes_ok (pre ++ [0; 0] ++ post) → len (pre ++ [0; 0] ++ post) ≤ MAX_SUMMED →
  Nat.even (length pre) = true →
  @checksum E (pre ++ [0; 0] ++ post) = Ok c → @checksum F (pre ++ be 2 c ++ post) = Ok 0.
Proof. intros. eapply checksum_insert_as; eauto. Qed.
(** Changing one octet of a message that verifies makes it fail. *)
Lemma checksum_detects {E F} bs i b v :
  bytes_ok bs → len bs ≤ MAX_SUMMED → @checksum E bs = Ok 0 →
  bs !! i = Some b → u8 v → v ≠ b → @checksum F (<[i:=v]> bs) ≠ Ok 0.
Proof.
  intros Hb Hl H0 Hi Hv Hne Hz.
  apply (checksum_zero bs) in H0 as [_ Hm]; [|done..].
  apply (checksum_zero (<[i:=v]> bs)) in Hz as [_ Hm'];
    [|by apply Forall_insert | unfold len; by rewrite length_insert].
  rewrite (wsum_insert _ _ _ _ _ Hi) in Hm'.
  rewrite <-Zplus_mod_idemp_l, Hm, Z.add_0_l in Hm'.
  pose proof (Forall_lookup_1 _ _ _ _ Hb Hi) as Hb0. cbn in Hb0.
  apply Z.mod_divide in Hm' as [k Hk]; [|lia]. destruct (Bool.eqb _ _); nia.
Qed.

Arguments checksum : simpl never.
