(* ===== verification/Prefix.v ===== *)
(** Prefix masks of a [W]-bit address, shared by IPv4 and IPv6. *)
From S2P Require Import Prelude Wire.

(** [MAX << (W - n)] on a [W]-bit word, and 0 for the empty prefix. *)
Definition mask_bits (W n : Z) : Z :=
  if n =? 0 then 0 else Z.shiftl (2 ^ W - 1) (W - n) `mod` 2 ^ W.

Section facts.
Context (W : Z) (HW : 0 < W).

Lemma split_pow n : 0 ≤ n ≤ W → 2 ^ W = 2 ^ n * 2 ^ (W - n).
Proof using HW. intros Hn. rewrite <-Z.pow_add_r by lia. f_equal. lia. Qed.

(** The mask in arithmetic: the [n] high bits of the word. *)
Lemma mask_bits_shape n : 0 ≤ n ≤ W → mask_bits W n = Z.shiftl (Z.ones n) (W - n).
Proof using HW.
  intros Hn. unfold mask_bits. destruct (Z.eqb_spec n 0) as [->|].
  { rewrite Z.shiftl_mul_pow2; [done|lia]. }
  rewrite !Z.shiftl_mul_pow2, Z.ones_equiv by lia. rewrite (split_pow n Hn) at 2.
  rewrite Z.mul_mod_distr_r by (apply Z.pow_nonzero; lia). f_equal.
  replace (2 ^ W - 1) with (2 ^ n - 1 + (2 ^ (W - n) - 1) * 2 ^ n)
    by (rewrite (split_pow n Hn); ring).
  rewrite Z_mod_plus_full. assert (0 < 2 ^ n) by (apply Z.pow_pos_nonneg; lia).
  rewrite Z.mod_small; lia.
Qed.
Lemma mask_bits_land a n :
  0 ≤ n ≤ W → 0 ≤ a < 2 ^ W → Z.land a (mask_bits W n) = a - a `mod` 2 ^ (W - n).
Proof using HW.
  intros Hn Ha. rewrite mask_bits_shape by done.
  assert (H : Z.land a (Z.shiftl (Z.ones n) (W - n)) = Z.shiftl (Z.shiftr a (W - n)) (W - n)).
  { apply Z.bits_inj'. intros k Hk. rewrite Z.land_spec, !Z.shiftl_spec by done.
    destruct (Z.ltb_spec k (W - n)).
    - rewrite !(Z.testbit_neg_r _ (k - _)) by lia. apply andb_false_r.
    - rewrite Z.shiftr_spec by lia. replace (k - (W - n) + (W - n)) with k by lia.
      rewrite Z.testbit_ones by lia. destruct (Z.ltb_spec k W).
      + assert ((0 <=? k - (W - n)) && (k - (W - n) <? n) = true) as -> by lia. apply andb_true_r.
      + rewrite (Z.bits_above_log2 a k); [done|lia|].
        destruct (Z.eq_dec a 0) as [->|]; [cbn; lia|]. apply Z.log2_lt_pow2; [lia|].
        assert (2 ^ W ≤ 2 ^ k) by (apply Z.pow_le_mono_r; lia). lia. }
  rewrite H, Z.shiftl_mul_pow2, Z.shiftr_div_pow2 by lia.
  pose proof (Z.div_mod a (2 ^ (W - n)) ltac:(apply Z.pow_nonzero; lia)). lia.
Qed.
Lemma mask_bits_complement n : 0 ≤ n ≤ W → 2 ^ W - 1 - mask_bits W n = Z.ones (W - n).
Proof using HW.
  intros Hn. rewrite mask_bits_shape, Z.shiftl_mul_pow2, !Z.ones_equiv by lia.
  rewrite (split_pow n Hn). lia.
Qed.

(** Normalizing [a] to a prefix of [n] bits gives [w] exactly on the block that
    starts at [w]. *)
Lemma normalize_range a w n :
  0 ≤ n ≤ W → w `mod` 2 ^ (W - n) = 0 →
  a - a `mod` 2 ^ (W - n) = w ↔ w ≤ a ≤ w + 2 ^ (W - n) - 1.
Proof using HW.
  intros Hn Hz. assert (HB : 0 < 2 ^ (W - n)) by (apply Z.pow_pos_nonneg; lia).
  set (B := 2 ^ (W - n)) in *. pose proof (Z.div_mod a B ltac:(lia)).
  pose proof (Z.mod_pos_bound a B ltac:(lia)).
  split; [intros <-; lia|]. intros Hr. apply Z.mod_divide in Hz as [q ->]; [|lia].
  assert (a `div` B = q) by (symmetry; apply (Z.div_unique_pos _ _ _ (a - q * B)); lia). nia.
Qed.
Lemma normalized a n :
  0 ≤ n ≤ W → 0 ≤ a → (a - a `mod` 2 ^ (W - n)) `mod` 2 ^ (W - n) = 0
  ∧ 0 ≤ a - a `mod` 2 ^ (W - n) ≤ a.
Proof using HW.
  intros Hn Ha. assert (HB : 0 < 2 ^ (W - n)) by (apply Z.pow_pos_nonneg; lia).
  pose proof (Z.mod_pos_bound a (2 ^ (W - n)) HB). pose proof (Z.mod_le a (2 ^ (W - n)) Ha HB).
  split; [|lia]. rewrite Zminus_mod, Z.mod_mod, Z.sub_diag by lia. done.
Qed.
End facts.
