(* ===== verification/Fletcher.v ===== *)
(** The age-independent Fletcher checksum of link-state advertisements
    ([rios-routing/src/lsa_checksum.rs]).

    [insert] computes the two check octets of an advertisement and stores them;
    [fletcher] sums every octet after the age.  The lemmas say that the stored
    octets make both sums vanish and that no other value of one octet does. *)
From S2P Require Import Prelude Wire.

(** [c % 255] on [i64]: Rust's remainder truncates. *)
Definition fletcher_step (acc : Z * Z) (byte : Z) : Z * Z :=
  let '(c0, c1) := acc in
  let c0 := Z.rem (c0 + byte) 255 in (c0, Z.rem (c1 + c0) 255).
Definition fletcher (bs : bytes) : Z * Z := foldl fletcher_step (0, 0) bs.

Definition insert {E} (out : bytes) : res E bytes :=
  tail ← slice_from out 2;
  let '(c0, c1) := fletcher tail in
  let x := Z.rem ((len out - 17) * c0 - c1) 255 in
  let x := if x <=? 0 then x + 255 else x in
  let y := 510 - c0 - x in
  let y := if 255 <? y then y - 255 else y in
  out ← put out 16 [x];
  put out 17 [y].

(** ** The two sums as closed forms *)

Fixpoint sum (bs : bytes) : Z := match bs with [] => 0 | b :: bs => b + sum bs end.
(** Each octet weighted by the number of octets from it to the end. *)
Fixpoint weighted (bs : bytes) : Z :=
  match bs with [] => 0 | b :: bs' => len bs * b + weighted bs' end.

Lemma sum_app a b : sum (a ++ b) = sum a + sum b.
Proof. induction a; cbn [sum app]; lia. Qed.
Lemma weighted_app a b : weighted (a ++ b) = weighted a + len b * sum a + weighted b.
Proof. induction a as [|x a IH]; cbn [weighted sum app]; [lia|]. rewrite IH. lens. Qed.
Lemma sum_nonneg bs : bytes_ok bs → 0 ≤ sum bs.
Proof. induction 1; cbn [sum]; lia. Qed.

Lemma rem_mod a : 0 ≤ a → Z.rem a 255 = a `mod` 255.
Proof. intros. by apply Z.rem_mod_nonneg. Qed.

Lemma fletcher_from bs c0 c1 :
  bytes_ok bs → 0 ≤ c0 < 255 → 0 ≤ c1 < 255 →
  foldl fletcher_step (c0, c1) bs
  = ((c0 + sum bs) `mod` 255, (c1 + len bs * c0 + weighted bs) `mod` 255).
Proof.
  intros Hbs. revert c0 c1. induction Hbs as [|b bs Hb Hbs IH]; intros c0 c1 H0 H1;
    cbn [foldl sum weighted].
  - unfold len. cbn [length]. f_equal; rewrite Z.mod_small by lia; lia.
  - unfold fletcher_step at 2. rewrite (rem_mod (c0 + b)) by lia.
    pose proof (Z.mod_pos_bound (c0 + b) 255 ltac:(lia)). rewrite rem_mod by lia.
    pose proof (Z.mod_pos_bound (c1 + (c0 + b) `mod` 255) 255 ltac:(lia)).
    rewrite IH by done. f_equal.
    + rewrite Zplus_mod_idemp_l. f_equal. lia.
    + assert (len (b :: bs) = len bs + 1) as -> by lens.
      pose proof (Z.div_mod (c0 + b) 255 ltac:(lia)) as E0.
      pose proof (Z.div_mod (c1 + (c0 + b) `mod` 255) 255 ltac:(lia)) as E1.
      set (q0 := (c0 + b) `div` 255) in *. set (q1 := (c1 + (c0 + b) `mod` 255) `div` 255) in *.
      set (m0 := (c0 + b) `mod` 255) in *. set (m1 := (c1 + m0) `mod` 255) in *.
      replace (m1 + len bs * m0 + weighted bs)
        with ((c1 + (len bs + 1) * c0 + ((len bs + 1) * b + weighted bs))
              + (- (q1 + q0 + len bs * q0)) * 255) by nia.
      by rewrite Z_mod_plus_full.
Qed.
Lemma fletcher_spec bs : bytes_ok bs → fletcher bs = (sum bs `mod` 255, weighted bs `mod` 255).
Proof. intros. unfold fletcher. rewrite fletcher_from by (done || lia). f_equal; f_equal; lia. Qed.

(** The sums vanish exactly when 255 divides both. *)
Lemma fletcher_zero bs :
  bytes_ok bs → fletcher bs = (0, 0) ↔ (255 | sum bs) ∧ (255 | weighted bs).
Proof.
  intros H. rewrite fletcher_spec by done. rewrite <-!Z.mod_divide by lia.
  split; [by intros [= -> ->] | by intros [-> ->]].
Qed.

(** ** The inserted octets *)

Lemma insert_spec {E} pre post :
  bytes_ok (pre ++ [0; 0] ++ post) → length pre = 16%nat →
  ∃ x y, @insert E (pre ++ [0; 0] ++ post) = Ok (pre ++ [x; y] ++ post)
    ∧ 1 ≤ x ≤ 255 ∧ 1 ≤ y ≤ 255 ∧ fletcher (drop 2 (pre ++ [x; y] ++ post)) = (0, 0).
Proof.
  intros Hok Hpre. apply Forall_app in Hok as [Hp [_ Hq]%Forall_app].
  assert (Hsum : ∀ x y : Z, drop 2 (pre ++ [x; y] ++ post) = drop 2 pre ++ [x; y] ++ post).
  { intros. by rewrite drop_app_le by lia. }
  assert (Hb : ∀ x y : Z, u8 x → u8 y → bytes_ok (drop 2 pre ++ [x; y] ++ post)).
  { intros. apply bytes_ok_app; [by apply bytes_ok_drop|]. octets. }
  unfold insert. rewrite slice_from_ok by lens. rewrite bind_Ok, Hsum.
  rewrite fletcher_spec by (apply Hb; lia). cbn [app].
  assert (Hl : len (pre ++ 0 :: 0 :: post) = 18 + len post) by lens. rewrite Hl.
  set (d := drop 2 pre) in *.
  set (c0 := sum (d ++ 0 :: 0 :: post) `mod` 255). set (c1 := weighted (d ++ 0 :: 0 :: post) `mod` 255).
  set (m := (18 + len post - 17) * c0 - c1).
  set (x := if Z.rem m 255 <=? 0 then Z.rem m 255 + 255 else Z.rem m 255).
  set (y := if 255 <? 510 - c0 - x then 510 - c0 - x - 255 else 510 - c0 - x).
  assert (H0 : 0 ≤ c0 < 255) by (apply Z.mod_pos_bound; lia).
  pose proof (Z.quot_rem m 255 ltac:(lia)) as Hm.
  assert (Hr : -255 < Z.rem m 255 < 255) by (pose proof (Z.rem_bound_abs m 255 ltac:(lia)); lia).
  assert (Hx : 1 ≤ x ≤ 255) by (unfold x; case_match; lia).
  assert (Hy : 1 ≤ y ≤ 255) by (unfold y; case_match; lia).
  exists x, y. split; [|split_wf; [done|done|]].
  - rewrite put_ok by lens. rewrite bind_Ok, take_app_length', (drop_app_ge pre) by (cbn [length]; lia).
    rewrite Hpre. cbn [length Nat.add Nat.sub drop app]. rewrite ?drop_0, put_ok by lens.
    assert (pre ++ x :: 0 :: post = (pre ++ [x]) ++ 0 :: post) as -> by (by rewrite <-app_assoc).
    rewrite take_app_length', drop_app_ge by lens. rewrite length_app, Hpre, <-!app_assoc.
    cbn [length Nat.add Nat.sub drop app]. by rewrite drop_0.
  - change (pre ++ x :: y :: post) with (pre ++ [x; y] ++ post). rewrite Hsum.
    apply fletcher_zero; [apply Hb; lia|].
    assert (Hs : sum (d ++ 0 :: 0 :: post) = sum d + sum post) by (rewrite sum_app; cbn [sum]; lia).
    assert (Hw : weighted (d ++ 0 :: 0 :: post) = weighted d + (2 + len post) * sum d + weighted post).
    { rewrite weighted_app. cbn [weighted]. lens. }
    assert (Hw' : weighted (d ++ [x; y] ++ post)
      = weighted d + (2 + len post) * sum d + weighted post + (2 + len post) * x + (1 + len post) * y).
    { rewrite weighted_app. cbn [weighted app]. lens. }
    rewrite Hw', sum_app. cbn [sum app].
    pose proof (Z.div_mod (sum d + sum post) 255 ltac:(lia)) as D0.
    pose proof (Z.div_mod (weighted d + (2 + len post) * sum d + weighted post) 255 ltac:(lia)) as D1.
    rewrite <-Hs in D0. rewrite <-Hw in D1. fold c0 in D0. fold c1 in D1.
    set (q0 := _ `div` 255) in D0. set (q1 := _ `div` 255) in D1. rewrite Hs in D0. rewrite Hw in D1.
    assert (Hx' : ∃ k, x = m + 255 * k).
    { unfold x. case_match; [exists (1 - Z.quot m 255) | exists (- Z.quot m 255)]; lia. }
    assert (Hy' : ∃ k, y = - c0 - x + 255 * k) by (unfold y; case_match; [exists 1 | exists 2]; lia).
    destruct Hx' as [k Hk], Hy' as [j Hj]. split.
    + exists (q0 + j). lia.
    + exists (q1 + k + (1 + len post) * j). unfold m in Hk. nia.
Qed.

(** ** Detection *)

Lemma sum_insert bs i b v : bs !! i = Some b → sum (<[i := v]> bs) = sum bs - b + v.
Proof.
  revert i. induction bs as [|a bs IH]; intros [|i] H; cbn in *; simplify_eq; cbn [sum]; [lia|].
  rewrite IH by done. lia.
Qed.
(** Replacing one octet is noticed unless 0 and 255 are exchanged. *)
Lemma fletcher_detects bs i b v :
  bytes_ok bs → u8 v → bs !! i = Some b → fletcher bs = (0, 0) →
  b ≠ v → fletcher (<[i := v]> bs) = (0, 0) → (b = 0 ∧ v = 255) ∨ (b = 255 ∧ v = 0).
Proof.
  intros Hbs Hv Hi H0 Hne H1. pose proof (Forall_lookup_1 _ _ _ _ Hbs Hi) as Hb. cbn in Hb.
  apply fletcher_zero in H0 as [[p Hp] _]; [|done].
  apply fletcher_zero in H1 as [[q Hq] _]; [|by apply Forall_insert].
  rewrite (sum_insert _ _ _ _ Hi) in Hq. nia.
Qed.
