(* ===== verification/EventQueue.v ===== *)
(** rios-simulator, virtual clock and event queue
    (src/crates/rios-simulator/src/queue.rs and lib.rs): the simulator's heap
    of timed events, and its observational equivalence with a stable sorted
    list. *)
From S2P Require Import Prelude Wire.
From Stdlib Require Import Sorting.Permutation Sorting.Sorted.

(** A [SimTime] is its number of microseconds. *)
Abbreviation SimTime := Z.
Definition SimTime_from_millis (milliseconds : Z) : SimTime := sat_mul U64_MAX milliseconds 1000.
Definition SimTime_as_millis (t : SimTime) : Z := t `div` 1000.

Record ScheduledEvent (E : Type) := mkEvent { time : SimTime; event : E; sequence : Z }.
Arguments mkEvent {E} _ _ _.
Arguments time {E} _.
Arguments event {E} _.
Arguments sequence {E} _.

Inductive ScheduleError := Past | Overflow | PendingEvent.
#[export] Instance ScheduleError_eq_dec : EqDecision ScheduleError.
Proof. solve_decision. Defined.

(** [Ord for ScheduledEvent]: the keys are reversed, so that the greatest
    element of a max-heap is the earliest event. *)
Definition event_cmp {E} (self other : ScheduledEvent E) : comparison :=
  match Z.compare (time other) (time self) with
  | Eq => Z.compare (sequence other) (sequence self)
  | c => c
  end.

(** [std::collections::BinaryHeap]: the elements, in no promised order; [pop]
    takes out a greatest one and [peek] reads it. *)
Fixpoint heap_pop {E} (heap : list (ScheduledEvent E))
    : option (ScheduledEvent E * list (ScheduledEvent E)) :=
  match heap with
  | [] => None
  | x :: heap' =>
      match heap_pop heap' with
      | None => Some (x, [])
      | Some (m, rest) =>
          match event_cmp x m with
          | Gt => Some (x, heap')
          | _ => Some (m, x :: rest)
          end
      end
  end.
Definition heap_peek {E} (heap : list (ScheduledEvent E)) : option (ScheduledEvent E) :=
  fst <$> heap_pop heap.

Record EventQueue (E : Type) := mkQueue {
  now : SimTime;
  next_sequence : Z;
  pending : list (ScheduledEvent E)
}.
Arguments mkQueue {E} _ _ _.
Arguments now {E} _.
Arguments next_sequence {E} _.
Arguments pending {E} _.

Section operations.
Context {E : Type}.
Implicit Types (q : EventQueue E) (e : E) (ev : ScheduledEvent E).

Definition EventQueue_default : EventQueue E := mkQueue 0 0 [].
Definition queue_len q : Z := len (pending q).
Definition is_empty q : bool := match pending q with [] => true | _ => false end.
Definition next_time q : option SimTime := time <$> heap_peek (pending q).

Definition schedule_at q (t : SimTime) e : EventQueue E * res ScheduleError () :=
  if t <? now q then (q, Err Past)
  else
    match checked_add U64_MAX (next_sequence q) 1 with
    | None => (q, Err Overflow)
    | Some next =>
        (mkQueue (now q) next (mkEvent t e (next_sequence q) :: pending q), Ok tt)
    end.

Definition schedule_after q (delay_ms : Z) e : EventQueue E * res ScheduleError () :=
  match checked_mul U64_MAX delay_ms 1000 with
  | None => (q, Err Overflow)
  | Some delay =>
      match checked_add U64_MAX (now q) delay with
      | None => (q, Err Overflow)
      | Some t => schedule_at q t e
      end
  end.

Definition step q : EventQueue E * option (ScheduledEvent E) :=
  match heap_pop (pending q) with
  | None => (q, None)
  | Some (ev, rest) => (mkQueue (time ev) (next_sequence q) rest, Some ev)
  end.

Definition advance_to q (t : SimTime) : EventQueue E * res ScheduleError () :=
  if t <? now q then (q, Err Past)
  else if match next_time q with Some next => next <=? t | None => false end
  then (q, Err PendingEvent)
  else (mkQueue t (next_sequence q) (pending q), Ok tt).
End operations.

(** ** Ordering of events *)

Definition key_lt {E} (a b : ScheduledEvent E) : Prop :=
  time a < time b ∨ (time a = time b ∧ sequence a < sequence b).

Lemma event_cmp_Gt {E} (a b : ScheduledEvent E) : event_cmp a b = Gt ↔ key_lt a b.
Proof.
  unfold event_cmp, key_lt. destruct (Z.compare_spec (time b) (time a)).
  - destruct (Z.compare_spec (sequence b) (sequence a)); split; (done || lia).
  - split; [done|lia].
  - split; [lia|done].
Qed.

Lemma heap_pop_None {E} (h : list (ScheduledEvent E)) : heap_pop h = None ↔ h = [].
Proof. destruct h; cbn; [done|]. repeat case_match; done. Qed.

(** [heap_pop] removes one element, and no other element precedes it. *)
Lemma heap_pop_spec {E} (h : list (ScheduledEvent E)) m rest :
  heap_pop h = Some (m, rest) →
  Permutation h (m :: rest) ∧ Forall (λ x, ¬ key_lt x m) rest.
Proof.
  revert m rest. induction h as [|x h IH]; intros m rest; [done|]. cbn.
  destruct (heap_pop h) as [[m' rest']|] eqn:Hp.
  - specialize (IH _ _ eq_refl) as [Hperm Hmin].
    destruct (event_cmp x m') eqn:Hc; intros [= <- <-].
    1,2: split; [rewrite Hperm; by constructor|];
         constructor; [rewrite <-event_cmp_Gt; by rewrite Hc | done].
    split; [done|]. apply event_cmp_Gt in Hc. rewrite Hperm. unfold key_lt in *.
    constructor; [lia|]. eapply Forall_impl; [exact Hmin|]. cbn. lia.
  - apply heap_pop_None in Hp as ->. intros [= <- <-]. by split; constructor.
Qed.

(** ** Invariant *)

Definition event_ok {E} (q : EventQueue E) (ev : ScheduledEvent E) : Prop :=
  now q ≤ time ev ∧ 0 ≤ sequence ev < next_sequence q.
Definition queue_inv {E} (q : EventQueue E) : Prop :=
  Forall (event_ok q) (pending q) ∧ NoDup (map sequence (pending q)) ∧ 0 ≤ next_sequence q.

(** ** The specification: a list of timed events in delivery order *)

Module Spec.
Record state (E : Type) := mkState { clock : SimTime; issued : Z; agenda : list (SimTime * E) }.
Arguments mkState {E} _ _ _.
Arguments clock {E} _.
Arguments issued {E} _.
Arguments agenda {E} _.

(** Events of one time keep their insertion order. *)
Fixpoint insert {E} (t : SimTime) (e : E) (l : list (SimTime * E)) : list (SimTime * E) :=
  match l with
  | [] => [(t, e)]
  | (t', e') :: l' => if t <? t' then (t, e) :: l else (t', e') :: insert t e l'
  end.

Definition schedule_at {E} (s : state E) (t : SimTime) (e : E) : state E * res ScheduleError () :=
  if t <? clock s then (s, Err Past)
  else if U64_MAX <=? issued s then (s, Err Overflow)
  else (mkState (clock s) (issued s + 1) (insert t e (agenda s)), Ok tt).

Definition schedule_after {E} (s : state E) (delay_ms : Z) (e : E) : state E * res ScheduleError () :=
  let t := clock s + delay_ms * 1000 in
  if (U64_MAX <? delay_ms * 1000) || (U64_MAX <? t) then (s, Err Overflow)
  else schedule_at s t e.

Definition step {E} (s : state E) : state E * option (SimTime * E) :=
  match agenda s with
  | [] => (s, None)
  | (t, e) :: l => (mkState t (issued s) l, Some (t, e))
  end.

Definition advance_to {E} (s : state E) (t : SimTime) : state E * res ScheduleError () :=
  if t <? clock s then (s, Err Past)
  else match agenda s with
       | (t', _) :: _ => if t' <=? t then (s, Err PendingEvent)
                         else (mkState t (issued s) (agenda s), Ok tt)
       | [] => (mkState t (issued s) [], Ok tt)
       end.
End Spec.

(** The calls a client can make and what it observes of each. *)
Inductive call (E : Type) :=
| ScheduleAt (t : SimTime) (e : E)
| ScheduleAfter (delay_ms : Z) (e : E)
| Step
| AdvanceTo (t : SimTime)
| Observe.
Arguments ScheduleAt {E} _ _.
Arguments ScheduleAfter {E} _ _.
Arguments Step {E}.
Arguments AdvanceTo {E} _.
Arguments Observe {E}.

Inductive answer (E : Type) :=
| Scheduled (r : res ScheduleError ())
| Stepped (r : option (SimTime * E))
| Observed (now : SimTime) (len : Z) (empty : bool) (next : option SimTime).
Arguments Scheduled {E} _.
Arguments Stepped {E} _.
Arguments Observed {E} _ _ _ _.

Section equivalence.
Context {E : Type}.

Definition queue_call (q : EventQueue E) (c : call E) : EventQueue E * answer E :=
  match c with
  | ScheduleAt t e => let '(q', r) := schedule_at q t e in (q', Scheduled r)
  | ScheduleAfter d e => let '(q', r) := schedule_after q d e in (q', Scheduled r)
  | Step => let '(q', r) := step q in (q', Stepped ((λ ev, (time ev, event ev)) <$> r))
  | AdvanceTo t => let '(q', r) := advance_to q t in (q', Scheduled r)
  | Observe => (q, Observed (now q) (queue_len q) (is_empty q) (next_time q))
  end.
Definition spec_call (s : Spec.state E) (c : call E) : Spec.state E * answer E :=
  match c with
  | ScheduleAt t e => let '(s', r) := Spec.schedule_at s t e in (s', Scheduled r)
  | ScheduleAfter d e => let '(s', r) := Spec.schedule_after s d e in (s', Scheduled r)
  | Step => let '(s', r) := Spec.step s in (s', Stepped r)
  | AdvanceTo t => let '(s', r) := Spec.advance_to s t in (s', Scheduled r)
  | Observe =>
      (s, Observed (Spec.clock s) (len (Spec.agenda s))
           (match Spec.agenda s with [] => true | _ => false end)
           (fst <$> head (Spec.agenda s)))
  end.
Fixpoint run {S} (f : S → call E → S * answer E) (s : S) (cs : list (call E)) : list (answer E) :=
  match cs with
  | [] => []
  | c :: cs' => let '(s', a) := f s c in a :: run f s' cs'
  end.

(** The pending events sorted by key are the agenda. *)
Definition refines (q : EventQueue E) (s : Spec.state E) : Prop :=
  queue_inv q ∧ now q = Spec.clock s ∧ next_sequence q = Spec.issued s ∧
  ∃ l, Permutation (pending q) l ∧ StronglySorted key_lt l
       ∧ Spec.agenda s = map (λ ev, (time ev, event ev)) l.

(** Inserting a fresh, latest-numbered event keeps the list sorted. *)
Fixpoint insert_event (ev : ScheduledEvent E) (l : list (ScheduledEvent E)) :=
  match l with
  | [] => [ev]
  | x :: l' => if time ev <? time x then ev :: l else x :: insert_event ev l'
  end.
Lemma insert_event_perm ev l : Permutation (insert_event ev l) (ev :: l).
Proof.
  induction l as [|x l IH]; [done|]. cbn. case_match; [done|]. rewrite IH. constructor.
Qed.
Lemma insert_event_map ev l :
  map (λ x, (time x, event x)) (insert_event ev l)
  = Spec.insert (time ev) (event ev) (map (λ x, (time x, event x)) l).
Proof. induction l as [|x l IH]; [done|]. cbn. case_match; [done|]. cbn. by rewrite IH. Qed.
Lemma insert_event_sorted ev l :
  StronglySorted key_lt l → Forall (λ x, sequence x < sequence ev) l →
  StronglySorted key_lt (insert_event ev l).
Proof.
  induction 1 as [|x l Hs IH Hx]; intros Hl; cbn; [by repeat constructor|].
  apply Forall_cons_1 in Hl as [Hxs Hl].
  destruct (time ev <? time x) eqn:Ht.
  - constructor; [by constructor|]. constructor; [left; lia|].
    eapply Forall_impl; [exact Hx|]. unfold key_lt. cbn. lia.
  - constructor; [by apply IH|].
    rewrite insert_event_perm. constructor; [unfold key_lt; lia | done].
Qed.

Lemma pop_sorted (h l : list (ScheduledEvent E)) m rest :
  Permutation h l → StronglySorted key_lt l → heap_pop h = Some (m, rest) →
  ∃ l', l = m :: l' ∧ Permutation rest l'.
Proof.
  intros Hp Hs [Hperm Hmin]%heap_pop_spec. rewrite Hp in Hperm. clear Hp h.
  destruct l as [|x l]; [by apply Permutation_nil_cons in Hperm|].
  apply StronglySorted_inv in Hs as [_ Hall].
  assert (Hx : x ∈ m :: rest) by (rewrite <-Hperm; left).
  assert (Hm : m ∈ x :: l) by (rewrite Hperm; left).
  assert (x = m) as ->.
  { apply elem_of_cons in Hx as [|Hx]; [done|]. apply elem_of_cons in Hm as [|Hm]; [done|].
    rewrite Forall_forall in Hall, Hmin. specialize (Hall _ Hm). by destruct (Hmin _ Hx). }
  exists l. split; [done|]. by apply Permutation_cons_inv in Hperm.
Qed.

Lemma refines_schedule_at q s t e :
  refines q s →
  (schedule_at q t e).2 = (Spec.schedule_at s t e).2
  ∧ refines (schedule_at q t e).1 (Spec.schedule_at s t e).1.
Proof.
  intros ((Hev & Hnd & H0) & Hn & Hi & l & Hp & Hs & Ha). unfold schedule_at, Spec.schedule_at.
  rewrite Hn. destruct (t <? Spec.clock s) eqn:Ht; cbn.
  { split; [done|]. repeat split; eauto 10. }
  unfold checked_add. rewrite Hi. destruct (U64_MAX <=? Spec.issued s) eqn:Hmax; decide_ifs; cbn.
  { split; [done|]. repeat split; eauto 10. }
  split; [done|].
  set (ev := mkEvent t e (Spec.issued s)).
  assert (Hlt : Forall (λ x, sequence x < sequence ev) (pending q)).
  { eapply Forall_impl; [exact Hev|]. unfold event_ok. cbn. lia. }
  repeat split; cbn; try lia.
  - constructor; [unfold event_ok; cbn; lia|].
    eapply Forall_impl; [exact Hev|]. unfold event_ok. cbn. lia.
  - constructor; [|done]. intros (x & Hx & Hin)%list_elem_of_fmap.
    rewrite Forall_forall in Hlt. specialize (Hlt _ Hin). cbn in *. lia.
  - exists (insert_event ev l). split_and!.
    + rewrite insert_event_perm. by constructor.
    + apply insert_event_sorted; [done|]. by rewrite <-Hp.
    + by rewrite insert_event_map, Ha.
Qed.

Lemma refines_pop q s m rest :
  refines q s → heap_pop (pending q) = Some (m, rest) →
  ∃ a, Spec.agenda s = (time m, event m) :: a
       ∧ refines (mkQueue (time m) (next_sequence q) rest) (Spec.mkState (time m) (Spec.issued s) a).
Proof.
  intros ((Hev & Hnd & H0) & Hn & Hi & l & Hp & Hs & Ha) Hpop.
  destruct (pop_sorted _ _ _ _ Hp Hs Hpop) as (l' & -> & Hrest).
  apply heap_pop_spec in Hpop as [Hperm Hmin].
  exists (map (λ ev, (time ev, event ev)) l'). split; [done|].
  rewrite Hperm in Hev, Hnd. apply Forall_cons_1 in Hev as [Hm Hev].
  apply NoDup_cons in Hnd as [_ Hnd]. apply StronglySorted_inv in Hs as [Hs _].
  repeat split; cbn; try done; [|by exists l'].
  rewrite Forall_forall in *. intros x Hx. specialize (Hmin x Hx). specialize (Hev x Hx).
  unfold event_ok, key_lt in *. cbn. lia.
Qed.

Lemma refines_empty q s : refines q s → heap_pop (pending q) = None → Spec.agenda s = [].
Proof.
  intros (_ & _ & _ & l & Hp & _ & Ha) Hpop%heap_pop_None. rewrite Hpop in Hp.
  apply Permutation_nil in Hp as ->. done.
Qed.

Lemma refines_len q s : refines q s → len (Spec.agenda s) = len (pending q).
Proof.
  intros (_ & _ & _ & l & Hp & _ & ->). unfold len. rewrite length_map. by rewrite Hp.
Qed.

Lemma refines_call q s c :
  refines q s → (queue_call q c).2 = (spec_call s c).2 ∧ refines (queue_call q c).1 (spec_call s c).1.
Proof.
  intros Hr. pose proof Hr as (_ & Hn & _). destruct c as [t e|d e| |t|]; cbn.
  - pose proof (refines_schedule_at q s t e Hr) as [??].
    destruct (schedule_at _ _ _), (Spec.schedule_at _ _ _); cbn in *. by subst.
  - unfold schedule_after, Spec.schedule_after, checked_mul, checked_add. rewrite Hn.
    destruct (d * 1000 <=? U64_MAX) eqn:Hd; decide_ifs; [|done].
    destruct (Spec.clock s + d * 1000 <=? U64_MAX) eqn:Ht; decide_ifs; [|done].
    pose proof (refines_schedule_at q s (Spec.clock s + d * 1000) e Hr) as [??].
    destruct (schedule_at _ _ _), (Spec.schedule_at _ _ _); cbn in *. by subst.
  - unfold step, Spec.step. destruct (heap_pop (pending q)) as [[m rest]|] eqn:Hp.
    + destruct (refines_pop _ _ _ _ Hr Hp) as (a & -> & ?). done.
    + by rewrite (refines_empty _ _ Hr Hp).
  - unfold advance_to, Spec.advance_to, next_time, heap_peek. rewrite Hn.
    destruct (t <? Spec.clock s) eqn:Ht; [done|].
    destruct Hr as ((Hev & Hnd & H0) & _ & Hi & l & Hperm & Hs & Ha).
    destruct (heap_pop (pending q)) as [[m rest]|] eqn:Hp; cbn.
    + destruct (pop_sorted _ _ _ _ Hperm Hs Hp) as (l' & -> & _). rewrite Ha. cbn.
      destruct (time m <=? t) eqn:Hm; cbn; (split; [done|]); repeat split; eauto; cbn.
      apply heap_pop_spec in Hp as [Hperm' Hmin].
      rewrite Forall_forall in *. intros x Hx. pose proof (Hev x Hx) as Hok.
      assert (Hevm : event_ok q m) by (apply Hev; rewrite Hperm'; left).
      rewrite Hperm' in Hx. apply elem_of_cons in Hx as [->|Hx]; unfold event_ok in *; cbn; [lia|].
      specialize (Hmin x Hx). unfold key_lt in *. lia.
    + apply heap_pop_None in Hp. rewrite Hp in *. apply Permutation_nil in Hperm as ->.
      rewrite Ha. cbn. split; [done|]. repeat split; cbn; eauto.
  - split; [|done]. rewrite Hn. unfold queue_len. rewrite (refines_len _ _ Hr).
    unfold next_time, heap_peek, is_empty.
    destruct (heap_pop (pending q)) as [[m rest]|] eqn:Hp.
    + destruct (refines_pop _ _ _ _ Hr Hp) as (a & -> & _).
      destruct (pending q); [done|]. done.
    + rewrite (refines_empty _ _ Hr Hp). apply heap_pop_None in Hp. by rewrite Hp.
Qed.

Lemma run_refines q s cs : refines q s → run queue_call q cs = run spec_call s cs.
Proof.
  revert q s. induction cs as [|c cs IH]; intros q s Hr; [done|]. cbn.
  destruct (refines_call q s c Hr) as [Ha Hr'].
  destruct (queue_call q c), (spec_call s c); cbn in *. subst. f_equal. by apply IH.
Qed.
End equivalence.

(** C2: whatever calls a client makes on a fresh queue, it observes what the
    stable sorted agenda would answer: events leave in time order, events of
    one time in insertion order, and failed calls change nothing. *)
Theorem queue_equivalent_to_agenda {E} (cs : list (call E)) :
  run queue_call EventQueue_default cs = run spec_call (Spec.mkState 0 0 []) cs.
Proof.
  apply run_refines. repeat split; cbn; try (constructor || lia). exists [].
  split_and!; [done|constructor|done].
Qed.
