(* ===== verification/Link.v ===== *)
(** rios-simulator, link model (src/crates/rios-simulator/src/link.rs): integer
    link parameters, the per-direction FIFO transmitter and the lab's random
    stream.  Times are microseconds ([SimTime] of EventQueue). *)
From S2P Require Import Prelude Wire EventQueue.

(** A [Bandwidth] is its nonzero rate in bits per second. *)
Abbreviation Bandwidth := Z.
Definition Bandwidth_new (bits_per_second : Z) : option Bandwidth :=
  if bits_per_second =? 0 then None else Some bits_per_second.
Definition serialization_us (rate : Bandwidth) (bytes : Z) : res ScheduleError Z :=
  let duration := div_ceil (bytes * 8 * 1000000) rate in
  ok_or (try_from U64_MAX duration) Overflow.

Record LinkConfig := {
  bandwidth : option Bandwidth;
  delay_us : Z;
  jitter_us : Z;
  loss_ppm : Z;
  queue_packets : Z
}.
Definition LinkConfig_default : LinkConfig :=
  {| bandwidth := None; delay_us := 1000; jitter_us := 0; loss_ppm := 0; queue_packets := 100 |}.

Inductive LinkConfigError := LossRange | QueueRange | JitterRange.
Definition validate (c : LinkConfig) : res LinkConfigError () :=
  if loss_ppm c >? 1000000 then Err LossRange
  else if (queue_packets c =? 0) || (queue_packets c >? 1000000) then Err QueueRange
  else if jitter_us c >? (U64_MAX - 1) `div` 2 then Err JitterRange
  else Ok tt.

Record LinkCounters := {
  tx_packets : Z; tx_bytes : Z; rx_packets : Z; rx_bytes : Z;
  queue_drops : Z; loss_drops : Z; changed_drops : Z
}.
Definition LinkCounters_default : LinkCounters :=
  {| tx_packets := 0; tx_bytes := 0; rx_packets := 0; rx_bytes := 0;
     queue_drops := 0; loss_drops := 0; changed_drops := 0 |}.

(** [finishes] is the [VecDeque], front first. *)
Record DirectionalLinkRuntime := {
  finishes : list SimTime;
  last_arrival : SimTime;
  counters : LinkCounters
}.
Definition Runtime_default : DirectionalLinkRuntime :=
  {| finishes := []; last_arrival := 0; counters := LinkCounters_default |}.

Inductive Admission :=
| Full
| Scheduled (arrival : SimTime) (lost : bool).

Definition available_at (l : DirectionalLinkRuntime) (now : SimTime) : SimTime :=
  Z.max (default now (last (finishes l))) now.

Definition queued (l : DirectionalLinkRuntime) (now : SimTime) : Z :=
  len (filter (λ finish, now < finish) (finishes l)).

Definition reset (l : DirectionalLinkRuntime) : DirectionalLinkRuntime :=
  {| finishes := []; last_arrival := 0; counters := counters l |}.

(** [while finishes.front() <= now { pop_front() }] *)
Fixpoint expire (now : SimTime) (fs : list SimTime) : list SimTime :=
  match fs with
  | f :: fs' => if f <=? now then expire now fs' else fs
  | [] => []
  end.

Definition count_queue_drop (c : LinkCounters) : LinkCounters :=
  {| tx_packets := tx_packets c; tx_bytes := tx_bytes c; rx_packets := rx_packets c;
     rx_bytes := rx_bytes c; queue_drops := sat_add U64_MAX (queue_drops c) 1;
     loss_drops := loss_drops c; changed_drops := changed_drops c |}.
Definition count_tx (c : LinkCounters) (bytes : Z) : LinkCounters :=
  {| tx_packets := sat_add U64_MAX (tx_packets c) 1;
     tx_bytes := sat_add U64_MAX (tx_bytes c) bytes; rx_packets := rx_packets c;
     rx_bytes := rx_bytes c; queue_drops := queue_drops c;
     loss_drops := loss_drops c; changed_drops := changed_drops c |}.

(** When a frame admitted at [now] finishes serializing and when it arrives,
    before the FIFO constraint on arrivals. *)
Definition transmission (l : DirectionalLinkRuntime) (c : LinkConfig) (now : SimTime)
    (bytes jitter_sample : Z) : res ScheduleError (SimTime * SimTime) :=
  let start := Z.max (default now (last (finishes l))) now in
  serialization ← (match bandwidth c with
                   | None => Ok 0
                   | Some rate => serialization_us rate bytes
                   end);
  finish ← ok_or (checked_add U64_MAX start serialization) Overflow;
  modulus ← arith U64_MAX (jitter_us c * 2 + 1);
  let jitter := jitter_sample `mod` modulus in
  let propagation := sat_sub (delay_us c + jitter) (jitter_us c) in
  arrival ← ok_or (try_from U64_MAX (finish + propagation)) Overflow;
  Ok (finish, arrival).

Definition link_admit (l : DirectionalLinkRuntime) (c : LinkConfig) (now : SimTime)
    (bytes jitter_sample loss_sample : Z)
    : DirectionalLinkRuntime * res ScheduleError Admission :=
  let l := {| finishes := expire now (finishes l); last_arrival := last_arrival l;
              counters := counters l |} in
  if len (finishes l) >=? queue_packets c then
    ({| finishes := finishes l; last_arrival := last_arrival l;
        counters := count_queue_drop (counters l) |}, Ok Full)
  else
    match transmission l c now bytes jitter_sample with
    | Err e => (l, Err e)
    | Panic => (l, Panic)
    | Ok (finish, arrival) =>
        let arrival := Z.max arrival (last_arrival l) in
        ({| finishes := finishes l ++ [finish]; last_arrival := arrival;
            counters := count_tx (counters l) bytes |},
         Ok (Scheduled arrival (loss_sample `mod` 1000000 <? loss_ppm c)))
    end.

(** [SimulationRng]: SplitMix64 on 64-bit words. *)
Definition W64 : Z := 18446744073709551616.
Definition rng_sample (state : Z) : Z * Z :=
  let state := (state + 0x9e3779b97f4a7c15) `mod` W64 in
  let value := (Z.lxor state (Z.shiftr state 30) * 0xbf58476d1ce4e5b9) `mod` W64 in
  let value := (Z.lxor value (Z.shiftr value 27) * 0x94d049bb133111eb) `mod` W64 in
  (state, Z.lxor value (Z.shiftr value 31)).

(** ** Well-formedness *)

Definition config_ok (c : LinkConfig) : Prop :=
  validate c = Ok tt ∧ (∀ rate, bandwidth c = Some rate → 0 < rate)
  ∧ u64 (delay_us c) ∧ u64 (jitter_us c) ∧ 0 ≤ loss_ppm c ∧ 0 ≤ queue_packets c.

(** Reservations are in order, and no frame arrives before it has been sent. *)
Fixpoint ascending (fs : list SimTime) : Prop :=
  match fs with
  | a :: (b :: _) as fs' => a ≤ b ∧ ascending fs'
  | _ => True
  end.
Definition link_inv (c : LinkConfig) (l : DirectionalLinkRuntime) : Prop :=
  ascending (finishes l) ∧ Forall (λ f, 0 ≤ f ≤ last_arrival l) (finishes l)
  ∧ u64 (last_arrival l) ∧ len (finishes l) ≤ queue_packets c.

(** ** Helper lemmas *)

Lemma expire_suffix now fs : ∃ gone, fs = gone ++ expire now fs ∧ Forall (λ f, f ≤ now) gone.
Proof.
  induction fs as [|f fs IH]; [by exists []|]. cbn. destruct (f <=? now) eqn:Hf.
  - destruct IH as (gone & Heq & Hg). exists (f :: gone). cbn. rewrite <-Heq.
    split; [done|]. constructor; [lia | done].
  - by exists [].
Qed.
Lemma ascending_app_r a b : ascending (a ++ b) → ascending b.
Proof.
  induction a as [|x a IH]; [done|]. cbn. destruct (a ++ b) eqn:E.
  - intros _. by apply app_eq_nil in E as [_ ->].
  - intros [_ H]. by apply IH.
Qed.
Lemma ascending_snoc fs f :
  ascending fs → (∀ x, last fs = Some x → x ≤ f) → ascending (fs ++ [f]).
Proof.
  induction fs as [|a [|b fs] IH]; [done| |].
  - cbn. intros _ H. split; [by apply H | done].
  - intros [Hab Hs] Hl. split; [done|]. apply IH; [done|]. by intros x Hx; apply Hl.
Qed.
Lemma expire_ascending now fs : ascending fs → ascending (expire now fs).
Proof.
  intros H. destruct (expire_suffix now fs) as (gone & Heq & _). rewrite Heq in H.
  by apply ascending_app_r in H.
Qed.
Lemma expire_Forall P now fs : Forall P fs → Forall P (expire now fs).
Proof.
  intros H. destruct (expire_suffix now fs) as (gone & Heq & _). rewrite Heq in H.
  by apply Forall_app in H as [_ H].
Qed.
Lemma expire_length now fs : len (expire now fs) ≤ len fs.
Proof.
  destruct (expire_suffix now fs) as (gone & Heq & _). rewrite Heq at 2. lens.
Qed.
Lemma expire_live now fs : ascending fs → Forall (λ f, now < f) (expire now fs).
Proof.
  induction fs as [|f fs IH]; [constructor|]. intros Hs. cbn. destruct (f <=? now) eqn:Hf.
  - apply IH. destruct fs; [done|]. by destruct Hs.
  - clear IH. assert (Hgt : now < f) by lia. clear Hf. revert f Hs Hgt.
    induction fs as [|g fs IH]; intros f Hs Hgt; constructor; try done.
    destruct Hs as [? Hs]. apply IH; [done|lia].
Qed.

Lemma last_in (fs : list SimTime) x : last fs = Some x → x ∈ fs.
Proof. intros (l & ->)%last_Some. set_solver. Qed.

(** The FIFO reservation: a new frame starts after the previous one ends. *)
Lemma transmission_spec l c now bytes js finish arrival :
  config_ok c → 0 ≤ bytes → 0 ≤ now → Forall (λ f, 0 ≤ f) (finishes l) →
  transmission l c now bytes js = Ok (finish, arrival) →
  available_at l now ≤ finish ≤ arrival ∧ u64 finish ∧ u64 arrival.
Proof.
  intros (Hv & Hrate & Hd & Hj & _ & _) Hb Hnow Hfs. unfold transmission.
  set (start := Z.max _ _). intros H.
  apply bind_Ok_inv in H as (ser & Hser & H).
  apply bind_Ok_inv in H as (fin & Hfin & H). apply ok_or_Ok_inv in Hfin.
  apply bind_Ok_inv in H as (m & Hm & H).
  apply bind_Ok_inv in H as (arr & Harr & H). apply ok_or_Ok_inv in Harr. simplify_eq.
  assert (0 ≤ ser).
  { destruct (bandwidth c) as [rate|] eqn:Hbw; [|by simplify_eq].
    unfold serialization_us in Hser. apply ok_or_Ok_inv in Hser. unfold try_from in Hser.
    case_match; simplify_eq. apply div_ceil_nonneg; [lia | by apply Hrate]. }
  unfold checked_add, try_from, sat_sub, available_at in *. fold start.
  destruct (start + ser <=? U64_MAX) eqn:?; simplify_eq.
  destruct (start + ser + _ <=? U64_MAX) eqn:?; simplify_eq. unfold U64_MAX in *.
  unfold start in *. lia.
Qed.

Lemma transmission_safe l c now bytes js :
  config_ok c → safe (transmission l c now bytes js).
Proof.
  intros (Hv & _ & Hd & Hj & _). unfold transmission. unfold validate in Hv.
  assert (jitter_us c * 2 + 1 ≤ U64_MAX).
  { repeat case_match; simplify_eq. unfold U64_MAX in *.
    assert ((18446744073709551615 - 1) `div` 2 = 9223372036854775807) by done. lia. }
  solve_safe.
Qed.

Lemma admit_inv l c now bytes js ls :
  config_ok c → link_inv c l → 0 ≤ now → 0 ≤ bytes → link_inv c (link_admit l c now bytes js ls).1.
Proof.
  intros Hc (Hs & Hf & Hl & Hq) Hnow Hb. unfold link_admit. set (l1 := Build_DirectionalLinkRuntime _ _ _).
  assert (Hl1 : link_inv c l1).
  { repeat split; cbn; try lia; [by apply expire_ascending | by apply expire_Forall |].
    pose proof (expire_length now (finishes l)). lia. }
  destruct (len (finishes l1) >=? queue_packets c) eqn:Hfull; [done|].
  destruct (transmission l1 c now bytes js) as [[finish arrival]| |] eqn:Ht; [|done|done].
  destruct Hl1 as (Hs1 & Hf1 & Hu1 & Hq1). cbn.
  apply transmission_spec in Ht as (Hfin & ? & ?); [|done|done|done|].
  2:{ eapply Forall_impl; [exact Hf1|]. cbn. lia. }
  repeat split; cbn -[l1]; try lia.
  - apply ascending_snoc; [done|]. intros x Hx. unfold available_at in Hfin.
    cbn in Hfin, Hx. rewrite Hx in Hfin. cbn in Hfin. lia.
  - apply Forall_app. split.
    + eapply Forall_impl; [exact Hf1|]. cbn. lia.
    + constructor; [lia|done].
  - cbn in *. lens.
Qed.

(** ** Runs of a transmitter *)

(** The frames offered to one direction, with the samples drawn for each. *)
Record offer := { at_ : SimTime; size : Z; jitter_sample : Z; loss_sample : Z }.

Definition admit_offer (c : LinkConfig) (l : DirectionalLinkRuntime) (o : offer) :=
  link_admit l c (at_ o) (size o) (jitter_sample o) (loss_sample o).
Fixpoint run_link (c : LinkConfig) (l : DirectionalLinkRuntime) (os : list offer)
    : DirectionalLinkRuntime * list (res ScheduleError Admission) :=
  match os with
  | [] => (l, [])
  | o :: os' =>
      let '(l1, a) := admit_offer c l o in
      let '(l2, as_) := run_link c l1 os' in (l2, a :: as_)
  end.
Definition arrivals (as_ : list (res ScheduleError Admission)) : list SimTime :=
  omap (λ a, match a with Ok (Scheduled t _) => Some t | _ => None end) as_.
Definition offer_ok (o : offer) : Prop := 0 ≤ at_ o ∧ 0 ≤ size o.

Lemma admit_arrival l c now bytes js ls t lost :
  (link_admit l c now bytes js ls).2 = Ok (Scheduled t lost) →
  last_arrival l ≤ t ∧ last_arrival (link_admit l c now bytes js ls).1 = t.
Proof.
  unfold link_admit. case_match; [done|]. case_match; [|done|done]. case_match.
  cbn. intros [= <- <-]. lia.
Qed.
Lemma admit_no_arrival l c now bytes js ls :
  (∀ t lost, (link_admit l c now bytes js ls).2 ≠ Ok (Scheduled t lost)) →
  last_arrival (link_admit l c now bytes js ls).1 = last_arrival l.
Proof.
  unfold link_admit. repeat case_match; try done. cbn. intros Hno. by edestruct Hno.
Qed.
Lemma run_link_arrivals c l os :
  ascending (last_arrival l :: arrivals (run_link c l os).2).
Proof.
  revert l. induction os as [|o os IH]; intros l; [done|]. cbn [run_link].
  pose proof (admit_arrival l c (at_ o) (size o) (jitter_sample o) (loss_sample o)) as Ha.
  pose proof (admit_no_arrival l c (at_ o) (size o) (jitter_sample o) (loss_sample o)) as Hn.
  unfold admit_offer. destruct (link_admit _ _ _ _ _ _) as [l1 a]. cbn [fst snd] in *.
  specialize (IH l1). destruct (run_link c l1 os) as [l2 as_]. cbn [snd] in *. unfold arrivals in *.
  cbn. destruct a as [[|t lost]| |].
  1,3,4: cbn; rewrite <-Hn by done; exact IH.
  specialize (Ha t lost eq_refl) as [Hle Heq]. rewrite Heq in IH. done.
Qed.
Lemma run_link_inv c l os :
  config_ok c → link_inv c l → Forall offer_ok os → link_inv c (run_link c l os).1.
Proof.
  intros Hc Hl Hos. revert l Hl. induction Hos as [|o os [? ?] _ IH]; intros l Hl; [done|].
  cbn [run_link]. pose proof (admit_inv l c (at_ o) (size o) (jitter_sample o) (loss_sample o) Hc Hl) as H1.
  unfold admit_offer. destruct (link_admit _ _ _ _ _ _) as [l1 a]. cbn in H1.
  specialize (IH l1 ltac:(auto)). by destruct (run_link c l1 os).
Qed.

(** Frames of one direction arrive in the order they were admitted, whatever
    jitter is drawn, and the frames holding the transmitter never exceed the
    configured queue; a validated configuration never panics. *)
Theorem link_fifo_bounded c os :
  config_ok c → Forall offer_ok os →
  let '(l, as_) := run_link c Runtime_default os in
  ascending (arrivals as_) ∧ len (finishes l) ≤ queue_packets c
  ∧ ∀ o l', offer_ok o → safe (admit_offer c l' o).2.
Proof.
  intros Hc Hos.
  assert (Hi : link_inv c (run_link c Runtime_default os).1).
  { apply run_link_inv; [done| |done]. destruct Hc as (?&?&?&?&?&?). unfold link_inv. cbn.
    unfold len. cbn. split_and!; (done || constructor || lia). }
  pose proof (run_link_arrivals c Runtime_default os) as Ha.
  destruct (run_link c Runtime_default os) as [l as_]. cbn [fst snd] in *.
  split; [exact (ascending_app_r [0] _ Ha)|]. split; [by destruct Hi as (_&_&_&?)|].
  intros o l' _. unfold admit_offer, link_admit. case_match; [done|].
  pose proof (transmission_safe {| finishes := expire (at_ o) (finishes l');
    last_arrival := last_arrival l'; counters := counters l' |} c (at_ o) (size o) (jitter_sample o) Hc) as Hs.
  destruct (transmission _ _ _ _ _) as [[??]| |]; cbn in *; [done|done|by destruct Hs].
Qed.

Definition sample_link : LinkConfig :=
  {| bandwidth := Some 100000000; delay_us := 1000; jitter_us := 300; loss_ppm := 0;
     queue_packets := 2 |}.
Definition sample_offers : list offer :=
  [{| at_ := 0; size := 1500; jitter_sample := 600; loss_sample := 0 |};
   {| at_ := 0; size := 1500; jitter_sample := 0; loss_sample := 0 |};
   {| at_ := 0; size := 1500; jitter_sample := 7; loss_sample := 0 |}].
Lemma link_fifo_bounded_witness :
  arrivals (run_link sample_link Runtime_default sample_offers).2 = [1420; 1420]
  ∧ ascending (arrivals (run_link sample_link Runtime_default sample_offers).2).
Proof.
  split; [by vm_compute|].
  assert (Hc : config_ok sample_link).
  { unfold config_ok. cbn. split_and!; try lia; [done|]. intros r [= <-]. lia. }
  assert (Ho : Forall offer_ok sample_offers).
  { unfold sample_offers. by rewrite !Forall_cons; unfold offer_ok; cbn; split_and!; try lia. }
  pose proof (link_fifo_bounded sample_link sample_offers Hc Ho) as H.
  destruct (run_link sample_link Runtime_default sample_offers). exact (proj1 H).
Defined.
