(* ===== verification/Qos.v ===== *)
(** rios-simulator, quality of service (src/crates/rios-simulator/src/qos/bucket.rs
    and mod.rs): integer token buckets and the bounded packetized scheduler. *)
From S2P Require Import Prelude Wire EventQueue.

(** ** Rates and token buckets *)

Record RateLimit := { bits_per_second : Z; burst_bytes : Z }.
Definition RateLimit_valid (r : RateLimit) : bool :=
  ((1 <=? bits_per_second r) && (bits_per_second r <=? 1000000000000))
  && ((1 <=? burst_bytes r) && (burst_bytes r <=? 1073741824)).

Definition BYTE_CREDITS : Z := 8000000.

Record TokenBucket := { rate : RateLimit; credit : Z; updated : SimTime }.

Definition bucket_new (r : RateLimit) (now : SimTime) : TokenBucket :=
  {| rate := r; credit := burst_bytes r * BYTE_CREDITS; updated := now |}.

Definition refill (b : TokenBucket) (now : SimTime) : TokenBucket :=
  let elapsed := sat_sub now (updated b) in
  {| rate := rate b;
     credit := Z.min (sat_add U128_MAX (credit b) (elapsed * bits_per_second (rate b)))
                     (burst_bytes (rate b) * BYTE_CREDITS);
     updated := Z.max now (updated b) |}.

(** Methods taking [&mut self] return the new bucket with their result. *)
Definition available (b : TokenBucket) (now : SimTime) (bytes : Z) : TokenBucket * bool :=
  let b := refill b now in (b, bytes * BYTE_CREDITS <=? credit b).

Definition bucket_take (b : TokenBucket) (now : SimTime) (bytes : Z) : TokenBucket * bool :=
  let '(b, ok) := available b now bytes in
  if negb ok then (b, false)
  else ({| rate := rate b; credit := credit b - bytes * BYTE_CREDITS; updated := updated b |}, true).

(** [div_ceil] by a zero rate panics; [RateLimit::valid] excludes it. *)
Definition ready_at (b : TokenBucket) (now : SimTime) (bytes : Z)
    : TokenBucket * res ScheduleError SimTime :=
  let b := refill b now in
  let missing := sat_sub (bytes * BYTE_CREDITS) (credit b) in
  (b,
   if bits_per_second (rate b) =? 0 then Panic
   else
     wait ← ok_or (try_from U64_MAX (div_ceil missing (bits_per_second (rate b)))) Overflow;
     ok_or (checked_add U64_MAX now wait) Overflow).

(** ** Classes and the scheduler *)

Record QueueClassConfig := {
  weight : Z;
  priority : option RateLimit;
  police : option RateLimit;
  shape : option RateLimit
}.
Definition QueueClassConfig_default : QueueClassConfig :=
  {| weight := 1; priority := None; police := None; shape := None |}.

Inductive QueueRejectReason :=
| QueueFull | Policed | PriorityExceeded | ShapeBurstExceeded | UnknownClass.
Record QueueRejected (T : Type) := mkRejected { reason : QueueRejectReason; rejected : T }.
Arguments mkRejected {T} _ _.
Arguments reason {T} _.
Arguments rejected {T} _.

Record QosClassCounters := {
  matched_packets : Z; matched_bytes : Z; transmitted_packets : Z; transmitted_bytes : Z;
  q_drops : Z; police_drops : Z; priority_drops : Z; shape_drops : Z
}.
Definition QosClassCounters_default : QosClassCounters :=
  {| matched_packets := 0; matched_bytes := 0; transmitted_packets := 0; transmitted_bytes := 0;
     q_drops := 0; police_drops := 0; priority_drops := 0; shape_drops := 0 |}.

Record Queued (T : Type) := mkQueued { packet : T; bytes_ : Z; finish : Z }.
Arguments mkQueued {T} _ _ _.
Arguments packet {T} _.
Arguments bytes_ {T} _.
Arguments finish {T} _.

Record Class_ (T : Type) := mkClass {
  config : QueueClassConfig;
  priority_bucket : option TokenBucket;
  police_bucket : option TokenBucket;
  shape_bucket : option TokenBucket;
  packets : list (Queued T);
  last_finish : Z;
  class_counters : QosClassCounters
}.
Arguments mkClass {T} _ _ _ _ _ _ _.
Arguments config {T} _.
Arguments priority_bucket {T} _.
Arguments police_bucket {T} _.
Arguments shape_bucket {T} _.
Arguments packets {T} _.
Arguments last_finish {T} _.
Arguments class_counters {T} _.

Record QosDeparture (T : Type) := mkDeparture { class : nat; dep_bytes : Z; dep_packet : T }.
Arguments mkDeparture {T} _ _ _.
Arguments class {T} _.
Arguments dep_bytes {T} _.
Arguments dep_packet {T} _.

Record QosScheduler (T : Type) := mkScheduler {
  classes : list (Class_ T);
  capacity : Z;
  length_ : Z;
  virtual_time : Z
}.
Arguments mkScheduler {T} _ _ _ _.
Arguments classes {T} _.
Arguments capacity {T} _.
Arguments length_ {T} _.
Arguments virtual_time {T} _.

(** Counter updates, all saturating at [u64::MAX]. *)
Definition bump (z : Z) : Z := sat_add U64_MAX z 1.
Definition count_matched (c : QosClassCounters) (n : Z) : QosClassCounters :=
  {| matched_packets := bump (matched_packets c);
     matched_bytes := sat_add U64_MAX (matched_bytes c) n;
     transmitted_packets := transmitted_packets c; transmitted_bytes := transmitted_bytes c;
     q_drops := q_drops c; police_drops := police_drops c;
     priority_drops := priority_drops c; shape_drops := shape_drops c |}.
Definition count_drop (c : QosClassCounters) (r : QueueRejectReason) : QosClassCounters :=
  {| matched_packets := matched_packets c; matched_bytes := matched_bytes c;
     transmitted_packets := transmitted_packets c; transmitted_bytes := transmitted_bytes c;
     q_drops := match r with QueueFull => bump (q_drops c) | _ => q_drops c end;
     police_drops := match r with Policed => bump (police_drops c) | _ => police_drops c end;
     priority_drops :=
       match r with PriorityExceeded => bump (priority_drops c) | _ => priority_drops c end;
     shape_drops :=
       match r with ShapeBurstExceeded => bump (shape_drops c) | _ => shape_drops c end |}.
Definition count_transmitted (c : QosClassCounters) (n : Z) : QosClassCounters :=
  {| matched_packets := matched_packets c; matched_bytes := matched_bytes c;
     transmitted_packets := bump (transmitted_packets c);
     transmitted_bytes := sat_add U64_MAX (transmitted_bytes c) n;
     q_drops := q_drops c; police_drops := police_drops c;
     priority_drops := priority_drops c; shape_drops := shape_drops c |}.

Section scheduler.
Context {T : Type}.
Implicit Types (s : QosScheduler T) (c : Class_ T).

Definition rate_invalid (o : option RateLimit) : bool :=
  match o with Some r => negb (RateLimit_valid r) | None => false end.
Definition config_invalid (k : QueueClassConfig) : bool :=
  negb ((1 <=? weight k) && (weight k <=? 1000000000000))
  || (rate_invalid (priority k) || rate_invalid (police k) || rate_invalid (shape k)).

Inductive ConfigError := InvalidScheduler.
Definition scheduler_new (configs : list QueueClassConfig) (cap : Z) (now : SimTime)
    : res ConfigError (QosScheduler T) :=
  if (len configs =? 0) || (64 <? len configs)
     || negb ((1 <=? cap) && (cap <=? 1000000)) || existsb config_invalid configs
  then Err InvalidScheduler
  else
    Ok (mkScheduler
          (map (λ k : QueueClassConfig,
                 mkClass k ((λ r, bucket_new r now) <$> priority k)
                         ((λ r, bucket_new r now) <$> police k)
                         ((λ r, bucket_new r now) <$> shape k)
                         [] 0 QosClassCounters_default) configs)
          cap 0 0).

Definition scheduler_empty s : bool := length_ s =? 0.
Definition statistics s : list (QosClassCounters * Z) :=
  map (λ c, (class_counters c, len (packets c))) (classes s).

(** An idle scheduler restarts its virtual clock and finish tags. *)
Definition restart s : QosScheduler T :=
  if scheduler_empty s
  then mkScheduler
         (map (λ c, mkClass (config c) (priority_bucket c) (police_bucket c) (shape_bucket c)
                            (packets c) 0 (class_counters c)) (classes s))
         (capacity s) (length_ s) 0
  else s.

(** [bucket.as_mut().is_some_and(|b| !b.take(now, bytes))] *)
Definition take_refused (o : option TokenBucket) (now : SimTime) (n : Z)
    : option TokenBucket * bool :=
  match o with
  | None => (None, false)
  | Some b => let '(b, ok) := bucket_take b now n in (Some b, negb ok)
  end.

(** The policing, priority, shape and capacity tests, in the order of the
    source's [if]/[else if] chain; each test charges its bucket. *)
Definition admission c (now : SimTime) (n : Z) (congested full : bool)
    : Class_ T * option QueueRejectReason :=
  let '(police', policed) := take_refused (police_bucket c) now n in
  let c := mkClass (config c) (priority_bucket c) police' (shape_bucket c)
                   (packets c) (last_finish c) (class_counters c) in
  if policed then (c, Some Policed)
  else
    let '(priority', exceeded) := take_refused (priority_bucket c) now n in
    let c := mkClass (config c) priority' (police_bucket c) (shape_bucket c)
                     (packets c) (last_finish c) (class_counters c) in
    if exceeded && congested then (c, Some PriorityExceeded)
    else if match shape (config c) with Some r => burst_bytes r <? n | None => false end
    then (c, Some ShapeBurstExceeded)
    else if full then (c, Some QueueFull)
    else (c, None).

Definition with_counters c (k : QosClassCounters) : Class_ T :=
  mkClass (config c) (priority_bucket c) (police_bucket c) (shape_bucket c)
          (packets c) (last_finish c) k.

Definition enqueue s (i : nat) (now : SimTime) (p : T) (n in_flight : Z)
    : QosScheduler T * res (QueueRejected T) () :=
  let s := restart s in
  let congested := (0 <? length_ s) || (0 <? in_flight) in
  match classes s !! i with
  | None => (s, Err (mkRejected UnknownClass p))
  | Some c =>
      let c := with_counters c (count_matched (class_counters c) n) in
      let full := capacity s <=? sat_add U64_MAX (length_ s) in_flight in
      let '(c, refusal) := admission c now n congested full in
      match refusal with
      | Some r =>
          let c := with_counters c (count_drop (class_counters c) r) in
          (mkScheduler (<[i := c]> (classes s)) (capacity s) (length_ s) (virtual_time s),
           Err (mkRejected r p))
      | None =>
          if weight (config c) =? 0 then (s, Panic)
          else
            let service := div_ceil (n * 1000000000000) (weight (config c)) in
            let fin := sat_add U128_MAX (Z.max (last_finish c) (virtual_time s)) service in
            let c := mkClass (config c) (priority_bucket c) (police_bucket c) (shape_bucket c)
                             (packets c ++ [mkQueued p n fin]) fin (class_counters c) in
            (mkScheduler (<[i := c]> (classes s)) (capacity s) (length_ s + 1) (virtual_time s),
             Ok tt)
      end
  end.

(** Earliest eligibility over the classes; [ready_at] refills each bucket on the way. *)
Fixpoint next_ready_loop (cs : list (Class_ T)) (now : SimTime) (next : option SimTime)
    : list (Class_ T) * res ScheduleError (option SimTime) :=
  match cs with
  | [] => ([], Ok next)
  | c :: cs' =>
      match packets c with
      | [] => let '(cs'', r) := next_ready_loop cs' now next in (c :: cs'', r)
      | q :: _ =>
          let '(shape', at_) :=
            match shape_bucket c with
            | Some b => let '(b, r) := ready_at b now (bytes_ q) in (Some b, r)
            | None => (None, Ok now)
            end in
          let c := mkClass (config c) (priority_bucket c) (police_bucket c) shape'
                           (packets c) (last_finish c) (class_counters c) in
          match at_ with
          | Ok at_ =>
              let next := Some (match next with Some old => Z.min old at_ | None => at_ end) in
              let '(cs'', r) := next_ready_loop cs' now next in (c :: cs'', r)
          | Err e => (c :: cs', Err e)
          | Panic => (c :: cs', Panic)
          end
      end
  end.
Definition next_ready s (now : SimTime) : QosScheduler T * res ScheduleError (option SimTime) :=
  let '(cs, r) := next_ready_loop (classes s) now None in
  (mkScheduler cs (capacity s) (length_ s) (virtual_time s), r).

(** The selection key of an eligible class: priority classes first, then the
    smallest finish tag, then the class index. *)
Definition key : Type := bool * Z * nat.
Definition key_ltb (a b : key) : bool :=
  let '(pa, fa, ia) := a in
  let '(pb, fb, ib) := b in
  if Bool.eqb pa pb then (fa <? fb) || ((fa =? fb) && (ia <? ib)%nat)
  else negb pa && pb.
Definition is_some {A} (o : option A) : bool := match o with Some _ => true | None => false end.

(** One pass over the classes: shapers are refilled, eligible heads keyed. *)
Fixpoint eligible (cs : list (Class_ T)) (i : nat) (now : SimTime)
    : list (Class_ T) * list key :=
  match cs with
  | [] => ([], [])
  | c :: cs' =>
      let '(cs'', ks) := eligible cs' (S i) now in
      match packets c with
      | [] => (c :: cs'', ks)
      | q :: _ =>
          let '(shape', ok) :=
            match shape_bucket c with
            | Some b => let '(b, ok) := available b now (bytes_ q) in (Some b, ok)
            | None => (None, true)
            end in
          let c := mkClass (config c) (priority_bucket c) (police_bucket c) shape'
                           (packets c) (last_finish c) (class_counters c) in
          (c :: cs'',
           if ok then (negb (is_some (priority_bucket c)),
                       if is_some (priority_bucket c) then 0 else finish q, i) :: ks
           else ks)
      end
  end.
(** [min_by_key]: the first of the least keys. *)
Definition min_key (ks : list key) : option key :=
  match ks with
  | [] => None
  | k :: ks => Some (foldl (λ m k, if key_ltb k m then k else m) k ks)
  end.

Definition dequeue_ready s (now : SimTime) : QosScheduler T * option (QosDeparture T) :=
  let '(cs, ks) := eligible (classes s) 0 now in
  let s := mkScheduler cs (capacity s) (length_ s) (virtual_time s) in
  match min_key ks with
  | None => (s, None)
  | Some (_, _, i) =>
      match classes s !! i with
      | None => (s, None)
      | Some c =>
          match packets c with
          | [] => (s, None)
          | q :: rest =>
              let shape' := (λ b, (bucket_take b now (bytes_ q)).1) <$> shape_bucket c in
              let vt := if is_some (priority_bucket c) then virtual_time s
                        else Z.max (virtual_time s) (finish q) in
              let c := mkClass (config c) (priority_bucket c) (police_bucket c) shape' rest
                               (last_finish c) (count_transmitted (class_counters c) (bytes_ q)) in
              (mkScheduler (<[i := c]> (classes s)) (capacity s) (length_ s - 1) vt,
               Some (mkDeparture i (bytes_ q) (packet q)))
          end
      end
  end.

Definition drain s : QosScheduler T * list T :=
  (mkScheduler
     (map (λ c, mkClass (config c) (priority_bucket c) (police_bucket c) (shape_bucket c)
                        [] (last_finish c) (class_counters c)) (classes s))
     (capacity s) 0 (virtual_time s),
   concat (map (λ c, map packet (packets c)) (classes s))).
End scheduler.

(** ** Token bucket conformance *)

Definition bucket_ok (b : TokenBucket) : Prop :=
  RateLimit_valid (rate b) = true ∧ 0 ≤ credit b ≤ burst_bytes (rate b) * BYTE_CREDITS
  ∧ u64 (updated b).

(** Requests made of one bucket: the time and size of each, and the bytes granted. *)
Fixpoint run_bucket (b : TokenBucket) (reqs : list (SimTime * Z)) : TokenBucket * Z :=
  match reqs with
  | [] => (b, 0)
  | (now, n) :: reqs' =>
      let '(b1, granted) := bucket_take b now n in
      let '(b2, total) := run_bucket b1 reqs' in
      (b2, (if granted then n else 0) + total)
  end.

Lemma refill_rate b now : rate (refill b now) = rate b.
Proof. done. Qed.
Lemma refill_ok b now : bucket_ok b → u64 now → bucket_ok (refill b now).
Proof.
  unfold bucket_ok, refill, RateLimit_valid, sat_add, sat_sub, U128_MAX, BYTE_CREDITS. cbn.
  intros (Hv & Hc & Hu) Hn. split_and!; try done; nia.
Qed.
(** Within the bounds of [RateLimit::valid] the [u128] addition never saturates. *)
Lemma refill_credit b now :
  bucket_ok b → u64 now →
  credit (refill b now)
  = Z.min (credit b + Z.max 0 (now - updated b) * bits_per_second (rate b))
          (burst_bytes (rate b) * BYTE_CREDITS).
Proof.
  unfold bucket_ok, refill, RateLimit_valid, sat_add, sat_sub, U128_MAX, BYTE_CREDITS. cbn.
  intros (Hv & Hc & Hu) Hn.
  assert (Z.max 0 (now - updated b) * bits_per_second (rate b)
          ≤ 18446744073709551615 * 1000000000000) by nia.
  lia.
Qed.

Lemma bucket_take_potential b now n :
  bucket_ok b → u64 now → 0 ≤ n →
  bucket_ok (bucket_take b now n).1
  ∧ rate (bucket_take b now n).1 = rate b
  ∧ (if (bucket_take b now n).2 then n else 0) * BYTE_CREDITS + credit (bucket_take b now n).1
    ≤ credit b + (updated (bucket_take b now n).1 - updated b) * bits_per_second (rate b).
Proof.
  intros Hb Hn Hsz. pose proof (refill_ok b now Hb Hn) as Hr.
  pose proof (refill_credit b now Hb Hn) as Hc.
  assert (Hel : updated (refill b now) - updated b = Z.max 0 (now - updated b)) by (cbn; lia).
  unfold bucket_take, available. destruct (n * BYTE_CREDITS <=? credit (refill b now)) eqn:Hg;
    cbn -[refill credit updated] in *; split_and!; try done.
  - destruct Hr as (Hv & Hcr & Hu). unfold bucket_ok. cbn -[refill] in *.
    unfold BYTE_CREDITS in *. split_and!; try done; lia.
  - cbn -[refill] in *. rewrite Hel. lia.
  - rewrite Hel. lia.
Qed.

Lemma run_bucket_potential b reqs :
  bucket_ok b → Forall (λ r, u64 r.1 ∧ 0 ≤ r.2) reqs →
  let '(b', total) := run_bucket b reqs in
  bucket_ok b' ∧
  total * BYTE_CREDITS + credit b'
  ≤ credit b + (updated b' - updated b) * bits_per_second (rate b).
Proof.
  intros Hb Hr. revert b Hb. induction Hr as [|[now n] reqs [Hn Hsz] _ IH]; intros b Hb; cbn [run_bucket].
  { split; [done|]. lia. }
  pose proof (bucket_take_potential b now n Hb Hn Hsz) as (Hb1 & Hrate & Hp).
  destruct (bucket_take b now n) as [b1 granted]. cbn [fst snd] in *.
  specialize (IH b1 Hb1). rewrite Hrate in IH.
  destruct (run_bucket b1 reqs) as [b2 total]. cbv beta iota in IH.
  destruct IH as [? IH]. split; [done|]. unfold BYTE_CREDITS in *. destruct granted; lia.
Qed.

(** C11: whatever requests are made and however their times interleave, a bucket
    never grants more than its burst plus its rate times the elapsed time. *)
Theorem bucket_conformance b reqs :
  bucket_ok b → Forall (λ r, u64 r.1 ∧ 0 ≤ r.2) reqs →
  let '(b', total) := run_bucket b reqs in
  total * BYTE_CREDITS
  ≤ burst_bytes (rate b) * BYTE_CREDITS + (updated b' - updated b) * bits_per_second (rate b).
Proof.
  intros Hb Hr. pose proof (run_bucket_potential b reqs Hb Hr) as H.
  destruct (run_bucket b reqs) as [b' total]. cbv beta iota in H. destruct Hb as (_ & Hc & _), H as [(_ & Hc' & _) H]. lia.
Qed.

(** The waiting time of [ready_at], as arithmetic. *)
Lemma ready_wait X cap c bps e0 w :
  0 < bps → X ≤ cap → w = div_ceil (sat_sub X (Z.min (c + e0 * bps) cap)) bps →
  0 ≤ w ∧ X ≤ Z.min (c + (e0 + w) * bps) cap
  ∧ ∀ e, e < e0 + w → 0 < w → Z.min (c + e * bps) cap < X.
Proof.
  intros Hb Hx ->. unfold sat_sub. set (m := Z.max 0 _).
  pose proof (div_ceil_spec m bps Hb) as Hd.
  pose proof (div_ceil_nonneg m bps ltac:(lia) Hb) as Hd0.
  generalize dependent (div_ceil m bps). intros w Hd Hd0. split_and!; [done| |].
  - rewrite Z.mul_add_distr_r. unfold m in Hd. lia.
  - intros e He Hw.
    assert (Hle : e * bps ≤ (e0 + (w - 1)) * bps) by (apply Z.mul_le_mono_nonneg_r; lia).
    assert (Hw1 : 0 ≤ bps * (w - 1)) by (apply Z.mul_nonneg_nonneg; lia).
    rewrite Z.mul_add_distr_r in Hle. unfold m in Hd. lia.
Qed.

Lemma available_iff b now n :
  bucket_ok b → u64 now → updated b ≤ now →
  (available b now n).2
  = (n * BYTE_CREDITS <=? Z.min (credit b + (now - updated b) * bits_per_second (rate b))
                                (burst_bytes (rate b) * BYTE_CREDITS)).
Proof.
  intros Hb Hn Hu. unfold available. cbn [snd]. rewrite refill_credit by done.
  by replace (Z.max 0 (now - updated b)) with (now - updated b) by lia.
Qed.

(** [ready_at] names the first instant at which the bucket holds the packet's credit. *)
Theorem ready_at_exact b now n t :
  bucket_ok b → u64 now → updated b ≤ now → 0 ≤ n ≤ burst_bytes (rate b) →
  (ready_at b now n).2 = Ok t →
  now ≤ t ∧ (available b t n).2 = true ∧ ∀ t', now ≤ t' < t → (available b t' n).2 = false.
Proof.
  intros Hb Hnow Hup Hn Hr. unfold ready_at in Hr. cbn [snd] in Hr.
  rewrite refill_credit, refill_rate in Hr by done.
  destruct (bits_per_second (rate b) =? 0) eqn:Hz; [done|].
  apply bind_Ok_inv in Hr as (w & Hw & Hr). apply ok_or_Ok_inv in Hw, Hr.
  unfold try_from in Hw. destruct (_ <=? _) in Hw; [|done]. injection Hw as Hw.
  unfold checked_add in Hr. destruct (now + w <=? U64_MAX) eqn:Hmax; [|done]. injection Hr as <-.
  unfold U64_MAX in Hmax. pose proof Hb as (Hv & _ & _). unfold RateLimit_valid in Hv.
  replace (Z.max 0 (now - updated b)) with (now - updated b) in Hw by lia.
  apply eq_sym, ready_wait in Hw as (Hw0 & Hok & Hearly); [|lia|unfold BYTE_CREDITS; lia].
  split_and!; [lia| |].
  - rewrite available_iff by (done || lia). apply Z.leb_le.
    by replace (now + w - updated b) with (now - updated b + w) by lia.
  - intros t' Ht'. rewrite available_iff by (done || lia). apply Z.leb_gt. apply Hearly; lia.
Qed.

(** ** Scheduling *)

Section scheduling.
Context {T : Type}.
Implicit Types (s : QosScheduler T) (c : Class_ T).

(** The packets waiting in class [i], first to leave first. *)
Definition contents s (i : nat) : list T :=
  match classes s !! i with Some c => map packet (packets c) | None => [] end.
Fixpoint waiting (cs : list (Class_ T)) : Z :=
  match cs with [] => 0 | c :: cs' => len (packets c) + waiting cs' end.

(** A class after its shaper has been consulted for its head packet. *)
Definition consulted (now : SimTime) c : Class_ T :=
  match packets c with
  | [] => c
  | q :: _ =>
      mkClass (config c) (priority_bucket c) (police_bucket c)
        ((λ b, (available b now (bytes_ q)).1) <$> shape_bucket c)
        (packets c) (last_finish c) (class_counters c)
  end.
Definition head_ready (now : SimTime) c : bool :=
  match packets c with
  | [] => false
  | q :: _ => match shape_bucket c with Some b => (available b now (bytes_ q)).2 | None => true end
  end.
Definition head_key c (i : nat) : key :=
  (negb (is_some (priority_bucket c)),
   if is_some (priority_bucket c) then 0
   else match packets c with q :: _ => finish q | [] => 0 end, i).

Lemma eligible_classes cs i now : (eligible cs i now).1 = map (consulted now) cs.
Proof.
  revert i. induction cs as [|c cs IH]; intros i; [done|]. cbn. specialize (IH (S i)).
  destruct (eligible cs (S i) now) as [cs' ks]. cbn in *. subst. unfold consulted.
  destruct (packets c); [done|]. by destruct (shape_bucket c).
Qed.
Lemma eligible_keys cs i now k :
  k ∈ (eligible cs i now).2 ↔
  ∃ j c, cs !! j = Some c ∧ head_ready now c = true ∧ k = head_key c (i + j).
Proof.
  revert i. induction cs as [|c cs IH]; intros i; cbn.
  { split; [by intros ?%elem_of_nil | by intros (?&?&?&?)]. }
  specialize (IH (S i)). destruct (eligible cs (S i) now) as [cs' ks]. cbn [snd] in *.
  assert (Hiff : k ∈ (if head_ready now c then head_key c i :: ks else ks) ↔
    ∃ j c', (c :: cs) !! j = Some c' ∧ head_ready now c' = true ∧ k = head_key c' (i + j)).
  { split.
    - intros Hk. assert (Hc : k ∈ ks ∨ head_ready now c = true ∧ k = head_key c i).
      { destruct (head_ready now c); [apply elem_of_cons in Hk as [|]; by auto | by auto]. }
      destruct Hc as [Hks|[Hr ->]].
      + apply IH in Hks as (j & c' & ?&?&->). exists (S j), c'. rewrite Nat.add_succ_r. done.
      + exists 0%nat, c. by rewrite Nat.add_0_r.
    - intros (j & c' & Hj & Hr & ->). destruct j as [|j].
      + injection Hj as <-. rewrite Hr, Nat.add_0_r. left.
      + assert (head_key c' (i + S j) ∈ ks).
        { apply IH. exists j, c'. by rewrite Nat.add_succ_r. }
        destruct (head_ready now c); [by right | done]. }
  rewrite <-Hiff. unfold head_ready, head_key.
  destruct (packets c) as [|q qs]; [done|]. destruct (shape_bucket c); [|done].
  done.
Qed.

(** [key_ltb] is the strict lexicographic order. *)
Lemma key_ltb_false_trans a b d :
  key_ltb b a = false → key_ltb d b = false → key_ltb d a = false.
Proof.
  destruct a as [[pa fa] ia], b as [[pb fb] ib], d as [[pd fd] id].
  unfold key_ltb. destruct pa, pb, pd; cbn [Bool.eqb negb andb]; lia.
Qed.
Lemma key_ltb_asym a b : key_ltb a b = true → key_ltb b a = false.
Proof.
  destruct a as [[pa fa] ia], b as [[pb fb] ib].
  unfold key_ltb. destruct pa, pb; cbn [Bool.eqb negb andb]; lia.
Qed.
Lemma key_ltb_irrefl a : key_ltb a a = false.
Proof. destruct a as [[pa fa] ia]. unfold key_ltb. destruct pa; cbn [Bool.eqb negb andb]; lia. Qed.
Lemma min_key_spec ks m :
  min_key ks = Some m → m ∈ ks ∧ Forall (λ k, key_ltb k m = false) ks.
Proof.
  destruct ks as [|k ks]; [done|]. cbn. intros [= <-].
  assert (Hgen : ∀ ks m0, let m := foldl (λ m k, if key_ltb k m then k else m) m0 ks in
    (m = m0 ∨ m ∈ ks) ∧ key_ltb m0 m = false ∧ Forall (λ k, key_ltb k m = false) ks).
  { clear. induction ks as [|k ks IH]; intros m0; cbn.
    { split; [by left|]. split; [apply key_ltb_irrefl | constructor]. }
    destruct (IH (if key_ltb k m0 then k else m0)) as (Hin & Hm & Hall).
    destruct (key_ltb k m0) eqn:Hk.
    - split; [right; destruct Hin as [->|]; [left | by right]|].
      split; [|by constructor]. eapply key_ltb_false_trans; [exact Hm | by apply key_ltb_asym].
    - split; [destruct Hin as [|]; [by left | by right; right]|].
      split; [done|]. constructor; [|done]. eapply key_ltb_false_trans; [exact Hm | done]. }
  destruct (Hgen ks k) as (Hin & Hm & Hall). split.
  - destruct Hin as [->|]; [left | by right].
  - by constructor.
Qed.
Lemma min_key_None ks : min_key ks = None ↔ ks = [].
Proof. by destruct ks. Qed.

Lemma consulted_packets now c : packets (consulted now c) = packets c.
Proof. unfold consulted. by destruct (packets c) eqn:?. Qed.

(** The class chosen by [dequeue_ready]. *)
Definition selected s (now : SimTime) : option nat :=
  (λ k : key, k.2) <$> min_key (eligible (classes s) 0 now).2.

Lemma dequeue_cases s now :
  match selected s now with
  | None => dequeue_ready s now
            = (mkScheduler (map (consulted now) (classes s)) (capacity s) (length_ s) (virtual_time s), None)
  | Some i =>
      ∃ c q rest, classes s !! i = Some c ∧ packets c = q :: rest ∧ head_ready now c = true
      ∧ (∀ j c', classes s !! j = Some c' → head_ready now c' = true →
           key_ltb (head_key c' j) (head_key c i) = false)
      ∧ (dequeue_ready s now).2 = Some (mkDeparture i (bytes_ q) (packet q))
      ∧ ∃ c1 vt, (dequeue_ready s now).1
           = mkScheduler (<[i := c1]> (map (consulted now) (classes s))) (capacity s) (length_ s - 1) vt
         ∧ packets c1 = rest ∧ config c1 = config c
  end.
Proof.
  unfold selected, dequeue_ready.
  pose proof (eligible_classes (classes s) 0 now) as Hcs.
  pose proof (eligible_keys (classes s) 0 now) as Hks.
  destruct (eligible (classes s) 0 now) as [cs ks]. cbn [fst snd] in *. subst cs.
  destruct (min_key ks) as [m|] eqn:Hm; [|done].
  apply min_key_spec in Hm as [Hin Hmin].
  destruct m as [[p f] i'].
  pose proof (proj1 (Hks _) Hin) as (i & c & Hi & Hr & Hkey).
  assert (i' = i) as -> by (by apply (f_equal snd) in Hkey).
  assert (Hk : ∀ j c', classes s !! j = Some c' → head_ready now c' = true →
            key_ltb (head_key c' j) (head_key c i) = false).
  { intros j c' Hj Hr'. rewrite Forall_forall in Hmin. change (head_key c i) with (head_key c (0 + i)).
    rewrite <-Hkey. apply Hmin, Hks. by exists j, c'. }
  pose proof Hr as Hr1. unfold head_ready in Hr1.
  destruct (packets c) as [|q rest] eqn:Hq; [done|]. clear Hr1.
  cbn [fmap option_fmap option_map snd fst classes capacity length_ virtual_time].
  exists c, q, rest.
  rewrite list_lookup_fmap, Hi. cbn [fmap option_fmap option_map].
  rewrite consulted_packets, Hq. split_and!; try done.
  do 2 eexists. split; [reflexivity|]. split; [done|]. cbn. unfold consulted. by rewrite Hq.
Qed.

Lemma contents_insert s cs cap n vt i c j :
  classes s !! i = Some c →
  (∀ k, map packet (default [] (packets <$> cs !! k))
        = map packet (default [] (packets <$> classes s !! k))) →
  ∀ c1, contents (mkScheduler (<[i := c1]> cs) cap n vt) j
        = if decide (i = j) then (if decide (i < length cs)%nat then map packet (packets c1) else contents s j)
          else contents s j.
Proof.
  intros Hi Hcs c1. unfold contents. cbn. specialize (Hcs j).
  destruct (decide (i = j)) as [<-|Hne].
  - destruct (decide (i < length cs)%nat) as [Hl|Hl].
    + by rewrite list_lookup_insert_eq.
    + rewrite list_insert_ge by lia. destruct (cs !! i), (classes s !! i); done.
  - rewrite list_lookup_insert_ne by done. destruct (cs !! j), (classes s !! j); done.
Qed.

Lemma dequeue_contents s now j :
  contents s j
  = match (dequeue_ready s now).2 with
    | Some d => (if decide (class d = j) then [dep_packet d] else [])
    | None => []
    end ++ contents (dequeue_ready s now).1 j.
Proof.
  assert (Hsame : ∀ k, map packet (default [] (packets <$> map (consulted now) (classes s) !! k))
        = map packet (default [] (packets <$> classes s !! k))).
  { intros k. rewrite list_lookup_fmap. destruct (classes s !! k); [|done]. cbn.
    by rewrite consulted_packets. }
  pose proof (dequeue_cases s now) as H. destruct (selected s now) as [i|].
  - destruct H as (c & q & rest & Hi & Hq & _ & _ & -> & c1 & vt & -> & Hc1 & _). cbn.
    rewrite (contents_insert s _ _ _ _ i c j Hi Hsame).
    destruct (decide (i = j)) as [<-|]; [|done].
    rewrite decide_True by (rewrite length_map; by apply lookup_lt_Some in Hi).
    unfold contents. by rewrite Hi, Hq, Hc1.
  - rewrite H. cbn. unfold contents. cbn. specialize (Hsame j). rewrite list_lookup_fmap in *.
    by destruct (classes s !! j).
Qed.

Lemma restart_contents s j : contents (restart s) j = contents s j.
Proof.
  unfold restart, contents. destruct (scheduler_empty s); [|done]. cbn.
  rewrite list_lookup_fmap. by destruct (classes s !! j).
Qed.
Lemma admission_packets c now n b f : packets (admission c now n b f).1 = packets c.
Proof. unfold admission. repeat case_match; done. Qed.

Lemma enqueue_contents s i now p n fl j :
  contents (enqueue s i now p n fl).1 j
  = contents s j ++ match (enqueue s i now p n fl).2 with
                    | Ok _ => if decide (i = j) then [p] else []
                    | _ => []
                    end.
Proof.
  unfold enqueue. rewrite <-(restart_contents s j). set (s' := restart s).
  destruct (classes s' !! i) as [c|] eqn:Hi; [|by rewrite app_nil_r].
  set (full := capacity s' <=? _). set (cong := _ || _).
  pose proof (admission_packets (with_counters c (count_matched (class_counters c) n)) now n cong full) as Hp.
  destruct (admission _ _ _ _ _) as [c1 refusal]. cbn [fst packets with_counters] in Hp.
  assert (Hlen : (i < length (classes s'))%nat) by (by eapply lookup_lt_Some).
  assert (Hid : ∀ k, map packet (default [] (packets <$> classes s' !! k))
                     = map packet (default [] (packets <$> classes s' !! k))) by done.
  destruct refusal as [r|].
  - cbn [fst snd]. rewrite (contents_insert s' _ _ _ _ i c j Hi Hid), app_nil_r.
    destruct (decide (i = j)) as [<-|]; [|done]. rewrite decide_True by done.
    unfold contents. rewrite Hi. cbn. by rewrite Hp.
  - destruct (weight (config c1) =? 0); [by rewrite app_nil_r|]. cbn [fst snd].
    rewrite (contents_insert s' _ _ _ _ i c j Hi Hid).
    destruct (decide (i = j)) as [<-|]; [|by rewrite app_nil_r]. rewrite decide_True by done.
    unfold contents. rewrite Hi. cbn. by rewrite map_app, Hp.
Qed.

Lemma next_ready_contents s now j : contents (next_ready s now).1 j = contents s j.
Proof.
  assert (H : ∀ (cs : list (Class_ T)) nx, map packets (next_ready_loop cs now nx).1 = map packets cs).
  { induction cs as [|c cs IH]; intros nx; [done|]. cbn [next_ready_loop].
    destruct (packets c) as [|q qs] eqn:Hq.
    { specialize (IH nx). destruct (next_ready_loop _ _ _). cbn [fst map] in *. by rewrite IH. }
    assert (Hgen : ∀ sh (r : res ScheduleError SimTime),
      map packets (let '(shape', at_) := (sh, r) in
        let c := mkClass (config c) (priority_bucket c) (police_bucket c) shape'
                         (q :: qs) (last_finish c) (class_counters c) in
        match at_ with
        | Ok at_ =>
            let next := Some (match nx with Some old => Z.min old at_ | None => at_ end) in
            let '(cs'', r) := next_ready_loop cs now next in (c :: cs'', r)
        | Err e => (c :: cs, Err e)
        | Panic => (c :: cs, Panic)
        end).1 = map packets (c :: cs)).
    { intros sh [t| |]; cbn [fst map]; rewrite ?Hq; [|done|done].
      specialize (IH (Some (match nx with Some old => Z.min old t | None => t end))).
      destruct (next_ready_loop _ _ _). cbn [fst map packets] in *. by rewrite IH. }
    destruct (shape_bucket c) as [b|]; [|exact (Hgen None (Ok now))].
    destruct (ready_at b now (bytes_ q)) as [b' r]. exact (Hgen (Some b') r). }
  specialize (H (classes s) None). unfold next_ready, contents.
  destruct (next_ready_loop _ _ _) as [cs r]. cbn in *.
  assert (Hj : packets <$> (cs !! j) = packets <$> (classes s !! j)).
  { rewrite <-!list_lookup_fmap. f_equal. exact H. }
  destruct (cs !! j), (classes s !! j); cbn in *; try done. injection Hj as Hj. by rewrite Hj.
Qed.

(** Calls on a scheduler, and what class [i] gained and lost by each. *)
Inductive qos_call :=
| Enqueue (i : nat) (now : SimTime) (p : T) (n in_flight : Z)
| Dequeue (now : SimTime)
| NextReady (now : SimTime)
| Drain.
(** The drained packets with the class each came from: [drain] chains the
    classes' queues in order, so each class owns a run of its queue's length. *)
Fixpoint label_classes (i : nat) (cs : list (Class_ T)) (l : list T) : list (nat * T) :=
  match cs with
  | [] => []
  | c :: cs =>
      let n := length (packets c) in
      map (pair i) (take n l) ++ label_classes (S i) cs (skipn n l)
  end.
Definition qos_run1 s (o : qos_call) : QosScheduler T * list (nat * T) * list (nat * T) :=
  match o with
  | Enqueue i now p n fl =>
      let '(s', r) := enqueue s i now p n fl in
      (s', match r with Ok _ => [(i, p)] | _ => [] end, [])
  | Dequeue now =>
      let '(s', d) := dequeue_ready s now in
      (s', [], match d with Some d => [(class d, dep_packet d)] | None => [] end)
  | NextReady now => ((next_ready s now).1, [], [])
  | Drain => let '(s', l) := drain s in (s', [], label_classes 0 (classes s) l)
  end.
(** Final state, accepted packets and packets that left (departed or drained), each with its class, in order. *)
Fixpoint qos_run s (os : list qos_call) : QosScheduler T * list (nat * T) * list (nat * T) :=
  match os with
  | [] => (s, [], [])
  | o :: os' =>
      let '(s1, a1, d1) := qos_run1 s o in
      let '(s2, a2, d2) := qos_run s1 os' in (s2, a1 ++ a2, d1 ++ d2)
  end.
Definition of_class (i : nat) (l : list (nat * T)) : list T :=
  map snd (filter (λ x, x.1 = i) l).

Lemma of_class_app i a b : of_class i (a ++ b) = of_class i a ++ of_class i b.
Proof. unfold of_class. by rewrite filter_app, map_app. Qed.
Lemma of_class_one i j p : of_class j [(i, p)] = if decide (i = j) then [p] else [].
Proof. unfold of_class. rewrite filter_cons. cbn. by destruct (decide (i = j)). Qed.

Lemma of_class_label (cs : list (Class_ T)) i j :
  of_class j (label_classes i cs (concat (map (λ c, map packet (packets c)) cs)))
  = if decide (i ≤ j)%nat then map packet (default [] (packets <$> cs !! (j - i)%nat)) else [].
Proof.
  revert i. induction cs as [|c cs IH]; intros i; [by destruct (decide _)|]. cbn [map concat label_classes].
  rewrite take_app_length', drop_app_length' by by rewrite length_map.
  rewrite of_class_app, IH. clear IH.
  assert (H : of_class j (map (pair i) (map packet (packets c)))
              = if decide (i = j) then map packet (packets c) else []).
  { induction (map packet (packets c)) as [|p l IH]; [by destruct (decide _)|].
    cbn [map]. unfold of_class in *. rewrite filter_cons. cbn.
    destruct (decide (i = j)); cbn; by rewrite IH. }
  rewrite H. destruct (decide (i = j)) as [->|Hn].
  - rewrite (decide_False (P:=(S j ≤ j)%nat)), (decide_True (P:=(j ≤ j)%nat)) by lia.
    by rewrite Nat.sub_diag, app_nil_r.
  - destruct (decide (i ≤ j)%nat); [|by rewrite (decide_False (P:=(S i ≤ j)%nat)) by lia].
    rewrite (decide_True (P:=(S i ≤ j)%nat)) by lia. by replace (j - i)%nat with (S (j - S i)) by lia.
Qed.
Lemma drain_contents s j : contents (drain s).1 j = [].
Proof. unfold contents, drain. cbn. rewrite list_lookup_fmap. by destruct (classes s !! j). Qed.

Lemma qos_run1_contents s o j :
  let '(s', a, d) := qos_run1 s o in
  contents s j ++ of_class j a = of_class j d ++ contents s' j.
Proof.
  destruct o as [i now p n fl|now|now|]; cbn [qos_run1].
  - pose proof (enqueue_contents s i now p n fl j) as H. destruct (enqueue _ _ _ _ _ _) as [s' r].
    cbn [fst snd] in H. rewrite H. destruct r; [by rewrite of_class_one|done|done].
  - pose proof (dequeue_contents s now j) as H. destruct (dequeue_ready _ _) as [s' d].
    cbn [fst snd] in H. rewrite H. rewrite app_nil_r. destruct d; [by rewrite of_class_one | done].
  - by rewrite app_nil_r, next_ready_contents.
  - change (drain s) with ((drain s).1, (drain s).2). cbv beta iota.
    rewrite drain_contents, !app_nil_r. unfold drain. cbn [snd].
    rewrite of_class_label, (decide_True (P:=(0 ≤ j)%nat)), Nat.sub_0_r by lia.
    unfold contents. by destruct (classes s !! j).
Qed.
End scheduling.

(** C12: whatever calls are made (admissions, departures, readiness queries and
    the draining of the whole scheduler), the packets accepted into a class
    leave it in the order they were accepted, none lost and none duplicated:
    those that departed or were drained, followed by those still waiting, are
    exactly those that were waiting followed by those accepted. *)
Theorem qos_class_fifo {T} (s : QosScheduler T) os j :
  let '(s', accepted, departed) := qos_run s os in
  contents s j ++ of_class j accepted = of_class j departed ++ contents s' j.
Proof.
  revert s. induction os as [|o os IH]; intros s; cbn; [by rewrite app_nil_r|].
  pose proof (qos_run1_contents s o j) as H1. destruct (qos_run1 s o) as [[s1 a1] d1].
  specialize (IH s1). destruct (qos_run s1 os) as [[s2 a2] d2].
  rewrite !of_class_app, app_assoc, H1, <-!app_assoc, IH. done.
Qed.

(** C10: a departure is the head of an eligible class; a priority class yields to
    none, and among the others the smallest finish tag leaves first. *)
Theorem dequeue_selects {T} (s : QosScheduler T) now d :
  (dequeue_ready s now).2 = Some d →
  ∃ c q rest, classes s !! class d = Some c ∧ packets c = q :: rest
  ∧ head_ready now c = true ∧ dep_packet d = packet q ∧ dep_bytes d = bytes_ q
  ∧ ∀ j c' q' rest', classes s !! j = Some c' → packets c' = q' :: rest' → head_ready now c' = true →
      (is_some (priority_bucket c') = true → is_some (priority_bucket c) = true)
      ∧ (is_some (priority_bucket c) = false → is_some (priority_bucket c') = false →
         finish q ≤ finish q').
Proof.
  intros Hd. pose proof (dequeue_cases s now) as H. destruct (selected s now) as [i|].
  2:{ rewrite H in Hd. done. }
  destruct H as (c & q & rest & Hi & Hq & Hr & Hmin & Hd' & _). rewrite Hd' in Hd.
  injection Hd as <-. exists c, q, rest. cbn. split_and!; try done.
  intros j c' q' rest' Hj Hq' Hr'. specialize (Hmin j c' Hj Hr').
  unfold head_key in Hmin. rewrite Hq, Hq' in Hmin.
  destruct (is_some (priority_bucket c)), (is_some (priority_bucket c')); cbn in Hmin; split; (done || lia).
Qed.

(** ** Accounting *)

Section accounting.
Context {T : Type}.
Implicit Types (s : QosScheduler T) (c : Class_ T).

Definition sched_ok s : Prop :=
  length_ s = waiting (classes s) ∧ length_ s ≤ capacity s ≤ 1000000
  ∧ Forall (λ c, weight (config c) ≠ 0) (classes s).

Lemma waiting_nonneg (cs : list (Class_ T)) : 0 ≤ waiting cs.
Proof. induction cs as [|c cs IH]; cbn; [lia|]. unfold len. lia. Qed.
Lemma waiting_insert (cs : list (Class_ T)) i c c1 :
  cs !! i = Some c →
  waiting (<[i := c1]> cs) = waiting cs - len (packets c) + len (packets c1).
Proof.
  revert i. induction cs as [|d cs IH]; intros i Hi; [done|]. destruct i as [|i].
  - injection Hi as ->. cbn. lia.
  - change (len (packets d) + waiting (<[i := c1]> cs)
            = len (packets d) + waiting cs - len (packets c) + len (packets c1)).
    rewrite (IH i Hi). lia.
Qed.
Lemma waiting_packets (cs cs' : list (Class_ T)) :
  map packets cs' = map packets cs → waiting cs' = waiting cs.
Proof.
  revert cs'. induction cs as [|c cs IH]; intros [|c' cs'] H; try done.
  cbn in *. injection H as Hc Hcs. by rewrite Hc, (IH cs' Hcs).
Qed.

Lemma restart_ok s : sched_ok s → sched_ok (restart s).
Proof.
  intros (Hl & Hc & Hw). unfold restart. destruct (scheduler_empty s); [|done].
  unfold sched_ok. cbn. split_and!; [|lia|lia|by apply Forall_map].
  rewrite Hl. symmetry. apply waiting_packets. by rewrite map_map.
Qed.
Lemma admission_config c now n b f : config (admission c now n b f).1 = config c.
Proof.
  unfold admission. destruct (take_refused _ _ _) as [? []]; [done|].
  destruct (take_refused _ _ _) as [? e]. destruct (e && b); [done|].
  destruct (match _ with Some _ => _ | None => _ end); [done|]. by destruct f.
Qed.
Lemma admission_full c now n b : (admission c now n b true).2 ≠ None.
Proof.
  unfold admission. destruct (take_refused _ _ _) as [? []]; [done|].
  destruct (take_refused _ _ _) as [? e]. destruct (e && b); [done|].
  by destruct (match _ with Some _ => _ | None => _ end).
Qed.

Lemma enqueue_ok s i now p n fl :
  sched_ok s → 0 ≤ fl → sched_ok (enqueue s i now p n fl).1 ∧ safe (enqueue s i now p n fl).2.
Proof.
  intros Hs Hfl. unfold enqueue. pose proof (restart_ok s Hs) as (Hl & Hc & Hw).
  set (s' := restart s) in *. destruct (classes s' !! i) as [c|] eqn:Hi; [|done].
  set (cong := _ || _).
  set (c0 := with_counters c (count_matched (class_counters c) n)).
  pose proof (admission_packets c0 now n cong (capacity s' <=? sat_add U64_MAX (length_ s') fl)) as Hp.
  pose proof (admission_config c0 now n cong (capacity s' <=? sat_add U64_MAX (length_ s') fl)) as Hcf.
  pose proof (admission_full c0 now n cong) as Hfull.
  assert (Hwc : weight (config c) ≠ 0) by (by eapply (Forall_lookup_1 _ _ _ _ Hw) in Hi).
  destruct (capacity s' <=? sat_add U64_MAX (length_ s') fl) eqn:Hcap;
    destruct (admission _ _ _ _ _) as [c1 refusal]; cbn [fst snd packets config c0 with_counters] in *.
  all: destruct refusal as [r|]; [|try by destruct Hfull].
  1,2: split; [|done]; unfold sched_ok; cbn; split_and!;
    [rewrite (waiting_insert _ _ c) by done; cbn; rewrite Hp; lia | lia | lia |
     apply Forall_insert; [done|]; cbn; by rewrite Hcf].
  destruct (weight (config c1) =? 0) eqn:Hz; [rewrite Hcf in Hz; lia|].
  split; [|done]. unfold sched_ok. cbn. split_and!.
  - rewrite (waiting_insert _ _ c) by done. cbn. rewrite Hp. lens.
  - unfold sat_add, U64_MAX in Hcap. pose proof (waiting_nonneg (classes s')). lia.
  - lia.
  - apply Forall_insert; [done|]. cbn. by rewrite Hcf.
Qed.

Lemma dequeue_ok s now : sched_ok s → sched_ok (dequeue_ready s now).1.
Proof.
  intros (Hl & Hc & Hw).
  assert (Hmap : waiting (map (consulted now) (classes s)) = waiting (classes s)).
  { apply waiting_packets. rewrite map_map. apply map_ext. intros c. apply consulted_packets. }
  assert (Hcfg : ∀ c, config (consulted now c) = config c).
  { intros c. unfold consulted. by destruct (packets c). }
  assert (Hw' : Forall (λ c, weight (config c) ≠ 0) (map (consulted now) (classes s))).
  { apply Forall_map. eapply Forall_impl; [exact Hw|]. cbn. intros c. by rewrite Hcfg. }
  pose proof (dequeue_cases s now) as H. destruct (selected s now) as [i|].
  2:{ rewrite H. unfold sched_ok. cbn. by rewrite Hmap. }
  destruct H as (c & q & rest & Hi & Hq & _ & _ & _ & c1 & vt & -> & Hc1 & Hcfg1).
  unfold sched_ok. cbn.
  rewrite (waiting_insert _ _ (consulted now c)) by (by rewrite list_lookup_fmap, Hi).
  rewrite Hmap, consulted_packets, Hc1, Hq. split_and!; [lens|lia|lia|].
  apply Forall_insert; [done|]. rewrite Hcfg1. by eapply (Forall_lookup_1 _ _ _ _ Hw) in Hi.
Qed.

Lemma scheduler_new_ok configs cap now s :
  scheduler_new configs cap now = Ok s → sched_ok s.
Proof.
  unfold scheduler_new. destruct (_ || _) eqn:Hv; [done|]. intros [= <-].
  apply orb_false_iff in Hv as [Hv Hbad]. unfold sched_ok. cbn. split_and!.
  - clear. induction configs as [|k ks IH]; [done|]. cbn. by rewrite <-IH.
  - lia.
  - lia.
  - rewrite Forall_map, Forall_forall. intros k Hk. cbn.
    assert (Hok : config_invalid k = false).
    { destruct (config_invalid k) eqn:Hi; [|done]. rewrite <-Hbad. symmetry.
      apply existsb_exists. exists k. split; [by apply list_elem_of_In | done]. }
    unfold config_invalid in Hok. lia.
Qed.

(** The calls a link makes: admissions with a nonnegative number in flight. *)
Definition call_ok (o : qos_call (T:=T)) : Prop :=
  match o with Enqueue _ _ _ n fl => 0 ≤ n ∧ 0 ≤ fl | _ => True end.

Lemma next_ready_loop_same cs now nx :
  map (λ c, (packets c, config c)) (next_ready_loop cs now nx).1
  = map (λ c, (packets c, config c)) cs.
Proof.
  revert nx. induction cs as [|c cs IH]; intros nx; [done|]. cbn [next_ready_loop].
  destruct (packets c) as [|q qs] eqn:Hq.
  { specialize (IH nx). destruct (next_ready_loop _ _ _). cbn [fst map] in *. by rewrite IH. }
  assert (Hgen : ∀ sh (r : res ScheduleError SimTime),
    map (λ c, (packets c, config c)) (let '(shape', at_) := (sh, r) in
      let c := mkClass (config c) (priority_bucket c) (police_bucket c) shape'
                       (q :: qs) (last_finish c) (class_counters c) in
      match at_ with
      | Ok at_ =>
          let next := Some (match nx with Some old => Z.min old at_ | None => at_ end) in
          let '(cs'', r) := next_ready_loop cs now next in (c :: cs'', r)
      | Err e => (c :: cs, Err e)
      | Panic => (c :: cs, Panic)
      end).1 = map (λ c, (packets c, config c)) (c :: cs)).
  { intros sh [t| |]; cbn [fst map]; rewrite ?Hq; [|done|done].
    specialize (IH (Some (match nx with Some old => Z.min old t | None => t end))).
    destruct (next_ready_loop _ _ _). cbn [fst map packets config] in *. by rewrite IH. }
  destruct (shape_bucket c) as [b|]; [|exact (Hgen None (Ok now))].
  destruct (ready_at b now (bytes_ q)) as [b' r]. exact (Hgen (Some b') r).
Qed.

Lemma next_ready_ok s now : sched_ok s → sched_ok (next_ready s now).1.
Proof.
  intros (Hl & Hc & Hw). pose proof (next_ready_loop_same (classes s) now None) as H.
  unfold next_ready. destruct (next_ready_loop _ _ _) as [cs r]. unfold sched_ok. cbn in *.
  assert (Hp : map packets cs = map packets (classes s)).
  { apply (f_equal (map fst)) in H. by rewrite !map_map in H. }
  assert (Hcf : map config cs = map config (classes s)).
  { apply (f_equal (map snd)) in H. by rewrite !map_map in H. }
  split_and!; [|lia|lia|]; [by rewrite (waiting_packets (classes s) cs)|].
  assert (Hk : Forall (λ k, weight k ≠ 0) (map config cs)) by (rewrite Hcf; by apply Forall_map).
  rewrite Forall_map in Hk. exact Hk.
Qed.

Lemma drain_ok s : sched_ok s → sched_ok (drain s).1.
Proof.
  intros (Hl & Hc & Hw). pose proof (waiting_nonneg (classes s)). unfold drain, sched_ok. cbn. split_and!.
  - clear. induction (classes s) as [|c cs IH]; [done|]. cbn. by rewrite <-IH.
  - lia.
  - lia.
  - by apply Forall_map.
Qed.

Lemma qos_run_ok s os :
  sched_ok s → Forall call_ok os →
  let '(s', _, _) := qos_run s os in sched_ok s'.
Proof.
  intros Hs Hos. revert s Hs. induction Hos as [|o os Ho _ IH]; intros s Hs; cbn [qos_run]; [done|].
  assert (H1 : let '(s1, _, _) := qos_run1 s o in sched_ok s1).
  { destruct o as [i now p n fl|now|now|]; cbn [qos_run1].
    - pose proof (enqueue_ok s i now p n fl Hs (proj2 Ho)) as [H _]. by destruct (enqueue _ _ _ _ _ _).
    - pose proof (dequeue_ok s now Hs) as H. by destruct (dequeue_ready _ _).
    - by apply next_ready_ok.
    - by apply drain_ok. }
  destruct (qos_run1 s o) as [[s1 a1] d1]. specialize (IH s1 H1).
  by destruct (qos_run s1 os) as [[s2 a2] d2].
Qed.
End accounting.

(** From a validated configuration on, the recorded length is the number of
    packets waiting and never exceeds the capacity, so [length -= 1] cannot
    underflow, and no admission panics. *)
Theorem qos_bounded {T} configs cap t0 (s : QosScheduler T) os :
  scheduler_new configs cap t0 = Ok s → Forall call_ok os →
  let '(s', _, _) := qos_run s os in
  length_ s' = waiting (classes s') ∧ 0 ≤ length_ s' ≤ capacity s'
  ∧ (∀ i now p n fl, 0 ≤ fl → safe (enqueue s' i now p n fl).2)
  ∧ (∀ now d, (dequeue_ready s' now).2 = Some d → 1 ≤ length_ s').
Proof.
  intros Hnew Hos. pose proof (qos_run_ok s os (scheduler_new_ok _ _ _ _ Hnew) Hos) as H.
  destruct (qos_run s os) as [[s' a] d]. pose proof H as (Hl & Hc & Hw).
  pose proof (waiting_nonneg (classes s')). split_and!; [done|lia|lia| |].
  - intros i now p n fl Hfl. by apply enqueue_ok.
  - intros now dep Hd. pose proof (dequeue_ok s' now H) as (Hl' & _ & _).
    pose proof (dequeue_cases s' now) as Hcase. destruct (selected s' now).
    + destruct Hcase as (c&q&rest&_&_&_&_&_&c1&vt&Heq&_). rewrite Heq in Hl'. cbn in Hl'.
      pose proof (waiting_nonneg (<[n:=c1]> (map (consulted now) (classes s')))). lia.
    + by rewrite Hcase in Hd.
Qed.

(** ** Witnesses *)

Definition sample_bucket : TokenBucket :=
  bucket_new {| bits_per_second := 1000000; burst_bytes := 1500 |} 0.
Lemma sample_bucket_ok : bucket_ok sample_bucket.
Proof. unfold bucket_ok. cbn. unfold BYTE_CREDITS. split_and!; try done; lia. Qed.

Lemma bucket_conformance_witness :
  (run_bucket sample_bucket [(0, 1500); (0, 100); (12000, 1500)]).2 = 3000
  ∧ 3000 * BYTE_CREDITS ≤ 1500 * BYTE_CREDITS + (12000 - 0) * 1000000.
Proof.
  split; [by vm_compute|].
  apply (bucket_conformance sample_bucket [(0, 1500); (0, 100); (12000, 1500)] sample_bucket_ok).
  rewrite !Forall_cons. cbn. split_and!; (done || lia).
Defined.
Lemma ready_at_exact_witness :
  (available (bucket_take sample_bucket 0 1500).1 8000 1000).2 = true
  ∧ (available (bucket_take sample_bucket 0 1500).1 7999 1000).2 = false.
Proof.
  assert (Hb : bucket_ok (bucket_take sample_bucket 0 1500).1).
  { apply (bucket_take_potential sample_bucket 0 1500 sample_bucket_ok); lia. }
  destruct (ready_at_exact (bucket_take sample_bucket 0 1500).1 0 1000 8000 Hb) as (_ & H1 & H2);
    [lia|done|split; done|by vm_compute|].
  split; [exact H1|]. apply H2. lia.
Defined.

Definition sample_scheduler : res ConfigError (QosScheduler Z) :=
  scheduler_new [QueueClassConfig_default;
                 {| weight := 1; priority := Some {| bits_per_second := 1000000; burst_bytes := 1500 |};
                    police := None; shape := None |}] 2 0.
Definition sample_calls : list (qos_call (T:=Z)) :=
  [Enqueue 0 0 7 1000 0; Drain; Enqueue 0 0 7 1000 0; Enqueue 1 0 8 1000 1; Enqueue 0 0 9 1000 0; Dequeue 0].
Definition sample_empty : QosScheduler Z :=
  match sample_scheduler with Ok s => s | _ => mkScheduler [] 0 0 0 end.
Definition sample_state : QosScheduler Z := (qos_run sample_empty sample_calls).1.1.
Definition sample_departure : QosDeparture Z :=
  match (dequeue_ready sample_state 1).2 with Some d => d | None => mkDeparture 0%nat 0 0 end.
Lemma dequeue_selects_witness :
  (dequeue_ready sample_state 1).2 = Some sample_departure
  ∧ ∃ c q rest, classes sample_state !! class sample_departure = Some c ∧ packets c = q :: rest
     ∧ dep_packet sample_departure = packet q.
Proof.
  assert (E : (dequeue_ready sample_state 1).2 = Some sample_departure) by (vm_compute; reflexivity).
  split; [exact E|].
  destruct (dequeue_selects sample_state 1 sample_departure E) as (c & q & rest & H1 & H2 & _ & H3 & _).
  exists c, q, rest. split; [exact H1|]. split; [exact H2 | exact H3].
Defined.
Lemma qos_bounded_witness :
  sample_scheduler = Ok sample_empty ∧ length_ sample_state = 1 ∧ 0 ≤ length_ sample_state ≤ 2.
Proof.
  split; [reflexivity|]. split; [by vm_compute|].
  assert (Hc : Forall call_ok sample_calls).
  { unfold sample_calls. rewrite !Forall_cons. cbn. split_and!; (done || lia). }
  pose proof (qos_bounded _ _ _ sample_empty sample_calls (eq_refl : sample_scheduler = Ok _) Hc) as H.
  unfold sample_state. destruct (qos_run sample_empty sample_calls) as [[s' a] d] eqn:E.
  destruct H as (_ & H & _).
  assert (Hcap : capacity s' = 2).
  { change s' with (s', a, d).1.1. rewrite <-E. by vm_compute. }
  rewrite Hcap in H. exact H.
Defined.
