(* ===== verification/Ethernet.v ===== *)
(** rios-ethernet: addresses, VLAN identifiers and Ethernet II / 802.3 frames
    (src/crates/rios-ethernet/src/lib.rs and frame.rs). *)
From S2P Require Import Prelude Wire Text.

(** ** lib.rs: addresses *)

(** A [MacAddress] is its six octets. *)
Abbreviation MacAddress := (list Z).
Definition mac_ok (m : MacAddress) : Prop := length m = 6%nat ∧ bytes_ok m.

(** A [VlanId] is its number; [VlanId_new] is the only constructor. *)
Abbreviation VlanId := Z.
Definition vlan_ok (v : VlanId) : Prop := 1 ≤ v ≤ 4094.
Inductive InvalidVlanId := mkInvalidVlanId.
Definition VlanId_DEFAULT : VlanId := 1.
Definition VlanId_new (value : Z) : res InvalidVlanId VlanId :=
  if (1 <=? value) && (value <=? 4094) then Ok value else Err mkInvalidVlanId.

Definition BROADCAST : MacAddress := [255; 255; 255; 255; 255; 255].
Definition is_multicast (m : MacAddress) : bool :=
  negb (Z.land (nth 0 m 0) 1 =? 0).

Inductive InvalidMacAddress := mkInvalidMacAddress.
#[export] Instance InvalidMacAddress_eq_dec : EqDecision InvalidMacAddress.
Proof. solve_decision. Defined.

Definition is_ascii_hexdigit (b : Z) : bool :=
  ((48 <=? b) && (b <=? 57)) || ((65 <=? b) && (b <=? 70)) || ((97 <=? b) && (b <=? 102)).
Definition hex_value (b : Z) : Z :=
  if b <=? 57 then b - 48 else if b <=? 70 then b - 55 else b - 87.
(** [u8::from_str_radix(part, 16)] of a part already checked to be two hex digits. *)
Definition from_hex (part : bytes) : Z := foldl (λ acc b, acc * 16 + hex_value b) 0 part.

Definition parse_octet (part : bytes) : res InvalidMacAddress Z :=
  if negb (length part =? 2)%nat || negb (forallb is_ascii_hexdigit part)
  then Err mkInvalidMacAddress
  else or_err (ok_or (try_from U8_MAX (from_hex part)) tt) mkInvalidMacAddress.

Fixpoint parse_octets (parts : list bytes) : res InvalidMacAddress MacAddress :=
  match parts with
  | [] => Ok []
  | p :: ps => b ← parse_octet p; bs ← parse_octets ps; Ok (b :: bs)
  end.

Definition MacAddress_from_str (s : bytes) : res InvalidMacAddress MacAddress :=
  let parts := split 58 s in
  if negb (length parts =? 6)%nat then Err mkInvalidMacAddress else parse_octets parts.

(** [{:02x}] *)
Definition hex_digit (d : Z) : Z := if d <? 10 then 48 + d else 87 + d.
Definition hex2 (b : Z) : bytes := [hex_digit (b `div` 16); hex_digit (b `mod` 16)].
Definition MacAddress_to_string (m : MacAddress) : bytes := join 58 (map hex2 m).

(** ** frame.rs *)

Inductive EtherType :=
| Ipv4 | Ipv6 | Arp | Dot1Q
| Other (v : Z)
| Length (v : Z).
#[export] Instance EtherType_eq_dec : EqDecision EtherType.
Proof. solve_decision. Defined.

Definition EtherType_from_u16 (value : Z) : EtherType :=
  if value =? 0x0800 then Ipv4
  else if value =? 0x86dd then Ipv6
  else if value =? 0x0806 then Arp
  else if value =? 0x8100 then Dot1Q
  else if (3 <=? value) && (value <=? 1500) then Length value
  else Other value.

Definition EtherType_to_u16 (value : EtherType) : Z :=
  match value with
  | Ipv4 => 0x0800
  | Ipv6 => 0x86dd
  | Arp => 0x0806
  | Dot1Q => 0x8100
  | Other v | Length v => v
  end.

Record EthernetFrame := {
  destination : MacAddress;
  source : MacAddress;
  ethertype : EtherType;
  payload : bytes
}.
Inductive FrameError := Truncated | LengthField | InvalidVlanTag.

Definition valid_length_or_type (f : EthernetFrame) : bool :=
  match ethertype f with
  | Length length => (3 <=? length) && (length <=? 1500) && (length =? len (payload f))
  | _ => 1536 <=? EtherType_to_u16 (ethertype f)
  end.

Definition frame_len (f : EthernetFrame) : Z := 14 + len (payload f).

Definition frame_encode (f : EthernetFrame) : res FrameError bytes :=
  let ether := EtherType_to_u16 (ethertype f) in
  if negb (valid_length_or_type f) then Err LengthField
  else Ok (destination f ++ source f ++ be 2 ether ++ payload f).

Definition frame_decode (bs : bytes) : res FrameError EthernetFrame :=
  if len bs <? 14 then Err Truncated
  else
    ether ← u16_at bs 12;
    payload ←
      (if (3 <=? ether) && (ether <=? 1500)
       then ok_or (get_slice bs 14 (14 + Z.to_nat ether)) Truncated
       else if ether <=? 1535 then Err LengthField
       else slice_from bs 14);
    destination ← slice bs 0 6;
    source ← slice bs 6 12;
    Ok {| destination := destination; source := source;
          ethertype := EtherType_from_u16 ether; payload := payload |}.

Definition tagged (f : EthernetFrame) (vlan : VlanId) : EthernetFrame :=
  {| destination := destination f; source := source f; ethertype := Dot1Q;
     payload := be 2 vlan ++ be 2 (EtherType_to_u16 (ethertype f)) ++ payload f |}.

Definition untagged (f : EthernetFrame) : res FrameError (VlanId * EthernetFrame) :=
  if negb (bool_decide (ethertype f = Dot1Q)) || (len (payload f) <? 4)
  then Err InvalidVlanTag
  else
    tci ← u16_at (payload f) 0;
    vlan ← or_err (VlanId_new (Z.land tci 0x0fff)) InvalidVlanTag;
    inner ← u16_at (payload f) 2;
    if ((inner <? 0x0600)
        && (negb ((3 <=? inner) && (inner <=? 1500)) || negb (inner =? len (payload f) - 4)))
       || (inner =? EtherType_to_u16 Dot1Q)
    then Err InvalidVlanTag
    else
      rest ← slice_from (payload f) 4;
      Ok (vlan, {| destination := destination f; source := source f;
                   ethertype := EtherType_from_u16 inner; payload := rest |}).

(** ** Well-formed values *)

(** What the Rust types guarantee of a frame. *)
Definition frame_ok (f : EthernetFrame) : Prop :=
  mac_ok (destination f) ∧ mac_ok (source f) ∧ bytes_ok (payload f)
  ∧ u16 (EtherType_to_u16 (ethertype f)).

(** The frame with its type field in the form [EtherType::from] gives it. *)
Definition canonical (f : EthernetFrame) : EthernetFrame :=
  {| destination := destination f; source := source f;
     ethertype := EtherType_from_u16 (EtherType_to_u16 (ethertype f)); payload := payload f |}.

(** ** Helper lemmas *)

Lemma mac_explode m : mac_ok m → ∃ a b c d e f, m = [a; b; c; d; e; f] ∧ bytes_ok m.
Proof.
  intros [Hl Hb]. do 6 (destruct m as [|? m]; [done|]). destruct m; [|done]. by repeat eexists.
Qed.

Lemma EtherType_roundtrip v : EtherType_to_u16 (EtherType_from_u16 v) = v.
Proof. unfold EtherType_from_u16. repeat case_match; cbn; lia. Qed.

Lemma frame_decode_safe bs : bytes_ok bs → safe (frame_decode bs).
Proof. intros. unfold frame_decode. solve_safe. Qed.

(** Decoding an encoded frame gives back the frame, its type field in the
    form [EtherType::from] produces; bytes after an 802.3 payload are padding. *)
Theorem frame_roundtrip f bs pad :
  frame_ok f → frame_encode f = Ok bs →
  (pad = [] ∨ ∃ l, EtherType_from_u16 (EtherType_to_u16 (ethertype f)) = Length l) →
  frame_decode (bs ++ pad) = Ok (canonical f).
Proof.
  destruct f as [dst src ty pl]. unfold frame_ok, frame_encode, canonical; cbn.
  intros ((a&b&c&d&e&g&->&_)%mac_explode & (a'&b'&c'&d'&e'&g'&->&_)%mac_explode & Hp & Hty).
  destruct (valid_length_or_type _) eqn:Hv; [|done]. cbn. intros [= <-] Hpad.
  unfold frame_decode. read. rewrite of_be_2 by lia.
  destruct (len _ <? 14) eqn:?; [lens|].
  assert (Hl : EtherType_to_u16 ty = len pl ∧ 3 ≤ len pl ≤ 1500 ∨ 1536 ≤ EtherType_to_u16 ty).
  { unfold valid_length_or_type in Hv. cbn in Hv. destruct ty; cbn in *; lia. }
  destruct Hl as [[Hl ?]|?]; decide_ifs.
  - rewrite get_slice_at by lens. seek. do 2 f_equal.
    rewrite Hl. unfold len. rewrite Nat2Z.id. apply take_app_length.
  - destruct Hpad as [->|[l Hl]].
    + rewrite app_nil_r. by seek.
    + unfold EtherType_from_u16 in Hl. repeat case_match; simplify_eq; lia.
Qed.

(** Removing the 802.1Q tag of a tagged frame gives back the VLAN and the frame. *)
Theorem tagged_untagged f v :
  frame_ok f → vlan_ok v → valid_length_or_type f = true →
  EtherType_to_u16 (ethertype f) ≠ 0x8100 →
  untagged (tagged f v) = Ok (v, canonical f).
Proof.
  destruct f as [dst src ty pl]. unfold frame_ok, vlan_ok, canonical, untagged, tagged; cbn -[Z.land].
  intros (?&?&Hp&Hty) Hv Hval Hq. rewrite bool_decide_true by done. cbn [negb orb].
  destruct (len _ <? 4) eqn:?; [lens|]. read. rewrite !of_be_2 by lia.
  replace (Z.land v 4095) with v.
  2:{ change 4095 with (Z.ones 12). rewrite Z.land_ones, Z.mod_small; lia. }
  unfold VlanId_new. decide_ifs. read.
  assert (Hl : EtherType_to_u16 ty = len pl ∧ 3 ≤ len pl ≤ 1500 ∨ 1536 ≤ EtherType_to_u16 ty).
  { unfold valid_length_or_type in Hval. cbn in Hval. destruct ty; cbn in *; lia. }
  match goal with |- context [if ?c then _ else _] => replace c with false end.
  - by seek.
  - symmetry. lens.
Qed.

Definition hex_octet_ok (b : Z) : bool :=
  bool_decide (parse_octet (hex2 b) = Ok b) && bool_decide (58 ∉ hex2 b).
Lemma hex_octets_ok b : 0 ≤ b ≤ 255 → parse_octet (hex2 b) = Ok b ∧ 58 ∉ hex2 b.
Proof.
  intros Hb. assert (H : hex_octet_ok b = true) by (apply all_bytes_spec; [by vm_compute | done]).
  unfold hex_octet_ok in H. apply andb_prop in H as [?%bool_decide_eq_true_1 ?%bool_decide_eq_true_1].
  done.
Qed.

(** Printing a MAC address and parsing the text gives back the address. *)
Theorem mac_text_roundtrip m : mac_ok m → MacAddress_from_str (MacAddress_to_string m) = Ok m.
Proof.
  intros [Hl Hb]. unfold MacAddress_from_str, MacAddress_to_string.
  rewrite split_join.
  - rewrite length_map, Hl. cbn. clear Hl. induction Hb as [|b l Hb _ IH]; [done|].
    cbn. destruct (hex_octets_ok b Hb) as [-> _]. cbn. by rewrite IH.
  - by destruct m.
  - clear Hl. induction Hb as [|b l Hb _ IH]; constructor; [by apply hex_octets_ok | done].
Qed.

(** ** Witnesses *)

Definition sample_frame : EthernetFrame :=
  {| destination := BROADCAST; source := [2; 0; 0; 0; 0; 1]; ethertype := Arp;
     payload := [1; 2; 3; 4] |}.
Lemma sample_frame_ok : frame_ok sample_frame.
Proof. unfold frame_ok, mac_ok, bytes_ok. cbn. split_and!; try lia; repeat constructor; lia. Qed.

Lemma frame_roundtrip_witness :
  ∃ bs, frame_encode sample_frame = Ok bs ∧ length bs = 18%nat ∧ frame_decode bs = Ok sample_frame.
Proof.
  eexists. split; [reflexivity|]. split; [reflexivity|].
  pose proof (frame_roundtrip sample_frame _ [] sample_frame_ok eq_refl (or_introl eq_refl)) as H.
  rewrite app_nil_r in H. exact H.
Defined.
Lemma tagged_untagged_witness : untagged (tagged sample_frame 10) = Ok (10, sample_frame).
Proof. apply (tagged_untagged sample_frame 10 sample_frame_ok); [split; lia | reflexivity | done]. Defined.
Lemma mac_text_roundtrip_witness :
  MacAddress_to_string [2; 0; 170; 1; 2; 255]
    = [48;50;58;48;48;58;97;97;58;48;49;58;48;50;58;102;102]
  ∧ MacAddress_from_str (MacAddress_to_string [2; 0; 170; 1; 2; 255]) = Ok [2; 0; 170; 1; 2; 255].
Proof.
  split; [reflexivity|]. apply mac_text_roundtrip. split; [done|]. repeat constructor; lia.
Defined.
