(* ===== verification/Switching.v ===== *)
(** rios-switching: the layer-2 control messages
    (src/crates/rios-switching/src/lib.rs, rstp.rs and lacp.rs). *)
From S2P Require Import Prelude Wire.

(** ** lib.rs: the 802.1D configuration BPDU *)

Inductive StpPortRole := RoleRoot | RoleDesignated | RoleAlternate.
Inductive StpPortState := Blocking | Listening | Learning | Forwarding.

Record ConfigurationBpdu := {
  root_id : Z;
  root_cost : Z;
  bridge_id : Z;
  port_id : Z
}.
Inductive BpduError := Malformed.

Definition conf_encode (c : ConfigurationBpdu) : res BpduError bytes :=
  bs ← put (zeros 35) 5 (be 8 (root_id c));
  bs ← put bs 13 (be 4 (root_cost c));
  bs ← put bs 17 (be 8 (bridge_id c));
  bs ← put bs 25 (be 2 (port_id c));
  bs ← put bs 29 (be 2 (20 * 256));
  bs ← put bs 31 (be 2 (2 * 256));
  put bs 33 (be 2 (15 * 256)).

Definition conf_decode (bs : bytes) : res BpduError ConfigurationBpdu :=
  if negb (len bs =? 35) then Err Malformed
  else
    head ← slice bs 0 4;
    if negb (bool_decide (head = [0; 0; 0; 0])) then Err Malformed
    else
      root ← slice bs 5 13;
      cost ← slice bs 13 17;
      bridge ← slice bs 17 25;
      port ← slice bs 25 27;
      Ok {| root_id := of_be root; root_cost := of_be cost;
            bridge_id := of_be bridge; port_id := of_be port |}.

(** ** rstp.rs: LLC-framed version 0 and version 2 BPDUs *)

Definition BPDU_PROPOSAL : Z := 2.
Definition STP_LLC : bytes := [0x42; 0x42; 3].

Record StpBpdu := {
  configuration : ConfigurationBpdu;
  rapid : bool;
  flags : Z;
  message_age : Z;
  max_age : Z;
  hello_time : Z;
  forward_delay : Z
}.

Definition stp_new (c : ConfigurationBpdu) (rapid : bool) (flags : Z) : StpBpdu :=
  {| configuration := c; rapid := rapid; flags := flags; message_age := 0;
     max_age := 20 * 256; hello_time := 2 * 256; forward_delay := 15 * 256 |}.

Definition stp_encode (p : StpBpdu) : res BpduError bytes :=
  bpdu ← conf_encode (configuration p);
  bpdu ← (if rapid p
          then bpdu ← put bpdu 2 [2]; bpdu ← put bpdu 3 [2]; Ok (bpdu ++ [0])
          else Ok bpdu);
  bpdu ← put bpdu 4 [flags p];
  bpdu ← put bpdu 27 (be 2 (message_age p));
  bpdu ← put bpdu 29 (be 2 (max_age p));
  bpdu ← put bpdu 31 (be 2 (hello_time p));
  bpdu ← put bpdu 33 (be 2 (forward_delay p));
  Ok (STP_LLC ++ bpdu).

Definition stp_decode (bs : bytes) : res BpduError StpBpdu :=
  if negb (starts_with bs STP_LLC) || (len bs <? 38) then Err Malformed
  else
    bs ← slice_from bs 3;
    head ← slice bs 0 4;
    rapid ←
      (if bool_decide (head = [0; 0; 0; 0]) && (len bs =? 35) then Ok false
       else if bool_decide (head = [0; 0; 2; 2]) && (len bs =? 36)
       then last ← idx bs 35; if last =? 0 then Ok true else Err Malformed
       else Err Malformed);
    config ← slice bs 0 35;
    config ← put config 2 [0];
    config ← put config 3 [0];
    configuration ← conf_decode config;
    flags ← idx bs 4;
    message_age ← u16_at bs 27;
    max_age ← u16_at bs 29;
    hello_time ← u16_at bs 31;
    forward_delay ← u16_at bs 33;
    if (max_age =? 0) || (hello_time =? 0) || (forward_delay =? 0) || (max_age <=? message_age)
    then Err Malformed
    else Ok {| configuration := configuration; rapid := rapid; flags := flags;
               message_age := message_age; max_age := max_age; hello_time := hello_time;
               forward_delay := forward_delay |}.

(** ** lacp.rs: the LACP version 1 PDU *)

Definition LACP_AGGREGATION : Z := 4.

Record LacpPortInfo := {
  system_priority : Z;
  system : bytes;
  key : Z;
  port_priority : Z;
  port : Z;
  state : Z
}.
Definition LacpPortInfo_default : LacpPortInfo :=
  {| system_priority := 0; system := zeros 6; key := 0; port_priority := 0; port := 0; state := 0 |}.

Definition matches (a b : LacpPortInfo) : bool :=
  (system_priority a =? system_priority b)
  && bool_decide (system a = system b)
  && (key a =? key b)
  && (port_priority a =? port_priority b)
  && (port a =? port b)
  && (Z.land (state a) LACP_AGGREGATION =? Z.land (state b) LACP_AGGREGATION).

Record Lacpdu := { actor : LacpPortInfo; partner : LacpPortInfo; collector_delay : Z }.
Inductive LacpError := mkLacpError.

Definition put_info (bs : bytes) (offset : nat) (kind : Z) (i : LacpPortInfo)
    : res LacpError bytes :=
  bs ← put bs offset [kind; 20];
  bs ← put bs (offset + 2) (be 2 (system_priority i));
  bs ← put bs (offset + 4) (system i);
  bs ← put bs (offset + 10) (be 2 (key i));
  bs ← put bs (offset + 12) (be 2 (port_priority i));
  bs ← put bs (offset + 14) (be 2 (port i));
  put bs (offset + 16) [state i].

Definition lacp_encode (p : Lacpdu) : res LacpError bytes :=
  bs ← put (zeros 110) 0 [1; 1];
  bs ← put_info bs 2 1 (actor p);
  bs ← put_info bs 22 2 (partner p);
  bs ← put bs 42 [3; 16];
  put bs 44 (be 2 (collector_delay p)).

Definition get_info (bs : bytes) (offset : nat) : res LacpError LacpPortInfo :=
  system_priority ← u16_at bs (offset + 2);
  s0 ← idx bs (offset + 4); s1 ← idx bs (offset + 5); s2 ← idx bs (offset + 6);
  s3 ← idx bs (offset + 7); s4 ← idx bs (offset + 8); s5 ← idx bs (offset + 9);
  key ← u16_at bs (offset + 10);
  port_priority ← u16_at bs (offset + 12);
  port ← u16_at bs (offset + 14);
  state ← idx bs (offset + 16);
  Ok {| system_priority := system_priority; system := [s0; s1; s2; s3; s4; s5]; key := key;
        port_priority := port_priority; port := port; state := state |}.

Definition lacp_decode (bs : bytes) : res LacpError Lacpdu :=
  if negb (len bs =? 110) then Err mkLacpError
  else
    a ← slice bs 0 4; b ← slice bs 22 24; c ← slice bs 42 44; d ← slice bs 58 60;
    if negb (bool_decide (a = [1; 1; 1; 20])) || negb (bool_decide (b = [2; 20]))
       || negb (bool_decide (c = [3; 16])) || negb (bool_decide (d = [0; 0]))
    then Err mkLacpError
    else
      actor ← get_info bs 2;
      partner ← get_info bs 22;
      delay ← u16_at bs 44;
      Ok {| actor := actor; partner := partner; collector_delay := delay |}.

(** ** Well-formed values *)

Definition conf_ok (c : ConfigurationBpdu) : Prop :=
  u64 (root_id c) ∧ u32 (root_cost c) ∧ u64 (bridge_id c) ∧ u16 (port_id c).
(** The timers a decoder accepts. *)
Definition stp_ok (p : StpBpdu) : Prop :=
  conf_ok (configuration p) ∧ u8 (flags p) ∧ 0 ≤ message_age p < max_age p
  ∧ max_age p ≤ 65535 ∧ 1 ≤ hello_time p ≤ 65535 ∧ 1 ≤ forward_delay p ≤ 65535.
Definition info_ok (i : LacpPortInfo) : Prop :=
  u16 (system_priority i) ∧ length (system i) = 6%nat ∧ bytes_ok (system i) ∧ u16 (key i)
  ∧ u16 (port_priority i) ∧ u16 (port i) ∧ u8 (state i).
Definition lacpdu_ok (p : Lacpdu) : Prop :=
  info_ok (actor p) ∧ info_ok (partner p) ∧ u16 (collector_delay p).

(** ** Helper lemmas *)

Lemma stp_encode_decode p : stp_ok p → ∃ bs, stp_encode p = Ok bs ∧ stp_decode bs = Ok p.
Proof.
  destruct p as [[r c b po] [] f m mx h fd]; unfold stp_ok, conf_ok; cbn -[byte_of of_be];
    intros ((?&?&?&?)&?&?&?&?&?);
    (eexists; split; [crunch; reflexivity|]); crunch;
    rewrite ?of_be_2, ?of_be_4, ?of_be_8 by lia; by decide_ifs.
Qed.

Lemma stp_decode_shape bs p :
  stp_decode bs = Ok p →
  ∃ t, bs = STP_LLC ++ t ∧ (length t = 35%nat ∧ take 4 t = [0; 0; 0; 0]
     ∨ length t = 36%nat ∧ take 4 t = [0; 0; 2; 2] ∧ t !! 35%nat = Some 0).
Proof.
  unfold stp_decode. intros H. destruct (starts_with bs STP_LLC) eqn:Hs; [|done].
  apply starts_with_spec in Hs. cbn [negb orb] in H. exists (drop 3 bs). split; [done|].
  destruct (len bs <? 38) eqn:Hl; [done|].
  inv_ok; apply slice_from_Ok_inv in Hx as [_ ->]; apply slice_Ok_inv in Hx0 as [_ ->];
    match goal with H : bool_decide _ && _ = true |- _ =>
    apply andb_prop in H as [?%bool_decide_eq_true_1 ?] end.
  - left. lens. split; [lia | done].
  - right. lens. split_and!; [lia | done |].
    match goal with H : idx _ 35 = Ok ?x |- _ => apply idx_Ok in H; by replace x with 0 in H by lia end.
Qed.

Ltac timers :=
  repeat match goal with
  | |- context [of_be [?a; ?b]] =>
      lazymatch goal with H : u16 (of_be [a; b]) |- _ => fail | _ => idtac end;
      assert (u16 (of_be [a; b])) by (apply u16_of_be; octets)
  end.

(** The decoder of spanning-tree BPDUs is the exact inverse of the encoder:
    it accepts precisely the octet strings that well-formed packets encode to. *)
Theorem bpdu_codec bs p :
  bytes_ok bs → (stp_decode bs = Ok p ↔ stp_ok p ∧ stp_encode p = Ok bs).
Proof.
  intros Hb. split.
  2:{ intros [Hp He]. destruct (stp_encode_decode p Hp) as (bs' & He' & Hd). congruence. }
  intros Hd. destruct (stp_decode_shape bs p Hd) as (t & -> & Ht).
  apply Forall_app in Hb as [_ Hb].
  destruct Ht as [[Hl Ht]|(Hl & Ht & Hz)];
    [explode t 35%nat | explode t 36%nat; injection Hz as ->];
    cbn [take] in Ht; injection Ht as -> -> -> ->; crunch_in Hd; inv_ok;
    split_octets Hb;
    (split; [|crunch; by fields]); unfold stp_ok, conf_ok; cbn -[of_be]; timers;
    split_and?; try (apply u64_of_be || apply u32_of_be || apply u16_of_be); try octets; fold_bools; lia.
Qed.

Lemma get_info_ok bs o i : bytes_ok bs → get_info bs o = Ok i → info_ok i.
Proof.
  unfold get_info. intros Hb H. inv_ok. unfold info_ok; cbn.
  split_wf; try ranges; [done|]. octets; ranges.
Qed.

(** An LACPDU survives encoding and decoding, and whatever the decoder
    accepts is well formed, so it re-encodes to a PDU with the same content. *)
Theorem lacp_codec :
  (∀ p, lacpdu_ok p → ∃ bs, lacp_encode p = Ok bs ∧ length bs = 110%nat ∧ lacp_decode bs = Ok p)
  ∧ (∀ bs, bytes_ok bs → safe (lacp_decode bs))
  ∧ (∀ bs p, bytes_ok bs → lacp_decode bs = Ok p → lacpdu_ok p).
Proof.
  split_and!.
  - intros [[sp s k pp po st] [sp' s' k' pp' po' st'] d]; unfold lacpdu_ok, info_ok;
      cbn -[of_be byte_of].
    intros ((?&Hl&_&?&?&?&?)&(?&Hl'&_&?&?&?&?)&?). explode s 6%nat. explode s' 6%nat.
    eexists. split; [crunch; reflexivity|]. split; [reflexivity|]. crunch.
    rewrite !of_be_2 by lia. by decide_ifs.
  - intros bs Hb. unfold lacp_decode, get_info. solve_safe.
  - intros bs p Hb Hd. unfold lacp_decode in Hd. inv_ok.
    unfold lacpdu_ok; cbn. split_wf; try ranges; by eapply get_info_ok.
Qed.

(** ** Witnesses *)

Definition sample_bpdu : StpBpdu :=
  stp_new {| root_id := 1; root_cost := 4; bridge_id := 2; port_id := 32769 |} true BPDU_PROPOSAL.
Definition sample_bpdu_bytes : bytes :=
  match stp_encode sample_bpdu with Ok bs => bs | _ => [] end.
Lemma bpdu_codec_witness :
  length sample_bpdu_bytes = 39%nat ∧ stp_decode sample_bpdu_bytes = Ok sample_bpdu ∧ stp_ok sample_bpdu.
Proof.
  split; [reflexivity|]. split; [vm_compute; reflexivity|].
  apply (bpdu_codec sample_bpdu_bytes sample_bpdu); [|vm_compute; reflexivity].
  apply (bool_decide_unpack _). vm_compute. exact I.
Defined.
