(* ===== verification/Ipv4.v ===== *)
(** rios-ipv4: interface addressing, the packet codec, prefixes and the routing
    table (src/crates/rios-ipv4/src/lib.rs,
    packet.rs and routing.rs).  An [Ipv4Addr] is its 32-bit value. *)
From S2P Require Import Prelude Wire Checksum Prefix.

Abbreviation Ipv4Addr := Z.

(** ** lib.rs: interface addresses *)

Record Ipv4InterfaceConfig := { address : Ipv4Addr; prefix_len : Z }.
Inductive AddressError := InvalidPrefix | InvalidMask.

(** [u32::MAX << (32 - n)], and 0 for the empty prefix. *)
Definition mask_of (n : Z) : Z := mask_bits 32 n.

Definition config_new (address : Ipv4Addr) (prefix_len : Z) : res AddressError Ipv4InterfaceConfig :=
  if 32 <? prefix_len then Err InvalidPrefix
  else Ok {| address := address; prefix_len := prefix_len |}.

Definition config_mask (c : Ipv4InterfaceConfig) : Ipv4Addr := mask_of (prefix_len c).

(** [u32::leading_ones]. *)
Fixpoint leading_ones_from (n : nat) (x : Z) : Z :=
  match n with
  | O => 0
  | S k => if Z.testbit x (Z.of_nat k) then 1 + leading_ones_from k x else 0
  end.
Definition leading_ones (x : Z) : Z := leading_ones_from 32 x.

Definition from_mask (address mask : Ipv4Addr) : res AddressError Ipv4InterfaceConfig :=
  let len := leading_ones mask in
  result ← config_new address len;
  if negb (config_mask result =? mask) then Err InvalidMask else Ok result.

(** ** packet.rs *)

Inductive IpProtocol := Icmp | Tcp | Udp | Ospf | OtherProtocol (v : Z).
Definition IpProtocol_from_u8 (value : Z) : IpProtocol :=
  if value =? 1 then Icmp else if value =? 6 then Tcp else if value =? 17 then Udp
  else if value =? 89 then Ospf else OtherProtocol value.
Definition IpProtocol_to_u8 (value : IpProtocol) : Z :=
  match value with Icmp => 1 | Tcp => 6 | Udp => 17 | Ospf => 89 | OtherProtocol v => v end.

Record Ipv4Packet := {
  dscp_ecn : Z;
  source : Ipv4Addr;
  destination : Ipv4Addr;
  ttl : Z;
  protocol : IpProtocol;
  payload : bytes
}.
Inductive PacketError := Truncated | UnsupportedHeader | InvalidLength | InvalidChecksum | Expired.

Definition dscp (p : Ipv4Packet) : Z := Z.shiftr (dscp_ecn p) 2.
Definition precedence (p : Ipv4Packet) : Z := Z.shiftr (dscp_ecn p) 5.

Definition ipv4_encode (p : Ipv4Packet) : res PacketError bytes :=
  if ttl p =? 0 then Err Expired
  else
    total ← ok_or (match checked_add U64_MAX 20 (len (payload p)) with
                   | Some length => if length <=? U16_MAX then Some length else None
                   | None => None
                   end) InvalidLength;
    let bs := zeros (Z.to_nat total) in
    bs ← put bs 0 [0x45];
    bs ← put bs 1 [dscp_ecn p];
    bs ← put bs 2 (be 2 total);
    bs ← put bs 6 (be 2 0x4000);
    bs ← put bs 8 [ttl p];
    bs ← put bs 9 [IpProtocol_to_u8 (protocol p)];
    bs ← put bs 12 (be 4 (source p));
    bs ← put bs 16 (be 4 (destination p));
    header ← slice bs 0 20;
    sum ← checksum header;
    bs ← put bs 10 (be 2 sum);
    put bs 20 (payload p).

Definition ipv4_decode (bs : bytes) : res PacketError Ipv4Packet :=
  if len bs <? 20 then Err Truncated
  else
    b0 ← idx bs 0; b6 ← idx bs 6; b7 ← idx bs 7;
    if negb (b0 =? 0x45) || negb (Z.land b6 0x3f =? 0) || negb (b7 =? 0)
    then Err UnsupportedHeader
    else
      total ← u16_at bs 2;
      if (total <? 20) || (len bs <? total) then Err InvalidLength
      else
        header ← slice bs 0 20;
        sum ← checksum header;
        if negb (sum =? 0) then Err InvalidChecksum
        else
          ttl ← idx bs 8;
          if ttl =? 0 then Err Expired
          else
            dscp_ecn ← idx bs 1;
            source ← u32_at bs 12;
            destination ← u32_at bs 16;
            protocol ← idx bs 9;
            payload ← slice bs 20 (Z.to_nat total);
            Ok {| dscp_ecn := dscp_ecn; source := source; destination := destination;
                  ttl := ttl; protocol := IpProtocol_from_u8 protocol; payload := payload |}.

(** ** routing.rs *)

Record Ipv4Network := { network : Ipv4Addr; network_len : Z }.
#[export] Instance Ipv4Network_eq_dec : EqDecision Ipv4Network.
Proof. solve_decision. Defined.

Definition network_new (address : Ipv4Addr) (prefix_len : Z) : res AddressError Ipv4Network :=
  mask ← (if prefix_len =? 0 then Ok 0
          else if prefix_len <=? 32 then Ok (mask_of prefix_len)
          else Err InvalidPrefix);
  Ok {| network := Z.land address mask; network_len := prefix_len |}.
Definition network_mask (n : Ipv4Network) : Ipv4Addr := mask_of (network_len n).
Definition broadcast (n : Ipv4Network) : Ipv4Addr :=
  Z.lor (network n) (U32_MAX - network_mask n).
Definition contains (n : Ipv4Network) (address : Ipv4Addr) : bool :=
  match network_new address (network_len n) with
  | Ok m => bool_decide (m = n)
  | _ => false
  end.

(** [OspfIntra] is the source's [Ospf], a name [IpProtocol] already has. *)
Inductive RouteSource :=
| Connected | Static | OspfIntra | OspfInterArea | OspfExternal1 | OspfExternal2 | Rip | Bgp.
Record Route := {
  prefix : Ipv4Network;
  next_hop : option Ipv4Addr;
  outgoing_interface : option Z;
  administrative_distance : Z;
  metric : Z;
  route_source : RouteSource
}.
Abbreviation RoutingTable := (list Route).
Definition table_insert (t : RoutingTable) (r : Route) : RoutingTable := t ++ [r].

(** The key of [min_by_key]; [Reverse] negates the prefix length. *)
Definition route_key (r : Route) : list Z :=
  [- network_len (prefix r); administrative_distance r; metric r].
Definition lookup (t : RoutingTable) (address : Ipv4Addr) : option Route :=
  min_by_key route_key (filter (λ r, contains (prefix r) address = true) t).

(** ** Well-formed values *)

Definition packet_ok (p : Ipv4Packet) : Prop :=
  u8 (dscp_ecn p) ∧ u32 (source p) ∧ u32 (destination p) ∧ u8 (ttl p)
  ∧ u8 (IpProtocol_to_u8 (protocol p))
  ∧ IpProtocol_from_u8 (IpProtocol_to_u8 (protocol p)) = protocol p ∧ bytes_ok (payload p).
(** What [network_new] establishes. *)
Definition network_ok (n : Ipv4Network) : Prop :=
  u32 (network n) ∧ 0 ≤ network_len n ≤ 32 ∧ network n `mod` 2 ^ (32 - network_len n) = 0.

(** ** Helper lemmas *)

(** The header that [encode] writes, with a given checksum field. *)
Definition header (p : Ipv4Packet) (sum : Z) : bytes :=
  [0x45; dscp_ecn p] ++ be 2 (20 + len (payload p)) ++ [0; 0; 0x40; 0; ttl p;
   IpProtocol_to_u8 (protocol p)] ++ be 2 sum ++ be 4 (source p) ++ be 4 (destination p).

Lemma header_ok p c : packet_ok p → bytes_ok (header p c).
Proof.
  intros (?&?&?&?&?&?&?). unfold header. repeat apply bytes_ok_app; try apply bytes_ok_be; octets.
Qed.

Lemma header_sums p :
  packet_ok p → ∃ c, u16 c ∧ @checksum PacketError (header p 0) = Ok c
    ∧ @checksum PacketError (header p c) = Ok 0.
Proof.
  intros Hp. pose proof (header_ok p 0 Hp) as Hb.
  assert (Hl : len (header p 0) ≤ MAX_SUMMED) by done.
  destruct (@checksum_spec PacketError _ Hb Hl) as (c & Hc & Hr & _). exists c. split_wf; [done..|].
  set (pre := take 10 (header p 0)). set (post := drop 12 (header p 0)).
  change (header p c) with (pre ++ be 2 c ++ post).
  change (header p 0) with (pre ++ [0; 0] ++ post) in Hb, Hl, Hc.
  exact (checksum_insert pre post c Hb Hl eq_refl Hc).
Qed.

(** What [encode] produces: the checksummed header and the payload. *)
Lemma ipv4_encode_eq p :
  packet_ok p → ttl p ≠ 0 → len (payload p) ≤ 65515 →
  ∃ c, u16 c ∧ @checksum PacketError (header p c) = Ok 0 ∧ ipv4_encode p = Ok (header p c ++ payload p).
Proof.
  intros Hp Ht Hl. destruct (header_sums p Hp) as (c & Hc & H0 & Hz). exists c. split_wf; [done..|].
  unfold ipv4_encode, checked_add, U64_MAX, U16_MAX. pose proof (Zle_0_nat (length (payload p))).
  fold (len (payload p)) in *. decide_ifs. cbn [ok_or]. rewrite bind_Ok.
  replace (Z.to_nat (20 + len (payload p))) with (20 + length (payload p))%nat by lens.
  puts. rewrite slice_ok by lens. tidy.
  unfold header in H0. cbn [be app] in H0. const_bytes. rewrite H0. puts.
  rewrite drop_ge, app_nil_r by lens. done.
Qed.

Lemma ipv4_encode_refuses p :
  (ttl p = 0 → ipv4_encode p = Err Expired)
  ∧ (ttl p ≠ 0 → 65515 < len (payload p) → ipv4_encode p = Err InvalidLength).
Proof.
  unfold ipv4_encode, checked_add, U16_MAX. split; intros; decide_ifs; [done|].
  destruct (20 + len (payload p) <=? U64_MAX); decide_ifs; done.
Qed.

Lemma ipv4_decode_eq p c rest :
  packet_ok p → ttl p ≠ 0 → len (payload p) ≤ 65515 →
  @checksum PacketError (header p c) = Ok 0 → ipv4_decode (header p c ++ payload p ++ rest) = Ok p.
Proof.
  intros (?&?&?&?&?&Hproto&?) Ht Hl Hc. unfold header, ipv4_decode in *. cbn [be app] in *.
  destruct (len _ <? 20) eqn:?; [lens|]. read. rewrite of_be_2 by lens.
  decide_ifs. change (Z.land 64 63 =? 0) with true. cbn [negb orb].
  destruct (_ || _) eqn:?; [lens|]. rewrite (slice_ok _ 0 20) by lens. tidy.
  rewrite Hc. read. decide_ifs. rewrite !of_be_4, slice_ok by lens. read. rewrite Hproto.
  destruct p; cbn in *. do 2 f_equal.
  replace (Z.to_nat (20 + len payload0) - 20)%nat with (length payload0) by lens.
  apply take_app_length.
Qed.

Lemma IpProtocol_roundtrip v : IpProtocol_to_u8 (IpProtocol_from_u8 v) = v.
Proof. unfold IpProtocol_from_u8. repeat case_match; cbn; lia. Qed.
Lemma IpProtocol_canonical v :
  IpProtocol_from_u8 (IpProtocol_to_u8 (IpProtocol_from_u8 v)) = IpProtocol_from_u8 v.
Proof. by rewrite IpProtocol_roundtrip. Qed.

Lemma ipv4_decode_safe bs : bytes_ok bs → safe (ipv4_decode bs).
Proof.
  intros Hb. unfold ipv4_decode. apply safe_if; [done|]. intros Hl.
  repeat (apply safe_bind; [solve_safe|]; intros ??). apply safe_if; [done|]. intros ?.
  apply safe_bind; [solve_safe|]. intros total Ht. apply safe_if; [done|]. intros ?.
  apply safe_bind; [solve_safe|]. intros h [? ->]%slice_Ok_inv.
  apply safe_bind; [apply checksum_safe; [auto with bytes_ok | unfold MAX_SUMMED; lens]|].
  intros sum Hsum. solve_safe.
Qed.

Lemma ipv4_decode_ok bs p :
  bytes_ok bs → ipv4_decode bs = Ok p →
  packet_ok p ∧ ttl p ≠ 0 ∧ 20 + len (payload p) ≤ len bs
  ∧ @checksum PacketError (take 20 bs) = Ok 0.
Proof.
  unfold ipv4_decode. intros Hb H. inv_ok. unfold packet_ok; cbn [dscp_ecn source destination ttl protocol payload].
  match goal with H : slice bs 0 20 = _ |- _ => apply slice_Ok_inv in H as [? ->] end.
  match goal with H : checksum _ = Ok ?x |- _ => replace x with 0 in H by lia end.
  rewrite IpProtocol_roundtrip. split_wf; try ranges; try done.
  - lia.
  - match goal with H : slice bs 20 _ = _ |- _ => apply slice_Ok_inv in H as [? ->] end. lens.
Qed.

Lemma network_new_eq a l :
  0 ≤ l ≤ 32 → u32 a →
  network_new a l = Ok {| network := a - a `mod` 2 ^ (32 - l); network_len := l |}.
Proof.
  intros Hl Ha. rewrite <-mask_bits_land by (done || lia). unfold network_new, mask_of.
  destruct (Z.eqb_spec l 0) as [->|]; [done|]. by decide_ifs.
Qed.
Lemma broadcast_eq n : network_ok n → broadcast n = network n + 2 ^ (32 - network_len n) - 1.
Proof.
  intros (Hw & Hl & Hz). unfold broadcast, network_mask, mask_of.
  change U32_MAX with (2 ^ 32 - 1). rewrite mask_bits_complement by (done || lia).
  pose proof (Z.add_lor_land (network n) (Z.ones (32 - network_len n))) as H.
  rewrite Z.land_ones, Hz, Z.ones_equiv in H by lia. rewrite Z.ones_equiv. lia.
Qed.

Lemma leading_ones_nonneg k x : 0 ≤ leading_ones_from k x.
Proof. induction k as [|k IH]; cbn [leading_ones_from]; [done|]. case_match; lia. Qed.

Definition prefixes : list Z := map Z.of_nat (seq 0 33).
Lemma prefixes_spec n : 0 ≤ n ≤ 32 ↔ n ∈ prefixes.
Proof.
  unfold prefixes. split.
  - intros Hn. apply list_elem_of_fmap. exists (Z.to_nat n). split; [lia|]. apply elem_of_seq. lia.
  - intros (k & -> & Hk%elem_of_seq)%list_elem_of_fmap. lia.
Qed.

(** ** Properties *)

(** Every packet with a nonzero TTL and a payload that fits in the 16-bit
    total length is encoded, decodes to itself even when the link padded it, and
    what the decoder accepts is a well-formed packet inside the octets given. *)
Theorem ipv4_roundtrip :
  (∀ p pad, packet_ok p → ttl p ≠ 0 → len (payload p) ≤ 65515 →
     ∃ bs, ipv4_encode p = Ok bs ∧ len bs = 20 + len (payload p) ∧ ipv4_decode (bs ++ pad) = Ok p)
  ∧ (∀ p, (ttl p = 0 → ipv4_encode p = Err Expired)
       ∧ (ttl p ≠ 0 → 65515 < len (payload p) → ipv4_encode p = Err InvalidLength))
  ∧ (∀ bs, bytes_ok bs → safe (ipv4_decode bs))
  ∧ (∀ bs p, bytes_ok bs → ipv4_decode bs = Ok p →
       packet_ok p ∧ ttl p ≠ 0 ∧ 20 + len (payload p) ≤ len bs).
Proof.
  split; [|split; [exact ipv4_encode_refuses|split]].
  - intros p pad Hp Ht Hl. destruct (ipv4_encode_eq p Hp Ht Hl) as (c & _ & Hc & ->).
    eexists. split; [reflexivity|]. split; [unfold header; lens|].
    rewrite <-app_assoc. by apply ipv4_decode_eq.
  - apply ipv4_decode_safe.
  - intros bs p Hb Hd. by apply ipv4_decode_ok in Hd as (?&?&?&_).
Qed.

(** No single corrupted octet of an encoded header goes unnoticed. *)
Theorem ipv4_header_corruption p bs i v q :
  packet_ok p → ipv4_encode p = Ok bs → (i < 20)%nat → u8 v → bs !! i ≠ Some v →
  ipv4_decode (<[i:=v]> bs) ≠ Ok q.
Proof.
  intros Hp He Hi Hv Hne Hd.
  destruct (ipv4_encode_refuses p) as [H1 H2].
  assert (Ht : ttl p ≠ 0) by (intros Ht; rewrite H1 in He; done).
  assert (Hl : len (payload p) ≤ 65515) by (apply Z.nlt_ge; intros Hl; rewrite H2 in He; done).
  destruct (ipv4_encode_eq p Hp Ht Hl) as (c & Hc & Hz & He'). rewrite He in He'.
  assert (bs = header p c ++ payload p) as -> by congruence. clear He'.
  assert (Hh : bytes_ok (header p c)) by by apply header_ok.
  assert (Hlen : length (header p c) = 20%nat) by done.
  assert (Hb : bytes_ok (<[i:=v]> (header p c ++ payload p))).
  { apply Forall_insert; [|done]. apply bytes_ok_app; [done|]. by apply Hp. }
  apply ipv4_decode_ok in Hd as (_&_&_&Hd); [|done].
  rewrite insert_app_l in Hd by lia.
  rewrite take_app_length' in Hd by (by rewrite length_insert).
  rewrite lookup_app_l in Hne by lia.
  destruct (lookup_lt_is_Some_2 (header p c) i) as [b Hbi]; [lia|].
  eapply (checksum_detects (header p c) i b v Hh); try done. congruence.
Qed.

(** [from_mask] accepts exactly the 33 contiguous masks and recovers the
    prefix length of each. *)
Theorem from_mask_exact a m :
  (∀ n, 0 ≤ n ≤ 32 → from_mask a (mask_of n) = Ok {| address := a; prefix_len := n |})
  ∧ (∀ c, from_mask a m = Ok c → address c = a ∧ config_mask c = m)
  ∧ ((∀ n, 0 ≤ n ≤ 32 → m ≠ mask_of n) → is_ok (from_mask a m) = false).
Proof.
  assert (H2 : ∀ c, from_mask a m = Ok c →
    address c = a ∧ config_mask c = m ∧ 0 ≤ prefix_len c ≤ 32).
  { unfold from_mask, config_new. intros c H. inv_ok. cbn [address prefix_len]. split_wf; [done|lia|].
    pose proof (leading_ones_nonneg 32 m). unfold leading_ones in *. split; [done|lia]. }
  split_and!.
  - assert (H : Forall (λ n, leading_ones (mask_of n) = n) prefixes)
      by (apply (bool_decide_unpack _); by vm_compute).
    intros n Hn. rewrite Forall_forall in H. unfold from_mask.
    rewrite (H n) by by apply prefixes_spec. unfold config_new. decide_ifs. cbn.
    unfold config_mask. cbn. by rewrite Z.eqb_refl.
  - intros c Hc. by apply H2 in Hc as (?&?&_).
  - intros Hm. destruct (from_mask a m) as [c| |] eqn:E; try done.
    destruct (H2 c eq_refl) as (_ & Hc & Hr). destruct (Hm (prefix_len c) Hr). by rewrite <-Hc.
Qed.

(** A prefix contains exactly the addresses from its network address to its
    broadcast address, and normalizing any address gives a prefix containing it. *)
Theorem contains_range n a :
  network_ok n → u32 a →
  (contains n a = true ↔ network n ≤ a ≤ broadcast n)
  ∧ ∀ l, 0 ≤ l ≤ 32 → ∃ m, network_new a l = Ok m ∧ network_ok m ∧ network_len m = l
      ∧ contains m a = true.
Proof.
  intros Hn Ha. pose proof Hn as (Hw & Hl & Hz). split.
  - rewrite broadcast_eq by done. unfold contains. rewrite network_new_eq by done.
    destruct n as [w l]; cbn [network network_len] in *. rewrite bool_decide_eq_true.
    rewrite <-normalize_range by (done || lia). split; [by intros [= H] | by intros ->].
  - intros l Hl'. rewrite network_new_eq by done. eexists. split; [done|].
    destruct (normalized 32 ltac:(lia) a l Hl' ltac:(lia)) as [H1 H2].
    unfold network_ok, contains. cbn [network network_len]. rewrite network_new_eq by done.
    split; [|split; [done | by apply bool_decide_eq_true_2]]. split_wf; [lia | lia | exact H1].
Qed.

(** C26: [lookup] returns the first route, in insertion order, among those that
    contain the address with the longest prefix, then the least administrative
    distance, then the least metric; it finds nothing only when none contains it. *)
Theorem lookup_longest_prefix t a :
  match lookup t a with
  | None => ∀ r, r ∈ t → contains (prefix r) a = false
  | Some r => ∃ before after, t = before ++ r :: after ∧ contains (prefix r) a = true
      ∧ (∀ r', r' ∈ before → contains (prefix r') a = true →
           lex_ltb (route_key r) (route_key r') = true)
      ∧ (∀ r', r' ∈ after → contains (prefix r') a = true →
           lex_ltb (route_key r') (route_key r) = false)
      ∧ ∀ r', r' ∈ t → contains (prefix r') a = true →
          network_len (prefix r') ≤ network_len (prefix r)
  end.
Proof.
  unfold lookup. destruct (min_by_key _ _) as [r|] eqn:E.
  - assert (Hmax : ∀ r', r' ∈ t → contains (prefix r') a = true →
       network_len (prefix r') ≤ network_len (prefix r)).
    { intros r' Hr' Hc. pose proof (min_by_key_least _ _ _ E) as [_ H].
      assert (Hin : r' ∈ filter (λ r, contains (prefix r) a = true) t) by by apply list_elem_of_filter.
      apply H in Hin. unfold route_key in Hin. cbn [lex_ltb] in Hin. lia. }
    apply min_by_key_spec in E as (l1 & l2 & Hl & H1 & H2).
    rewrite Forall_forall in H1, H2.
    destruct (filter_split _ _ _ _ _ Hl) as (b & c & -> & Hr & <- & <-).
    exists b, c. split_and!; try done.
    + intros r' Hr' Hc. apply H1. by apply list_elem_of_filter.
    + intros r' Hr' Hc. apply H2. by apply list_elem_of_filter.
  - apply min_by_key_None in E. intros r Hr. destruct (contains (prefix r) a) eqn:Hc; [|done].
    assert (H : r ∈ filter (λ r, contains (prefix r) a = true) t) by by apply list_elem_of_filter.
    rewrite E in H. by apply elem_of_nil in H.
Qed.

(** ** Witnesses *)

Definition sample_packet : Ipv4Packet :=
  {| dscp_ecn := 0; source := 167772161; destination := 167772162; ttl := 64;
     protocol := Icmp; payload := [1; 2; 3] |}.
Lemma sample_packet_ok : packet_ok sample_packet.
Proof. unfold packet_ok, bytes_ok. cbn. split_wf; try done; try lia. repeat constructor; lia. Qed.
Definition sample_packet_bytes : bytes :=
  match ipv4_encode sample_packet with Ok bs => bs | _ => [] end.
Lemma ipv4_header_corruption_witness :
  length sample_packet_bytes = 23%nat
  ∧ ipv4_decode (<[12%nat:=11]> sample_packet_bytes) = Err InvalidChecksum
  ∧ ipv4_decode (<[12%nat:=11]> sample_packet_bytes) ≠ Ok sample_packet.
Proof.
  split; [reflexivity|]. split; [vm_compute; reflexivity|].
  apply (ipv4_header_corruption sample_packet); [apply sample_packet_ok | vm_compute; reflexivity | lia | lia |].
  vm_compute. intros [=].
Defined.
Lemma contains_range_witness :
  contains {| network := 167772160; network_len := 8 |} 167838211 = true.
Proof.
  apply (contains_range {| network := 167772160; network_len := 8 |} 167838211);
    [unfold network_ok; cbn; split_wf; (done || lia) | lia | vm_compute; split; congruence].
Defined.
