(* ===== verification/AccessList.v ===== *)
(** IPv4 access lists as configured (src/crates/rios-config/src/acl.rs, and the
    standard entries of lib.rs): wildcard matching of addresses, transport
    ports, and the decision of one entry.

    [standard_entry_equivalent] relates the two kinds of entry the program
    keeps: a numbered standard entry and the rule it is promoted to. *)
From S2P Require Import Prelude Wire Ipv4 Collections.

(** ** lib.rs: standard entries *)

Abbreviation AccessListId := Z.
Definition AccessListId_new (value : Z) : option AccessListId :=
  if (1 <=? value) && (value <=? 99) then Some value else None.

Inductive AccessListAction := Permit | Deny.
#[export] Instance AccessListAction_eq_dec : EqDecision AccessListAction.
Proof. solve_decision. Defined.
Inductive AccessListDirection := DirectionIn | DirectionOut.
#[export] Instance AccessListDirection_eq_dec : EqDecision AccessListDirection.
Proof. solve_decision. Defined.

(** [!x] of a [u32]. *)
Definition not32 (x : Z) : Z := U32_MAX - x.

Record StandardAccessListEntry := {
  standard_action : AccessListAction; standard_source : Ipv4Addr; standard_wildcard : Ipv4Addr
}.
#[export] Instance StandardAccessListEntry_eq_dec : EqDecision StandardAccessListEntry.
Proof. solve_decision. Defined.
Definition standard_matches (e : StandardAccessListEntry) (source : Ipv4Addr) : bool :=
  let mask := not32 (standard_wildcard e) in
  Z.land source mask =? Z.land (standard_source e) mask.

(** ** acl.rs *)

Abbreviation AclId := Z.
Inductive AclKind := Standard | Extended.
#[export] Instance AclKind_eq_dec : EqDecision AclKind.
Proof. solve_decision. Defined.

Record AddressMatch := { match_address : Ipv4Addr; wildcard : Ipv4Addr }.
#[export] Instance AddressMatch_eq_dec : EqDecision AddressMatch.
Proof. solve_decision. Defined.
Definition ANY : AddressMatch := {| match_address := 0; wildcard := U32_MAX |}.
Definition address_matches (m : AddressMatch) (address : Ipv4Addr) : bool :=
  Z.land (Z.lxor address (match_address m)) (not32 (wildcard m)) =? 0.

Inductive PortMatch :=
| AnyPort | EqPort (value : Z) | Range (low high : Z) | LtPort (value : Z) | GtPort (value : Z)
| NeqPort (value : Z).
#[export] Instance PortMatch_eq_dec : EqDecision PortMatch.
Proof. solve_decision. Defined.
Definition port_matches (m : PortMatch) (port : Z) : bool :=
  match m with
  | AnyPort => true
  | EqPort value => port =? value
  | Range low high => (low <=? port) && (port <=? high)
  | LtPort value => port <? value
  | GtPort value => value <? port
  | NeqPort value => negb (port =? value)
  end.

Inductive AclProtocol := AclIp | AclIcmp | AclTcp | AclUdp.
#[export] Instance AclProtocol_eq_dec : EqDecision AclProtocol.
Proof. solve_decision. Defined.

Record AclRule := {
  rule_action : AccessListAction;
  rule_protocol : AclProtocol;
  rule_source : AddressMatch;
  rule_source_port : PortMatch;
  rule_destination : AddressMatch;
  rule_destination_port : PortMatch;
  log : bool
}.
#[export] Instance AclRule_eq_dec : EqDecision AclRule.
Proof. solve_decision. Defined.
Inductive AclEntry := Remark (text : bytes) | Rule (rule : AclRule).
#[export] Instance AclEntry_eq_dec : EqDecision AclEntry.
Proof. solve_decision. Defined.

Definition protocol_matches (p : AclProtocol) (number : Z) : bool :=
  match p with AclIp => true | AclIcmp => number =? 1 | AclTcp => number =? 6 | AclUdp => number =? 17 end.

Definition evaluate (e : AclEntry) (packet : Ipv4Packet) : option AccessListAction :=
  match e with
  | Remark _ => None
  | Rule r =>
      let number := IpProtocol_to_u8 (protocol packet) in
      if negb (protocol_matches (rule_protocol r) number)
         || negb (address_matches (rule_source r) (source packet))
         || negb (address_matches (rule_destination r) (destination packet))
      then None
      else if bool_decide (rule_source_port r ≠ AnyPort) || bool_decide (rule_destination_port r ≠ AnyPort)
      then
        if negb ((number =? 6) || (number =? 17)) || (len (payload packet) <? 4) then None
        else
          let octet := λ i, nth i (payload packet) 0 in
          let src := octet 0%nat * 256 + octet 1%nat in
          let dst := octet 2%nat * 256 + octet 3%nat in
          if negb (port_matches (rule_source_port r) src) || negb (port_matches (rule_destination_port r) dst)
          then None
          else Some (rule_action r)
      else Some (rule_action r)
  end.

Record AccessList := { acl_name : bytes; acl_kind : AclKind; acl_entries : gmap Z AclEntry }.
#[export] Instance AccessList_eta : Eta AccessList := λ l,
  {| acl_name := acl_name l; acl_kind := acl_kind l; acl_entries := acl_entries l |}.
#[export] Instance AccessList_eq_dec : EqDecision AccessList.
Proof. solve_decision. Defined.

(** The rule a standard entry is promoted to. *)
Definition promoted (e : StandardAccessListEntry) : AclEntry :=
  Rule {| rule_action := standard_action e; rule_protocol := AclIp;
          rule_source := {| match_address := standard_source e; wildcard := standard_wildcard e |};
          rule_source_port := AnyPort; rule_destination := ANY; rule_destination_port := AnyPort;
          log := false |}.

(** ** Helper lemmas *)

Lemma not32_bits x i : u32 x → 0 ≤ i < 32 → Z.testbit (not32 x) i = negb (Z.testbit x i).
Proof.
  intros Hx Hi. assert (not32 x = Z.land (Z.lnot x) (Z.ones 32)) as ->.
  { rewrite Z.land_ones by lia. unfold not32, U32_MAX. rewrite Z.lnot_eq_pred_opp. change (2 ^ 32) with 4294967296.
    apply (Z.mod_unique _ _ (-1)); lia. }
  rewrite Z.land_spec, Z.lnot_spec, Z.ones_spec_low, andb_true_r by lia. done.
Qed.
Lemma not32_u32 x : u32 x → u32 (not32 x).
Proof. unfold not32, U32_MAX. lia. Qed.

Lemma land_eqb_lxor a b m : (Z.land a m =? Z.land b m) = (Z.land (Z.lxor a b) m =? 0).
Proof.
  apply eq_bool_prop_intro. rewrite !Is_true_true, !Z.eqb_eq. split; intros H; apply Z.bits_inj'; intros i Hi;
    apply (f_equal (λ z, Z.testbit z i)) in H; rewrite ?Z.land_spec, ?Z.lxor_spec, ?Z.bits_0 in *;
    by destruct (Z.testbit a i), (Z.testbit b i), (Z.testbit m i).
Qed.

(** A wildcard selects the addresses that agree outside its bits. *)
Lemma address_matches_bits m a :
  u32 a → u32 (match_address m) → u32 (wildcard m) →
  address_matches m a = true ↔
  ∀ i, 0 ≤ i < 32 → Z.testbit (wildcard m) i = false → Z.testbit a i = Z.testbit (match_address m) i.
Proof.
  intros Ha Hm Hw. unfold address_matches. rewrite Z.eqb_eq. split.
  - intros H i Hi Hb. apply (f_equal (λ z, Z.testbit z i)) in H.
    rewrite Z.land_spec, Z.lxor_spec, not32_bits, Hb, Z.bits_0, andb_true_r in H by done. by apply Bool.xorb_eq.
  - intros H. apply Z.bits_inj'. intros i Hi. rewrite Z.land_spec, Z.lxor_spec, Z.bits_0.
    destruct (decide (i < 32)) as [Hl|Hl].
    + rewrite not32_bits by lia. destruct (Z.testbit (wildcard m) i) eqn:E; [apply andb_false_r|].
      rewrite H by (done || lia). by rewrite Bool.xorb_nilpotent.
    + pose proof (not32_u32 _ Hw). rewrite (Z.bits_above_log2 (not32 _)); [apply andb_false_r|lia|].
      destruct (decide (not32 (wildcard m) = 0)) as [->|]; [cbn; lia|].
      assert (Z.log2 (not32 (wildcard m)) < 32); [apply Z.log2_lt_pow2; lia|lia].
Qed.
Lemma any_matches a : u32 a → address_matches ANY a = true.
Proof.
  intros Ha. apply address_matches_bits; [done|cbn; unfold U32_MAX; lia..|]. cbn. intros i Hi.
  change U32_MAX with (Z.ones 32). by rewrite Z.ones_spec_low by lia.
Qed.

Lemma promoted_evaluate e p :
  u32 (destination p) →
  evaluate (promoted e) p = if standard_matches e (source p) then Some (standard_action e) else None.
Proof.
  intros Hd. unfold evaluate, promoted. cbn. rewrite any_matches by done.
  unfold standard_matches, address_matches. cbn. rewrite <-land_eqb_lxor.
  rewrite orb_false_r. destruct (_ =? _); done.
Qed.

(** ** Properties *)

(** A standard entry and the extended rule it is promoted to decide alike:
    the rule decides a packet exactly when the entry matches its source, with
    the entry's action. *)
Theorem standard_entry_equivalent e p :
  u32 (destination p) →
  evaluate (promoted e) p = if standard_matches e (source p) then Some (standard_action e) else None.
Proof. apply promoted_evaluate. Qed.
Lemma standard_entry_equivalent_witness :
  let p := {| dscp_ecn := 0; source := 0x0a000105; destination := 0xc0a80001; ttl := 64; protocol := Udp; payload := [] |} in
  let e := {| standard_action := Deny; standard_source := 0x0a000100; standard_wildcard := 0xff |} in
  evaluate (promoted e) p = Some Deny.
Proof.
  intros p e. rewrite standard_entry_equivalent; [done|]. cbn. unfold U32_MAX. lia.
Defined.
