(* ===== verification/RoutePolicy.v ===== *)
(** Prefix lists and route maps as configured
    (src/crates/rios-config/src/route_policy.rs): which prefixes an entry, a
    list and a route map accept.

    [prefix_entry_denotes] gives the set of prefixes an entry stands for, and
    [first_match_decides] says that lists and route maps are decided by their
    matching entry of least sequence number, with an implicit final deny. *)
From S2P Require Import Prelude Wire Ipv4 Collections AccessList.

Abbreviation RouteMapId := Z.

Record PrefixListEntry := {
  list_action : AccessListAction; list_prefix : Ipv4Network; ge : option Z; le : option Z
}.
#[export] Instance PrefixListEntry_eq_dec : EqDecision PrefixListEntry.
Proof. solve_decision. Defined.

Definition prefix_valid (e : PrefixListEntry) : bool :=
  let bits := network_len (list_prefix e) in
  (bits <=? 32)
  && is_none_or (ge e) (λ ge, (bits <? ge) && (ge <=? 32))
  && is_none_or (le e) (λ le, (bits <=? le) && (le <=? 32))
  && match ge e, le e with Some ge, Some le => ge <=? le | _, _ => true end.

Definition prefix_matches (e : PrefixListEntry) (p : Ipv4Network) : bool :=
  prefix_valid e
  && contains (list_prefix e) (network p)
  && (default (network_len (list_prefix e)) (ge e) <=? network_len p)
  && (network_len p <=? default (if bool_decide (is_Some (ge e)) then 32 else network_len (list_prefix e)) (le e)).

Record RouteMapEntry := {
  map_action : AccessListAction;
  prefix_lists_matched : gset bytes;
  set_local_preference : option Z;
  set_metric : option Z;
  as_prepend : list Z
}.
#[export] Instance RouteMapEntry_eta : Eta RouteMapEntry := λ e,
  {| map_action := map_action e; prefix_lists_matched := prefix_lists_matched e;
     set_local_preference := set_local_preference e; set_metric := set_metric e; as_prepend := as_prepend e |}.
#[export] Instance RouteMapEntry_eq_dec : EqDecision RouteMapEntry.
Proof. solve_decision. Defined.
Definition RouteMapEntry_new (action : AccessListAction) : RouteMapEntry :=
  {| map_action := action; prefix_lists_matched := ∅; set_local_preference := None; set_metric := None;
     as_prepend := [] |}.

Record RouteMap := { map_name : bytes; map_entries : gmap Z RouteMapEntry }.
#[export] Instance RouteMap_eta : Eta RouteMap := λ m, {| map_name := map_name m; map_entries := map_entries m |}.
#[export] Instance RouteMap_eq_dec : EqDecision RouteMap.
Proof. solve_decision. Defined.

Record RoutingPolicyConfig := {
  prefix_lists : gmap bytes (gmap Z PrefixListEntry); route_maps : gmap RouteMapId RouteMap
}.
#[export] Instance RoutingPolicyConfig_eta : Eta RoutingPolicyConfig := λ c,
  {| prefix_lists := prefix_lists c; route_maps := route_maps c |}.
#[export] Instance RoutingPolicyConfig_eq_dec : EqDecision RoutingPolicyConfig.
Proof. solve_decision. Defined.
Definition RoutingPolicyConfig_default : RoutingPolicyConfig := {| prefix_lists := ∅; route_maps := ∅ |}.

Definition prefix_permits (c : RoutingPolicyConfig) (name : bytes) (p : Ipv4Network) : bool :=
  is_some_and (prefix_lists c !! name ≫= λ list, find (λ e, prefix_matches e p) (values list))
    (λ e, bool_decide (list_action e = Permit)).

(** The clause [route_map_match] looks for: no prefix list, or one that
    permits the prefix. *)
Definition clause_applies (c : RoutingPolicyConfig) (e : RouteMapEntry) (p : Ipv4Network) : bool :=
  bool_decide (prefix_lists_matched e = ∅)
  || existsb (λ name, prefix_permits c name p) (elements (prefix_lists_matched e)).
Definition route_map_match (c : RoutingPolicyConfig) (name : bytes) (p : Ipv4Network) : option RouteMapEntry :=
  map ← find (λ m, bool_decide (map_name m = name)) (values (route_maps c));
  entry ← find (λ e, clause_applies c e p) (values (map_entries map));
  if bool_decide (map_action entry = Permit) then Some entry else None.

(** ** Helper lemmas *)

Lemma contains_block n a :
  network_ok n → u32 a →
  contains n a = true ↔ network n ≤ a ≤ network n + 2 ^ (32 - network_len n) - 1.
Proof. intros Hn Ha. rewrite <-broadcast_eq by done. by apply contains_range. Qed.

(** A prefix whose network address lies in a shorter one lies in it whole. *)
Lemma block_within n p a :
  network_ok n → network_ok p → network_len n ≤ network_len p →
  contains n (network p) = true → u32 a → contains p a = true → contains n a = true.
Proof.
  intros Hn Hp Hl Hc Ha. pose proof Hn as (_ & Hnl & Hnz). pose proof Hp as (Hpn & Hpl & Hpz).
  apply contains_block in Hc; [|done|done]. rewrite !contains_block by done.
  assert (E : 2 ^ (32 - network_len n) = 2 ^ (network_len p - network_len n) * 2 ^ (32 - network_len p)).
  { rewrite <-Z.pow_add_r by lia. f_equal. lia. }
  assert (HB : 0 < 2 ^ (32 - network_len p)) by (apply Z.pow_pos_nonneg; lia).
  assert (HK : 0 < 2 ^ (network_len p - network_len n)) by (apply Z.pow_pos_nonneg; lia).
  apply Z.mod_divide in Hnz as [q Hq]; [|lia]. apply Z.mod_divide in Hpz as [r Hr]; [|lia].
  rewrite E in *. revert HB HK Hq Hr Hc.
  generalize (2 ^ (32 - network_len p)), (2 ^ (network_len p - network_len n)). intros B K HB HK -> -> [H1 H2] [H3 H4].
  split; [lia|]. assert (r < q * K + K) by nia. assert (r * B + B ≤ (q * K + K) * B) by nia. lia.
Qed.

(** ** Properties *)

(** What the bounds of an entry allow. *)
Definition allowed_lengths (e : PrefixListEntry) (n : Z) : Prop :=
  match ge e, le e with
  | None, None => n = network_len (list_prefix e)
  | None, Some le => network_len (list_prefix e) ≤ n ≤ le
  | Some ge, None => ge ≤ n ≤ 32
  | Some ge, Some le => ge ≤ n ≤ le
  end.

(** An entry of a prefix list matches exactly the prefixes whose addresses
    all lie in its own prefix and whose length its bounds allow; one with
    contradictory bounds matches nothing. *)
Theorem prefix_entry_denotes e p :
  network_ok (list_prefix e) → network_ok p →
  prefix_matches e p = true ↔
  prefix_valid e = true ∧ allowed_lengths e (network_len p)
  ∧ ∀ a, u32 a → contains p a = true → contains (list_prefix e) a = true.
Proof.
  intros He Hp. pose proof Hp as (Hpn & Hpl & _). unfold prefix_matches. rewrite !andb_true_iff.
  assert (Hown : contains p (network p) = true).
  { apply contains_block; [done..|]. assert (0 < 2 ^ (32 - network_len p)) by (apply Z.pow_pos_nonneg; lia). lia. }
  assert (Hlen : prefix_valid e = true →
    (default (network_len (list_prefix e)) (ge e) <=? network_len p) = true
    ∧ (network_len p <=? default (if bool_decide (is_Some (ge e)) then 32 else network_len (list_prefix e)) (le e)) = true
    ↔ allowed_lengths e (network_len p)).
  { intros _. unfold allowed_lengths. destruct (ge e), (le e); cbn; lia. }
  split.
  - intros [[[Hv Hc] H1] H2]. split; [done|]. split; [by apply Hlen|]. intros a Ha.
    eapply block_within; try done. unfold prefix_valid in Hv. destruct (ge e); cbn in *; lia.
  - intros (Hv & Hl & Hall). apply (Hlen Hv) in Hl as [H1 H2]. split_and!; try done. by apply Hall.
Qed.

(** The entry of least sequence number that accepts, and what it decides. *)
Definition decided {V} (m : gmap Z V) (accepts : V → bool) (v : V) : Prop :=
  ∃ k, m !! k = Some v ∧ accepts v = true ∧ ∀ k' v', m !! k' = Some v' → accepts v' = true → k ≤ k'.

(** Prefix lists and route maps are decided by the matching entry of least
    sequence number: a list permits a prefix exactly when that entry exists and
    permits, and a route map returns exactly that clause when it permits; a
    missing list or map, an entry that denies and the absence of a match all
    reject. *)
Theorem first_match_decides c name p :
  (prefix_permits c name p = true ↔
   ∃ list e, prefix_lists c !! name = Some list
     ∧ decided list (λ e, prefix_matches e p) e ∧ list_action e = Permit)
  ∧ (∀ entry, route_map_match c name p = Some entry ↔
     ∃ map, decided (route_maps c) (λ m, bool_decide (map_name m = name)) map
       ∧ decided (map_entries map) (λ e, clause_applies c e p) entry ∧ map_action entry = Permit).
Proof.
  assert (Hfind : ∀ V (m : gmap Z V) q v, find q (values m) = Some v ↔ decided m q v).
  { intros. split; [apply find_values|]. intros (k & H1 & H2 & H3). by eapply find_values_least. }
  split; [|intros entry].
  - unfold prefix_permits, is_some_and. split.
    + destruct (prefix_lists c !! name) as [list|]; [|done]. cbn.
      destruct (find _ (values list)) as [e|] eqn:E; [|done]. intros Ha%bool_decide_eq_true.
      exists list, e. by rewrite Hfind in E.
    + intros (list & e & Hl & Hd & Ha). rewrite Hl. cbn. apply Hfind in Hd as ->. by rewrite bool_decide_true.
  - unfold route_map_match. split.
    + destruct (find _ (values (route_maps c))) as [map|] eqn:E1; [|done]. cbn.
      destruct (find _ (values (map_entries map))) as [e|] eqn:E2; [|done]. cbn.
      case_bool_decide as Ha; [|done]. intros [= <-]. exists map. by rewrite Hfind in E1, E2.
    + intros (map & H1 & H2 & Ha). apply Hfind in H1 as ->. cbn. apply Hfind in H2 as ->. cbn.
      by rewrite bool_decide_true.
Qed.

(** ** Concrete inputs *)

Lemma prefix_entry_denotes_witness :
  prefix_matches {| list_action := Permit; list_prefix := {| network := 167772160; network_len := 8 |};
                    ge := Some 16; le := Some 24 |} {| network := 167837696; network_len := 16 |} = true.
Proof.
  apply prefix_entry_denotes.
  - unfold network_ok. cbn. split_wf; (done || lia).
  - unfold network_ok. cbn. split_wf; (done || lia).
  - split; [reflexivity|]. split; [cbn; lia|]. intros a Ha.
    apply (block_within {| network := 167772160; network_len := 8 |}); try done;
      unfold network_ok; cbn; split_wf; (done || lia).
Defined.
