(* ===== verification/Arp.v ===== *)
(** rios-protocol, ARP over Ethernet and IPv4 (src/crates/rios-protocol/src/arp.rs). *)
From S2P Require Import Prelude Wire.

Inductive ArpOperation := Request | Reply.
#[export] Instance ArpOperation_eq_dec : EqDecision ArpOperation.
Proof. solve_decision. Defined.

Record ArpPacket := {
  operation : ArpOperation;
  sender_mac : bytes;
  sender_ip : Z;
  target_mac : bytes;
  target_ip : Z
}.
Inductive ArpPacketError := InvalidLength | Unsupported.

Definition arp_encode (p : ArpPacket) : bytes :=
  be 2 1 ++ be 2 0x0800 ++ [6; 4]
  ++ be 2 (if bool_decide (operation p = Request) then 1 else 2)
  ++ sender_mac p ++ be 4 (sender_ip p) ++ target_mac p ++ be 4 (target_ip p).

Definition arp_decode (bs : bytes) : res ArpPacketError ArpPacket :=
  if negb (len bs =? 28) then Err InvalidLength
  else
    head ← slice bs 0 6;
    if negb (bool_decide (head = [0; 1; 8; 0; 6; 4])) then Err Unsupported
    else
      code ← u16_at bs 6;
      operation ← (if code =? 1 then Ok Request else if code =? 2 then Ok Reply else Err Unsupported);
      sender_mac ← slice bs 8 14;
      sender_ip ← u32_at bs 14;
      target_mac ← slice bs 18 24;
      target_ip ← u32_at bs 24;
      Ok {| operation := operation; sender_mac := sender_mac; sender_ip := sender_ip;
            target_mac := target_mac; target_ip := target_ip |}.

(** What the Rust types guarantee. *)
Definition arp_ok (p : ArpPacket) : Prop :=
  length (sender_mac p) = 6%nat ∧ bytes_ok (sender_mac p) ∧ u32 (sender_ip p)
  ∧ length (target_mac p) = 6%nat ∧ bytes_ok (target_mac p) ∧ u32 (target_ip p).

Lemma arp_encode_decode p : arp_ok p → arp_decode (arp_encode p) = Ok p.
Proof.
  destruct p as [op sm si tm ti]; unfold arp_ok; cbn -[byte_of of_be].
  intros (Hs&_&?&Ht&_&?). explode sm 6%nat. explode tm 6%nat.
  destruct op; crunch; rewrite !of_be_4 by lia; reflexivity.
Qed.

(** The ARP decoder is the exact inverse of the encoder. *)
Theorem arp_codec bs p :
  bytes_ok bs → (arp_decode bs = Ok p ↔ arp_ok p ∧ arp_encode p = bs).
Proof.
  intros Hb. split; [|intros [Hp <-]; by apply arp_encode_decode].
  intros Hd. assert (Hh : length bs = 28%nat ∧ take 6 bs = [0; 1; 8; 0; 6; 4]).
  { unfold arp_decode in Hd. inv_ok;
      match goal with H : slice _ _ _ = Ok ?x, H' : negb (bool_decide (?x = _)) = false |- _ =>
        apply slice_Ok_inv in H as [_ ->]; apply negb_false_iff, bool_decide_eq_true_1 in H' end; lens; auto with lia. }
  destruct Hh as [Hl Hh]. explode bs 28%nat. cbn [take] in Hh. injection Hh as -> -> -> -> -> ->.
  crunch_in Hd. split_octets Hb. inv_ok; rewrite !of_be_two in *;
    assert (b5 = 0) as -> by lia;
    (split; [unfold arp_ok; cbn -[of_be]; split_wf; try done; try apply u32_of_be; octets|]).
  all: crunch; fields; const_bytes; repeat f_equal; lia.
Qed.

Lemma arp_codec_witness :
  ∃ p, arp_decode [0;1;8;0;6;4;0;1;2;0;0;0;0;1;10;0;0;1;0;0;0;0;0;0;10;0;0;2] = Ok p
    ∧ operation p = Request ∧ arp_ok p.
Proof.
  eexists. split; [vm_compute; reflexivity|]. split; [reflexivity|].
  apply (arp_codec [0;1;8;0;6;4;0;1;2;0;0;0;0;1;10;0;0;1;0;0;0;0;0;0;10;0;0;2]).
  - apply (bool_decide_unpack _). vm_compute. exact I.
  - vm_compute. reflexivity.
Defined.
