(* ===== verification/Icmp.v ===== *)
(** rios-protocol, ICMP echo and error messages over IPv4
    (src/crates/rios-protocol/src/icmp.rs). *)
From S2P Require Import Prelude Wire Checksum.

Inductive IcmpKind := EchoRequest | EchoReply.
Inductive IcmpErrorKind := DestinationUnreachable | TimeExceeded.
#[export] Instance IcmpKind_eq_dec : EqDecision IcmpKind.
Proof. solve_decision. Defined.

Record IcmpError := { error_kind : IcmpErrorKind; code : Z; quoted_packet : bytes }.
Record IcmpEcho := { kind : IcmpKind; identifier : Z; sequence : Z; payload : bytes }.
Inductive IcmpPacketError := Truncated | Unsupported | InvalidChecksum.

Definition echo_encode (p : IcmpEcho) : res IcmpPacketError bytes :=
  let bs := zeros (8 + length (payload p)) in
  bs ← put bs 0 [if bool_decide (kind p = EchoRequest) then 8 else 0];
  bs ← put bs 4 (be 2 (identifier p));
  bs ← put bs 6 (be 2 (sequence p));
  bs ← put bs 8 (payload p);
  value ← checksum bs;
  put bs 2 (be 2 value).

Definition echo_decode (bs : bytes) : res IcmpPacketError IcmpEcho :=
  if len bs <? 8 then Err Truncated
  else
    b0 ← idx bs 0; b1 ← idx bs 1;
    kind ← (if (b0 =? 8) && (b1 =? 0) then Ok EchoRequest
            else if (b0 =? 0) && (b1 =? 0) then Ok EchoReply
            else Err Unsupported);
    sum ← checksum bs;
    if negb (sum =? 0) then Err InvalidChecksum
    else
      identifier ← u16_at bs 4;
      sequence ← u16_at bs 6;
      payload ← slice_from bs 8;
      Ok {| kind := kind; identifier := identifier; sequence := sequence; payload := payload |}.

Definition error_encode (p : IcmpError) : res IcmpPacketError bytes :=
  let bs := zeros (8 + length (quoted_packet p)) in
  bs ← put bs 0 [match error_kind p with DestinationUnreachable => 3 | TimeExceeded => 11 end];
  bs ← put bs 1 [code p];
  bs ← put bs 8 (quoted_packet p);
  value ← checksum bs;
  put bs 2 (be 2 value).

Definition error_decode (bs : bytes) : res IcmpPacketError IcmpError :=
  if len bs <? 8 then Err Truncated
  else
    b0 ← idx bs 0;
    kind ← (if b0 =? 3 then Ok DestinationUnreachable
            else if b0 =? 11 then Ok TimeExceeded
            else Err Unsupported);
    sum ← checksum bs;
    if negb (sum =? 0) then Err InvalidChecksum
    else
      code ← idx bs 1;
      quoted ← slice_from bs 8;
      Ok {| error_kind := kind; code := code; quoted_packet := quoted |}.

(** ** Well-formed values *)

Definition echo_ok (p : IcmpEcho) : Prop :=
  u16 (identifier p) ∧ u16 (sequence p) ∧ bytes_ok (payload p)
  ∧ 8 + len (payload p) ≤ MAX_SUMMED.
Definition error_ok (p : IcmpError) : Prop :=
  u8 (code p) ∧ bytes_ok (quoted_packet p) ∧ 8 + len (quoted_packet p) ≤ MAX_SUMMED.

(** ** Helper lemmas *)

(** Both messages have a two-octet type, a checksum and a four-octet header. *)
Lemma summed (a b : Z) (rest : bytes) :
  u8 a → u8 b → bytes_ok rest → 4 + len rest ≤ MAX_SUMMED →
  ∃ c, u16 c ∧ @checksum IcmpPacketError (a :: b :: 0 :: 0 :: rest) = Ok c
    ∧ @checksum IcmpPacketError (a :: b :: be 2 c ++ rest) = Ok 0.
Proof.
  intros Ha Hb Hr Hl.
  assert (Hbs : bytes_ok ([a; b] ++ [0; 0] ++ rest)) by (cbn [app]; octets; exact Hr).
  assert (Hlen : len ([a; b] ++ [0; 0] ++ rest) ≤ MAX_SUMMED) by (unfold MAX_SUMMED in *; lens).
  destruct (@checksum_spec IcmpPacketError _ Hbs Hlen) as (c & Hc & Hu & _).
  exists c. split; [done|]. split; [done|].
  exact (checksum_insert [a; b] rest c Hbs Hlen eq_refl Hc).
Qed.

Lemma echo_encode_eq p :
  echo_ok p → ∃ a c, (a = if bool_decide (kind p = EchoRequest) then 8 else 0)
    ∧ echo_encode p = Ok (a :: 0 :: be 2 c ++ be 2 (identifier p) ++ be 2 (sequence p) ++ payload p)
    ∧ @checksum IcmpPacketError
        (a :: 0 :: be 2 c ++ be 2 (identifier p) ++ be 2 (sequence p) ++ payload p) = Ok 0.
Proof.
  intros (?&?&Hp&Hl).
  set (a := if bool_decide (kind p = EchoRequest) then 8 else 0).
  assert (u8 a) by (unfold a; case_match; lia).
  destruct (summed a 0 (be 2 (identifier p) ++ be 2 (sequence p) ++ payload p)) as (c & _ & Hc & Hz);
    [done | lia | auto with bytes_ok | unfold MAX_SUMMED in *; lens |].
  exists a, c. split; [done|]. split; [|exact Hz].
  unfold echo_encode. fold a. puts. rewrite drop_ge, app_nil_r by lens.
  cbn [be app] in Hc. rewrite Hc. by puts.
Qed.
Lemma error_encode_eq p :
  error_ok p → ∃ a c,
    (a = match error_kind p with DestinationUnreachable => 3 | TimeExceeded => 11 end)
    ∧ error_encode p = Ok (a :: code p :: be 2 c ++ zeros 4 ++ quoted_packet p)
    ∧ @checksum IcmpPacketError (a :: code p :: be 2 c ++ zeros 4 ++ quoted_packet p) = Ok 0.
Proof.
  intros (?&Hp&Hl).
  set (a := match error_kind p with DestinationUnreachable => 3 | TimeExceeded => 11 end).
  assert (u8 a) by (unfold a; case_match; lia).
  destruct (summed a (code p) (zeros 4 ++ quoted_packet p)) as (c & _ & Hc & Hz);
    [done | lia | auto with bytes_ok | unfold MAX_SUMMED in *; lens |].
  exists a, c. split; [done|]. split; [|exact Hz].
  unfold error_encode. fold a. puts. rewrite drop_ge, app_nil_r by lens.
  cbn [zeros replicate app] in Hc. rewrite Hc. by puts.
Qed.

Lemma echo_decode_sum bs q : echo_decode bs = Ok q → @checksum IcmpPacketError bs = Ok 0.
Proof.
  unfold echo_decode. intros H. inv_ok;
    match goal with H : checksum _ = Ok ?x |- _ => replace x with 0 in H by lia; exact H end.
Qed.
Lemma error_decode_sum bs q : error_decode bs = Ok q → @checksum IcmpPacketError bs = Ok 0.
Proof.
  unfold error_decode. intros H. inv_ok;
    match goal with H : checksum _ = Ok ?x |- _ => replace x with 0 in H by lia; exact H end.
Qed.

Lemma echo_decode_encode p : echo_ok p → ∃ bs, echo_encode p = Ok bs ∧ echo_decode bs = Ok p ∧ bytes_ok bs ∧ len bs = 8 + len (payload p).
Proof.
  intros Hp. destruct (echo_encode_eq p Hp) as (a & c & Ha & He & Hz). eexists. split; [exact He|].
  destruct Hp as (?&?&Hp&Hl). assert (u8 a) by (subst a; case_match; lia). split_and!.
  - unfold echo_decode. destruct (len _ <? 8) eqn:?; [lens|]. read. cbn [be app] in Hz. rewrite Hz.
    read. rewrite !of_be_2 by lia. seek. destruct p as [k ? ? ?]; subst a; cbn. by destruct k.
  - cbn [be app]. octets; first [apply byte_of_range | exact Hp].
  - lens.
Qed.
Lemma echo_decode_ok bs p : bytes_ok bs → len bs ≤ MAX_SUMMED → echo_decode bs = Ok p → echo_ok p ∧ 8 + len (payload p) = len bs.
Proof.
  intros Hb Hl H. unfold echo_decode in H. inv_ok; subst.
  all: match goal with H : slice_from _ 8 = _ |- _ => pose proof (slice_from_bytes_ok _ _ _ Hb H); apply slice_from_Ok_inv in H as [? ->] end.
  all: unfold echo_ok; cbn; split_wf; try ranges; lens.
Qed.

(** Echo and error messages, whose checksum covers the whole message, decode
    to what was encoded, and a message with one octet changed never decodes. *)
Theorem icmp_roundtrip :
  (∀ p, echo_ok p → ∃ bs, echo_encode p = Ok bs ∧ echo_decode bs = Ok p
     ∧ ∀ i b v q, bs !! i = Some b → u8 v → v ≠ b → echo_decode (<[i:=v]> bs) ≠ Ok q)
  ∧ (∀ p, error_ok p → ∃ bs, error_encode p = Ok bs ∧ error_decode bs = Ok p
     ∧ ∀ i b v q, bs !! i = Some b → u8 v → v ≠ b → error_decode (<[i:=v]> bs) ≠ Ok q).
Proof.
  split; intros p Hp.
  - destruct (echo_encode_eq p Hp) as (a & c & Ha & He & Hz). eexists. split; [exact He|].
    destruct (echo_decode_encode p Hp) as (bs & He' & Hdec & _). rewrite He in He'. injection He' as <-.
    destruct Hp as (?&?&Hp&Hl). assert (u8 a) by (subst a; case_match; lia).
    split; [exact Hdec|].
    { intros i b v q Hi Hv Hne Hd%echo_decode_sum.
      eapply (checksum_detects _ i b v); [| | exact Hz | done..].
      * cbn [be app]. octets; first [apply byte_of_range | exact Hp].
      * unfold MAX_SUMMED in *; lens. }
  - destruct (error_encode_eq p Hp) as (a & c & Ha & He & Hz). eexists. split; [exact He|].
    destruct Hp as (?&Hp&Hl). assert (u8 a) by (subst a; case_match; lia).
    split.
    + unfold error_decode. destruct (len _ <? 8) eqn:?; [lens|]. read.
      cbn [be app zeros replicate] in Hz. rewrite Hz.
      read. seek. destruct p as [k ? ?]; subst a; cbn. by destruct k.
    + intros i b v q Hi Hv Hne Hd%error_decode_sum.
      eapply (checksum_detects _ i b v); [| | exact Hz | done..].
      * cbn [be app zeros replicate]. octets; first [apply byte_of_range | exact Hp].
      * unfold MAX_SUMMED in *; lens.
Qed.
