(* ===== verification/Udp.v ===== *)
(** rios-protocol, UDP datagrams with and without the IPv4 checksum
    (src/crates/rios-protocol/src/udp.rs). *)
From S2P Require Import Prelude Wire Checksum.

Record UdpDatagram := { source_port : Z; destination_port : Z; payload : bytes }.
Inductive UdpPacketError := Truncated | BadChecksum | InvalidLength.

(** [udp.rs] has its own [checksum] over the pseudoheader. *)
Definition udp_checksum (source destination : Z) (bs : bytes) : res UdpPacketError Z :=
  checksum (be 4 source ++ be 4 destination ++ [0; 17] ++ be 2 (len bs `mod` 2 ^ 16) ++ bs).

Definition udp_encode (d : UdpDatagram) : res UdpPacketError bytes :=
  length ← ok_or (match checked_add U64_MAX 8 (len (payload d)) with
                  | Some length => if length <=? U16_MAX then Some length else None
                  | None => None
                  end) InvalidLength;
  let bs := zeros (Z.to_nat length) in
  bs ← put bs 0 (be 2 (source_port d));
  bs ← put bs 2 (be 2 (destination_port d));
  bs ← put bs 4 (be 2 length);
  put bs 8 (payload d).

Definition udp_encode_ipv4 (d : UdpDatagram) (source destination : Z) : res UdpPacketError bytes :=
  bs ← udp_encode d;
  sum ← udp_checksum source destination bs;
  put bs 6 (be 2 (if sum =? 0 then 0xffff else sum)).

Definition udp_decode (bs : bytes) : res UdpPacketError UdpDatagram :=
  if len bs <? 8 then Err Truncated
  else
    length ← u16_at bs 4;
    if (length <? 8) || (len bs <? length) then Err InvalidLength
    else
      source_port ← u16_at bs 0;
      destination_port ← u16_at bs 2;
      payload ← slice bs 8 (Z.to_nat length);
      Ok {| source_port := source_port; destination_port := destination_port; payload := payload |}.

Definition udp_decode_ipv4 (source destination : Z) (bs : bytes) : res UdpPacketError UdpDatagram :=
  datagram ← udp_decode bs;
  length ← u16_at bs 4;
  field ← slice bs 6 8;
  bad ← (if bool_decide (field = [0; 0]) then Ok false
         else
           covered ← slice bs 0 (Z.to_nat length);
           sum ← udp_checksum source destination covered;
           Ok (negb (sum =? 0)));
  if (bad : bool) then Err BadChecksum else Ok datagram.

(** ** Well-formed values *)

Definition udp_ok (d : UdpDatagram) : Prop :=
  u16 (source_port d) ∧ u16 (destination_port d) ∧ bytes_ok (payload d).

(** ** Helper lemmas *)

(** A datagram with a given checksum field. *)
Definition datagram (d : UdpDatagram) (sum : Z) : bytes :=
  be 2 (source_port d) ++ be 2 (destination_port d) ++ be 2 (8 + len (payload d)) ++ be 2 sum
  ++ payload d.
Lemma datagram_ok d c : udp_ok d → bytes_ok (datagram d c).
Proof. intros (_&_&?). unfold datagram. auto with bytes_ok. Qed.
Lemma datagram_len d c : len (datagram d c) = 8 + len (payload d).
Proof. unfold datagram. lens. Qed.

Lemma udp_encode_eq d :
  udp_encode d = if 65527 <? len (payload d) then Err InvalidLength else Ok (datagram d 0).
Proof.
  unfold udp_encode, checked_add, U64_MAX, U16_MAX. assert (0 ≤ len (payload d)) by lens.
  destruct (65527 <? len (payload d)) eqn:Hl.
  { destruct (_ <=? 18446744073709551615); [|done]. decide_ifs. done. }
  decide_ifs. cbn [ok_or]. rewrite bind_Ok.
  replace (Z.to_nat (8 + len (payload d))) with (8 + length (payload d))%nat by lens.
  puts. rewrite drop_ge, app_nil_r by lens. done.
Qed.

Lemma udp_encode_ipv4_refuses d s t :
  65527 < len (payload d) → udp_encode_ipv4 d s t = Err InvalidLength.
Proof. intros. unfold udp_encode_ipv4. rewrite udp_encode_eq. by decide_ifs. Qed.

Lemma udp_decode_eq d c pad :
  udp_ok d → len (payload d) ≤ 65527 → udp_decode (datagram d c ++ pad) = Ok d.
Proof.
  intros (?&?&?) Hl. unfold udp_decode, datagram. rewrite <-!app_assoc.
  destruct (len _ <? 8) eqn:?; [lens|]. cbn [be app] in *. read.
  rewrite !of_be_2 by lens. destruct (_ || _) eqn:?; [lens|].
  rewrite slice_ok by lens. read. destruct d; cbn in *. do 2 f_equal.
  replace (Z.to_nat (8 + len payload0) - 8)%nat with (length payload0) by lens.
  apply take_app_length.
Qed.

(** The pseudoheader of a datagram up to its checksum field. *)
Definition covered (s t : Z) (d : UdpDatagram) : bytes :=
  be 4 s ++ be 4 t ++ [0; 17] ++ be 2 ((8 + len (payload d)) `mod` 2 ^ 16)
  ++ be 2 (source_port d) ++ be 2 (destination_port d) ++ be 2 (8 + len (payload d)).
Lemma udp_checksum_field s t d c :
  udp_checksum s t (datagram d c) = checksum (covered s t d ++ be 2 c ++ payload d).
Proof. unfold udp_checksum. rewrite datagram_len. unfold covered, datagram. by rewrite <-!app_assoc. Qed.

Lemma udp_sum s t d :
  udp_ok d → len (payload d) ≤ 65527 →
  ∃ c c', udp_checksum s t (datagram d 0) = Ok c ∧ c' = (if c =? 0 then 0xffff else c)
    ∧ 1 ≤ c' ≤ 65535 ∧ udp_checksum s t (datagram d c') = Ok 0.
Proof.
  intros Hd Hl.
  assert (Hb : bytes_ok (covered s t d ++ [0; 0] ++ payload d)).
  { unfold covered. repeat apply bytes_ok_app; try apply bytes_ok_be; [octets..|apply Hd]. }
  assert (Hn : len (covered s t d ++ [0; 0] ++ payload d) ≤ MAX_SUMMED)
    by (unfold covered, MAX_SUMMED; lens).
  destruct (@checksum_spec UdpPacketError _ Hb Hn) as (c & Hc & Hr & _).
  exists c, (if c =? 0 then 0xffff else c).
  assert (Hz : udp_checksum s t (datagram d 0) = Ok c) by by rewrite udp_checksum_field.
  split; [exact Hz|]. split; [done|]. split; [destruct (Z.eqb_spec c 0); lia|].
  rewrite udp_checksum_field.
  apply (@checksum_insert_as UdpPacketError UdpPacketError (covered s t d) _ c); [done..|].
  destruct (Z.eqb_spec c 0); auto.
Qed.

Lemma datagram_fields {E} d c pad :
  len (payload d) ≤ 65527 →
  @u16_at E (datagram d c ++ pad) 4 = Ok (8 + len (payload d))
  ∧ @slice E Z (datagram d c ++ pad) 6 8 = Ok (be 2 c)
  ∧ @slice E Z (datagram d c ++ pad) 0 (Z.to_nat (8 + len (payload d))) = Ok (datagram d c).
Proof.
  intros Hl. pose proof (datagram_len d c) as Hn. split_and!.
  - unfold datagram. cbn [be app]. read. rewrite of_be_2; [done|lens].
  - rewrite slice_ok by lens. done.
  - rewrite slice_ok by lens. rewrite drop_0, Nat.sub_0_r, take_app_length'; [done|lens].
Qed.
Lemma be_2_nonzero c : 1 ≤ c ≤ 65535 → be 2 c ≠ [0; 0].
Proof. intros Hc H. pose proof (of_be_be_id 2 c) as Hi. rewrite H, of_be_two in Hi. lia. Qed.

Lemma udp_decode_safe bs : safe (udp_decode bs).
Proof. unfold udp_decode. solve_safe. Qed.

Lemma udp_decode_ok bs d : bytes_ok bs → udp_decode bs = Ok d → udp_ok d ∧ len (payload d) ≤ 65527.
Proof.
  intros Hb H. unfold udp_decode in H. inv_ok. split; [unfold udp_ok; cbn; split_wf; ranges|].
  match goal with H : slice bs 8 _ = _ |- _ => apply slice_Ok_inv in H as [_ ->] end.
  match goal with H : u16_at bs 4 = Ok ?x |- _ => pose proof (u16_at_u16 _ _ _ Hb H) end. cbn. lens.
Qed.

Lemma udp_decode_short bs d : udp_decode bs = Ok d → 8 + len (payload d) ≤ len bs.
Proof.
  intros H. unfold udp_decode in H. inv_ok.
  match goal with H : slice bs 8 _ = _ |- _ => apply slice_Ok_inv in H as [? ->] end. cbn. lens.
Qed.

(** A datagram of at most 65,527 payload octets survives both encodings, with
    trailing octets allowed; with the IPv4 checksum the field is never zero, so the
    receiver always verifies it; a longer payload is refused. *)
Theorem udp_roundtrip d s t pad :
  udp_ok d →
  (len (payload d) ≤ 65527 →
     (∃ bs, udp_encode d = Ok bs ∧ udp_decode (bs ++ pad) = Ok d)
     ∧ ∃ bs, udp_encode_ipv4 d s t = Ok bs ∧ udp_decode_ipv4 s t (bs ++ pad) = Ok d
         ∧ slice bs 6 8 ≠ @Ok UdpPacketError bytes [0; 0])
  ∧ (65527 < len (payload d) → udp_encode d = Err InvalidLength
       ∧ udp_encode_ipv4 d s t = Err InvalidLength).
Proof.
  intros Hd. split; intros Hl.
  - pose proof (udp_encode_eq d) as He. replace (65527 <? len (payload d)) with false in He by lia.
    split; [exists (datagram d 0); split; [done | by apply udp_decode_eq]|].
    destruct (udp_sum s t d Hd Hl) as (c & c' & Hc & Hc' & Hr & Hz).
    exists (datagram d c').
    destruct (@datagram_fields UdpPacketError d c' pad Hl) as (Hlen & Hfield & Hcov).
    split_and!.
    + unfold udp_encode_ipv4. rewrite He, bind_Ok, Hc, bind_Ok, <-Hc'. unfold datagram. by puts.
    + unfold udp_decode_ipv4. rewrite udp_decode_eq, bind_Ok, Hlen, bind_Ok, Hfield, bind_Ok by done.
      rewrite bool_decide_false by by apply be_2_nonzero. rewrite Hcov, bind_Ok, Hz, !bind_Ok. done.
    + rewrite slice_ok by (pose proof (datagram_len d c'); lens).
      intros H. apply (be_2_nonzero c' Hr).
      assert (Some (be 2 c') = Some [0; 0]) by exact (f_equal ok H). congruence.
  - rewrite udp_encode_ipv4_refuses, udp_encode_eq by done. by decide_ifs.
Qed.

Definition sample_datagram : UdpDatagram :=
  {| source_port := 53; destination_port := 1024; payload := [1; 2; 3] |}.
Lemma udp_roundtrip_witness :
  ∃ bs, udp_encode_ipv4 sample_datagram 167772161 167772162 = Ok bs
    ∧ udp_decode_ipv4 167772161 167772162 (bs ++ [0]) = Ok sample_datagram.
Proof.
  assert (Hd : udp_ok sample_datagram).
  { unfold udp_ok, bytes_ok. cbn. split_wf; try lia. repeat constructor; lia. }
  destruct (udp_roundtrip sample_datagram 167772161 167772162 [0] Hd) as [H _].
  destruct H as [_ (bs & He & Hdec & _)]; [vm_compute; intros [=]|]. by exists bs.
Defined.
