(* ===== verification/Ntp.v ===== *)
(** rios-protocol, NTP base packets and timestamps
    (src/crates/rios-protocol/src/ntp.rs). *)
From S2P Require Import Prelude Wire Text.

Inductive NtpError := mkNtpError.

(** An [NtpTimestamp] is its 64-bit value: 32 bits of seconds, 32 of fraction. *)
Abbreviation NtpTimestamp := Z.
Definition from_simulation (epoch_seconds elapsed_us : Z) : NtpTimestamp :=
  let seconds :=
    (((epoch_seconds + 2208988800) `mod` 2 ^ 64 + elapsed_us `div` 1000000) `mod` 2 ^ 64)
      `mod` 2 ^ 32 in
  let fraction := (Z.shiftl (elapsed_us `mod` 1000000) 32 `div` 1000000) `mod` 2 ^ 32 in
  Z.lor (Z.shiftl seconds 32) fraction.

Record NtpPacket := {
  leap : Z;
  version : Z;
  mode : Z;
  stratum : Z;
  poll : Z;
  precision : Z;
  root_delay : Z;
  root_dispersion : Z;
  reference_id : bytes;
  reference : NtpTimestamp;
  origin : NtpTimestamp;
  receive : NtpTimestamp;
  transmit : NtpTimestamp
}.

Definition ntp_request (transmit : NtpTimestamp) : NtpPacket :=
  {| leap := 0; version := 4; mode := 3; stratum := 0; poll := 6; precision := -20;
     root_delay := 0; root_dispersion := 0; reference_id := zeros 4; reference := 0;
     origin := 0; receive := 0; transmit := transmit |}.

(** [as u8] of an [i8], and [as i8] of a [u8]. *)
Definition i8_to_u8 (x : Z) : Z := x `mod` 256.
Definition u8_to_i8 (b : Z) : Z := if b <? 128 then b else b - 256.

Definition ntp_encode (p : NtpPacket) : res NtpError bytes :=
  if (3 <? leap p) || negb ((version p =? 3) || (version p =? 4)) || (7 <? mode p)
  then Err mkNtpError
  else
    let bs := zeros 48 in
    bs ← put bs 0 [Z.lor (Z.lor (Z.shiftl (leap p) 6) (Z.shiftl (version p) 3)) (mode p);
                   stratum p; i8_to_u8 (poll p); i8_to_u8 (precision p)];
    bs ← put bs 4 (be 4 (root_delay p));
    bs ← put bs 8 (be 4 (root_dispersion p));
    bs ← put bs 12 (reference_id p);
    bs ← put bs 16 (be 8 (reference p));
    bs ← put bs 24 (be 8 (origin p));
    bs ← put bs 32 (be 8 (receive p));
    put bs 40 (be 8 (transmit p)).

Definition ntp_decode (bs : bytes) : res NtpError NtpPacket :=
  if negb (len bs =? 48) then Err mkNtpError
  else
    b0 ← idx bs 0;
    let version := Z.land (Z.shiftr b0 3) 7 in
    if negb ((version =? 3) || (version =? 4)) then Err mkNtpError
    else
      stratum ← idx bs 1;
      poll ← idx bs 2;
      precision ← idx bs 3;
      root_delay ← slice bs 4 8;
      root_dispersion ← slice bs 8 12;
      reference_id ← slice bs 12 16;
      reference ← slice bs 16 24;
      origin ← slice bs 24 32;
      receive ← slice bs 32 40;
      transmit ← slice bs 40 48;
      Ok {| leap := Z.shiftr b0 6; version := version; mode := Z.land b0 7; stratum := stratum;
            poll := u8_to_i8 poll; precision := u8_to_i8 precision;
            root_delay := of_be root_delay; root_dispersion := of_be root_dispersion;
            reference_id := reference_id; reference := of_be reference; origin := of_be origin;
            receive := of_be receive; transmit := of_be transmit |}.

(** ** Well-formed values *)

(** The packets [encode] accepts, their fields in range. *)
Definition ntp_ok (p : NtpPacket) : Prop :=
  0 ≤ leap p ≤ 3 ∧ 3 ≤ version p ≤ 4 ∧ 0 ≤ mode p ≤ 7 ∧ u8 (stratum p)
  ∧ -128 ≤ poll p ≤ 127 ∧ -128 ≤ precision p ≤ 127 ∧ u32 (root_delay p)
  ∧ u32 (root_dispersion p) ∧ length (reference_id p) = 4%nat ∧ bytes_ok (reference_id p)
  ∧ u64 (reference p) ∧ u64 (origin p) ∧ u64 (receive p) ∧ u64 (transmit p).

(** ** Helper lemmas *)

Lemma i8_roundtrip x : -128 ≤ x ≤ 127 → u8_to_i8 (i8_to_u8 x) = x.
Proof.
  intros Hx. unfold u8_to_i8, i8_to_u8. destruct (Z.ltb_spec x 0).
  - rewrite <-(Z_mod_plus_full x 1), Z.mod_small by lia. destruct (Z.ltb_spec (x + 1 * 256) 128); lia.
  - rewrite Z.mod_small by lia. destruct (Z.ltb_spec x 128); lia.
Qed.
Lemma u8_roundtrip b : u8 b → i8_to_u8 (u8_to_i8 b) = b ∧ -128 ≤ u8_to_i8 b ≤ 127.
Proof.
  intros Hb. unfold u8_to_i8, i8_to_u8. destruct (Z.ltb_spec b 128).
  - rewrite Z.mod_small; lia.
  - rewrite <-(Z_mod_plus_full _ 1), Z.mod_small; lia.
Qed.

(** The first octet packs three fields; all its 256 values are checked. *)
Definition first_octet_ok (b : Z) : bool :=
  let v := Z.land (Z.shiftr b 3) 7 in
  (Z.lor (Z.lor (Z.shiftl (Z.shiftr b 6) 6) (Z.shiftl v 3)) (Z.land b 7) =? b)
  && (0 <=? Z.shiftr b 6) && (Z.shiftr b 6 <=? 3) && (0 <=? Z.land b 7) && (Z.land b 7 <=? 7).
Lemma first_octet b :
  u8 b →
  Z.lor (Z.lor (Z.shiftl (Z.shiftr b 6) 6) (Z.shiftl (Z.land (Z.shiftr b 3) 7) 3)) (Z.land b 7) = b
  ∧ 0 ≤ Z.shiftr b 6 ≤ 3 ∧ 0 ≤ Z.land b 7 ≤ 7.
Proof.
  intros Hb. assert (H : first_octet_ok b = true) by (apply all_bytes_spec; [by vm_compute | done]).
  unfold first_octet_ok in H. cbn zeta in H. lia.
Qed.
Definition packed_ok (l v m : Z) : bool :=
  let b := Z.lor (Z.lor (Z.shiftl l 6) (Z.shiftl v 3)) m in
  (Z.shiftr b 6 =? l) && (Z.land (Z.shiftr b 3) 7 =? v) && (Z.land b 7 =? m).
Lemma packed l v m :
  0 ≤ l ≤ 3 → 3 ≤ v ≤ 4 → 0 ≤ m ≤ 7 →
  let b := Z.lor (Z.lor (Z.shiftl l 6) (Z.shiftl v 3)) m in
  Z.shiftr b 6 = l ∧ Z.land (Z.shiftr b 3) 7 = v ∧ Z.land b 7 = m.
Proof.
  intros Hl Hv Hm.
  assert (H : forallb (λ l, forallb (λ v, forallb (packed_ok l v) [0;1;2;3;4;5;6;7]) [3; 4]) [0;1;2;3] = true)
    by by vm_compute.
  assert (packed_ok l v m = true) as Hp.
  { rewrite forallb_forall in H. specialize (H l ltac:(cbn; lia)). rewrite forallb_forall in H.
    specialize (H v ltac:(cbn; lia)). rewrite forallb_forall in H. apply H. cbn. lia. }
  unfold packed_ok in Hp. cbn zeta in *. lia.
Qed.

#[local] Opaque u8_to_i8 i8_to_u8.

Lemma ntp_encode_decode p : ntp_ok p → ∃ bs, ntp_encode p = Ok bs ∧ ntp_decode bs = Ok p.
Proof.
  destruct p as [l v m st po pr rd rp id r o rc t]; unfold ntp_ok; cbn -[byte_of of_be].
  intros (Hl&Hv&Hm&?&Hpo&Hpr&?&?&Hid&_&?&?&?&?). explode id 4%nat.
  destruct (packed l v m Hl Hv Hm) as (P1 & P2 & P3). cbn zeta in *.
  eexists. split.
  - unfold ntp_encode; cbn [leap version mode]. decide_ifs.
    replace (negb ((v =? 3) || (v =? 4))) with false by lia. cbn [orb]. crunch. reflexivity.
  - crunch. rewrite P1, P2, P3. 
    change (if v =? 3 then true else v =? 4) with ((v =? 3) || (v =? 4)).
    replace ((v =? 3) || (v =? 4)) with true by lia.
    rewrite !of_be_4, !of_be_8 by lia. cbn [negb]. 
    by rewrite (i8_roundtrip po Hpo), (i8_roundtrip pr Hpr).
Qed.

(** The NTP decoder is the exact inverse of the encoder. *)
Theorem ntp_codec bs p :
  bytes_ok bs → (ntp_decode bs = Ok p ↔ ntp_ok p ∧ ntp_encode p = Ok bs).
Proof.
  intros Hb. split.
  2:{ intros [Hp He]. destruct (ntp_encode_decode p Hp) as (bs' & He' & Hd). congruence. }
  intros Hd. assert (Hl : length bs = 48%nat).
  { unfold ntp_decode in Hd. inv_ok. lens. }
  explode bs 48%nat. split_octets Hb. crunch_in Hd. inv_ok.
  destruct (first_octet b) as (Hf & Hlp & Hmd); [done|].
  assert (Hver : Z.land (b ≫ 3) 7 = 3 ∨ Z.land (b ≫ 3) 7 = 4) by (fold_bools; lia).
  destruct (u8_roundtrip b1) as [E1 ?]; [done|]. destruct (u8_roundtrip b2) as [E2 ?]; [done|].
  split.
  - unfold ntp_ok; cbn -[of_be Z.land Z.shiftr u8_to_i8].
    split_wf; try assumption; try (apply u64_of_be || apply u32_of_be); try octets; try done; lia.
  - unfold ntp_encode; cbn [leap version mode].
    match goal with |- context [if ?c then _ else _] => replace c with false by lia end.
    crunch. rewrite E1, E2, Hf. by fields.
Qed.

(** Within one era the timestamp of a simulated instant keeps its whole
    microseconds: the seconds are Unix seconds plus the NTP epoch offset and the
    fraction is the largest 32-bit fraction not after the instant. *)
Theorem from_simulation_exact epoch us :
  0 ≤ epoch → 0 ≤ us → epoch + 2208988800 + us `div` 1000000 < 2 ^ 64 →
  ∃ f, u32 f
    ∧ from_simulation epoch us
      = ((epoch + 2208988800 + us `div` 1000000) `mod` 2 ^ 32) * 2 ^ 32 + f
    ∧ f * 1000000 ≤ (us `mod` 1000000) * 2 ^ 32 < (f + 1) * 1000000.
Proof.
  intros He Hu Hlt. unfold from_simulation.
  assert (0 ≤ us `div` 1000000) by (apply Z.div_pos; lia).
  pose proof (Z.mod_pos_bound us 1000000 ltac:(lia)) as Hm.
  rewrite (Z.mod_small (epoch + 2208988800) (2 ^ 64)) by lia.
  rewrite (Z.mod_small (epoch + 2208988800 + us `div` 1000000) (2 ^ 64)) by lia.
  rewrite (Z.shiftl_mul_pow2 (us `mod` 1000000)) by lia. set (n := (us `mod` 1000000) * 2 ^ 32).
  pose proof (Z.div_mod n 1000000 ltac:(lia)). pose proof (Z.mod_pos_bound n 1000000 ltac:(lia)).
  assert (0 ≤ n `div` 1000000 < 2 ^ 32) by (split; [apply Z.div_pos | apply Z.div_lt_upper_bound]; unfold n; lia).
  rewrite (Z.mod_small (n `div` 1000000)) by lia. exists (n `div` 1000000).
  split; [lia|]. split; [|lia]. by apply lor_shiftl.
Qed.

Lemma ntp_codec_witness :
  ∃ bs, ntp_encode (ntp_request 5) = Ok bs ∧ ntp_decode bs = Ok (ntp_request 5).
Proof.
  eexists. split; [vm_compute; reflexivity|]. apply ntp_codec.
  - apply (bool_decide_unpack _). vm_compute. exact I.
  - split; [|vm_compute; reflexivity]. unfold ntp_ok, bytes_ok; cbn. split_wf; try lia; try done.
    repeat constructor; lia.
Defined.
Lemma from_simulation_exact_witness :
  ∃ f, from_simulation 0 1500000 = 2208988801 * 2 ^ 32 + f ∧ f * 1000000 ≤ 500000 * 2 ^ 32.
Proof.
  destruct (from_simulation_exact 0 1500000) as (f & _ & H & H' & _); [lia..|vm_compute; done|].
  exists f. split; [exact H | exact H'].
Defined.
