(* ===== verification/TcpSegment.v ===== *)
(** rios-protocol, TCP segments with the IPv4 pseudoheader checksum
    (src/crates/rios-protocol/src/tcp.rs). *)
From S2P Require Import Prelude Wire Checksum.

(** [TcpFlags] is its octet. *)
Abbreviation TcpFlags := Z.
Definition FIN : TcpFlags := 1.
Definition SYN : TcpFlags := 2.
Definition RST : TcpFlags := 4.
Definition PSH : TcpFlags := 8.
Definition ACK : TcpFlags := 16.
Definition flags_contains (self flags : TcpFlags) : bool := Z.land self flags =? flags.
Definition flags_bitor (self other : TcpFlags) : TcpFlags := Z.lor self other.

Record TcpSegment := {
  source_port : Z;
  destination_port : Z;
  sequence : Z;
  acknowledgment : Z;
  flags : TcpFlags;
  window : Z;
  options : bytes;
  payload : bytes
}.
Inductive TcpPacketError := Truncated | InvalidLength | InvalidChecksum | UnsupportedHeader.

(** The [while] loop advances [offset] by at least one: [length options] rounds. *)
Fixpoint checked_options_from {E} (fuel : nat) (options : bytes) (offset : nat) : res E bool :=
  if (length options <=? offset)%nat then Ok true
  else match fuel with
       | O => Panic
       | S fuel =>
           kind ← idx options offset;
           if kind =? 0 then Ok true
           else if kind =? 1 then checked_options_from fuel options (offset + 1)
           else match options !! (offset + 1)%nat with
                | None => Ok false
                | Some size =>
                    if (size <? 2) || (length options <? offset + Z.to_nat size)%nat then Ok false
                    else checked_options_from fuel options (offset + Z.to_nat size)
                end
       end.
Definition checked_options {E} (options : bytes) : res E bool :=
  checked_options_from (length options) options 0.

Definition pseudoheader (source destination : Z) (bs : bytes) : res TcpPacketError bytes :=
  length ← or_err (ok_or (try_from U16_MAX (len bs)) tt) InvalidLength;
  Ok (be 4 source ++ be 4 destination ++ [0; 6] ++ be 2 length ++ bs).

Definition segment_encode (s : TcpSegment) (source destination : Z) : res TcpPacketError bytes :=
  valid ← (if (40 <? len (options s)) || negb (len (options s) `mod` 4 =? 0) then Ok false
           else checked_options (options s));
  if negb valid then Err InvalidLength
  else
    let header := 20 + len (options s) in
    length ← ok_or (match checked_add U64_MAX header (len (payload s)) with
                    | Some size => if size <=? 65515 then Some size else None
                    | None => None
                    end) InvalidLength;
    let bs := zeros (Z.to_nat length) in
    bs ← put bs 0 (be 2 (source_port s));
    bs ← put bs 2 (be 2 (destination_port s));
    bs ← put bs 4 (be 4 (sequence s));
    bs ← put bs 8 (be 4 (acknowledgment s));
    bs ← put bs 12 [Z.shiftl ((header `div` 4) `mod` 256) 4 `mod` 256];
    bs ← put bs 13 [flags s];
    bs ← put bs 14 (be 2 (window s));
    bs ← put bs 20 (options s);
    bs ← put bs (Z.to_nat header) (payload s);
    pseudo ← pseudoheader source destination bs;
    sum ← checksum pseudo;
    put bs 16 (be 2 sum).

Definition segment_decode (source destination : Z) (bs : bytes) : res TcpPacketError TcpSegment :=
  if len bs <? 20 then Err Truncated
  else
    b12 ← idx bs 12;
    let header := Z.shiftr b12 4 * 4 in
    valid ← (if (header <? 20) || (len bs <? header) || (65515 <? len bs) then Ok false
             else opts ← slice bs 20 (Z.to_nat header); checked_options opts);
    if negb valid then Err InvalidLength
    else
      urgent ← slice bs 18 20;
      if negb (Z.land b12 0x0f =? 0) || negb (bool_decide (urgent = [0; 0]))
      then Err UnsupportedHeader
      else
        pseudo ← pseudoheader source destination bs;
        sum ← checksum pseudo;
        if negb (sum =? 0) then Err InvalidChecksum
        else
          source_port ← u16_at bs 0;
          destination_port ← u16_at bs 2;
          sequence ← u32_at bs 4;
          acknowledgment ← u32_at bs 8;
          flags ← idx bs 13;
          window ← u16_at bs 14;
          options ← slice bs 20 (Z.to_nat header);
          payload ← slice_from bs (Z.to_nat header);
          Ok {| source_port := source_port; destination_port := destination_port;
                sequence := sequence; acknowledgment := acknowledgment; flags := flags;
                window := window; options := options; payload := payload |}.

(** Sequence space consumed; the additions are plain [u32] additions. *)
Definition sequence_len {E} (s : TcpSegment) : res E Z :=
  n ← arith U32_MAX (len (payload s) `mod` 2 ^ 32 + (if flags_contains (flags s) SYN then 1 else 0));
  arith U32_MAX (n + (if flags_contains (flags s) FIN then 1 else 0)).

(** ** Well-formed values *)

Definition segment_ok (s : TcpSegment) : Prop :=
  u16 (source_port s) ∧ u16 (destination_port s) ∧ u32 (sequence s) ∧ u32 (acknowledgment s)
  ∧ u8 (flags s) ∧ u16 (window s) ∧ bytes_ok (options s) ∧ bytes_ok (payload s).
(** The options and length [encode] accepts. *)
Definition sendable (s : TcpSegment) : Prop :=
  len (options s) ≤ 40 ∧ len (options s) `mod` 4 = 0
  ∧ @checked_options TcpPacketError (options s) = Ok true
  ∧ 20 + len (options s) + len (payload s) ≤ 65515.

(** ** Helper lemmas *)

Lemma checked_options_total {E} fuel opts offset :
  bytes_ok opts → (length opts - offset ≤ fuel)%nat →
  ∃ b, @checked_options_from E fuel opts offset = Ok b.
Proof.
  intros Hb. revert offset. induction fuel as [|fuel IH]; intros o Hf; cbn.
  - assert ((length opts <=? o)%nat = true) as -> by lia. eauto.
  - destruct (Nat.leb_spec (length opts) o); [eauto|].
    destruct (lookup_lt_is_Some_2 opts o) as [k Hk]; [lia|].
    unfold idx. rewrite Hk, bind_Ok. destruct (k =? 0); [eauto|].
    destruct (k =? 1); [apply IH; lia|]. destruct (opts !! (o + 1)%nat) as [z|]; [|eauto].
    destruct (_ || _) eqn:?; [eauto|]. apply IH. lia.
Qed.
Lemma checked_options_safe {E} opts : bytes_ok opts → safe (@checked_options E opts).
Proof.
  intros Hb. unfold checked_options. destruct (@checked_options_total E (length opts) opts 0) as [b ->];
    [done | lia | done].
Qed.

Definition data_offset (s : TcpSegment) : Z := (20 + len (options s)) * 4.
Lemma data_offset_eq s :
  sendable s →
  Z.shiftl (((20 + len (options s)) `div` 4) `mod` 256) 4 `mod` 256 = data_offset s
  ∧ Z.shiftr (data_offset s) 4 * 4 = 20 + len (options s) ∧ Z.land (data_offset s) 15 = 0
  ∧ u8 (data_offset s).
Proof.
  intros (Hl & Hm & _). assert (0 ≤ len (options s)) by lens. unfold data_offset.
  apply Z.mod_divide in Hm as [k Hk]; [|lia]. rewrite Hk in *.
  replace (20 + k * 4) with ((5 + k) * 4) by lia. rewrite Z.div_mul by lia.
  rewrite (Z.mod_small (5 + k)), Z.shiftl_mul_pow2, Z.shiftr_div_pow2 by lia.
  rewrite Z.mod_small by lia. change 15 with (Z.ones 4). rewrite Z.land_ones by lia.
  replace ((5 + k) * 4 * 4) with ((5 + k) * 2 ^ 4) by lia. rewrite Z.div_mul, Z.mod_mul by lia. lia.
Qed.

(** The segment with a given checksum field. *)
Definition segment (s : TcpSegment) (sum : Z) : bytes :=
  be 2 (source_port s) ++ be 2 (destination_port s) ++ be 4 (sequence s)
  ++ be 4 (acknowledgment s) ++ [data_offset s; flags s] ++ be 2 (window s) ++ be 2 sum
  ++ [0; 0] ++ options s ++ payload s.
Lemma segment_bytes s c : segment_ok s → sendable s → bytes_ok (segment s c).
Proof.
  intros (?&?&?&?&?&?&?&?) Hs. destruct (data_offset_eq s Hs) as (_&_&_&?). unfold segment.
  repeat apply bytes_ok_app; try apply bytes_ok_be; try assumption; octets.
Qed.
Lemma segment_length s c : len (segment s c) = 20 + len (options s) + len (payload s).
Proof. unfold segment. lens. Qed.

(** The pseudoheader and the segment up to the checksum field. *)
Definition covered (src dst : Z) (s : TcpSegment) : bytes :=
  be 4 src ++ be 4 dst ++ [0; 6] ++ be 2 (20 + len (options s) + len (payload s))
  ++ be 2 (source_port s) ++ be 2 (destination_port s) ++ be 4 (sequence s)
  ++ be 4 (acknowledgment s) ++ [data_offset s; flags s] ++ be 2 (window s).
Lemma pseudoheader_eq src dst bs :
  len bs ≤ 65535 →
  pseudoheader src dst bs = Ok ((be 4 src ++ be 4 dst ++ [0; 6] ++ be 2 (len bs)) ++ bs).
Proof. intros. unfold pseudoheader, try_from, U16_MAX. decide_ifs. cbn [ok_or or_err]. by rewrite bind_Ok, <-!app_assoc. Qed.
Lemma pseudo_segment src dst s c :
  sendable s →
  pseudoheader src dst (segment s c)
  = Ok (covered src dst s ++ be 2 c ++ [0; 0] ++ options s ++ payload s).
Proof.
  intros (_&_&_&Hl). rewrite pseudoheader_eq by (rewrite segment_length; lia).
  rewrite segment_length. unfold covered, segment. by rewrite <-!app_assoc.
Qed.
Lemma segment_sum src dst s :
  segment_ok s → sendable s →
  ∃ c, u16 c
    ∧ @checksum TcpPacketError (covered src dst s ++ be 2 0 ++ [0; 0] ++ options s ++ payload s) = Ok c
    ∧ @checksum TcpPacketError (covered src dst s ++ be 2 c ++ [0; 0] ++ options s ++ payload s) = Ok 0.
Proof.
  intros Hs Hl. pose proof Hs as (?&?&?&?&?&?&?&?). destruct (data_offset_eq s Hl) as (_&_&_&?).
  assert (Hb : bytes_ok (covered src dst s ++ [0; 0] ++ [0; 0] ++ options s ++ payload s)).
  { unfold covered. repeat apply bytes_ok_app; try apply bytes_ok_be; try assumption; octets. }
  assert (Hn : len (covered src dst s ++ [0; 0] ++ [0; 0] ++ options s ++ payload s) ≤ MAX_SUMMED).
  { destruct Hl as (_&_&_&Hl). unfold covered, MAX_SUMMED. lens. }
  destruct (@checksum_spec TcpPacketError _ Hb Hn) as (c & Hc & Hr & _). exists c.
  split; [done|]. split; [exact Hc|].
  exact (checksum_insert (covered src dst s) _ c Hb Hn eq_refl Hc).
Qed.

Lemma segment_encode_eq src dst s :
  segment_ok s → sendable s →
  ∃ c, segment_encode s src dst = Ok (segment s c)
    ∧ @checksum TcpPacketError (covered src dst s ++ be 2 c ++ [0; 0] ++ options s ++ payload s) = Ok 0.
Proof.
  intros Hs Hl. destruct (segment_sum src dst s Hs Hl) as (c & Hr & Hc & Hz). exists c.
  split; [|exact Hz]. pose proof (pseudo_segment src dst s 0 Hl) as Hp.
  destruct (data_offset_eq s Hl) as (Ho & _). pose proof Hl as (H40 & Hm & Hopt & Hlen).
  assert (0 ≤ len (options s)) by lens. assert (0 ≤ len (payload s)) by lens.
  unfold segment_encode, checked_add, U64_MAX. rewrite Hm. decide_ifs. rewrite Hopt, bind_Ok. cbn [negb].
  cbn zeta. decide_ifs. cbn [ok_or]. rewrite bind_Ok, Ho.
  replace (Z.to_nat (20 + len (options s) + len (payload s)))
    with (20 + (length (options s) + length (payload s)))%nat by lens.
  replace (Z.to_nat (20 + len (options s))) with (20 + length (options s))%nat by lens.
  puts. rewrite take_app_length, (drop_ge _ (length (options s) + length (payload s))) by lens.
  rewrite app_nil_r. unfold segment in Hp. cbn [be app] in Hp. const_bytes. rewrite Hp, bind_Ok.
  cbn [be app] in Hc. const_bytes. rewrite Hc. by puts.
Qed.

(** The accessors of [decode] on an encoded segment. *)
Lemma segment_fields {E} s c :
  segment_ok s →
  @idx E Z (segment s c) 12 = Ok (data_offset s)
  ∧ @slice E Z (segment s c) 18 20 = Ok [0; 0]
  ∧ @u16_at E (segment s c) 0 = Ok (source_port s)
  ∧ @u16_at E (segment s c) 2 = Ok (destination_port s)
  ∧ @u32_at E (segment s c) 4 = Ok (sequence s)
  ∧ @u32_at E (segment s c) 8 = Ok (acknowledgment s)
  ∧ @idx E Z (segment s c) 13 = Ok (flags s)
  ∧ @u16_at E (segment s c) 14 = Ok (window s)
  ∧ @slice E Z (segment s c) 20 (Z.to_nat (20 + len (options s))) = Ok (options s)
  ∧ @slice_from E Z (segment s c) (Z.to_nat (20 + len (options s))) = Ok (payload s).
Proof.
  intros (?&?&?&?&?&?&?&?). pose proof (segment_length s c) as Hn.
  assert (Hpre : ∃ pre, segment s c = pre ++ options s ++ payload s ∧ length pre = 20%nat).
  { exists (take 20 (segment s c)). split; [|done]. done. }
  split_and!.
  9-10: destruct Hpre as (pre & -> & Hpre);
    replace (Z.to_nat (20 + len (options s))) with (length pre + length (options s))%nat by lens.
  9: rewrite slice_ok by lens; rewrite drop_app_length' by lia;
     replace (_ - _)%nat with (length (options s)) by lia; by rewrite take_app_length.
  9: rewrite slice_from_ok, app_assoc by lens; rewrite drop_app_length'; [done|lens].
  2: rewrite slice_ok by lens; done.
  all: clear Hpre; unfold segment; cbn [be app]; read; by rewrite ?of_be_2, ?of_be_4 by lia.
Qed.

Lemma segment_decode_eq src dst s c :
  segment_ok s → sendable s →
  @checksum TcpPacketError (covered src dst s ++ be 2 c ++ [0; 0] ++ options s ++ payload s) = Ok 0 →
  segment_decode src dst (segment s c) = Ok s.
Proof.
  intros Hs Hl Hz. pose proof (pseudo_segment src dst s c Hl) as Hp.
  destruct (data_offset_eq s Hl) as (_ & Ho & Hlow & _). pose proof Hl as (H40 & Hm & Hopt & Hlen).
  destruct (@segment_fields TcpPacketError s c Hs) as (F1&F2&F3&F4&F5&F6&F7&F8&F9&F10).
  unfold segment_decode. assert (0 ≤ len (payload s)) by lens. assert (0 ≤ len (options s)) by lens.
  rewrite segment_length. decide_ifs. rewrite F1, bind_Ok, Ho. cbn zeta. decide_ifs.
  rewrite F9, bind_Ok, Hopt, bind_Ok. cbn [negb]. rewrite F2, bind_Ok, Hlow.
  rewrite bool_decide_true by done. cbn [negb orb Z.eqb]. rewrite Hp, bind_Ok, Hz, bind_Ok.
  cbn [negb Z.eqb]. rewrite F3, bind_Ok, F4, bind_Ok, F5, bind_Ok, F6, bind_Ok, F7, bind_Ok.
  rewrite F8, bind_Ok, bind_Ok, F10, bind_Ok. by destruct s.
Qed.

Lemma segment_decode_sum src dst bs s :
  segment_decode src dst bs = Ok s →
  len bs ≤ 65515 ∧ ∃ pseudo, pseudoheader src dst bs = Ok pseudo ∧ @checksum TcpPacketError pseudo = Ok 0.
Proof.
  unfold segment_decode. intros H. inv_ok.
  match goal with H : checksum _ = Ok ?x |- _ => replace x with 0 in H by lia end.
  split; [|eauto]. repeat match goal with H : (if ?c then Ok false else _) = Ok _ |- _ => destruct c eqn:? end; inv_ok; try done; lia.
Qed.

Lemma segment_decode_ok src dst bs s :
  bytes_ok bs → segment_decode src dst bs = Ok s →
  segment_ok s ∧ sendable s ∧ 20 + len (options s) + len (payload s) = len bs.
Proof.
  intros Hb H. pose proof (segment_decode_sum _ _ _ _ H) as [Hn _].
  unfold segment_decode in H. inv_ok; subst. split; [unfold segment_ok; cbn; split_wf; ranges|].
  assert (Hu : u8 x) by (by eapply idx_u8). pose proof (Z.shiftr_div_pow2 x 4 ltac:(lia)) as Hs.
  assert (Hq : 0 ≤ x ≫ 4 ≤ 15) by (rewrite Hs; split; [apply Z.div_pos; lia|apply Z.lt_succ_r, Z.div_lt_upper_bound; lia]).
  rewrite Hx12 in Hx10. apply Ok_inj in Hx10. subst x12.
  apply slice_Ok_inv in Hx12 as [Hr Ho]. apply slice_from_Ok_inv in Hx11 as [Hr' Hp].
  assert (Hlen : len x10 = x ≫ 4 * 4 - 20) by (rewrite Ho; lens).
  assert (Hpl : len x11 = len bs - x ≫ 4 * 4) by (rewrite Hp; lens).
  unfold sendable. cbn [options payload]. rewrite Hlen, Hpl. split; [|lia]. split_and!; [lia| | |lia].
  - replace (x ≫ 4 * 4 - 20) with ((x ≫ 4 - 5) * 4) by lia. by apply Z.mod_mul.
  - destruct x0; [exact Hx0|done].
Qed.
Lemma sequence_len_safe {E} s : len (payload s) ≤ 65515 → safe (@sequence_len E s).
Proof.
  intros Hl. unfold sequence_len, U32_MAX. assert (0 ≤ len (payload s)) by lens.
  rewrite (Z.mod_small (len (payload s))) by lia.
  rewrite arith_Ok by (case_match; lia). rewrite bind_Ok.
  apply safe_arith. repeat case_match; lia.
Qed.

(** A segment the encoder accepts decodes to itself under the same two
    addresses, and a segment with one octet changed in transit never decodes. *)
Theorem segment_roundtrip s src dst :
  segment_ok s → sendable s →
  ∃ bs, segment_encode s src dst = Ok bs ∧ segment_decode src dst bs = Ok s
    ∧ ∀ i b v q, bs !! i = Some b → u8 v → v ≠ b → segment_decode src dst (<[i:=v]> bs) ≠ Ok q.
Proof.
  intros Hs Hl. destruct (segment_encode_eq src dst s Hs Hl) as (c & He & Hz).
  exists (segment s c). split; [done|]. split; [by apply segment_decode_eq|].
  intros i b v q Hi Hv Hne (Hn & ps & Hp & Hc)%segment_decode_sum.
  pose proof (segment_bytes s c Hs Hl) as Hb.
  rewrite pseudoheader_eq in Hp by lia. apply (f_equal ok) in Hp. cbn [ok] in Hp.
  assert (Hlen : len (<[i:=v]> (segment s c)) = len (segment s c))
    by (unfold len; by rewrite length_insert).
  set (h := be 4 src ++ be 4 dst ++ [0; 6] ++ be 2 (len (segment s c))).
  assert (ps = <[(12 + i)%nat:=v]> (h ++ segment s c)) as ->.
  { rewrite insert_app_r_alt by (cbn; lia). replace (12 + i - length h)%nat with i by (cbn; lia).
    rewrite Hlen in Hp. fold h in Hp. congruence. }
  assert (Hz' : @checksum TcpPacketError (h ++ segment s c) = Ok 0).
  { pose proof (pseudo_segment src dst s c Hl) as Hp'. rewrite pseudoheader_eq in Hp' by lia.
    apply (f_equal ok) in Hp'. cbn [ok] in Hp'. fold h in Hp'.
    assert (h ++ segment s c = covered src dst s ++ be 2 c ++ [0; 0] ++ options s ++ payload s)
      as -> by congruence. done. }
  eapply (checksum_detects (h ++ segment s c) (12 + i) b v); try done.
  - apply bytes_ok_app; [|done]. unfold h. repeat apply bytes_ok_app; try apply bytes_ok_be; octets.
  - unfold h, MAX_SUMMED. lens.
Qed.

(** On any octets the decoder returns a value or an error, in particular the
    loop over the options ends, and what it returns is well formed. *)
Theorem segment_decode_total src dst bs :
  bytes_ok bs →
  safe (segment_decode src dst bs)
  ∧ ∀ s, segment_decode src dst bs = Ok s → segment_ok s ∧ safe (@sequence_len TcpPacketError s).
Proof.
  intros Hb. split.
  - unfold segment_decode. apply safe_if; [done|]. intros Hl.
    apply safe_bind; [solve_safe|]. intros b12 H12.
    apply safe_bind.
    { apply safe_if; [done|]. intros ?. apply safe_bind; [solve_safe|].
      intros o [_ ->]%slice_Ok_inv. apply checked_options_safe. auto with bytes_ok. }
    intros valid Hv. apply safe_if; [done|]. intros Hv'.
    apply safe_bind; [solve_safe|]. intros u _. apply safe_if; [done|]. intros _.
    destruct valid; [|done]. destruct (_ || _) eqn:Hhead in Hv; [done|].
    rewrite pseudoheader_eq by lia. rewrite bind_Ok.
    apply safe_bind; [apply checksum_safe|].
    + apply bytes_ok_app; [|done]. repeat apply bytes_ok_app; try apply bytes_ok_be; octets.
    + unfold MAX_SUMMED. lens.
    + intros sum _. apply safe_if; [done|]. intros _. solve_safe.
  - intros s H. pose proof (segment_decode_sum _ _ _ _ H) as [Hn _].
    unfold segment_decode in H. inv_ok; subst. split.
    + unfold segment_ok; cbn; split_wf; ranges.
    + apply sequence_len_safe. cbn [payload].
      match goal with H : slice_from bs _ = _ |- _ => apply slice_from_Ok_inv in H as [_ ->] end. lens.
Qed.

Definition sample_segment : TcpSegment :=
  {| source_port := 179; destination_port := 40000; sequence := 7; acknowledgment := 9;
     flags := flags_bitor SYN ACK; window := 4096; options := [2; 4; 5; 180]; payload := [1] |}.
Lemma segment_roundtrip_witness :
  ∃ bs, segment_encode sample_segment 167772161 167772162 = Ok bs
    ∧ segment_decode 167772161 167772162 bs = Ok sample_segment.
Proof.
  destruct (segment_roundtrip sample_segment 167772161 167772162) as (bs & He & Hd & _).
  - unfold segment_ok; cbn; split_wf; solve [lia | octets | vm_compute; split; congruence].
  - unfold sendable. split_and!; vm_compute; congruence.
  - by exists bs.
Defined.
Lemma segment_decode_total_witness :
  segment_decode 1 2 [0; 1; 0; 2; 0; 0; 0; 0; 0; 0; 0; 0; 96; 2; 16; 0; 0; 0; 0; 0; 3; 9; 0; 0]
    = Err InvalidLength
  ∧ safe (segment_decode 1 2 [0; 1; 0; 2; 0; 0; 0; 0; 0; 0; 0; 0; 96; 2; 16; 0; 0; 0; 0; 0; 3; 9; 0; 0]).
Proof.
  split; [vm_compute; reflexivity|]. apply segment_decode_total.
  apply (bool_decide_unpack _). vm_compute. exact I.
Defined.
