(* ===== verification/TcpConnection.v ===== *)
(** TCP connections (the [TcpConnection] of
    src/crates/rios-device/src/tcp.rs): the segments an endpoint builds, the
    state machine that consumes them, the part of each application call that
    works on one connection, and retransmission.

    [stream_integrity] composes two endpoints over a network that loses,
    duplicates, delays and reorders segments: what one application has read,
    with what waits to be read, is always a prefix of what the other has
    written, and the end of the stream is only signalled after all of it.
    [tcp_handshake] and [write_delivered] are its liveness side on a
    network that delivers; [retransmission_gives_up] bounds the timer.

    Sequence numbers wrap modulo [2^32]; a subtraction or addition that could
    overflow is an [arith], so that [Panic] is what Rust would do. *)
From S2P Require Import Prelude Wire EventQueue Ipv4 TcpSegment.

Definition MAX_CONNECTIONS : Z := 1024.
Definition RECEIVE_LIMIT : Z := 65535.
Definition MAX_PAYLOAD : Z := 1200.
Definition IDLE_US : Z := 300000000.
Definition TIME_WAIT_US : Z := 120000000.

Record TcpSocket := { local_address : Ipv4Addr; local_port : Z; remote_address : Ipv4Addr; remote_port : Z }.
#[export] Instance TcpSocket_eq_dec : EqDecision TcpSocket.
Proof. solve_decision. Defined.
#[export] Instance TcpSocket_countable : Countable TcpSocket.
Proof.
  refine (inj_countable' (λ s, (local_address s, local_port s, remote_address s, remote_port s))
            (λ '(a, b, c, d), {| local_address := a; local_port := b; remote_address := c; remote_port := d |}) _).
  by intros [].
Defined.

Inductive TcpState :=
| Closed | SynSent | SynReceived | Established | FinWait | CloseWait | LastAck | TimeWait.
#[export] Instance TcpState_eq_dec : EqDecision TcpState.
Proof. solve_decision. Defined.

Inductive TcpError :=
| Packet (e : TcpPacketError) | Missing | State | Busy | Capacity | Endpoint.

#[export] Instance TcpSegment_eq_dec : EqDecision TcpSegment.
Proof. solve_decision. Defined.

Record Outstanding := { pending_segment : TcpSegment; deadline : SimTime; retries : Z }.
#[export] Instance Outstanding_eta : Eta Outstanding := λ o,
  {| pending_segment := pending_segment o; deadline := deadline o; retries := retries o |}.
#[export] Instance Outstanding_eq_dec : EqDecision Outstanding.
Proof. solve_decision. Defined.

Record TcpConnection := {
  state : TcpState;
  retransmissions : Z;
  send_next : Z;
  receive_next : Z;
  peer_window : Z;
  received : bytes;
  outstanding : option Outstanding;
  last_activity : SimTime;
  idle_timeout_us : option Z;
  time_wait_until : option SimTime;
  peer_closed : bool;
  passive : bool
}.
#[export] Instance TcpConnection_eta : Eta TcpConnection := λ c,
  {| state := state c; retransmissions := retransmissions c; send_next := send_next c;
     receive_next := receive_next c; peer_window := peer_window c; received := received c;
     outstanding := outstanding c; last_activity := last_activity c;
     idle_timeout_us := idle_timeout_us c; time_wait_until := time_wait_until c;
     peer_closed := peer_closed c; passive := passive c |}.
#[export] Instance TcpConnection_eq_dec : EqDecision TcpConnection.
Proof. solve_decision. Defined.

Definition is_passive (c : TcpConnection) : bool := passive c.
Definition received_len (c : TcpConnection) : Z := len (received c).

(** [matches!(self.state, Established | CloseWait)]. *)
Definition can_write (c : TcpConnection) : bool :=
  match state c with Established | CloseWait => true | _ => false end.
Definition send_capacity (c : TcpConnection) : Z :=
  if negb (can_write c) || bool_decide (is_Some (outstanding c)) then 0
  else Z.min MAX_PAYLOAD (peer_window c).

Definition connection_new (sequence : Z) (now : SimTime) : TcpConnection :=
  {| state := Closed; retransmissions := 0; send_next := sequence; receive_next := 0;
     peer_window := 65535; received := []; outstanding := None; last_activity := now;
     idle_timeout_us := Some IDLE_US; time_wait_until := None; peer_closed := false;
     passive := false |}.

Section connection.
Context {E : Type}.
Implicit Type c : TcpConnection.

Definition segment c (socket : TcpSocket) (flags : TcpFlags) (payload : bytes) : res E TcpSegment :=
  room ← arith U64_MAX (RECEIVE_LIMIT - len (received c));
  Ok {| source_port := local_port socket; destination_port := remote_port socket;
        sequence := send_next c; acknowledgment := receive_next c; flags := flags;
        window := room `mod` 65536; options := []; payload := payload |}.

Definition send c (socket : TcpSocket) (flags : TcpFlags) (payload : bytes) (now : SimTime)
  : res E (TcpConnection * TcpSegment) :=
  seg ← segment c socket flags payload;
  n ← sequence_len seg;
  let c := c <| send_next := wrapping_add32 (send_next c) n |> in
  let c := if negb (n =? 0)
           then c <| outstanding := Some {| pending_segment := seg;
                                            deadline := sat_add U64_MAX now 1000000;
                                            retries := 0 |} |>
           else c in
  Ok (c <| last_activity := now |>, seg).

Definition enter_time_wait c (now : SimTime) : TcpConnection :=
  c <| state := TimeWait |> <| time_wait_until := Some (sat_add U64_MAX now TIME_WAIT_US) |>.

(** A pure acknowledgment built from the connection as it is left. *)
Definition acknowledge c (socket : TcpSocket) : res E (TcpConnection * option TcpSegment) :=
  reply ← segment c socket ACK []; Ok (c, Some reply).

(** [receive] on a reset. *)
Definition receive_reset c (seg : TcpSegment) : TcpConnection :=
  let valid :=
    if bool_decide (state c = SynSent)
    then flags_contains (flags seg) ACK && (acknowledgment seg =? send_next c)
    else sequence seg =? receive_next c in
  if valid then c <| state := Closed |> <| outstanding := None |> else c.

(** [receive] in [TimeWait]. *)
Definition receive_time_wait c (socket : TcpSocket) (seg : TcpSegment) (now : SimTime)
  : res E (TcpConnection * option TcpSegment) :=
  n ← sequence_len seg;
  let c := if flags_contains (flags seg) FIN && (wrapping_add32 (sequence seg) n =? receive_next c)
           then enter_time_wait c now else c in
  if negb (n =? 0) then acknowledge c socket else Ok (c, None).

(** [receive] in [SynSent]. *)
Definition receive_syn_sent c (socket : TcpSocket) (seg : TcpSegment) (now : SimTime)
  : res E (TcpConnection * option TcpSegment) :=
  if flags_contains (flags seg) (flags_bitor SYN ACK) && (acknowledgment seg =? send_next c)
  then acknowledge (c <| receive_next := wrapping_add32 (sequence seg) 1 |>
                      <| peer_window := window seg |> <| outstanding := None |>
                      <| state := Established |> <| last_activity := now |>) socket
  else Ok (c, None).

(** The rest of [receive] once an in-order segment has been acknowledged. *)
Definition receive_data c (socket : TcpSocket) (seg : TcpSegment) (now : SimTime)
  : res E (TcpConnection * option TcpSegment) :=
  let c := c <| last_activity := now |> <| peer_window := window seg |> in
  if peer_closed c then Ok (c, None)
  else if RECEIVE_LIMIT <? sat_add U64_MAX (len (received c)) (len (payload seg)) then acknowledge c socket
  else
    let c := c <| receive_next := wrapping_add32 (receive_next c) (len (payload seg) `mod` 4294967296) |> in
    let data := negb (len (payload seg) =? 0) in
    let c := c <| received := received c ++ payload seg |> in
    let fin := flags_contains (flags seg) FIN in
    let c :=
      if fin
      then
        let c := c <| receive_next := wrapping_add32 (receive_next c) 1 |> <| peer_closed := true |> in
        if bool_decide (state c = FinWait)
        then if bool_decide (outstanding c = None) then enter_time_wait c now else c
        else c <| state := CloseWait |>
      else c in
    if data || fin then acknowledge c socket else Ok (c, None).

(** [receive] for an in-order segment that acknowledges something. *)
Definition receive_ack c (socket : TcpSocket) (seg : TcpSegment) (now : SimTime)
  : res E (TcpConnection * option TcpSegment) :=
  if acknowledgment seg =? send_next c
  then
    let c := c <| outstanding := None |> in
    let c := if bool_decide (state c = SynReceived) then c <| state := Established |> else c in
    if bool_decide (state c = LastAck) then Ok (c <| state := Closed |>, None)
    else
      let c := if bool_decide (state c = FinWait) && peer_closed c then enter_time_wait c now else c in
      receive_data c socket seg now
  else if bool_decide (state c = SynReceived) then Ok (c, None)
  else receive_data c socket seg now.

Definition receive c (socket : TcpSocket) (seg : TcpSegment) (now : SimTime)
  : res E (TcpConnection * option TcpSegment) :=
  if bool_decide (state c = Closed) then Ok (c, None)
  else if flags_contains (flags seg) RST then Ok (receive_reset c seg, None)
  else if bool_decide (state c = TimeWait) then receive_time_wait c socket seg now
  else if bool_decide (state c = SynSent) then receive_syn_sent c socket seg now
  else if bool_decide (state c = SynReceived) && flags_contains (flags seg) SYN
          && (wrapping_add32 (sequence seg) 1 =? receive_next c)
  then Ok (c, pending_segment <$> outstanding c)
  else if negb (sequence seg =? receive_next c) then acknowledge c socket
  else if negb (flags_contains (flags seg) ACK) then Ok (c, None)
  else receive_ack c socket seg now.
End connection.

(** ** The application calls on one connection *)

Section calls.
Implicit Type c : TcpConnection.

(** [tcp_connect] and the passive side of [receive_tcp] after their checks. *)
Definition open_active (isn : Z) (socket : TcpSocket) (now : SimTime)
  : res TcpError (TcpConnection * TcpSegment) :=
  send (connection_new isn now <| state := SynSent |>) socket SYN [] now.
Definition open_passive {E} (isn : Z) (socket : TcpSocket) (seg : TcpSegment) (now : SimTime)
  : res E (TcpConnection * TcpSegment) :=
  send (connection_new isn now <| state := SynReceived |> <| passive := true |>
          <| receive_next := wrapping_add32 (sequence seg) 1 |> <| peer_window := window seg |>)
       socket (flags_bitor SYN ACK) [] now.

(** [tcp_send] once the connection is found and the payload has a legal size. *)
Definition connection_write c (socket : TcpSocket) (payload : bytes) (now : SimTime)
  : res TcpError (TcpConnection * TcpSegment) :=
  if negb (can_write c) then Err State
  else if bool_decide (is_Some (outstanding c)) || (peer_window c <? len payload) then Err Busy
  else send c socket (flags_bitor ACK PSH) payload now.

(** [tcp_close]. *)
Definition connection_close c (socket : TcpSocket) (now : SimTime)
  : res TcpError (TcpConnection * TcpSegment) :=
  if bool_decide (is_Some (outstanding c)) then Err Busy
  else
    next ← match state c with
           | Established => Ok FinWait
           | CloseWait => Ok LastAck
           | _ => Err State
           end;
    send (c <| state := next |>) socket (flags_bitor ACK FIN) [] now.

(** [tcp_read]: the bytes, and the window update. *)
Definition connection_read c (socket : TcpSocket)
  : res TcpError (TcpConnection * bytes * TcpSegment) :=
  let data := received c in
  let c := c <| received := [] |> in
  update ← segment c socket ACK [];
  Ok (c, data, update).

(** [tcp_tick]: whether [retain] keeps the connection, and the retransmission. *)
Definition retained c (now : SimTime) : bool :=
  negb (bool_decide (state c = Closed))
  && match idle_timeout_us c with
     | None => true
     | Some timeout => sat_sub now (last_activity c) <? timeout
     end
  && match time_wait_until c with None => true | Some deadline => now <? deadline end.

Definition retransmit {E} c (now : SimTime) : res E (TcpConnection * option TcpSegment) :=
  match outstanding c with
  | Some pending =>
      if now <? deadline pending then Ok (c, None)
      else if 5 <=? retries pending then Ok (c <| state := Closed |>, None)
      else
        retries' ← arith U8_MAX (retries pending + 1);
        let pending := pending <| retries := retries' |>
          <| deadline := sat_add U64_MAX now (Z.shiftl 1000000 retries') |> in
        n ← arith U64_MAX (retransmissions c + 1);
        Ok (c <| outstanding := Some pending |> <| retransmissions := n |>, Some (pending_segment pending))
  | None => Ok (c, None)
  end.
End calls.

(** ** Well-formed connections *)

Definition b2z (b : bool) : Z := if b then 1 else 0.

(** A segment this program transmits: no options and a bounded payload. *)
Definition outgoing_ok (s : TcpSegment) : Prop :=
  segment_ok s ∧ options s = [] ∧ len (payload s) ≤ MAX_PAYLOAD.
Definition pending_ok (o : Outstanding) : Prop :=
  outgoing_ok (pending_segment o) ∧ 0 ≤ retries o ≤ 5.
Definition connection_ok (c : TcpConnection) : Prop :=
  u32 (send_next c) ∧ u32 (receive_next c) ∧ u16 (peer_window c)
  ∧ bytes_ok (received c) ∧ len (received c) ≤ RECEIVE_LIMIT
  ∧ u64 (retransmissions c) ∧ (∀ o, outstanding c = Some o → pending_ok o).
Definition socket_ok (s : TcpSocket) : Prop :=
  u32 (local_address s) ∧ u16 (local_port s) ∧ u32 (remote_address s) ∧ u16 (remote_port s).
(** What [TcpSegment::decode] returns. *)
Definition incoming_ok (s : TcpSegment) : Prop := segment_ok s ∧ len (payload s) ≤ 65515.

(** ** Helper lemmas: building segments *)

Lemma wrapping_u32 a b : u32 (wrapping_add32 a b).
Proof. unfold wrapping_add32. pose proof (Z.mod_pos_bound (a + b) 4294967296). lia. Qed.
#[export] Hint Resolve wrapping_u32 : core.

(** The segment [segment] builds when the buffer is within its limit. *)
Definition built (c : TcpConnection) (socket : TcpSocket) (flags : TcpFlags) (payload : bytes) : TcpSegment :=
  {| source_port := local_port socket; destination_port := remote_port socket;
     sequence := send_next c; acknowledgment := receive_next c; flags := flags;
     window := RECEIVE_LIMIT - len (received c); options := []; payload := payload |}.

Lemma segment_built {E} c socket f p :
  len (received c) ≤ RECEIVE_LIMIT → @segment E c socket f p = Ok (built c socket f p).
Proof.
  intros Hl. unfold segment, RECEIVE_LIMIT, U64_MAX, built in *. assert (0 ≤ len (received c)) by lens.
  rewrite arith_Ok by lia. rewrite bind_Ok, Z.mod_small by lia. done.
Qed.
Lemma built_ok c socket f p :
  connection_ok c → socket_ok socket → u8 f → bytes_ok p → len p ≤ MAX_PAYLOAD →
  outgoing_ok (built c socket f p).
Proof.
  intros (?&?&?&?&?&?&?) (?&?&?&?) ???. unfold outgoing_ok, segment_ok, built, RECEIVE_LIMIT in *. cbn.
  assert (0 ≤ len (received c)) by lens. split_wf; try (done || lia). by constructor.
Qed.

(** The sequence space of a segment. *)
Definition seq_len (s : TcpSegment) : Z :=
  len (payload s) + b2z (flags_contains (flags s) SYN) + b2z (flags_contains (flags s) FIN).
Lemma sequence_len_eq {E} s : len (payload s) ≤ 65515 → @sequence_len E s = Ok (seq_len s).
Proof.
  intros Hl. unfold sequence_len, U32_MAX, seq_len, b2z. assert (0 ≤ len (payload s)) by lens.
  rewrite (Z.mod_small (len (payload s))) by lia. rewrite arith_Ok by (case_match; lia). rewrite bind_Ok.
  rewrite arith_Ok by (repeat case_match; lia). done.
Qed.
Lemma seq_len_nonneg s : 0 ≤ seq_len s.
Proof. unfold seq_len, b2z. assert (0 ≤ len (payload s)) by lens. repeat case_match; lia. Qed.

Lemma send_eq {E} c socket f p now :
  len (received c) ≤ RECEIVE_LIMIT → len p ≤ 65515 →
  @send E c socket f p now
  = Ok (let seg := built c socket f p in
        let c' := c <| send_next := wrapping_add32 (send_next c) (seq_len seg) |> in
        let c'' := if negb (seq_len seg =? 0)
                   then c' <| outstanding := Some {| pending_segment := seg;
                       deadline := sat_add U64_MAX now 1000000; retries := 0 |} |> else c' in
        (c'' <| last_activity := now |>, seg)).
Proof.
  intros Hc Hp. unfold send. rewrite segment_built, bind_Ok by done. by rewrite sequence_len_eq, bind_Ok.
Qed.
Lemma send_ok {E} c socket f p now :
  connection_ok c → socket_ok socket → u8 f → bytes_ok p → len p ≤ MAX_PAYLOAD →
  ∃ c', @send E c socket f p now = Ok (c', built c socket f p) ∧ connection_ok c' ∧ state c' = state c
    ∧ send_next c' = wrapping_add32 (send_next c) (seq_len (built c socket f p))
    ∧ receive_next c' = receive_next c ∧ received c' = received c ∧ peer_closed c' = peer_closed c
    ∧ (∀ o, outstanding c' = Some o → pending_segment o = built c socket f p ∨ outstanding c = Some o).
Proof.
  intros Hc Hs Hf Hp Hl. pose proof Hc as (?&?&?&?&?&?&Ho). rewrite send_eq by (unfold MAX_PAYLOAD in *; lia).
  eexists. split; [reflexivity|]. pose proof (built_ok c socket f p Hc Hs Hf Hp Hl).
  destruct (negb _); cbn; split_wf; try done; unfold connection_ok; cbn; split_wf; try done; try lia;
    try apply wrapping_u32; intros o.
  - intros [= <-]. split; [done|]. cbn. lia.
  - intros [= <-]. by left.
  - intros Hp'. by right.
Qed.
Lemma acknowledge_eq {E} c socket :
  len (received c) ≤ RECEIVE_LIMIT → @acknowledge E c socket = Ok (c, Some (built c socket ACK [])).
Proof. intros Hc. unfold acknowledge. by rewrite segment_built, bind_Ok. Qed.

(** ** What [receive] does *)

Definition synced (c : TcpConnection) : Prop := state c ≠ SynSent ∧ state c ≠ Closed.

(** How [receive] changes what the connection has received: not at all, by
    learning the peer's initial number, or by taking the segment in order. *)
Inductive received_effect (c : TcpConnection) (g : TcpSegment) (c' : TcpConnection) : Prop :=
| effect_none :
    received c' = received c → receive_next c' = receive_next c → peer_closed c' = peer_closed c →
    (synced c' → synced c) → (state c' = SynSent → state c = SynSent) →
    received_effect c g c'
| effect_sync :
    state c = SynSent → flags_contains (flags g) SYN = true → synced c' →
    received c' = received c → peer_closed c' = peer_closed c →
    receive_next c' = wrapping_add32 (sequence g) 1 →
    received_effect c g c'
| effect_data :
    synced c → synced c' → peer_closed c = false → sequence g = receive_next c →
    received c' = received c ++ payload g →
    peer_closed c' = flags_contains (flags g) FIN →
    receive_next c' = (receive_next c + len (payload g) + b2z (flags_contains (flags g) FIN)) `mod` 4294967296 →
    received_effect c g c'.

(** The states in which an endpoint may still write, or will be able to. *)
Definition writable (s : TcpState) : bool :=
  match s with SynSent | SynReceived | Established | CloseWait => true | _ => false end.
(** The states reached once the peer has closed. *)
Definition after_fin (s : TcpState) : bool :=
  match s with CloseWait | LastAck | TimeWait => true | _ => false end.

(** The sending side after [receive]: the numbers and the pending segment are
    the old ones, nothing becomes writable again, and every reply is an
    acknowledgment or the pending segment. *)
Definition sent_effect (c : TcpConnection) (socket : TcpSocket) (c' : TcpConnection)
    (reply : option TcpSegment) : Prop :=
  send_next c' = send_next c
  ∧ (outstanding c' = outstanding c ∨ outstanding c' = None)
  ∧ (writable (state c') = true → writable (state c) = true)
  ∧ (after_fin (state c') = true → peer_closed c' = true)
  ∧ (∀ r, reply = Some r →
       (∃ o, outstanding c = Some o ∧ r = pending_segment o) ∨ r = built c' socket ACK []).

Definition effect (c : TcpConnection) (socket : TcpSocket) (g : TcpSegment)
    (r : TcpConnection * option TcpSegment) : Prop :=
  connection_ok r.1 ∧ received_effect c g r.1 ∧ sent_effect c socket r.1 r.2.

Lemma flags_contains_or f a b :
  0 ≤ a → 0 ≤ b → flags_contains f (flags_bitor a b) = true → flags_contains f a = true ∧ flags_contains f b = true.
Proof.
  unfold flags_contains, flags_bitor. intros Ha Hb H%Z.eqb_eq. rewrite !Z.eqb_eq. split; apply Z.bits_inj'; intros n Hn.
  - apply (f_equal (λ z, Z.testbit z n)) in H. rewrite !Z.land_spec, !Z.lor_spec in *.
    by destruct (Z.testbit f n), (Z.testbit a n), (Z.testbit b n).
  - apply (f_equal (λ z, Z.testbit z n)) in H. rewrite !Z.land_spec, !Z.lor_spec in *.
    by destruct (Z.testbit f n), (Z.testbit a n), (Z.testbit b n).
Qed.

(** A change of [receive] before it looks at the data. *)
Definition quiet (c c1 : TcpConnection) : Prop :=
  connection_ok c1 ∧ received c1 = received c ∧ receive_next c1 = receive_next c
  ∧ peer_closed c1 = peer_closed c ∧ synced c ∧ synced c1 ∧ send_next c1 = send_next c
  ∧ (outstanding c1 = outstanding c ∨ outstanding c1 = None)
  ∧ (writable (state c1) = true → writable (state c) = true)
  ∧ (after_fin (state c1) = true → peer_closed c1 = true).

Lemma quiet_effect c c1 socket g r : quiet c c1 → effect c1 socket g r → effect c socket g r.
Proof.
  intros (H1&H2&H3&H4&H5&H6&H7&H8&H9&H10) (Hok & Hr & Hs1 & Hs2 & Hs3 & Hs4 & Hs5).
  split; [done|]. split.
  - destruct Hr as [E1 E2 E3 E4 E5|E1|E1 E2 E3 E4 E5 E6 E7].
    + apply effect_none; try congruence. intros Hc%E5. by destruct H6.
    + by destruct H6.
    + apply effect_data; congruence.
  - unfold sent_effect. split_wf; [congruence| |auto|done|].
    + destruct Hs2 as [Hs2|]; [|by right]. rewrite Hs2. destruct H8 as [->|]; auto.
    + intros r' [(o & Ho & ->)|]%Hs5; [left|by right]. exists o. split; [|done].
      destruct H8 as [<-|H8]; [done|congruence].
Qed.

(** The common ending: [c'] and either nothing or an acknowledgment. *)
Lemma reply_effect {E} (ack : bool) c c' socket g :
  connection_ok c' → received_effect c g c' → send_next c' = send_next c →
  (outstanding c' = outstanding c ∨ outstanding c' = None) →
  (writable (state c') = true → writable (state c) = true) →
  (after_fin (state c') = true → peer_closed c' = true) →
  ∃ r, (if ack then @acknowledge E c' socket else Ok (c', None)) = Ok r ∧ effect c socket g r.
Proof.
  intros Hok Hr H1 H2 H3 H4. destruct ack.
  - rewrite acknowledge_eq by apply Hok. eexists. split; [done|]. split; [done|]. split; [done|].
    unfold sent_effect. split_wf; try done. intros r [= <-]. by right.
  - eexists. split; [done|]. split; [done|]. split; [done|].
    unfold sent_effect. split_wf; try done.
Qed.

(** [connection_ok] of a connection with some fields replaced. *)
Ltac ok_fields := unfold connection_ok, RECEIVE_LIMIT in *; cbn in *; split_wf; try (done || lia).

Lemma receive_data_effect {E} c socket g now :
  connection_ok c → incoming_ok g → synced c → state c ≠ SynReceived → sequence g = receive_next c →
  (after_fin (state c) = true → peer_closed c = true) →
  ∃ r, @receive_data E c socket g now = Ok r ∧ effect c socket g r.
Proof.
  intros Hc [Hg Hgl] Hs Hsr Hseq Haf. unfold receive_data. cbn.
  pose proof Hc as (K1&K2&K3&K4&K5&K6&K7). pose proof Hg as (?&?&?&?&?&?&?&?).
  destruct (peer_closed c) eqn:Hp.
  { apply (reply_effect false); cbn; try done; [by apply effect_none|by left]. }
  assert (0 ≤ len (received c)) by lens. assert (0 ≤ len (payload g)) by lens.
  unfold RECEIVE_LIMIT, sat_add, U64_MAX in *. rewrite Z.min_r by lia.
  destruct (65535 <? len (received c) + len (payload g)) eqn:Hfit.
  { apply (reply_effect true); cbn; try done; [by apply effect_none|by left]. }
  rewrite (Z.mod_small (len (payload g))) by lia.
  assert (Hn : ∀ b : bool, (if b then wrapping_add32 (wrapping_add32 (receive_next c) (len (payload g))) 1
                     else wrapping_add32 (receive_next c) (len (payload g)))
                    = (receive_next c + len (payload g) + b2z b) `mod` 4294967296).
  { intros []; unfold wrapping_add32, b2z; [by rewrite Zplus_mod_idemp_l|f_equal; lia]. }
  assert (Hk : ∀ st tw oc pc (fin : bool), connection_ok {| state := st; retransmissions := retransmissions c;
     send_next := send_next c; receive_next := if fin then wrapping_add32 (wrapping_add32 (receive_next c) (len (payload g))) 1
                     else wrapping_add32 (receive_next c) (len (payload g));
     peer_window := window g; received := received c ++ payload g; outstanding := outstanding c;
     last_activity := now; idle_timeout_us := idle_timeout_us c; time_wait_until := tw;
     peer_closed := pc; passive := oc |}).
  { intros. unfold connection_ok, RECEIVE_LIMIT. cbn. rewrite len_app. split_wf; try done; try lia.
    - destruct fin; apply wrapping_u32.
    - by apply bytes_ok_app. }
  destruct (flags_contains (flags g) FIN) eqn:Hfin.
  - pose proof (Hn true) as Hnt. pose proof (λ st tw, Hk st tw (passive c) true true) as Hkt.
    rewrite orb_true_r. case_bool_decide as Hst; cbn in Hst; cbn; [case_bool_decide as Hout; cbn in Hout; cbn|].
    all: apply (reply_effect true); cbn; try done; try (by left); try (by apply Hkt); rewrite ?Hst; try done.
    all: try (apply effect_data; cbn; rewrite ?Hfin, ?Hst; try done; unfold synced; cbn; by rewrite ?Hst).
    destruct Hs. by destruct (state c); try (specialize (Haf eq_refl)).
  - pose proof (Hn false) as Hnt. pose proof (λ st tw, Hk st tw (passive c) (peer_closed c) false) as Hkt.
    rewrite orb_false_r. cbn. rewrite Hp in Hkt.
    apply reply_effect; cbn; try done; [|by left]. apply effect_data; cbn; by rewrite ?Hfin.
Qed.

Lemma quiet_data {E} c c1 socket g now :
  incoming_ok g → quiet c c1 → state c1 ≠ SynReceived → sequence g = receive_next c →
  ∃ r, @receive_data E c1 socket g now = Ok r ∧ effect c socket g r.
Proof.
  intros Hg Hq Hsr Hseq. pose proof Hq as (H1&H2&H3&H4&H5&H6&H7&H8&H9&H10).
  destruct (receive_data_effect (E:=E) c1 socket g now) as (r & Hr & He); try done; [congruence|].
  exists r. split; [done|]. by eapply quiet_effect.
Qed.

Lemma receive_ack_effect {E} c socket g now :
  connection_ok c → incoming_ok g → synced c → state c ≠ TimeWait → sequence g = receive_next c →
  (after_fin (state c) = true → peer_closed c = true) →
  ∃ r, @receive_ack E c socket g now = Ok r ∧ effect c socket g r.
Proof.
  intros Hc Hg Hs Htw Hseq Haf. unfold receive_ack. pose proof Hc as (K1&K2&K3&K4&K5&K6&K7).
  destruct (acknowledgment g =? send_next c).
  - cbn. destruct (bool_decide (state c = SynReceived)) eqn:Hsr; cbn.
    { apply bool_decide_eq_true in Hsr. apply quiet_data; try done.
      unfold quiet, synced; cbn. rewrite Hsr. split_wf; try done; by right. }
    apply bool_decide_eq_false in Hsr. case_bool_decide as Hla; cbn in Hla; cbn.
    { apply (reply_effect false); cbn; try done; [by apply effect_none|by right]. }
    destruct (bool_decide _ && _) eqn:Hfw; cbn.
    + apply andb_true_iff in Hfw as [Hfw%bool_decide_eq_true Hp].
      apply quiet_data; try done. unfold quiet, synced; cbn. cbn in Hfw, Hp. rewrite Hfw. split_wf; try done; by right.
    + apply quiet_data; try done. unfold quiet; cbn. split_wf; try done; by right.
  - case_bool_decide as Hsr; cbn in Hsr; cbn.
    + apply (reply_effect false); cbn; try done; [by apply effect_none|by left].
    + by apply receive_data_effect.
Qed.

Lemma receive_spec {E} c socket g now :
  connection_ok c → incoming_ok g → (after_fin (state c) = true → peer_closed c = true) →
  ∃ r, @receive E c socket g now = Ok r ∧ effect c socket g r.
Proof.
  intros Hc Hg Haf. pose proof Hc as (K1&K2&K3&K4&K5&K6&K7). unfold receive.
  assert (Hquiet : ∀ ack : bool, ∃ r, (if ack then @acknowledge E c socket else Ok (c, None)) = Ok r ∧ effect c socket g r).
  { intros ack. apply reply_effect; try done; [by apply effect_none|by left]. }
  case_bool_decide as Hcl; [by apply (Hquiet false)|].
  destruct (flags_contains (flags g) RST).
  { unfold receive_reset. destruct (if bool_decide _ then _ else _); [|by apply (Hquiet false)].
    apply (reply_effect false); cbn; try done; [|by right]. apply effect_none; cbn; try done. by intros []. }
  case_bool_decide as Htw.
  { unfold receive_time_wait. rewrite sequence_len_eq by apply Hg. rewrite bind_Ok.
    destruct (_ && _); [|destruct (negb _); [by apply (Hquiet true)|by apply (Hquiet false)]].
    destruct (negb _); [apply (reply_effect true)|apply (reply_effect false)]; cbn; try done; try (by left).
    all: try (intros _; apply Haf; by rewrite Htw).
    all: apply effect_none; cbn; try done; unfold synced; by rewrite Htw. }
  case_bool_decide as Hss.
  { unfold receive_syn_sent. destruct (_ && _) eqn:Hf; [|by apply (Hquiet false)].
    apply andb_true_iff in Hf as [[Hsyn _]%flags_contains_or _]; [|by vm_compute..].
    apply (reply_effect true); cbn; try done; [|by apply effect_sync|by right|by rewrite Hss].
    destruct Hg as [(?&?&?&?&?&?&?&?) _]. ok_fields. }
  assert (Hs : synced c) by done.
  destruct (_ && _ && _) eqn:Hsr.
  { eexists. split; [done|]. split; [done|]. split; [by apply effect_none|].
    unfold sent_effect. cbn. split_wf; try done; [by left|]. intros r. destruct (outstanding c) as [o|] eqn:Ho; [|done].
    intros [= <-]. left. by exists o. }
  destruct (negb (sequence g =? receive_next c)) eqn:Hseq; [by apply (Hquiet true)|].
  destruct (negb (flags_contains (flags g) ACK)); [by apply (Hquiet false)|].
  apply receive_ack_effect; try done. lia.
Qed.

(** ** Two endpoints and a network *)

(** What an application or the network asks of one endpoint. *)
Inductive call :=
| Write (payload : bytes) (now : SimTime)
| Close (now : SimTime)
| Read
| Deliver (seg : TcpSegment) (now : SimTime)
| Timer (now : SimTime).

(** The connection after a call, the segments it transmits, the bytes the
    application added to its stream and the bytes it was handed. *)
Definition run_call (c : TcpConnection) (socket : TcpSocket) (x : call)
  : res TcpError (TcpConnection * list TcpSegment * bytes * bytes) :=
  match x with
  | Write payload now => '(c, seg) ← connection_write c socket payload now; Ok (c, [seg], payload, [])
  | Close now => '(c, seg) ← connection_close c socket now; Ok (c, [seg], [], [])
  | Read => '(c, data, update) ← connection_read c socket; Ok (c, [update], [], data)
  | Deliver seg now => '(c, reply) ← receive c socket seg now; Ok (c, option_list reply, [], [])
  | Timer now => '(c, again) ← retransmit c now; Ok (c, option_list again, [], [])
  end.

(** One side: its connection once it exists, the initial sequence number it
    uses, every segment it has transmitted, the bytes its application has
    written and read, and whether that application has closed its stream. *)
Record End := {
  socket : TcpSocket; isn : Z; connection : option TcpConnection; sent : list TcpSegment;
  written : bytes; consumed : bytes; finished : bool
}.

Definition closes (x : call) : bool := match x with Close _ => true | _ => false end.
Definition after (e : End) (x : call) (c : TcpConnection) (out : list TcpSegment) (w d : bytes) : End :=
  {| socket := socket e; isn := isn e; connection := Some c; sent := sent e ++ out;
     written := written e ++ w; consumed := consumed e ++ d; finished := finished e || closes x |}.

(** A side acts: a call that succeeds, with a segment the other side has sent
    when it is a delivery, or the passive open on a delivered SYN.  Segments
    stay in [incoming], so the network may lose, repeat and reorder them. *)
Inductive acts (incoming : list TcpSegment) (e : End) : End → Prop :=
| acts_call c x c' out w d :
    connection e = Some c →
    (∀ g now, x = Deliver g now → g ∈ incoming) →
    (∀ p now, x = Write p now → 0 < len p ≤ MAX_PAYLOAD ∧ bytes_ok p) →
    retransmissions c < U64_MAX →
    run_call c (socket e) x = Ok (c', out, w, d) →
    acts incoming e (after e x c' out w d)
| acts_accept g now c' reply :
    connection e = None → g ∈ incoming → flags g = SYN →
    @open_passive TcpError (isn e) (socket e) g now = Ok (c', reply) →
    acts incoming e {| socket := socket e; isn := isn e; connection := Some c'; sent := sent e ++ [reply];
                       written := written e; consumed := consumed e; finished := finished e |}.

Inductive step : End * End → End * End → Prop :=
| step_left l r l' : acts (sent r) l l' → step (l, r) (l', r)
| step_right l r r' : acts (sent l) r r' → step (l, r) (l, r').

(** The left side has just opened actively, the right side listens. *)
Definition opened (l r : TcpSocket) (isn_l isn_r : Z) (now : SimTime) (s : End * End) : Prop :=
  socket_ok l ∧ socket_ok r ∧ u32 isn_l ∧ u32 isn_r ∧
  ∃ c syn, open_active isn_l l now = Ok (c, syn)
    ∧ s = ({| socket := l; isn := isn_l; connection := Some c; sent := [syn]; written := []; consumed := [];
              finished := false |},
           {| socket := r; isn := isn_r; connection := None; sent := []; written := []; consumed := [];
              finished := false |}).

(** What the side has received: read by its application or waiting to be. *)
Definition arrived (e : End) : bytes :=
  consumed e ++ match connection e with Some c => received c | None => [] end.
(** The peer's end of stream has been signalled. *)
Definition end_of_stream (e : End) : bool :=
  match connection e with Some c => peer_closed c | None => false end.
(** Fewer than [2^32 - 2] bytes were written, so no sequence number repeats. *)
Definition short_stream (e : End) : Prop := len (written e) < 4294967294.

(** ** The invariant *)

(** A segment of a stream that starts after the number [i]. *)
Definition valid_segment (i : Z) (stream : bytes) (fin : bool) (g : TcpSegment) : Prop :=
  outgoing_ok g ∧
  if flags_contains (flags g) SYN then sequence g = i ∧ payload g = []
  else ∃ o : nat, sequence g = (i + 1 + Z.of_nat o) `mod` 4294967296 ∧ Z.of_nat o ≤ len stream + b2z fin
       ∧ payload g `prefix_of` drop o stream
       ∧ (flags_contains (flags g) FIN = true → fin = true ∧ Z.of_nat o = len stream).

Definition sends (e : End) : Prop :=
  socket_ok (socket e) ∧ u32 (isn e) ∧ Forall (valid_segment (isn e) (written e) (finished e)) (sent e)
  ∧ match connection e with
    | None => written e = [] ∧ finished e = false ∧ sent e = []
    | Some c =>
        connection_ok c
        ∧ send_next c = (isn e + 1 + len (written e) + b2z (finished e)) `mod` 4294967296
        ∧ (∀ o, outstanding c = Some o → pending_segment o ∈ sent e)
        ∧ (finished e = true → writable (state c) = false)
        ∧ (after_fin (state c) = true → peer_closed c = true)
    end.

(** What [e] has received of the stream of [p]. *)
Definition receives (p e : End) : Prop :=
  match connection e with
  | None => consumed e = []
  | Some c =>
      arrived e `prefix_of` written p
      ∧ (peer_closed c = true → finished p = true ∧ arrived e = written p)
      ∧ (synced c → receive_next c = (isn p + 1 + len (arrived e) + b2z (peer_closed c)) `mod` 4294967296)
      ∧ (state c = SynSent → arrived e = [] ∧ peer_closed c = false)
  end.

Lemma valid_segment_grow i s t fin fin' g :
  (fin = true → t = [] ∧ fin' = true) → valid_segment i s fin g → valid_segment i (s ++ t) fin' g.
Proof.
  intros Hf [Hok H]. split; [done|]. destruct (flags_contains (flags g) SYN); [done|].
  destruct H as (o & Hq & Ho & Hp & Hfin). destruct fin.
  - destruct Hf as [-> ->]; [done|]. rewrite app_nil_r. by exists o.
  - exists o. unfold b2z in *. rewrite len_app. assert (0 ≤ len t) by lens. split_wf; try done; try lia.
    rewrite drop_app_le by lens. by apply prefix_app_r.
Qed.

(** What a segment built by the connection carries. *)
Lemma built_valid i s (fin : bool) c socket f p :
  connection_ok c → socket_ok socket → u8 f → bytes_ok p → len p ≤ MAX_PAYLOAD →
  flags_contains f SYN = false → send_next c = (i + 1 + len s + b2z fin) `mod` 4294967296 →
  (fin = true → p = [] ∧ flags_contains f FIN = false) → (flags_contains f FIN = true → p = []) →
  valid_segment i (s ++ p) (fin || flags_contains f FIN) (built c socket f p).
Proof.
  intros Hc Hs Hf Hp Hl Hsyn Hn Hfin Hfp. split; [by apply built_ok|]. cbn. rewrite Hsyn.
  exists (length s + (if fin then 1 else 0))%nat. rewrite Hn, len_app. unfold b2z, len in *.
  split_wf.
  - f_equal. destruct fin; lia.
  - destruct fin; cbn [orb]; [lia|]. case_match; lia.
  - destruct fin.
    + destruct Hfin as [-> _]; [done|]. apply prefix_nil.
    + by rewrite Nat.add_0_r, drop_app_length.
  - intros HF. rewrite HF, orb_true_r. split; [done|].
    destruct fin; [destruct Hfin as [_ ?]; [done|congruence]|]. rewrite Hfp by done. cbn. lia.
Qed.

(** ** The calls preserve the invariant *)

Definition incoming_valid (p : End) (g : TcpSegment) : Prop :=
  valid_segment (isn p) (written p) (finished p) g.
Lemma outgoing_incoming g : outgoing_ok g → incoming_ok g.
Proof. intros (?&_&?). unfold MAX_PAYLOAD in *. split; [done|lia]. Qed.

(** What a successful call does to the connection, the network and the streams. *)
Lemma connection_write_ok c socket p now c' g :
  connection_ok c → socket_ok socket → bytes_ok p → len p ≤ MAX_PAYLOAD →
  connection_write c socket p now = Ok (c', g) →
  can_write c = true ∧ g = built c socket (flags_bitor ACK PSH) p ∧ connection_ok c' ∧ state c' = state c
  ∧ send_next c' = wrapping_add32 (send_next c) (len p)
  ∧ receive_next c' = receive_next c ∧ received c' = received c ∧ peer_closed c' = peer_closed c
  ∧ (∀ o, outstanding c' = Some o → pending_segment o = g).
Proof.
  intros Hc Hs Hp Hl H. unfold connection_write in H. destruct (can_write c) eqn:Hw; [|done]. cbn [negb] in H.
  destruct (_ || _) eqn:Hb; [done|]. apply orb_false_iff in Hb as [Hb _].
  destruct (@send_ok TcpError c socket (flags_bitor ACK PSH) p now) as (c1 & He & Kok & Kst & Ksn & Krn & Krc & Kpc & Kout); try done.
  rewrite He in H. apply Ok_inj in H as [= -> <-]. split_and!; try done.
  - rewrite Ksn. change (seq_len _) with (len p + 0 + 0). f_equal. lia.
  - intros o [->|Ho]%Kout; [done|]. apply bool_decide_eq_false in Hb. exfalso. apply Hb. by exists o.
Qed.

Lemma connection_close_ok c socket now c' g :
  connection_ok c → socket_ok socket → connection_close c socket now = Ok (c', g) →
  can_write c = true ∧ g = built c socket (flags_bitor ACK FIN) [] ∧ connection_ok c'
  ∧ state c' = (if bool_decide (state c = Established) then FinWait else LastAck)
  ∧ send_next c' = wrapping_add32 (send_next c) 1
  ∧ receive_next c' = receive_next c ∧ received c' = received c ∧ peer_closed c' = peer_closed c
  ∧ (∀ o, outstanding c' = Some o → pending_segment o = g).
Proof.
  intros Hc Hs H. unfold connection_close in H. case_bool_decide as Hb; [done|].
  assert (∃ st, can_write c = true ∧ st = (if bool_decide (state c = Established) then FinWait else LastAck)
    ∧ send (E:=TcpError) (c <| state := st |>) socket (flags_bitor ACK FIN) [] now = Ok (c', g)) as (st & Hw & -> & Hsend).
  { unfold can_write. destruct (state c) eqn:Hst; try done; eexists; (split; [done|]); (split; [|exact H]); done. }
  destruct (@send_ok TcpError (c <| state := if bool_decide (state c = Established) then FinWait else LastAck |>)
    socket (flags_bitor ACK FIN) [] now) as (c1 & He & Kok & Kst & Ksn & Krn & Krc & Kpc & Kout); try done; [by constructor|].
  rewrite He in Hsend. apply Ok_inj in Hsend as [= -> <-]. split_and!; try done.
  intros o [->|Ho]%Kout; [done|]. exfalso. apply Hb. by exists o.
Qed.

Lemma retransmit_ok {E} c now c' r :
  connection_ok c → retransmissions c < U64_MAX → @retransmit E c now = Ok (c', r) →
  connection_ok c' ∧ (state c' = state c ∨ state c' = Closed)
  ∧ send_next c' = send_next c ∧ receive_next c' = receive_next c ∧ received c' = received c
  ∧ peer_closed c' = peer_closed c
  ∧ (∀ o, outstanding c' = Some o → ∃ o', outstanding c = Some o' ∧ pending_segment o = pending_segment o')
  ∧ (∀ g, r = Some g → ∃ o, outstanding c = Some o ∧ g = pending_segment o).
Proof.
  intros Hc Hn H. pose proof Hc as (K1&K2&K3&K4&K5&K6&K7). unfold retransmit in H.
  destruct (outstanding c) as [o|] eqn:Ho.
  2: { apply Ok_inj in H as [= <- <-]. split_and!; try done; [by left|]. rewrite Ho. done. }
  destruct (K7 o eq_refl) as [Hp Hr].
  destruct (now <? deadline o); [apply Ok_inj in H as [= <- <-]|destruct (5 <=? retries o) eqn:H5; [apply Ok_inj in H as [= <- <-]|]].
  - split_and!; try done; [by left|]. rewrite Ho. intros ? [= <-]. by exists o.
  - split_and!; cbn; try done; [by right|]. rewrite Ho. intros ? [= <-]. by exists o.
  - unfold U8_MAX, U64_MAX in *. rewrite (arith_Ok 255), bind_Ok, arith_Ok, bind_Ok in H by lia.
    apply Ok_inj in H as [= <- <-]. split_and!; cbn; try done.
    + ok_fields. intros ? [= <-]. split; cbn; [done|lia].
    + by left.
    + intros ? [= <-]. by exists o.
    + intros ? [= <-]. by exists o.
Qed.

Lemma sends_grow i s t fin fin' l :
  (fin = true → t = [] ∧ fin' = true) →
  Forall (valid_segment i s fin) l → Forall (valid_segment i (s ++ t) fin') l.
Proof. intros H Hl. eapply Forall_impl; [exact Hl|]. intros g. by apply valid_segment_grow. Qed.

(** A call that only acknowledges keeps the numbers. *)
Lemma ack_valid i s fin c socket :
  connection_ok c → socket_ok socket → send_next c = (i + 1 + len s + b2z fin) `mod` 4294967296 →
  valid_segment i s fin (built c socket ACK []).
Proof.
  intros Hc Hs Hn. pose proof (built_valid i s fin c socket ACK [] Hc Hs) as H.
  rewrite app_nil_r, orb_false_r in H. apply H; try done. by constructor.
Qed.


Lemma elem_of_option_list {A} (o : option A) x : x ∈ option_list o ↔ o = Some x.
Proof. destruct o; cbn; [rewrite list_elem_of_singleton; naive_solver|]. by rewrite elem_of_nil. Qed.

(** The part of [sends] that concerns the connection. *)
Definition sending (e : End) (c : TcpConnection) : Prop :=
  connection_ok c
  ∧ send_next c = (isn e + 1 + len (written e) + b2z (finished e)) `mod` 4294967296
  ∧ (∀ o, outstanding c = Some o → pending_segment o ∈ sent e)
  ∧ (finished e = true → writable (state c) = false)
  ∧ (after_fin (state c) = true → peer_closed c = true).

Lemma sends_after e x c' out w d :
  socket_ok (socket e) → u32 (isn e) → Forall (incoming_valid e) (sent e) →
  (finished e = true → w = []) →
  Forall (incoming_valid (after e x c' out w d)) out → sending (after e x c' out w d) c' →
  sends (after e x c' out w d).
Proof.
  intros Hs Hi Hf Hw Ho Hc. split; [done|]. split; [done|]. split; [|exact Hc].
  apply Forall_app. split; [|done]. eapply sends_grow; [|exact Hf]. intros HF. split; [auto|]. cbn. by rewrite HF.
Qed.

Lemma sends_write e c p now c' out w d :
  sends e → connection e = Some c → len p ≤ MAX_PAYLOAD → bytes_ok p →
  run_call c (socket e) (Write p now) = Ok (c', out, w, d) → sends (after e (Write p now) c' out w d).
Proof.
  intros (Hs & Hi & Hf & Hc) Hcon Hl Hp H. rewrite Hcon in Hc. destruct Hc as (Hok & Hn & Hout & Hfin & Haf).
  cbn in H. inv_ok. rename select (connection_write _ _ _ _ = _) into Hx.
  apply connection_write_ok in Hx as (Hcw & -> & Kok & Kst & Ksn & _ & _ & Kpc & Kout); [|done..].
  assert (Hnf : finished e = false).
  { destruct (finished e); [|done]. specialize (Hfin eq_refl). unfold can_write in Hcw. by destruct (state c). }
  apply sends_after; try done; [by rewrite Hnf| |].
  - apply Forall_singleton. unfold incoming_valid. cbn. rewrite Hnf in *. by apply (built_valid _ _ false).
  - unfold sending. cbn. rewrite orb_false_r, Hnf in *. split_and!; try done.
    + rewrite Ksn, Hn, len_app. unfold wrapping_add32, b2z. rewrite Zplus_mod_idemp_l. f_equal. lia.
    + intros o ->%Kout. set_solver.
    + by rewrite Kst, Kpc.
Qed.

Lemma sends_close e c now c' out w d :
  sends e → connection e = Some c →
  run_call c (socket e) (Close now) = Ok (c', out, w, d) → sends (after e (Close now) c' out w d).
Proof.
  intros (Hs & Hi & Hf & Hc) Hcon H. rewrite Hcon in Hc. destruct Hc as (Hok & Hn & Hout & Hfin & Haf).
  cbn in H. inv_ok. rename select (connection_close _ _ _ = _) into Hx.
  apply connection_close_ok in Hx as (Hcw & -> & Kok & Kst & Ksn & _ & _ & Kpc & Kout); [|done..].
  assert (Hnf : finished e = false).
  { destruct (finished e); [|done]. specialize (Hfin eq_refl). unfold can_write in Hcw. by destruct (state c). }
  apply sends_after; try done.
  - apply Forall_singleton. unfold incoming_valid. cbn. rewrite Hnf in *. apply (built_valid _ _ false); try done.
    by constructor.
  - unfold sending. cbn. rewrite orb_true_r, app_nil_r, Hnf in *. split_and!; try done.
    + rewrite Ksn, Hn. unfold wrapping_add32, b2z. rewrite Zplus_mod_idemp_l. f_equal. lia.
    + intros o ->%Kout. set_solver.
    + intros _. rewrite Kst. by case_bool_decide.
    + rewrite Kst, Kpc. unfold can_write in Hcw. case_bool_decide as Hst; [done|]. intros _. apply Haf.
      by destruct (state c).
Qed.

Lemma connection_read_ok c socket c' data g :
  connection_ok c → connection_read c socket = Ok (c', data, g) →
  c' = c <| received := [] |> ∧ data = received c ∧ g = built c' socket ACK [] ∧ connection_ok c'.
Proof.
  intros Hc H. unfold connection_read in H.
  rewrite segment_built, bind_Ok in H by (cbn; unfold RECEIVE_LIMIT, len; cbn; lia).
  apply Ok_inj in H as [= <- <- <-]. split_and!; try done. destruct Hc as (?&?&?&?&?&?&?). ok_fields. by constructor.
Qed.

(** The calls that leave the written stream alone: the connection keeps its
    number, and transmits what was pending or an acknowledgment. *)
Lemma sends_quiet e c x c' out d :
  sends e → connection e = Some c → closes x = false → connection_ok c' → send_next c' = send_next c →
  (∀ o, outstanding c' = Some o → ∃ o', outstanding c = Some o' ∧ pending_segment o = pending_segment o') →
  (writable (state c') = true → writable (state c) = true) →
  (after_fin (state c') = true → peer_closed c' = true) →
  (∀ g, g ∈ out → (∃ o, outstanding c = Some o ∧ g = pending_segment o) ∨ g = built c' (socket e) ACK []) →
  sends (after e x c' out [] d).
Proof.
  intros (Hs & Hi & Hf & Hc) Hcon Hx Hok' Hn' Ho' Hw' Haf' Hg. rewrite Hcon in Hc.
  destruct Hc as (Hok & Hn & Hout & Hfin & Haf). apply sends_after; try done.
  - apply Forall_forall. unfold incoming_valid, after. cbn. rewrite Hx, app_nil_r, orb_false_r.
    intros g [(o & Ho & ->)| ->]%Hg.
    + rewrite Forall_forall in Hf. by apply Hf, Hout.
    + apply ack_valid; try done. by rewrite Hn'.
  - unfold sending, after. cbn. rewrite Hx, app_nil_r, orb_false_r. split_and!; try done; [by rewrite Hn'| |].
    + intros o (o' & Ho & ->)%Ho'. apply elem_of_app. left. by apply Hout.
    + intros HF. apply not_true_is_false. intros Hw%Hw'. by rewrite Hfin in Hw.
Qed.

Lemma open_passive_ok {E} i socket g now c' reply :
  u32 i → socket_ok socket → incoming_ok g → @open_passive E i socket g now = Ok (c', reply) →
  ∃ c0, connection_ok c0 ∧ send_next c0 = i ∧ reply = built c0 socket (flags_bitor SYN ACK) []
    ∧ connection_ok c' ∧ state c' = SynReceived ∧ send_next c' = wrapping_add32 i 1
    ∧ receive_next c' = wrapping_add32 (sequence g) 1 ∧ received c' = [] ∧ peer_closed c' = false
    ∧ (∀ o, outstanding c' = Some o → pending_segment o = reply).
Proof.
  intros Hi Hs [Hg _] H. unfold open_passive in H.
  match type of H with send ?c _ _ _ _ = _ => set (c0 := c) in H end.
  assert (Hc0 : connection_ok c0).
  { destruct Hg as (?&?&?&?&?&?&?&?). subst c0. ok_fields. by constructor. }
  destruct (@send_ok E c0 socket (flags_bitor SYN ACK) [] now) as (c1 & He & Kok & Kst & Ksn & Krn & Krc & Kpc & Kout);
    try done; [by constructor|].
  rewrite He in H. apply Ok_inj in H as [= -> <-]. exists c0. split_and!; try done. by intros o [->|Ho]%Kout.
Qed.

Lemma acts_sends inc e e' : sends e → Forall incoming_ok inc → acts inc e e' → sends e'.
Proof.
  intros He Hinc Ha. pose proof He as (Hs & Hi & _ & Hc).
  destruct Ha as [c x c' out w d Hcon Hdel Hwr Hret Hrun|g now c' reply Hcon Hg Hsyn Hopen];
    rewrite Hcon in Hc.
  - destruct Hc as (Hok & Hn & Hout & Hfin & Haf). destruct x as [p now|now| |g now|now].
    + destruct (Hwr _ _ eq_refl) as [[_ ?] ?]. by eapply sends_write.
    + by eapply sends_close.
    + cbn in Hrun. inv_ok. rename select (connection_read _ _ = _) into Hx.
      apply connection_read_ok in Hx as (-> & -> & -> & Hok'); [|done].
      eapply sends_quiet; try done; cbn; [naive_solver|]. intros g Hg%list_elem_of_singleton. by right.
    + cbn in Hrun. destruct (receive_spec (E:=TcpError) c (socket e) g now) as ([c1 r] & Hr & Hok' & _ & S1 & S2 & S3 & S4 & S5);
        [done| |done|].
      { rewrite Forall_forall in Hinc. eauto. }
      rewrite Hr in Hrun. inv_ok. cbn in *. eapply sends_quiet; try done.
      * intros o Ho. destruct S2 as [S2|S2]; rewrite S2 in Ho; naive_solver.
      * intros r' Hr'. apply S5. by apply elem_of_option_list in Hr'.
    + cbn in Hrun. inv_ok. rename select (retransmit _ _ = _) into Hx.
      apply retransmit_ok in Hx as (Hok' & Hst & Hsn & _ & _ & Hpc & Ho & Hg); [|done..].
      eapply sends_quiet; try done.
      * by destruct Hst as [->| ->].
      * rewrite Hpc. by destruct Hst as [->| ->].
      * intros r' Hr'%elem_of_option_list. left. by apply Hg.
  - destruct Hc as (HS & HF & Hsent).
    apply open_passive_ok in Hopen as (c0 & Hok0 & Hn0 & -> & Hok & Hst & Hsn & _ & _ & _ & Hout); [|done..|].
    2: { rewrite Forall_forall in Hinc. auto. }
    unfold sends. cbn. rewrite HS, HF, Hsent. split_wf; try done.
    + apply Forall_singleton. split; [|done]. apply built_ok; try done. by constructor.
    + rewrite Hsn. unfold wrapping_add32, len, b2z. cbn. f_equal. lia.
    + intros o ->%Hout. by apply list_elem_of_singleton.
    + by rewrite Hst.
Qed.

(** A side only ever adds to its stream, and nothing once it has closed it. *)
Lemma acts_stream inc e e' :
  sends e → acts inc e e' →
  socket e' = socket e ∧ isn e' = isn e ∧ written e `prefix_of` written e'
  ∧ (finished e = true → finished e' = true ∧ written e' = written e).
Proof.
  intros (_ & _ & _ & Hc) Ha. destruct Ha as [c x c' out w d Hcon Hdel Hwr Hret Hrun|]; [|done].
  rewrite Hcon in Hc. destruct Hc as (Hok & Hn & Hout & Hfin & Haf).
  cbn. split_and!; try done; [by apply prefix_app_r|]. intros HF. rewrite HF. split; [done|].
  destruct x; cbn in Hrun; inv_ok; rewrite ?app_nil_r; try done.
  rename select (connection_write _ _ _ _ = _) into Hx. unfold connection_write in Hx.
  specialize (Hfin HF). unfold can_write in Hx. by destruct (state c).
Qed.

Lemma receives_same p e x c c' out w d :
  connection e = Some c → consumed e ++ received c = (consumed e ++ d) ++ received c' →
  receive_next c' = receive_next c → peer_closed c' = peer_closed c →
  (synced c' → synced c) → (state c' = SynSent → state c = SynSent) →
  receives p e → receives p (after e x c' out w d).
Proof.
  intros Hcon Har Hn Hp Hs Hss. unfold receives, arrived. cbn. rewrite Hcon, <-Har, Hn, Hp.
  intros (?&?&?&?). split_and!; auto.
Qed.

(** Numbers that are equal modulo [2^32] are equal when they are small. *)
Lemma offset_eq i a b : 0 ≤ a < 4294967296 → 0 ≤ b < 4294967296 →
  (i + a) `mod` 4294967296 = (i + b) `mod` 4294967296 → a = b.
Proof.
  intros Ha Hb H. pose proof (Z.div_mod (i + a) 4294967296 ltac:(lia)). pose proof (Z.div_mod (i + b) 4294967296 ltac:(lia)).
  rewrite H in *. nia.
Qed.

(** An in-order segment carries the next bytes of the stream, and its end only
    after all of them. *)
Lemma in_order p c g arrived :
  short_stream p → u32 (isn p) → incoming_valid p g → arrived `prefix_of` written p →
  receive_next c = (isn p + 1 + len arrived) `mod` 4294967296 → sequence g = receive_next c →
  (arrived ++ payload g) `prefix_of` written p
  ∧ (flags_contains (flags g) FIN = true → finished p = true ∧ payload g = [] ∧ arrived = written p).
Proof.
  intros Hshort Hi [_ Hg] Hpre Hn Hseq. unfold short_stream in Hshort. rewrite Hn in Hseq.
  assert (0 ≤ len arrived) by lens. destruct Hpre as [t Ht].
  assert (Hl : len (written p) = len arrived + len t) by by rewrite Ht, len_app. assert (0 ≤ len t) by lens.
  destruct (flags_contains (flags g) SYN).
  { destruct Hg as [Hg _]. rewrite Hg in Hseq. exfalso.
    assert (0 = 1 + len arrived); [|lia]. apply (offset_eq (isn p)); [lia|lia|].
    rewrite Z.add_0_r, Z.mod_small, Hseq by lia. f_equal. lia. }
  destruct Hg as (o & Ho & Hol & Hpay & Hfin). rewrite Ho in Hseq.
  assert (Z.of_nat o = len arrived) as Hoa.
  { apply (offset_eq (isn p + 1)); [|lia|done]. unfold b2z in Hol. destruct (finished p); lia. }
  assert (o = length arrived) as -> by (unfold len in Hoa; lia).
  rewrite Ht, drop_app_length in Hpay. split.
  - rewrite Ht. by apply prefix_app.
  - intros [HF Hlen]%Hfin. assert (t = []) as ->; [|apply prefix_nil_inv in Hpay; by rewrite Ht, app_nil_r].
    apply nil_length_inv. unfold len in *. lia.
Qed.

Lemma receives_deliver p e g now c c' out w d :
  short_stream p → sends p → sends e → receives p e → g ∈ sent p → connection e = Some c →
  run_call c (socket e) (Deliver g now) = Ok (c', out, w, d) →
  receives p (after e (Deliver g now) c' out w d).
Proof.
  intros Hshort (_ & Hi & Hf & _) (_ & _ & _ & Hc) Hr Hg Hcon Hrun. rewrite Hcon in Hc.
  destruct Hc as (Hok & _ & _ & _ & Haf). rewrite Forall_forall in Hf. specialize (Hf g Hg).
  destruct (receive_spec (E:=TcpError) c (socket e) g now) as ([c1 r] & Hrec & _ & He & _);
    [done|by apply outgoing_incoming, Hf|done|].
  cbn in Hrun. rewrite Hrec in Hrun. inv_ok. cbn in He.
  destruct He as [E1 E2 E3 E4 E5|E1 E2 E3 E4 E5 E6|E1 E2 E3 E4 E5 E6 E7].
  - eapply receives_same; try done. by rewrite E1, app_nil_r.
  - unfold receives, arrived in *. cbn. rewrite Hcon in Hr. destruct Hr as (_ & _ & _ & Hss).
    destruct (Hss E1) as [Har Hp]. rewrite app_nil_r, E4, E5, Hp, Har. split_and!; [apply prefix_nil|done| |done].
    intros _. rewrite E6. destruct Hf as [_ Hf]. rewrite E2 in Hf. destruct Hf as [-> _].
    unfold wrapping_add32, len, b2z. cbn. f_equal. lia.
  - unfold receives, arrived in *. cbn. rewrite Hcon in Hr. destruct Hr as (Hpre & _ & Hn & _).
    specialize (Hn E1). rewrite E3 in Hn. unfold b2z in Hn. rewrite Z.add_0_r in Hn.
    destruct (in_order p c g _ Hshort Hi Hf Hpre Hn E4) as [Hpre' Hfin].
    rewrite app_nil_r, E5, E6, E7, app_assoc. split_and!; [done| | |by intros ?; destruct E2].
    + intros (? & -> & Har)%Hfin. by rewrite app_nil_r.
    + intros _. rewrite Hn, !len_app, <-Z.add_assoc, Zplus_mod_idemp_l. f_equal. lia.
Qed.

Lemma acts_receives p e e' :
  short_stream p → sends p → sends e → receives p e → acts (sent p) e e' → receives p e'.
Proof.
  intros Hshort Hp He Hr Ha. pose proof Hp as (_ & Hi & Hf & _). pose proof He as (Hs & _ & _ & Hc).
  destruct Ha as [c x c' out w d Hcon Hdel Hwr Hret Hrun|g now c' reply Hcon Hg Hsyn Hopen]; rewrite Hcon in Hc.
  - pose proof Hc as (Hok & _ & _ & _ & _). destruct x as [q now|now| |g now|now].
    + destruct (Hwr _ _ eq_refl) as [[_ ?] ?]. cbn in Hrun. inv_ok. rename select (connection_write _ _ _ _ = _) into Hx.
      apply connection_write_ok in Hx as (_ & _ & _ & Kst & _ & Krn & Krc & Kpc & _); [|done..].
      eapply receives_same; try done; [by rewrite app_nil_r, Krc| |by rewrite Kst]. unfold synced. by rewrite Kst.
    + cbn in Hrun. inv_ok. rename select (connection_close _ _ _ = _) into Hx.
      apply connection_close_ok in Hx as (Hcw & _ & _ & Kst & _ & Krn & Krc & Kpc & _); [|done..].
      unfold can_write in Hcw. eapply receives_same; try done; [by rewrite app_nil_r, Krc| |].
      * intros _. by destruct (state c) eqn:E; unfold synced; rewrite E.
      * rewrite Kst. by case_bool_decide.
    + cbn in Hrun. inv_ok. rename select (connection_read _ _ = _) into Hx.
      apply connection_read_ok in Hx as (-> & -> & _ & _); [|done].
      eapply receives_same; try done. cbn. by rewrite app_nil_r.
    + eapply receives_deliver; eauto.
    + cbn in Hrun. inv_ok. rename select (retransmit _ _ = _) into Hx.
      apply retransmit_ok in Hx as (_ & Hst & _ & Hrn & Hrc & Hpc & _ & _); [|done..].
      eapply receives_same; try done; [by rewrite app_nil_r, Hrc| |].
      * unfold synced. destruct Hst as [->| ->]; [done|by intros []].
      * by destruct Hst as [->| ->].
  - rewrite Forall_forall in Hf. pose proof (Hf g Hg) as Hgv. unfold receives, arrived in *. cbn. rewrite Hcon in Hr.
    apply open_passive_ok in Hopen as (c0 & Hok0 & Hn0 & -> & Hok & Hst & _ & Hrn & Hrc & Hpc & _);
      [|apply He|done|by apply outgoing_incoming, Hgv].
    rewrite Hr, Hrc, Hpc. split_and!; [apply prefix_nil|done| |by rewrite Hst].
    intros _. rewrite Hrn. destruct Hgv as [_ Hgv]. rewrite Hsyn in Hgv. destruct Hgv as [-> _].
    unfold wrapping_add32, len, b2z. cbn. f_equal. lia.
Qed.

Lemma peer_acts_receives p p' e inc :
  sends p → receives p e → acts inc p p' → receives p' e.
Proof.
  intros Hp Hr Ha. destruct (acts_stream _ _ _ Hp Ha) as (_ & Hi & Hpre & Hfin).
  unfold receives in *. destruct (connection e); [|done]. rewrite Hi.
  destruct Hr as (Hr1 & Hr2 & Hr3 & Hr4). split_and!; [by etrans| |done..].
  intros [HF ->]%Hr2. destruct (Hfin HF) as [-> ->]. done.
Qed.

(** ** Reachable pairs *)

Definition pair_inv (s : End * End) : Prop :=
  sends s.1 ∧ sends s.2 ∧ receives s.1 s.2 ∧ receives s.2 s.1.

Lemma incoming_all p : sends p → Forall incoming_ok (sent p).
Proof.
  intros (_ & _ & Hf & _). eapply Forall_impl; [exact Hf|]. intros g [Hg _]. by apply outgoing_incoming.
Qed.

Lemma step_sends s t : step s t → sends s.1 → sends s.2 → sends t.1 ∧ sends t.2.
Proof.
  intros [l r l' Ha|l r r' Ha] H1 H2; cbn in *; (split; [|]).
  - eapply acts_sends; [exact H1| |exact Ha]. by apply incoming_all.
  - exact H2.
  - exact H1.
  - eapply acts_sends; [exact H2| |exact Ha]. by apply incoming_all.
Qed.
Lemma step_short s t : step s t → sends s.1 → sends s.2 → short_stream t.1 → short_stream t.2 →
  short_stream s.1 ∧ short_stream s.2.
Proof.
  unfold short_stream. intros Hst H1 H2 Hl Hr. destruct Hst as [l r l' Ha|l r r' Ha]; cbn in *; split; try done.
  - destruct (acts_stream _ _ _ H1 Ha) as (_ & _ & Hp%prefix_length & _). unfold len in *. lia.
  - destruct (acts_stream _ _ _ H2 Ha) as (_ & _ & Hp%prefix_length & _). unfold len in *. lia.
Qed.
Lemma step_receives s t : step s t → short_stream s.1 → short_stream s.2 → pair_inv s → pair_inv t.
Proof.
  intros Hst Hl Hr (H1 & H2 & H3 & H4). destruct (step_sends s t Hst H1 H2) as [H5 H6].
  split; [done|]. split; [done|]. destruct Hst as [l r l' Ha|l r r' Ha]; cbn in *; split.
  - exact (peer_acts_receives _ _ _ _ H1 H3 Ha).
  - exact (acts_receives _ _ _ Hr H2 H1 H4 Ha).
  - exact (acts_receives _ _ _ Hl H1 H2 H3 Ha).
  - exact (peer_acts_receives _ _ _ _ H2 H4 Ha).
Qed.

Lemma opened_inv l r isn_l isn_r now s : opened l r isn_l isn_r now s → pair_inv s.
Proof.
  intros (Hl & Hr & Hil & Hir & c & syn & Ho & ->). unfold open_active in Ho.
  match type of Ho with send ?c _ _ _ _ = _ => set (c0 := c) in Ho end.
  assert (Hc0 : connection_ok c0) by (subst c0; ok_fields; by constructor).
  destruct (@send_ok TcpError c0 l SYN [] now) as (c1 & He & Kok & Kst & Ksn & Krn & Krc & Kpc & Kout);
    try done; [by constructor|].
  rewrite He in Ho. apply Ok_inj in Ho as [= -> <-].
  assert (Hno : ¬ synced c) by (unfold synced; rewrite Kst; by intros []).
  unfold pair_inv, sends, receives, arrived. cbn. split_wf; try done.
  - apply Forall_singleton. split; [|done]. apply built_ok; try done. by constructor.
  - rewrite Ksn. change (seq_len _) with 1. unfold wrapping_add32, len, b2z. cbn. f_equal. lia.
  - intros o [->|Ho]%Kout; [|done]. by apply list_elem_of_singleton.
  - by rewrite Kst.
  - rewrite Krc. apply prefix_nil.
  - by rewrite Kpc.
Qed.

Lemma steps_sends s t : rtc step s t → sends s.1 → sends s.2 → sends t.1 ∧ sends t.2.
Proof.
  induction 1 as [s|s u t Hst _ IH]; [done|]. intros H1 H2. destruct (step_sends _ _ Hst H1 H2). by apply IH.
Qed.
Lemma steps_inv s t : rtc step s t → pair_inv s → short_stream t.1 → short_stream t.2 → pair_inv t.
Proof.
  intros Hst Hs. revert t Hst. refine (rtc_ind_r _ s _ _); [done|]. intros s' t Hss Hst IH Hl Hr.
  destruct (steps_sends _ _ Hss) as [H1 H2]; [apply Hs..|].
  destruct (step_short _ _ Hst H1 H2 Hl Hr). eapply step_receives; eauto.
Qed.

(** ** Properties *)

(** C1: Between an endpoint that connects and one that listens, over a network
    that loses, repeats, delays and reorders segments, with any interleaving of
    writes, reads, closes and retransmissions: as long as fewer than
    [2^32 - 2] bytes are written on each side, what either application has read
    (and what waits for it) is a prefix of what the other has written, and the
    end of the stream is signalled only once all of it has arrived. *)
Theorem stream_integrity l r isn_l isn_r now s t :
  opened l r isn_l isn_r now s → rtc step s t → short_stream t.1 → short_stream t.2 →
  (arrived t.2 `prefix_of` written t.1 ∧ arrived t.1 `prefix_of` written t.2)
  ∧ (end_of_stream t.2 = true → finished t.1 = true ∧ arrived t.2 = written t.1)
  ∧ (end_of_stream t.1 = true → finished t.2 = true ∧ arrived t.1 = written t.2).
Proof.
  intros Ho Hst Hl Hr. destruct (steps_inv _ _ Hst (opened_inv _ _ _ _ _ _ Ho) Hl Hr) as (_ & _ & H1 & H2).
  unfold receives, end_of_stream, arrived in *. split; [split|split].
  - destruct (connection t.2); [apply H1|]. rewrite H1. apply prefix_nil.
  - destruct (connection t.1); [apply H2|]. rewrite H2. apply prefix_nil.
  - destruct (connection t.2); [apply H1|done].
  - destruct (connection t.1); [apply H2|done].
Qed.

(** *** On a network that delivers *)

(** Two connected endpoints at rest: nothing is pending and each expects the
    number the other will use. *)
Definition at_rest (c d : TcpConnection) : Prop :=
  outstanding c = None ∧ outstanding d = None
  ∧ send_next c = receive_next d ∧ send_next d = receive_next c.

(** What [receive] does with a segment that is in order, acknowledges
    everything and fits the buffer. *)
Lemma receive_in_order {E} c socket g now :
  state c ≠ Closed → state c ≠ TimeWait → state c ≠ SynSent → state c ≠ LastAck →
  flags_contains (flags g) RST = false → flags_contains (flags g) SYN = false →
  flags_contains (flags g) ACK = true → sequence g = receive_next c → acknowledgment g = send_next c →
  peer_closed c = false →
  @receive E c socket g now
  = receive_data (c <| outstanding := None |>
                    <| state := if bool_decide (state c = SynReceived) then Established else state c |>) socket g now.
Proof.
  intros H1 H2 H3 H4 Hr Hs Ha Hq Hk Hp. unfold receive.
  rewrite bool_decide_false, Hr, bool_decide_false, bool_decide_false, Hs by done.
  rewrite andb_false_r, andb_false_l, Hq, Z.eqb_refl, Ha. cbn [negb].
  unfold receive_ack. rewrite Hk, Z.eqb_refl. cbn.
  destruct (bool_decide (state c = SynReceived)) eqn:E1; cbn; [done|].
  rewrite bool_decide_false by done. by rewrite Hp, andb_false_r.
Qed.

(** [receive_data] on data that fits, with or without the end of the stream. *)
Definition taken c (g : TcpSegment) (now : SimTime) : TcpConnection :=
  c <| last_activity := now |> <| peer_window := window g |>
    <| receive_next := wrapping_add32 (receive_next c) (seq_len g) |> <| received := received c ++ payload g |>.

Lemma receive_data_taken {E} c socket g now :
  peer_closed c = false → flags_contains (flags g) FIN = false → flags_contains (flags g) SYN = false →
  len (received c) + len (payload g) ≤ RECEIVE_LIMIT →
  @receive_data E c socket g now
  = Ok (taken c g now, if len (payload g) =? 0 then None else Some (built (taken c g now) socket ACK [])).
Proof.
  intros Hp Hf Hs Hl. unfold receive_data, taken. cbn. rewrite Hp, Hf, orb_false_r.
  assert (0 ≤ len (received c)) by lens. assert (0 ≤ len (payload g)) by lens.
  unfold seq_len. rewrite Hf, Hs. unfold sat_add, U64_MAX, RECEIVE_LIMIT, b2z in *. rewrite Z.min_r by lia.
  destruct (65535 <? _) eqn:E1; [lia|]. rewrite (Z.mod_small (len (payload g))), !Z.add_0_r by lia.
  destruct (len (payload g) =? 0); cbn [negb]; [done|].
  rewrite acknowledge_eq; [done|]. cbn. rewrite len_app. unfold RECEIVE_LIMIT. lia.
Qed.

(** C13: When two established endpoints are at rest and the receiver has room,
    a write is transmitted as one segment, its delivery appends exactly its
    bytes to the other side's buffer, and the delivery of the acknowledgment
    leaves both sides at rest again, with the writer knowing the new window. *)
Theorem write_delivered c d sc sd p now1 now2 now3 :
  connection_ok c → connection_ok d → socket_ok sc → socket_ok sd → at_rest c d →
  state c = Established → state d = Established → peer_closed c = false → peer_closed d = false →
  bytes_ok p → 0 < len p ≤ MAX_PAYLOAD → len p ≤ peer_window c → len (received d) + len p ≤ RECEIVE_LIMIT →
  ∃ c1 seg d1 ack c2,
    connection_write c sc p now1 = Ok (c1, seg)
    ∧ @receive TcpError d sd seg now2 = Ok (d1, Some ack)
    ∧ @receive TcpError c1 sc ack now3 = Ok (c2, None)
    ∧ received d1 = received d ++ p ∧ received c2 = received c
    ∧ at_rest c2 d1 ∧ state c2 = Established ∧ state d1 = Established
    ∧ peer_window c2 = RECEIVE_LIMIT - len (received d1).
Proof.
  intros Hc Hd Hsc Hsd (Hoc & Hod & Hcd & Hdc) Hstc Hstd Hpc Hpd Hp Hl Hw Hfit.
  pose proof Hc as (_&_&_&_&Hlc&_&_). pose proof Hd as (_&Hrd&_&_&Hld&_&_). unfold MAX_PAYLOAD in *.
  unfold connection_write, can_write. rewrite Hstc, Hoc. cbn [negb].
  rewrite bool_decide_false by (intros [? ?]; done). destruct (peer_window c <? len p) eqn:E; [lia|]. cbn [orb].
  rewrite send_eq by (done || lia). set (seg := built c sc (flags_bitor ACK PSH) p).
  assert (Hseg : seq_len seg = len p + 0 + 0) by done. cbv zeta. rewrite Hseg.
  destruct (len p + 0 + 0 =? 0) eqn:E0; [lia|]. cbn [negb].
  do 5 eexists. split; [reflexivity|].
  rewrite receive_in_order by (done || congruence).
  rewrite Hstd, receive_data_taken by (done || (cbn; lia)). change (payload seg) with p.
  destruct (len p =? 0) eqn:E1; [lia|]. split; [reflexivity|].
  rewrite receive_in_order by (cbn; rewrite ?Hstc, ?Hseg; (done || congruence)).
  rewrite receive_data_taken by (done || (cbn; unfold len at 2; cbn; lia)).
  split; [reflexivity|]. unfold at_rest. cbn. rewrite app_nil_r, Hstc, Hseg, Hcd, Hdc.
  split_and!; try done. unfold wrapping_add32, seq_len. cbn. rewrite Z.add_0_r, Z.mod_small; [done|].
  destruct Hc as (_&?&_). lia.
Qed.

(** The three segments of an active and a passive open, delivered once
    each, leave both endpoints established, at rest, with empty buffers and
    full windows, and are between the ports of the sockets. *)
Lemma tcp_handshake l r il ir n1 n2 n3 n4 :
  ∃ c1 syn d1 synack c2 ack d2,
    open_active il l n1 = Ok (c1, syn) ∧ flags syn = SYN
    ∧ @open_passive TcpError ir r syn n2 = Ok (d1, synack)
    ∧ @receive TcpError c1 l synack n3 = Ok (c2, Some ack)
    ∧ @receive TcpError d1 r ack n4 = Ok (d2, None)
    ∧ state c2 = Established ∧ state d2 = Established ∧ at_rest c2 d2
    ∧ received c2 = [] ∧ received d2 = [] ∧ peer_window c2 = 65535 ∧ peer_window d2 = 65535
    ∧ passive c2 = false ∧ passive d2 = true
    ∧ (source_port synack = local_port r ∧ destination_port synack = remote_port r)
    ∧ source_port ack = local_port l ∧ destination_port ack = remote_port l.
Proof.
  unfold open_active, open_passive.
  do 7 eexists. split; [by rewrite send_eq by done|]. cbn [built flags]. split; [done|].
  split; [by rewrite send_eq by done|]. cbn.
  assert (Hack : wrapping_add32 (wrapping_add32 il 1) 0 = wrapping_add32 il 1).
  { unfold wrapping_add32. rewrite Z.add_0_r, Z.mod_mod by lia. done. }
  split.
  { unfold receive. cbn. unfold receive_syn_sent. cbn. rewrite Z.eqb_refl. cbn. by rewrite acknowledge_eq. }
  split.
  { rewrite receive_in_order by done. by rewrite receive_data_taken by done. }
  unfold at_rest. cbn. split_and!; done.
Qed.

Lemma receive_data_fin {E} c socket g now :
  peer_closed c = false → flags_contains (flags g) FIN = true → payload g = [] →
  len (received c) ≤ RECEIVE_LIMIT → state c ≠ FinWait →
  @receive_data E c socket g now
  = Ok (let c' := c <| last_activity := now |> <| peer_window := window g |>
                    <| receive_next := wrapping_add32 (wrapping_add32 (receive_next c) 0) 1 |>
                    <| peer_closed := true |> <| state := CloseWait |> in
        (c', Some (built c' socket ACK []))).
Proof.
  intros Hp Hf Hpay Hl Hst. unfold receive_data. cbn. rewrite Hp, Hf, Hpay, orb_true_r.
  assert (0 ≤ len (received c)) by lens. unfold sat_add, U64_MAX, RECEIVE_LIMIT, len in *. cbn.
  rewrite Z.add_0_r, Z.min_r by lia. destruct (65535 <? _) eqn:E1; [lia|].
  rewrite bool_decide_false by done. rewrite acknowledge_eq, app_nil_r; [done|].
  cbn. rewrite app_nil_r. unfold RECEIVE_LIMIT, len. lia.
Qed.
Lemma receive_data_last_fin {E} c socket g now :
  peer_closed c = false → flags_contains (flags g) FIN = true → payload g = [] →
  len (received c) ≤ RECEIVE_LIMIT → state c = FinWait → outstanding c = None →
  @receive_data E c socket g now
  = Ok (let c' := enter_time_wait (c <| last_activity := now |> <| peer_window := window g |>
                    <| receive_next := wrapping_add32 (wrapping_add32 (receive_next c) 0) 1 |>
                    <| peer_closed := true |>) now in
        (c', Some (built c' socket ACK []))).
Proof.
  intros Hp Hf Hpay Hl Hst Ho. unfold receive_data. cbn. rewrite Hp, Hf, Hpay, orb_true_r.
  assert (0 ≤ len (received c)) by lens. unfold sat_add, U64_MAX, RECEIVE_LIMIT, len in *. cbn.
  rewrite Z.add_0_r, Z.min_r by lia. destruct (65535 <? _) eqn:E1; [lia|].
  rewrite Hst, Ho, !bool_decide_true by done. rewrite acknowledge_eq, app_nil_r; [done|].
  cbn. rewrite app_nil_r. unfold RECEIVE_LIMIT, len. lia.
Qed.

Lemma connection_close_some c socket now :
  connection_ok c → socket_ok socket → can_write c = true → outstanding c = None →
  ∃ c' g, connection_close c socket now = Ok (c', g).
Proof.
  intros Hc Hs Hw Ho. unfold connection_close, can_write in *. rewrite Ho, bool_decide_false by (intros [? ?]; done).
  pose proof Hc as (_&_&_&_&?&_&_).
  destruct (state c); try done; rewrite bind_Ok, send_eq by done; eexists _, _; reflexivity.
Qed.

(** The four segments of a close. The sender of each is [c], with the numbers
    its receiver [d] expects. *)
Section closing.
Context (c d : TcpConnection) (sc sd : TcpSocket) (now : SimTime).
Hypothesis Hc : connection_ok c.
Hypothesis Hd : connection_ok d.
Hypothesis Hseq : send_next c = receive_next d.
Hypothesis Hack : receive_next c = send_next d.

Lemma built_window f p : u16 (window (built c sc f p)).
Proof using Hc. destruct Hc as (_&_&_&_&?&_&_). cbn. unfold RECEIVE_LIMIT in *. assert (0 ≤ len (received c)) by lens. lia. Qed.
Lemma wrapping_zero x : u32 x → wrapping_add32 x 0 = x.
Proof using. intros. unfold wrapping_add32. rewrite Z.add_0_r, Z.mod_small; lia. Qed.

Lemma receive_fin :
  state d = Established → peer_closed d = false →
  ∃ d', @receive TcpError d sd (built c sc (flags_bitor ACK FIN) []) now = Ok (d', Some (built d' sd ACK []))
    ∧ connection_ok d' ∧ state d' = CloseWait ∧ outstanding d' = None ∧ send_next d' = send_next d
    ∧ receive_next d' = wrapping_add32 (receive_next d) 1 ∧ peer_closed d' = true.
Proof using All.
  intros Hst Hp. pose proof (built_window (flags_bitor ACK FIN) []). pose proof Hd as (?&?&?&?&?&?&?).
  rewrite receive_in_order by (done || congruence).
  rewrite receive_data_fin by (cbn; rewrite ?Hst; done). eexists. split; [reflexivity|]. cbn.
  rewrite wrapping_zero by done. split_and!; try done. ok_fields.
Qed.

Lemma receive_fin_ack :
  state d = FinWait → peer_closed d = false →
  ∃ d', @receive TcpError d sd (built c sc ACK []) now = Ok (d', None)
    ∧ connection_ok d' ∧ state d' = FinWait ∧ outstanding d' = None ∧ send_next d' = send_next d
    ∧ receive_next d' = receive_next d ∧ peer_closed d' = false.
Proof using All.
  intros Hst Hp. pose proof (built_window ACK []). pose proof Hd as (?&?&?&?&?&?&?).
  rewrite receive_in_order by (done || congruence).
  rewrite receive_data_taken by (done || (cbn; unfold len at 2; cbn; lia)).
  eexists. split; [reflexivity|]. cbn. unfold seq_len. cbn. rewrite wrapping_zero, Hst by done.
  split_and!; try done. ok_fields; rewrite ?app_nil_r; try done.
Qed.

Lemma receive_last_fin :
  state d = FinWait → outstanding d = None → peer_closed d = false →
  ∃ d', @receive TcpError d sd (built c sc (flags_bitor ACK FIN) []) now = Ok (d', Some (built d' sd ACK []))
    ∧ state d' = TimeWait ∧ time_wait_until d' = Some (sat_add U64_MAX now TIME_WAIT_US)
    ∧ send_next d' = send_next d ∧ receive_next d' = wrapping_add32 (receive_next d) 1.
Proof using All.
  intros Hst Ho Hp. pose proof Hd as (?&?&?&?&?&?&?).
  rewrite receive_in_order by (done || congruence).
  rewrite receive_data_last_fin by (cbn; rewrite ?Hst; done). eexists. split; [reflexivity|]. cbn.
  by rewrite wrapping_zero.
Qed.

Lemma receive_last_ack :
  state d = LastAck →
  ∃ d', @receive TcpError d sd (built c sc ACK []) now = Ok (d', None) ∧ state d' = Closed.
Proof using Hseq Hack.
  intros Hst. unfold receive. cbn. rewrite Hst, Hseq, Z.eqb_refl. cbn. unfold receive_ack. cbn.
  rewrite Hack, Z.eqb_refl, Hst. cbn. eexists. split; [reflexivity|done].
Qed.
End closing.

(** C15: When both established endpoints at rest close, one after the other, the
    four segments of the exchange leave the first closer waiting in
    [TimeWait] and the second closed. *)
Theorem orderly_close c d sc sd n1 n2 n3 n4 n5 n6 :
  connection_ok c → connection_ok d → socket_ok sc → socket_ok sd → at_rest c d → state c = Established → state d = Established →
  peer_closed c = false → peer_closed d = false →
  ∃ c1 fin d1 ack c2 d2 fin' c3 ack' d3,
    connection_close c sc n1 = Ok (c1, fin) ∧ state c1 = FinWait
    ∧ @receive TcpError d sd fin n2 = Ok (d1, Some ack) ∧ state d1 = CloseWait
    ∧ @receive TcpError c1 sc ack n3 = Ok (c2, None) ∧ state c2 = FinWait
    ∧ connection_close d1 sd n4 = Ok (d2, fin') ∧ state d2 = LastAck
    ∧ @receive TcpError c2 sc fin' n5 = Ok (c3, Some ack') ∧ state c3 = TimeWait
    ∧ time_wait_until c3 = Some (sat_add U64_MAX n5 TIME_WAIT_US)
    ∧ @receive TcpError d2 sd ack' n6 = Ok (d3, None) ∧ state d3 = Closed.
Proof.
  intros Hc Hd Hsc Hsd (Hoc & Hod & Hcd & Hdc) Hstc Hstd Hpc Hpd.
  destruct (connection_close_some c sc n1) as (c1 & fin & Hclose); [done|done|by unfold can_write; rewrite Hstc|done|].
  destruct (connection_close_ok _ _ _ _ _ Hc Hsc Hclose) as (_ & -> & C1 & C2 & C3 & C4 & C5 & C6 & _).
  rewrite Hstc, bool_decide_true in C2 by done.
  destruct (receive_fin c d sc sd n2 Hc Hd) as (d1 & R1 & D1 & D2 & D3 & D4 & D5 & D6); [congruence..|].
  destruct (receive_fin_ack d1 c1 sd sc n3 D1 C1) as (c2 & R2 & E1 & E2 & E3 & E4 & E5 & E6); [congruence..|].
  destruct (connection_close_some d1 sd n4) as (d2 & fin' & Hclose'); [done|done|by unfold can_write; rewrite D2|done|].
  destruct (connection_close_ok _ _ _ _ _ D1 Hsd Hclose') as (_ & -> & F1 & F2 & F3 & F4 & F5 & F6 & _).
  rewrite D2, bool_decide_false in F2 by done.
  destruct (receive_last_fin d1 c2 sd sc n5 D1 E1) as (c3 & R3 & G1 & G2 & G3 & G4); [congruence..|].
  destruct (receive_last_ack c3 d2 sc sd n6) as (d3 & R4 & K1); [congruence..|].
  exists c1, (built c sc (flags_bitor ACK FIN) []), d1, (built d1 sd ACK []), c2, d2,
    (built d1 sd (flags_bitor ACK FIN) []), c3, (built c3 sc ACK []), d3.
  by split_and!.
Qed.

(** *** Retransmission *)

(** The timer fires [n] times, each time at the deadline it finds; the segments
    transmitted, with their instants. *)
Fixpoint expire {E} (n : nat) (c : TcpConnection) : res E (TcpConnection * list (SimTime * TcpSegment)) :=
  match n, outstanding c with
  | S n, Some o =>
      '(c, again) ← retransmit c (deadline o);
      '(c, rest) ← expire n c;
      Ok (c, map (pair (deadline o)) (option_list again) ++ rest)
  | _, _ => Ok (c, [])
  end.

Lemma retransmit_again {E} c o :
  outstanding c = Some o → 0 ≤ retries o < 5 → 0 ≤ retransmissions c < U64_MAX →
  @retransmit E c (deadline o)
  = Ok (c <| outstanding := Some {| pending_segment := pending_segment o;
                 deadline := sat_add U64_MAX (deadline o) (1000000 * 2 ^ (retries o + 1));
                 retries := retries o + 1 |} |>
          <| retransmissions := retransmissions c + 1 |>, Some (pending_segment o)).
Proof.
  intros Ho Hr Hn. unfold retransmit. rewrite Ho, Z.ltb_irrefl. destruct (5 <=? retries o) eqn:E5; [lia|].
  unfold U8_MAX, U64_MAX in *. rewrite (arith_Ok 255), bind_Ok, arith_Ok, bind_Ok by lia. cbn.
  by rewrite Z.shiftl_mul_pow2 by lia.
Qed.

Lemma expire_again n c o :
  outstanding c = Some o → 0 ≤ retries o → retries o + Z.of_nat n ≤ 5 →
  0 ≤ retransmissions c → retransmissions c + Z.of_nat n ≤ U64_MAX →
  deadline o + 1000000 * (2 ^ (retries o + 1 + Z.of_nat n) - 2 ^ (retries o + 1)) ≤ U64_MAX →
  ∃ c' o', @expire TcpError n c
    = Ok (c', map (λ i, (deadline o + 1000000 * (2 ^ (retries o + 1 + i) - 2 ^ (retries o + 1)), pending_segment o))
                (seqZ 0 (Z.of_nat n)))
    ∧ outstanding c' = Some o' ∧ retries o' = retries o + Z.of_nat n ∧ state c' = state c
    ∧ retransmissions c' = retransmissions c + Z.of_nat n.
Proof.
  revert c o. induction n as [|n IH]; intros c o Ho Hr Hr' Hn Hn' Hd.
  { exists c, o. cbn. split_and!; try done; lia. }
  set (o1 := {| pending_segment := pending_segment o;
                deadline := sat_add U64_MAX (deadline o) (1000000 * 2 ^ (retries o + 1)); retries := retries o + 1 |}).
  set (c1 := c <| outstanding := Some o1 |> <| retransmissions := retransmissions c + 1 |>).
  assert (H1 : @retransmit TcpError c (deadline o) = Ok (c1, Some (pending_segment o)))
    by (apply retransmit_again; [done|lia..]).
  cbn [expire]. rewrite Ho, H1, bind_Ok.
  assert (Hpow : ∀ i, 0 ≤ i → 2 ^ (retries o + 1 + 1 + i) = 2 * 2 ^ (retries o + 1 + i)).
  { intros i Hi. rewrite <-Z.pow_succ_r by lia. f_equal. lia. }
  pose proof (Hpow 0 ltac:(lia)) as Hp0. rewrite !Z.add_0_r in Hp0.
  pose proof (Z.pow_pos_nonneg 2 (retries o + 1) ltac:(lia) ltac:(lia)).
  assert (Hmono : 2 ^ (retries o + 1 + 1) ≤ 2 ^ (retries o + 1 + Z.of_nat (S n))) by (apply Z.pow_le_mono_r; lia).
  assert (Ht : deadline o1 = deadline o + 1000000 * 2 ^ (retries o + 1)).
  { cbn. unfold sat_add. lia. }
  destruct (IH c1 o1)
    as (c' & o' & He & Ho' & Hr1 & Hs & Hc'); cbn -[Z.pow deadline]; try lia; [done| |].
  { rewrite Ht. replace (retries o + 1 + 1 + Z.of_nat n) with (retries o + 1 + Z.of_nat (S n)) by lia. lia. }
  rewrite He, bind_Ok. exists c', o'. cbn in Hr1, Hc', Hs. split_and!; try done; try lia.
  assert (Hseq : seqZ 0 (Z.of_nat (S n)) = 0 :: map (Z.add 1) (seqZ 0 (Z.of_nat n))).
  { rewrite seqZ_cons by lia. f_equal. replace (Z.pred (Z.of_nat (S n))) with (Z.of_nat n) by lia.
    symmetry. exact (fmap_add_seqZ 1 0 (Z.of_nat n)). }
  rewrite Hseq. cbn [option_list map app]. rewrite map_map. do 3 f_equal; [f_equal; rewrite Z.add_0_r; lia|].
  apply map_ext_in. intros i Hi%list_elem_of_In%elem_of_seqZ. f_equal. rewrite Ht. cbn [retries o1].
  change (retries o1) with (retries o + 1). rewrite Hpow by lia.
  replace (retries o + 1 + (1 + i)) with (retries o + 1 + 1 + i) by lia. rewrite Hpow by lia. lia.
Qed.

(** A segment that is never acknowledged is transmitted again five times,
    two, four, eight, sixteen and thirty-two seconds apart, each time
    unchanged, and the sixth expiry closes the connection. *)
Theorem retransmission_gives_up c o :
  outstanding c = Some o → retries o = 0 → 0 ≤ deadline o → deadline o + 62000000 ≤ U64_MAX →
  0 ≤ retransmissions c → retransmissions c + 5 ≤ U64_MAX →
  ∃ c5 c6, @expire TcpError 5 c
    = Ok (c5, map (λ after, (deadline o + after, pending_segment o)) [0; 2000000; 6000000; 14000000; 30000000])
    ∧ state c5 = state c ∧ retransmissions c5 = retransmissions c + 5
    ∧ @expire TcpError 1 c5 = Ok (c6, []) ∧ state c6 = Closed.
Proof.
  intros Ho Hr Hd Hd' Hn Hn'.
  destruct (expire_again 5 c o Ho) as (c5 & o5 & He & Ho5 & Hr5 & Hs5 & Hc5); rewrite ?Hr; try (cbn; lia).
  rewrite Hr in He, Hr5. exists c5, (c5 <| state := Closed |>). split_and!; try done.
  cbn [expire]. rewrite Ho5. unfold retransmit. rewrite Ho5, Z.ltb_irrefl, Hr5. done.
Qed.

(** ** Concrete runs *)

(** [acts_call] as a function, with its side conditions decided. *)
Definition permitted (incoming : list TcpSegment) (x : call) : bool :=
  match x with
  | Deliver g _ => bool_decide (g ∈ incoming)
  | Write p _ => (0 <? len p) && (len p <=? MAX_PAYLOAD) && forallb (λ b, (0 <=? b) && (b <? 256)) p
  | _ => true
  end.
Definition act (incoming : list TcpSegment) (e : End) (x : call) : option End :=
  match connection e with
  | Some c =>
      if permitted incoming x && (retransmissions c <? U64_MAX)
      then match run_call c (socket e) x with Ok (c', out, w, d) => Some (after e x c' out w d) | _ => None end
      else None
  | None => None
  end.
Lemma act_acts incoming e x : is_Some (act incoming e x) → acts incoming e (default e (act incoming e x)).
Proof.
  intros [e' He]. rewrite He. cbn. revert He. unfold act. destruct (connection e) as [c|] eqn:Hc; [|done].
  destruct (permitted incoming x && _) eqn:Hp; [|done]. apply andb_true_iff in Hp as [Hp Hr].
  destruct (run_call c (socket e) x) as [[[[c' out] w] d]| |] eqn:Hrun; [|done..]. intros [= <-].
  apply (acts_call incoming e c x c' out w d); try done; [| |lia].
  - intros g now ->. by apply bool_decide_eq_true in Hp.
  - intros p now ->. cbn in Hp. rewrite !andb_true_iff in Hp. destruct Hp as [[H1 H2] H3].
    split; [lia|]. apply Forall_forall. intros b Hb%list_elem_of_In. rewrite forallb_forall in H3.
    specialize (H3 b Hb). lia.
Qed.

(** A left side at 10.0.0.1 that connects to a right side at 10.0.0.2: the
    handshake, three bytes, and the close of the left side. *)
Definition sample_l : TcpSocket :=
  {| local_address := 167772161; local_port := 49152; remote_address := 167772162; remote_port := 80 |}.
Definition sample_r : TcpSocket :=
  {| local_address := 167772162; local_port := 80; remote_address := 167772161; remote_port := 49152 |}.
Definition sample_syn : TcpConnection * TcpSegment :=
  match open_active 7 sample_l 0 with Ok r => r | _ => (connection_new 0 0, built (connection_new 0 0) sample_l 0 []) end.
Definition start_l : End :=
  {| socket := sample_l; isn := 7; connection := Some sample_syn.1; sent := [sample_syn.2]; written := [];
     consumed := []; finished := false |}.
Definition start_r : End :=
  {| socket := sample_r; isn := 4294967295; connection := None; sent := []; written := []; consumed := [];
     finished := false |}.
Definition accepted_r : TcpConnection * TcpSegment :=
  match @open_passive TcpError 4294967295 sample_r sample_syn.2 1 with Ok r => r | _ => sample_syn end.
Definition r1 : End :=
  {| socket := sample_r; isn := 4294967295; connection := Some accepted_r.1; sent := [accepted_r.2]; written := [];
     consumed := []; finished := false |}.
(** [e] does [x], or takes the last segment of [p]. *)
Definition does (p e : End) (x : call) : End := default e (act (sent p) e x).
Definition latest (p : End) (now : SimTime) : call := Deliver (List.last (sent p) sample_syn.2) now.
Definition l1 : End := does r1 start_l (latest r1 2).
Definition r2 : End := does l1 r1 (latest l1 3).
Definition l2 : End := does r2 l1 (Write [1; 2; 3] 4).
Definition r3 : End := does l2 r2 (latest l2 5).
Definition l3 : End := does r3 l2 (latest r3 6).
Definition l4 : End := does r3 l3 (Close 7).
Definition r4 : End := does l4 r3 (latest l4 8).
Definition r5 : End := does l4 r4 Read.

Lemma sample_opened : opened sample_l sample_r 7 4294967295 0 (start_l, start_r).
Proof.
  do 4 (split; [unfold socket_ok; cbn; lia|]). by exists sample_syn.1, sample_syn.2.
Qed.
Lemma sample_handshake : rtc step (start_l, start_r) (l1, r2).
Proof.
  apply rtc_l with (start_l, r1).
  { apply step_right. apply (acts_accept _ start_r sample_syn.2 1 accepted_r.1); [done|by constructor|done|by vm_compute]. }
  apply rtc_l with (l1, r1); [apply step_left, act_acts; by eexists; vm_compute|].
  apply rtc_l with (l1, r2); [apply step_right, act_acts; by eexists; vm_compute|].
  apply rtc_refl.
Qed.
Lemma sample_steps : rtc step (start_l, start_r) (l4, r5).
Proof.
  etrans; [apply sample_handshake|].
  apply rtc_l with (l2, r2); [apply step_left, act_acts; by eexists; vm_compute|].
  apply rtc_l with (l2, r3); [apply step_right, act_acts; by eexists; vm_compute|].
  apply rtc_l with (l3, r3); [apply step_left, act_acts; by eexists; vm_compute|].
  apply rtc_l with (l4, r3); [apply step_left, act_acts; by eexists; vm_compute|].
  apply rtc_l with (l4, r4); [apply step_right, act_acts; by eexists; vm_compute|].
  apply rtc_l with (l4, r5); [apply step_right, act_acts; by eexists; vm_compute|].
  apply rtc_refl.
Qed.

Definition sample_end : End * End := (l4, r5).
Lemma sample_reached : rtc step (start_l, start_r) sample_end.
Proof. apply sample_steps. Qed.
Lemma stream_integrity_witness :
  arrived sample_end.2 = [1; 2; 3] ∧ finished sample_end.1 = true ∧ arrived sample_end.2 = written sample_end.1.
Proof.
  split; [by vm_compute|].
  refine (proj1 (proj2 (stream_integrity sample_l sample_r 7 4294967295 0 (start_l, start_r) sample_end
                          sample_opened sample_reached _ _)) _); by vm_compute.
Defined.

Definition established (e : End) : TcpConnection := default (connection_new 0 0) (connection e).
Lemma established_ok e : is_Some (connection e) → sends e → connection_ok (established e).
Proof. intros [c Hc] (_ & _ & _ & H). unfold established. rewrite Hc in *. apply H. Qed.
Definition sample_mid : End * End := (l1, r2).
Lemma sample_mid_ok : connection_ok (established sample_mid.1) ∧ connection_ok (established sample_mid.2).
Proof.
  assert (rtc step (start_l, start_r) sample_mid) as Hs by apply sample_handshake.
  destruct (steps_sends _ _ Hs) as [H1 H2]; [apply (opened_inv _ _ _ _ _ _ sample_opened)..|].
  split; (apply established_ok; [by eexists; vm_compute|assumption]).
Qed.
Lemma write_delivered_witness : ∃ d1, received d1 = [9; 8] ∧ state d1 = Established.
Proof.
  destruct (write_delivered (established sample_mid.1) (established sample_mid.2) sample_l sample_r [9; 8] 4 5 6)
    as (? & ? & d1 & ? & ? & ? & ? & ? & Hr & ? & ? & ? & Hd & ?);
    [apply sample_mid_ok|apply sample_mid_ok|unfold socket_ok; cbn; lia|unfold socket_ok; cbn; lia
    |by vm_compute|by vm_compute|by vm_compute|by vm_compute|by vm_compute
    |repeat constructor; lia|by vm_compute|by vm_compute|by vm_compute|].
  exists d1. split; [exact Hr|exact Hd].
Defined.
Lemma orderly_close_witness : ∃ c3 d3, state c3 = TimeWait ∧ time_wait_until c3 = Some 120000008 ∧ state d3 = Closed.
Proof.
  destruct (orderly_close (established sample_mid.1) (established sample_mid.2) sample_l sample_r 4 5 6 7 8 9)
    as (? & ? & ? & ? & ? & ? & ? & c3 & ? & d3 & ? & ? & ? & ? & ? & ? & ? & ? & ? & H1 & H2 & ? & H3);
    [apply sample_mid_ok|apply sample_mid_ok|unfold socket_ok; cbn; lia|unfold socket_ok; cbn; lia
    |by vm_compute|by vm_compute|by vm_compute|by vm_compute|by vm_compute|].
  exists c3, d3. split; [exact H1|]. split; [exact H2|exact H3].
Defined.
Lemma retransmission_gives_up_witness :
  ∃ c6, state c6 = Closed
    ∧ ∃ c5, @expire TcpError 5 sample_syn.1 = Ok (c5, map (λ after, (1000000 + after, sample_syn.2))
                                                     [0; 2000000; 6000000; 14000000; 30000000])
      ∧ @expire TcpError 1 c5 = Ok (c6, []).
Proof.
  destruct (retransmission_gives_up sample_syn.1 {| pending_segment := sample_syn.2; deadline := 1000000; retries := 0 |})
    as (c5 & c6 & H5 & _ & _ & H6 & Hc); [by vm_compute..|].
  exists c6. split; [exact Hc|]. exists c5. split; [exact H5|exact H6].
Defined.
