(* ===== verification/Dhcp.v ===== *)
(** rios-protocol, DHCPv4 messages over the BOOTP header
    (src/crates/rios-protocol/src/dhcp.rs). *)
From S2P Require Import Prelude Wire Text.

Definition MAGIC_COOKIE : bytes := [99; 130; 83; 99].

Inductive DhcpMessageType := Discover | Offer | Request | Decline | Ack | Nak.
Definition type_code (t : DhcpMessageType) : Z :=
  match t with Discover => 1 | Offer => 2 | Request => 3 | Decline => 4 | Ack => 5 | Nak => 6 end.

Record DhcpMessage := {
  message_type : DhcpMessageType;
  transaction_id : Z;
  client_mac : bytes;
  your_ip : Z;
  client_ip : Z;
  relay_ip : Z;
  hops : Z;
  dns_servers : list Z;
  domain_name : option bytes;
  renewal_seconds : option Z;
  rebinding_seconds : option Z;
  requested_ip : option Z;
  server_id : option Z;
  subnet_mask : option Z;
  default_router : option Z;
  lease_time_seconds : option Z
}.
Inductive DhcpPacketError := Truncated | Unsupported | InvalidOption.

Definition push_option (bs : bytes) (code : Z) (value : bytes) : bytes :=
  bs ++ [code; len value `mod` 256] ++ value.
Definition push_u32 (bs : bytes) (code : Z) (o : option Z) : bytes :=
  match o with Some value => push_option bs code (be 4 value) | None => bs end.

Definition request_op (t : DhcpMessageType) : Z :=
  match t with Discover | Request | Decline => 1 | Offer | Ack | Nak => 2 end.

(** The fixed 240-octet header of [encode]. *)
Definition dhcp_header (m : DhcpMessage) : res DhcpPacketError bytes :=
  let bs := zeros 240 in
  bs ← put bs 0 [request_op (message_type m)];
  bs ← put bs 1 [1];
  bs ← put bs 2 [6];
  bs ← put bs 3 [hops m];
  bs ← put bs 12 (be 4 (client_ip m));
  bs ← put bs 24 (be 4 (relay_ip m));
  bs ← put bs 4 (be 4 (transaction_id m));
  bs ← (if client_ip m =? 0 then put bs 10 (be 2 0x8000) else Ok bs);
  bs ← put bs 16 (be 4 (your_ip m));
  bs ← put bs 28 (client_mac m);
  put bs 236 MAGIC_COOKIE.

Definition dhcp_encode (m : DhcpMessage) : res DhcpPacketError bytes :=
  if (63 <? len (dns_servers m))
     || match domain_name m with
        | Some name => (len name =? 0) || (253 <? len name) || negb (is_ascii name)
        | None => false
        end
  then Err InvalidOption
  else
    bs ← dhcp_header m;
    let bs := push_option bs 53 [type_code (message_type m)] in
    let bs := push_u32 bs 50 (requested_ip m) in
    let bs := push_u32 bs 54 (server_id m) in
    let bs := push_u32 bs 1 (subnet_mask m) in
    let bs := push_u32 bs 3 (default_router m) in
    let bs := push_u32 bs 51 (lease_time_seconds m) in
    let bs := match dns_servers m with
              | [] => bs
              | ips => push_option bs 6 (concat (map (be 4) ips))
              end in
    let bs := match domain_name m with Some name => push_option bs 15 name | None => bs end in
    let bs := push_u32 bs 58 (renewal_seconds m) in
    let bs := push_u32 bs 59 (rebinding_seconds m) in
    Ok (bs ++ [255]).

(** The mutable locals of [decode]'s option loop. *)
Record Options := {
  o_message_type : option DhcpMessageType;
  o_requested_ip : option Z;
  o_server_id : option Z;
  o_subnet_mask : option Z;
  o_default_router : option Z;
  o_lease_time_seconds : option Z;
  o_dns_servers : list Z;
  o_domain_name : option bytes;
  o_renewal_seconds : option Z;
  o_rebinding_seconds : option Z
}.
Definition no_options : Options :=
  {| o_message_type := None; o_requested_ip := None; o_server_id := None; o_subnet_mask := None;
     o_default_router := None; o_lease_time_seconds := None; o_dns_servers := [];
     o_domain_name := None; o_renewal_seconds := None; o_rebinding_seconds := None |}.

Definition type_of_code (kind : Z) : res DhcpPacketError DhcpMessageType :=
  if kind =? 1 then Ok Discover else if kind =? 2 then Ok Offer else if kind =? 3 then Ok Request
  else if kind =? 4 then Ok Decline else if kind =? 5 then Ok Ack else if kind =? 6 then Ok Nak
  else Err Unsupported.

(** The [match (code, value)] of the loop. *)
Definition apply_option (a : Options) (code : Z) (value : bytes) : res DhcpPacketError Options :=
  let '{| o_message_type := ty; o_requested_ip := rq; o_server_id := sv; o_subnet_mask := sm;
          o_default_router := dr; o_lease_time_seconds := lt; o_dns_servers := dns;
          o_domain_name := dn; o_renewal_seconds := rn; o_rebinding_seconds := rb |} := a in
  let word := match value with [b0; b1; b2; b3] => Ok (of_be [b0; b1; b2; b3]) | _ => Err InvalidOption end in
  if code =? 53 then
    match value with
    | [kind] => ty ← type_of_code kind; Ok (Build_Options (Some ty) rq sv sm dr lt dns dn rn rb)
    | _ => Err InvalidOption
    end
  else if code =? 50 then w ← word; Ok (Build_Options ty (Some w) sv sm dr lt dns dn rn rb)
  else if code =? 54 then w ← word; Ok (Build_Options ty rq (Some w) sm dr lt dns dn rn rb)
  else if code =? 1 then w ← word; Ok (Build_Options ty rq sv (Some w) dr lt dns dn rn rb)
  else if code =? 3 then w ← word; Ok (Build_Options ty rq sv sm (Some w) lt dns dn rn rb)
  else if code =? 51 then w ← word; Ok (Build_Options ty rq sv sm dr (Some w) dns dn rn rb)
  else if code =? 6 then
    if negb (len value =? 0) && (len value `mod` 4 =? 0)
    then Ok (Build_Options ty rq sv sm dr lt (map of_be (as_chunks 4 value)) dn rn rb)
    else Err InvalidOption
  else if code =? 15 then
    if negb (len value =? 0) && (len value <=? 253) && is_ascii value
    then Ok (Build_Options ty rq sv sm dr lt dns (Some value) rn rb)
    else Err InvalidOption
  else if code =? 58 then w ← word; Ok (Build_Options ty rq sv sm dr lt dns dn (Some w) rb)
  else if code =? 59 then w ← word; Ok (Build_Options ty rq sv sm dr lt dns dn rn (Some w))
  else Ok a.

(** The loop, which consumes at least one octet a round; the flag is [ended]. *)
Fixpoint read_options (fuel : nat) (bs : bytes) (cursor : nat) (a : Options)
    : res DhcpPacketError (Options * bool) :=
  if (length bs <=? cursor)%nat then Ok (a, false)
  else match fuel with
       | O => Panic
       | S fuel =>
           code ← idx bs cursor;
           let cursor := (cursor + 1)%nat in
           if code =? 255 then Ok (a, true)
           else if code =? 0 then read_options fuel bs cursor a
           else
             size ← ok_or (bs !! cursor) InvalidOption;
             let cursor := (cursor + 1)%nat in
             value ← ok_or (get_slice bs cursor (cursor + Z.to_nat size)) InvalidOption;
             a ← apply_option a code value;
             read_options fuel bs (cursor + Z.to_nat size) a
       end.

Definition dhcp_decode (bs : bytes) : res DhcpPacketError DhcpMessage :=
  if len bs <? 241 then Err Truncated
  else
    hw ← slice bs 1 3;
    cookie ← slice bs 236 240;
    if negb (bool_decide (hw = [1; 6])) || negb (bool_decide (cookie = MAGIC_COOKIE))
    then Err Unsupported
    else
      '(a, ended) ← read_options (length bs) bs 240 no_options;
      if negb ended then Err Truncated
      else
        message_type ← ok_or (o_message_type a) Unsupported;
        let expected_op := request_op message_type in
        op ← idx bs 0;
        if negb (op =? expected_op) then Err Unsupported
        else
          transaction_id ← u32_at bs 4;
          client_mac ← slice bs 28 34;
          your_ip ← u32_at bs 16;
          client_ip ← u32_at bs 12;
          relay_ip ← u32_at bs 24;
          hops ← idx bs 3;
          Ok {| message_type := message_type; transaction_id := transaction_id;
                client_mac := client_mac; your_ip := your_ip; client_ip := client_ip;
                relay_ip := relay_ip; hops := hops; dns_servers := o_dns_servers a;
                domain_name := o_domain_name a; renewal_seconds := o_renewal_seconds a;
                rebinding_seconds := o_rebinding_seconds a; requested_ip := o_requested_ip a;
                server_id := o_server_id a; subnet_mask := o_subnet_mask a;
                default_router := o_default_router a;
                lease_time_seconds := o_lease_time_seconds a |}.

(** ** Well-formed values *)

Definition opt_u32 (o : option Z) : Prop := match o with Some x => u32 x | None => True end.
(** What the Rust types guarantee, and the lists [encode] accepts. *)
Definition dhcp_ok (m : DhcpMessage) : Prop :=
  u32 (transaction_id m) ∧ length (client_mac m) = 6%nat ∧ bytes_ok (client_mac m)
  ∧ u32 (your_ip m) ∧ u32 (client_ip m) ∧ u32 (relay_ip m) ∧ u8 (hops m)
  ∧ Forall (λ ip, u32 ip) (dns_servers m)
  ∧ opt_u32 (renewal_seconds m) ∧ opt_u32 (rebinding_seconds m) ∧ opt_u32 (requested_ip m)
  ∧ opt_u32 (server_id m) ∧ opt_u32 (subnet_mask m) ∧ opt_u32 (default_router m)
  ∧ opt_u32 (lease_time_seconds m).
Definition encodable (m : DhcpMessage) : Prop :=
  len (dns_servers m) ≤ 63
  ∧ match domain_name m with
    | Some name => 1 ≤ len name ≤ 253 ∧ is_ascii name = true
    | None => True
    end.

(** ** Helper lemmas *)

Definition bootp (m : DhcpMessage) : bytes :=
  [request_op (message_type m); 1; 6; hops m] ++ be 4 (transaction_id m) ++ [0; 0]
  ++ (if client_ip m =? 0 then be 2 0x8000 else zeros 2) ++ be 4 (client_ip m) ++ be 4 (your_ip m)
  ++ zeros 4 ++ be 4 (relay_ip m) ++ client_mac m ++ zeros 202 ++ MAGIC_COOKIE.
Lemma bootp_eq m :
  length (client_mac m) = 6%nat → dhcp_header m = Ok (bootp m) ∧ length (bootp m) = 240%nat.
Proof.
  destruct m as [ty xid mac yi ci ri h ds dn rn rb rq sv sm dr lt]; cbn [client_mac].
  intros Hl. explode mac 6%nat. unfold dhcp_header, bootp; cbn [client_ip message_type hops transaction_id
    your_ip relay_ip client_mac]. destruct (ci =? 0); crunch; done.
Qed.

(** The options of a message in the order [encode] writes them. *)
Definition word_option (code : Z) (o : option Z) : list (Z * bytes) :=
  match o with Some x => [(code, be 4 x)] | None => [] end.
Definition dns_option (ips : list Z) : list (Z * bytes) :=
  match ips with [] => [] | _ => [(6, concat (map (be 4) ips))] end.
Definition name_option (o : option bytes) : list (Z * bytes) :=
  match o with Some name => [(15, name)] | None => [] end.
Definition tlv (o : Z * bytes) : bytes := [o.1; len o.2 `mod` 256] ++ o.2.
Definition option_list (m : DhcpMessage) : list (Z * bytes) :=
  [(53, [type_code (message_type m)])] ++ word_option 50 (requested_ip m)
  ++ word_option 54 (server_id m) ++ word_option 1 (subnet_mask m)
  ++ word_option 3 (default_router m) ++ word_option 51 (lease_time_seconds m)
  ++ dns_option (dns_servers m) ++ name_option (domain_name m)
  ++ word_option 58 (renewal_seconds m) ++ word_option 59 (rebinding_seconds m).
Definition flat (os : list (Z * bytes)) : bytes := concat (map tlv os).

Lemma flat_app a b : flat (a ++ b) = flat a ++ flat b.
Proof. unfold flat. by rewrite map_app, concat_app. Qed.
Lemma flat_cons o os : flat (o :: os) = tlv o ++ flat os.
Proof. done. Qed.
Lemma push_u32_eq bs code o : push_u32 bs code o = bs ++ flat (word_option code o).
Proof. destruct o; cbn -[be len]; by rewrite ?app_nil_r. Qed.

Lemma dhcp_encode_eq m :
  length (client_mac m) = 6%nat → encodable m →
  dhcp_encode m = Ok (bootp m ++ flat (option_list m) ++ [255]).
Proof.
  intros Hm [Hd Hn]. unfold dhcp_encode. destruct (bootp_eq m Hm) as [-> _].
  match goal with |- (if ?c then _ else _) = _ => assert (c = false) as -> end.
  { destruct (domain_name m); lia. }
  rewrite bind_Ok. f_equal. rewrite !push_u32_eq. unfold option_list. rewrite !flat_app.
  unfold push_option at 3. change (flat [(53, [type_code (message_type m)])]) with
    ([53; len [type_code (message_type m)] `mod` 256] ++ [type_code (message_type m)]).
  destruct (domain_name m), (dns_servers m); cbn [dns_option name_option];
    unfold push_option; rewrite <-!app_assoc; unfold flat, tlv; cbn [map concat fst snd];
    rewrite ?app_nil_r, <-?app_assoc; done.
Qed.

Fixpoint apply_all (a : Options) (os : list (Z * bytes)) : res DhcpPacketError Options :=
  match os with
  | [] => Ok a
  | o :: os => a ← apply_option a o.1 o.2; apply_all a os
  end.
Lemma apply_all_app a xs ys : apply_all a (xs ++ ys) = (a ← apply_all a xs; apply_all a ys).
Proof.
  revert a. induction xs as [|x xs IH]; intros a; [done|]. cbn [app apply_all].
  destruct (apply_option a x.1 x.2); cbn; [apply IH | done | done].
Qed.

(** Options as [encode] writes them: no pad or end code, the length in an octet. *)
Definition option_ok (o : Z * bytes) : Prop := 1 ≤ o.1 ≤ 254 ∧ len o.2 ≤ 255.

Lemma read_one fuel pre o rest a :
  option_ok o →
  read_options (S fuel) (pre ++ tlv o ++ rest) (length pre) a
  = (a ← apply_option a o.1 o.2; read_options fuel (pre ++ tlv o ++ rest) (length (pre ++ tlv o)) a).
Proof.
  destruct o as [c v]. intros [Hc Hv]. cbn [fst snd] in *.
  assert (Hn : len v `mod` 256 = len v) by (apply Z.mod_small; lens).
  assert (Hbs : pre ++ tlv (c, v) ++ rest = (pre ++ [c; len v]) ++ v ++ rest).
  { unfold tlv. cbn [fst snd]. by rewrite Hn, <-!app_assoc. }
  assert (Hend : length (pre ++ tlv (c, v)) = (length (pre ++ [c; len v]) + length v)%nat)
    by (unfold tlv; cbn [fst snd]; lens).
  rewrite Hend, Hbs.
  set (bs := (pre ++ [c; len v]) ++ v ++ rest).
  assert (H0 : bs !! length pre = Some c).
  { unfold bs. rewrite <-!app_assoc, lookup_app_r, Nat.sub_diag by done. done. }
  assert (H1 : bs !! (length pre + 1)%nat = Some (len v)).
  { unfold bs. rewrite <-!app_assoc, lookup_app_r by lia.
    by replace (length pre + 1 - length pre)%nat with 1%nat by lia. }
  assert (H2 : get_slice bs (length pre + 1 + 1) (length pre + 1 + 1 + Z.to_nat (len v)) = Some v).
  { replace (length pre + 1 + 1)%nat with (length (pre ++ [c; len v])) by lens.
    replace (Z.to_nat (len v)) with (length v) by lens. unfold bs.
    rewrite get_slice_at by lens. by rewrite drop_app_length, take_app_length. }
  cbn [read_options]. destruct (Nat.leb_spec (length bs) (length pre)); [unfold bs in *; lens|].
  unfold idx. rewrite H0, bind_Ok. decide_ifs. rewrite H1. cbn [ok_or]. rewrite bind_Ok, H2.
  cbn [ok_or]. rewrite bind_Ok.
  by replace (length (pre ++ [c; len v]) + length v)%nat with (length pre + 1 + 1 + Z.to_nat (len v))%nat by lens.
Qed.

Lemma read_options_list os fuel pre a :
  Forall option_ok os → (length os < fuel)%nat →
  read_options fuel (pre ++ flat os ++ [255]) (length pre) a = (a ← apply_all a os; Ok (a, true)).
Proof.
  intros Hos. revert fuel pre a. induction Hos as [|o os Ho Hos IH]; intros [|fuel] pre a Hf;
    cbn [length] in Hf; try lia.
  - cbn [read_options flat map concat app apply_all].
    destruct (Nat.leb_spec (length (pre ++ [255])) (length pre)); [lens|].
    assert (H0 : (pre ++ [255]) !! length pre = Some 255) by by rewrite lookup_app_r, Nat.sub_diag.
    unfold idx. by rewrite H0.
  - rewrite flat_cons, <-app_assoc, read_one by done. cbn [apply_all].
    destruct (apply_option a o.1 o.2) as [a'| |]; [|done|done]. rewrite !bind_Ok.
    rewrite app_assoc. apply IH. lia.
Qed.

Lemma length_flat os : (length os ≤ length (flat os))%nat.
Proof. induction os as [|o os IH]; [done|]. rewrite flat_cons, length_app. unfold tlv. lens. Qed.

Lemma chunks_words ips :
  as_chunks 4 (concat (map (be 4) ips)) = map (be 4) ips
  ∧ len (concat (map (be 4) ips)) = 4 * len ips.
Proof. split; [apply chunks_be; lia|]. pose proof (length_concat_be 4 ips). lens. Qed.

(** What the loop has collected from each kind of option. *)
Lemma apply_word a a' code o :
  opt_u32 o → (o = None → a' = a) →
  (∀ x, o = Some x → apply_option a code (be 4 x) = Ok a') →
  apply_all a (word_option code o) = Ok a'.
Proof.
  intros Ho Hn Hs. destruct o as [x|]; cbn [word_option apply_all fst snd].
  - by rewrite (Hs x), bind_Ok.
  - by rewrite Hn.
Qed.
Definition collected (m : DhcpMessage) : Options :=
  {| o_message_type := Some (message_type m); o_requested_ip := requested_ip m;
     o_server_id := server_id m; o_subnet_mask := subnet_mask m;
     o_default_router := default_router m; o_lease_time_seconds := lease_time_seconds m;
     o_dns_servers := dns_servers m; o_domain_name := domain_name m;
     o_renewal_seconds := renewal_seconds m; o_rebinding_seconds := rebinding_seconds m |}.

Ltac collect a' := rewrite apply_all_app, (apply_word _ a');
  [rewrite bind_Ok | done | by intros -> | intros x ->; cbn -[of_be byte_of]; by rewrite of_be_4].

Lemma apply_collected m :
  dhcp_ok m → encodable m → apply_all no_options (option_list m) = Ok (collected m).
Proof.
  destruct m as [ty xid mac yi ci ri h ds dn rn rb rq sv sm dr lt].
  unfold dhcp_ok, encodable, option_list, collected, no_options; cbn -[apply_all word_option dns_option name_option app].
  intros (_&_&_&_&_&_&_&Hds&Hrn&Hrb&Hrq&Hsv&Hsm&Hdr&Hlt) [Hd Hn].
  assert (E : apply_all no_options [(53, [type_code ty])]
    = Ok (Build_Options (Some ty) None None None None None [] None None None)) by by destruct ty.
  unfold no_options in E. rewrite apply_all_app, E, bind_Ok. clear E.
  collect (Build_Options (Some ty) rq None None None None [] None None None).
  collect (Build_Options (Some ty) rq sv None None None [] None None None).
  collect (Build_Options (Some ty) rq sv sm None None [] None None None).
  collect (Build_Options (Some ty) rq sv sm dr None [] None None None).
  collect (Build_Options (Some ty) rq sv sm dr lt [] None None None).
  assert (E : apply_all (Build_Options (Some ty) rq sv sm dr lt [] None None None) (dns_option ds)
    = Ok (Build_Options (Some ty) rq sv sm dr lt ds None None None)).
  { destruct ds as [|d ds]; [done|]. destruct (chunks_words (d :: ds)) as [Hc Hlen].
    cbn [dns_option apply_all fst snd]. unfold apply_option. cbn [Z.eqb Pos.eqb].
    rewrite Hlen, Hc. rewrite Z.mul_comm, Z_mod_mult.
    replace (len (d :: ds) * 4 =? 0) with false by (symmetry; lens). cbn [negb andb Z.eqb].
    rewrite bind_Ok. do 2 f_equal. rewrite map_map. rewrite <-(map_id (d :: ds)) at 2.
    apply map_ext_in. intros x Hx. rewrite Forall_forall in Hds. apply (of_be_be_id 4).
    apply list_elem_of_In, Hds in Hx. cbn in Hx. lia. }
  rewrite apply_all_app, E, bind_Ok. clear E.
  assert (E : apply_all (Build_Options (Some ty) rq sv sm dr lt ds None None None) (name_option dn)
    = Ok (Build_Options (Some ty) rq sv sm dr lt ds dn None None)).
  { destruct dn as [n|]; [|done]. destruct Hn as [Hn Ha].
    cbn [name_option apply_all fst snd]. unfold apply_option. cbn [Z.eqb Pos.eqb].
    rewrite Ha. replace (len n =? 0) with false by lia. by replace (len n <=? 253) with true by lia. }
  rewrite apply_all_app, E, bind_Ok. clear E.
  collect (Build_Options (Some ty) rq sv sm dr lt ds dn rn None).
  rewrite (apply_word _ (Build_Options (Some ty) rq sv sm dr lt ds dn rn rb));
    [done | done | by intros -> | intros x ->; cbn -[of_be byte_of]; by rewrite of_be_4].
Qed.

Lemma option_list_ok m : encodable m → Forall option_ok (option_list m).
Proof.
  intros [Hd Hn]. unfold option_list, option_ok.
  assert (Hw : ∀ code o, 1 ≤ code ≤ 254 → Forall option_ok (word_option code o)).
  { intros code [x|] Hc; repeat constructor; cbn; lens. }
  repeat (apply Forall_app_2; [first [apply Hw; lia | idtac]|]); try (apply Hw; lia).
  - repeat constructor; cbn; lens.
  - destruct (dns_servers m) as [|d ds] eqn:E; [constructor|].
    destruct (chunks_words (d :: ds)) as [_ Hlen]. repeat constructor; cbn [fst snd]; lia.
  - destruct (domain_name m); repeat constructor; cbn [fst snd]; lia.
Qed.

Lemma apply_option_safe a code value : safe (apply_option a code value).
Proof.
  destruct a. unfold apply_option.
  assert (Hw : safe (match value with
    | [b0; b1; b2; b3] => Ok (of_be [b0; b1; b2; b3]) | _ => Err InvalidOption end : res DhcpPacketError Z))
    by (repeat case_match; done).
  repeat match goal with |- safe (if ?c then _ else _) => destruct c end;
    try done; try (apply safe_bind; [exact Hw|]; done).
  destruct value as [|k [|]]; try done. unfold type_of_code. repeat case_match; done.
Qed.
Lemma read_options_safe fuel bs cursor a :
  (length bs - cursor ≤ fuel)%nat → safe (read_options fuel bs cursor a).
Proof.
  revert cursor a. induction fuel as [|fuel IH]; intros c a Hf; cbn [read_options].
  - assert ((length bs <=? c)%nat = true) as -> by lia. done.
  - destruct (Nat.leb_spec (length bs) c); [done|]. apply safe_bind; [apply safe_idx; lia|].
    intros code _. apply safe_if; [done|]. intros _. apply safe_if; [intros _; apply IH; lia|].
    intros _. apply safe_bind; [apply safe_ok_or|]. intros size _.
    apply safe_bind; [apply safe_ok_or|]. intros v _. apply safe_bind; [apply apply_option_safe|].
    intros a' _. apply IH. lia.
Qed.

(** The fixed header read back. *)
Lemma bootp_fields {E} m rest :
  dhcp_ok m →
  let bs := bootp m ++ rest in
  @slice E Z bs 1 3 = Ok [1; 6] ∧ @slice E Z bs 236 240 = Ok MAGIC_COOKIE
  ∧ @idx E Z bs 0 = Ok (request_op (message_type m)) ∧ @u32_at E bs 4 = Ok (transaction_id m)
  ∧ @slice E Z bs 28 34 = Ok (client_mac m) ∧ @u32_at E bs 16 = Ok (your_ip m)
  ∧ @u32_at E bs 12 = Ok (client_ip m) ∧ @u32_at E bs 24 = Ok (relay_ip m)
  ∧ @idx E Z bs 3 = Ok (hops m).
Proof.
  destruct m as [ty xid mac yi ci ri h ds dn rn rb rq sv sm dr lt]. unfold dhcp_ok.
  cbn [transaction_id client_mac your_ip client_ip relay_ip hops].
  intros (?&Hl&_&?&?&?&_). cbn zeta. explode mac 6%nat. unfold bootp, u32_at.
  cbn [client_ip message_type hops transaction_id your_ip relay_ip client_mac].
  destruct (ci =? 0); cbn [zeros replicate app be MAGIC_COOKIE]; split_and!;
    first [rewrite slice_ok by (cbn [length]; lia); reflexivity
          | reflexivity | cbn -[of_be byte_of]; by rewrite of_be_4 by lia].
Qed.

(** Every message the encoder accepts decodes to itself, options included;
    too many name servers or a domain name that is empty, long or not ASCII are
    refused; the decoder returns on any octets. *)
Theorem dhcp_roundtrip :
  (∀ m, dhcp_ok m → encodable m → ∃ bs, dhcp_encode m = Ok bs ∧ dhcp_decode bs = Ok m)
  ∧ (∀ m, ¬ encodable m → dhcp_encode m = Err InvalidOption)
  ∧ (∀ bs, safe (dhcp_decode bs)).
Proof.
  split_and!.
  - intros m Hm He. pose proof Hm as (_&Hmac&_).
    eexists. split; [by apply dhcp_encode_eq|].
    destruct (bootp_eq m Hmac) as [_ Hl]. unfold dhcp_decode.
    destruct (len _ <? 241) eqn:?; [lens|].
    destruct (@bootp_fields DhcpPacketError m (flat (option_list m) ++ [255]) Hm)
      as (F1&F2&F3&F4&F5&F6&F7&F8&F9).
    rewrite F1, bind_Ok, F2, bind_Ok. rewrite !bool_decide_true by done. cbn [negb orb].
    rewrite <-Hl. rewrite read_options_list; [|by apply option_list_ok|
      pose proof (length_flat (option_list m)); lens].
    rewrite apply_collected, !bind_Ok by done. cbn [negb collected o_message_type ok_or].
    rewrite bind_Ok. cbn zeta. rewrite F3, bind_Ok, Z.eqb_refl. cbn [negb].
    rewrite F4, bind_Ok, F5, bind_Ok, F6, bind_Ok, F7, bind_Ok, F8, bind_Ok, F9, bind_Ok.
    by destruct m.
  - intros m Hno. unfold dhcp_encode. match goal with |- (if ?c then _ else _) = _ => destruct c eqn:Hc end;
      [done|]. destruct Hno. unfold encodable. destruct (domain_name m) as [b|]; [|lia].
    split; [lia|]. destruct (is_ascii _); [|lia]. assert (0 ≤ len b) by lens. lia.
  - intros bs. unfold dhcp_decode. apply safe_if; [done|]. intros Hl.
    do 2 (apply safe_bind; [apply safe_slice; lens|]; intros ? _). apply safe_if; [done|]. intros _.
    apply safe_bind; [apply read_options_safe; lia|]. intros [ops e] _. apply safe_if; [done|]. intros _.
    apply safe_bind; [apply safe_ok_or|]. intros ty _. solve_safe.
Qed.
