(* ===== verification/Dns.v ===== *)
(** rios-protocol, DNS questions and address records with name compression
    (src/crates/rios-protocol/src/dns.rs).  A Rust [String] is its octets. *)
From S2P Require Import Prelude Wire Text.

Inductive DnsError := mkDnsError.

Record DnsQuestion := { q_name : bytes; kind : Z; class : Z }.
Record DnsARecord := { a_name : bytes; ttl : Z; address : Z }.
Record DnsMessage := {
  id : Z;
  response : bool;
  authoritative : bool;
  recursion_desired : bool;
  rcode : Z;
  question : DnsQuestion;
  answers : list DnsARecord
}.

(** ['.'] is 46, ['-'] 45, ['_'] 95. *)
Definition label_octet (b : Z) : bool := is_ascii_alphanumeric b || (b =? 45) || (b =? 95).
Definition bad_label (label : bytes) : bool :=
  (len label =? 0) || (63 <? len label) || negb (forallb label_octet label).

Definition dns_name (name : bytes) : res DnsError bytes :=
  let name := strip_suffix 46 name in
  if (len name =? 0) || (253 <? len name) || existsb bad_label (split 46 name)
  then Err mkDnsError
  else Ok (to_ascii_lowercase name).

Definition encode_name (name : bytes) (out : bytes) : res DnsError bytes :=
  name ← dns_name name;
  Ok (out ++ concat (map (λ label, (len label `mod` 256) :: label) (split 46 name)) ++ [0]).

(** The [for _ in 0..128] loop of [name]: [at_], [jumped], [labels], [length] and
    [offset] are its locals; the result is the name and the advanced offset. *)
Fixpoint name_loop (rounds : nat) (bs : bytes) (at_ : nat) (jumped : bool) (labels : list bytes)
    (length : Z) (offset : nat) : res DnsError (bytes * nat) :=
  match rounds with
  | O => Err mkDnsError
  | S rounds =>
      size ← ok_or (bs !! at_) mkDnsError;
      if Z.land size 0xc0 =? 0xc0 then
        low ← ok_or (bs !! (at_ + 1)%nat) mkDnsError;
        let target := Z.lor (Z.shiftl (Z.land size 0x3f) 8) low in
        if (target <? 12) || (Z.of_nat at_ <=? target) then Err mkDnsError
        else
          let offset := if jumped then offset else (at_ + 2)%nat in
          name_loop rounds bs (Z.to_nat target) true labels length offset
      else if 63 <? size then Err mkDnsError
      else
        let at_ := (at_ + 1)%nat in
        if size =? 0 then
          let offset := if jumped then offset else at_ in
          name ← dns_name (join 46 labels);
          Ok (name, offset)
        else
          label ← ok_or (get_slice bs at_ (at_ + Z.to_nat size)) mkDnsError;
          let length := length + len label + 1 in
          if 254 <? length then Err mkDnsError
          else if negb (utf8_valid label) then Err mkDnsError
          else name_loop rounds bs (at_ + List.length label) jumped (labels ++ [label]) length offset
  end.
Definition name_at (bs : bytes) (offset : nat) : res DnsError (bytes * nat) :=
  name_loop 128 bs offset false [] 0 offset.

Definition word (bs : bytes) (offset : nat) : res DnsError (Z * nat) :=
  b ← ok_or (get_slice bs offset (offset + 2)) mkDnsError;
  value ← u16_at b 0;
  Ok (value, (offset + 2)%nat).

Definition dns_query (id : Z) (name : bytes) : res DnsError DnsMessage :=
  name ← dns_name name;
  Ok {| id := id; response := false; authoritative := false; recursion_desired := true; rcode := 0;
        question := {| q_name := name; kind := 1; class := 1 |}; answers := [] |}.

Definition bit (b : bool) (n : Z) : Z := Z.shiftl (if b then 1 else 0) n.

Fixpoint encode_answers (q : bytes) (answers : list DnsARecord) (out : bytes) : res DnsError bytes :=
  match answers with
  | [] => Ok out
  | a :: answers =>
      n ← dns_name (a_name a);
      m ← dns_name q;
      out ← (if bool_decide (n = m) then Ok (out ++ [0xc0; 0x0c]) else encode_name (a_name a) out);
      encode_answers q answers
        (out ++ [0; 1; 0; 1] ++ be 4 (ttl a) ++ [0; 4] ++ be 4 (address a))
  end.

Definition dns_encode (m : DnsMessage) : res DnsError bytes :=
  if (15 <? rcode m) || (32 <? len (answers m)) then Err mkDnsError
  else
    let flags := Z.lor (Z.lor (Z.lor (bit (response m) 15) (bit (authoritative m) 10))
                              (bit (recursion_desired m) 8)) (rcode m) in
    let out := be 2 (id m) ++ be 2 flags ++ be 2 1 ++ be 2 (len (answers m) `mod` 2 ^ 16)
               ++ be 2 0 ++ be 2 0 in
    out ← encode_name (q_name (question m)) out;
    let out := out ++ be 2 (kind (question m)) ++ be 2 (class (question m)) in
    out ← encode_answers (q_name (question m)) (answers m) out;
    if 512 <? len out then Err mkDnsError else Ok out.

Fixpoint decode_answers (count : nat) (bs : bytes) (at_ : nat) (answers : list DnsARecord)
    : res DnsError (list DnsARecord * nat) :=
  match count with
  | O => Ok (answers, at_)
  | S count =>
      '(name, at_) ← name_at bs at_;
      '(kind, at_) ← word bs at_;
      '(class, at_) ← word bs at_;
      '(high, at_) ← word bs at_;
      '(low, at_) ← word bs at_;
      let ttl := Z.lor (Z.shiftl high 16) low in
      '(length, at_) ← word bs at_;
      data ← ok_or (get_slice bs at_ (at_ + Z.to_nat length)) mkDnsError;
      let at_ := (at_ + Z.to_nat length)%nat in
      if (kind =? 1) && (class =? 1) then
        if negb (len data =? 4) then Err mkDnsError
        else
          address ← u32_at data 0;
          decode_answers count bs at_ (answers ++ [{| a_name := name; ttl := ttl; address := address |}])
      else decode_answers count bs at_ answers
  end.

Definition dns_decode (bs : bytes) : res DnsError DnsMessage :=
  if 512 <? len bs then Err mkDnsError
  else
    '(id, at_) ← word bs 0;
    '(flags, at_) ← word bs at_;
    if negb (Z.land flags 0x7a40 =? 0) then Err mkDnsError
    else
      '(questions, at_) ← word bs at_;
      if negb (questions =? 1) then Err mkDnsError
      else
        '(count, at_) ← word bs at_;
        if 32 <? count then Err mkDnsError
        else
          '(authorities, at_) ← word bs at_;
          if negb (authorities =? 0) then Err mkDnsError
          else
            '(additionals, at_) ← word bs at_;
            if negb (additionals =? 0) then Err mkDnsError
            else
              '(name, at_) ← name_at bs at_;
              '(kind, at_) ← word bs at_;
              '(class, at_) ← word bs at_;
              '(answers, at_) ← decode_answers (Z.to_nat count) bs at_ [];
              if negb (at_ =? length bs)%nat then Err mkDnsError
              else
                Ok {| id := id; response := negb (Z.land flags 0x8000 =? 0);
                      authoritative := negb (Z.land flags 0x0400 =? 0);
                      recursion_desired := negb (Z.land flags 0x0100 =? 0);
                      rcode := Z.land flags 15 `mod` 256;
                      question := {| q_name := name; kind := kind; class := class |};
                      answers := answers |}.

(** ** Helper lemmas: host names *)

Lemma label_octet_lower b : label_octet (lower b) = label_octet b.
Proof.
  unfold lower. destruct ((65 <=? b) && (b <=? 90)) eqn:?; [|done].
  unfold label_octet, is_ascii_alphanumeric. lia.
Qed.
Lemma bad_label_lower l : bad_label (map lower l) = bad_label l.
Proof.
  unfold bad_label, len. rewrite length_map. do 2 f_equal.
  induction l as [|b l IH]; [done|]. cbn [map forallb]. by rewrite label_octet_lower, IH.
Qed.
Lemma lower_lower b : lower (lower b) = lower b.
Proof. unfold lower. destruct ((65 <=? b) && (b <=? 90)) eqn:E; [|by rewrite E]. case_match; lia. Qed.

(** A canonical name, and what [dns_name] makes of any name. *)
Definition canonical_name (n : bytes) : Prop :=
  1 ≤ len n ≤ 253 ∧ Forall (λ l, bad_label l = false) (split 46 n) ∧ map lower n = n.

Lemma dns_name_canonical n m : dns_name n = Ok m → canonical_name m.
Proof.
  unfold dns_name. set (s := strip_suffix 46 n). intros H.
  destruct (_ || _) eqn:E in H; [done|]. apply orb_false_iff in E as [E1 E2].
  assert (m = map lower s) as -> by by injection H as <-.
  assert (Hb : ∀ l, l ∈ split 46 s → bad_label l = false).
  { intros l Hl. destruct (bad_label l) eqn:Hbl; [|done]. rewrite <-E2. symmetry.
    apply existsb_exists. exists l. by rewrite <-list_elem_of_In. }
  unfold canonical_name, len. rewrite length_map. fold (len s). split_and!.
  - assert (0 ≤ len s) by lens. lia.
  - lia.
  - rewrite split_lower by lia. apply Forall_map, Forall_forall. intros l Hl. cbn.
    rewrite bad_label_lower. by apply Hb.
  - rewrite map_map. apply map_ext. apply lower_lower.
Qed.
Lemma canonical_dns_name n : canonical_name n → dns_name n = Ok n.
Proof.
  intros (Hl & Hb & Hn). unfold dns_name.
  assert (Hs : strip_suffix 46 n = n).
  { unfold strip_suffix. destruct (last n) as [b|] eqn:E; [|done].
    destruct (Z.eqb_spec b 46) as [->|]; [|done]. apply last_Some in E as [n' ->].
    rewrite split_snoc in Hb. apply Forall_app in Hb as [_ Hb]. by inversion Hb. }
  rewrite Hs. destruct (_ || _) eqn:E.
  - apply orb_true_iff in E as [E|E]; [lia|]. apply existsb_exists in E as (l & Hin & Hbad).
    rewrite Forall_forall in Hb. rewrite <-list_elem_of_In in Hin. by rewrite Hb in Hbad.
  - unfold to_ascii_lowercase. by rewrite Hn.
Qed.

Lemma good_label l : bad_label l = false →
  1 ≤ len l ≤ 63 ∧ utf8_valid l = true ∧ (len l `mod` 256 = len l) ∧ (Z.land (len l) 0xc0 =? 0xc0) = false.
Proof.
  unfold bad_label. intros H. assert (0 ≤ len l) by lens.
  assert (Hl : 1 ≤ len l ≤ 63) by lia. split; [done|].
  assert (Ho : forallb label_octet l = true) by (destruct (forallb label_octet l); [done|lia]).
  split; [|split; [apply Z.mod_small; lia|]].
  - apply ascii_utf8, Forall_forall. intros b Hb. rewrite forallb_forall in Ho.
    rewrite list_elem_of_In in Hb. specialize (Ho b Hb). unfold label_octet, is_ascii_alphanumeric in Ho. lia.
  - assert (Hz : (λ n, (63 <? n) || negb (Z.land n 0xc0 =? 0xc0)) (len l) = true)
      by (apply (all_bytes_spec (λ n, (63 <? n) || negb (Z.land n 0xc0 =? 0xc0)));
          [by vm_compute | lia]).
    cbn beta in Hz. lia.
Qed.

(** The wire form of a name without its terminator. *)
Definition wire (ls : list bytes) : bytes := concat (map (λ l, len l :: l) ls).
Definition name_wire (n : bytes) : bytes := wire (split 46 n) ++ [0].

Lemma wire_eq ls :
  Forall (λ l, bad_label l = false) ls → concat (map (λ l, (len l `mod` 256) :: l) ls) = wire ls.
Proof.
  unfold wire. induction 1 as [|l ls Hl _ IH]; [done|]. cbn [map concat]. rewrite IH.
  destruct (good_label l Hl) as (_&_&->&_). done.
Qed.
Lemma encode_name_eq n m out : dns_name n = Ok m → encode_name n out = Ok (out ++ name_wire m).
Proof.
  intros H. unfold encode_name. rewrite H, bind_Ok. destruct (dns_name_canonical n m H) as (_&Hb&_).
  by rewrite wire_eq.
Qed.
Lemma length_wire_join ls : ls ≠ [] → len (wire ls) = len (join 46 ls) + 1.
Proof.
  induction ls as [|l ls IH]; [done|]. intros _. unfold wire. cbn [map concat]. fold (wire ls).
  destruct ls as [|l' ls]; [cbn; lens|].
  change (join 46 (l :: l' :: ls)) with (l ++ 46 :: join 46 (l' :: ls)).
  specialize (IH ltac:(done)). lens.
Qed.

Lemma name_loop_labels ls rounds bs at_ jumped acc length offset t :
  Forall (λ l, bad_label l = false) ls → cursor bs at_ (wire ls ++ 0 :: t) →
  length + len (wire ls) ≤ 254 → (List.length ls < rounds)%nat →
  name_loop rounds bs at_ jumped acc length offset
  = (n ← dns_name (join 46 (acc ++ ls));
     Ok (n, if jumped then offset else (at_ + List.length (wire ls) + 1)%nat)).
Proof.
  intros Hls. revert rounds at_ acc length.
  induction Hls as [|l ls Hl _ IH]; intros [|rounds] at_ acc length Hc Hlen Hr; cbn [List.length] in Hr; try lia.
  - apply cursor_cons in Hc as [H0 _]. cbn [name_loop]. rewrite H0. cbn [ok_or]. rewrite bind_Ok.
    cbn [Z.land Z.eqb Z.ltb Z.compare]. rewrite app_nil_r. by rewrite Nat.add_0_r.
  - unfold wire in *. cbn [map concat] in *. fold (wire ls) in *. rewrite <-app_assoc in Hc.
    cbn [app] in Hc. apply cursor_cons in Hc as [H0 Hc]. apply cursor_slice in Hc as [H1 Hc].
    destruct (good_label l Hl) as (Hr1 & Hu & _ & Hp).
    cbn [name_loop]. rewrite H0. cbn [ok_or]. rewrite bind_Ok, Hp. decide_ifs.
    replace (Z.to_nat (len l)) with (List.length l) by lens. rewrite H1. cbn [ok_or]. rewrite bind_Ok.
    cbn zeta. rewrite Hu. cbn [negb].
    assert (Hwl : length + len l + 1 + len (wire ls) ≤ 254) by lens.
    assert (0 ≤ len (wire ls)) by lens. decide_ifs.
    rewrite (IH rounds _ _ _ Hc Hwl) by lia. rewrite <-app_assoc. cbn [app].
    destruct (dns_name _); [|done|done]. cbn. do 2 f_equal. destruct jumped; [done|].
    rewrite length_app. cbn [List.length]. lia.
Qed.

Lemma canonical_labels n :
  canonical_name n → ∃ ls, split 46 n = ls ∧ Forall (λ l, bad_label l = false) ls ∧ join 46 ls = n
    ∧ len (wire ls) ≤ 254 ∧ (List.length ls ≤ 127)%nat.
Proof.
  intros (Hn & Hb & _). exists (split 46 n). split; [done|]. split; [done|]. split; [apply join_split|].
  pose proof (length_wire_join _ (split_not_nil 46 n)) as Hw. rewrite join_split in Hw.
  split; [lia|]. assert (Hle : (2 * List.length (split 46 n) ≤ List.length (wire (split 46 n)))%nat).
  { clear -Hb. induction Hb as [|l ls Hl _ IH]; [done|]. unfold wire in *. cbn [map concat].
    destruct (good_label l Hl) as (Hr & _). rewrite length_app. lens. }
  lens.
Qed.

(** Reading a name where it was written, and through a pointer to offset 12. *)
Lemma name_at_wire n bs at_ t :
  canonical_name n → cursor bs at_ (name_wire n ++ t) →
  name_at bs at_ = Ok (n, (at_ + length (name_wire n))%nat).
Proof.
  intros Hn Hc. destruct (canonical_labels n Hn) as (ls & Hs & Hb & Hj & Hw & Hk).
  unfold name_wire in *. rewrite Hs in *. rewrite <-app_assoc in Hc.
  unfold name_at. rewrite (name_loop_labels ls 128 bs at_ false [] 0 at_ t); [|done|done|lia|lia].
  cbn [app]. rewrite Hj, canonical_dns_name by done. cbn. rewrite length_app. cbn [length].
  by rewrite Nat.add_assoc.
Qed.
Lemma name_loop_pointer rounds bs at_ acc length offset t :
  (12 < at_)%nat → cursor bs at_ (0xc0 :: 0x0c :: t) →
  name_loop (S rounds) bs at_ false acc length offset
  = name_loop rounds bs 12 true acc length (at_ + 2).
Proof.
  intros Ha Hp. apply cursor_cons in Hp as [H0 Hp]. apply cursor_cons in Hp as [H1 _].
  cbn [name_loop]. rewrite H0. cbn [ok_or]. rewrite bind_Ok, H1. cbn [ok_or].
  change (Z.land 192 192 =? 192) with true. cbv iota. rewrite bind_Ok. cbn zeta.
  change (Z.lor (Z.shiftl (Z.land 192 63) 8) 12) with 12. by decide_ifs.
Qed.
Lemma name_at_pointer n bs at_ t t' :
  canonical_name n → (length (split 46 n) ≤ 126)%nat → cursor bs 12 (name_wire n ++ t) →
  (12 < at_)%nat → cursor bs at_ (0xc0 :: 0x0c :: t') → name_at bs at_ = Ok (n, (at_ + 2)%nat).
Proof.
  intros Hn Hk Hc Ha Hp. destruct (canonical_labels n Hn) as (ls & Hs & Hb & Hj & Hw & _).
  unfold name_wire in *. rewrite Hs in *. rewrite <-app_assoc in Hc.
  unfold name_at. rewrite (name_loop_pointer 127 bs at_ [] 0 at_ t') by done.
  rewrite (name_loop_labels ls 127 bs 12 true [] 0 (at_ + 2) t); [|done|done|lia|lia].
  cbn [app]. by rewrite Hj, canonical_dns_name.
Qed.

(** ** Helper lemmas: messages *)

Lemma word_eq bs at_ x t :
  cursor bs at_ (be 2 x ++ t) → word bs at_ = Ok (x `mod` 2 ^ 16, (at_ + 2)%nat).
Proof.
  intros Hc. apply cursor_slice in Hc as [Hs _]. rewrite length_be in Hs.
  unfold word. rewrite Hs. cbn [ok_or]. rewrite bind_Ok.
  change (u16_at (be 2 x) 0) with (@Ok DnsError Z (of_be (be 2 x))). rewrite of_be_be. done.
Qed.
Lemma word_safe bs at_ : safe (word bs at_).
Proof.
  unfold word. apply safe_bind; [apply safe_ok_or|]. intros b Hb.
  apply ok_or_Ok_inv, get_slice_Some in Hb as [? ->]. solve_safe.
Qed.
Lemma dns_name_safe n : safe (dns_name n).
Proof. unfold dns_name. apply safe_if; done. Qed.
Lemma name_loop_safe rounds bs at_ jumped acc length offset :
  safe (name_loop rounds bs at_ jumped acc length offset).
Proof.
  revert at_ jumped acc length offset. induction rounds as [|rounds IH]; intros; cbn [name_loop]; [done|].
  apply safe_bind; [apply safe_ok_or|]. intros size _. apply safe_if; intros _.
  - apply safe_bind; [apply safe_ok_or|]. intros low _. apply safe_if; [done|]. intros _. apply IH.
  - apply safe_if; [done|]. intros _. apply safe_if; intros _.
    + apply safe_bind; [apply dns_name_safe | done].
    + apply safe_bind; [apply safe_ok_or|]. intros label _.
      apply safe_if; [done|]. intros _. apply safe_if; [done|]. intros _. apply IH.
Qed.
Ltac dns_safe :=
  repeat (apply safe_bind; [first [apply word_safe | apply name_loop_safe | apply safe_ok_or]|];
          intros ?; try match goal with p : _ * _ |- _ => destruct p end; intros _ || intros ?).
Lemma decode_answers_safe count bs at_ acc : safe (decode_answers count bs at_ acc).
Proof.
  revert at_ acc. induction count as [|count IH]; intros at_ acc; cbn [decode_answers]; [done|].
  apply safe_bind; [apply name_loop_safe|]. intros [n a1] _.
  do 4 (apply safe_bind; [apply word_safe|]; intros [? ?] _).
  apply safe_bind; [apply word_safe|]. intros [l a2] _.
  apply safe_bind; [apply safe_ok_or|]. intros data _. cbn zeta. apply safe_if; intros _; [|apply IH].
  apply safe_if; [done|]. intros Hl. apply safe_bind; [apply safe_u32_at; lens|]. intros ? _. apply IH.
Qed.

Definition canon (n : bytes) : bytes := match dns_name n with Ok m => m | _ => n end.
Definition canon_answer (a : DnsARecord) : DnsARecord :=
  {| a_name := canon (a_name a); ttl := ttl a; address := address a |}.
Definition answer_wire (q : bytes) (a : DnsARecord) : bytes :=
  (if bool_decide (canon (a_name a) = canon q) then [0xc0; 0x0c] else name_wire (canon (a_name a)))
  ++ [0; 1; 0; 1] ++ be 4 (ttl a) ++ [0; 4] ++ be 4 (address a).

Lemma canon_ok n m : dns_name n = Ok m → canon n = m.
Proof. unfold canon. by intros ->. Qed.
Lemma encode_answers_eq q as_ out out' :
  encode_answers q as_ out = Ok out' →
  out' = out ++ concat (map (answer_wire q) as_) ∧ Forall (λ a, canonical_name (canon (a_name a))) as_.
Proof.
  revert out. induction as_ as [|a as_ IH]; intros out; cbn [encode_answers].
  - intros [= <-]. by rewrite app_nil_r.
  - intros H. apply bind_Ok_inv in H as (n & Hn & H). apply bind_Ok_inv in H as (m & Hm & H).
    apply bind_Ok_inv in H as (o & Ho & H). apply IH in H as [-> Hall].
    assert (Hc : canonical_name (canon (a_name a)))
      by (rewrite (canon_ok _ _ Hn); by eapply dns_name_canonical).
    split; [|by constructor]. cbn [map concat]. unfold answer_wire at 2.
    rewrite (canon_ok _ _ Hn), (canon_ok _ _ Hm). case_bool_decide.
    + assert (o = out ++ [192; 12]) as -> by congruence. by rewrite <-!app_assoc.
    + rewrite (encode_name_eq _ _ _ Hn) in Ho.
      assert (o = out ++ name_wire n) as -> by congruence. by rewrite <-!app_assoc.
Qed.

Lemma decode_answers_eq q as_ bs at_ acc t t' :
  canonical_name (canon q) → (length (split 46 (canon q)) ≤ 126)%nat ∨
    Forall (λ a, canon (a_name a) ≠ canon q) as_ →
  Forall (λ a, canonical_name (canon (a_name a)) ∧ u32 (ttl a) ∧ u32 (address a)) as_ →
  cursor bs 12 (name_wire (canon q) ++ t') → (12 < at_)%nat →
  cursor bs at_ (concat (map (answer_wire q) as_) ++ t) →
  decode_answers (length as_) bs at_ acc
  = Ok (acc ++ map canon_answer as_, (at_ + length (concat (map (answer_wire q) as_)))%nat).
Proof.
  intros Hq Hk Has Hc12. revert at_ acc Hk. induction Has as [|a as_ (Hn & Ht & Ha) _ IH];
    intros at_ acc Hk Hat Hc; cbn [length decode_answers map concat] in *.
  { by rewrite app_nil_r, Nat.add_0_r. }
  rewrite <-app_assoc in Hc. unfold answer_wire in Hc at 1. rewrite <-!app_assoc in Hc.
  set (nm := if bool_decide _ then _ else _) in Hc.
  assert (Hname : name_at bs at_ = Ok (canon (a_name a), (at_ + length nm)%nat)).
  { unfold nm in *. case_bool_decide as Heq.
    - rewrite Heq. cbn [length]. eapply name_at_pointer; [done| |done|done|exact Hc].
      destruct Hk as [Hk|Hk]; [done|]. by inversion Hk.
    - by eapply name_at_wire. }
  rewrite Hname, bind_Ok. apply cursor_skip in Hc.
  change ([0; 1; 0; 1] ++ ?x) with (be 2 1 ++ be 2 1 ++ x) in Hc.
  rewrite (word_eq _ _ _ _ Hc), bind_Ok. apply cursor_skip in Hc. rewrite length_be in Hc.
  rewrite (word_eq _ _ _ _ Hc), bind_Ok. apply cursor_skip in Hc. rewrite length_be in Hc.
  rewrite (be_split 2 2 (ttl a) : be 4 (ttl a) = _), <-app_assoc in Hc.
  rewrite (word_eq _ _ _ _ Hc), bind_Ok. apply cursor_skip in Hc. rewrite length_be in Hc.
  rewrite (word_eq _ _ _ _ Hc), bind_Ok. apply cursor_skip in Hc. rewrite length_be in Hc.
  change ([0; 4] ++ ?x) with (be 2 4 ++ x) in Hc.
  rewrite (word_eq _ _ _ _ Hc), bind_Ok. apply cursor_skip in Hc. rewrite length_be in Hc.
  change (Z.to_nat (4 `mod` 2 ^ 16)) with 4%nat. apply cursor_slice in Hc as [Hs Hc].
  rewrite length_be in Hs, Hc. rewrite Hs. cbn [ok_or]. rewrite bind_Ok. cbn zeta.
  change ((1 `mod` 2 ^ 16 =? 1) && (1 `mod` 2 ^ 16 =? 1)) with true. cbv iota.
  change (negb (len (be 4 (address a)) =? 4)) with false. cbv iota.
  change (u32_at (be 4 (address a)) 0) with (@Ok DnsError Z (of_be (be 4 (address a)))).
  rewrite bind_Ok, of_be_be_id by (cbn; lia).
  rewrite IH; [|destruct Hk as [?|Hk]; [by left|right; by inversion Hk] | lia | exact Hc].
  rewrite <-app_assoc. cbn [app]. do 2 f_equal; [do 2 f_equal|].
  - unfold canon_answer. f_equal. rewrite lor_shiftl by (apply Z.mod_pos_bound || idtac; lia).
    change (256 ^ Z.of_nat 2) with (2 ^ 16). rewrite (Z.mod_small (ttl a `div` 2 ^ 16)).
    + pose proof (Z.div_mod (ttl a) (2 ^ 16) ltac:(lia)). lia.
    + split; [apply Z.div_pos; lia | apply Z.div_lt_upper_bound; lia].
  - unfold answer_wire. fold nm. rewrite !length_app, !length_be. cbn [length]. lia.
Qed.

Definition dns_flags (m : DnsMessage) : Z :=
  Z.lor (Z.lor (Z.lor (bit (response m) 15) (bit (authoritative m) 10))
               (bit (recursion_desired m) 8)) (rcode m).
Lemma dns_flags_eq m :
  0 ≤ rcode m ≤ 15 →
  dns_flags m `mod` 2 ^ 16 = dns_flags m ∧ Z.land (dns_flags m) 0x7a40 = 0
  ∧ negb (Z.land (dns_flags m) 0x8000 =? 0) = response m
  ∧ negb (Z.land (dns_flags m) 0x0400 =? 0) = authoritative m
  ∧ negb (Z.land (dns_flags m) 0x0100 =? 0) = recursion_desired m
  ∧ Z.land (dns_flags m) 15 `mod` 256 = rcode m.
Proof.
  destruct m as [i r a d c q an]. unfold dns_flags. cbn [rcode response authoritative recursion_desired].
  intros Hc. assert (Hin : c ∈ [0;1;2;3;4;5;6;7;8;9;10;11;12;13;14;15]).
  { rewrite list_elem_of_In. cbn. lia. }
  clear Hc. repeat (apply elem_of_cons in Hin as [->|Hin]; [by destruct r, a, d|]).
  by apply elem_of_nil in Hin.
Qed.

(** What the Rust types guarantee of a message. *)
Definition dns_ok (m : DnsMessage) : Prop :=
  u16 (id m) ∧ 0 ≤ rcode m ∧ u16 (kind (question m)) ∧ u16 (class (question m))
  ∧ Forall (λ a, u32 (ttl a) ∧ u32 (address a)) (answers m).
(** The message with its names as [dns_name] canonicalizes them. *)
Definition canonical (m : DnsMessage) : DnsMessage :=
  {| id := id m; response := response m; authoritative := authoritative m;
     recursion_desired := recursion_desired m; rcode := rcode m;
     question := {| q_name := canon (q_name (question m)); kind := kind (question m);
                    class := class (question m) |};
     answers := map canon_answer (answers m) |}.
Definition labels (n : bytes) : nat := length (split 46 (canon n)).

Lemma dns_encode_inv m bs :
  dns_encode m = Ok bs →
  rcode m ≤ 15 ∧ len (answers m) ≤ 32 ∧ len bs ≤ 512
  ∧ canonical_name (canon (q_name (question m)))
  ∧ Forall (λ a, canonical_name (canon (a_name a))) (answers m)
  ∧ bs = be 2 (id m) ++ be 2 (dns_flags m) ++ be 2 1 ++ be 2 (len (answers m) `mod` 2 ^ 16)
      ++ be 2 0 ++ be 2 0 ++ name_wire (canon (q_name (question m)))
      ++ be 2 (kind (question m)) ++ be 2 (class (question m))
      ++ concat (map (answer_wire (q_name (question m))) (answers m)).
Proof.
  unfold dns_encode. destruct (_ || _) eqn:E; [done|]. intros H. cbn zeta in H.
  apply bind_Ok_inv in H as (o & Ho & H). apply bind_Ok_inv in H as (o' & Ho' & H).
  destruct (512 <? len o') eqn:El; [done|]. assert (o' = bs) as -> by congruence.
  assert (Hq : ∃ n, dns_name (q_name (question m)) = Ok n).
  { unfold encode_name in Ho. apply bind_Ok_inv in Ho as (n & Hn & _). eauto. }
  destruct Hq as [n Hn]. rewrite (encode_name_eq _ _ _ Hn) in Ho.
  apply (f_equal ok) in Ho. cbn [ok] in Ho. injection Ho as <-.
  apply encode_answers_eq in Ho' as [-> Hall]. rewrite (canon_ok _ _ Hn).
  split_and!; [lia..| by eapply dns_name_canonical | done |]. fold (dns_flags m).
  by rewrite <-!app_assoc.
Qed.

(** Read the next 16-bit word at the cursor [Hc]. *)
Ltac next Hc := rewrite (word_eq _ _ _ _ Hc), bind_Ok; apply cursor_skip in Hc; rewrite length_be in Hc.

(** Whenever a message encodes, its encoding decodes to the same message with
    its names canonicalized, provided no compression pointer has to reach a name of
    127 labels, the one case in which the decoder runs out of rounds. *)
Theorem dns_roundtrip m bs :
  dns_ok m → dns_encode m = Ok bs →
  (labels (q_name (question m)) ≤ 126)%nat
    ∨ Forall (λ a, canon (a_name a) ≠ canon (q_name (question m))) (answers m) →
  dns_decode bs = Ok (canonical m).
Proof.
  intros (Hid & Hrc & Hk & Hcl & Has) He Hlab.
  apply dns_encode_inv in He as (Hr & Hn & Hl & Hq & Hnames & Hbs).
  destruct (dns_flags_eq m) as (F1&F2&F3&F4&F5&F6); [lia|].
  pose proof (cursor_0 bs) as Hc. rewrite Hbs in Hc at 2. unfold dns_decode. decide_ifs.
  assert (0 ≤ len (answers m)) by lens.
  next Hc. next Hc. rewrite F1, F2. cbn [negb Z.eqb]. next Hc.
  change (negb (1 `mod` 2 ^ 16 =? 1)) with false. cbv iota. next Hc.
  rewrite !(Z.mod_small (len (answers m))) by lia. decide_ifs. next Hc.
  change (negb (0 `mod` 2 ^ 16 =? 0)) with false. cbv iota. next Hc.
  change (negb (0 `mod` 2 ^ 16 =? 0)) with false. cbv iota.
  pose proof Hc as Hc12. rewrite (name_at_wire _ _ _ _ Hq Hc), bind_Ok. apply cursor_skip in Hc.
  next Hc. next Hc. rewrite <-(app_nil_r (concat _)) in Hc.
  replace (Z.to_nat (len (answers m))) with (length (answers m)) by lens.
  erewrite decode_answers_eq; [|exact Hq|exact Hlab| |exact Hc12|lia|exact Hc].
  - rewrite bind_Ok. cbn [app]. apply cursor_skip, cursor_end in Hc. rewrite Hc, Nat.eqb_refl. cbn [negb].
    rewrite F3, F4, F5, F6, !(Z.mod_small _ (2 ^ 16)) by lia. done.
  - rewrite Forall_forall in *. intros a Ha.
    split; [by apply Hnames | by apply Has].
Qed.

(** The decoder returns a message or an error on any octets: no read outside
    the message panics and a compression pointer, which must point backwards, is
    followed at most 128 times. *)
Theorem dns_decode_total bs : safe (dns_decode bs).
Proof.
  unfold dns_decode. apply safe_if; [done|]. intros _.
  do 2 (apply safe_bind; [apply word_safe|]; intros [? ?] _). apply safe_if; [done|]. intros _.
  apply safe_bind; [apply word_safe|]. intros [? ?] _. apply safe_if; [done|]. intros _.
  apply safe_bind; [apply word_safe|]. intros [? ?] _. apply safe_if; [done|]. intros _.
  apply safe_bind; [apply word_safe|]. intros [? ?] _. apply safe_if; [done|]. intros _.
  apply safe_bind; [apply word_safe|]. intros [? ?] _. apply safe_if; [done|]. intros _.
  apply safe_bind; [apply name_loop_safe|]. intros [? ?] _.
  do 2 (apply safe_bind; [apply word_safe|]; intros [? ?] _).
  apply safe_bind; [apply decode_answers_safe|]. intros [? ?] _. by apply safe_if.
Qed.

(** The bound of [dns_roundtrip] is sharp: an answer for a name of 127 labels is
    encoded and its encoding is refused. *)
Definition long_name : bytes := join 46 (replicate 127 [97]).
Definition long_message : DnsMessage :=
  {| id := 1; response := true; authoritative := true; recursion_desired := false; rcode := 0;
     question := {| q_name := long_name; kind := 1; class := 1 |};
     answers := [{| a_name := long_name; ttl := 60; address := 167772161 |}] |}.
Definition long_message_bytes : bytes :=
  match dns_encode long_message with Ok bs => bs | _ => [] end.
Lemma dns_long_name_refused :
  dns_encode long_message = Ok long_message_bytes ∧ length long_message_bytes = 287%nat
  ∧ dns_decode long_message_bytes = Err mkDnsError.
Proof. split_and!; vm_compute; reflexivity. Qed.

(** ** Witnesses *)

Definition sample_message : DnsMessage :=
  {| id := 7; response := true; authoritative := true; recursion_desired := true; rcode := 0;
     question := {| q_name := [87; 46; 108; 97; 98; 46]; kind := 1; class := 1 |};
     answers := [{| a_name := [119; 46; 76; 97; 98]; ttl := 300; address := 167772161 |}] |}.
Definition sample_message_bytes : bytes :=
  match dns_encode sample_message with Ok bs => bs | _ => [] end.
Lemma dns_roundtrip_witness :
  length sample_message_bytes = 39%nat
  ∧ dns_decode sample_message_bytes = Ok (canonical sample_message)
  ∧ q_name (question (canonical sample_message)) = [119; 46; 108; 97; 98].
Proof.
  split; [vm_compute; reflexivity|]. split; [|vm_compute; reflexivity].
  apply (dns_roundtrip sample_message).
  - unfold dns_ok; cbn. split_wf; try lia. apply Forall_cons_2; [cbn; lia|constructor].
  - vm_compute. reflexivity.
  - left. vm_compute. lia.
Defined.
