(* ===== verification/Ipv6.v ===== *)
(** rios-ipv6: addressing, the fixed header, extension headers and the
    pseudoheader checksum (src/crates/rios-ipv6/src/address.rs and packet.rs).
    An [Ipv6Addr] is its 128-bit value. *)
From S2P Require Import Prelude Wire Text Checksum Prefix.

Abbreviation Ipv6Addr := Z.

(** ** address.rs *)

Inductive AddressError := Prefix | Syntax | NotUnicast.
Record Ipv6InterfaceConfig := { address : Ipv6Addr; prefix_len : Z }.
Record Ipv6Network := { network : Ipv6Addr; network_len : Z }.
#[export] Instance Ipv6Network_eq_dec : EqDecision Ipv6Network.
Proof. solve_decision. Defined.

(** [Ipv6Addr::is_unspecified], [is_multicast] and [is_unicast_link_local]. *)
Definition is_unspecified (a : Ipv6Addr) : bool := a =? 0.
Definition is_multicast (a : Ipv6Addr) : bool := Z.shiftr a 120 =? 0xff.
Definition is_unicast_link_local (a : Ipv6Addr) : bool := Z.land (Z.shiftr a 112) 0xffc0 =? 0xfe80.

Definition mask (length : Z) : Z := mask_bits 128 length.

Definition config_new (address : Ipv6Addr) (prefix_len : Z) : res AddressError Ipv6InterfaceConfig :=
  if 128 <? prefix_len then Err Prefix
  else if is_unspecified address || is_multicast address then Err NotUnicast
  else Ok {| address := address; prefix_len := prefix_len |}.
Definition config_network (c : Ipv6InterfaceConfig) : Ipv6Network :=
  {| network := Z.land (address c) (mask (prefix_len c)); network_len := prefix_len c |}.

Definition network_new (address : Ipv6Addr) (prefix_len : Z) : res AddressError Ipv6Network :=
  if 128 <? prefix_len then Err Prefix
  else Ok {| network := Z.land address (mask prefix_len); network_len := prefix_len |}.
Definition contains (n : Ipv6Network) (address : Ipv6Addr) : bool :=
  Z.land address (mask (network_len n)) =? network n.

(** The identifier of a six-octet [MacAddress]. *)
Definition interface_identifier (m : bytes) : Z :=
  of_be [Z.lxor (nth 0 m 0) 2; nth 1 m 0; nth 2 m 0; 0xff; 0xfe; nth 3 m 0; nth 4 m 0; nth 5 m 0].
Definition link_local (m : bytes) : Ipv6Addr :=
  Z.lor (Z.shiftl 0xfe80 112) (interface_identifier m).
Definition solicited_node (a : Ipv6Addr) : Ipv6Addr :=
  Z.lor 0xff0200000000000000000001ff000000 (Z.land a 0x00ffffff).
Definition multicast_mac (a : Ipv6Addr) : option bytes :=
  if negb (is_multicast a) then None
  else
    let o := be 16 a in
    Some [0x33; 0x33; nth 12 o 0; nth 13 o 0; nth 14 o 0; nth 15 o 0].

(** ** packet.rs *)

Inductive NextHeader :=
| HopByHop | Tcp | Udp | Routing | Fragment | Esp | Authentication | Icmpv6 | NoNextHeader
| DestinationOptions | Ospf | OtherHeader (v : Z).
#[export] Instance NextHeader_eq_dec : EqDecision NextHeader.
Proof. solve_decision. Defined.
Definition NextHeader_from_u8 (value : Z) : NextHeader :=
  if value =? 0 then HopByHop else if value =? 6 then Tcp else if value =? 17 then Udp
  else if value =? 43 then Routing else if value =? 44 then Fragment else if value =? 50 then Esp
  else if value =? 51 then Authentication else if value =? 58 then Icmpv6
  else if value =? 59 then NoNextHeader else if value =? 60 then DestinationOptions
  else if value =? 89 then Ospf else OtherHeader value.
Definition NextHeader_to_u8 (value : NextHeader) : Z :=
  match value with
  | HopByHop => 0 | Tcp => 6 | Udp => 17 | Routing => 43 | Fragment => 44 | Esp => 50
  | Authentication => 51 | Icmpv6 => 58 | NoNextHeader => 59 | DestinationOptions => 60
  | Ospf => 89 | OtherHeader other => other
  end.

Inductive PacketError :=
| Malformed | TooLarge | ExtensionLimit | Fragmented | SecurityHeader
| ParameterProblem (pointer code : Z) (send_icmp : bool).

Record Ipv6Packet := {
  source : Ipv6Addr;
  destination : Ipv6Addr;
  traffic_class : Z;
  flow_label : Z;
  hop_limit : Z;
  next_header : NextHeader;
  payload : bytes
}.
Record UpperLayer := {
  protocol : NextHeader;
  upper_payload : bytes;
  next_header_offset : Z;
  had_fragment_header : bool
}.

Definition ipv6_encode (p : Ipv6Packet) : res PacketError bytes :=
  if (0xfffff <? flow_label p) || (65535 <? len (payload p)) then Err TooLarge
  else
    let first := Z.lor (Z.lor 0x60000000 (Z.shiftl (traffic_class p) 20)) (flow_label p) in
    Ok (be 4 first ++ be 2 (len (payload p) `mod` 2 ^ 16)
        ++ [NextHeader_to_u8 (next_header p); hop_limit p]
        ++ be 16 (source p) ++ be 16 (destination p) ++ payload p).

Definition ipv6_decode (bs : bytes) : res PacketError Ipv6Packet :=
  header ← ok_or (get_slice bs 0 40) Malformed;
  h0 ← idx header 0;
  if negb (Z.shiftr h0 4 =? 6) then Err Malformed
  else
    length ← u16_at header 4;
    payload ← ok_or (get_slice bs 40 (40 + Z.to_nat length)) Malformed;
    source ← slice header 8 24;
    destination ← slice header 24 40;
    h1 ← idx header 1; h2 ← idx header 2; h3 ← idx header 3;
    hop_limit ← idx header 7;
    next ← idx header 6;
    Ok {| source := of_be source; destination := of_be destination;
          traffic_class := Z.lor (Z.shiftl (Z.land h0 15) 4 `mod` 256) (Z.shiftr h1 4);
          flow_label := of_be [0; Z.land h1 15; h2; h3];
          hop_limit := hop_limit; next_header := NextHeader_from_u8 next; payload := payload |}.

(** The [while] loop over the options of one header; every round advances. *)
Fixpoint validate_options_from (fuel : nat) (body : bytes) (base : nat) (multicast : bool) (pos : nat)
    : res PacketError () :=
  if (length body <=? pos)%nat then Ok ()
  else match fuel with
       | O => Panic
       | S fuel =>
           kind ← idx body pos;
           if kind =? 0 then validate_options_from fuel body base multicast (pos + 1)
           else
             size ← ok_or (body !! (pos + 1)%nat) Malformed;
             data ← ok_or (get_slice body (pos + 2) (pos + 2 + Z.to_nat size)) Malformed;
             _ ← (if kind =? 1 then Ok ()
                  else if (kind =? 5) && (len data =? 2) then Ok ()
                  else if kind =? 5 then Err Malformed
                  else if Z.shiftr kind 6 =? 0 then Ok ()
                  else Err (ParameterProblem (Z.of_nat (base + pos) `mod` 2 ^ 32) 2
                              ((Z.shiftr kind 6 =? 2) || ((Z.shiftr kind 6 =? 3) && negb multicast))));
             validate_options_from fuel body base multicast (pos + 2 + Z.to_nat size)
       end.
Definition validate_options (body : bytes) (base : nat) (multicast : bool) : res PacketError () :=
  validate_options_from (length body) body base multicast 2.

(** The [for _ in 0..16] loop of [upper_layer] with its mutable locals. *)
Fixpoint upper_layer_loop (rounds : nat) (p : Ipv6Packet) (offset : nat) (next : NextHeader)
    (next_offset : Z) (had_fragment : bool) : res PacketError UpperLayer :=
  match rounds with
  | O => Err ExtensionLimit
  | S rounds =>
      match next with
      | HopByHop | DestinationOptions | Routing =>
          if bool_decide (next = HopByHop) && negb (offset =? 0)%nat
          then Err (ParameterProblem next_offset 1 true)
          else
            start ← ok_or (get_slice (payload p) offset (offset + 2)) Malformed;
            units ← idx start 1;
            let length := ((Z.to_nat units + 1) * 8)%nat in
            body ← ok_or (get_slice (payload p) offset (offset + length)) Malformed;
            _ ← (if bool_decide (next = Routing)
                 then
                   left ← idx body 3;
                   if negb (left =? 0)
                   then Err (ParameterProblem (Z.of_nat (40 + offset + 2) `mod` 2 ^ 32) 0 true)
                   else Ok ()
                 else validate_options body (40 + offset) (is_multicast (destination p)));
            n ← idx body 0;
            upper_layer_loop rounds p (offset + length) (NextHeader_from_u8 n)
              (Z.of_nat (40 + offset) `mod` 2 ^ 32) had_fragment
      | Fragment =>
          if had_fragment then Err Malformed
          else
            body ← ok_or (get_slice (payload p) offset (offset + 8)) Malformed;
            fragment ← u16_at body 2;
            if negb (Z.land fragment 0xfff9 =? 0) then Err Fragmented
            else
              reserved ← idx body 1;
              b3 ← idx body 3;
              if negb (reserved =? 0) || negb (Z.land b3 6 =? 0) then Err Malformed
              else
                n ← idx body 0;
                upper_layer_loop rounds p (offset + 8) (NextHeader_from_u8 n)
                  (Z.of_nat (40 + offset) `mod` 2 ^ 32) true
      | Authentication | Esp => Err SecurityHeader
      | NoNextHeader =>
          Ok {| protocol := next; upper_payload := []; next_header_offset := next_offset;
                had_fragment_header := had_fragment |}
      | _ =>
          rest ← slice_from (payload p) offset;
          Ok {| protocol := next; upper_payload := rest; next_header_offset := next_offset;
                had_fragment_header := had_fragment |}
      end
  end.
Definition upper_layer (p : Ipv6Packet) : res PacketError UpperLayer :=
  upper_layer_loop 16 p 0 (next_header p) 6 false.

(** The closure [sum] of [ipv6_checksum]; the 64-bit total cannot overflow for a
    payload that exists in memory, and five rounds fold any 64-bit total. *)
Definition sum (bs : bytes) : Z := foldl Z.add 0 (words bs).
Definition ipv6_checksum {E} (source destination : Ipv6Addr) (protocol : NextHeader) (payload : bytes)
    : res E Z :=
  let length := len payload in
  total ← fold_carry 5 (sum (be 16 source) + sum (be 16 destination) + Z.shiftr length 16
                        + Z.land length 0xffff + NextHeader_to_u8 protocol + sum payload);
  Ok (U16_MAX - total `mod` 2 ^ 16).

(** ** Well-formed values *)

Definition packet_ok (p : Ipv6Packet) : Prop :=
  u128 (source p) ∧ u128 (destination p) ∧ u8 (traffic_class p) ∧ 0 ≤ flow_label p ≤ 0xfffff
  ∧ u8 (hop_limit p) ∧ u8 (NextHeader_to_u8 (next_header p))
  ∧ NextHeader_from_u8 (NextHeader_to_u8 (next_header p)) = next_header p
  ∧ bytes_ok (payload p) ∧ len (payload p) ≤ 65535.
Definition network_ok (n : Ipv6Network) : Prop :=
  u128 (network n) ∧ 0 ≤ network_len n ≤ 128 ∧ network n `mod` 2 ^ (128 - network_len n) = 0.

(** ** Helper lemmas *)

Lemma NextHeader_roundtrip v : NextHeader_to_u8 (NextHeader_from_u8 v) = v.
Proof. unfold NextHeader_from_u8. repeat case_match; cbn; lia. Qed.

(** The first four octets of the header, both ways. *)
Lemma first_word tc fl :
  u8 tc → 0 ≤ fl ≤ 0xfffff →
  Z.lor (Z.lor 0x60000000 (Z.shiftl tc 20)) fl = 6 * 2 ^ 28 + tc * 2 ^ 20 + fl.
Proof.
  intros Ht Hf. change 0x60000000 with (Z.shiftl 0x600 20).
  rewrite <-Z.shiftl_lor, lor_shiftl by lia. change 0x600 with (Z.shiftl 6 8).
  rewrite lor_shiftl by lia. lia.
Qed.
Lemma first_octets tc fl :
  u8 tc → 0 ≤ fl ≤ 0xfffff →
  ∃ h0 h1 h2 h3,
    be 4 (Z.lor (Z.lor 0x60000000 (Z.shiftl tc 20)) fl) = [h0; h1; h2; h3]
    ∧ Z.shiftr h0 4 = 6
    ∧ Z.lor (Z.shiftl (Z.land h0 15) 4 `mod` 256) (Z.shiftr h1 4) = tc
    ∧ of_be [0; Z.land h1 15; h2; h3] = fl.
Proof.
  intros Ht Hf. rewrite first_word by done.
  exists (96 + tc `div` 16), ((tc `mod` 16) * 16 + fl `div` 65536),
    ((fl `div` 256) `mod` 256), (fl `mod` 256).
  rewrite of_be_four, !land_15, !shiftr_4.
  pose proof (Z.div_mod tc 16 ltac:(lia)). pose proof (Z.mod_pos_bound tc 16 ltac:(lia)).
  pose proof (Z.div_mod fl 256 ltac:(lia)). pose proof (Z.mod_pos_bound fl 256 ltac:(lia)).
  pose proof (Z.div_mod (fl `div` 256) 256 ltac:(lia)).
  pose proof (Z.mod_pos_bound (fl `div` 256) 256 ltac:(lia)).
  rewrite Z.div_div in * by lia. change (256 * 256) with 65536 in *.
  set (t1 := tc `div` 16) in *. set (t0 := tc `mod` 16) in *. set (f2 := fl `div` 65536) in *.
  set (f1 := (fl `div` 256) `mod` 256) in *. set (f0 := fl `mod` 256) in *.
  assert (Hb : bytes_ok [96 + t1; t0 * 16 + f2; f1; f0]) by octets.
  assert (Hw : of_be [96 + t1; t0 * 16 + f2; f1; f0] = 6 * 2 ^ 28 + tc * 2 ^ 20 + fl)
    by (rewrite of_be_four; lia).
  split; [rewrite <-Hw; apply (be_of_be _ Hb)|].
  replace (96 + t1) with (t1 + 6 * 16) by lia.
  rewrite Z_div_plus_full, Z_mod_plus_full, (Z.div_small t1 16), (Z.mod_small t1 16) by lia.
  split; [done|].
  replace (t0 * 16 + f2) with (f2 + t0 * 16) by lia.
  rewrite Z_div_plus_full, Z_mod_plus_full, (Z.div_small f2 16), (Z.mod_small f2 16) by lia.
  rewrite Z.shiftl_mul_pow2, (Z.mod_small (t1 * 2 ^ 4)), <-Z.shiftl_mul_pow2, lor_shiftl by lia. lia.
Qed.
Lemma octets_first h0 h1 h2 h3 :
  bytes_ok [h0; h1; h2; h3] → Z.shiftr h0 4 = 6 →
  let tc := Z.lor (Z.shiftl (Z.land h0 15) 4 `mod` 256) (Z.shiftr h1 4) in
  let fl := of_be [0; Z.land h1 15; h2; h3] in
  u8 tc ∧ 0 ≤ fl ≤ 0xfffff
  ∧ be 4 (Z.lor (Z.lor 0x60000000 (Z.shiftl tc 20)) fl) = [h0; h1; h2; h3].
Proof.
  intros Hb H6. pose proof Hb as Hb'. split_octets Hb. cbn zeta.
  rewrite of_be_four, !land_15, !shiftr_4 in *.
  pose proof (Z.div_mod h0 16 ltac:(lia)). pose proof (Z.mod_pos_bound h0 16 ltac:(lia)).
  pose proof (Z.div_mod h1 16 ltac:(lia)). pose proof (Z.mod_pos_bound h1 16 ltac:(lia)).
  rewrite Z.shiftl_mul_pow2, (Z.mod_small (h0 `mod` 16 * 2 ^ 4)), <-Z.shiftl_mul_pow2, lor_shiftl by lia.
  split_wf; [lia | lia |]. rewrite first_word by lia.
  match goal with |- be 4 ?x = _ => replace x with (of_be [h0; h1; h2; h3]) end.
  - apply (be_of_be _ Hb').
  - rewrite of_be_four. lia.
Qed.

Lemma ipv6_decode_eq p pad :
  packet_ok p → ∃ bs, ipv6_encode p = Ok bs ∧ ipv6_decode (bs ++ pad) = Ok p.
Proof.
  intros (Hs&Hd&Ht&Hf&Hh&Hn&Hnext&Hp&Hl). unfold ipv6_encode. decide_ifs.
  assert (Hlen : len (payload p) `mod` 2 ^ 16 = len (payload p)) by (apply Z.mod_small; lens).
  rewrite Hlen. destruct (first_octets _ _ Ht Hf) as (h0&h1&h2&h3&->&H6&Htc&Hfl).
  eexists. split; [reflexivity|]. set (hd := [h0; h1; h2; h3] ++ be 2 (len (payload p))
    ++ [NextHeader_to_u8 (next_header p); hop_limit p] ++ be 16 (source p) ++ be 16 (destination p)).
  replace (([h0; h1; h2; h3] ++ _) ++ pad) with (hd ++ payload p ++ pad)
    by (unfold hd; by rewrite <-!app_assoc).
  assert (Hhd : length hd = 40%nat) by done.
  unfold ipv6_decode. rewrite get_slice_ok by lens. cbn [ok_or]. rewrite bind_Ok.
  change (take (40 - 0) (drop 0 (hd ++ payload p ++ pad))) with (take 40 (hd ++ payload p ++ pad)).
  rewrite take_app_length' by done. change (idx hd 0) with (@Ok PacketError Z h0).
  rewrite bind_Ok, H6. cbn [negb Z.eqb Pos.eqb].
  replace (u16_at hd 4) with (@Ok PacketError Z (of_be (be 2 (len (payload p))))) by done.
  rewrite (of_be_be_id 2), bind_Ok by (change (256 ^ Z.of_nat 2) with 65536; lens). replace (Z.to_nat (len (payload p))) with (length (payload p)) by lens.
  rewrite get_slice_at by lens. rewrite drop_app_length' by done. rewrite take_app_length.
  cbn [ok_or]. rewrite bind_Ok.
  rewrite !slice_ok by lia. replace (take (24 - 8) (drop 8 hd)) with (be 16 (source p)) by done.
  replace (take (40 - 24) (drop 24 hd)) with (be 16 (destination p)) by done.
  rewrite !bind_Ok.
  assert (Hi : @idx PacketError Z hd 1 = Ok h1 ∧ @idx PacketError Z hd 2 = Ok h2
    ∧ @idx PacketError Z hd 3 = Ok h3 ∧ @idx PacketError Z hd 7 = Ok (hop_limit p)
    ∧ @idx PacketError Z hd 6 = Ok (NextHeader_to_u8 (next_header p))) by done.
  destruct Hi as (-> & -> & -> & -> & ->). rewrite !bind_Ok.
  rewrite Htc, Hfl, Hnext, !of_be_be_id by (cbn; lia). by destruct p.
Qed.
Lemma ipv6_decode_inv bs p :
  bytes_ok bs → ipv6_decode bs = Ok p →
  packet_ok p ∧ ∃ enc pad, ipv6_encode p = Ok enc ∧ bs = enc ++ pad.
Proof.
  intros Hb Hd. unfold ipv6_decode in Hd. inv_ok.
  match goal with H : get_slice bs 0 40 = Some ?h |- _ =>
    apply get_slice_Some in H as [Hl Hh]; cbn [Nat.sub] in Hh; rewrite drop_0 in Hh end.
  match goal with H : get_slice bs 40 _ = Some ?h |- _ =>
    apply get_slice_Some in H as [Hl2 ->] end.
  assert (Hbs : bs = x ++ drop 40 bs) by (subst x; by rewrite take_drop).
  assert (Hx : bytes_ok x) by (subst x; auto with bytes_ok).
  assert (Hn : length x = 40%nat) by (subst x; lens).
  clear Hh. explode x 40%nat.
  repeat match goal with
  | H : idx _ _ = Ok ?v |- _ => apply idx_Ok in H; cbn in H; injection H as <-
  | H : slice _ _ _ = Ok ?v |- _ => apply slice_Ok_inv in H as [_ ->]; cbn [take drop Nat.sub]
  | H : u16_at _ _ = Ok ?v |- _ => crunch_in H; injection H as <-
  end.
  pose proof Hx as Hall. split_octets Hx.
  destruct (octets_first b b0 b1 b2) as (Htc & Hfl & Hfirst); [octets | lia |]. cbn zeta in *.
  assert (Hsz : u16 (of_be [b3; b4])) by (apply u16_of_be; octets).
  set (pl := take _ _) in *.
  assert (Hpl : len pl = of_be [b3; b4]) by (unfold pl; lens).
  assert (Hsrc : bytes_ok [b7; b8; b9; b10; b11; b12; b13; b14; b15; b16; b17; b18; b19; b20; b21; b22]) by octets.
  assert (Hdst : bytes_ok [b23; b24; b25; b26; b27; b28; b29; b30; b31; b32; b33; b34; b35; b36; b37; b38]) by octets.
  pose proof (of_be_bound _ Hsrc) as Hs1. pose proof (of_be_bound _ Hdst) as Hd1.
  unfold len in Hs1, Hd1. cbn [length] in Hs1, Hd1.
  split.
  { unfold packet_ok; cbn [source destination traffic_class flow_label hop_limit next_header payload].
    rewrite NextHeader_roundtrip. split_wf; first [assumption | done | lia | idtac].
    unfold pl. auto with bytes_ok. }
  unfold ipv6_encode; cbn [source destination traffic_class flow_label hop_limit next_header payload].
  decide_ifs. eexists _, (drop (Z.to_nat (of_be [b3; b4])) (drop 40 bs)). split; [reflexivity|].
  rewrite Hfirst, Hpl, NextHeader_roundtrip, Z.mod_small by lia.
  rewrite (be_of_be_n 2), !(be_of_be_n 16) by first [done | octets].
  rewrite Hbs at 1. cbn [app]. repeat f_equal. unfold pl.
  replace (40 + Z.to_nat (of_be [b3; b4]) - 40)%nat with (Z.to_nat (of_be [b3; b4])) by lia.
  by rewrite take_drop.
Qed.

(** An IPv6 packet decodes to what was encoded whatever follows it, and every
    octet string the decoder accepts is the encoding of the packet it returns
    followed by octets it ignores. *)
Theorem ipv6_codec :
  (∀ p pad, packet_ok p → ∃ bs, ipv6_encode p = Ok bs ∧ ipv6_decode (bs ++ pad) = Ok p)
  ∧ (∀ bs p, bytes_ok bs → ipv6_decode bs = Ok p →
       packet_ok p ∧ ∃ enc pad, ipv6_encode p = Ok enc ∧ bs = enc ++ pad).
Proof. split; [intros p pad Hp; by apply ipv6_decode_eq | exact ipv6_decode_inv]. Qed.

(** ** Extension headers *)

Definition pointer_in (p : Ipv6Packet) (e : PacketError) : Prop :=
  match e with ParameterProblem ptr _ _ => 0 ≤ ptr < 40 + len (payload p) | _ => True end.

Lemma validate_options_spec fuel body base multicast pos (n : Z) :
  (length body - pos ≤ fuel)%nat → Z.of_nat base + len body ≤ n → n < 2 ^ 32 →
  safe (validate_options_from fuel body base multicast pos)
  ∧ ∀ e, validate_options_from fuel body base multicast pos = Err e →
      match e with ParameterProblem ptr _ _ => 0 ≤ ptr < n | _ => True end.
Proof.
  intros Hf Hn Hmax. revert pos Hf. induction fuel as [|fuel IH]; intros pos Hf; cbn [validate_options_from].
  { assert ((length body <=? pos)%nat = true) as -> by lia. done. }
  destruct (Nat.leb_spec (length body) pos); [done|].
  destruct (lookup_lt_is_Some_2 body pos) as [k Hk]; [lia|]. unfold idx. rewrite Hk, bind_Ok.
  destruct (k =? 0); [apply IH; lia|].
  destruct (body !! (pos + 1)%nat) as [z|]; cbn [ok_or]; [|split; [done|by intros e [= <-]]].
  rewrite bind_Ok. destruct (get_slice _ _ _) as [d|]; cbn [ok_or]; [|split; [done|by intros e [= <-]]].
  rewrite bind_Ok. destruct (k =? 1); [rewrite bind_Ok; apply IH; lia|].
  destruct ((k =? 5) && _); [rewrite bind_Ok; apply IH; lia|].
  destruct (k =? 5); [split; [done|by intros e [= <-]]|].
  destruct (_ =? 0); [rewrite bind_Ok; apply IH; lia|].
  split; [done|]. intros e [= <-]. rewrite Z.mod_small by lens. lens.
Qed.

Definition is_extension (h : NextHeader) : bool :=
  match h with
  | HopByHop | DestinationOptions | Routing | Fragment | Authentication | Esp => true
  | _ => false
  end.
(** What [upper_layer] promises from a state of its loop. *)
Definition layer_ok (p : Ipv6Packet) (offset : nat) (r : res PacketError UpperLayer) : Prop :=
  match r with
  | Ok u => is_extension (protocol u) = false
      ∧ (protocol u = NoNextHeader ∧ upper_payload u = []
         ∨ ∃ off, (offset ≤ off ≤ length (payload p))%nat ∧ upper_payload u = drop off (payload p))
  | Err e => pointer_in p e
  | Panic => False
  end.
Lemma layer_ok_bind {A} p offset (m : res PacketError A) k :
  safe m → (∀ e, m = Err e → pointer_in p e) → (∀ a, m = Ok a → layer_ok p offset (k a)) →
  layer_ok p offset (m ≫= k).
Proof. intros H1 H2 H3. destruct m as [a|e|]; cbn; [by apply H3 | by apply H2 | done]. Qed.
Lemma layer_ok_weaken p o o' r : (o ≤ o')%nat → layer_ok p o' r → layer_ok p o r.
Proof.
  intros Ho. destruct r as [u| |]; cbn; try done.
  intros (H1 & [H2|(off & Ho' & H2)]); split; try done; [by left|right; exists off; split; [lia|done]].
Qed.

Lemma upper_layer_loop_ok rounds p offset next next_offset had :
  len (payload p) ≤ 65535 → (offset ≤ length (payload p))%nat →
  0 ≤ next_offset < 40 + len (payload p) →
  layer_ok p offset (upper_layer_loop rounds p offset next next_offset had).
Proof.
  intros Hl. revert offset next next_offset had.
  induction rounds as [|rounds IH]; intros offset next noff had Ho Hn; cbn [upper_layer_loop]; [done|].
  assert (Hext : ∀ e : bool,
    layer_ok p offset
     (if bool_decide (next = HopByHop) && negb (offset =? 0)%nat
      then Err (ParameterProblem noff 1 true)
      else
        start ← ok_or (get_slice (payload p) offset (offset + 2)) Malformed;
        units ← idx start 1;
        let length := ((Z.to_nat units + 1) * 8)%nat in
        body ← ok_or (get_slice (payload p) offset (offset + length)) Malformed;
        _ ← (if bool_decide (next = Routing)
             then
               left ← idx body 3;
               if negb (left =? 0)
               then Err (ParameterProblem (Z.of_nat (40 + offset + 2) `mod` 2 ^ 32) 0 true)
               else Ok ()
             else validate_options body (40 + offset) (is_multicast (destination p)));
        n ← idx body 0;
        upper_layer_loop rounds p (offset + length) (NextHeader_from_u8 n)
          (Z.of_nat (40 + offset) `mod` 2 ^ 32) had)).
  { intros _. destruct (_ && _); [cbn; lia|].
    apply layer_ok_bind; [apply safe_ok_or | by intros e; destruct (get_slice _ _ _); intros [= <-] |].
    intros st Hs%ok_or_Ok_inv. apply get_slice_Some in Hs as [Hs ->].
    apply layer_ok_bind; [apply safe_idx; lens | unfold idx; intros e; by case_match |].
    intros units _. set (n := ((Z.to_nat units + 1) * 8)%nat). cbn zeta.
    apply layer_ok_bind; [apply safe_ok_or | by intros e; destruct (get_slice _ _ _); intros [= <-] |].
    intros body Hb%ok_or_Ok_inv. apply get_slice_Some in Hb as [Hb ->].
    set (body := take _ _). assert (Hlb : length body = n) by (unfold body; lens).
    apply layer_ok_bind.
    - case_bool_decide; [apply safe_bind; [apply safe_idx; lia|]; intros; by case_match|].
      apply (validate_options_spec _ _ _ _ _ (40 + len (payload p))); lens.
    - intros e. case_bool_decide.
      + destruct (lookup_lt_is_Some_2 body 3) as [b3 H3]; [lia|]. unfold idx. rewrite H3, bind_Ok.
        case_match; [|done]. intros [= <-]. cbn. rewrite Z.mod_small by lens. lens.
      + intros He. destruct (validate_options_spec (length body) body (40 + offset)
          (is_multicast (destination p)) 2 (40 + len (payload p))) as [_ Hv]; [lia | lens | lens |].
        exact (Hv e He).
    - intros _ _. apply layer_ok_bind; [apply safe_idx; lia | unfold idx; intros e; by case_match |].
      intros nx _. apply (layer_ok_weaken _ _ (offset + n)); [lia|]. apply IH; [lia|].
      rewrite Z.mod_small by lens. lens. }
  assert (Hend : layer_ok p offset (rest ← slice_from (payload p) offset;
     Ok {| protocol := next; upper_payload := rest; next_header_offset := noff;
           had_fragment_header := had |}) ∨ is_extension next = true).
  { destruct (is_extension next) eqn:E; [by right|left]. rewrite slice_from_ok, bind_Ok by done.
    cbn. split; [done|]. right. exists offset. done. }
  destruct next; try (apply (Hext true)); try (by destruct Hend); try done.
  - clear Hext Hend. destruct had; [done|].
    apply layer_ok_bind; [apply safe_ok_or | by intros e; destruct (get_slice _ _ _); intros [= <-] |].
    intros body Hb%ok_or_Ok_inv. apply get_slice_Some in Hb as [Hb ->]. set (body := take _ _).
    assert (Hlb : length body = 8%nat) by (unfold body; lens).
    apply layer_ok_bind; [apply safe_u16_at; lia | unfold u16_at, idx; intros e; repeat case_match; done |].
    intros frag _. case_match; [done|].
    do 2 (apply layer_ok_bind; [apply safe_idx; lia | unfold idx; intros e; by case_match |]; intros ? _).
    case_match; [done|].
    apply layer_ok_bind; [apply safe_idx; lia | unfold idx; intros e; by case_match |]. intros nx _.
    apply (layer_ok_weaken _ _ (offset + 8)); [lia|]. apply IH; [lia|].
    rewrite Z.mod_small by lens. lens.
  - split; [done|]. by left.
Qed.

(** ** The pseudoheader checksum *)

(** What RFC 8200 sums: the addresses, the length, the next header, the payload. *)
Definition pseudoheader (source destination : Ipv6Addr) (protocol : NextHeader) (payload : bytes) : bytes :=
  be 16 source ++ be 16 destination ++ be 4 (len payload) ++ [0; 0; 0; NextHeader_to_u8 protocol] ++ payload.

Lemma foldl_add_words bs acc : foldl Z.add acc (words bs) = acc + wsum true bs.
Proof.
  revert bs acc. fix IH 1. intros [|a [|b bs]] acc.
  - cbn. lia.
  - cbn. unfold of_be. cbn. lia.
  - cbn [words foldl wsum negb]. rewrite IH, of_be_two. lia.
Qed.
Lemma fold_carry_more {E} n k s r : @fold_carry E n s = Ok r → @fold_carry E (n + k) s = Ok r.
Proof.
  revert s. induction n as [|n IH]; intros s; cbn [fold_carry Nat.add].
  - destruct (Z.shiftr s 16 =? 0) eqn:Hz; [|done]. intros H. destruct k; cbn [fold_carry]; by rewrite Hz.
  - destruct (Z.shiftr s 16 =? 0); [done|]. apply IH.
Qed.
Lemma wsum_pseudoheader s d proto pl :
  u8 (NextHeader_to_u8 proto) → len pl < 2 ^ 32 →
  wsum true (pseudoheader s d proto pl)
  = sum (be 16 s) + sum (be 16 d) + Z.shiftr (len pl) 16 + Z.land (len pl) 0xffff
    + NextHeader_to_u8 proto + sum pl.
Proof.
  intros Hp Hl. unfold sum, pseudoheader. rewrite !foldl_add_words, !wsum_app, !length_be.
  cbn [length Nat.even wsum negb]. rewrite land_ffff, Z.shiftr_div_pow2 by lia.
  assert (Hw : wsum true (be 4 (len pl)) = len pl `div` 2 ^ 16 + len pl `mod` 65536); [|lia].
  assert (0 ≤ len pl) by lens.
  rewrite (be_split 2 2). rewrite wsum_app, length_be. cbn [Nat.even].
  assert (Hbe : ∀ x, wsum true (be 2 x) = x `mod` 65536).
  { intros x. pose proof (of_be_be 2 x) as Hx. cbn [be] in *. rewrite of_be_two in Hx.
    cbn [wsum negb]. change (256 ^ Z.of_nat 2) with 65536 in Hx. lia. }
  rewrite !Hbe. change (256 ^ Z.of_nat 2) with (2 ^ 16).
  rewrite Z.mod_small; [lia|]. split; [apply Z.div_pos; lia | apply Z.div_lt_upper_bound; lia].
Qed.
Lemma pseudoheader_ok s d proto pl :
  u8 (NextHeader_to_u8 proto) → bytes_ok pl → len pl ≤ 65535 →
  bytes_ok (pseudoheader s d proto pl) ∧ len (pseudoheader s d proto pl) ≤ MAX_SUMMED.
Proof.
  intros Hp Hb Hl. unfold pseudoheader, MAX_SUMMED. split; [|lens].
  repeat apply bytes_ok_app; try apply bytes_ok_be; [octets|done].
Qed.
Lemma ipv6_checksum_eq {E} s d proto pl :
  u8 (NextHeader_to_u8 proto) → bytes_ok pl → len pl ≤ 65535 →
  @ipv6_checksum E s d proto pl = checksum (pseudoheader s d proto pl).
Proof.
  intros Hp Hb Hl. destruct (pseudoheader_ok s d proto pl Hp Hb Hl) as [Hb' Hl'].
  pose proof (wsum_bound true _ Hb') as Hw. unfold MAX_SUMMED in Hl'.
  unfold ipv6_checksum, checksum. rewrite <-wsum_pseudoheader by (done || lia).
  rewrite (sum_words_wsum (pseudoheader s d proto pl) 0) by (done || lia). rewrite Z.add_0_l.
  destruct (@fold_carry_spec E (wsum true (pseudoheader s d proto pl))) as (r & Hr & _); [lia|].
  change 5%nat with (2 + 3)%nat. by rewrite (fold_carry_more 2 3 _ _ Hr), Hr.
Qed.

(** ** Properties *)

(** Walking the extension headers always ends without a panic; what it yields
    is never an extension header, its payload is the tail of the packet that
    starts after the extensions, and an error points inside the packet. *)
Theorem upper_layer_sound p :
  packet_ok p →
  safe (upper_layer p)
  ∧ (∀ u, upper_layer p = Ok u → is_extension (protocol u) = false
       ∧ (protocol u = NoNextHeader ∧ upper_payload u = []
          ∨ ∃ off, (off ≤ length (payload p))%nat ∧ upper_payload u = drop off (payload p)))
  ∧ (∀ ptr code icmp, upper_layer p = Err (ParameterProblem ptr code icmp) → 0 ≤ ptr < 40 + len (payload p))
  ∧ (is_extension (next_header p) = false → next_header p ≠ NoNextHeader →
       upper_layer p = Ok {| protocol := next_header p; upper_payload := payload p;
                             next_header_offset := 6; had_fragment_header := false |}).
Proof.
  intros (_&_&_&_&_&_&_&_&Hl). assert (0 ≤ len (payload p)) by lens.
  pose proof (upper_layer_loop_ok 16 p 0 (next_header p) 6 false Hl ltac:(lia) ltac:(lia)) as H1.
  unfold upper_layer. split_and!.
  - by destruct (upper_layer_loop _ _ _ _ _ _).
  - intros u Hu. rewrite Hu in H1. destruct H1 as (He & [H1|(off & Ho & H1)]); split; try done; [by left|].
    right. exists off. split; [lia|done].
  - intros ptr code icmp He. by rewrite He in H1.
  - intros He Hn. destruct (next_header p); done.
Qed.

(** [ipv6_checksum], which never builds the pseudoheader, is the Internet
    checksum of the pseudoheader followed by the payload. *)
Theorem ipv6_checksum_pseudoheader s d proto pl :
  u8 (NextHeader_to_u8 proto) → bytes_ok pl → len pl ≤ 65535 →
  @ipv6_checksum PacketError s d proto pl = checksum (pseudoheader s d proto pl).
Proof. apply ipv6_checksum_eq. Qed.

Lemma mask_land a n :
  0 ≤ n ≤ 128 → u128 a → Z.land a (mask n) = a - a `mod` 2 ^ (128 - n).
Proof. intros. apply (mask_bits_land 128); [lia | done | lia]. Qed.

(** An IPv6 prefix contains exactly the block of addresses that starts at its
    network address; normalizing an address, for a network or for an interface,
    gives a prefix that contains it. *)
Theorem ipv6_contains_block n a :
  network_ok n → u128 a →
  (contains n a = true ↔ network n ≤ a ≤ network n + 2 ^ (128 - network_len n) - 1)
  ∧ (∀ l, 0 ≤ l ≤ 128 → ∃ m, network_new a l = Ok m ∧ network_ok m ∧ contains m a = true)
  ∧ (∀ l c, 0 ≤ l → config_new a l = Ok c →
       contains (config_network c) a = true ∧ network_new a l = Ok (config_network c)).
Proof.
  intros (Hw & Hl & Hz) Ha. split_and!.
  - unfold contains. rewrite mask_land, Z.eqb_eq by done. apply normalize_range; (done || lia).
  - intros l Hl'. unfold network_new. decide_ifs. eexists. split; [reflexivity|].
    unfold network_ok, contains. cbn [network network_len]. rewrite mask_land, Z.eqb_refl by done.
    destruct (normalized 128 ltac:(lia) a l Hl' ltac:(lia)) as [H1 H2]. split_wf; [lia|lia|done|done].
  - intros l c Hl' Hc. unfold config_new in Hc. inv_ok. unfold contains, network_new, config_network.
    cbn [network network_len address prefix_len]. decide_ifs. by rewrite Z.eqb_refl.
Qed.

Lemma lxor_2_octet b : u8 b → u8 (Z.lxor b 2).
Proof.
  intros Hb. assert (H : (λ b, (0 <=? Z.lxor b 2) && (Z.lxor b 2 <=? 255)) b = true)
    by (apply (all_bytes_spec (λ b, (0 <=? Z.lxor b 2) && (Z.lxor b 2 <=? 255))); [by vm_compute | done]).
  cbn beta in H. lia.
Qed.
Lemma link_local_eq m :
  length m = 6%nat → bytes_ok m →
  link_local m = 0xfe80 * 2 ^ 112 + interface_identifier m ∧ 0 ≤ interface_identifier m < 2 ^ 64
  ∧ ∃ l, interface_identifier m = of_be l ∧ length l = 8%nat ∧ bytes_ok l
     ∧ m = [Z.lxor (nth 0 l 0) 2; nth 1 l 0; nth 2 l 0; nth 5 l 0; nth 6 l 0; nth 7 l 0].
Proof.
  intros Hl Hb. explode m 6%nat. split_octets Hb. unfold link_local, interface_identifier. cbn [nth].
  set (l := [Z.lxor b 2; _; _; _; _; _; _; _]).
  assert (Hl' : bytes_ok l) by (unfold l; pose proof (lxor_2_octet b ltac:(done)); octets).
  pose proof (of_be_bound l Hl') as Hr. change (256 ^ len l) with (2 ^ 64) in Hr.
  split; [apply lor_shiftl; lia|]. split; [done|]. exists l. split; [done|]. split; [done|].
  split; [done|]. unfold l. cbn [nth]. by rewrite Z.lxor_assoc, Z.lxor_nilpotent, Z.lxor_0_r.
Qed.

(** The link-local address of a card is link local, and two cards have the
    same one only if they are the same card. *)
Theorem link_local_injective m m' :
  length m = 6%nat → bytes_ok m → length m' = 6%nat → bytes_ok m' →
  is_unicast_link_local (link_local m) = true ∧ (link_local m = link_local m' → m = m').
Proof.
  intros Hl Hb Hl' Hb'. destruct (link_local_eq m Hl Hb) as (He & Hr & l & Hi & Hn & Hbl & Hm).
  destruct (link_local_eq m' Hl' Hb') as (He' & Hr' & l' & Hi' & Hn' & Hbl' & Hm'). split.
  - rewrite He. unfold is_unicast_link_local. rewrite Z.shiftr_div_pow2 by lia.
    rewrite Z.div_add_l, Z.div_small by lia. done.
  - intros Heq. assert (Hl2 : l = l'); [|rewrite Hm, Hm'; by subst l].
    apply of_be_inj; try done; [congruence | lia].
Qed.

(** ** Witnesses *)

Definition sample_packet : Ipv6Packet :=
  {| source := 1; destination := 2; traffic_class := 0; flow_label := 5; hop_limit := 64;
     next_header := DestinationOptions; payload := [17; 0; 1; 4; 0; 0; 0; 0; 7; 7] |}.
Lemma upper_layer_sound_witness :
  upper_layer sample_packet
    = Ok {| protocol := Udp; upper_payload := [7; 7]; next_header_offset := 40; had_fragment_header := false |}
  ∧ safe (upper_layer sample_packet).
Proof.
  split; [vm_compute; reflexivity|]. apply upper_layer_sound.
  unfold packet_ok; cbn. split_wf; solve [lia | done | octets | vm_compute; congruence].
Defined.
Lemma ipv6_checksum_pseudoheader_witness :
  @ipv6_checksum PacketError 1 2 Udp [1; 2; 3] = checksum (pseudoheader 1 2 Udp [1; 2; 3]).
Proof. apply ipv6_checksum_pseudoheader; [cbn; lia | octets | vm_compute; congruence]. Defined.
Definition sample_network : Ipv6Network := {| network := 2 ^ 125; network_len := 3 |}.
Lemma ipv6_contains_block_witness : contains sample_network (2 ^ 125 + 77) = true.
Proof.
  assert (Hn : network_ok sample_network) by (unfold network_ok; cbn; split_wf; (done || lia)).
  destruct (ipv6_contains_block sample_network (2 ^ 125 + 77) Hn ltac:(lia)) as [H _].
  apply H. cbn [network network_len sample_network]. lia.
Defined.
Lemma link_local_injective_witness :
  link_local [2; 0; 0; 0; 0; 1] = 0xfe80000000000000000000fffe000001
  ∧ is_unicast_link_local (link_local [2; 0; 0; 0; 0; 1]) = true.
Proof.
  split; [reflexivity|]. apply (link_local_injective _ [2; 0; 0; 0; 0; 1]); (done || octets).
Defined.
