(* ===== verification/Config.v ===== *)
(** The configuration of a device (src/crates/rios-config/src/lib.rs, bgp.rs,
    ipv6.rs, nat.rs, ospf.rs, qos.rs, services.rs, stp.rs): its records, their
    defaults and the decisions taken from them alone.

    A field that two records of the source share carries the record's name
    here. Names are their UTF-8 bytes; a [BTreeMap] is a [gmap] and a
    [BTreeSet] a [gset]. The textual rendering of a configuration is left
    out. *)
From S2P Require Import Prelude Wire Ethernet Ipv4 Collections AccessList RoutePolicy.
From S2P Require Ipv6 Qos.

Abbreviation InterfaceId := Z.

(** ** ospf.rs *)

Inductive OspfNetworkType := Broadcast | PointToPoint.
#[export] Instance OspfNetworkType_eq_dec : EqDecision OspfNetworkType.
Proof. solve_decision. Defined.
Record OspfInterfaceConfig := {
  ospf_cost : Z; ospf_priority : Z; hello_interval : Z; dead_interval : Z; network_type : OspfNetworkType
}.
#[export] Instance OspfInterfaceConfig_eq_dec : EqDecision OspfInterfaceConfig.
Proof. solve_decision. Defined.
Definition OspfInterfaceConfig_default : OspfInterfaceConfig :=
  {| ospf_cost := 1; ospf_priority := 1; hello_interval := 10; dead_interval := 40; network_type := Broadcast |}.
Record OspfDefaultRoute := { always : bool; default_metric : Z; default_type_two : bool }.
#[export] Instance OspfDefaultRoute_eq_dec : EqDecision OspfDefaultRoute.
Proof. solve_decision. Defined.
Record OspfRedistribute := { redistribute_metric : Z; redistribute_type_two : bool }.
#[export] Instance OspfRedistribute_eq_dec : EqDecision OspfRedistribute.
Proof. solve_decision. Defined.

(** ** ipv6.rs *)

#[export] Instance Ipv6InterfaceConfig_eq_dec : EqDecision Ipv6.Ipv6InterfaceConfig.
Proof. solve_decision. Defined.
#[export] Instance Ipv6InterfaceConfig_countable : Countable Ipv6.Ipv6InterfaceConfig.
Proof.
  refine (inj_countable' (λ c, (Ipv6.address c, Ipv6.prefix_len c))
            (λ '(a, n), {| Ipv6.address := a; Ipv6.prefix_len := n |}) _). by intros [].
Defined.
#[export] Existing Instance Ipv6.Ipv6Network_eq_dec.
#[export] Instance Ipv6Network_countable : Countable Ipv6.Ipv6Network.
Proof.
  refine (inj_countable' (λ c, (Ipv6.network c, Ipv6.network_len c))
            (λ '(a, n), {| Ipv6.network := a; Ipv6.network_len := n |}) _). by intros [].
Defined.

Record OspfV3Binding := { binding_process_id : Z; binding_area : Z }.
#[export] Instance OspfV3Binding_eq_dec : EqDecision OspfV3Binding.
Proof. solve_decision. Defined.
Record Ipv6InterfacePolicy := {
  policy_ospf : option OspfV3Binding;
  ospf_parameters : OspfInterfaceConfig;
  enabled : bool;
  addresses : gset Ipv6.Ipv6InterfaceConfig;
  policy_link_local : option Ipv6.Ipv6Addr;
  autoconfig : bool;
  ra_suppress : bool
}.
#[export] Instance Ipv6InterfacePolicy_eq_dec : EqDecision Ipv6InterfacePolicy.
Proof. solve_decision. Defined.
Definition Ipv6InterfacePolicy_default : Ipv6InterfacePolicy :=
  {| policy_ospf := None; ospf_parameters := OspfInterfaceConfig_default; enabled := false; addresses := ∅;
     policy_link_local := None; autoconfig := false; ra_suppress := false |}.
Definition active (p : Ipv6InterfacePolicy) : bool :=
  enabled p || autoconfig p || bool_decide (is_Some (policy_link_local p)) || negb (bool_decide (addresses p = ∅)).

Record Ipv6StaticRoute := {
  route6_prefix : Ipv6.Ipv6Network; route6_next_hop : Ipv6.Ipv6Addr; route6_interface : option InterfaceId
}.
#[export] Instance Ipv6StaticRoute_eq_dec : EqDecision Ipv6StaticRoute.
Proof. solve_decision. Defined.
#[export] Instance Ipv6StaticRoute_countable : Countable Ipv6StaticRoute.
Proof.
  refine (inj_countable' (λ r, (route6_prefix r, route6_next_hop r, route6_interface r))
            (λ '(p, n, i), {| route6_prefix := p; route6_next_hop := n; route6_interface := i |}) _).
  by intros [].
Defined.
Record OspfV3Config := {
  v3_process_id : Z; v3_router_id : option Ipv4Addr; v3_passive_interfaces : gset InterfaceId
}.
#[export] Instance OspfV3Config_eq_dec : EqDecision OspfV3Config.
Proof. solve_decision. Defined.

(** ** nat.rs *)

Inductive NatTransport := TransportTcp | TransportUdp.
#[export] Instance NatTransport_eq_dec : EqDecision NatTransport.
Proof. solve_decision. Defined.
Inductive StaticNat :=
| StaticAddress (local global : Ipv4Addr)
| StaticPort (protocol : NatTransport) (local : Ipv4Addr) (local_port : Z) (global : Ipv4Addr) (global_port : Z).
#[export] Instance StaticNat_eq_dec : EqDecision StaticNat.
Proof. solve_decision. Defined.
#[export] Instance StaticNat_countable : Countable StaticNat.
Proof.
  refine (inj_countable'
            (λ r, match r with
                  | StaticAddress l g => inl (l, g)
                  | StaticPort p l lp g gp => inr (bool_decide (p = TransportTcp), l, lp, g, gp)
                  end)
            (λ x, match x with
                  | inl (l, g) => StaticAddress l g
                  | inr (t, l, lp, g, gp) => StaticPort (if t : bool then TransportTcp else TransportUdp) l lp g gp
                  end) _).
  by intros [|[] ????].
Defined.
Definition nat_global (r : StaticNat) : Ipv4Addr :=
  match r with StaticAddress _ global | StaticPort _ _ _ global _ => global end.
Definition nat_local (r : StaticNat) : Ipv4Addr :=
  match r with StaticAddress local _ | StaticPort _ local _ _ _ => local end.
Record NatPool := { pool_first : Ipv4Addr; pool_last : Ipv4Addr; pool_prefix_len : Z }.
#[export] Instance NatPool_eq_dec : EqDecision NatPool.
Proof. solve_decision. Defined.
Record NatPoolRule := { pool_access_list : AccessListId; rule_pool : bytes; overload : bool }.
#[export] Instance NatPoolRule_eq_dec : EqDecision NatPoolRule.
Proof. solve_decision. Defined.

(** ** stp.rs *)

Record StpConfig := { stp_rapid : bool; priorities : gmap VlanId Z }.
#[export] Instance StpConfig_eta : Eta StpConfig := λ c, {| stp_rapid := stp_rapid c; priorities := priorities c |}.
#[export] Instance StpConfig_eq_dec : EqDecision StpConfig.
Proof. solve_decision. Defined.
Definition StpConfig_default : StpConfig := {| stp_rapid := false; priorities := ∅ |}.
Record StpPortConfig := {
  stp_priority : Z; stp_cost : option Z; portfast : bool; bpdu_guard : bool; root_guard : bool
}.
#[export] Instance StpPortConfig_eq_dec : EqDecision StpPortConfig.
Proof. solve_decision. Defined.
Definition StpPortConfig_default : StpPortConfig :=
  {| stp_priority := 128; stp_cost := None; portfast := false; bpdu_guard := false; root_guard := false |}.

(** ** services.rs *)

Inductive ServiceConfig :=
| DnsService (port : Z) (records : gmap bytes Ipv4Addr) (ttl : Z)
| NtpService (port : Z) (epoch_seconds : Z)
| UdpEcho (port : Z)
| TcpEcho (port : Z)
| Http (port : Z) (body : bytes).
#[export] Instance ServiceConfig_eq_dec : EqDecision ServiceConfig.
Proof. solve_decision. Defined.
Definition service_port (s : ServiceConfig) : Z :=
  match s with DnsService port _ _ | NtpService port _ | UdpEcho port | TcpEcho port | Http port _ => port end.
Definition is_tcp (s : ServiceConfig) : bool := match s with TcpEcho _ | Http _ _ => true | _ => false end.

(** ** qos.rs *)

Abbreviation QosClassId := Z.
Abbreviation QosPolicyId := Z.
Record QosClassMap := {
  class_name : bytes; match_all : bool; class_dscp : gset Z; class_precedence : gset Z;
  class_access_lists : gset bytes
}.
#[export] Instance QosClassMap_eq_dec : EqDecision QosClassMap.
Proof. solve_decision. Defined.
Record QosRate := { rate_bits_per_second : Z; rate_burst_bytes : option Z }.
#[export] Instance QosRate_eq_dec : EqDecision QosRate.
Proof. solve_decision. Defined.
(** [resolve]: a burst of 100 ms with room for a full Ethernet frame. *)
Definition resolve (r : QosRate) (mtu : Z) : Qos.RateLimit :=
  {| Qos.bits_per_second := rate_bits_per_second r;
     Qos.burst_bytes := default (Z.min (Z.max (rate_bits_per_second r `div` 80) (mtu + 18)) 1073741824)
                          (rate_burst_bytes r) |}.
Definition rate_valid (r : QosRate) : bool := Qos.RateLimit_valid (resolve r 1500).
Record QosPolicyClass := {
  policy_class : option QosClassId; bandwidth_kbps : option Z; class_priority : option QosRate;
  class_police : option QosRate; class_shape : option QosRate
}.
#[export] Instance QosPolicyClass_eq_dec : EqDecision QosPolicyClass.
Proof. solve_decision. Defined.
Definition scheduling (c : QosPolicyClass) (mtu default_weight : Z) : Qos.QueueClassConfig :=
  {| Qos.weight := match bandwidth_kbps c with Some kbps => sat_mul U64_MAX kbps 1000 | None => default_weight end;
     Qos.priority := (λ r, resolve r mtu) <$> class_priority c;
     Qos.police := (λ r, resolve r mtu) <$> class_police c;
     Qos.shape := (λ r, resolve r mtu) <$> class_shape c |}.
Record QosPolicyMap := { policy_name : bytes; policy_classes : list QosPolicyClass }.
#[export] Instance QosPolicyMap_eq_dec : EqDecision QosPolicyMap.
Proof. solve_decision. Defined.
Record QosConfig := { qos_classes : gmap QosClassId QosClassMap; policies : gmap QosPolicyId QosPolicyMap }.
#[export] Instance QosConfig_eta : Eta QosConfig := λ c, {| qos_classes := qos_classes c; policies := policies c |}.
#[export] Instance QosConfig_eq_dec : EqDecision QosConfig.
Proof. solve_decision. Defined.
Definition QosConfig_default : QosConfig := {| qos_classes := ∅; policies := ∅ |}.

(** ** bgp.rs *)

#[export] Instance Ipv4InterfaceConfig_eq_dec : EqDecision Ipv4InterfaceConfig.
Proof. solve_decision. Defined.
#[export] Instance Ipv4Network_countable : Countable Ipv4Network.
Proof.
  refine (inj_countable' (λ c, (network c, network_len c))
            (λ '(a, n), {| network := a; network_len := n |}) _). by intros [].
Defined.
Record BgpPolicy := { bgp_prefix_list : option bytes; bgp_route_map : option bytes }.
#[export] Instance BgpPolicy_eq_dec : EqDecision BgpPolicy.
Proof. solve_decision. Defined.
Record BgpDefaultRoute := { default_route_map : option bytes }.
#[export] Instance BgpDefaultRoute_eq_dec : EqDecision BgpDefaultRoute.
Proof. solve_decision. Defined.
Record BgpNeighborConfig := {
  remote_as : Z; inbound : BgpPolicy; outbound : BgpPolicy; default_originate : option BgpDefaultRoute;
  update_source : option InterfaceId; next_hop_self : bool; route_reflector_client : bool
}.
#[export] Instance BgpNeighborConfig_eq_dec : EqDecision BgpNeighborConfig.
Proof. solve_decision. Defined.
Record BgpConfig := {
  local_as : Z; bgp_router_id : option Ipv4Addr; cluster_id : option Ipv4Addr;
  neighbors : gmap Ipv4Addr BgpNeighborConfig; bgp_networks : gset Ipv4Network
}.
#[export] Instance BgpConfig_eq_dec : EqDecision BgpConfig.
Proof. solve_decision. Defined.
Definition BgpConfig_new (local_as : Z) : BgpConfig :=
  {| local_as := local_as; bgp_router_id := None; cluster_id := None; neighbors := ∅; bgp_networks := ∅ |}.

(** ** lib.rs *)

Inductive AdminState := AdminDown | AdminUp.
#[export] Instance AdminState_eq_dec : EqDecision AdminState.
Proof. solve_decision. Defined.
Record Dot1qEncapsulation := { dot1q_vlan : VlanId; dot1q_native : bool }.
#[export] Instance Dot1qEncapsulation_eq_dec : EqDecision Dot1qEncapsulation.
Proof. solve_decision. Defined.
Inductive ChannelMode := ModeOn | ModeActive | ModePassive.
#[export] Instance ChannelMode_eq_dec : EqDecision ChannelMode.
Proof. solve_decision. Defined.
Record ChannelMembership := { group_number : Z; group_mode : ChannelMode }.
#[export] Instance ChannelMembership_eq_dec : EqDecision ChannelMembership.
Proof. solve_decision. Defined.
Inductive NatRole := Inside | Outside.
#[export] Instance NatRole_eq_dec : EqDecision NatRole.
Proof. solve_decision. Defined.
Record NatOverloadConfig := { overload_access_list : AccessListId; outside_interface : InterfaceId }.
#[export] Instance NatOverloadConfig_eq_dec : EqDecision NatOverloadConfig.
Proof. solve_decision. Defined.
Inductive SwitchportMode := Access | Trunk.
#[export] Instance SwitchportMode_eq_dec : EqDecision SwitchportMode.
Proof. solve_decision. Defined.
Record SwitchportConfig := {
  native_vlan : VlanId; mode : SwitchportMode; access_vlan : VlanId; trunk_allowed_vlans : option (gset VlanId)
}.
#[export] Instance SwitchportConfig_eta : Eta SwitchportConfig := λ s,
  {| native_vlan := native_vlan s; mode := mode s; access_vlan := access_vlan s;
     trunk_allowed_vlans := trunk_allowed_vlans s |}.
#[export] Instance SwitchportConfig_eq_dec : EqDecision SwitchportConfig.
Proof. solve_decision. Defined.
Definition SwitchportConfig_default : SwitchportConfig :=
  {| native_vlan := VlanId_DEFAULT; mode := Access; access_vlan := VlanId_DEFAULT; trunk_allowed_vlans := None |}.
Record VlanConfig := { vlan_name : bytes }.
#[export] Instance VlanConfig_eq_dec : EqDecision VlanConfig.
Proof. solve_decision. Defined.
Definition VlanConfig_default : VlanConfig := {| vlan_name := [] |}.

Record OspfNetworkConfig := { statement_address : Ipv4Addr; statement_wildcard : Ipv4Addr; statement_area : Z }.
#[export] Instance OspfNetworkConfig_eq_dec : EqDecision OspfNetworkConfig.
Proof. solve_decision. Defined.
#[export] Instance OspfNetworkConfig_countable : Countable OspfNetworkConfig.
Proof.
  refine (inj_countable' (λ c, (statement_address c, statement_wildcard c, statement_area c))
            (λ '(a, w, r), {| statement_address := a; statement_wildcard := w; statement_area := r |}) _).
  by intros [].
Defined.
Definition statement_matches (n : OspfNetworkConfig) (address : Ipv4Addr) : bool :=
  Z.land address (not32 (statement_wildcard n)) =? Z.land (statement_address n) (not32 (statement_wildcard n)).
Record OspfConfig := {
  process_id : Z; networks : gset OspfNetworkConfig; ospf_router_id : option Ipv4Addr;
  passive_interfaces : gset InterfaceId; default_information : option OspfDefaultRoute;
  redistribute_static : option OspfRedistribute
}.
#[export] Instance OspfConfig_eq_dec : EqDecision OspfConfig.
Proof. solve_decision. Defined.

Abbreviation DhcpPoolId := Z.
Record DhcpPoolConfig := {
  lease_seconds : Z; pool_dns_servers : list Ipv4Addr; pool_domain_name : option bytes;
  reserved_address : option Ipv4Addr; hardware_address : option MacAddress; pool_name : bytes;
  pool_network : option Ipv4Network; pool_default_router : option Ipv4Addr
}.
#[export] Instance DhcpPoolConfig_eta : Eta DhcpPoolConfig := λ p,
  {| lease_seconds := lease_seconds p; pool_dns_servers := pool_dns_servers p;
     pool_domain_name := pool_domain_name p; reserved_address := reserved_address p;
     hardware_address := hardware_address p; pool_name := pool_name p; pool_network := pool_network p;
     pool_default_router := pool_default_router p |}.
#[export] Instance DhcpPoolConfig_eq_dec : EqDecision DhcpPoolConfig.
Proof. solve_decision. Defined.

Record InterfaceConfig := {
  service_policy_output : option QosPolicyId;
  ipv6 : Ipv6InterfacePolicy;
  ospf : OspfInterfaceConfig;
  spanning_tree : StpPortConfig;
  channel_group : option ChannelMembership;
  port_channel : option Z;
  named_access_group_in : option AclId;
  named_access_group_out : option AclId;
  parent : option InterfaceId;
  dot1q : option Dot1qEncapsulation;
  name : bytes;
  description : bytes;
  admin_state : AdminState;
  ipv4 : option Ipv4InterfaceConfig;
  dhcp_client : bool;
  helper_address : option Ipv4Addr;
  mtu : Z;
  switchport_capable : bool;
  switchport : option SwitchportConfig;
  access_group_in : option AccessListId;
  access_group_out : option AccessListId;
  nat_role : option NatRole
}.
#[export] Instance InterfaceConfig_eta : Eta InterfaceConfig := λ c,
  {| service_policy_output := service_policy_output c; ipv6 := ipv6 c; ospf := ospf c;
     spanning_tree := spanning_tree c; channel_group := channel_group c; port_channel := port_channel c;
     named_access_group_in := named_access_group_in c;
     named_access_group_out := named_access_group_out c; parent := parent c; dot1q := dot1q c;
     name := name c; description := description c; admin_state := admin_state c; ipv4 := ipv4 c;
     dhcp_client := dhcp_client c; helper_address := helper_address c; mtu := mtu c;
     switchport_capable := switchport_capable c; switchport := switchport c;
     access_group_in := access_group_in c; access_group_out := access_group_out c; nat_role := nat_role c |}.
#[export] Instance InterfaceConfig_eq_dec : EqDecision InterfaceConfig.
Proof. solve_decision. Defined.

Record RunningConfig := {
  qos : QosConfig;
  routing_policy : RoutingPolicyConfig;
  bgp : option BgpConfig;
  ospfv3 : option OspfV3Config;
  ipv6_unicast_routing : bool;
  ipv6_static_routes : gset Ipv6StaticRoute;
  bridge_spanning_tree : StpConfig;
  dhcp_excluded : gmap Ipv4Addr Ipv4Addr;
  static_nat : gset StaticNat;
  nat_pools : gmap bytes NatPool;
  nat_pool_rule : option NatPoolRule;
  named_access_lists : gmap AclId AccessList;
  hostname : bytes;
  ip_routing : bool;
  interface_configs : gmap InterfaceId InterfaceConfig;
  static_routes : gmap Ipv4Network Ipv4Addr;
  vlans : gmap VlanId VlanConfig;
  ospf_process : option OspfConfig;
  access_lists : gmap AccessListId (list StandardAccessListEntry);
  dhcp_pools : gmap DhcpPoolId DhcpPoolConfig;
  nat_overload : option NatOverloadConfig
}.
#[export] Instance RunningConfig_eta : Eta RunningConfig := λ c,
  {| qos := qos c; routing_policy := routing_policy c; bgp := bgp c; ospfv3 := ospfv3 c;
     ipv6_unicast_routing := ipv6_unicast_routing c; ipv6_static_routes := ipv6_static_routes c;
     bridge_spanning_tree := bridge_spanning_tree c; dhcp_excluded := dhcp_excluded c;
     static_nat := static_nat c; nat_pools := nat_pools c; nat_pool_rule := nat_pool_rule c;
     named_access_lists := named_access_lists c; hostname := hostname c; ip_routing := ip_routing c;
     interface_configs := interface_configs c; static_routes := static_routes c; vlans := vlans c;
     ospf_process := ospf_process c; access_lists := access_lists c; dhcp_pools := dhcp_pools c;
     nat_overload := nat_overload c |}.
#[export] Instance RunningConfig_eq_dec : EqDecision RunningConfig.
Proof. solve_decision. Defined.

(** ** Properties *)

(** Every class of a policy whose rates are [rate_valid] has a queue
    configuration the scheduler accepts. *)
Definition class_rates_valid (c : QosPolicyClass) : Prop :=
  (∀ r, class_priority c = Some r → rate_valid r = true) ∧ (∀ r, class_police c = Some r → rate_valid r = true)
  ∧ (∀ r, class_shape c = Some r → rate_valid r = true).
(** A rate validated for the default MTU is valid on every interface, so
    the classes of a validated policy always give the scheduler a
    configuration it accepts, whatever the interface's MTU. *)
Theorem scheduling_valid c mtu default_weight :
  0 ≤ mtu → class_rates_valid c →
  (∀ k, bandwidth_kbps c = Some k → 1 ≤ k ≤ 1000000000) → 1 ≤ default_weight ≤ 1000000000000 →
  Qos.config_invalid (scheduling c mtu default_weight) = false.
Proof.
  intros Hm (Hpr & Hpo & Hsh) Hk Hd.
  assert (Hr : ∀ r, rate_valid r = true → Qos.RateLimit_valid (resolve r mtu) = true).
  { intros r. unfold rate_valid, Qos.RateLimit_valid, resolve. cbn. destruct (rate_burst_bytes r); cbn; lia. }
  assert (Ho : ∀ o, (∀ r, o = Some r → rate_valid r = true) →
    Qos.rate_invalid ((λ r, resolve r mtu) <$> o) = false).
  { intros [r|] H; [|done]. cbn. by rewrite Hr by (by apply H). }
  unfold Qos.config_invalid, scheduling. cbn. rewrite !Ho by done. cbn. rewrite orb_false_r.
  destruct (bandwidth_kbps c) as [k|]; [|lia]. specialize (Hk k eq_refl). unfold sat_mul, U64_MAX. lia.
Qed.
Lemma scheduling_valid_witness :
  Qos.config_invalid (scheduling {| policy_class := None; bandwidth_kbps := Some 64;
    class_priority := Some {| rate_bits_per_second := 8000; rate_burst_bytes := None |};
    class_police := None; class_shape := None |} 9000 1) = false.
Proof.
  apply scheduling_valid; [lia|split_and!; [intros r [= <-]; reflexivity|done|done]|intros k [= <-]; lia|lia].
Defined.
