(* ===== verification/Icmpv6.v ===== *)
(** rios-ipv6: Neighbor Discovery and ICMPv6 messages
    (src/crates/rios-ipv6/src/nd.rs and icmp.rs). *)
From S2P Require Import Prelude Wire Checksum Prefix Ipv6.

Inductive Icmpv6Error := Malformed | Checksum | Unsupported | TooLarge.

(** ** nd.rs *)

Record PrefixInformation := {
  prefix : Ipv6Network;
  on_link : bool;
  autonomous : bool;
  valid_lifetime : Z;
  preferred_lifetime : Z
}.
Inductive NdOption :=
| SourceLinkLayer (mac : bytes)
| TargetLinkLayer (mac : bytes)
| Prefix (info : PrefixInformation)
| Mtu (mtu : Z)
| Unknown (kind : Z) (data : bytes).

Inductive NdMessage :=
| RouterSolicitation (options : list NdOption)
| RouterAdvertisement (hop_limit : Z) (managed other : bool)
    (router_lifetime reachable_time retrans_timer : Z) (options : list NdOption)
| NeighborSolicitation (target : Z) (options : list NdOption)
| NeighborAdvertisement (target : Z) (router solicited override_flag : bool)
    (options : list NdOption).

Definition nd_options (m : NdMessage) : list NdOption :=
  match m with
  | RouterSolicitation options | RouterAdvertisement _ _ _ _ _ _ options
  | NeighborSolicitation _ options | NeighborAdvertisement _ _ _ _ options => options
  end.

Definition is_source_link_layer (o : NdOption) : bool :=
  match o with SourceLinkLayer _ => true | _ => false end.
Definition nd_validate (m : NdMessage) (source destination : Z) (hop_limit : Z) : res Icmpv6Error () :=
  if negb (hop_limit =? 255) || is_multicast source then Err Malformed
  else
    let source_option := existsb is_source_link_layer (nd_options m) in
    let bad :=
      match m with
      | RouterAdvertisement _ _ _ _ _ _ _ => negb (is_unicast_link_local source)
      | RouterSolicitation _ => is_unspecified source && source_option
      | NeighborSolicitation target _ =>
          is_multicast target || is_unspecified target
          || (is_unspecified source
              && (source_option || negb (destination =? solicited_node target)))
      | NeighborAdvertisement target _ solicited _ _ =>
          is_unspecified source || is_multicast target || is_unspecified target
          || (solicited && is_multicast destination)
      end in
    if bad then Err Malformed else Ok ().

Definition flag (b : bool) (v : Z) : Z := if b then v else 0.

Definition option_encode (o : NdOption) (out : bytes) : res Icmpv6Error bytes :=
  match o with
  | SourceLinkLayer mac | TargetLinkLayer mac =>
      Ok (out ++ [if is_source_link_layer o then 1 else 2; 1] ++ mac)
  | Prefix info =>
      if valid_lifetime info <? preferred_lifetime info then Err Malformed
      else
        Ok (out ++ [3; 4; network_len (prefix info);
                    Z.lor (flag (on_link info) 0x80) (flag (autonomous info) 0x40)]
                ++ be 4 (valid_lifetime info) ++ be 4 (preferred_lifetime info) ++ zeros 4
                ++ be 16 (network (prefix info)))
  | Mtu mtu => Ok (out ++ [5; 1; 0; 0] ++ be 4 mtu)
  | Unknown kind data =>
      if (kind =? 1) || (kind =? 2) || (kind =? 3) || (kind =? 5)
         || negb ((len data + 2) `mod` 8 =? 0) || (2038 <? len data)
      then Err Malformed
      else Ok (out ++ [kind; ((len data + 2) `div` 8) `mod` 256] ++ data)
  end.
Fixpoint encode_options (os : list NdOption) (out : bytes) : res Icmpv6Error bytes :=
  match os with
  | [] => Ok out
  | o :: os => out ← option_encode o out; encode_options os out
  end.

Definition nd_body (m : NdMessage) : bytes :=
  match m with
  | RouterSolicitation _ => [133; 0; 0; 0; 0; 0; 0; 0]
  | RouterAdvertisement hop_limit managed other router_lifetime reachable_time retrans_timer _ =>
      [134; 0; 0; 0; hop_limit; Z.lor (flag managed 0x80) (flag other 0x40)]
      ++ be 2 router_lifetime ++ be 4 reachable_time ++ be 4 retrans_timer
  | NeighborSolicitation target _ => [135; 0; 0; 0; 0; 0; 0; 0] ++ be 16 target
  | NeighborAdvertisement target router solicited override_flag _ =>
      let flags := Z.lor (Z.lor (flag router 0x80) (flag solicited 0x40)) (flag override_flag 0x20) in
      [136; 0; 0; 0; flags; 0; 0; 0] ++ be 16 target
  end.
Definition nd_encode (m : NdMessage) : res Icmpv6Error bytes :=
  let out := nd_body m in
  if 128 <? len (nd_options m) then Err TooLarge
  else
    out ← encode_options (nd_options m) out;
    if 65535 <? len out then Err TooLarge else Ok out.

(** The [match bytes[0]] of [decode_all] on one option whose value is [data]. *)
Definition decode_option (kind : Z) (length : nat) (data : bytes) : res Icmpv6Error NdOption :=
  if ((kind =? 1) || (kind =? 2)) && (length =? 8)%nat then
    mac ← slice data 0 6;
    if kind =? 1 then Ok (SourceLinkLayer mac) else Ok (TargetLinkLayer mac)
  else if (kind =? 3) && (length =? 32)%nat then
    valid_lifetime ← u32_at data 2;
    preferred_lifetime ← u32_at data 6;
    if valid_lifetime <? preferred_lifetime then Err Malformed
    else
      address ← slice data 14 30;
      d0 ← idx data 0;
      prefix ← or_err (network_new (of_be address) d0) Malformed;
      d1 ← idx data 1;
      Ok (Prefix {| prefix := prefix; on_link := negb (Z.land d1 0x80 =? 0);
                          autonomous := negb (Z.land d1 0x40 =? 0);
                          valid_lifetime := valid_lifetime; preferred_lifetime := preferred_lifetime |})
  else if (kind =? 5) && (length =? 8)%nat then mtu ← u32_at data 2; Ok (Mtu mtu)
  else if (kind =? 1) || (kind =? 2) || (kind =? 3) || (kind =? 5) then Err Malformed
  else Ok (Unknown kind data).

(** [while !bytes.is_empty()]: an option takes at least eight octets. *)
Fixpoint decode_all_from (fuel : nat) (bs : bytes) (out : list NdOption) : res Icmpv6Error (list NdOption) :=
  match bs with
  | [] => Ok out
  | _ =>
      match fuel with
      | O => Panic
      | S fuel =>
          if (128 <=? len out) || (len bs <? 2) then Err Malformed
          else
            b1 ← idx bs 1;
            if b1 =? 0 then Err Malformed
            else
              let length := (Z.to_nat b1 * 8)%nat in
              data ← ok_or (get_slice bs 2 length) Malformed;
              b0 ← idx bs 0;
              option ← decode_option b0 length data;
              rest ← slice_from bs length;
              decode_all_from fuel rest (out ++ [option])
      end
  end.
Definition decode_all (bs : bytes) : res Icmpv6Error (list NdOption) :=
  decode_all_from (length bs) bs [].

Definition nd_decode (bs : bytes) : res Icmpv6Error NdMessage :=
  if len bs <? 8 then Err Malformed
  else
    b0 ← idx bs 0;
    options_at ← (if b0 =? 133 then Ok 8%nat else if b0 =? 134 then Ok 16%nat
                  else if (b0 =? 135) || (b0 =? 136) then Ok 24%nat else Err Unsupported);
    rest ← ok_or (get_from bs options_at) Malformed;
    options ← decode_all rest;
    if b0 =? 133 then Ok (RouterSolicitation options)
    else if b0 =? 134 then
      hop_limit ← idx bs 4;
      flags ← idx bs 5;
      router_lifetime ← u16_at bs 6;
      reachable_time ← u32_at bs 8;
      retrans_timer ← u32_at bs 12;
      Ok (RouterAdvertisement hop_limit (negb (Z.land flags 0x80 =? 0)) (negb (Z.land flags 0x40 =? 0))
            router_lifetime reachable_time retrans_timer options)
    else if b0 =? 135 then target ← slice bs 8 24; Ok (NeighborSolicitation (of_be target) options)
    else if b0 =? 136 then
      target ← slice bs 8 24;
      flags ← idx bs 4;
      Ok (NeighborAdvertisement (of_be target) (negb (Z.land flags 0x80 =? 0))
            (negb (Z.land flags 0x40 =? 0)) (negb (Z.land flags 0x20 =? 0)) options)
    else Err Unsupported.

(** ** icmp.rs *)

Inductive Icmpv6ErrorKind := DestinationUnreachable | PacketTooBig | TimeExceeded | ParameterProblem.
Definition error_code (k : Icmpv6ErrorKind) : Z :=
  match k with DestinationUnreachable => 1 | PacketTooBig => 2 | TimeExceeded => 3 | ParameterProblem => 4 end.

Inductive Icmpv6Message :=
| Echo (reply : bool) (identifier sequence : Z) (payload : bytes)
| Error (kind : Icmpv6ErrorKind) (code parameter : Z) (quoted : bytes)
| Neighbor (m : NdMessage).

Definition icmpv6_encode (m : Icmpv6Message) (source destination : Z) : res Icmpv6Error bytes :=
  out ← match m with
        | Echo reply identifier sequence payload =>
            if 65527 <? len payload then Err TooLarge
            else Ok ([if reply then 129 else 128; 0; 0; 0] ++ be 2 identifier ++ be 2 sequence ++ payload)
        | Error kind code parameter quoted =>
            if 65527 <? len quoted then Err TooLarge
            else Ok ([error_code kind; code; 0; 0] ++ be 4 parameter ++ quoted)
        | Neighbor message => nd_encode message
        end;
  sum ← ipv6_checksum source destination Icmpv6 out;
  put out 2 (be 2 sum).

Definition icmpv6_decode (source destination : Z) (bs : bytes) : res Icmpv6Error Icmpv6Message :=
  if (len bs <? 8) || (65535 <? len bs) then Err Malformed
  else
    sum ← ipv6_checksum source destination Icmpv6 bs;
    if negb (sum =? 0) then Err Checksum
    else
      b0 ← idx bs 0;
      b1 ← idx bs 1;
      if ((b0 =? 128) || (b0 =? 129)) && (b1 =? 0) then
        identifier ← u16_at bs 4;
        sequence ← u16_at bs 6;
        payload ← slice_from bs 8;
        Ok (Echo (b0 =? 129) identifier sequence payload)
      else if (1 <=? b0) && (b0 <=? 4) then
        let kind := if b0 =? 1 then DestinationUnreachable else if b0 =? 2 then PacketTooBig
                    else if b0 =? 3 then TimeExceeded else ParameterProblem in
        parameter ← u32_at bs 4;
        quoted ← slice_from bs 8;
        Ok (Error kind b1 parameter quoted)
      else if (133 <=? b0) && (b0 <=? 136) && (b1 =? 0) then
        m ← nd_decode bs; Ok (Neighbor m)
      else Err Unsupported.

(** ** Well-formed values *)

Definition option_ok (o : NdOption) : Prop :=
  match o with
  | SourceLinkLayer mac | TargetLinkLayer mac => length mac = 6%nat ∧ bytes_ok mac
  | Prefix info => network_ok (prefix info) ∧ u32 (valid_lifetime info) ∧ u32 (preferred_lifetime info)
  | Mtu mtu => u32 mtu
  | Unknown kind data => u8 kind ∧ bytes_ok data
  end.
Definition nd_ok (m : NdMessage) : Prop :=
  Forall option_ok (nd_options m)
  ∧ match m with
    | RouterSolicitation _ => True
    | RouterAdvertisement h _ _ l r t _ => u8 h ∧ u16 l ∧ u32 r ∧ u32 t
    | NeighborSolicitation t _ | NeighborAdvertisement t _ _ _ _ => u128 t
    end.
Definition message_ok (m : Icmpv6Message) : Prop :=
  match m with
  | Echo _ i s p => u16 i ∧ u16 s ∧ bytes_ok p
  | Error _ c p q => u8 c ∧ u32 p ∧ bytes_ok q
  | Neighbor m => nd_ok m
  end.

(** ** Helper lemmas: options *)

Lemma option_encode_app o out :
  option_encode o out = (w ← option_encode o []; Ok (out ++ w)).
Proof. destruct o; cbn [option_encode]; repeat case_match; done. Qed.

(** A flag octet read back. *)
Lemma flags2 a b :
  u8 (Z.lor (flag a 128) (flag b 64))
  ∧ negb (Z.land (Z.lor (flag a 128) (flag b 64)) 128 =? 0) = a
  ∧ negb (Z.land (Z.lor (flag a 128) (flag b 64)) 64 =? 0) = b.
Proof. destruct a, b; cbn; split_and!; (done || lia). Qed.
Lemma flags3 a b c :
  u8 (Z.lor (Z.lor (flag a 128) (flag b 64)) (flag c 32))
  ∧ negb (Z.land (Z.lor (Z.lor (flag a 128) (flag b 64)) (flag c 32)) 128 =? 0) = a
  ∧ negb (Z.land (Z.lor (Z.lor (flag a 128) (flag b 64)) (flag c 32)) 64 =? 0) = b
  ∧ negb (Z.land (Z.lor (Z.lor (flag a 128) (flag b 64)) (flag c 32)) 32 =? 0) = c.
Proof. destruct a, b, c; cbn; split_and!; (done || lia). Qed.

Lemma prefix_new_id n : network_ok n → @network_new (network n) (network_len n) = Ok n.
Proof.
  intros (Hu & Hl & Hz). unfold network_new. decide_ifs. rewrite mask_land by done. rewrite Hz, Z.sub_0_r.
  by destruct n.
Qed.

(** What an encoded option looks like and what its value decodes to. *)
Lemma option_encode_spec o w :
  option_ok o → option_encode o [] = Ok w →
  ∃ kind units data, w = kind :: units :: data ∧ 1 ≤ units ≤ 255 ∧ u8 kind ∧ bytes_ok data
    ∧ length data = (Z.to_nat units * 8 - 2)%nat
    ∧ decode_option kind (Z.to_nat units * 8) data = Ok o.
Proof.
  intros Ho Hw. destruct o as [mac|mac|info|mtu|kind data]; cbn [option_encode option_ok] in *; inv_ok.
  - destruct Ho as [Hl Hb]. eexists _, _, _. split; [reflexivity|]. explode mac 6%nat.
    split_wf; (done || lia).
  - destruct Ho as [Hl Hb]. eexists _, _, _. split; [reflexivity|]. explode mac 6%nat.
    split_wf; (done || lia).
  - destruct Ho as (Hn & Hv & Hp). pose proof (prefix_new_id _ Hn) as Hnew.
    destruct info as [n l a v p]; cbn [prefix on_link autonomous valid_lifetime preferred_lifetime] in *.
    destruct (flags2 l a) as (Hf & H1 & H2). destruct Hn as (Hu & Hlen & _).
    eexists _, _, _. split; [reflexivity|].
    split_wf; [lia | lia | | done |].
    { cbn [be app zeros replicate]. octets; apply byte_of_range. }
    change (Z.to_nat 4 * 8)%nat with 32%nat. unfold decode_option. cbn [Z.eqb Pos.eqb orb andb Nat.eqb].
    cbn [be app zeros replicate]. read. rewrite !of_be_4 by lia. rewrite ?bind_Ok. decide_ifs.
    rewrite slice_ok by (cbn [length]; lia). cbn [drop take Nat.sub]. rewrite bind_Ok, of_be_16 by lia.
    rewrite Hnew. cbn [or_err mbind res_mbind res_bind]. by rewrite H1, H2.
  - eexists _, _, _. split; [reflexivity|]. cbn [be app].
    split_wf; [lia | lia | octets; apply byte_of_range | done |].
    unfold decode_option. read. by rewrite of_be_4.
  - destruct Ho as [Hk Hb]. assert (Hl : 0 ≤ len data) by lens.
    pose proof (Z.div_mod (len data + 2) 8 ltac:(lia)) as Hd.
    rewrite (Z.mod_small (_ `div` _)) by lia.
    eexists _, _, _. split; [reflexivity|]. split_wf; [lia | lia | done | lens |].
    unfold decode_option. decide_ifs. done.
Qed.

Lemma encode_options_app os out :
  encode_options os out = (w ← encode_options os []; Ok (out ++ w)).
Proof.
  revert out. induction os as [|o os IH]; intros out; cbn [encode_options]; [by rewrite bind_Ok, app_nil_r|].
  rewrite option_encode_app. destruct (option_encode o []) as [w| |]; [|done|done]. rewrite !bind_Ok.
  rewrite (IH (out ++ w)), (IH w).
  destruct (encode_options os []); cbn; [by rewrite app_assoc | done | done].
Qed.

Lemma encode_options_cons o os w :
  encode_options (o :: os) [] = Ok w →
  ∃ w1 w2, option_encode o [] = Ok w1 ∧ encode_options os [] = Ok w2 ∧ w = w1 ++ w2.
Proof.
  cbn [encode_options]. rewrite option_encode_app.
  destruct (option_encode o []) as [w1| |]; [|done|done]. rewrite !bind_Ok, encode_options_app.
  destruct (encode_options os []) as [w2| |]; [|done|done].
  rewrite bind_Ok. intros Hw%(f_equal ok). cbn [ok app] in Hw. simplify_eq. by exists w1, w2.
Qed.
Lemma decode_all_step fuel o w rest out :
  option_ok o → option_encode o [] = Ok w → len out < 128 →
  decode_all_from (S fuel) (w ++ rest) out = decode_all_from fuel rest (out ++ [o]).
Proof.
  intros Ho Hw Hout. destruct (option_encode_spec o w Ho Hw) as (k & u & d & -> & Hu & _ & _ & Hl & Hd).
  cbn [app decode_all_from].
  assert (Hlen : len (k :: u :: d ++ rest) = 2 + len d + len rest) by lens.
  assert (0 ≤ len d ∧ 0 ≤ len rest) by lens.
  decide_ifs. unfold idx. cbn [lookup list_lookup]. rewrite bind_Ok. decide_ifs.
  replace (Z.to_nat u * 8)%nat with (2 + length d)%nat by lens.
  rewrite get_slice_at by lens. cbn [drop]. rewrite ?drop_0, take_app_length. cbn [ok_or]. rewrite !bind_Ok.
  replace (2 + length d)%nat with (Z.to_nat u * 8)%nat by lens. rewrite Hd, bind_Ok.
  rewrite slice_from_ok by lens. rewrite bind_Ok. f_equal.
  replace (Z.to_nat u * 8)%nat with (2 + length d)%nat by lens. cbn [Nat.add drop].
  apply drop_app_length.
Qed.
Lemma decode_all_from_list os w out fuel :
  Forall option_ok os → encode_options os [] = Ok w → len out + len os ≤ 128 →
  (length os ≤ fuel)%nat → decode_all_from fuel w out = Ok (out ++ os).
Proof.
  intros Hos. revert w out fuel. induction Hos as [|o os Ho _ IH]; intros w out fuel Hw Hl Hf.
  - cbn in Hw. simplify_eq. rewrite app_nil_r. by destruct fuel.
  - destruct (encode_options_cons _ _ _ Hw) as (w1 & w2 & Hw1 & Hw2 & ->).
    destruct fuel as [|fuel]; cbn [length] in Hf; [lia|].
    rewrite (decode_all_step _ o) by (done || lens).
    rewrite (IH w2) by (done || lens). by rewrite <-app_assoc.
Qed.
Lemma encode_options_size os w :
  Forall option_ok os → encode_options os [] = Ok w → (length os ≤ length w)%nat ∧ bytes_ok w.
Proof.
  intros Hos. revert w. induction Hos as [|o os Ho _ IH]; intros w Hw.
  - cbn in Hw. simplify_eq. split; [lens|constructor].
  - destruct (encode_options_cons _ _ _ Hw) as (w1 & w2 & Hw1 & Hw2 & ->).
    destruct (IH w2 Hw2). destruct (option_encode_spec o w1 Ho Hw1) as (k&u&d&->&?&?&?&_).
    split; [lens|]. apply bytes_ok_app; [|done]. octets.
Qed.
Lemma decode_encoded_options os w :
  Forall option_ok os → encode_options os [] = Ok w → len os ≤ 128 → decode_all w = Ok os.
Proof.
  intros Hos Hw Hl. unfold decode_all.
  rewrite (decode_all_from_list os w []); try done; destruct (encode_options_size os w Hos Hw); lens.
Qed.

(** ** Helper lemmas: messages *)

Lemma nd_encode_eq m bs :
  nd_ok m → nd_encode m = Ok bs →
  ∃ w, bs = nd_body m ++ w ∧ bytes_ok bs ∧ len bs ≤ 65535 ∧ decode_all w = Ok (nd_options m).
Proof.
  unfold nd_encode. intros [Ho Hm] He. destruct (128 <? len (nd_options m)) eqn:Hl; [done|].
  rewrite encode_options_app in He. destruct (encode_options _ []) as [w| |] eqn:Hw; [|done|done].
  rewrite !bind_Ok in He. destruct (65535 <? _) eqn:Hs; [done|]. apply (f_equal ok) in He.
  cbn [ok] in He. simplify_eq. exists w. destruct (encode_options_size _ _ Ho Hw) as [_ Hb].
  split_wf; [done | | lia | apply decode_encoded_options; (done || lia)].
  apply bytes_ok_app; [|done].
  destruct m as [os|h a b l r t os|t os|t r s v os]; cbn [nd_body].
  - octets.
  - pose proof (flags2 a b) as [? _]. apply bytes_ok_app; [octets | auto with bytes_ok].
  - apply bytes_ok_app; [octets | auto with bytes_ok].
  - pose proof (flags3 r s v) as [? _]. apply bytes_ok_app; [octets | auto with bytes_ok].
Qed.

(** The message with any checksum in it decodes alike. *)
Lemma nd_decode_body m w c0 c1 :
  nd_ok m → decode_all w = Ok (nd_options m) →
  nd_decode (take 2 (nd_body m) ++ [c0; c1] ++ drop 4 (nd_body m) ++ w) = Ok m.
Proof.
  intros [_ Hm] Hw. unfold nd_decode.
  destruct m as [os|h a b l r t os|t os|t r s v os]; cbn [nd_options] in Hw;
    cbn [nd_body be app take drop]; (destruct (len _ <? 8) eqn:Hl; [lens|]); clear Hl; read;
    cbn [Z.eqb Pos.eqb orb mbind res_mbind res_bind]; rewrite get_from_ok by lens;
    cbn [drop ok_or]; rewrite ?drop_0, bind_Ok, Hw, bind_Ok.
  - done.
  - destruct Hm as (?&?&?&?). destruct (flags2 a b) as (_ & -> & ->).
    by rewrite of_be_2, !of_be_4 by lia.
  - rewrite slice_ok by lens. cbn [take drop Nat.sub]. rewrite bind_Ok. by rewrite of_be_16.
  - rewrite slice_ok by lens. cbn [take drop Nat.sub]. rewrite bind_Ok. 
    destruct (flags3 r s v) as (_ & -> & -> & ->). by rewrite of_be_16.
Qed.

Lemma sealed {E} s d k c rest :
  u8 k → u8 c → bytes_ok rest → len rest ≤ 65531 →
  ∃ x, u16 x ∧ @ipv6_checksum E s d Icmpv6 (k :: c :: 0 :: 0 :: rest) = Ok x
    ∧ @ipv6_checksum E s d Icmpv6 (k :: c :: be 2 x ++ rest) = Ok 0.
Proof.
  intros Hk Hc Hr Hl.
  assert (Hb : ∀ a b, u8 a → u8 b → bytes_ok (k :: c :: a :: b :: rest)) by (intros; octets).
  assert (Hlen : ∀ a b : Z, len (k :: c :: a :: b :: rest) = 4 + len rest) by (intros; lens).
  set (pre := be 16 s ++ be 16 d ++ be 4 (4 + len rest) ++ [0; 0; 0; 58] ++ [k; c]).
  assert (Hpseudo : ∀ a b : Z, pseudoheader s d Icmpv6 (k :: c :: a :: b :: rest) = pre ++ [a; b] ++ rest).
  { intros a b. unfold pseudoheader, pre. rewrite Hlen. by rewrite <-!app_assoc. }
  destruct (pseudoheader_ok s d Icmpv6 (k :: c :: 0 :: 0 :: rest)) as [Ho Hm];
    [cbn; lia | apply Hb; lia | rewrite Hlen; lia |]. rewrite Hpseudo in Ho, Hm.
  destruct (@checksum_spec E _ Ho Hm) as (x & Hx & Hu & _). exists x. split; [done|].
  split; (rewrite ipv6_checksum_eq; [| cbn; lia | | cbn [be app]; rewrite Hlen; lia]).
  - by rewrite Hpseudo.
  - apply Hb; lia.
  - cbn [be app]. rewrite Hpseudo. exact (checksum_insert pre rest x Ho Hm eq_refl Hx).
  - apply Hb; apply byte_of_range.
Qed.

(** The type, the code and what follows the checksum of an encoded message. *)
Definition message_form (m : Icmpv6Message) (k c : Z) (rest : bytes) : Prop :=
  match m with
  | Echo reply i q p => k = (if reply then 129 else 128) ∧ c = 0 ∧ rest = be 2 i ++ be 2 q ++ p
  | Error kind code p q => k = error_code kind ∧ c = code ∧ rest = be 4 p ++ q
  | Neighbor n => ∃ w, k :: c :: rest = take 2 (nd_body n) ++ drop 4 (nd_body n) ++ w
      ∧ decode_all w = Ok (nd_options n)
  end.
Lemma icmpv6_encode_form m s d bs :
  message_ok m → icmpv6_encode m s d = Ok bs →
  ∃ k c rest, message_form m k c rest ∧ u8 k ∧ u8 c ∧ bytes_ok rest ∧ len rest ≤ 65531
    ∧ (sum ← ipv6_checksum s d Icmpv6 (k :: c :: 0 :: 0 :: rest);
       put (k :: c :: 0 :: 0 :: rest) 2 (be 2 sum)) = (Ok bs : res Icmpv6Error bytes).
Proof.
  unfold icmpv6_encode. intros Hm He.
  destruct m as [reply i q p|kind code p q|n]; cbn [message_ok message_form] in *.
  - destruct (65527 <? len p) eqn:Hl; [done|]. rewrite bind_Ok in He. destruct Hm as (?&?&Hp).
    eexists _, _, _. split; [done|]. split_wf; [destruct reply; lia | lia | auto with bytes_ok | lens |].
    by destruct reply.
  - destruct (65527 <? len q) eqn:Hl; [done|]. rewrite bind_Ok in He. destruct Hm as (?&?&Hp).
    eexists _, _, _. split; [done|].
    split_wf; [destruct kind; cbn; lia | lia | auto with bytes_ok | lens | done].
  - destruct (nd_encode n) as [b| |] eqn:Hn; [|done|done]. rewrite bind_Ok in He.
    destruct (nd_encode_eq _ _ Hm Hn) as (w & -> & Hb & Hl & Hw).
    destruct n; cbn [nd_body app] in *; eexists _, _, _;
      (split; [exists w; split; [cbn [take drop app]; reflexivity | exact Hw]|]);
      split_octets Hb; (split; [lia|]; split; [lia|]; split; [|split; [|done]]);
      try solve [lens]; octets; done.
Qed.
(** Every message the encoder accepts is a two-octet type, a checksum that was
    computed over zeros, and the rest. *)
Lemma icmpv6_encode_eq m s d bs :
  message_ok m → icmpv6_encode m s d = Ok bs →
  ∃ k c x rest, bs = k :: c :: be 2 x ++ rest ∧ message_form m k c rest ∧ bytes_ok bs
    ∧ len bs ≤ 65535 ∧ @ipv6_checksum Icmpv6Error s d Icmpv6 bs = Ok 0.
Proof.
  intros Hm He.
  destruct (icmpv6_encode_form _ _ _ _ Hm He) as (k & c & rest & Hform & Hk & Hc & Hr & Hl & He').
  destruct (@sealed Icmpv6Error s d k c rest Hk Hc Hr Hl) as (x & Hx & Hs & Hz).
  rewrite Hs, bind_Ok in He'. rewrite put_ok in He' by lens.
  apply (f_equal ok) in He'. cbn [ok] in He'. injection He' as <-.
  exists k, c, x, rest.
  split; [done|]. split; [done|]. split; [|split; [lens|exact Hz]].
  cbn [take app]. octets; apply byte_of_range.
Qed.

(** ** Helper lemmas: decoding *)

Lemma prefix_new_ok a l n : u128 a → 0 ≤ l → network_new a l = Ok n → network_ok n.
Proof.
  unfold network_new. intros Ha Hl H. inv_ok. unfold network_ok. cbn [network network_len].
  rewrite mask_land by lia. destruct (normalized 128 ltac:(lia) a l ltac:(lia) ltac:(lia)) as [H1 H2].
  split_wf; [lia | lia | done].
Qed.
Lemma u128_slice {E} bs a t : bytes_ok bs → @slice E Z bs a (a + 16) = Ok t → u128 (of_be t).
Proof.
  intros Hb Ht. assert (Hbt : bytes_ok t) by ranges. apply slice_Ok_inv in Ht as [Hl Ht].
  assert (length t = 16%nat) as Hl' by (subst t; lens).
  pose proof (of_be_bound _ Hbt) as Hr. unfold len in Hr. rewrite Hl' in Hr.
  change (256 ^ Z.of_nat 16) with (U128_MAX + 1) in Hr. unfold U128_MAX in Hr. lia.
Qed.
Lemma decode_option_ok kind units data o :
  u8 kind → bytes_ok data → decode_option kind (units * 8) data = Ok o → option_ok o.
Proof.
  intros Hk Hd H. unfold decode_option in H. inv_ok; cbn [option_ok prefix valid_lifetime preferred_lifetime].
  1, 2: split; [|ranges].
  1, 2: apply slice_Ok_inv in Hx as [? ->]; lens.
  - split_wf; [|ranges|ranges]. eapply prefix_new_ok; [| |eassumption].
    + by eapply (u128_slice data 14).
    + assert (u8 x2) by ranges. lia.
  - ranges.
  - done.
Qed.
Lemma decode_option_safe kind units data :
  length data = (units * 8 - 2)%nat → (0 < units)%nat → safe (decode_option kind (units * 8) data).
Proof.
  intros Hl Hu. unfold decode_option. apply safe_if; intros E1; [solve_safe|].
  apply safe_if; intros E2; [|apply safe_if; intros E3; [solve_safe|apply safe_if; done]].
  do 2 (apply safe_bind; [apply safe_u32_at; lia|]; intros ? _). apply safe_if; [done|]. intros _.
  apply safe_bind; [apply safe_slice; lia|]; intros ? _.
  apply safe_bind; [apply safe_idx; lia|]; intros ? _.
  apply safe_bind; [unfold network_new; by case_match|]; intros ? _.
  apply safe_bind; [apply safe_idx; lia|done].
Qed.

(** The option loop never panics; its options are well formed and at most 128. *)
Lemma decode_all_from_ok fuel bs out :
  bytes_ok bs → (length bs ≤ fuel)%nat → Forall option_ok out → len out ≤ 128 →
  safe (decode_all_from fuel bs out)
  ∧ ∀ os, decode_all_from fuel bs out = Ok os → Forall option_ok os ∧ len os ≤ 128.
Proof.
  revert bs out. induction fuel as [|fuel IH]; intros bs out Hb Hf Ho Hl;
    destruct bs as [|b0 bs]; cbn [length] in Hf; try lia; cbn [decode_all_from];
    try (split; [done|]; intros os Hos; by simplify_eq).
  destruct ((128 <=? len out) || _) eqn:E; [split; [done|by intros ?]|].
  destruct bs as [|b1 bs]; [lens|]. unfold idx. cbn [lookup list_lookup]. rewrite bind_Ok.
  split_octets Hb. destruct (b1 =? 0) eqn:E1; [split; [done|by intros ?]|].
  destruct (get_slice _ _ _) as [data|] eqn:Hdata; [|split; [done|by intros ?]].
  cbn [ok_or]. rewrite !bind_Ok. apply get_slice_Some in Hdata as [Hle Hdata].
  assert (Hbd : bytes_ok data) by (subst data; cbn [drop]; auto with bytes_ok).
  pose proof (decode_option_safe b0 (Z.to_nat b1) data ltac:(subst data; lens) ltac:(lia)) as Hs.
  pose proof (decode_option_ok b0 (Z.to_nat b1) data) as Hok.
  destruct (decode_option _ _ _) as [o| |]; [|split; [done|by intros ?]|done].
  rewrite bind_Ok, slice_from_ok, bind_Ok by lia. apply IH.
  - apply bytes_ok_drop. octets; done.
  - cbn [length]. lens.
  - apply Forall_app_2; [done|]. constructor; [by apply Hok|done].
  - lens.
Qed.

Lemma nd_decode_ok bs :
  bytes_ok bs → safe (nd_decode bs)
  ∧ ∀ m, nd_decode bs = Ok m → nd_ok m ∧ len (nd_options m) ≤ 128.
Proof.
  intros Hb. unfold nd_decode. destruct (len bs <? 8) eqn:E; [split; [done|by intros ?]|].
  destruct bs as [|b0 bs']; [lens|]. set (bs := b0 :: bs') in *.
  change (@idx Icmpv6Error Z bs 0) with (@Ok Icmpv6Error Z b0). rewrite bind_Ok.
  match goal with |- context [mbind _ ?m] => destruct m as [at_| |] eqn:Hat end;
    [|split; [done|by intros ?]|exfalso; repeat case_match; done].
  assert (Hat' : b0 = 133 ∨ b0 = 134 ∧ at_ = 16%nat ∨ 134 < b0 ∧ at_ = 24%nat) by (inv_ok; lia).
  rewrite bind_Ok. destruct (get_from bs at_) as [rest|] eqn:Hrest; [|split; [done|by intros ?]].
  cbn [ok_or]. rewrite bind_Ok.
  assert (Hbr : bytes_ok rest) by ranges. apply get_from_Some in Hrest as [Hle _].
  destruct (decode_all_from_ok (length rest) rest [] Hbr ltac:(lia) ltac:(constructor) ltac:(lens)) as [Hs Hos].
  unfold decode_all. destruct (decode_all_from _ rest []) as [os| |]; [|split; [done|by intros ?]|done].
  rewrite bind_Ok. destruct (Hos os eq_refl) as [Ho Hl]. split.
  - repeat (apply safe_if; intros ?); try done; solve_safe.
  - intros m Hm. inv_ok; (split; [split; cbn [nd_options]; [done|]|done]); try done; split_wf; try ranges;
      by eapply (u128_slice bs 8).
Qed.

(** ** Properties *)

(** Every echo, error and Neighbor Discovery message the encoder accepts, options
    included, decodes to itself between the same two addresses. *)
Theorem icmpv6_roundtrip m s d bs :
  message_ok m → icmpv6_encode m s d = Ok bs → icmpv6_decode s d bs = Ok m.
Proof.
  intros Hm He. destruct (icmpv6_encode_eq _ _ _ _ Hm He) as (k & c & x & rest & -> & Hform & Hb & Hl & Hz).
  unfold icmpv6_decode. rewrite Hz, bind_Ok.
  destruct m as [reply i q p|kind code p q|n]; cbn [message_form message_ok] in *.
  - destruct Hform as (-> & -> & ->), Hm as (?&?&?). cbn [be app] in *.
    destruct (_ || _) eqn:E; [lens|]. cbn [Z.eqb negb]. read. rewrite slice_from_ok by lens.
    rewrite ?bind_Ok, !of_be_2 by lia. cbn [drop]. rewrite drop_0. by destruct reply.
  - destruct Hform as (-> & -> & ->), Hm as (?&?&?). cbn [be app] in *.
    destruct (_ || _) eqn:E; [lens|]. cbn [Z.eqb negb]. read. rewrite slice_from_ok by lens.
    rewrite ?bind_Ok, !of_be_4 by lia. cbn [drop]. rewrite drop_0. by destruct kind.
  - destruct Hform as (w & Hform & Hw).
    assert (Hd : nd_decode (k :: c :: be 2 x ++ rest) = Ok n).
    { rewrite <-(nd_decode_body n w (byte_of x 1) (byte_of x 0) Hm Hw). f_equal.
      cbn [be app]. destruct n; cbn [nd_body take drop app] in *; by simplify_eq. }
    destruct (_ || _) eqn:E.
    { destruct n; cbn [nd_body take drop app be] in *; simplify_eq; lens. }
    cbn [Z.eqb negb]. unfold idx. cbn [lookup list_lookup be app]. rewrite !bind_Ok.
    cbn [be app] in Hd. rewrite Hd. destruct n; cbn [nd_body take drop app] in *; by simplify_eq.
Qed.

(** C28: the decoder returns on any octets; what it accepts is well formed, was
    sent with a checksum that verifies between these addresses and carries at
    most 128 options. *)
Theorem icmpv6_decode_sound s d bs :
  bytes_ok bs →
  safe (icmpv6_decode s d bs)
  ∧ ∀ m, icmpv6_decode s d bs = Ok m →
      message_ok m ∧ @ipv6_checksum Icmpv6Error s d Icmpv6 bs = Ok 0
      ∧ match m with Neighbor n => len (nd_options n) ≤ 128 | _ => True end.
Proof.
  intros Hb. destruct (nd_decode_ok bs Hb) as [Hs Hok]. unfold icmpv6_decode. split.
  - apply safe_if; [done|]. intros Hl. apply safe_bind.
    { rewrite ipv6_checksum_eq by (cbn; done || lia). apply checksum_safe;
        apply (pseudoheader_ok s d Icmpv6 bs); (cbn; done || lia). }
    intros sum _. solve_safe.
  - intros m Hm. destruct (_ || _); [done|].
    apply bind_Ok_inv in Hm as (sum & Hsum & Hm). destruct (negb _) eqn:E; [done|].
    assert (sum = 0) as -> by lia. rewrite Hsum.
    apply bind_Ok_inv in Hm as (b0 & Hb0 & Hm). apply bind_Ok_inv in Hm as (b1 & Hb1 & Hm).
    destruct (_ && _); [inv_ok; cbn [message_ok]; split_wf; (done || ranges)|].
    destruct (_ && _); [inv_ok; cbn [message_ok]; split_wf; (done || ranges)|].
    destruct (_ && _); [|done]. apply bind_Ok_inv in Hm as (n & Hn & Hm). simplify_eq.
    destruct (Hok n Hn). done.
Qed.

(** ** Witnesses *)

Definition sample_message : Icmpv6Message :=
  Neighbor (NeighborAdvertisement 7 true false true
    [TargetLinkLayer [2; 0; 0; 0; 0; 1];
     Prefix {| prefix := {| network := 2 ^ 125; network_len := 64 |}; on_link := true;
               autonomous := false; valid_lifetime := 90; preferred_lifetime := 60 |};
     Unknown 9 [1; 2; 3; 4; 5; 6]]).
Lemma sample_message_ok : message_ok sample_message.
Proof.
  unfold message_ok, nd_ok, sample_message. cbn [nd_options]. split; [|lia].
  repeat constructor; cbn; unfold network_ok; cbn; try lia; done.
Qed.
Definition sample_octets : bytes :=
  match icmpv6_encode sample_message 1 2 with Ok bs => bs | _ => [] end.
Lemma icmpv6_roundtrip_witness :
  len sample_octets = 72 ∧ icmpv6_decode 1 2 sample_octets = Ok sample_message.
Proof.
  split; [vm_compute; reflexivity|].
  apply icmpv6_roundtrip; [apply sample_message_ok | vm_compute; reflexivity].
Defined.
Lemma icmpv6_decode_sound_witness :
  icmpv6_decode 1 2 sample_octets = Ok sample_message ∧ safe (icmpv6_decode 1 2 sample_octets).
Proof.
  split; [vm_compute; reflexivity|]. apply icmpv6_decode_sound.
  unfold bytes_ok. apply (bool_decide_unpack _). vm_compute. exact I.
Defined.
