(* ===== verification/OspfLsa.v ===== *)
(** OSPFv2 link-state advertisements ([rios-routing/src/ospf_wire/lsa.rs]):
    the twenty-octet header, the five bodies and the age-independent checksum.

    [lsa_roundtrip] says that what [Lsa::encode] produces [Lsa::decode] reads
    back; [lsa_decode_sound] that decoding arbitrary octets neither panics nor
    returns a field out of its range; [lsa_corruption_detected] that one
    damaged octet is noticed. *)
From S2P Require Import Prelude Wire Ipv4 Fletcher.

(** [WireError] of [ospf_wire/mod.rs]. *)
Inductive WireError := Malformed | Unsupported | Checksum | TooLarge.

Inductive LsaType := RouterLsa | NetworkLsa | SummaryLsa | AsbrSummaryLsa | ExternalLsa.
#[export] Instance LsaType_eq_dec : EqDecision LsaType.
Proof. solve_decision. Defined.

(** [kind as u8]. *)
Definition type_code (k : LsaType) : Z :=
  match k with RouterLsa => 1 | NetworkLsa => 2 | SummaryLsa => 3 | AsbrSummaryLsa => 4 | ExternalLsa => 5 end.
(** [TryFrom<u8> for LsaType]. *)
Definition type_of_code (value : Z) : res WireError LsaType :=
  if value =? 1 then Ok RouterLsa else if value =? 2 then Ok NetworkLsa
  else if value =? 3 then Ok SummaryLsa else if value =? 4 then Ok AsbrSummaryLsa
  else if value =? 5 then Ok ExternalLsa else Err Unsupported.

Record LsaKey := { key_kind : LsaType; key_id : Ipv4Addr; key_router : Ipv4Addr }.
#[export] Instance LsaKey_eq_dec : EqDecision LsaKey.
Proof. solve_decision. Defined.

Record LsaHeader := { hdr_age : Z; hdr_options : Z; hdr_key : LsaKey; hdr_sequence : Z;
                      hdr_checksum : Z; hdr_length : Z }.
#[export] Instance LsaHeader_eq_dec : EqDecision LsaHeader.
Proof. solve_decision. Defined.

Inductive RouterLinkType := PointToPoint | Transit | Stub | Virtual.
#[export] Instance RouterLinkType_eq_dec : EqDecision RouterLinkType.
Proof. solve_decision. Defined.
Definition link_code (k : RouterLinkType) : Z :=
  match k with PointToPoint => 1 | Transit => 2 | Stub => 3 | Virtual => 4 end.

Record RouterLink := { link_id : Ipv4Addr; link_data : Ipv4Addr; link_kind : RouterLinkType; link_metric : Z }.
#[export] Instance RouterLink_eq_dec : EqDecision RouterLink.
Proof. solve_decision. Defined.

Inductive LsaBody :=
| Router (flags : Z) (links : list RouterLink)
| Network (mask : Ipv4Addr) (routers : list Ipv4Addr)
| Summary (mask : Ipv4Addr) (metric : Z)
| AsbrSummary (metric : Z)
| External (mask : Ipv4Addr) (metric : Z) (type_two : bool) (forwarding_address : Ipv4Addr) (tag : Z).
#[export] Instance LsaBody_eq_dec : EqDecision LsaBody.
Proof. solve_decision. Defined.

Record Lsa := { age : Z; lsa_options : Z; link_state_id : Ipv4Addr; advertising_router : Ipv4Addr;
                lsa_sequence : Z; body : LsaBody }.
#[export] Instance Lsa_eq_dec : EqDecision Lsa.
Proof. solve_decision. Defined.

Definition LSA_MAX_AGE : Z := 3600.

(** [ip(bytes)]: the address in the first four octets. *)
Definition ip {E} (bs : bytes) : res E Ipv4Addr := u32_at bs 0.
Arguments ip : simpl never.

(** [Ipv4InterfaceConfig::from_mask(UNSPECIFIED, mask).is_ok()]. *)
Definition valid_mask (mask : Ipv4Addr) : bool := is_ok (from_mask 0 mask).

(** ** The header *)

Definition header_encode (h : LsaHeader) : bytes :=
  be 2 (hdr_age h) ++ [hdr_options h; type_code (key_kind (hdr_key h))]
  ++ be 4 (key_id (hdr_key h)) ++ be 4 (key_router (hdr_key h)) ++ be 4 (hdr_sequence h)
  ++ be 2 (hdr_checksum h) ++ be 2 (hdr_length h).

Definition header_decode (bs : bytes) : res WireError LsaHeader :=
  bs ← ok_or (get_slice bs 0 20) Malformed;
  age ← u16_at bs 0;
  options ← idx bs 2;
  code ← idx bs 3;
  kind ← type_of_code code;
  id ← u32_at bs 4;
  router ← u32_at bs 8;
  sequence ← u32_at bs 12;
  checksum ← u16_at bs 16;
  length ← u16_at bs 18;
  let sequence := to_i32 sequence in
  if (LSA_MAX_AGE <? age) || (sequence =? I32_MIN) || (length <? 20) then Err Malformed
  else Ok {| hdr_age := age; hdr_options := options;
             hdr_key := {| key_kind := kind; key_id := id; key_router := router |};
             hdr_sequence := sequence; hdr_checksum := checksum; hdr_length := length |}.

(** ** Encoding *)

Definition kind_of (b : LsaBody) : LsaType :=
  match b with
  | Router _ _ => RouterLsa | Network _ _ => NetworkLsa | Summary _ _ => SummaryLsa
  | AsbrSummary _ => AsbrSummaryLsa | External _ _ _ _ _ => ExternalLsa
  end.
Definition lsa_key (a : Lsa) : LsaKey :=
  {| key_kind := kind_of (body a); key_id := link_state_id a; key_router := advertising_router a |}.

Definition encode_link (l : RouterLink) : bytes :=
  be 4 (link_id l) ++ be 4 (link_data l) ++ [link_code (link_kind l); 0] ++ be 2 (link_metric l).

Definition body_encode (b : LsaBody) : res WireError bytes :=
  match b with
  | Router flags links =>
      if (65535 - 24) `div` 12 <? len links then Err TooLarge
      else Ok ([flags; 0] ++ be 2 (len links) ++ concat (map encode_link links))
  | Network mask routers =>
      if negb (valid_mask mask) then Err Malformed
      else if (65535 - 24) `div` 4 <? len routers then Err TooLarge
      else Ok (be 4 mask ++ concat (map (be 4) routers))
  | AsbrSummary metric =>
      if 0x00ffffff <? metric then Err Malformed else Ok (zeros 4 ++ be 4 metric)
  | Summary mask metric =>
      if negb (valid_mask mask) || (0x00ffffff <? metric) then Err Malformed
      else Ok (be 4 mask ++ be 4 (Z.lor metric 0))
  | External mask metric type_two forwarding_address tag =>
      if negb (valid_mask mask) || (0x00ffffff <? metric) then Err Malformed
      else Ok (be 4 mask ++ be 4 (Z.lor metric (if type_two then 0x80000000 else 0))
               ++ be 4 forwarding_address ++ be 4 tag)
  end.

Definition lsa_encode (a : Lsa) : res WireError bytes :=
  if (LSA_MAX_AGE <? age a) || (lsa_sequence a =? I32_MIN) then Err Malformed
  else
    body ← body_encode (body a);
    length ← ok_or (try_from U16_MAX (20 + len body)) TooLarge;
    insert (header_encode {| hdr_age := age a; hdr_options := lsa_options a; hdr_key := lsa_key a;
                             hdr_sequence := lsa_sequence a; hdr_checksum := 0; hdr_length := length |}
            ++ body).

Definition lsa_header (a : Lsa) : res WireError LsaHeader :=
  bs ← lsa_encode a; header_decode bs.

(** ** Decoding *)

Definition link_of_code (c : Z) : res WireError RouterLinkType :=
  if c =? 1 then Ok PointToPoint else if c =? 2 then Ok Transit
  else if c =? 3 then Ok Stub else if c =? 4 then Ok Virtual else Err Unsupported.

Definition decode_link (chunk : bytes) : res WireError RouterLink :=
  c9 ← idx chunk 9;
  if negb (c9 =? 0) then Err Unsupported
  else
    c8 ← idx chunk 8;
    kind ← link_of_code c8;
    id ← u32_at chunk 0;
    data ← u32_at chunk 4;
    metric ← u16_at chunk 10;
    Ok {| link_id := id; link_data := data; link_kind := kind; link_metric := metric |}.

Definition body_decode (kind : LsaType) (body : bytes) : res WireError LsaBody :=
  match kind with
  | RouterLsa =>
      if len body <? 4 then Err Malformed
      else
        count ← u16_at body 2;
        if negb (len body =? 4 + count * 12) then Err Malformed
        else
          rest ← slice_from body 4;
          links ← try_map decode_link (as_chunks 12 rest);
          flags ← idx body 0;
          Ok (Router flags links)
  | NetworkLsa =>
      if (len body <? 4) || negb (len body `mod` 4 =? 0) then Err Malformed
      else
        mask ← u32_at body 0;
        if negb (valid_mask mask) then Err Malformed
        else
          rest ← slice_from body 4;
          routers ← try_map ip (as_chunks 4 rest);
          Ok (Network mask routers)
  | _ =>
      let external := bool_decide (kind = ExternalLsa) in
      if negb (len body =? (if negb external then 8 else 16)) then Err Malformed
      else
        mask ← u32_at body 0;
        if negb (valid_mask mask) then Err Malformed
        else
          b4 ← idx body 4; b5 ← idx body 5; b6 ← idx body 6; b7 ← idx body 7;
          let metric := of_be [0; b5; b6; b7] in
          if negb external then
            if negb (b4 =? 0) then Err Unsupported
            else if bool_decide (kind = AsbrSummaryLsa) then Ok (AsbrSummary metric)
            else Ok (Summary mask metric)
          else if negb (Z.land b4 0x7f =? 0) then Err Unsupported
          else
            forwarding_address ← u32_at body 8;
            tag ← u32_at body 12;
            Ok (External mask metric (negb (Z.land b4 0x80 =? 0)) forwarding_address tag)
  end.

Definition lsa_decode (bs : bytes) : res WireError Lsa :=
  header ← header_decode bs;
  if negb (len bs =? hdr_length header) then Err Malformed
  else
    tail ← slice_from bs 2;
    if negb (bool_decide (fletcher tail = (0, 0))) then Err Checksum
    else
      body ← slice_from bs 20;
      parsed ← body_decode (key_kind (hdr_key header)) body;
      Ok {| age := hdr_age header; lsa_options := hdr_options header;
            link_state_id := key_id (hdr_key header); advertising_router := key_router (hdr_key header);
            lsa_sequence := hdr_sequence header; body := parsed |}.

(** ** Well-formed values: every field has its width *)

Definition link_ok (l : RouterLink) : Prop := u32 (link_id l) ∧ u32 (link_data l) ∧ u16 (link_metric l).
Definition body_ok (b : LsaBody) : Prop :=
  match b with
  | Router flags links => u8 flags ∧ Forall link_ok links
  | Network mask routers => u32 mask ∧ Forall (λ r, u32 r) routers
  | Summary mask metric => u32 mask ∧ u32 metric
  | AsbrSummary metric => u32 metric
  | External mask metric _ forwarding tag => u32 mask ∧ u32 metric ∧ u32 forwarding ∧ u32 tag
  end.
Definition lsa_ok (a : Lsa) : Prop :=
  u16 (age a) ∧ u8 (lsa_options a) ∧ u32 (link_state_id a) ∧ u32 (advertising_router a)
  ∧ i32 (lsa_sequence a) ∧ body_ok (body a).
Definition key_ok (k : LsaKey) : Prop := u32 (key_id k) ∧ u32 (key_router k).
(** What [header_decode] accepts: the age, the sequence and the length are limited. *)
Definition header_ok (h : LsaHeader) : Prop :=
  0 ≤ hdr_age h ≤ LSA_MAX_AGE ∧ u8 (hdr_options h) ∧ key_ok (hdr_key h)
  ∧ i32 (hdr_sequence h) ∧ hdr_sequence h ≠ I32_MIN ∧ u16 (hdr_checksum h) ∧ 20 ≤ hdr_length h ≤ 65535.

(** ** Helper lemmas: the header *)

Lemma length_header h : length (header_encode h) = 20%nat.
Proof. reflexivity. Qed.

Lemma type_code_u8 k : u8 (type_code k).
Proof. destruct k; cbn; lia. Qed.
Lemma header_bytes_ok h : u8 (hdr_options h) → bytes_ok (header_encode h).
Proof.
  intros. unfold header_encode. repeat apply bytes_ok_app; auto with bytes_ok.
  octets. apply type_code_u8.
Qed.

Lemma header_decode_encode h rest : header_ok h → header_decode (header_encode h ++ rest) = Ok h.
Proof.
  intros (Ha & Ho & [Hi Hr] & Hs & Hm & Hc & Hl). destruct h as [a o [k i r] s c l]. cbn in *.
  unfold header_decode, LSA_MAX_AGE in *. rewrite get_slice_ok by (cbn; lia).
  unfold header_encode. cbn -[byte_of].
  rewrite !of_be_2, (of_be_4 i), (of_be_4 r) by lia.
  change [byte_of s 3; byte_of s 2; byte_of s 1; byte_of s 0] with (be 4 s).
  rewrite to_i32_be by done. destruct k; cbn; unfold LSA_MAX_AGE; by decide_ifs.
Qed.

Lemma type_of_code_code c k : type_of_code c = Ok k → type_code k = c.
Proof. unfold type_of_code. intros H. inv_ok; cbn; lia. Qed.
Lemma header_decode_ok bs h : bytes_ok bs → header_decode bs = Ok h → header_ok h.
Proof.
  intros Hb H. unfold header_decode in H. inv_ok.
  match goal with H : get_slice _ _ _ = Some _ |- _ => apply get_slice_bytes_ok in H; [|done] end.
  unfold header_ok, key_ok, LSA_MAX_AGE in *. cbn.
  split_wf; try ranges; [| apply to_i32_range; ranges | lia |].
  all: match goal with
       | |- 0 ≤ ?x ≤ _ => assert (u16 x) by ranges; lia
       | |- 20 ≤ ?x ≤ _ => assert (u16 x) by ranges; lia
       end.
Qed.
Lemma header_decode_safe bs : safe (header_decode bs).
Proof.
  unfold header_decode. apply safe_bind; [apply safe_ok_or|]. intros b Hb%ok_or_Ok_inv.
  apply get_slice_Some in Hb as [Hl ->]. unfold type_of_code. solve_safe.
Qed.

(** ** Helper lemmas: the bodies *)

(** A 24-bit metric below a flag in the top octet. *)
Lemma metric_word m (b : bool) :
  0 ≤ m ≤ 0x00ffffff →
  be 4 (Z.lor m (if b then 0x80000000 else 0)) = (if b then 128 else 0) :: be 3 m.
Proof.
  intros Hm. rewrite Z.lor_comm.
  assert (Z.lor (if b then 0x80000000 else 0) m = (if b then 128 else 0) * 2 ^ 24 + m) as ->.
  { rewrite <-lor_shiftl by lia. f_equal. by destruct b. }
  change 4%nat with (1 + 3)%nat. rewrite be_split. change (256 ^ Z.of_nat 3) with (2 ^ 24).
  rewrite Z.div_add_l, (Z.div_small m), Z.add_0_r by lia.
  assert (be 1 (if b then 128 else 0) = [if b then 128 else 0]) as -> by (by destruct b).
  cbn [app]. f_equal. apply be_mod. change (256 ^ Z.of_nat 3) with (2 ^ 24).
  by rewrite Z.add_comm, Z_mod_plus_full.
Qed.
Lemma metric_read m : 0 ≤ m ≤ 0x00ffffff → of_be [0; byte_of m 2; byte_of m 1; byte_of m 0] = m.
Proof. intros. change (of_be (be 3 m) = m). apply of_be_be_id. change (256 ^ Z.of_nat 3) with 16777216. lia. Qed.

Lemma link_decode_encode l : link_ok l → decode_link (encode_link l) = Ok l.
Proof.
  intros (Hi & Hd & Hm). destruct l as [i d k m]. cbn in *. unfold decode_link, encode_link.
  cbn -[byte_of of_be]. rewrite !of_be_4, of_be_2 by lia. by destruct k.
Qed.
Lemma encode_link_sizes ls : Forall link_ok ls → Forall (λ x, length x = 12%nat) (map encode_link ls).
Proof. intros. apply Forall_map. apply Forall_true. done. Qed.
Lemma encode_link_bytes l : bytes_ok (encode_link l).
Proof. unfold encode_link. repeat apply bytes_ok_app; auto with bytes_ok. octets. destruct (link_kind l); cbn; lia. Qed.

Lemma be_sizes n xs : Forall (λ x : bytes, length x = n) (map (be n) xs).
Proof. apply Forall_map. apply Forall_true. intros. apply length_be. Qed.

Lemma body_encode_ok b w :
  body_ok b → body_encode b = Ok w → bytes_ok w ∧ len w ≤ 65512.
Proof.
  intros Hb H. destruct b as [f ls|m rs|m c|c|m c t a g]; cbn [body_ok body_encode] in Hb, H; inv_ok.
  - destruct Hb as [Hf Hl]. split.
    + apply bytes_ok_app; [octets|]. apply bytes_ok_app; [auto with bytes_ok|].
      apply bytes_ok_concat, Forall_map, Forall_true. apply encode_link_bytes.
    + change ((65535 - 24) `div` 12) with 5459 in *.
      pose proof (length_concat_blocks 12 _ (encode_link_sizes _ Hl)) as Hc.
      rewrite length_map in Hc. lens.
  - split.
    + apply bytes_ok_app; auto with bytes_ok.
      apply bytes_ok_concat, Forall_map, Forall_true. intros. apply bytes_ok_be.
    + change ((65535 - 24) `div` 4) with 16377 in *.
      pose proof (length_concat_blocks 4 _ (be_sizes 4 rs)) as Hc.
      rewrite length_map in Hc. lens.
  - split; [auto with bytes_ok|lens].
  - split; [auto with bytes_ok|lens].
  - split; [auto with bytes_ok|lens].
Qed.

Lemma body_roundtrip b w : body_ok b → body_encode b = Ok w → body_decode (kind_of b) w = Ok b.
Proof.
  intros Hb H. destruct b as [f ls|m rs|m c|c|m c t a g]; cbn [body_encode] in H; cbn [body_ok] in Hb;
    cbn [kind_of body_decode]; inv_ok.
  - destruct Hb as [Hf Hl]. change ((65535 - 24) `div` 12) with 5459 in *.
    pose proof (length_concat_blocks 12 _ (encode_link_sizes _ Hl)) as Hc. rewrite length_map in Hc.
    set (rest := concat _) in *. destruct (len _ <? 4) eqn:E; [lens|]. clear E.
    cbn [app be]. read. rewrite of_be_2 by lens. rewrite ?bind_Ok.
    destruct (len _ =? _) eqn:E; [|lens]. clear E. cbn [negb]. rewrite slice_from_ok by lens.
    cbn [drop]. rewrite drop_0, bind_Ok. unfold rest.
    rewrite chunks_concat by (try lia; by apply encode_link_sizes).
    rewrite (try_map_encoded _ _ id), map_id, ?bind_Ok; [done|].
    by eapply Forall_impl, link_decode_encode.
  - destruct Hb as [Hm Hr]. change ((65535 - 24) `div` 4) with 16377 in *.
    pose proof (length_concat_blocks 4 _ (be_sizes 4 rs)) as Hc. rewrite length_map in Hc.
    set (rest := concat _) in *. destruct (len _ <? 4) eqn:E; [lens|]. clear E. cbn [orb].
    assert (len (be 4 m ++ rest) = (1 + len rs) * 4) as -> by lens. rewrite Z_mod_mult. cbn [Z.eqb negb].
    cbn [app be]. read. rewrite of_be_4 by lia. rewrite ?bind_Ok.
    match goal with H : negb (valid_mask m) = false |- _ => rewrite H end. rewrite slice_from_ok by lens.
    cbn [drop]. rewrite drop_0, bind_Ok. unfold rest.
    rewrite chunks_concat by (try lia; apply be_sizes).
    rewrite (try_map_encoded _ _ id), map_id, ?bind_Ok; [done|].
    eapply Forall_impl; [exact Hr|]. intros r Hr'. unfold ip. cbn [be]. read. by rewrite of_be_4.
  - destruct Hb as [Hm Hc]. rewrite Z.lor_0_r in *. apply orb_false_iff in Heqb as [Hv Hg].
    pose proof (metric_word c false ltac:(lia)) as Hw. rewrite Z.lor_0_r in Hw. rewrite Hw.
    unfold len. cbn -[byte_of of_be]. rewrite of_be_4 by lia. rewrite Hv, metric_read by lia. done.
  - pose proof (metric_word c false ltac:(lia)) as Hw. rewrite Z.lor_0_r in Hw. rewrite Hw.
    unfold len. cbn -[byte_of of_be valid_mask]. rewrite metric_read by lia.
    by change (valid_mask (of_be [0; 0; 0; 0])) with true.
  - destruct Hb as (Hm & Hc & Ha & Hg). apply orb_false_iff in Heqb as [Hv Hx].
    rewrite metric_word by lia. unfold len. cbn -[byte_of of_be Z.land].
    rewrite !of_be_4 by lia. rewrite Hv, metric_read by lia. by destruct t.
Qed.

Lemma body_decode_safe k bs : bytes_ok bs → safe (body_decode k bs).
Proof.
  intros Hb. destruct k; cbn [body_decode]; apply safe_if; intros E1; try apply safe_Err.
  - apply safe_bind; [apply safe_u16_at; lens|]. intros count _. apply safe_if; intros E2; [apply safe_Err|].
    apply safe_bind; [apply safe_slice_from; lens|]. intros rest Hr.
    apply safe_bind; [|solve_safe]. apply try_map_safe. intros x Hx.
    pose proof (as_chunks_sizes 12 rest ltac:(lia) ltac:(ranges)) as Hs. rewrite Forall_forall in Hs.
    apply Hs in Hx as [Hx _]. unfold decode_link, link_of_code. solve_safe.
  - apply safe_bind; [apply safe_u32_at; lens|]. intros m _. apply safe_if; intros E2; [apply safe_Err|].
    apply safe_bind; [apply safe_slice_from; lens|]. intros rest Hr.
    apply safe_bind; [|solve_safe]. apply try_map_safe. intros x Hx.
    pose proof (as_chunks_sizes 4 rest ltac:(lia) ltac:(ranges)) as Hs. rewrite Forall_forall in Hs.
    apply Hs in Hx as [Hx _]. unfold ip. solve_safe.
  - change (bool_decide (SummaryLsa = ExternalLsa)) with false in *. cbn [negb] in *. solve_safe.
  - change (bool_decide (AsbrSummaryLsa = ExternalLsa)) with false in *. cbn [negb] in *. solve_safe.
  - change (bool_decide (ExternalLsa = ExternalLsa)) with true in *. cbn [negb] in *. solve_safe.
Qed.

(** What was decoded encodes again, to as many octets. *)
Lemma body_decode_ok k bs b :
  bytes_ok bs → len bs ≤ 65515 → body_decode k bs = Ok b →
  kind_of b = k ∧ body_ok b ∧ ∃ w, body_encode b = Ok w ∧ len w = len bs.
Proof.
  intros Hb Hl H.
  assert (Hmetric : ∀ a b c, u8 a → u8 b → u8 c → 0 ≤ of_be [0; a; b; c] ≤ 0xffffff).
  { intros x y z ???. rewrite of_be_four. lia. }
  destruct k; cbn [body_decode] in H;
    try change (bool_decide (SummaryLsa = ExternalLsa)) with false in H;
    try change (bool_decide (SummaryLsa = AsbrSummaryLsa)) with false in H;
    try change (bool_decide (AsbrSummaryLsa = ExternalLsa)) with false in H;
    try change (bool_decide (AsbrSummaryLsa = AsbrSummaryLsa)) with true in H;
    try change (bool_decide (ExternalLsa = ExternalLsa)) with true in H;
    cbn [negb] in H; inv_ok; try done; cbn [kind_of body_ok body_encode].
  3-5: match goal with
       | |- context [of_be [0; ?a; ?b; ?c]] =>
           assert (0 ≤ of_be [0; a; b; c] ≤ 0xffffff) as Hmet by (apply Hmetric; ranges)
       end.
  3-5: try match goal with H : negb (valid_mask _) = false |- _ => rewrite H end; cbn [orb]; decide_ifs.
  3-5: split; [done|]; split; [split_wf; first [ranges | lia] | eexists; split; [reflexivity | lens]].
  - match goal with H : try_map _ _ = Ok ?x |- _ => rename H into Hm, x into ls end.
    match goal with H : slice_from bs 4 = Ok ?x |- _ => rename H into Hr, x into rest end.
    assert (Hrb : bytes_ok rest) by ranges. apply slice_from_Ok_inv in Hr as [Hr4 ->].
    pose proof (as_chunks_sizes 12 _ ltac:(lia) Hrb) as Hs.
    assert (Hls : Forall link_ok ls).
    { eapply (try_map_Forall decode_link); [|exact Hs|exact Hm]. intros y z [Hy Hyb] Hxy.
      unfold decode_link in Hxy. inv_ok. unfold link_ok. cbn. split_wf; ranges. }
    apply (parsed_chunks _ _ _ _ (Z.to_nat x)) in Hm; [|lia|lens].
    pose proof (length_concat_blocks 12 _ (encode_link_sizes _ Hls)) as Hcl. rewrite length_map in Hcl.
    change ((65535 - 24) `div` 12) with 5459. destruct (5459 <? len ls) eqn:E; [lens|].
    split; [done|]. split; [split; [ranges|done]|]. eexists; split; [reflexivity|]. lens.
  - match goal with H : try_map _ _ = Ok ?x |- _ => rename H into Hm, x into rs end.
    match goal with H : slice_from bs 4 = Ok ?x |- _ => rename H into Hr, x into rest end.
    assert (Hrb : bytes_ok rest) by ranges. apply slice_from_Ok_inv in Hr as [Hr4 ->].
    pose proof (as_chunks_sizes 4 _ ltac:(lia) Hrb) as Hs.
    assert (Hrs : Forall (λ r, u32 r) rs).
    { eapply (try_map_Forall ip); [|exact Hs|exact Hm]. intros y z [Hy Hyb] Hxy. unfold ip in Hxy. ranges. }
    match goal with H : _ || _ = false |- _ => apply orb_false_iff in H as [H4 Hmod] end. pose proof (Z.div_mod (len bs) 4 ltac:(lia)).
    apply (parsed_chunks _ _ _ _ (Z.to_nat (len bs `div` 4) - 1)) in Hm; [|lia|lens].
    pose proof (length_concat_blocks 4 _ (be_sizes 4 rs)) as Hcl. rewrite length_map in Hcl.
    change ((65535 - 24) `div` 4) with 16377.
    match goal with H : negb (valid_mask _) = false |- _ => rewrite H end.
    destruct (16377 <? len rs) eqn:E; [lens|].
    split; [done|]. split; [split; [ranges|done]|]. eexists; split; [reflexivity|]. lens.
Qed.

(** ** Helper lemmas: advertisements *)

(** The header an encoded advertisement starts with, whatever its checksum. *)
Definition header_of (a : Lsa) (checksum length : Z) : LsaHeader :=
  {| hdr_age := age a; hdr_options := lsa_options a; hdr_key := lsa_key a;
     hdr_sequence := lsa_sequence a; hdr_checksum := checksum; hdr_length := length |}.

Lemma seal_header {E} h w :
  u8 (hdr_options h) → bytes_ok w → hdr_checksum h = 0 →
  ∃ c, u16 c ∧ (let h' := {| hdr_age := hdr_age h; hdr_options := hdr_options h; hdr_key := hdr_key h;
                            hdr_sequence := hdr_sequence h; hdr_checksum := c; hdr_length := hdr_length h |} in
    @insert E (header_encode h ++ w) = Ok (header_encode h' ++ w)
    ∧ fletcher (drop 2 (header_encode h' ++ w)) = (0, 0)).
Proof.
  intros Ho Hw Hc.
  set (pre := be 2 (hdr_age h) ++ [hdr_options h; type_code (key_kind (hdr_key h))]
    ++ be 4 (key_id (hdr_key h)) ++ be 4 (key_router (hdr_key h)) ++ be 4 (hdr_sequence h)).
  set (post := be 2 (hdr_length h) ++ w).
  assert (Hsplit : header_encode h ++ w = pre ++ [0; 0] ++ post).
  { unfold header_encode, pre, post. rewrite Hc, <-!app_assoc. done. }
  destruct (@insert_spec E pre post) as (x & y & Hi & Hx & Hy & Hf).
  { rewrite <-Hsplit. apply bytes_ok_app; [by apply header_bytes_ok|done]. }
  { reflexivity. }
  exists (of_be [x; y]). assert (Hxy : bytes_ok [x; y]) by octets. split; [by apply u16_of_be|].
  cbv zeta.
  assert (Hsplit' : header_encode {| hdr_age := hdr_age h; hdr_options := hdr_options h; hdr_key := hdr_key h;
    hdr_sequence := hdr_sequence h; hdr_checksum := of_be [x; y]; hdr_length := hdr_length h |} ++ w
    = pre ++ [x; y] ++ post).
  { unfold header_encode, pre, post. cbn [hdr_age hdr_options hdr_key hdr_sequence hdr_checksum hdr_length].
    rewrite (be_of_be_n 2 [x; y]) by done. by rewrite <-!app_assoc. }
  rewrite Hsplit', Hsplit. done.
Qed.

Lemma lsa_encode_form a w :
  lsa_ok a → lsa_encode a = Ok w →
  ∃ c b, let h := header_of a c (20 + len b) in
    w = header_encode h ++ b ∧ header_ok h ∧ bytes_ok b ∧ len b ≤ 65512
    ∧ body_encode (body a) = Ok b ∧ fletcher (drop 2 w) = (0, 0).
Proof.
  intros (Ha & Ho & Hi & Hr & Hs & Hb) H. unfold lsa_encode in H.
  destruct (_ || _) eqn:E; [done|]. destruct (body_encode (body a)) as [b| |] eqn:Eb; [|done|done].
  rewrite bind_Ok in H. destruct (body_encode_ok _ _ Hb Eb) as [Hbo Hbl].
  unfold try_from, U16_MAX, LSA_MAX_AGE in *.
  destruct (20 + len b <=? 65535) eqn:El; [|lia]. cbn [ok_or] in H. rewrite bind_Ok in H.
  destruct (@seal_header WireError (header_of a 0 (20 + len b)) b) as (c & Hc & Hi' & Hf); [done|done|done|].
  unfold header_of in H, Hi'. rewrite Hi' in H. apply Ok_inj in H as <-.
  exists c, b. cbv zeta. split_wf; try done.
  unfold header_ok, LSA_MAX_AGE. cbn. assert (0 ≤ len b) by lens. split_wf; try done; lia.
Qed.

(** An advertisement whose age alone was changed in flight. *)
Lemma lsa_decode_form a c b :
  (let h := header_of a c (20 + len b) in
   header_ok h ∧ fletcher (drop 2 (header_encode h ++ b)) = (0, 0)) →
  body_ok (body a) → body_encode (body a) = Ok b →
  lsa_decode (header_encode (header_of a c (20 + len b)) ++ b) = Ok a.
Proof.
  intros [Hh Hf] Hb He. unfold lsa_decode. rewrite header_decode_encode by done. rewrite bind_Ok.
  assert (Hl : len (header_encode (header_of a c (20 + len b)) ++ b) = 20 + len b).
  { unfold len. rewrite length_app, length_header. lia. }
  rewrite Hl. cbn [header_of hdr_length]. rewrite Z.eqb_refl. cbn [negb].
  rewrite !slice_from_ok by (rewrite length_app, length_header; lia). rewrite bind_Ok, Hf.
  rewrite bool_decide_true by done. cbn [negb]. rewrite bind_Ok.
  rewrite (drop_app_length' _ _ 20) by done. cbn [header_of hdr_key lsa_key key_kind].
  rewrite (body_roundtrip _ _ Hb He), bind_Ok. by destruct a.
Qed.

Lemma lsa_decode_safe bs : bytes_ok bs → safe (lsa_decode bs).
Proof.
  intros Hb. unfold lsa_decode. apply safe_bind; [apply header_decode_safe|]. intros h Hh.
  apply header_decode_ok in Hh as (_ & _ & _ & _ & _ & _ & Hl); [|done].
  apply safe_if; intros E; [apply safe_Err|].
  apply safe_bind; [apply safe_slice_from; lens|]. intros t Ht. apply safe_if; intros E'; [apply safe_Err|].
  apply safe_bind; [apply safe_slice_from; lens|]. intros body Hbody.
  apply safe_bind; [apply body_decode_safe; ranges|]. intros. apply safe_Ok.
Qed.
(** What was decoded is well formed and its body encodes to as many octets. *)
Lemma lsa_decode_ok bs a :
  bytes_ok bs → lsa_decode bs = Ok a →
  lsa_ok a ∧ 0 ≤ age a ≤ LSA_MAX_AGE ∧ lsa_sequence a ≠ I32_MIN
  ∧ ∃ b, body_encode (body a) = Ok b ∧ 20 + len b = len bs ∧ len bs ≤ 65535.
Proof.
  intros Hb H. unfold lsa_decode in H. inv_ok.
  match goal with H : header_decode bs = Ok ?x |- _ => rename x into h, H into Hh end.
  apply header_decode_ok in Hh as (Ha & Ho & [Hki Hkr] & Hs & Hm & Hc & Hl); [|done].
  match goal with H : body_decode _ ?x = Ok ?y |- _ => rename x into bd, y into parsed, H into Hd end.
  match goal with H : slice_from bs 20 = Ok bd |- _ => rename H into Hbd end.
  assert (Hbb : bytes_ok bd) by ranges. apply slice_from_Ok_inv in Hbd as [Hb20 ->].
  destruct (body_decode_ok _ _ _ Hbb ltac:(lens) Hd) as (Hk & Hpo & w & Hw & Hlw).
  unfold lsa_ok, LSA_MAX_AGE in *. cbn. split_wf; try (done || lia).
  exists w. split_wf; [done|lens|lens].
Qed.
Lemma lsa_encode_ok a b :
  lsa_ok a → age a ≤ LSA_MAX_AGE → lsa_sequence a ≠ I32_MIN → body_encode (body a) = Ok b →
  20 + len b ≤ 65535 → ∃ w, lsa_encode a = Ok w.
Proof.
  intros (_ & Ho & _ & _ & _ & Hb) Hage Hseq Hw Hl. unfold lsa_encode.
  destruct (_ || _) eqn:E; [lia|]. rewrite Hw, bind_Ok. unfold try_from, U16_MAX.
  destruct (20 + len b <=? 65535) eqn:E'; [|lia]. cbn [ok_or]. rewrite bind_Ok.
  destruct (body_encode_ok _ _ Hb Hw) as [Hwb _].
  destruct (@seal_header WireError (header_of a 0 (20 + len b)) b) as (c & _ & Hi & _); [done|done|done|].
  unfold header_of in Hi. eexists. exact Hi.
Qed.

(** ** Properties *)

(** C27: An advertisement that [Lsa::encode] accepts takes between 20 and 65535
    octets, is read back by [Lsa::decode] unchanged, and its header carries its
    key, age, sequence and length; replacing the age by another one up to
    MaxAge, as routers do when they flood, leaves the checksum valid. *)
Theorem lsa_roundtrip a w :
  lsa_ok a → lsa_encode a = Ok w →
  lsa_decode w = Ok a ∧ bytes_ok w ∧ 20 ≤ len w ≤ 65535
  ∧ (∃ h, lsa_header a = Ok h ∧ hdr_key h = lsa_key a ∧ hdr_age h = age a
      ∧ hdr_sequence h = lsa_sequence a ∧ hdr_length h = len w)
  ∧ ∀ age', 0 ≤ age' ≤ LSA_MAX_AGE →
      lsa_decode (be 2 age' ++ drop 2 w)
      = Ok {| age := age'; lsa_options := lsa_options a; link_state_id := link_state_id a;
              advertising_router := advertising_router a; lsa_sequence := lsa_sequence a; body := body a |}.
Proof.
  intros Ha He. pose proof Ha as (_ & Ho & _ & _ & _ & Hb).
  destruct (lsa_encode_form a w Ha He) as (c & b & -> & Hh & Hbo & Hbl & Heb & Hf).
  assert (0 ≤ len b) by lens. split_wf.
  - by apply lsa_decode_form.
  - apply bytes_ok_app; [by apply header_bytes_ok|done].
  - unfold len in *. rewrite length_app, length_header. lia.
  - unfold lsa_header. rewrite He, bind_Ok, header_decode_encode by done. eexists. split; [reflexivity|].
    split_wf; try done. unfold len. cbn [header_of hdr_length]. rewrite length_app, length_header. unfold len. lia.
  - intros age' Hage.
    set (a' := {| age := age'; lsa_options := lsa_options a; link_state_id := link_state_id a;
      advertising_router := advertising_router a; lsa_sequence := lsa_sequence a; body := body a |}).
    assert (Hd : be 2 age' ++ drop 2 (header_encode (header_of a c (20 + len b)) ++ b)
      = header_encode (header_of a' c (20 + len b)) ++ b) by done.
    rewrite Hd. apply (lsa_decode_form a'); [|done|done]. split; [|done].
    destruct Hh as (_ & Hh). split; [done|]. exact Hh.
Qed.

(** Decoding any octets never panics; what it returns has every field in
    range, can always be encoded again to as many octets, and survives that. *)
Theorem lsa_decode_sound bs :
  bytes_ok bs →
  safe (lsa_decode bs)
  ∧ ∀ a, lsa_decode bs = Ok a →
      lsa_ok a ∧ 0 ≤ age a ≤ LSA_MAX_AGE ∧ lsa_sequence a ≠ I32_MIN
      ∧ ∃ w, lsa_encode a = Ok w ∧ len w = len bs ∧ lsa_decode w = Ok a.
Proof.
  intros Hb. split; [by apply lsa_decode_safe|]. intros a H.
  destruct (lsa_decode_ok bs a Hb H) as (Ha & Hage & Hseq & b & Hbe & Hlb & Hmax). split_wf; [done..|].
  destruct (lsa_encode_ok a b Ha (proj2 Hage) Hseq Hbe) as [w He]; [lia|].
  exists w. split; [done|]. destruct (lsa_encode_form a w Ha He) as (c & b' & -> & Hh' & Hbo & Hbl & Heb & Hf).
  rewrite Hbe in Heb. apply Ok_inj in Heb as <-. split.
  - rewrite <-Hlb. unfold len in *. rewrite length_app, length_header. lia.
  - apply lsa_decode_form; [done| |done]. by destruct Ha as (_&_&_&_&_&?).
Qed.

(** Changing one octet after the age of an encoded advertisement is always
    noticed by the decoder, unless 0 and 255 are exchanged (which the
    modulo-255 sums cannot tell apart). *)
Theorem lsa_corruption_detected a w i b v :
  lsa_ok a → lsa_encode a = Ok w → (2 ≤ i)%nat → w !! i = Some b → u8 v →
  b ≠ v → ¬ (b = 0 ∧ v = 255) → ¬ (b = 255 ∧ v = 0) →
  is_ok (lsa_decode (<[i := v]> w)) = false.
Proof.
  intros Ha He Hi Hb Hv Hne H0 H1. pose proof Ha as (_ & Ho & _).
  destruct (lsa_encode_form a w Ha He) as (c & bd & Hw & _ & Hbo & _ & _ & Hf).
  assert (Hok : bytes_ok w) by (subst w; apply bytes_ok_app; [by apply header_bytes_ok|done]).
  clear Hw. destruct (lsa_decode (<[i := v]> w)) as [a'| |] eqn:Hd; [|done|done]. exfalso.
  unfold lsa_decode in Hd. inv_ok.
  match goal with H : slice_from (<[i:=v]> w) 2 = Ok _ |- _ => apply slice_from_Ok_inv in H as [? ->] end.
  match goal with H : negb (bool_decide _) = false |- _ =>
    apply negb_false_iff, bool_decide_eq_true in H; rewrite drop_insert_ge in H by lia end.
  destruct (fletcher_detects (drop 2 w) (i - 2) b v) as [|]; try done.
  - by apply bytes_ok_drop.
  - rewrite lookup_drop. by replace (2 + (i - 2))%nat with i by lia.
Qed.

(** ** Witnesses: a router advertisement with one point-to-point link *)

Definition sample_lsa : Lsa :=
  {| age := 7; lsa_options := 2; link_state_id := 0x01010101; advertising_router := 0x01010101;
     lsa_sequence := -2147483647;
     body := Router 0 [{| link_id := 0x02020202; link_data := 0x0a000001; link_kind := PointToPoint;
                          link_metric := 10 |}] |}.
Definition sample_octets : bytes :=
  [0; 7; 2; 1; 1; 1; 1; 1; 1; 1; 1; 1; 128; 0; 0; 1; 213; 90; 0; 36;
   0; 0; 0; 1; 2; 2; 2; 2; 10; 0; 0; 1; 1; 0; 0; 10].

Lemma sample_lsa_ok : lsa_ok sample_lsa.
Proof. unfold lsa_ok, sample_lsa. cbn. split_wf; try lia. repeat constructor; cbn; lia. Qed.
Lemma sample_encoded : lsa_encode sample_lsa = Ok sample_octets.
Proof. vm_compute. reflexivity. Qed.

Lemma lsa_roundtrip_witness : lsa_ok sample_lsa ∧ lsa_decode sample_octets = Ok sample_lsa.
Proof.
  split; [exact sample_lsa_ok|].
  exact (proj1 (lsa_roundtrip sample_lsa sample_octets sample_lsa_ok sample_encoded)).
Defined.
Lemma lsa_decode_sound_witness : bytes_ok sample_octets ∧ safe (lsa_decode sample_octets).
Proof.
  assert (H : bytes_ok sample_octets) by (repeat constructor; lia).
  exact (conj H (proj1 (lsa_decode_sound sample_octets H))).
Defined.
Lemma lsa_corruption_detected_witness :
  sample_octets !! 35%nat = Some 10 ∧ is_ok (lsa_decode (<[35%nat := 11]> sample_octets)) = false.
Proof.
  split; [reflexivity|].
  apply (lsa_corruption_detected sample_lsa sample_octets 35 10 11 sample_lsa_ok sample_encoded);
    (reflexivity || lia).
Defined.
