(* ===== verification/OspfAdvertisement.v ===== *)
(** The interface between the shared OSPF adjacency and the two versions of
    its wire format ([rios-routing/src/ospf_exchange/advertisement.rs]), the
    packet bodies generic over it ([OspfBody] of [ospf_wire/mod.rs]) and the
    comparison of advertisement instances ([compare_lsa_instances] of
    [ospf_exchange.rs]).

    [ExchangeAdvertisement] is the trait: its types, constants and functions,
    with the laws of [compare] that the adjacency relies on as further fields.
    The instance for OSPFv2 is here, the one for OSPFv3 in [Ospfv3Lsa]. *)
From S2P Require Import Prelude Wire Fletcher OspfLsa.

(** ** [std::cmp::Ordering] *)

Definition then_ (a b : comparison) : comparison := match a with Eq => b | c => c end.
(** [bool::cmp]: [false] is below [true]. *)
Definition bool_cmp (a b : bool) : comparison :=
  match a, b with
  | false, true => Lt | true, false => Gt | _, _ => Eq
  end.

(** An instance is compared by its sequence, its checksum and its age. *)
Definition Instance_ : Type := Z * Z * Z.

Definition compare_lsa_instances (a b : Instance_) : comparison :=
  let '(sequence_a, checksum_a, age_a) := a in
  let '(sequence_b, checksum_b, age_b) := b in
  then_ (then_ (Z.compare sequence_a sequence_b) (Z.compare checksum_a checksum_b))
    (if (age_a =? LSA_MAX_AGE) || (age_b =? LSA_MAX_AGE)
     then bool_cmp (age_a =? LSA_MAX_AGE) (age_b =? LSA_MAX_AGE)
     else if 900 <? Z.abs (age_a - age_b) then Z.compare age_b age_a
     else Eq).

Definition instance_of (h : LsaHeader) : Instance_ := (hdr_sequence h, hdr_checksum h, hdr_age h).
Definition compare_lsa (a b : LsaHeader) : comparison :=
  compare_lsa_instances (instance_of a) (instance_of b).

(** [OspfHello] of [ospf_wire/mod.rs], the body type of the OSPFv2 Hello. *)
Record OspfHello := { hello_mask : Z; hello_interval : Z; hello_options : Z; hello_priority : Z;
                      dead_interval : Z; designated_router : Z; backup_router : Z; neighbors : list Z }.
#[export] Instance OspfHello_eq_dec : EqDecision OspfHello.
Proof. solve_decision. Defined.

(** ** The trait *)

Class ExchangeAdvertisement (L : Type) := {
  Key : Type;
  Header : Type;
  Hello : Type;
  #[global] Key_eq_dec :: EqDecision Key;
  #[global] Key_countable :: Countable Key;
  (** The derived [Ord] of the key, as a lexicographic code. *)
  key_code : Key → list Z;
  OPTIONS : Z;
  PACKET_OVERHEAD : Z;
  DD_OVERHEAD : Z;
  key : L → Key;
  header : L → res WireError Header;
  encoded_len : L → res WireError Z;
  header_key : Header → Key;
  compare : Header → Header → comparison;
  (** The values whose fields have their widths. *)
  advertisement_ok : L → Prop;
  (** The laws: the order is strict, reversing the arguments reverses it, and
      an advertisement and its header have one key. *)
  compare_refl : ∀ a, compare a a = Eq;
  compare_flip : ∀ a b, compare b a = CompOpp (compare a b);
  compare_trans : ∀ a b c, compare a b = Gt → compare b c = Gt → compare a c = Gt;
  header_safe : ∀ l, safe (header l);
  encoded_len_safe : ∀ l, safe (encoded_len l);
  header_key_key : ∀ l h, advertisement_ok l → header l = Ok h → header_key h = key l;
}.

(** The five packet bodies. *)
Inductive OspfBody {L : Type} `{ExchangeAdvertisement L} :=
| HelloBody (hello : Hello)
| DatabaseDescription (mtu options flags sequence : Z) (headers : list Header)
| LinkStateRequest (keys : list Key)
| LinkStateUpdate (lsas : list L)
| LinkStateAck (headers : list Header).
Arguments OspfBody L {_}.

(** ** The instances of one advertisement are strictly ordered *)

Lemma compare_instances_refl a : compare_lsa_instances a a = Eq.
Proof.
  destruct a as [[s c] g]. unfold compare_lsa_instances. rewrite !Z.compare_refl. cbn.
  destruct (g =? LSA_MAX_AGE); cbn; [done|]. rewrite Z.sub_diag. done.
Qed.
Lemma compare_instances_flip a b :
  compare_lsa_instances b a = CompOpp (compare_lsa_instances a b).
Proof.
  destruct a as [[s c] g], b as [[s' c'] g']. unfold compare_lsa_instances.
  rewrite (Z.compare_antisym s s'), (Z.compare_antisym c c'), (orb_comm (g' =? _)).
  replace (Z.abs (g' - g)) with (Z.abs (g - g')) by lia.
  destruct (Z.compare s s'), (Z.compare c c'); cbn; try done.
  destruct (_ || _); [by destruct (g =? LSA_MAX_AGE), (g' =? LSA_MAX_AGE)|].
  destruct (900 <? _); [|done]. by rewrite Z.compare_antisym.
Qed.
(** The part of the comparison that looks at the ages. *)
Lemma compare_instances_Gt a b :
  compare_lsa_instances a b = Gt ↔
  let '(s, c, g) := a in let '(s', c', g') := b in
  s' < s ∨ s = s' ∧ (c' < c ∨ c = c' ∧
    ((g = LSA_MAX_AGE ∧ g' ≠ LSA_MAX_AGE) ∨ (g ≠ LSA_MAX_AGE ∧ g' ≠ LSA_MAX_AGE ∧ g + 900 < g'))).
Proof.
  destruct a as [[s c] g], b as [[s' c'] g']. unfold compare_lsa_instances.
  destruct (Z.compare_spec s s'), (Z.compare_spec c c'); cbn; try (split; [done|lia]); try (split; [lia|done]).
  destruct (g =? LSA_MAX_AGE) eqn:E, (g' =? LSA_MAX_AGE) eqn:E'; cbn;
    try (split; [done|lia]); try (split; [lia|done]).
  destruct (900 <? _) eqn:E9; [|split; [done|lia]].
  destruct (Z.compare_spec g' g); split; (done || lia).
Qed.
Lemma compare_instances_trans a b c :
  compare_lsa_instances a b = Gt → compare_lsa_instances b c = Gt → compare_lsa_instances a c = Gt.
Proof.
  rewrite !compare_instances_Gt. destruct a as [[??]?], b as [[??]?], c as [[??]?]. lia.
Qed.

(** ** The OSPFv2 instance *)

Lemma insert_safe {E} bs : (18 ≤ length bs)%nat → safe (@Fletcher.insert E bs).
Proof.
  intros H. unfold Fletcher.insert. apply safe_bind; [apply safe_slice_from; lia|]. intros t _.
  destruct (Fletcher.fletcher t). apply safe_bind; [apply safe_put; cbn; lia|]. intros out Ho.
  apply safe_put. rewrite put_ok in Ho by (cbn; lia). apply Ok_inj in Ho as <-. lens.
Qed.
Lemma body_encode_safe b : safe (body_encode b).
Proof. destruct b; cbn [body_encode]; repeat (apply safe_if; intros ?); auto with safe. Qed.
Lemma lsa_encode_safe a : safe (lsa_encode a).
Proof.
  unfold lsa_encode. apply safe_if; intros _; [apply safe_Err|].
  apply safe_bind; [apply body_encode_safe|]. intros b _. apply safe_bind; [apply safe_ok_or|]. intros l _.
  apply insert_safe. rewrite length_app, length_header. lia.
Qed.
Lemma lsa_header_safe a : safe (lsa_header a).
Proof. apply safe_bind; [apply lsa_encode_safe|]. intros. apply header_decode_safe. Qed.

Lemma lsa_header_encoded a h :
  lsa_ok a → lsa_header a = Ok h →
  ∃ c b, h = header_of a c (20 + len b) ∧ body_encode (body a) = Ok b ∧ header_ok h.
Proof.
  intros Ha. unfold lsa_header. intros (w & He & H)%bind_Ok_inv.
  destruct (lsa_encode_form a w Ha He) as (c & b & -> & Hh & _ & _ & Hb & _).
  rewrite header_decode_encode in H by done. apply Ok_inj in H as <-. by exists c, b.
Qed.

#[export] Instance LsaType_countable : Countable LsaType.
Proof.
  refine (inj_countable type_code (λ c, ok (type_of_code c)) _). by intros [].
Defined.
#[export] Instance LsaKey_countable : Countable LsaKey.
Proof.
  refine (inj_countable' (λ k, (key_kind k, key_id k, key_router k))
            (λ '(a, b, c), {| key_kind := a; key_id := b; key_router := c |}) _). by intros [].
Defined.

#[export] Instance ospfv2_advertisement : ExchangeAdvertisement Lsa.
Proof.
  refine {|
    Key := LsaKey; Header := LsaHeader; Hello := OspfHello;
    key_code := λ k, [type_code (key_kind k); key_id k; key_router k];
    OPTIONS := 2; PACKET_OVERHEAD := 44; DD_OVERHEAD := 52;
    key := lsa_key; header := lsa_header;
    encoded_len := λ l, bs ← lsa_encode l; Ok (len bs);
    header_key := hdr_key; compare := compare_lsa;
    advertisement_ok := lsa_ok |}.
  - intros. apply compare_instances_refl.
  - intros. apply compare_instances_flip.
  - intros a b c. apply compare_instances_trans.
  - apply lsa_header_safe.
  - intros l. apply safe_bind; [apply lsa_encode_safe|]. intros. apply safe_Ok.
  - intros l h Hl H. by destruct (lsa_header_encoded l h Hl H) as (c & b & -> & _ & _).
Defined.
