(* ===== verification/OspfPacket.v ===== *)
(** OSPFv2 packets ([rios-routing/src/ospf_wire/mod.rs]): the common header
    with its Internet checksum and the five bodies.

    [packet_roundtrip] and [packet_decode_sound] are the codec's contract. *)
From S2P Require Import Prelude Wire Checksum OspfLsa OspfAdvertisement.

Record OspfV2Packet := { router_id : Ipv4.Ipv4Addr; area : Z; packet_body : OspfBody Lsa }.

(** ** Encoding *)

(** The loop of the update: each advertisement must still fit. *)
Fixpoint encode_lsas (lsas : list Lsa) (body : bytes) : res WireError bytes :=
  match lsas with
  | [] => Ok body
  | lsa :: lsas =>
      bs ← lsa_encode lsa;
      if 65535 - 24 <? len body + len bs then Err TooLarge else encode_lsas lsas (body ++ bs)
  end.

Definition encode_key (k : LsaKey) : bytes :=
  be 4 (type_code (key_kind k)) ++ be 4 (key_id k) ++ be 4 (key_router k).

(** The kind octet and the body. *)
Definition packet_body_encode (b : OspfBody Lsa) : res WireError (Z * bytes) :=
  match b with
  | HelloBody hello =>
      if (65535 - 44) `div` 4 <? len (neighbors hello) then Err TooLarge
      else Ok (1, be 4 (hello_mask hello) ++ be 2 (hello_interval hello)
                  ++ [hello_options hello; hello_priority hello] ++ be 4 (dead_interval hello)
                  ++ be 4 (designated_router hello) ++ be 4 (backup_router hello)
                  ++ concat (map (be 4) (neighbors hello)))
  | DatabaseDescription mtu options flags sequence headers =>
      if ((65535 - 32) `div` 20 <? len headers) || negb (Z.land flags (Z.lxor 7 255) =? 0) then Err TooLarge
      else
        options ← ok_or (try_from U8_MAX options) Unsupported;
        Ok (2, be 2 mtu ++ [options; flags] ++ be 4 sequence ++ concat (map header_encode headers))
  | LinkStateRequest keys =>
      if (65535 - 24) `div` 12 <? len keys then Err TooLarge
      else Ok (3, concat (map encode_key keys))
  | LinkStateUpdate lsas =>
      if (65535 - 28) `div` 20 <? len lsas then Err TooLarge
      else
        body ← encode_lsas lsas (be 4 (len lsas));
        Ok (4, body)
  | LinkStateAck headers =>
      if (65535 - 24) `div` 20 <? len headers then Err TooLarge
      else Ok (5, concat (map header_encode headers))
  end.

Definition packet_encode (p : OspfV2Packet) : res WireError bytes :=
  '(kind, body) ← packet_body_encode (packet_body p);
  length ← ok_or (try_from U16_MAX (24 + len body)) TooLarge;
  let out := [2; kind] ++ be 2 length ++ be 4 (router_id p) ++ be 4 (area p) ++ zeros 12 ++ body in
  sum ← checksum out;
  put out 12 (be 2 sum).

(** ** Decoding *)

Definition decode_headers (data : bytes) : res WireError (list LsaHeader) :=
  if negb (len data `mod` 20 =? 0) then Err Malformed
  else try_map header_decode (as_chunks 20 data).

Definition decode_key (chunk : bytes) : res WireError LsaKey :=
  head ← slice chunk 0 3;
  if negb (bool_decide (head = [0; 0; 0])) then Err Unsupported
  else
    c3 ← idx chunk 3;
    kind ← type_of_code c3;
    id ← u32_at chunk 4;
    router ← u32_at chunk 8;
    Ok {| key_kind := kind; key_id := id; key_router := router |}.

(** [for _ in 0..count]: the advertisements of an update, from [offset] on. *)
Fixpoint decode_lsas (count : nat) (body : bytes) (offset : nat) (lsas : list Lsa)
    : res WireError (nat * list Lsa) :=
  match count with
  | O => Ok (offset, lsas)
  | S count =>
      rest ← slice_from body offset;
      header ← header_decode rest;
      let end_ := (offset + Z.to_nat (hdr_length header))%nat in
      data ← ok_or (get_slice body offset end_) Malformed;
      lsa ← lsa_decode data;
      decode_lsas count body end_ (lsas ++ [lsa])
  end.

Definition decode_hello (body : bytes) : res WireError OspfHello :=
  if (len body <? 20) || negb ((len body - 20) `mod` 4 =? 0) then Err Malformed
  else
    mask ← u32_at body 0; interval ← u16_at body 4; options ← idx body 6; priority ← idx body 7;
    dead ← u32_at body 8; dr ← u32_at body 12; bdr ← u32_at body 16; rest ← slice_from body 20;
    ns ← try_map ip (as_chunks 4 rest);
    Ok {| hello_mask := mask; hello_interval := interval; hello_options := options;
          hello_priority := priority; dead_interval := dead; designated_router := dr;
          backup_router := bdr; neighbors := ns |}.

Definition decode_description (body : bytes) : res WireError (OspfBody Lsa) :=
  if len body <? 8 then Err Malformed
  else
    flags ← idx body 3;
    if negb (Z.land flags (Z.lxor 7 255) =? 0) then Err Malformed
    else
      mtu ← u16_at body 0; options ← idx body 2; sequence ← u32_at body 4;
      rest ← slice_from body 8;
      headers ← decode_headers rest;
      Ok (@DatabaseDescription Lsa ospfv2_advertisement mtu options flags sequence headers).

Definition decode_update (body : bytes) : res WireError (list Lsa) :=
  if len body <? 4 then Err Malformed
  else
    count ← u32_at body 0;
    if (len body - 4) `div` 20 <? count then Err Malformed
    else
      '(offset, lsas) ← decode_lsas (Z.to_nat count) body 4 [];
      if negb (Z.of_nat offset =? len body) then Err Malformed else Ok lsas.

Definition packet_body_decode (kind : Z) (body : bytes) : res WireError (OspfBody Lsa) :=
  if kind =? 1 then hello ← decode_hello body; Ok (@HelloBody Lsa ospfv2_advertisement hello)
  else if kind =? 2 then decode_description body
  else if kind =? 3 then
    if negb (len body `mod` 12 =? 0) then Err Malformed
    else keys ← try_map decode_key (as_chunks 12 body); Ok (@LinkStateRequest Lsa ospfv2_advertisement keys)
  else if kind =? 4 then lsas ← decode_update body; Ok (@LinkStateUpdate Lsa ospfv2_advertisement lsas)
  else if kind =? 5 then headers ← decode_headers body; Ok (@LinkStateAck Lsa ospfv2_advertisement headers)
  else Err Unsupported.

Definition packet_decode (bs : bytes) : res WireError OspfV2Packet :=
  if len bs <? 24 then Err Malformed
  else
    b0 ← idx bs 0;
    length ← u16_at bs 2;
    if negb (b0 =? 2) || negb (length =? len bs) then Err Malformed
    else
      auth ← slice bs 14 24;
      if negb (bool_decide (auth = zeros 10)) then Err Unsupported
      else
        sum ← checksum bs;
        if negb (sum =? 0) then Err Checksum
        else
          body ← slice_from bs 24;
          kind ← idx bs 1;
          parsed ← packet_body_decode kind body;
          router ← u32_at bs 4;
          area ← u32_at bs 8;
          Ok {| router_id := router; area := area; packet_body := parsed |}.

(** ** Well-formed packets *)

Definition hello_ok (h : OspfHello) : Prop :=
  u32 (hello_mask h) ∧ u16 (hello_interval h) ∧ u8 (hello_options h) ∧ u8 (hello_priority h)
  ∧ u32 (dead_interval h) ∧ u32 (designated_router h) ∧ u32 (backup_router h)
  ∧ Forall (λ n, u32 n) (neighbors h).
Definition body_ok (b : OspfBody Lsa) : Prop :=
  match b with
  | HelloBody hello => hello_ok hello
  | DatabaseDescription mtu options flags sequence headers =>
      u16 mtu ∧ u32 options ∧ u8 flags ∧ u32 sequence ∧ Forall header_ok headers
  | LinkStateRequest keys => Forall key_ok keys
  | LinkStateUpdate lsas => Forall lsa_ok lsas
  | LinkStateAck headers => Forall header_ok headers
  end.
Definition packet_ok (p : OspfV2Packet) : Prop :=
  u32 (router_id p) ∧ u32 (area p) ∧ body_ok (packet_body p).

(** ** Helper lemmas: bodies *)

Lemma concat_blocks {A} (enc : A → bytes) (ok_ : A → Prop) n xs :
  (∀ x, ok_ x → length (enc x) = n ∧ bytes_ok (enc x)) → Forall ok_ xs →
  Forall (λ b : bytes, length b = n) (map enc xs) ∧ bytes_ok (concat (map enc xs))
  ∧ len (concat (map enc xs)) = Z.of_nat n * len xs.
Proof.
  intros He Hxs.
  assert (Hs : Forall (λ b : bytes, length b = n) (map enc xs)).
  { apply Forall_map. eapply Forall_impl; [exact Hxs|]. intros x Hx. by apply He. }
  split_and!; [done| |].
  - apply bytes_ok_concat, Forall_map. eapply Forall_impl; [exact Hxs|]. intros x Hx. by apply He.
  - unfold len. rewrite (length_concat_blocks n) by done. rewrite length_map. lia.
Qed.
Lemma parse_blocks {A} (enc : A → bytes) (dec : bytes → res WireError A) (ok_ : A → Prop) n xs :
  (0 < n)%nat → (∀ x, ok_ x → length (enc x) = n ∧ bytes_ok (enc x)) → (∀ x, ok_ x → dec (enc x) = Ok x) →
  Forall ok_ xs → try_map dec (as_chunks n (concat (map enc xs))) = Ok xs.
Proof.
  intros Hn He Hd Hxs. destruct (concat_blocks enc ok_ n xs He Hxs) as (Hs & _ & _).
  rewrite chunks_concat by done. rewrite (try_map_encoded _ _ id), map_id; [done|].
  eapply Forall_impl; [exact Hxs|exact Hd].
Qed.

Lemma headers_spec hs :
  Forall header_ok hs →
  bytes_ok (concat (map header_encode hs)) ∧ len (concat (map header_encode hs)) = 20 * len hs
  ∧ decode_headers (concat (map header_encode hs)) = Ok hs.
Proof.
  intros Hhs.
  assert (He : ∀ h, header_ok h → length (header_encode h) = 20%nat ∧ bytes_ok (header_encode h)).
  { intros h (_ & Ho & _). split; [apply length_header | by apply header_bytes_ok]. }
  destruct (concat_blocks _ _ _ _ He Hhs) as (_ & Hb & Hl). split_and!; [done|done|].
  unfold decode_headers. rewrite Hl, Z.mul_comm, Z_mod_mult. cbn [Z.eqb negb].
  apply (parse_blocks _ _ header_ok); [lia|done| |done].
  intros h Hh. rewrite <-(app_nil_r (header_encode h)). by apply header_decode_encode.
Qed.

Lemma key_spec k :
  key_ok k → length (encode_key k) = 12%nat ∧ bytes_ok (encode_key k) ∧ decode_key (encode_key k) = Ok k.
Proof.
  intros [Hi Hr]. destruct k as [k i r]. cbn in Hi, Hr. split_and!; [done| |].
  - unfold encode_key. cbn [be app]. octets; apply byte_of_range.
  - assert (Hk : be 4 (type_code k) = [0; 0; 0; type_code k]) by (by destruct k).
    unfold encode_key, decode_key. cbn [key_kind key_id key_router]. rewrite Hk. cbn -[byte_of of_be].
    rewrite slice_ok by (cbn; lia). cbn -[byte_of of_be]. rewrite !of_be_4 by lia. by destruct k.
Qed.

(** The update: every advertisement after the other. *)
Lemma encode_lsas_eq lsas body w :
  encode_lsas lsas body = Ok w →
  ∃ ws, w = body ++ concat ws ∧ Forall2 (λ l w, lsa_encode l = Ok w) lsas ws.
Proof.
  revert body. induction lsas as [|l lsas IH]; intros body H; cbn [encode_lsas] in H.
  - apply Ok_inj in H as <-. exists []. rewrite app_nil_r. by split; [|constructor].
  - apply bind_Ok_inv in H as (bs & Hl & H). destruct (65535 - 24 <? _); [done|].
    apply IH in H as (ws & -> & Hws). exists (bs :: ws). cbn [concat]. rewrite app_assoc. by split; [|constructor].
Qed.
Lemma lsa_read_back l w rest :
  lsa_ok l → lsa_encode l = Ok w →
  ∃ h, header_decode (w ++ rest) = Ok h ∧ hdr_length h = len w ∧ lsa_decode w = Ok l ∧ bytes_ok w ∧ 20 ≤ len w.
Proof.
  intros Hl He. destruct (lsa_encode_form l w Hl He) as (c & b & -> & Hh & Hb & _ & Hbe & Hf).
  assert (Hlen : len (header_encode (header_of l c (20 + len b)) ++ b) = 20 + len b).
  { unfold len. rewrite length_app, length_header. lia. }
  eexists. rewrite <-app_assoc, header_decode_encode by done. split; [done|]. rewrite Hlen. split; [done|].
  split; [|split; [|lens]].
  - apply lsa_decode_form; [done| |done]. by destruct Hl as (_&_&_&_&_&?).
  - apply bytes_ok_app; [|done]. apply header_bytes_ok. by destruct Hl as (_&?&_).
Qed.
Lemma decode_lsas_list lsas ws pre out :
  Forall lsa_ok lsas → Forall2 (λ l w, lsa_encode l = Ok w) lsas ws →
  decode_lsas (length lsas) (pre ++ concat ws) (length pre) out
  = Ok (length (pre ++ concat ws), out ++ lsas).
Proof.
  intros Hok H. revert pre out Hok. induction H as [|l w lsas ws Hlw _ IH]; intros pre out Hok;
    cbn [length decode_lsas concat].
  - by rewrite !app_nil_r.
  - apply Forall_cons in Hok as [Hl Hok].
    destruct (lsa_read_back l w (concat ws) Hl Hlw) as (h & Hh & Hlen & Hd & _).
    rewrite slice_from_ok by lens. rewrite bind_Ok, drop_app_length, Hh, bind_Ok.
    rewrite Hlen. replace (Z.to_nat (len w)) with (length w) by lens.
    rewrite get_slice_at by lens. rewrite drop_app_length, take_app_length. cbn [ok_or].
    rewrite bind_Ok, Hd, bind_Ok. rewrite app_assoc, <-length_app, IH by done. by rewrite <-(app_assoc out).
Qed.
Lemma encoded_lsas_size lsas ws :
  Forall lsa_ok lsas → Forall2 (λ l w, lsa_encode l = Ok w) lsas ws →
  bytes_ok (concat ws) ∧ 20 * len lsas ≤ len (concat ws).
Proof.
  intros Hok H. induction H as [|l w lsas ws Hlw _ IH]; [by split; [constructor|]|].
  apply Forall_cons in Hok as [Hl Hok]. destruct (IH Hok) as [Hb Hs].
  destruct (lsa_read_back l w [] Hl Hlw) as (_ & _ & _ & _ & Hw & Hlen). cbn [concat]. split.
  - by apply bytes_ok_app.
  - lens.
Qed.

Lemma words_spec xs :
  Forall (λ x, u32 x) xs →
  bytes_ok (concat (map (be 4) xs))
  ∧ len (concat (map (be 4) xs)) = 4 * len xs
  ∧ try_map ip (as_chunks 4 (concat (map (be 4) xs))) = @Ok WireError _ xs.
Proof.
  intros Hxs.
  assert (He : ∀ x, u32 x → length (be 4 x) = 4%nat ∧ bytes_ok (be 4 x)).
  { intros. split; [apply length_be|apply bytes_ok_be]. }
  destruct (concat_blocks (be 4) (λ x, u32 x) 4 xs He Hxs) as (_ & Hb & Hl). split_and!; [done|done|].
  apply (parse_blocks _ _ (λ x, u32 x)); [lia|done| |done]. intros x Hx. unfold ip. cbn [be]. read. by rewrite of_be_4.
Qed.

Lemma hello_spec h k w :
  hello_ok h → packet_body_encode (HelloBody h) = Ok (k, w) →
  k = 1 ∧ bytes_ok w ∧ decode_hello w = Ok h.
Proof.
  intros (Hm & Hi & Ho & Hp & Hd & Hdr & Hb & Hns) H. cbn [packet_body_encode] in H.
  destruct (_ <? _) eqn:E; [done|]. apply Ok_inj in H. injection H as <- <-. split; [done|].
  destruct (words_spec _ Hns) as (Hcb & Hcl & Hparse). set (rest := concat _) in *. split.
  - cbn [be app]. octets; apply byte_of_range.
  - unfold decode_hello. destruct (len _ <? 20) eqn:E'; [lens|].
    match goal with |- context [len ?l - 20] => assert (len l - 20 = len (neighbors h) * 4) as -> by lens end.
    rewrite Z_mod_mult. cbn [Z.eqb negb orb]. cbn [be app]. read. rewrite ?bind_Ok.
    rewrite slice_from_ok by lens. cbn [drop]. rewrite drop_0, bind_Ok, Hparse, bind_Ok.
    rewrite of_be_2, !of_be_4 by lia. by destruct h.
Qed.

Lemma description_spec mtu options flags sequence headers k w :
  body_ok (DatabaseDescription mtu options flags sequence headers) →
  packet_body_encode (DatabaseDescription mtu options flags sequence headers) = Ok (k, w) →
  k = 2 ∧ bytes_ok w
  ∧ decode_description w = Ok (DatabaseDescription mtu options flags sequence headers).
Proof.
  intros (Hm & Ho & Hf & Hs & Hh) H. cbn [packet_body_encode] in H.
  destruct (_ || _) eqn:E; [done|]. apply orb_false_iff in E as [_ Ef]. unfold try_from, U8_MAX in H.
  destruct (options <=? 255) eqn:Eo; [|done]. cbn [ok_or] in H. rewrite bind_Ok in H.
  apply Ok_inj in H. injection H as <- <-. split; [done|].
  destruct (headers_spec _ Hh) as (Hcb & Hcl & Hparse). set (rest := concat _) in *. split.
  - cbn [be app]. octets; apply byte_of_range.
  - unfold decode_description. destruct (len _ <? 8) eqn:E'; [lens|]. cbn [be app]. read. rewrite ?bind_Ok, Ef.
    rewrite slice_from_ok by lens. cbn [drop]. rewrite drop_0, bind_Ok, Hparse, bind_Ok.
    by rewrite of_be_2, of_be_4 by lia.
Qed.

Lemma update_spec lsas k w :
  Forall lsa_ok lsas → packet_body_encode (LinkStateUpdate lsas) = Ok (k, w) →
  k = 4 ∧ bytes_ok w ∧ decode_update w = Ok lsas.
Proof.
  intros Hok H. cbn [packet_body_encode] in H. destruct (_ <? _) eqn:E; [done|].
  change ((65535 - 28) `div` 20) with 3275 in E.
  apply bind_Ok_inv in H as (body & Hbody & H). apply Ok_inj in H. injection H as <- <-. split; [done|].
  apply encode_lsas_eq in Hbody as (ws & -> & Hws).
  destruct (encoded_lsas_size _ _ Hok Hws) as [Hb Hl]. split; [apply bytes_ok_app; [apply bytes_ok_be|done]|].
  unfold decode_update. destruct (len _ <? 4) eqn:E'; [lens|].
  assert (@u32_at WireError (be 4 (len lsas) ++ concat ws) 0 = Ok (len lsas)) as ->.
  { cbn [be app]. read. rewrite of_be_4 by lens. done. }
  rewrite bind_Ok.
  assert (Hdiv : len lsas ≤ (len (be 4 (len lsas) ++ concat ws) - 4) `div` 20).
  { apply Z.div_le_lower_bound; lens. }
  rewrite (proj2 (Z.ltb_ge _ _) Hdiv).
  replace (Z.to_nat (len lsas)) with (length lsas) by lens.
  pose proof (decode_lsas_list lsas ws (be 4 (len lsas)) [] Hok Hws) as Hd.
  rewrite length_be in Hd. rewrite Hd, bind_Ok. cbn [app].
  change (Z.of_nat (length ?l)) with (len l). by rewrite Z.eqb_refl.
Qed.

Lemma packet_body_roundtrip b k w :
  body_ok b → packet_body_encode b = Ok (k, w) →
  1 ≤ k ≤ 5 ∧ bytes_ok w ∧ packet_body_decode k w = Ok b.
Proof.
  intros Hb H. destruct b as [h|mtu o f q hs|ks|ls|hs].
  - destruct (hello_spec h k w Hb H) as (-> & Hw & Hd). split_wf; [lia|done|]. unfold packet_body_decode.
    cbn [Z.eqb Pos.eqb]. by rewrite Hd.
  - destruct (description_spec _ _ _ _ _ _ _ Hb H) as (-> & Hw & Hd). split_wf; [lia|done|exact Hd].
  - cbn [packet_body_encode] in H. destruct (_ <? _) eqn:E; [done|]. apply Ok_inj in H. injection H as <- <-.
    assert (He : ∀ x, key_ok x → length (encode_key x) = 12%nat ∧ bytes_ok (encode_key x)).
    { intros x Hx. destruct (key_spec x Hx) as (?&?&?). done. }
    destruct (concat_blocks encode_key key_ok 12 ks He Hb) as (_ & Hcb & Hcl).
    split_wf; [lia|done|]. unfold packet_body_decode. cbn [Z.eqb Pos.eqb].
    rewrite Hcl, Z.mul_comm, Z_mod_mult. cbn [Z.eqb negb].
    rewrite (parse_blocks encode_key decode_key key_ok); [done|lia|done| |done].
    intros x Hx. by destruct (key_spec x Hx) as (?&?&?).
  - destruct (update_spec _ _ _ Hb H) as (-> & Hw & Hd). split_wf; [lia|done|]. unfold packet_body_decode.
    cbn [Z.eqb Pos.eqb]. by rewrite Hd.
  - cbn [packet_body_encode] in H. destruct (_ <? _) eqn:E; [done|]. apply Ok_inj in H. injection H as <- <-.
    destruct (headers_spec _ Hb) as (Hcb & Hcl & Hparse). split_wf; [lia|done|].
    unfold packet_body_decode. cbn [Z.eqb Pos.eqb]. by rewrite Hparse.
Qed.

(** ** Helper lemmas: absence of panics and widths of what is decoded *)

Lemma decode_headers_ok data hs : bytes_ok data → decode_headers data = Ok hs → Forall header_ok hs.
Proof.
  intros Hb. unfold decode_headers. destruct (negb _); [done|]. intros H.
  eapply (try_map_Forall header_decode); [|exact (as_chunks_sizes 20 data ltac:(lia) Hb)|exact H].
  intros x y [_ Hx] Hxy. by eapply header_decode_ok.
Qed.
Lemma decode_headers_safe data : bytes_ok data → safe (decode_headers data).
Proof.
  intros Hb. unfold decode_headers. apply safe_if; intros _; [apply safe_Err|].
  apply try_map_safe. intros. apply header_decode_safe.
Qed.
Lemma decode_words_ok {E} data xs :
  bytes_ok data → try_map (@ip E) (as_chunks 4 data) = Ok xs → Forall (λ x, u32 x) xs.
Proof.
  intros Hb H. eapply (try_map_Forall ip); [|exact (as_chunks_sizes 4 data ltac:(lia) Hb)|exact H].
  intros x y [_ Hx] Hxy. unfold ip in Hxy. ranges.
Qed.
Lemma decode_words_safe {E} data : bytes_ok data → safe (try_map (@ip E) (as_chunks 4 data)).
Proof.
  intros Hb. apply try_map_safe. intros x Hx.
  pose proof (as_chunks_sizes 4 data ltac:(lia) Hb) as Hs. rewrite Forall_forall in Hs.
  apply Hs in Hx as [Hx _]. unfold ip. solve_safe.
Qed.
Lemma decode_key_ok x k : bytes_ok x → decode_key x = Ok k → key_ok k.
Proof. intros Hb H. unfold decode_key in H. inv_ok. split; cbn; ranges. Qed.
Lemma decode_key_safe x : length x = 12%nat → safe (decode_key x).
Proof. intros Hx. unfold decode_key, type_of_code. solve_safe. Qed.

(** The offset of the update's loop stays inside the body. *)
Lemma decode_lsas_spec count bd offset lsas :
  bytes_ok bd → (offset ≤ length bd)%nat → Forall lsa_ok lsas →
  safe (decode_lsas count bd offset lsas)
  ∧ ∀ r, decode_lsas count bd offset lsas = Ok r → Forall lsa_ok r.2 ∧ length r.2 = (length lsas + count)%nat.
Proof.
  intros Hb. revert offset lsas. induction count as [|count IH]; intros offset lsas Ho Hl; cbn [decode_lsas].
  - split; [apply safe_Ok|]. intros r H%Ok_inj. subst r. cbn. split; [done|lia].
  - rewrite slice_from_ok by done. rewrite bind_Ok.
    pose proof (header_decode_safe (drop offset bd)) as Hhs.
    destruct (header_decode (drop offset bd)) as [h| |] eqn:Eh; cbn [mbind res_mbind res_bind];
      [|by split; [|intros]|done].
    destruct (get_slice _ _ _) as [data|] eqn:Ed; cbn [ok_or mbind res_mbind res_bind]; [|by split; [|intros]].
    assert (Hd : bytes_ok data) by ranges. apply get_slice_Some in Ed as [Hr _].
    pose proof (lsa_decode_safe data Hd) as Hsafe.
    destruct (lsa_decode data) as [a| |] eqn:Ea; cbn [mbind res_mbind res_bind]; [|by split; [|intros]|done].
    destruct (IH (offset + Z.to_nat (hdr_length h))%nat (lsas ++ [a])) as [IH1 IH2]; [lia| |].
    { apply Forall_app. split; [done|]. constructor; [|constructor]. by destruct (lsa_decode_ok data a Hd Ea). }
    split; [done|]. intros r H. apply IH2 in H as [? H]. split; [done|]. rewrite H. lens.
Qed.

Lemma packet_body_decode_spec k bd :
  bytes_ok bd →
  safe (packet_body_decode k bd) ∧ ∀ b, packet_body_decode k bd = Ok b → body_ok b.
Proof.
  intros Hb. unfold packet_body_decode.
  destruct (k =? 1); [|destruct (k =? 2); [|destruct (k =? 3); [|destruct (k =? 4); [|destruct (k =? 5)]]]].
  - split.
    + apply safe_bind; [|intros; apply safe_Ok]. unfold decode_hello. apply safe_if; intros E; [apply safe_Err|].
      repeat (apply safe_bind; [first [apply safe_u32_at; lens | apply safe_u16_at; lens | apply safe_idx; lens
        | apply safe_slice_from; lens | apply decode_words_safe; ranges]|]; intros ??). apply safe_Ok.
    + intros b H. inv_ok. unfold decode_hello in *. inv_ok. cbn. unfold hello_ok. cbn.
      split_wf; try ranges. eapply decode_words_ok; [|eassumption]. ranges.
  - split.
    + unfold decode_description. apply safe_if; intros E; [apply safe_Err|].
      apply safe_bind; [apply safe_idx; lens|]. intros f _. apply safe_if; intros E'; [apply safe_Err|].
      repeat (apply safe_bind; [first [apply safe_u32_at; lens | apply safe_u16_at; lens | apply safe_idx; lens
        | apply safe_slice_from; lens | apply decode_headers_safe; ranges]|]; intros ??). apply safe_Ok.
    + intros b H. unfold decode_description in H. inv_ok. cbn.
      match goal with H : idx bd 2 = Ok ?x |- _ => assert (u8 x) by ranges end.
      split_wf; try ranges; [lia|]. eapply decode_headers_ok; [|eassumption]. ranges.
  - pose proof (as_chunks_sizes 12 bd ltac:(lia) Hb) as Hs. split.
    + apply safe_if; intros _; [apply safe_Err|]. apply safe_bind; [|intros; apply safe_Ok].
      apply try_map_safe. intros x Hx. rewrite Forall_forall in Hs. apply decode_key_safe. by apply Hs.
    + intros b H. inv_ok. cbn. eapply (try_map_Forall decode_key); [|exact Hs|eassumption].
      intros x' y [_ Hx'] Hxy. by eapply decode_key_ok.
  - assert (Hl : ∀ n, safe (decode_lsas n bd 4 []) ∧ (∀ r, decode_lsas n bd 4 [] = Ok r → Forall lsa_ok r.2)
      ∨ len bd < 4).
    { intros n. destruct (decide (len bd < 4)); [by right|left].
      destruct (decode_lsas_spec n bd 4 [] Hb) as [H1 H2]; [lens|constructor|].
      split; [done|]. intros r Hr. by destruct (H2 r Hr). }
    split.
    + apply safe_bind; [|intros; apply safe_Ok]. unfold decode_update. apply safe_if; intros E; [apply safe_Err|].
      apply safe_bind; [apply safe_u32_at; lens|]. intros n _. apply safe_if; intros E'; [apply safe_Err|].
      destruct (Hl (Z.to_nat n)) as [[Hsafe _]|]; [|lia]. apply safe_bind; [done|]. intros [o ls] _.
      apply safe_if; intros _; [apply safe_Err | apply safe_Ok].
    + intros b H. inv_ok. unfold decode_update in *. inv_ok. cbn.
      match goal with H : decode_lsas ?n _ _ _ = Ok ?r |- _ => destruct (Hl n) as [[_ Hok]|]; [|lia];
        apply Hok in H end. done.
  - split.
    + apply safe_bind; [by apply decode_headers_safe|]. intros. apply safe_Ok.
    + intros b H. inv_ok. cbn. by eapply decode_headers_ok.
  - split; [apply safe_Err | done].
Qed.

(** The encoded packet: its octets around the checksum. *)
Lemma packet_encode_form p w :
  packet_ok p → packet_encode p = Ok w →
  ∃ k b c, let pre := [2; k] ++ be 2 (24 + len b) ++ be 4 (router_id p) ++ be 4 (area p) in
    packet_body_encode (packet_body p) = Ok (k, b) ∧ 1 ≤ k ≤ 5 ∧ bytes_ok b ∧ len b ≤ 65511
    ∧ packet_body_decode k b = Ok (packet_body p) ∧ u16 c
    ∧ w = pre ++ be 2 c ++ zeros 10 ++ b ∧ @checksum WireError w = Ok 0.
Proof.
  intros (Hr & Ha & Hb) H. unfold packet_encode in H.
  apply bind_Ok_inv in H as ([k b] & Hbe & H). apply bind_Ok_inv in H as (l & Hl & H).
  unfold try_from, U16_MAX in Hl. destruct (24 + len b <=? 65535) eqn:El; [|done].
  cbn [ok_or] in Hl. apply Ok_inj in Hl as <-. apply bind_Ok_inv in H as (c & Hc & H).
  destruct (packet_body_roundtrip _ _ _ Hb Hbe) as (Hk & Hbo & Hd).
  set (pre := [2; k] ++ be 2 (24 + len b) ++ be 4 (router_id p) ++ be 4 (area p)).
  assert (Hout : [2; k] ++ be 2 (24 + len b) ++ be 4 (router_id p) ++ be 4 (area p) ++ zeros 12 ++ b
    = pre ++ [0; 0] ++ zeros 10 ++ b) by (unfold pre; by rewrite <-!app_assoc).
  rewrite Hout in Hc, H.
  assert (Hok : bytes_ok (pre ++ [0; 0] ++ zeros 10 ++ b)).
  { unfold pre. cbn [be app zeros replicate]. octets; apply byte_of_range. }
  assert (Hlen : len (pre ++ [0; 0] ++ zeros 10 ++ b) = 24 + len b) by (unfold pre; lens).
  pose proof (checksum_u16 _ _ Hok ltac:(unfold MAX_SUMMED; lia) Hc) as Hcu.
  exists k, b, c. cbv zeta. split_wf; try done; try lia.
  - rewrite put_ok in H by lens. apply Ok_inj in H as <-.
    by rewrite take_app_length' by done.
  - rewrite put_ok in H by lens. apply Ok_inj in H as <-.
    rewrite take_app_length' by done. rewrite drop_app_ge by (cbn; lia).
    exact (checksum_insert pre (zeros 10 ++ b) c Hok ltac:(unfold MAX_SUMMED; lia) eq_refl Hc).
Qed.

(** ** Properties *)

(** A packet that [OspfV2Packet::encode] accepts fits the 16-bit length
    field, carries a checksum that verifies, and is read back unchanged by
    [OspfV2Packet::decode], for each of the five bodies. *)
Theorem packet_roundtrip p w :
  packet_ok p → packet_encode p = Ok w →
  packet_decode w = Ok p ∧ bytes_ok w ∧ 24 ≤ len w ≤ 65535 ∧ @checksum WireError w = Ok 0.
Proof.
  intros Hp He. pose proof Hp as (Hr & Ha & _).
  destruct (packet_encode_form p w Hp He) as (k & b & c & _ & Hk & Hb & Hl & Hd & Hc & -> & Hsum).
  assert (Hlen : len (([2; k] ++ be 2 (24 + len b) ++ be 4 (router_id p) ++ be 4 (area p))
    ++ be 2 c ++ zeros 10 ++ b) = 24 + len b) by lens.
  assert (0 ≤ len b) by lens. rewrite Hlen. split_wf; [|  | lia | done].
  - unfold packet_decode. rewrite Hlen, Hsum. destruct (24 + len b <? 24) eqn:E; [lia|].
    cbn [app be zeros replicate]. read. rewrite of_be_2 by lia. rewrite Z.eqb_refl. cbn [negb orb Z.eqb Pos.eqb].
    rewrite slice_ok by lens. cbn [drop take Nat.sub]. rewrite ?bind_Ok.
    rewrite bool_decide_true by done. cbn [negb Z.eqb]. rewrite ?bind_Ok. cbn [Z.eqb negb].
    rewrite slice_from_ok by lens. cbn [drop]. rewrite drop_0, bind_Ok, Hd, ?bind_Ok.
    rewrite Z.eqb_refl, !of_be_4 by lia. by destruct p.
  - cbn [app be zeros replicate]. octets; apply byte_of_range.
Qed.

(** Decoding any octets never panics, and every field of a decoded packet,
    of its headers and of its advertisements is in range. *)
Theorem packet_decode_sound bs :
  bytes_ok bs → safe (packet_decode bs) ∧ ∀ p, packet_decode bs = Ok p → packet_ok p.
Proof.
  intros Hb. split.
  - unfold packet_decode. apply safe_if; intros E; [apply safe_Err|].
    apply safe_bind; [apply safe_idx; lens|]. intros b0 _.
    apply safe_bind; [apply safe_u16_at; lens|]. intros l Hl. apply safe_if; intros E'; [apply safe_Err|].
    assert (u16 l) by ranges.
    apply safe_bind; [apply safe_slice; lens|]. intros auth _. apply safe_if; intros E2; [apply safe_Err|].
    apply safe_bind; [apply checksum_safe; [done|unfold MAX_SUMMED; lia]|]. intros c _.
    apply safe_if; intros E3; [apply safe_Err|].
    apply safe_bind; [apply safe_slice_from; lens|]. intros bd Hbd.
    apply safe_bind; [apply safe_idx; lens|]. intros k _.
    apply safe_bind; [apply packet_body_decode_spec; ranges|]. intros. solve_safe.
  - intros p H. unfold packet_decode in H. inv_ok. unfold packet_ok. cbn. split_wf; [ranges|ranges|].
    eapply packet_body_decode_spec; [|eassumption]. ranges.
Qed.

(** ** Witnesses: an update with one advertisement *)

Definition sample_packet : OspfV2Packet :=
  {| router_id := 0x01010101; area := 0; packet_body := LinkStateUpdate [sample_lsa] |}.
Definition sample_packet_octets : bytes :=
  [2; 4; 0; 64; 1; 1; 1; 1; 0; 0; 0; 0; 145; 28; 0; 0; 0; 0; 0; 0; 0; 0; 0; 0; 0; 0; 0; 1] ++ sample_octets.
Lemma packet_roundtrip_witness :
  packet_ok sample_packet ∧ packet_decode sample_packet_octets = Ok sample_packet.
Proof.
  assert (Hp : packet_ok sample_packet).
  { unfold packet_ok. cbn. split_wf; [lia|lia|]. constructor; [exact sample_lsa_ok|constructor]. }
  assert (He : packet_encode sample_packet = Ok sample_packet_octets) by (vm_compute; reflexivity).
  exact (conj Hp (proj1 (packet_roundtrip _ _ Hp He))).
Defined.
Lemma packet_decode_sound_witness : bytes_ok sample_packet_octets ∧ safe (packet_decode sample_packet_octets).
Proof.
  assert (H : bytes_ok sample_packet_octets) by (repeat constructor; lia).
  exact (conj H (proj1 (packet_decode_sound _ H))).
Defined.
