(* ===== verification/OspfElection.v ===== *)
(** The designated router election of one broadcast network
    ([rios-routing/src/ospf_election.rs]), used by OSPFv2 with interface
    addresses and by OSPFv3 with router identifiers.

    [election_converges] says that neighbours which adopt the outcome agree
    with themselves after two elections, that the designated router found first
    is never displaced, and that a newcomer displaces nobody. *)
From S2P Require Import Prelude Collections Ipv4.

Record OspfElectionCandidate := {
  priority : Z; id : Ipv4Addr; address : Ipv4Addr; dr : Ipv4Addr; bdr : Ipv4Addr }.

Definition rank (c : OspfElectionCandidate) : list Z := [priority c; id c].

Definition ospf_election (candidates : list OspfElectionCandidate) : Ipv4Addr * Ipv4Addr :=
  let eligible := filter (λ c, 0 < priority c) candidates in
  let bdr :=
    match max_by_key rank (filter (λ c, dr c ≠ address c ∧ bdr c = address c) eligible) with
    | Some c => address c
    | None => match max_by_key rank (filter (λ c, dr c ≠ address c) eligible) with
              | Some c => address c
              | None => 0
              end
    end in
  let dr := match max_by_key rank (filter (λ c, dr c = address c) eligible) with
            | Some c => address c
            | None => bdr
            end in
  (dr, bdr).

(** ** Rounds of the election *)

(** A participant announces the outcome in its next Hello. *)
Definition adopt (e : Ipv4Addr * Ipv4Addr) (c : OspfElectionCandidate) : OspfElectionCandidate :=
  {| priority := priority c; id := id c; address := address c; dr := e.1; bdr := e.2 |}.

(** [a] is the identity of an eligible participant. *)
Definition holds (cs : list OspfElectionCandidate) (a : Ipv4Addr) : Prop :=
  ∃ c, c ∈ cs ∧ 0 < priority c ∧ address c = a.

Lemma holds_adopt e cs a : holds (map (adopt e) cs) a ↔ holds cs a.
Proof.
  unfold holds. split.
  - intros (c & (x & -> & Hx)%list_elem_of_fmap & Hp & Ha). by exists x.
  - intros (c & Hc & Hp & Ha). exists (adopt e c). split; [by apply list_elem_of_fmap_2|done].
Qed.

(** The address of the greatest of the candidates with a property. *)
Lemma max_address (P : OspfElectionCandidate → Prop) `{∀ c, Decision (P c)} cs m :
  max_by_key rank (filter P (filter (λ c, 0 < priority c) cs)) = Some m →
  P m ∧ m ∈ cs ∧ 0 < priority m.
Proof. intros [Hm _]%max_by_key_spec. rewrite !list_elem_of_filter in Hm. naive_solver. Qed.
Lemma max_none (P : OspfElectionCandidate → Prop) `{∀ c, Decision (P c)} cs c :
  max_by_key rank (filter P (filter (λ c, 0 < priority c) cs)) = None → c ∈ cs → 0 < priority c → ¬ P c.
Proof.
  intros Hn%max_by_key_None Hc Hp HP. assert (c ∈ @nil OspfElectionCandidate) as Hin; [|by apply not_elem_of_nil in Hin].
  rewrite <-Hn. by rewrite !list_elem_of_filter.
Qed.

(** Participants that agree on [d], who is eligible: [d] stays, whoever else
    takes part without claiming the role. *)
Definition unanimous (e : Ipv4Addr * Ipv4Addr) (cs : list OspfElectionCandidate) : Prop :=
  Forall (λ c, dr c = e.1 ∧ bdr c = e.2 ∨ dr c ≠ address c ∧ bdr c ≠ address c) cs
  ∧ ∃ c, c ∈ cs ∧ 0 < priority c ∧ address c = e.1 ∧ dr c = e.1.

Lemma unanimous_dr e cs : unanimous e cs → (ospf_election cs).1 = e.1.
Proof.
  intros [Hall (c & Hc & Hp & Ha & Hd)]. unfold ospf_election. cbn [fst].
  destruct (max_by_key rank (filter (λ c, dr c = address c) _)) as [m|] eqn:E.
  - apply max_address in E as (Hm & Hin & _). rewrite Forall_forall in Hall.
    destruct (Hall m Hin) as [[? _]|[? _]]; congruence.
  - exfalso. eapply max_none; [exact E|exact Hc|exact Hp|]. congruence.
Qed.
Lemma unanimous_bdr e cs c :
  unanimous e cs → c ∈ cs → 0 < priority c → address c = e.2 → bdr c = e.2 → dr c ≠ address c →
  (ospf_election cs).2 = e.2.
Proof.
  intros [Hall _] Hc Hp Ha Hb Hd. unfold ospf_election. cbn [snd].
  destruct (max_by_key rank (filter (λ c, dr c ≠ address c ∧ bdr c = address c) _)) as [m|] eqn:E.
  - apply max_address in E as ([Hm1 Hm2] & Hin & _). rewrite Forall_forall in Hall.
    destruct (Hall m Hin) as [[_ ?]|[_ ?]]; congruence.
  - exfalso. eapply max_none; [exact E|exact Hc|exact Hp|]. split; congruence.
Qed.
(** Who is elected is eligible, and there is always somebody if anybody is. *)
Lemma election_holds cs a :
  holds cs a →
  holds cs (ospf_election cs).1
  ∧ (holds cs (ospf_election cs).2 ∨ (ospf_election cs).2 = 0 ∧ ∀ c, c ∈ cs → 0 < priority c → dr c = address c).
Proof.
  intros (c & Hc & Hp & _). unfold ospf_election. cbn [fst snd].
  destruct (max_by_key rank (filter (λ c, dr c ≠ address c ∧ bdr c = address c) _)) as [b|] eqn:Eb;
    [|destruct (max_by_key rank (filter (λ c, dr c ≠ address c) _)) as [b|] eqn:En].
  1-2: assert (Hb : holds cs (address b)) by
    (first [apply max_address in Eb as (_ & ? & ?) | apply max_address in En as (_ & ? & ?)]; by exists b);
    (split; [|by left]);
    (destruct (max_by_key rank (filter (λ c, dr c = address c) _)) as [d|] eqn:Ed; [|done]);
    apply max_address in Ed as (_ & ? & ?); by exists d.
  assert (Hall : ∀ c, c ∈ cs → 0 < priority c → dr c = address c).
  { intros x Hx Hpx. destruct (decide (dr x = address x)) as [|Hne]; [done|].
    exfalso. eapply max_none; [exact En|exact Hx|exact Hpx|done]. }
  split; [|by right].
  destruct (max_by_key rank (filter (λ c, dr c = address c) _)) as [d|] eqn:Ed.
  - apply max_address in Ed as (_ & ? & ?). by exists d.
  - exfalso. eapply max_none; [exact Ed|exact Hc|exact Hp|]. by apply Hall.
Qed.
Lemma nobody_elected cs : (∀ a, ¬ holds cs a) → ospf_election cs = (0, 0).
Proof.
  intros H. unfold ospf_election.
  repeat match goal with |- context [max_by_key rank (filter ?P ?l)] =>
    destruct (max_by_key rank (filter P l)) eqn:? end; try done.
  all: exfalso; match goal with E : max_by_key _ _ = Some ?x |- _ =>
    apply max_address in E as (_ & ? & ?); apply (H (address x)); by exists x end.
Qed.

Lemma adopt_unanimous (e : Ipv4Addr * Ipv4Addr) cs : holds cs e.1 → unanimous e (map (adopt e) cs).
Proof.
  intros (c & Hc & Hp & Ha). split.
  - apply Forall_map, Forall_true. intros x. by left.
  - exists (adopt e c). split_and!; try done. by apply list_elem_of_fmap_2.
Qed.
(** One election among participants that adopted [e]. *)
Lemma election_adopted (e : Ipv4Addr * Ipv4Addr) cs :
  holds cs e.1 →
  let e' := ospf_election (map (adopt e) cs) in
  e'.1 = e.1 ∧ (holds cs e.2 → e.2 ≠ e.1 → e'.2 = e.2)
  ∧ ((holds cs e'.2 ∧ e'.2 ≠ e.1) ∨ (e'.2 = 0 ∧ ∀ a, holds cs a → a = e.1)).
Proof.
  intros Hd e'. pose proof (adopt_unanimous e cs Hd) as Hu. pose proof (unanimous_dr _ _ Hu) as H1.
  split; [done|]. split.
  - intros (c & Hc & Hp & Ha) Hne. apply (unanimous_bdr e _ (adopt e c)); try done.
    + by apply list_elem_of_fmap_2.
    + cbn. congruence.
  - unfold e', ospf_election. cbn [snd]. set (cs' := map (adopt e) cs).
    assert (Hin : ∀ m, m ∈ cs' → 0 < priority m → holds cs (address m) ∧ dr m = e.1).
    { intros m Hm Hp. split; [by apply (holds_adopt e); exists m|].
      by apply list_elem_of_fmap in Hm as (x & -> & _). }
    destruct (max_by_key rank (filter (λ c, dr c ≠ address c ∧ bdr c = address c) _)) as [b|] eqn:Eb;
      [|destruct (max_by_key rank (filter (λ c, dr c ≠ address c) _)) as [b|] eqn:En].
    + apply max_address in Eb as ([? _] & Hm & Hp). left. destruct (Hin b Hm Hp). split; [done|congruence].
    + apply max_address in En as (? & Hm & Hp). left. destruct (Hin b Hm Hp). split; [done|congruence].
    + right. split; [done|]. intros a (c & Hc & Hp & Ha).
      destruct (decide (a = e.1)) as [|Hne]; [done|]. exfalso.
      eapply (max_none (λ c, dr c ≠ address c) cs' (adopt e c)); [exact En|by apply list_elem_of_fmap_2|done|].
      cbn. congruence.
Qed.

(** C20: Whatever the participants announce at first, the second election among
    participants that adopt each outcome is final: it keeps the designated
    router of the first, who is eligible whenever anybody is, and finds a
    different eligible backup or, only if there is no other participant, none.
    A newcomer that claims neither role, whatever its priority, changes neither
    holder. *)
Theorem election_converges cs :
  let e1 := ospf_election cs in
  let e2 := ospf_election (map (adopt e1) cs) in
  ospf_election (map (adopt e2) cs) = e2
  ∧ ((∃ a, holds cs a) →
       holds cs e2.1 ∧ e2.1 = e1.1
       ∧ ((holds cs e2.2 ∧ e2.2 ≠ e2.1) ∨ (e2.2 = 0 ∧ ∀ a, holds cs a → a = e2.1))
       ∧ ∀ c, dr c ≠ address c → bdr c ≠ address c →
           (ospf_election (map (adopt e2) cs ++ [c])).1 = e2.1
           ∧ (holds cs e2.2 → e2.2 ≠ e2.1 → (ospf_election (map (adopt e2) cs ++ [c])).2 = e2.2)).
Proof.
  intros e1 e2.
  assert (Hdec : (∃ a, holds cs a) ∨ ∀ a, ¬ holds cs a).
  { destruct (filter (λ c, 0 < priority c) cs) as [|c l] eqn:E.
    - right. intros a (c & Hc & Hp & _). assert (c ∈ @nil OspfElectionCandidate); [|by eapply not_elem_of_nil].
      rewrite <-E. by apply list_elem_of_filter.
    - left. exists (address c), c. assert (Hc : c ∈ filter (λ c, 0 < priority c) cs) by (rewrite E; set_solver).
      apply list_elem_of_filter in Hc as [? ?]. done. }
  destruct Hdec as [[a Ha]|Hno].
  2: { split.
    - assert (e2 = (0, 0)) as -> by (apply nobody_elected; intros a; by rewrite holds_adopt).
      apply nobody_elected. intros a. by rewrite holds_adopt.
    - intros [a Ha]. by destruct (Hno a). }
  destruct (election_holds cs a Ha) as [Hd1 _]. fold e1 in Hd1.
  destruct (election_adopted e1 cs Hd1) as (H21 & _ & H23). fold e2 in H21, H23.
  assert (Hd2 : holds cs e2.1) by by rewrite H21.
  destruct (election_adopted e2 cs Hd2) as (H31 & H32 & H33). split.
  - destruct (ospf_election (map (adopt e2) cs)) as [d3 b3] eqn:E3. cbn [fst snd] in *.
    destruct e2 as [d2 b2] eqn:E2. cbn [fst snd] in *. subst d3. f_equal.
    destruct H23 as [[Hb Hne]|[-> Hone]]; [apply H32; [done|congruence]|].
    destruct H33 as [[Hb Hne]|[-> _]]; [|done]. rewrite (Hone b3 Hb) in Hne. congruence.
  - intros _. split; [done|]. split; [done|]. split; [by rewrite H21|].
    intros c Hc1 Hc2.
    assert (Hu : unanimous e2 (map (adopt e2) cs ++ [c])).
    { destruct (adopt_unanimous e2 cs Hd2) as [Hall (x & Hx & Hrest)]. split.
      - apply Forall_app. split; [done|]. constructor; [by right|constructor].
      - exists x. split; [set_solver|done]. }
    split; [by apply unanimous_dr|]. intros (x & Hx & Hp & Hax) Hne.
    apply (unanimous_bdr e2 _ (adopt e2 x)); try done.
    + apply elem_of_app. left. by apply list_elem_of_fmap_2.
    + cbn. rewrite Hax. by apply not_eq_sym.
Qed.

(** Three routers: the highest priority becomes backup and, when nobody is
    designated yet, is promoted; the next election fills the backup. *)
Example election_example :
  let c p a := {| priority := p; id := a; address := a; dr := 0; bdr := 0 |} in
  let cs := [c 1 10; c 5 20; c 1 30] in
  ospf_election cs = (20, 20) ∧ ospf_election (map (adopt (20, 20)) cs) = (20, 30).
Proof. vm_compute. done. Qed.
