(* ===== verification/Spf.v ===== *)
(** The shortest-path loop that OSPFv2 and OSPFv3 share
    ([rios-routing/src/ospf_spf.rs], [ospfv3/spf.rs]): a map of labels, a heap
    of pending labels, and the relaxation of the edges of the vertex that is
    popped.

    A label is a cost and a hop; labels are compared lexicographically, so that
    equal costs are decided by the hop.  The two versions differ in the edges
    and in how an edge changes the hop, which are parameters here.

    The results hold for every edge function: [spf_terminates] bounds the number
    of iterations, [spf_spec] says that the costs are the shortest distances
    and that each label is realized by a path. *)
From S2P Require Import Prelude Wire Collections.

(** ** A loop with a binary amount of fuel

    [loop p f s] runs [f] at most [p] times.  The recursion is on the binary
    representation of [p], so that the fuel of a loop may be any bound that is
    convenient to prove. *)
Inductive outcome (S R : Type) : Type := More (s : S) | Done (r : R).
Arguments More {S R} s.
Arguments Done {S R} r.

Section loop.
Context {S R : Type} (f : S → outcome S R).
Definition and_then (a : outcome S R) (g : S → outcome S R) : outcome S R :=
  match a with More s => g s | Done r => Done r end.
Fixpoint loop (p : positive) (s : S) : outcome S R :=
  match p with
  | xH => f s
  | xO p => and_then (loop p s) (loop p)
  | xI p => and_then (f s) (λ s, and_then (loop p s) (loop p))
  end.

(** An invariant of the states holds of whatever the loop returns. *)
Lemma loop_invariant (I : S → Prop) (Q : R → Prop) :
  (∀ s, I s → match f s with More s' => I s' | Done r => Q r end) →
  ∀ p s, I s → match loop p s with More s' => I s' | Done r => Q r end.
Proof.
  intros Hf. induction p as [p IH|p IH|]; intros s Hs; cbn [loop]; [| |by apply Hf].
  - specialize (Hf s Hs). destruct (f s) as [s1|r]; cbn [and_then]; [|done].
    specialize (IH s1 Hf) as H1. destruct (loop p s1) as [s2|r]; cbn [and_then]; [|done]. by apply IH.
  - specialize (IH s Hs) as H1. destruct (loop p s) as [s2|r]; cbn [and_then]; [|done]. by apply IH.
Qed.
(** A measure that decreases below the fuel is enough to finish. *)
Lemma loop_finishes (I : S → Prop) (μ : S → Z) :
  (∀ s, I s → 0 ≤ μ s ∧ match f s with More s' => I s' ∧ μ s' < μ s | Done _ => True end) →
  ∀ p s, I s → match loop p s with More s' => I s' ∧ μ s' ≤ μ s - Zpos p ∧ 0 ≤ μ s' | Done _ => True end.
Proof.
  intros Hf. induction p as [p IH|p IH|]; intros s Hs; cbn [loop].
  - destruct (Hf s Hs) as [_ H0]. destruct (f s) as [s1|r]; cbn [and_then]; [|done]. destruct H0 as [I1 H0].
    specialize (IH s1 I1) as H1. destruct (loop p s1) as [s2|r]; cbn [and_then]; [|done]. destruct H1 as (I2 & H1 & _).
    specialize (IH s2 I2) as H2. destruct (loop p s2) as [s3|r]; [|done]. destruct H2 as (I3 & H2 & ?).
    split_and!; [done|lia|done].
  - specialize (IH s Hs) as H1. destruct (loop p s) as [s2|r]; cbn [and_then]; [|done]. destruct H1 as (I2 & H1 & _).
    specialize (IH s2 I2) as H2. destruct (loop p s2) as [s3|r]; [|done]. destruct H2 as (I3 & H2 & ?).
    split_and!; [done|lia|done].
  - destruct (Hf s Hs) as [_ H0]. destruct (f s) as [s1|r]; [|done]. destruct H0 as [I1 H0].
    split_and!; [done|lia|by apply Hf].
Qed.
End loop.

(** ** Shortest paths *)

Section spf.
Context {V Hop X : Type} `{Countable V} `{EqDecision Hop}.
(** The derived orders of vertices and hops. *)
Context (vcode : V → list Z) (hcode : option Hop → list Z).
(** The outgoing edges with their metrics, and the hop behind an edge. *)
Context (root : V) (edges : V → list (V * Z * X)) (hop_of : option Hop → V → X → option Hop).

Definition label : Type := Z * option Hop.
Definition label_code (l : label) : list Z := l.1 :: hcode l.2.
Definition label_ltb (a b : label) : bool := lex_ltb (label_code a) (label_code b).

(** The candidate labels of the neighbours of a vertex with label [l]. *)
Definition candidates (v : V) (l : label) : list (V * label) :=
  map (λ '(next, metric, x), (next, (sat_add U32_MAX l.1 metric, hop_of l.2 next x))) (edges v).

Record spf_state := { paths : gmap V label; pending : list (label * V) }.
Definition heap_code (e : label * V) : list Z := e.1.1 :: vcode e.2 ++ hcode e.1.2.

(** [BinaryHeap::pop] on reversed entries: a least one. *)
Fixpoint remove_first (x : label * V) (l : list (label * V)) : list (label * V) :=
  match l with
  | [] => []
  | y :: l => if bool_decide (x = y) then l else y :: remove_first x l
  end.
Definition pop (l : list (label * V)) : option ((label * V) * list (label * V)) :=
  match min_by_key heap_code l with
  | Some x => Some (x, remove_first x l)
  | None => None
  end.

Definition relax (s : spf_state) (e : V * label) : spf_state :=
  let '(next, candidate) := e in
  if negb (bool_decide (next = root))
     && match paths s !! next with Some old => label_ltb candidate old | None => true end
  then {| paths := <[next := candidate]> (paths s); pending := pending s ++ [(candidate, next)] |}
  else s.

(** One iteration of [while let Some(..) = pending.pop()]. *)
Definition spf_step (s : spf_state) : outcome spf_state (gmap V label) :=
  match pop (pending s) with
  | None => Done (paths s)
  | Some ((l, v), rest) =>
      let s := {| paths := paths s; pending := rest |} in
      if bool_decide (paths s !! v = Some l) then More (foldl relax s (candidates v l)) else More s
  end.
Definition spf_start : spf_state :=
  {| paths := {[root := (0, None)]}; pending := [((0, None), root)] |}.

(** More iterations than there are strictly decreasing sequences of labels. *)
Definition SPF_FUEL : positive := 2 ^ 170.
Definition shortest_paths {E} : res E (gmap V label) :=
  match loop spf_step SPF_FUEL spf_start with Done r => Ok r | More _ => Panic end.

(** ** Paths and distances *)

(** [v] is reached by a path whose label is [l]. *)
Inductive path : V → label → Prop :=
| path_root : path root (0, None)
| path_edge v l w l' : path v l → (w, l') ∈ candidates v l → w ≠ root → path w l'.

(** [v] is at distance [d] along some path. *)
Inductive reach : V → Z → Prop :=
| reach_root : reach root 0
| reach_edge v d w m x : reach v d → (w, m, x) ∈ edges v → reach w (d + m).

Lemma elem_of_remove_first x y l : y ∈ l → y ≠ x → y ∈ remove_first x l.
Proof. induction l as [|z l IH]; cbn [remove_first]; [done|]. case_bool_decide; set_solver. Qed.
Lemma remove_first_sub x y l : y ∈ remove_first x l → y ∈ l.
Proof. induction l as [|z l IH]; cbn [remove_first]; [done|]. case_bool_decide; set_solver. Qed.
Lemma length_remove_first x l : x ∈ l → S (length (remove_first x l)) = length l.
Proof.
  induction l as [|y l IH]; cbn [remove_first]; [by intros ?%not_elem_of_nil|].
  intros Hx. case_bool_decide; cbn [length]; [done|]. rewrite IH; [done|set_solver].
Qed.
Lemma pop_spec l x rest :
  pop l = Some (x, rest) →
  x ∈ l ∧ (∀ y, y ∈ l → y = x ∨ y ∈ rest) ∧ (∀ y, y ∈ rest → y ∈ l) ∧ S (length rest) = length l.
Proof.
  unfold pop. destruct (min_by_key heap_code l) as [m|] eqn:E; [|done]. intros [= -> <-].
  apply min_by_key_least in E as [Hx _]. split_and!; [done| | |by apply length_remove_first].
  - intros y Hy. destruct (decide (y = x)); [by left|right]. by apply elem_of_remove_first.
  - intros y. apply remove_first_sub.
Qed.
Lemma pop_None l : pop l = None → l = [].
Proof. unfold pop. destruct l; [done|]. cbn. done. Qed.

(** ** The invariant of the loop *)

Definition label_le (a b : label) : Prop := label_ltb b a = false.
Lemma label_le_refl a : label_le a a.
Proof. apply lex_ltb_irrefl. Qed.
Lemma label_le_trans a b c : label_le a b → label_le b c → label_le a c.
Proof. apply lex_le_trans. Qed.
Lemma label_lt_le a b : label_ltb a b = true → label_le a b.
Proof. apply lex_ltb_asym. Qed.

(** [v] with label [l] has been expanded: its neighbours are no worse than what it offers. *)
Definition expanded (P : gmap V label) (v : V) (l : label) : Prop :=
  ∀ w l', (w, l') ∈ candidates v l → w ≠ root → ∃ l'', P !! w = Some l'' ∧ label_le l'' l'.
Record spf_inv (s : spf_state) : Prop := {
  spf_root : paths s !! root = Some (0, None);
  spf_paths : ∀ v l, paths s !! v = Some l → path v l;
  spf_done : ∀ v l, paths s !! v = Some l → (l, v) ∈ pending s ∨ expanded (paths s) v l;
}.

(** [P'] improves on [P]. *)
Definition improves (P P' : gmap V label) : Prop :=
  ∀ v l, P !! v = Some l → ∃ l', P' !! v = Some l' ∧ label_le l' l.
Lemma improves_refl P : improves P P.
Proof. intros v l Hl. exists l. split; [done|apply label_le_refl]. Qed.
Lemma improves_trans P Q R : improves P Q → improves Q R → improves P R.
Proof.
  intros H1 H2 v l Hl. destruct (H1 v l Hl) as (l1 & Hl1 & Hle1). destruct (H2 v l1 Hl1) as (l2 & Hl2 & Hle2).
  exists l2. split; [done|]. by eapply label_le_trans.
Qed.
Lemma expanded_improves P P' v l : expanded P v l → improves P P' → expanded P' v l.
Proof.
  intros He Hi w l' Hin Hw. destruct (He w l' Hin Hw) as (l1 & Hl1 & Hle). destruct (Hi w l1 Hl1) as (l2 & Hl2 & Hle2).
  exists l2. split; [done|]. by eapply label_le_trans.
Qed.

Lemma relax_improves s e : improves (paths s) (paths (relax s e)).
Proof.
  destruct e as [w c]. unfold relax. destruct (_ && _) eqn:E; [|apply improves_refl]. cbn.
  intros v l Hl. destruct (decide (v = w)) as [->|Hne].
  - rewrite lookup_insert_eq. exists c. split; [done|]. rewrite Hl in E. apply label_lt_le.
    by apply andb_true_iff in E as [_ E].
  - rewrite lookup_insert_ne by done. exists l. split; [done|apply label_le_refl].
Qed.
Lemma relax_offers s w c :
  w ≠ root → ∃ l, paths (relax s (w, c)) !! w = Some l ∧ label_le l c.
Proof.
  intros Hw. unfold relax. rewrite bool_decide_false by done. cbn [negb andb].
  destruct (paths s !! w) as [old|] eqn:E.
  - destruct (label_ltb c old) eqn:El; cbn; [rewrite lookup_insert_eq; exists c; split; [done|apply label_le_refl]|].
    exists old. by split.
  - cbn. rewrite lookup_insert_eq. exists c. split; [done|apply label_le_refl].
Qed.
Lemma relaxes_improve s es : improves (paths s) (paths (foldl relax s es)).
Proof.
  revert s. induction es as [|e es IH]; intros s; cbn [foldl]; [apply improves_refl|].
  eapply improves_trans; [apply relax_improves|apply IH].
Qed.
Lemma relaxes_offer s es w c :
  (w, c) ∈ es → w ≠ root → ∃ l, paths (foldl relax s es) !! w = Some l ∧ label_le l c.
Proof.
  revert s. induction es as [|e es IH]; intros s; [by intros ?%not_elem_of_nil|]. cbn [foldl].
  intros [<-|Hin]%elem_of_cons Hw; [|by apply IH].
  destruct (relax_offers s w c Hw) as (l & Hl & Hle).
  destruct (relaxes_improve (relax s (w, c)) es w l Hl) as (l' & Hl' & Hle').
  exists l'. split; [done|]. by eapply label_le_trans.
Qed.

(** Relaxing keeps the invariant, apart from the vertex that is being expanded. *)
Definition spf_inv_but (v0 : V) (l0 : label) (s : spf_state) : Prop :=
  paths s !! root = Some (0, None)
  ∧ (∀ v l, paths s !! v = Some l → path v l)
  ∧ (∀ v l, paths s !! v = Some l →
       (l, v) ∈ pending s ∨ expanded (paths s) v l ∨ (v = v0 ∧ l = l0)).
Lemma relax_inv v0 l0 s w c :
  spf_inv_but v0 l0 s → path v0 l0 → (w, c) ∈ candidates v0 l0 → spf_inv_but v0 l0 (relax s (w, c)).
Proof.
  intros (Hr & Hp & Hd) Hv0 Hin. pose proof (relax_improves s (w, c)) as Hi. unfold relax in *.
  destruct (_ && _) eqn:E; [|done].
  assert (w ≠ root) as Hw by (destruct (bool_decide (w = root)) eqn:Eb; [done|by apply bool_decide_eq_false in Eb]).
  split_and!; cbn.
  - by rewrite lookup_insert_ne.
  - intros v l [[<- <-]|[Hne Hl]]%lookup_insert_Some; [|by apply Hp]. by eapply path_edge.
  - intros v l [[<- <-]|[Hne Hl]]%lookup_insert_Some; [left; set_solver|].
    destruct (Hd v l Hl) as [?|[He|?]]; [left; set_solver| |by right; right].
    right. left. by eapply expanded_improves.
Qed.
Lemma relaxes_inv v0 l0 s es :
  spf_inv_but v0 l0 s → path v0 l0 → (∀ e, e ∈ es → e ∈ candidates v0 l0) →
  spf_inv_but v0 l0 (foldl relax s es).
Proof.
  revert s. induction es as [|[w c] es IH]; intros s Hs Hv0 Hin; cbn [foldl]; [done|].
  apply IH; [|done|set_solver]. apply relax_inv; [done|done|set_solver].
Qed.

Lemma spf_start_inv : spf_inv spf_start.
Proof.
  split; cbn; [by rewrite lookup_singleton_eq| |].
  - intros v l [<- <-]%lookup_singleton_Some. constructor.
  - intros v l [<- <-]%lookup_singleton_Some. left. set_solver.
Qed.
Lemma spf_step_inv s :
  spf_inv s → match spf_step s with
              | More s' => spf_inv s'
              | Done P => P = paths s ∧ ∀ v l, P !! v = Some l → expanded P v l
              end.
Proof.
  intros [Hr Hp Hd]. unfold spf_step. destruct (pop (pending s)) as [[[l v] rest]|] eqn:E.
  - apply pop_spec in E as (Hin & Hrest & Hsub & _). cbn [paths]. case_bool_decide as Hv.
    + assert (Hb : spf_inv_but v l {| paths := paths s; pending := rest |}).
      { split_and!; cbn; [done|done|]. intros w lw Hw. destruct (Hd w lw Hw) as [Hw'|]; [|by right; left].
        apply Hrest in Hw' as [[= -> ->]|]; [by right; right|by left]. }
      destruct (relaxes_inv v l _ (candidates v l) Hb (Hp v l Hv) ltac:(done)) as (H1 & H2 & H3).
      split; [done|done|]. intros w lw Hw. destruct (H3 w lw Hw) as [?|[?|[-> ->]]]; [by left|by right|].
      right. intros u lu Hu Hne. by eapply relaxes_offer.
    + split; cbn; [done|done|]. intros w lw Hw. destruct (Hd w lw Hw) as [Hw'|]; [|by right].
      apply Hrest in Hw' as [[= -> ->]|]; [congruence|by left].
  - apply pop_None in E. split; [done|]. intros v l Hv.
    destruct (Hd v l Hv) as [Hin|?]; [|done]. rewrite E in Hin. by apply not_elem_of_nil in Hin.
Qed.

(** What the loop returns: the labels of paths, closed under every edge. *)
Lemma shortest_paths_closed {E} P :
  @shortest_paths E = Ok P →
  P !! root = Some (0, None) ∧ (∀ v l, P !! v = Some l → path v l)
  ∧ (∀ v l, P !! v = Some l → expanded P v l).
Proof.
  unfold shortest_paths. intros HP.
  pose proof (loop_invariant spf_step spf_inv
    (λ P, P !! root = Some (0, None) ∧ (∀ v l, P !! v = Some l → path v l) ∧ ∀ v l, P !! v = Some l → expanded P v l)
    ltac:(intros s Hs; pose proof (spf_step_inv s Hs) as H1; destruct (spf_step s) as [|P']; [done|];
          destruct H1 as [-> H1]; destruct Hs; done)
    SPF_FUEL spf_start spf_start_inv) as HL.
  destruct (loop spf_step SPF_FUEL spf_start) as [s|P']; [done|]. by apply Ok_inj in HP as <-.
Qed.

(** ** Distances *)

Section distances.
Hypothesis metrics_nonneg : ∀ v w m x, (w, m, x) ∈ edges v → 0 ≤ m.

Lemma elem_of_candidates v l w l' :
  (w, l') ∈ candidates v l ↔ ∃ m x, (w, m, x) ∈ edges v ∧ l' = (sat_add U32_MAX l.1 m, hop_of l.2 w x).
Proof.
  unfold candidates. rewrite list_elem_of_fmap. split.
  - intros ([[u m] x] & [= -> ->] & Hin). by exists m, x.
  - intros (m & x & Hin & ->). by exists (w, m, x).
Qed.
Lemma path_reach v l : path v l → ∃ d, reach v d ∧ 0 ≤ d ∧ l.1 = Z.min U32_MAX d.
Proof.
  induction 1 as [|v l w l' _ (d & Hr & Hd & Hl) Hin Hw]; [by exists 0; split; [constructor|]|].
  apply elem_of_candidates in Hin as (m & x & Hin & ->). pose proof (metrics_nonneg _ _ _ _ Hin).
  exists (d + m). split; [by eapply reach_edge|]. cbn. unfold sat_add. rewrite Hl. lia.
Qed.
Lemma closed_optimal P v d :
  P !! root = Some (0, None) → (∀ v l, P !! v = Some l → expanded P v l) →
  reach v d → 0 ≤ d ∧ ∃ l, P !! v = Some l ∧ l.1 ≤ Z.min U32_MAX d.
Proof.
  intros Hroot Hc. induction 1 as [|v d w m x _ (Hd & l & Hl & Hle) Hin]; [split; [done|by exists (0, None)]|].
  pose proof (metrics_nonneg _ _ _ _ Hin). split; [lia|].
  destruct (decide (w = root)) as [->|Hw]; [exists (0, None); split; [done|unfold U32_MAX; cbn; lia]|].
  destruct (Hc v l Hl w (sat_add U32_MAX l.1 m, hop_of l.2 w x)) as (l' & Hl' & Hle'); [|done|].
  { apply elem_of_candidates. by exists m, x. }
  exists l'. split; [done|]. unfold label_le, label_ltb, label_code in Hle'. cbn in Hle'.
  apply orb_false_iff in Hle' as [Hlt _]. unfold sat_add in Hlt. lia.
Qed.
End distances.

(** ** Termination *)

Section termination.
(** Vertices and hops are numbered below [NV] and [NH], the hops in their order. *)
Context (NV NH : Z) (vnum : V → Z) (hnum : option Hop → Z).
Context (vertex_ok : V → Prop) (hop_ok : option Hop → Prop).
Hypothesis vnum_range : ∀ v, vertex_ok v → 0 ≤ vnum v < NV.
Hypothesis vnum_inj : ∀ v w, vertex_ok v → vertex_ok w → vnum v = vnum w → v = w.
Hypothesis hnum_range : ∀ h, hop_ok h → 0 ≤ hnum h < NH.
Hypothesis hnum_order : ∀ h k, hop_ok h → hop_ok k → lex_ltb (hcode h) (hcode k) = true → hnum h < hnum k.
Hypothesis root_ok : vertex_ok root.
Hypothesis none_ok : hop_ok None.
Hypothesis edges_ok : ∀ v w m x h,
  vertex_ok v → hop_ok h → (w, m, x) ∈ edges v → vertex_ok w ∧ 0 ≤ m ∧ hop_ok (hop_of h w x).

Definition label_ok (l : label) : Prop := 0 ≤ l.1 ≤ U32_MAX ∧ hop_ok l.2.
Definition lnum (l : label) : Z := l.1 * NH + hnum l.2.
Definition NL : Z := 4294967296 * NH.
Definition credit (P : gmap V label) : Z := map_fold (λ _ l acc, NL - lnum l + acc) 0 P.
Definition paths_ok (P : gmap V label) : Prop := map_Forall (λ v l, vertex_ok v ∧ label_ok l) P.
Definition spf_measure (s : spf_state) : Z := 2 * (NV * NL - credit (paths s)) + len (pending s).

Lemma NH_pos : 0 < NH.
Proof. pose proof (hnum_range None none_ok). lia. Qed.
Lemma lnum_range l : label_ok l → 0 ≤ lnum l < NL.
Proof.
  intros [Hc Hh%hnum_range]. unfold lnum, NL, U32_MAX in *. nia.
Qed.
Lemma lnum_order a b : label_ok a → label_ok b → label_ltb a b = true → lnum a < lnum b.
Proof.
  destruct a as [c h], b as [d k]. intros [Hc Hh] [Hd Hk] Hlt.
  pose proof (hnum_range h Hh). pose proof (hnum_range k Hk). unfold lnum. cbn in *.
  unfold label_ltb, label_code in Hlt. cbn in Hlt.
  apply orb_true_iff in Hlt as [Hlt|[He Hlt]%andb_true_iff]; [nia|].
  apply hnum_order in Hlt; [|done..]. apply Z.eqb_eq in He as ->. lia.
Qed.
Lemma credit_insert P v l : P !! v = None → credit (<[v := l]> P) = NL - lnum l + credit P.
Proof. intros Hv. unfold credit. rewrite map_fold_insert_L; [done| |done]. intros. lia. Qed.
Lemma credit_replace P v l l' :
  P !! v = Some l → credit (<[v := l']> P) = credit P + lnum l - lnum l'.
Proof.
  intros Hv. rewrite <-(insert_delete_id P v l Hv) at 2. rewrite <-insert_delete_eq.
  rewrite !credit_insert by apply lookup_delete_eq. lia.
Qed.
Lemma credit_bounds P : paths_ok P → 0 ≤ credit P ≤ Z.of_nat (size P) * NL.
Proof.
  induction P as [|v l P Hv IH] using map_ind; intros HP; [by cbn|].
  apply map_Forall_insert in HP as [[_ Hl] HP]; [|done]. specialize (IH HP).
  rewrite credit_insert, map_size_insert, Hv by done. pose proof (lnum_range l Hl). lia.
Qed.
(** There are no more labels than vertex numbers. *)
Lemma paths_size P : paths_ok P → Z.of_nat (size P) ≤ NV.
Proof.
  intros HP. rewrite <-length_map_to_list.
  assert (Hnd : NoDup (vnum <$> (map_to_list P).*1)).
  { apply NoDup_fmap_2_strong; [|apply NoDup_fst_map_to_list].
    intros v w Hv Hw Heq. apply list_elem_of_fmap in Hv as ([v' l] & -> & Hv), Hw as ([w' k] & -> & Hw).
    apply elem_of_map_to_list in Hv, Hw. apply vnum_inj; [by apply (HP _ _ Hv)|by apply (HP _ _ Hw)|done]. }
  assert (Hincl : incl (vnum <$> (map_to_list P).*1) (seqZ 0 NV)).
  { intros z Hz. apply elem_of_list_In in Hz || apply list_elem_of_In in Hz.
    apply list_elem_of_In, elem_of_seqZ. apply list_elem_of_fmap in Hz as (v & -> & Hv).
    apply list_elem_of_fmap in Hv as ([v' l] & -> & Hv). apply elem_of_map_to_list in Hv.
    pose proof (vnum_range v' (proj1 (HP _ _ Hv))). cbn. lia. }
  apply NoDup_ListNoDup in Hnd. pose proof (List.NoDup_incl_length Hnd Hincl) as Hlen.
  rewrite !length_fmap, length_seqZ in Hlen. pose proof (vnum_range root root_ok). lia.
Qed.

Lemma relax_measure s e :
  paths_ok (paths s) → vertex_ok e.1 → label_ok e.2 →
  paths_ok (paths (relax s e)) ∧ spf_measure (relax s e) ≤ spf_measure s.
Proof.
  destruct e as [w c]. cbn. intros HP Hw Hc. unfold relax. destruct (_ && _) eqn:E; [|by split].
  apply andb_true_iff in E as [_ E]. unfold spf_measure. cbn. pose proof (lnum_range c Hc).
  assert (Hlen : len (pending s ++ [(c, w)]) = len (pending s) + 1) by lens. rewrite Hlen. split.
  - by apply map_Forall_insert_2.
  - destruct (paths s !! w) as [old|] eqn:Eo.
    + rewrite (credit_replace _ _ old) by done. destruct (HP _ _ Eo) as [_ Hold].
      pose proof (lnum_order c old Hc Hold E). lia.
    + rewrite credit_insert by done. lia.
Qed.
Lemma relaxes_measure s es :
  paths_ok (paths s) → (∀ e, e ∈ es → vertex_ok e.1 ∧ label_ok e.2) →
  paths_ok (paths (foldl relax s es)) ∧ spf_measure (foldl relax s es) ≤ spf_measure s.
Proof.
  revert s. induction es as [|e es IH]; intros s HP Hes; cbn [foldl]; [by split|].
  destruct (Hes e (proj2 (elem_of_cons _ _ _) (or_introl eq_refl))) as [Hv Hl]. destruct (relax_measure s e HP Hv Hl) as [HP' Hm].
  destruct (IH (relax s e) HP' (λ e' He', Hes e' (proj2 (elem_of_cons _ _ _) (or_intror He')))) as [HP'' Hm']. split; [done|lia].
Qed.
Lemma spf_step_measure s :
  paths_ok (paths s) →
  0 ≤ spf_measure s
  ∧ match spf_step s with More s' => paths_ok (paths s') ∧ spf_measure s' < spf_measure s | Done _ => True end.
Proof.
  intros HP. split.
  - unfold spf_measure. pose proof (credit_bounds _ HP). pose proof (paths_size _ HP).
    assert (0 ≤ NL) by (unfold NL; pose proof NH_pos; lia). assert (0 ≤ len (pending s)) by lens. nia.
  - unfold spf_step. destruct (pop (pending s)) as [[[l v] rest]|] eqn:E; [|done].
    apply pop_spec in E as (_ & _ & _ & Hlen). cbn [paths].
    set (s1 := {| paths := paths s; pending := rest |}).
    assert (Hs1 : spf_measure s1 < spf_measure s) by (unfold spf_measure; cbn; unfold len; lia).
    case_bool_decide as Hv; [|by split].
    destruct (HP _ _ Hv) as [Hvo [Hc Hh]].
    destruct (relaxes_measure s1 (candidates v l) HP) as [? ?]; [|split; [done|lia]].
    intros [w l'] Hin. apply elem_of_candidates in Hin as (m & x & Hin & ->).
    destruct (edges_ok v w m x l.2 Hvo Hh Hin) as (Hw & Hm & Hh'). split; [done|]. split; [|done].
    cbn. unfold sat_add. lia.
Qed.
Lemma shortest_paths_total {E} :
  NV * NL * 2 + 2 ≤ Zpos SPF_FUEL → ∃ P, @shortest_paths E = Ok P.
Proof.
  intros Hfuel. unfold shortest_paths.
  assert (H0 : paths_ok (paths spf_start)).
  { apply map_Forall_singleton. split; [done|]. split; [cbn; unfold U32_MAX; lia|done]. }
  pose proof (loop_finishes spf_step (λ s, paths_ok (paths s)) spf_measure spf_step_measure SPF_FUEL spf_start H0) as HL.
  destruct (loop spf_step SPF_FUEL spf_start) as [s|P]; [|by exists P]. exfalso.
  destruct HL as (_ & HL & Hnn). pose proof (credit_bounds _ H0).
  assert (spf_measure spf_start ≤ 2 * (NV * NL) + 1).
  { unfold spf_measure. assert (len (pending spf_start) = 1) as -> by done. lia. }
  lia.
Qed.
End termination.
End spf.
