(* ===== verification/OspfSpf.v ===== *)
(** OSPFv2 route calculation ([rios-routing/src/ospf_spf.rs]): the graph of
    router and network advertisements, the shortest-path tree (through [Spf]),
    and the prefixes of stubs, networks, summaries and external advertisements.

    [ospf_calculate_total] and [ospf_distances] are about the tree,
    [intra_routes_best] about the routing table built from it. *)
From S2P Require Import Prelude Wire Collections Ipv4 OspfLsa OspfAdvertisement Spf.

Inductive Vertex := VRouter (id : Ipv4Addr) | VNetwork (id : Ipv4Addr).
#[export] Instance Vertex_eq_dec : EqDecision Vertex.
Proof. solve_decision. Defined.
#[export] Instance Vertex_countable : Countable Vertex.
Proof.
  refine (inj_countable' (λ v, match v with VRouter i => inl i | VNetwork i => inr i end)
            (λ x, match x with inl i => VRouter i | inr i => VNetwork i end) _). by intros [].
Defined.
#[export] Instance Ipv4Network_countable : Countable Ipv4Network.
Proof.
  refine (inj_countable' (λ n, (network n, network_len n))
            (λ '(a, l), {| network := a; network_len := l |}) _). by intros [].
Defined.
(** The derived orders. *)
Definition vertex_code (v : Vertex) : list Z := match v with VRouter i => [0; i] | VNetwork i => [1; i] end.
Definition hop_code (h : option Ipv4Addr) : list Z := match h with None => [0] | Some i => [1; i] end.
Definition network_code (n : Ipv4Network) : list Z := [network n; network_len n].

Record OspfSpfRoute := {
  route_prefix : Ipv4Network; route_metric : Z; internal_cost : Z; first_hop : Ipv4Addr;
  origin : Ipv4Addr; route_source : RouteSource }.

(** [fn prefix]. *)
Definition prefix (address mask : Ipv4Addr) : option Ipv4Network :=
  match ok (from_mask address mask) with
  | Some ip => ok (network_new address (prefix_len ip))
  | None => None
  end.
Definition source_rank (s : RouteSource) : Z :=
  match s with OspfIntra => 0 | OspfInterArea => 1 | OspfExternal1 => 2 | _ => 3 end.
Definition preference (r : OspfSpfRoute) : list Z :=
  [source_rank (route_source r); route_metric r; internal_cost r; origin r; first_hop r].

Abbreviation Routes := (gmap Ipv4Network OspfSpfRoute).
Definition install (routes : Routes) (route : OspfSpfRoute) : Routes :=
  if (route_metric route <? 0x00ffffff)
     && match routes !! route_prefix route with
        | Some old => lex_ltb (preference route) (preference old)
        | None => true
        end
  then <[route_prefix route := route]> routes else routes.

Record OspfAsbrPath := { asbr_metric : Z; asbr_first_hop : Ipv4Addr; inter_area : bool }.
Record OspfSpfResult := { routes : Routes; asbrs : gmap Ipv4Addr OspfAsbrPath }.

(** ** The graph *)

Abbreviation Routers := (gmap Ipv4Addr (Z * list RouterLink)).
Abbreviation Networks := (gmap Ipv4Addr (Ipv4Addr * list Ipv4Addr * Ipv4Addr)).

Definition routers_of (lsas : list Lsa) : Routers :=
  collect (omap (λ lsa, match body lsa with
                        | Router flags links => Some (advertising_router lsa, (flags, links))
                        | _ => None
                        end) lsas).
Definition networks_of (lsas : list Lsa) : Networks :=
  collect (omap (λ lsa, match body lsa with
                        | Network mask rs => Some (link_state_id lsa, (mask, rs, advertising_router lsa))
                        | _ => None
                        end) lsas).

Section graph.
Context (self_id : Ipv4Addr) (routers : Routers) (networks : Networks).

(** [routers.get(id).is_some_and(|(_, links)| links.iter().any(..))]. *)
Definition links_back (id : Ipv4Addr) (kind : RouterLinkType) (to : Ipv4Addr) : bool :=
  match routers !! id with
  | Some (_, links) =>
      existsb (λ back, bool_decide (link_kind back = kind) && (link_id back =? to)) links
  | None => false
  end.
Definition is_member (net id : Ipv4Addr) : bool :=
  match networks !! net with Some (_, members, _) => bool_decide (id ∈ members) | None => false end.

Definition link_edge (id : Ipv4Addr) (link : RouterLink) : option (Vertex * Z * unit) :=
  match link_kind link with
  | PointToPoint =>
      if links_back (link_id link) PointToPoint id
      then Some (VRouter (link_id link), link_metric link, ()) else None
  | Transit =>
      if is_member (link_id link) id
      then Some (VNetwork (link_id link), link_metric link, ()) else None
  | _ => None
  end.
Definition edges (v : Vertex) : list (Vertex * Z * unit) :=
  match v with
  | VRouter id =>
      match routers !! id with Some (_, links) => omap (link_edge id) links | None => [] end
  | VNetwork id =>
      match networks !! id with
      | Some (_, members, _) =>
          omap (λ member, if links_back member Transit id then Some (VRouter member, 0, ()) else None) members
      | None => []
      end
  end.
(** [hop.or(match next { .. })]. *)
Definition hop_of (hop : option Ipv4Addr) (next : Vertex) (_ : unit) : option Ipv4Addr :=
  match hop with
  | Some h => Some h
  | None => match next with
            | VRouter id => if negb (id =? self_id) then Some id else None
            | VNetwork _ => None
            end
  end.
Definition spf_paths : res WireError (gmap Vertex (label (Hop := Ipv4Addr))) :=
  shortest_paths vertex_code hop_code (VRouter self_id) edges hop_of.

(** ** Prefixes of the tree *)

Abbreviation Paths := (gmap Vertex (label (Hop := Ipv4Addr))).
Definition stub_route (id : Ipv4Addr) (cost : Z) (hop : option Ipv4Addr) (link : RouterLink) : option OspfSpfRoute :=
  match link_kind link, prefix (link_id link) (link_data link) with
  | Stub, Some p =>
      Some {| route_prefix := p; route_metric := sat_add U32_MAX cost (link_metric link);
              internal_cost := cost; first_hop := default self_id hop; origin := id;
              route_source := OspfIntra |}
  | _, _ => None
  end.
Definition vertex_routes (e : Vertex * label (Hop := Ipv4Addr)) : list OspfSpfRoute :=
  let '(vertex, (cost, hop)) := e in
  match vertex with
  | VRouter id =>
      match routers !! id with Some (_, links) => omap (stub_route id cost hop) links | None => [] end
  | VNetwork id =>
      match networks !! id with
      | Some (mask, _, origin) =>
          match prefix id mask with
          | Some p => [{| route_prefix := p; route_metric := cost; internal_cost := cost;
                          first_hop := default self_id hop; origin := origin; route_source := OspfIntra |}]
          | None => []
          end
      | None => []
      end
  end.
Definition intra_offers (paths : Paths) : list OspfSpfRoute :=
  concat (map vertex_routes (entries vertex_code paths)).

(** ** Summaries and external advertisements, in the order of their keys *)

Definition has_flag (id : Ipv4Addr) (bit : Z) : bool :=
  match routers !! id with Some (flags, _) => negb (Z.land flags bit =? 0) | None => false end.

(** [min] of two tuples. *)
Definition min_pair (a b : Z * Ipv4Addr) : Z * Ipv4Addr :=
  if lex_ltb [b.1; b.2] [a.1; a.2] then b else a.
Definition asbr_step (paths : Paths) (m : gmap Ipv4Addr (Z * Ipv4Addr)) (lsa : Lsa)
    : gmap Ipv4Addr (Z * Ipv4Addr) :=
  match body lsa with
  | AsbrSummary metric =>
      if negb (advertising_router lsa =? self_id) && (metric <? 0x00ffffff)
         && has_flag (advertising_router lsa) 1
      then
        match paths !! VRouter (advertising_router lsa) with
        | Some (cost, Some hop) =>
            let candidate := (sat_add U32_MAX cost metric, hop) in
            <[link_state_id lsa := min_pair (default candidate (m !! link_state_id lsa)) candidate]> m
        | _ => m
        end
      else m
  | _ => m
  end.

(** [matches!(source, RouteSource::Ospf | RouteSource::OspfInterArea)]. *)
Definition is_internal (s : RouteSource) : bool :=
  match s with OspfIntra | OspfInterArea => true | _ => false end.
(** The most specific intra- or inter-area route to a forwarding address. *)
Definition forwarding_route (rs : Routes) (address : Ipv4Addr) : option OspfSpfRoute :=
  max_by_key (λ r, [network_len (route_prefix r)])
    (filter (λ r, is_internal (route_source r) && contains (route_prefix r) address = true)
       (entries network_code rs).*2).

Definition advertised_route (paths : Paths) (asbr_paths : gmap Ipv4Addr (Z * Ipv4Addr)) (rs : Routes) (lsa : Lsa)
    : option OspfSpfRoute :=
  if advertising_router lsa =? self_id then None
  else
    let path := match paths !! VRouter (advertising_router lsa) with
                | Some (cost, Some hop) => Some (cost, hop)
                | _ => None
                end in
    let path := match body lsa with
                | External _ _ _ _ _ =>
                    match (if has_flag (advertising_router lsa) 2 then path else None) with
                    | Some p => Some p
                    | None => asbr_paths !! advertising_router lsa
                    end
                | _ => path
                end in
    '(cost, hop) ← path;
    '(mask, metric, source, first_hop, internal) ←
      match body lsa with
      | Summary mask metric =>
          if has_flag (advertising_router lsa) 1
          then Some (mask, sat_add U32_MAX cost metric, OspfInterArea, hop, cost) else None
      | External mask metric type_two forwarding_address _ =>
          '(internal, hop) ← (if forwarding_address =? 0 then Some (cost, hop)
                              else match forwarding_route rs forwarding_address with
                                   | Some r => Some (route_metric r, first_hop r)
                                   | None => None
                                   end);
          Some (mask, if type_two then metric else sat_add U32_MAX internal metric,
                if type_two then OspfExternal2 else OspfExternal1, hop, internal)
      | _ => None
      end;
    match prefix (link_state_id lsa) mask with
    | Some p => Some {| route_prefix := p; route_metric := metric; internal_cost := internal;
                        first_hop := first_hop; origin := advertising_router lsa; route_source := source |}
    | None => None
    end.
Definition advertise (paths : Paths) (asbr_paths : gmap Ipv4Addr (Z * Ipv4Addr)) (rs : Routes) (lsa : Lsa) : Routes :=
  match advertised_route paths asbr_paths rs lsa with Some r => install rs r | None => rs end.

Definition asbr_result (paths : Paths) (asbr_paths : gmap Ipv4Addr (Z * Ipv4Addr)) : gmap Ipv4Addr OspfAsbrPath :=
  foldl (λ m e, if negb (Z.land e.2.1 2 =? 0) then
                  match paths !! VRouter e.1 with
                  | Some (metric, hop) =>
                      <[e.1 := {| asbr_metric := metric; asbr_first_hop := default self_id hop; inter_area := false |}]> m
                  | None => m
                  end
                else m)
    ((λ p, {| asbr_metric := p.1; asbr_first_hop := p.2; inter_area := true |}) <$> asbr_paths)
    (entries (λ i, [i]) routers).
End graph.

(** [lsas.filter(|lsa| lsa.age < LSA_MAX_AGE)]. *)
Definition live (lsas : list Lsa) : list Lsa := filter (λ lsa, age lsa < LSA_MAX_AGE) lsas.

Definition ospf_calculate (self_id : Ipv4Addr) (lsas : list Lsa) : res WireError OspfSpfResult :=
  let lsas := live lsas in
  let routers := routers_of lsas in
  let networks := networks_of lsas in
  paths ← spf_paths self_id routers networks;
  let rs := foldl install ∅ (intra_offers self_id routers networks paths) in
  let ordered := sort_by_key (λ lsa, key_code (lsa_key lsa)) lsas in
  let asbr_paths := foldl (asbr_step self_id routers paths) ∅ ordered in
  let rs := foldl (advertise self_id routers paths asbr_paths) rs ordered in
  Ok {| routes := rs; asbrs := asbr_result self_id routers paths asbr_paths |}.

Definition ospf_spf (self_id : Ipv4Addr) (lsas : list Lsa) : res WireError Routes :=
  r ← ospf_calculate self_id lsas; Ok (routes r).

(** ** Helper lemmas: the graph *)

Definition routers_ok (routers : Routers) : Prop :=
  map_Forall (λ id e, u32 id ∧ Forall link_ok e.2) routers.
Definition networks_ok (networks : Networks) : Prop :=
  map_Forall (λ id e, u32 id ∧ Forall (λ m, u32 m) e.1.2) networks.

Lemma routers_of_ok lsas : Forall lsa_ok lsas → routers_ok (routers_of lsas).
Proof.
  intros Hl id [flags links] H%collect_lookup. apply list_elem_of_omap in H as (l & Hin & H).
  rewrite Forall_forall in Hl. destruct (Hl l Hin) as (_ & _ & _ & Hr & _ & Hb).
  destruct (body l); simplify_eq. cbn in *. by destruct Hb.
Qed.
Lemma networks_of_ok lsas : Forall lsa_ok lsas → networks_ok (networks_of lsas).
Proof.
  intros Hl id [[mask members] adv] H%collect_lookup. apply list_elem_of_omap in H as (l & Hin & H).
  rewrite Forall_forall in Hl. destruct (Hl l Hin) as (_ & _ & Hi & _ & _ & Hb).
  destruct (body l); simplify_eq. cbn in *. by destruct Hb.
Qed.

Lemma links_back_spec routers id kind to :
  links_back routers id kind to = true ↔
  ∃ flags links back, routers !! id = Some (flags, links) ∧ back ∈ links ∧ link_kind back = kind ∧ link_id back = to.
Proof.
  unfold links_back. destruct (routers !! id) as [[flags links]|]; [|naive_solver].
  rewrite existsb_exists. split.
  - intros (back & Hin%list_elem_of_In & [Hk%bool_decide_eq_true Hi]%andb_true_iff).
    exists flags, links, back. split_and!; (done || lia).
  - intros (f & l & back & [= <- <-] & Hin%list_elem_of_In & Hk & Hi). exists back. split; [done|].
    rewrite bool_decide_true by done. cbn. lia.
Qed.
Lemma is_member_spec networks net id :
  is_member networks net id = true ↔ ∃ mask members adv, networks !! net = Some (mask, members, adv) ∧ id ∈ members.
Proof.
  unfold is_member. destruct (networks !! net) as [[[mask members] adv]|]; [|naive_solver].
  rewrite bool_decide_eq_true. naive_solver.
Qed.

(** The edges, one case per pair of vertices. *)
Lemma elem_of_edges routers networks v w m x :
  (w, m, x) ∈ edges routers networks v ↔
  match v, w with
  | VRouter a, VRouter b =>
      ∃ flags links link, routers !! a = Some (flags, links) ∧ link ∈ links ∧ link_kind link = PointToPoint
        ∧ link_id link = b ∧ m = link_metric link ∧ links_back routers b PointToPoint a = true
  | VRouter a, VNetwork n =>
      ∃ flags links link, routers !! a = Some (flags, links) ∧ link ∈ links ∧ link_kind link = Transit
        ∧ link_id link = n ∧ m = link_metric link ∧ is_member networks n a = true
  | VNetwork n, VRouter b =>
      m = 0 ∧ is_member networks n b = true ∧ links_back routers b Transit n = true
  | VNetwork _, VNetwork _ => False
  end.
Proof.
  destruct x, v as [a|n]; cbn [edges].
  - assert (H : (∃ flags links, routers !! a = Some (flags, links) ∧ (w, m, ()) ∈ omap (link_edge routers networks a) links)
      ↔ (w, m, ()) ∈ match routers !! a with Some (_, links) => omap (link_edge routers networks a) links | None => [] end).
    { destruct (routers !! a) as [[f l]|]; [naive_solver|]. split; [naive_solver|by intros ?%not_elem_of_nil]. }
    rewrite <-H. setoid_rewrite list_elem_of_omap. unfold link_edge. destruct w as [b|b]; split.
    + intros (f & l & Hr & link & Hin & E). exists f, l, link.
      destruct (link_kind link) eqn:Ek; try done; [destruct (links_back _ _ _ _) eqn:El|destruct (is_member _ _ _)];
        simplify_eq; done.
    + intros (f & l & link & Hr & Hin & Hk & <- & -> & Hb). exists f, l. split; [done|]. exists link. split; [done|].
      by rewrite Hk, Hb.
    + intros (f & l & Hr & link & Hin & E). exists f, l, link.
      destruct (link_kind link) eqn:Ek; try done; [destruct (links_back _ _ _ _)|destruct (is_member _ _ _) eqn:El];
        simplify_eq; done.
    + intros (f & l & link & Hr & Hin & Hk & <- & -> & Hb). exists f, l. split; [done|]. exists link. split; [done|].
      by rewrite Hk, Hb.
  - assert (H : (w, m, ()) ∈ match networks !! n with
        | Some (_, members, _) =>
            omap (λ member, if links_back routers member Transit n then Some (VRouter member, 0, ()) else None) members
        | None => [] end
      ↔ ∃ b, is_member networks n b = true ∧ links_back routers b Transit n = true ∧ w = VRouter b ∧ m = 0).
    { unfold is_member. destruct (networks !! n) as [[[mask members] adv]|].
      - rewrite list_elem_of_omap. setoid_rewrite bool_decide_eq_true. split.
        + intros (b & Hin & E). exists b. destruct (links_back _ _ _ _) eqn:El; simplify_eq. done.
        + intros (b & Hin & Hb & -> & ->). exists b. by rewrite Hb.
      - split; [by intros ?%not_elem_of_nil|naive_solver]. }
    rewrite H. destruct w as [b|b]; naive_solver.
Qed.

(** Connectivity is mutual: every edge has one in the other direction. *)
Lemma edges_symmetric routers networks v w m x :
  (w, m, x) ∈ edges routers networks v → ∃ m', (v, m', ()) ∈ edges routers networks w.
Proof.
  rewrite elem_of_edges. setoid_rewrite elem_of_edges. destruct v as [a|n], w as [b|k]; [| | |done].
  - intros (f & l & link & Hr & Hin & Hk & Hi & -> & Hb). pose proof Hb as Hb'.
    apply links_back_spec in Hb' as (f' & l' & back & Hr' & Hin' & Hk' & Hi'). exists (link_metric back), f', l', back.
    split_and!; try done. apply links_back_spec. by exists f, l, link.
  - intros (f & l & link & Hr & Hin & Hk & Hi & -> & Hm). exists 0. split_and!; [done|done|].
    apply links_back_spec. by exists f, l, link.
  - intros (-> & Hm & Hb). apply links_back_spec in Hb as (f' & l' & back & Hr' & Hin' & Hk' & Hi').
    exists (link_metric back), f', l', back. split_and!; done.
Qed.

Section bounds.
Context (self_id : Ipv4Addr) (routers : Routers) (networks : Networks).
Hypothesis (Hself : u32 self_id) (Hrouters : routers_ok routers) (Hnetworks : networks_ok networks).

Lemma metrics_u16 v w m x : (w, m, x) ∈ edges routers networks v → 0 ≤ m ≤ 65535.
Proof.
  rewrite elem_of_edges. destruct v as [a|n], w as [b|k]; try done.
  3: intros (-> & _); lia.
  all: intros (f & l & link & Hr & Hin & _ & _ & -> & _); destruct (Hrouters a _ Hr) as [_ Hl];
    cbn in Hl; rewrite Forall_forall in Hl; by destruct (Hl link Hin) as (_ & _ & ?).
Qed.

Definition vertex_ok (v : Vertex) : Prop := match v with VRouter i | VNetwork i => u32 i end.
Definition vertex_num (v : Vertex) : Z := match v with VRouter i => i | VNetwork i => 4294967296 + i end.
Definition hop_num (h : option Ipv4Addr) : Z := match h with None => 0 | Some i => 1 + i end.
Definition hop_fits (h : option Ipv4Addr) : Prop := match h with None => True | Some i => u32 i end.

Lemma edge_fits v w m x h :
  vertex_ok v → hop_fits h → (w, m, x) ∈ edges routers networks v →
  vertex_ok w ∧ 0 ≤ m ∧ hop_fits (hop_of self_id h w x).
Proof.
  intros Hv Hh Hin. pose proof (metrics_u16 _ _ _ _ Hin).
  assert (Hw : vertex_ok w).
  { apply elem_of_edges in Hin. destruct v as [a|n], w as [b|k]; cbn; try done.
    - destruct Hin as (_ & _ & _ & _ & _ & _ & _ & _ & Hb). apply links_back_spec in Hb as (f & l & back & Hr & _).
      by destruct (Hrouters _ _ Hr).
    - destruct Hin as (_ & _ & _ & _ & _ & _ & _ & _ & Hb). apply is_member_spec in Hb as (ma & me & ad & Hn & _).
      by destruct (Hnetworks _ _ Hn).
    - destruct Hin as (_ & _ & Hb). apply links_back_spec in Hb as (f & l & back & Hr & _).
      by destruct (Hrouters _ _ Hr). }
  split; [done|]. split; [lia|]. unfold hop_of. destruct h; [done|]. destruct w; cbn in *; [|done].
  by destruct (_ =? self_id).
Qed.
Lemma hop_num_order h k :
  hop_fits h → hop_fits k → lex_ltb (hop_code h) (hop_code k) = true → hop_num h < hop_num k.
Proof. destruct h, k; cbn; intros; lia. Qed.

Lemma spf_paths_total : ∃ P, spf_paths self_id routers networks = Ok P.
Proof.
  apply (shortest_paths_total _ _ _ _ _ 8589934592 4294967297 vertex_num hop_num vertex_ok hop_fits).
  - intros [i|i]; cbn; lia.
  - intros [i|i] [j|j]; cbn; intros; f_equal; lia.
  - intros [i|]; cbn; lia.
  - apply hop_num_order.
  - done.
  - done.
  - apply edge_fits.
  - vm_compute. discriminate.
Qed.
End bounds.

(** ** Helper lemmas: the routing table *)

Lemma install_lookup rs r p :
  install rs r !! p = rs !! p
  ∨ (install rs r !! p = Some r ∧ route_prefix r = p ∧ route_metric r < 0x00ffffff
     ∧ ∀ old, rs !! p = Some old → lex_ltb (preference r) (preference old) = true).
Proof.
  unfold install. destruct (_ && _) eqn:E; [|by left]. apply andb_true_iff in E as [Em Eo].
  destruct (decide (route_prefix r = p)) as [<-|Hne]; [|left; by rewrite lookup_insert_ne].
  right. rewrite lookup_insert_eq. split_and!; [done|done|lia|]. intros old Hold. by rewrite Hold in Eo.
Qed.
Lemma install_offers rs r :
  route_metric r < 0x00ffffff →
  ∃ o, install rs r !! route_prefix r = Some o ∧ lex_ltb (preference r) (preference o) = false.
Proof.
  intros Hm. unfold install. assert ((route_metric r <? 0xffffff) = true) as -> by lia. cbn [andb].
  destruct (rs !! route_prefix r) as [old|] eqn:E.
  - destruct (lex_ltb _ _) eqn:El; [|by exists old].
    rewrite lookup_insert_eq. exists r. split; [done|apply lex_ltb_irrefl].
  - rewrite lookup_insert_eq. exists r. split; [done|apply lex_ltb_irrefl].
Qed.
(** A route in the table is replaced only by a better one. *)
Lemma install_improves rs r p o :
  rs !! p = Some o → ∃ o', install rs r !! p = Some o' ∧ lex_ltb (preference o) (preference o') = false.
Proof.
  intros Ho. destruct (install_lookup rs r p) as [->|(-> & _ & _ & Hlt)].
  - exists o. split; [done|apply lex_ltb_irrefl].
  - exists r. split; [done|]. by apply lex_ltb_asym, Hlt.
Qed.

Lemma installs_best offers rs p :
  (∀ r, foldl install rs offers !! p = Some r →
     rs !! p = Some r ∨ (r ∈ offers ∧ route_prefix r = p ∧ route_metric r < 0x00ffffff))
  ∧ (∀ o, o ∈ offers → route_prefix o = p → route_metric o < 0x00ffffff →
       ∃ r, foldl install rs offers !! p = Some r ∧ lex_ltb (preference o) (preference r) = false)
  ∧ (∀ o, rs !! p = Some o →
       ∃ r, foldl install rs offers !! p = Some r ∧ lex_ltb (preference o) (preference r) = false).
Proof.
  revert rs. induction offers as [|x offers IH]; intros rs; cbn [foldl].
  - split_and!; [by left|by intros ? ?%not_elem_of_nil|]. intros o Ho. exists o. split; [done|apply lex_ltb_irrefl].
  - destruct (IH (install rs x)) as (H1 & H2 & H3). split_and!.
    + intros r Hr. destruct (H1 r Hr) as [Hi|(?&?&?)]; [|right; split_and!; [set_solver|done|done]].
      destruct (install_lookup rs x p) as [E|(E & ? & ? & _)]; rewrite E in Hi; [by left|].
      injection Hi as <-. right. split_and!; [set_solver|done|done].
    + intros o [->|Hin]%elem_of_cons Hp Hm; [|by apply H2]. subst p.
      destruct (install_offers rs x Hm) as (o & Ho & Hle). destruct (H3 o Ho) as (r & Hr & Hle').
      exists r. split; [done|]. by eapply lex_le_trans.
    + intros o Ho. destruct (install_improves rs x p o Ho) as (o' & Ho' & Hle).
      destruct (H3 o' Ho') as (r & Hr & Hle'). exists r. split; [done|]. by eapply lex_le_trans.
Qed.

Definition is_intra (r : OspfSpfRoute) : Prop := source_rank (route_source r) = 0.
Lemma intra_offer_source self_id routers networks P r :
  r ∈ intra_offers self_id routers networks P → is_intra r.
Proof.
  unfold intra_offers. intros Hr. apply list_elem_of_In, in_concat in Hr as (l & Hl & Hr).
  apply in_map_iff in Hl as ([v [cost hop]] & <- & _). apply list_elem_of_In in Hr.
  unfold vertex_routes in Hr. destruct v as [i|i].
  - destruct (routers !! i) as [[f ls]|]; [|by apply not_elem_of_nil in Hr].
    apply list_elem_of_omap in Hr as (link & _ & Hr). unfold stub_route in Hr. repeat case_match; by simplify_eq.
  - destruct (networks !! i) as [[[m rs] o]|]; [|by apply not_elem_of_nil in Hr].
    destruct (prefix i m); [|by apply not_elem_of_nil in Hr]. by apply list_elem_of_singleton in Hr as ->.
Qed.
Lemma advertised_not_intra self_id routers P asbrs rs lsa r :
  advertised_route self_id routers P asbrs rs lsa = Some r → 1 ≤ source_rank (route_source r).
Proof.
  unfold advertised_route. intros H. repeat (case_match; try discriminate); 
    repeat match goal with H : mbind _ _ = Some _ |- _ => apply bind_Some in H as (? & ? & H) end;
    repeat (case_match; try discriminate); simplify_eq; cbn; try lia;
    repeat match goal with H : mbind _ _ = Some _ |- _ => apply bind_Some in H as (? & ? & H) end;
    repeat (case_match; try discriminate); simplify_eq; cbn; lia.
Qed.
(** Summaries and external routes never displace an intra-area route. *)
Lemma advertise_keeps_intra self_id routers P asbrs rs lsa p r :
  rs !! p = Some r → is_intra r → advertise self_id routers P asbrs rs lsa !! p = Some r.
Proof.
  intros Hr Hi. unfold advertise. destruct (advertised_route _ _ _ _ _ _) as [o|] eqn:E; [|done].
  apply advertised_not_intra in E. destruct (install_lookup rs o p) as [->|(_ & _ & _ & Hlt)]; [done|].
  specialize (Hlt r Hr). unfold preference, is_intra in *. cbn in Hlt. lia.
Qed.
Lemma advertise_new self_id routers P asbrs rs lsa p r :
  advertise self_id routers P asbrs rs lsa !! p = Some r → rs !! p = Some r ∨ ¬ is_intra r.
Proof.
  unfold advertise. destruct (advertised_route _ _ _ _ _ _) as [o|] eqn:E; [|by left].
  apply advertised_not_intra in E. destruct (install_lookup rs o p) as [->|(-> & _)]; [by left|].
  intros [= ->]. right. unfold is_intra. lia.
Qed.
Lemma advertises_intra self_id routers P asbrs lsas rs p :
  (∀ r, rs !! p = Some r → is_intra r → foldl (advertise self_id routers P asbrs) rs lsas !! p = Some r)
  ∧ (∀ r, foldl (advertise self_id routers P asbrs) rs lsas !! p = Some r → is_intra r → rs !! p = Some r).
Proof.
  revert rs. induction lsas as [|l lsas IH]; intros rs; cbn [foldl]; [done|].
  destruct (IH (advertise self_id routers P asbrs rs l)) as [H1 H2]. split.
  - intros r Hr Hi. apply H1; [|done]. by apply advertise_keeps_intra.
  - intros r Hr Hi. apply H2 in Hr; [|done]. by destruct (advertise_new _ _ _ _ _ _ _ _ Hr).
Qed.

Lemma spf_paths_closed self_id routers networks P :
  spf_paths self_id routers networks = Ok P →
  P !! VRouter self_id = Some (0, None)
  ∧ (∀ v l, P !! v = Some l → path (VRouter self_id) (edges routers networks) (hop_of self_id) v l)
  ∧ (∀ v l, P !! v = Some l → expanded hop_code (VRouter self_id) (edges routers networks) (hop_of self_id) P v l).
Proof. unfold spf_paths. apply shortest_paths_closed. Qed.
Lemma live_ok lsas : Forall lsa_ok lsas → Forall lsa_ok (live lsas).
Proof. rewrite !Forall_forall. intros H x [_ Hx]%list_elem_of_filter. by apply H. Qed.

(** ** Properties *)

(** C19: The calculation always finishes: on any set of advertisements, with
    links of any metric, zero included, and in any topology, the label-correcting
    loop empties its heap, so that a result is returned. *)
Theorem ospf_calculate_total self_id lsas :
  u32 self_id → Forall lsa_ok lsas → ∃ r, ospf_calculate self_id lsas = Ok r.
Proof.
  intros Hs Hl. pose proof (live_ok lsas Hl) as Hlive.
  unfold ospf_calculate.
  destruct (spf_paths_total self_id (routers_of (live lsas)) (networks_of (live lsas)) Hs) as [P ->].
  - by apply routers_of_ok.
  - by apply networks_of_ok.
  - rewrite bind_Ok. by eexists.
Qed.

(** C18: The tree is the tree of shortest paths: a router or network is in it
    exactly if links that both ends advertise connect it to the calculating
    router; its cost is the least total metric of such a connection, saturated
    at the largest [u32], and its hop is the one recorded along a connection of
    that cost. *)
Theorem ospf_distances self_id lsas P :
  u32 self_id → Forall lsa_ok lsas →
  let routers := routers_of (live lsas) in
  let networks := networks_of (live lsas) in
  let reach := reach (VRouter self_id) (edges routers networks) in
  spf_paths self_id routers networks = Ok P →
  (∀ v w m x, (w, m, x) ∈ edges routers networks v → 0 ≤ m ∧ ∃ m', (v, m', ()) ∈ edges routers networks w)
  ∧ (∀ v, is_Some (P !! v) ↔ ∃ d, reach v d)
  ∧ ∀ v cost hop, P !! v = Some (cost, hop) →
      path (VRouter self_id) (edges routers networks) (hop_of self_id) v (cost, hop)
      ∧ (∃ d, reach v d ∧ cost = Z.min U32_MAX d) ∧ ∀ d, reach v d → cost ≤ d.
Proof.
  intros Hs Hl routers networks reach' HP. pose proof (live_ok lsas Hl) as Hlive.
  pose proof (metrics_u16 routers networks (routers_of_ok _ Hlive)) as Hm.
  assert (Hnn : ∀ v w m x, (w, m, x) ∈ edges routers networks v → 0 ≤ m).
  { intros v w m x Hin. specialize (Hm v w m x Hin). lia. }
  apply spf_paths_closed in HP as (Hroot & Hpath & Hexp).
  assert (Hopt : ∀ v d, reach' v d → 0 ≤ d ∧ ∃ l, P !! v = Some l ∧ l.1 ≤ Z.min U32_MAX d).
  { intros v d Hd. eapply (closed_optimal vertex_code); [exact Hnn|exact Hroot|exact Hexp|exact Hd]. }
  assert (Hreach : ∀ v l, path (VRouter self_id) (edges routers networks) (hop_of self_id) v l →
    ∃ d, reach' v d ∧ 0 ≤ d ∧ l.1 = Z.min U32_MAX d).
  { intros v l Hp. eapply (path_reach vertex_code); [exact Hnn|exact Hp]. }
  split_and!.
  - intros v w m x Hin. split; [by eapply Hnn|]. by eapply edges_symmetric.
  - intros v. split.
    + intros [l Hv]. destruct (Hreach v l (Hpath v l Hv)) as (d & Hd & _). by exists d.
    + intros [d Hd]. destruct (Hopt v d Hd) as (_ & l & Hv & _). by exists l.
  - intros v cost hop Hv. pose proof (Hpath v _ Hv) as Hp. split; [done|].
    destruct (Hreach v _ Hp) as (d & Hd & _ & Hc). split; [by exists d|].
    intros d' Hd'. destruct (Hopt v d' Hd') as (_ & l & Hv' & Hle). rewrite Hv in Hv'. injection Hv' as <-. cbn in Hle. lia.
Qed.

Lemma ospf_calculate_routes self_id lsas P r :
  spf_paths self_id (routers_of (live lsas)) (networks_of (live lsas)) = Ok P → ospf_calculate self_id lsas = Ok r →
  ∃ asbrs, routes r = foldl (advertise self_id (routers_of (live lsas)) P asbrs)
    (foldl install ∅ (intra_offers self_id (routers_of (live lsas)) (networks_of (live lsas)) P))
    (sort_by_key (λ lsa, key_code (lsa_key lsa)) (live lsas)).
Proof.
  intros HP. unfold ospf_calculate. rewrite HP, bind_Ok. intros Hr%Ok_inj. rewrite <-Hr.
  eexists. cbn [routes]. reflexivity.
Qed.

(** An intra-area prefix is routed by the best of the offers of the tree
    (the stubs of its routers and its networks): the least metric, then the
    least cost, originator and hop, whatever the order of the database; no
    summary and no external advertisement displaces it, and every intra-area
    route of the table is such an offer. *)
Theorem intra_routes_best self_id lsas P r :
  let routers := routers_of (live lsas) in
  let networks := networks_of (live lsas) in
  let offers := intra_offers self_id routers networks P in
  spf_paths self_id routers networks = Ok P → ospf_calculate self_id lsas = Ok r →
  (∀ o, o ∈ offers → route_metric o < 0x00ffffff →
     ∃ b, routes r !! route_prefix o = Some b ∧ is_intra b ∧ lex_ltb (preference o) (preference b) = false)
  ∧ ∀ p b, routes r !! p = Some b → is_intra b → b ∈ offers ∧ route_prefix b = p.
Proof.
  intros routers networks offers HP Hr.
  destruct (ospf_calculate_routes self_id lsas P r HP Hr) as [asbr_paths ->]. clear Hr HP.
  split.
  - intros o Ho Hm. destruct (installs_best offers ∅ (route_prefix o)) as (H1 & H2 & _).
    destruct (H2 o Ho eq_refl Hm) as (b & Hb & Hle). exists b.
    destruct (H1 b Hb) as [Hn|(Hin & _)]; [by rewrite lookup_empty in Hn|].
    pose proof (intra_offer_source _ _ _ _ _ Hin) as Hi. split_and!; [|done|done].
    by apply advertises_intra.
  - intros p b Hb Hi. apply advertises_intra in Hb; [|done].
    destruct (installs_best offers ∅ p) as (H1 & _). destruct (H1 b Hb) as [Hn|(Hin & Hp & _)]; [|done].
    by rewrite lookup_empty in Hn.
Qed.

(** ** Witnesses: three routers in a triangle, one of them with a stub *)

Definition sample_link (to metric : Z) : RouterLink :=
  {| link_id := to; link_data := 0; link_kind := PointToPoint; link_metric := metric |}.
Definition sample_router_lsa (id : Z) (links : list RouterLink) : Lsa :=
  {| age := 0; lsa_options := 2; link_state_id := id; advertising_router := id;
     lsa_sequence := -2147483647; body := Router 3 links |}.
Definition sample_stub : RouterLink :=
  {| link_id := 0xc0000200; link_data := 0xffffff00; link_kind := Stub; link_metric := 3 |}.
Definition sample_lsas : list Lsa :=
  [sample_router_lsa 1 [sample_link 2 50; sample_link 3 2];
   sample_router_lsa 2 [sample_link 1 50; sample_link 3 2; sample_stub];
   sample_router_lsa 3 [sample_link 1 2; sample_link 2 2]].
Definition sample_prefix : Ipv4Network := {| network := 0xc0000200; network_len := 24 |}.

Lemma sample_lsas_ok : Forall lsa_ok sample_lsas.
Proof.
  unfold sample_lsas. repeat constructor; cbn; try lia; unfold lsa_ok; cbn; split_wf; try lia;
    repeat constructor; cbn; lia.
Qed.
Definition sample_paths : gmap Vertex (label (Hop := Ipv4Addr)) :=
  {[VRouter 1 := (0, None); VRouter 3 := (2, Some 3); VRouter 2 := (4, Some 3)]}.
Lemma sample_spf :
  spf_paths 1 (routers_of (live sample_lsas)) (networks_of (live sample_lsas)) = Ok sample_paths.
Proof. vm_compute. reflexivity. Qed.

Lemma ospf_calculate_total_witness : ∃ r, ospf_calculate 1 sample_lsas = Ok r.
Proof. apply ospf_calculate_total; [lia|exact sample_lsas_ok]. Defined.
Lemma ospf_distances_witness :
  ∃ d, reach (VRouter 1) (edges (routers_of (live sample_lsas)) (networks_of (live sample_lsas))) (VRouter 2) d
    ∧ 4 = Z.min U32_MAX d.
Proof.
  destruct (ospf_distances 1 sample_lsas sample_paths ltac:(lia) sample_lsas_ok sample_spf) as (_ & _ & H).
  exact (proj1 (proj2 (H (VRouter 2) 4 (Some 3) ltac:(vm_compute; reflexivity)))).
Defined.
Lemma intra_routes_best_witness :
  ∃ r b, ospf_calculate 1 sample_lsas = Ok r ∧ routes r !! sample_prefix = Some b ∧ is_intra b.
Proof.
  destruct (ospf_calculate 1 sample_lsas) as [r| |] eqn:E; [|by vm_compute in E|by vm_compute in E].
  destruct (intra_routes_best 1 sample_lsas sample_paths r sample_spf E) as [H _].
  destruct (H {| route_prefix := sample_prefix; route_metric := 7; internal_cost := 4; first_hop := 3;
                 origin := 2; route_source := OspfIntra |}) as (b & Hb & Hi & _).
  - vm_compute. repeat constructor.
  - vm_compute. reflexivity.
  - exists r, b. split; [done|]. split; [exact Hb|exact Hi].
Defined.
