(* ===== verification/OspfExchange.v ===== *)
(** The OSPF adjacency ([rios-routing/src/ospf_exchange.rs]): the master/slave
    database exchange, the request and retransmission lists and their timers,
    shared by OSPFv2 and OSPFv3 through [ExchangeAdvertisement].

    A [BTreeMap] is a [gmap] whose iteration is [entries key_code]; the methods
    that take [&mut self] return the new state.  The only expression that could
    panic is the slice of the summary in [next_dd].

    [adjacency_invariant] is the state invariant over every sequence of calls,
    [exchange_synchronizes] the liveness of the exchange between two routers,
    [retransmit_progress] that of its timers. *)
From S2P Require Import Prelude Wire Collections OspfLsa OspfAdvertisement.

Abbreviation SimTime := Z.
Definition RETRANSMIT_US : Z := 5000000.
Definition OSPF_DATABASE_LIMIT : nat := 4096.

(** [OspfNeighborState] of [ospf.rs]. *)
Inductive OspfNeighborState := Down | Init | TwoWay | ExStart | Exchange | Loading | Full.
#[export] Instance OspfNeighborState_eq_dec : EqDecision OspfNeighborState.
Proof. solve_decision. Defined.

(** [u32::wrapping_add(1)] and [wrapping_sub(1)]. *)
Definition wrapping_succ (x : Z) : Z := (x + 1) `mod` 4294967296.
Definition wrapping_pred (x : Z) : Z := (x - 1) `mod` 4294967296.

Section exchange.
Context {L : Type} {EA : ExchangeAdvertisement L}.
Abbreviation body := (OspfBody L).
Abbreviation database := (gmap Key L).

(** [OspfExchangeResult]. *)
Record OspfExchangeResult := mkResult { packets : list body; advertisements : list L }.
Definition result_default : OspfExchangeResult := mkResult [] [].

Record OspfExchange := mkExchange {
  state : OspfNeighborState;
  master : bool;
  mtu : Z;
  sequence : Z;
  summary : list Header;
  offset : nat;
  last_dd : option body;
  dd_due : SimTime;
  requests : gmap Key Header;
  request_due : SimTime;
  retransmit : gmap Key (L * SimTime);
}.

Definition set_state (s : OspfExchange) (x : OspfNeighborState) : OspfExchange :=
  mkExchange x (master s) (mtu s) (sequence s) (summary s) (offset s) (last_dd s) (dd_due s)
    (requests s) (request_due s) (retransmit s).
Definition set_sequence (s : OspfExchange) (x : Z) : OspfExchange :=
  mkExchange (state s) (master s) (mtu s) x (summary s) (offset s) (last_dd s) (dd_due s)
    (requests s) (request_due s) (retransmit s).
Definition set_offset (s : OspfExchange) (x : nat) : OspfExchange :=
  mkExchange (state s) (master s) (mtu s) (sequence s) (summary s) x (last_dd s) (dd_due s)
    (requests s) (request_due s) (retransmit s).
Definition set_requests (s : OspfExchange) (x : gmap Key Header) : OspfExchange :=
  mkExchange (state s) (master s) (mtu s) (sequence s) (summary s) (offset s) (last_dd s) (dd_due s)
    x (request_due s) (retransmit s).
Definition set_request_due (s : OspfExchange) (x : SimTime) : OspfExchange :=
  mkExchange (state s) (master s) (mtu s) (sequence s) (summary s) (offset s) (last_dd s) (dd_due s)
    (requests s) x (retransmit s).
Definition set_retransmit (s : OspfExchange) (x : gmap Key (L * SimTime)) : OspfExchange :=
  mkExchange (state s) (master s) (mtu s) (sequence s) (summary s) (offset s) (last_dd s) (dd_due s)
    (requests s) (request_due s) x.
Definition set_dd (s : OspfExchange) (last : option body) (due : SimTime) : OspfExchange :=
  mkExchange (state s) (master s) (mtu s) (sequence s) (summary s) (offset s) last due
    (requests s) (request_due s) (retransmit s).

Definition exchange_new (local peer mtu sequence : Z) : OspfExchange :=
  mkExchange ExStart (peer <? local) mtu sequence [] 0 None 0 ∅ 0 ∅.

Definition pending (s : OspfExchange) : nat * nat := (size (requests s), size (retransmit s)).

Definition later (now : SimTime) : SimTime := sat_add U64_MAX now RETRANSMIT_US.

Definition send_dd (s : OspfExchange) (flags : Z) (headers : list Header) (now : SimTime)
    : OspfExchange * body :=
  let body := DatabaseDescription (mtu s) OPTIONS flags (sequence s) headers in
  (set_dd s (Some body) (later now), body).

(** The headers of the database in key order, at most [OSPF_DATABASE_LIMIT]. *)
Definition headers_of (db : database) : list Header :=
  take OSPF_DATABASE_LIMIT (omap (λ e, ok (header e.2)) (entries key_code db)).

Definition start (s : OspfExchange) (db : database) (now : SimTime) : OspfExchange * body :=
  let s := mkExchange ExStart (master s) (mtu s) (sequence s) (headers_of db) 0 (last_dd s) (dd_due s)
             ∅ (request_due s) ∅ in
  send_dd s 7 [] now.

Definition next_dd {E} (s : OspfExchange) (now : SimTime) : res E (OspfExchange * body) :=
  let count := sat_sub (mtu s) DD_OVERHEAD `div` 20 in
  let end_ := Nat.min (offset s + Z.to_nat (Z.max count 1)) (length (summary s)) in
  headers ← slice (summary s) (offset s) end_;
  let s := set_offset s end_ in
  let flags := Z.lor (if master s then 1 else 0) (if (end_ <? length (summary s))%nat then 2 else 0) in
  Ok (send_dd s flags headers now).

(** [database.get(key).and_then(|lsa| lsa.header().ok())]. *)
Definition known (db : database) (k : Key) : option Header :=
  match db !! k with Some lsa => ok (header lsa) | None => None end.
(** [old.is_none_or(|old| compare(header, old) == Greater)]. *)
Definition newer (h : Header) (old : option Header) : bool :=
  match old with Some old => bool_decide (compare h old = Gt) | None => true end.

Definition request_header (db : database) (requests : gmap Key Header) (h : Header) : gmap Key Header :=
  let k := header_key h in
  if newer h (known db k)
     && ((size requests <? OSPF_DATABASE_LIMIT)%nat || bool_decide (is_Some (requests !! k)))
  then
    match requests !! k with
    | Some old => if bool_decide (compare h old = Gt) then <[k := h]> requests else requests
    | None => <[k := h]> requests
    end
  else requests.
Definition request_headers (s : OspfExchange) (headers : list Header) (db : database) : OspfExchange :=
  set_requests s (foldl (request_header db) (requests s) headers).

Definition request_packets (s : OspfExchange) : list body :=
  let keys := (entries key_code (requests s)).*1 in
  let size := Z.to_nat (Z.max (sat_sub (mtu s) PACKET_OVERHEAD `div` 12) 1) in
  map LinkStateRequest (chunks size keys).

Definition finish (s : OspfExchange) (now : SimTime) : OspfExchange * list body :=
  let s := set_state s (if bool_decide (requests s = ∅) then Full else Loading) in
  if bool_decide (requests s = ∅) then (s, [])
  else (set_request_due s (later now), request_packets s).

Definition can_exchange (s : OspfExchange) : bool :=
  match state s with Exchange | Loading | Full => true | _ => false end.

Definition flood (s : OspfExchange) (lsa : L) (now : SimTime) : OspfExchange * option body :=
  if negb (can_exchange s) then (s, None)
  else
    match ok (encoded_len lsa) with
    | None => (s, None)
    | Some length =>
        if (mtu s <? length + PACKET_OVERHEAD + 4)
           || ((OSPF_DATABASE_LIMIT <=? size (retransmit s))%nat
               && negb (bool_decide (is_Some (retransmit s !! key lsa))))
        then (s, None)
        else (set_retransmit s (<[key lsa := (lsa, later now)]> (retransmit s)),
              Some (LinkStateUpdate [lsa]))
    end.

(** ** [receive] *)

Definition bump (s : OspfExchange) : OspfExchange := set_sequence s (wrapping_succ (sequence s)).

(** [self.sequence = self.sequence.wrapping_add(1); out.packets.push(self.start(database, now))]. *)
Definition restart (s : OspfExchange) (db : database) (now : SimTime) : OspfExchange * OspfExchangeResult :=
  let '(s, p) := start (bump s) db now in (s, mkResult [p] []).

Definition receive_description {E} (s : OspfExchange) (mtu_ options flags seq : Z) (headers : list Header)
    (db : database) (now : SimTime) : res E (OspfExchange * OspfExchangeResult) :=
  if (mtu s <? mtu_) || negb (Z.land flags (Z.lxor 7 255) =? 0) || negb (Z.land options OPTIONS =? OPTIONS)
  then Ok (s, result_default)
  else if bool_decide (state s = ExStart) then
    if negb (master s) && (flags =? 7) && bool_decide (headers = []) then
      let s := set_state (set_sequence s seq) Exchange in
      '(s, p) ← next_dd s now;
      Ok (s, mkResult [p] [])
    else if master s && (Z.land flags 5 =? 0) && (seq =? sequence s) then
      let s := bump (request_headers (set_state s Exchange) headers db) in
      '(s, p) ← next_dd s now;
      Ok (s, mkResult [p] [])
    else Ok (s, result_default)
  else if negb (can_exchange s) then Ok (s, result_default)
  else if negb (master s) && (seq =? sequence s) then
    Ok (s, mkResult (match last_dd s with Some last => [last] | None => [] end) [])
  else if master s && bool_decide (state s = Loading ∨ state s = Full) && (seq =? sequence s)
          && (Z.land flags 5 =? 0) then Ok (s, result_default)
  else if master s && (seq =? wrapping_pred (sequence s)) then Ok (s, result_default)
  else
    let expected := if master s then sequence s else wrapping_succ (sequence s) in
    if negb (Z.land flags 4 =? 0) || Bool.eqb (negb (Z.land flags 1 =? 0)) (master s)
       || negb (seq =? expected) || negb (bool_decide (state s = Exchange))
    then Ok (restart s db now)
    else
      let s := request_headers s headers db in
      if master s then
        let sent_more := match last_dd s with
                         | Some (DatabaseDescription _ _ flags _ _) => negb (Z.land flags 2 =? 0)
                         | _ => false
                         end in
        if negb sent_more && (Z.land flags 2 =? 0) then
          let '(s, ps) := finish s now in Ok (s, mkResult ps [])
        else
          '(s, p) ← next_dd (bump s) now;
          Ok (s, mkResult [p] [])
      else
        '(s, p) ← next_dd (set_sequence s seq) now;
        if (offset s =? length (summary s))%nat && (Z.land flags 2 =? 0) then
          let '(s, ps) := finish s now in Ok (s, mkResult (p :: ps) [])
        else Ok (s, mkResult [p] []).

(** The loop over requested keys; an unknown key restarts the exchange. *)
Fixpoint serve_requests (s : OspfExchange) (keys : list Key) (db : database) (now : SimTime)
    (out : list body) : OspfExchange * OspfExchangeResult :=
  match keys with
  | [] => (s, mkResult out [])
  | k :: keys =>
      match db !! k with
      | None => restart s db now
      | Some lsa =>
          let '(s, p) := flood s lsa now in
          serve_requests s keys db now (match p with Some p => out ++ [p] | None => out end)
      end
  end.

(** The loop over received advertisements: acknowledgments, offers to the
    database, and replies with newer instances. *)
Record Update := mkUpdate { up_acks : list Header; up_result : OspfExchangeResult }.
(** The advertisement is older than the instance that was requested. *)
Definition stale (s : OspfExchange) (h : Header) : bool :=
  match requests s !! header_key h with
  | Some request => bool_decide (compare h request = Lt)
  | None => false
  end.
Definition take_lsa (s : OspfExchange) (lsa : L) (db : database) (now : SimTime) (u : Update)
    : OspfExchange * Update :=
  match ok (header lsa) with
  | None => (s, u)
  | Some h =>
      let k := header_key h in
      if stale s h then (s, u)
      else
        let s := set_requests s (delete k (requests s)) in
        match known db k with
        | Some old =>
            if bool_decide (compare h old = Lt) then
              match db !! k with
              | None => (s, u)
              | Some mine =>
                  let '(s, p) := flood s mine now in
                  (s, mkUpdate (up_acks u)
                        (mkResult (packets (up_result u) ++ match p with Some p => [p] | None => [] end)
                           (advertisements (up_result u))))
              end
            else (s, mkUpdate (up_acks u ++ [h])
                       (mkResult (packets (up_result u)) (advertisements (up_result u) ++ [lsa])))
        | None => (s, mkUpdate (up_acks u ++ [h])
                       (mkResult (packets (up_result u)) (advertisements (up_result u) ++ [lsa])))
        end
  end.
Fixpoint take_lsas (s : OspfExchange) (lsas : list L) (db : database) (now : SimTime) (u : Update)
    : OspfExchange * Update :=
  match lsas with
  | [] => (s, u)
  | lsa :: lsas => let '(s, u) := take_lsa s lsa db now u in take_lsas s lsas db now u
  end.

Definition receive_update (s : OspfExchange) (lsas : list L) (db : database) (now : SimTime)
    : OspfExchange * OspfExchangeResult :=
  let '(s, u) := take_lsas s lsas db now (mkUpdate [] result_default) in
  let size := Z.to_nat (Z.max (sat_sub (mtu s) PACKET_OVERHEAD `div` 20) 1) in
  let out := mkResult (packets (up_result u) ++ map LinkStateAck (chunks size (up_acks u)))
                      (advertisements (up_result u)) in
  if bool_decide (state s = Loading) && bool_decide (requests s = ∅)
  then (set_state s Full, out) else (s, out).

Definition take_ack (retransmit : gmap Key (L * SimTime)) (h : Header) : gmap Key (L * SimTime) :=
  let k := header_key h in
  match retransmit !! k with
  | Some (lsa, _) =>
      match ok (header lsa) with
      | Some sent => if bool_decide (compare h sent = Eq) then delete k retransmit else retransmit
      | None => retransmit
      end
  | None => retransmit
  end.

Definition receive {E} (s : OspfExchange) (b : body) (db : database) (now : SimTime)
    : res E (OspfExchange * OspfExchangeResult) :=
  match b with
  | DatabaseDescription mtu_ options flags seq headers =>
      receive_description s mtu_ options flags seq headers db now
  | LinkStateRequest keys =>
      Ok (if can_exchange s then serve_requests s keys db now [] else (s, result_default))
  | LinkStateUpdate lsas =>
      Ok (if can_exchange s then receive_update s lsas db now else (s, result_default))
  | LinkStateAck headers =>
      Ok (if can_exchange s
          then (set_retransmit s (foldl take_ack (retransmit s) headers), result_default)
          else (s, result_default))
  | HelloBody _ => Ok (s, result_default)
  end.

(** ** Timers *)

Definition dd_active (s : OspfExchange) : bool :=
  bool_decide (state s = ExStart) || (bool_decide (state s = Exchange) && master s).

(** [Iterator::min]. *)
Definition min_of (l : list SimTime) : option SimTime :=
  match l with [] => None | x :: l => Some (foldl Z.min x l) end.

Definition next_deadline (s : OspfExchange) : option SimTime :=
  min_of ((if dd_active s then [dd_due s] else [])
          ++ (if bool_decide (state s = Loading) then [request_due s] else [])
          ++ map (λ e, e.2.2) (entries key_code (retransmit s))).

Definition tick_dd (s : OspfExchange) (now : SimTime) : OspfExchange * list body :=
  if dd_active s && (dd_due s <=? now) then
    match last_dd s with
    | Some last => (set_dd s (Some last) (later now), [last])
    | None => (s, [])
    end
  else (s, []).
Definition tick_requests (s : OspfExchange) (now : SimTime) : OspfExchange * list body :=
  if bool_decide (state s = Loading) && (request_due s <=? now)
  then (set_request_due s (later now), request_packets s)
  else (s, []).
Definition rearm (now : SimTime) (e : L * SimTime) : L * SimTime :=
  if e.2 <=? now then (e.1, later now) else e.
Definition tick_retransmit (s : OspfExchange) (now : SimTime) : OspfExchange * list body :=
  (set_retransmit s (rearm now <$> retransmit s),
   omap (λ e, if e.2.2 <=? now then Some (LinkStateUpdate [e.2.1]) else None)
     (entries key_code (retransmit s))).

Definition tick (s : OspfExchange) (now : SimTime) : OspfExchange * list body :=
  let '(s, dd) := tick_dd s now in
  let '(s, rq) := tick_requests s now in
  let '(s, rt) := tick_retransmit s now in
  (s, dd ++ rq ++ rt).
End exchange.
Arguments OspfExchange L {_}.
Arguments OspfExchangeResult L {_}.

(** ** The state invariant *)

Section invariant.
Context {L : Type} {EA : ExchangeAdvertisement L}.
Implicit Types (s : OspfExchange L) (db : gmap Key L).

Definition more_flag (s : OspfExchange L) : Z := if (offset s <? length (summary s))%nat then 2 else 0.
Definition own_flags (s : OspfExchange L) : Z := Z.lor (if master s then 1 else 0) (more_flag s).

(** In [Exchange] the last packet sent carries the current sequence number and
    says whether headers remain; outside it none remain.  [Loading] and [Full]
    tell whether requests are outstanding. *)
Record exchange_inv (s : OspfExchange L) : Prop := {
  inv_offset : (offset s ≤ length (summary s))%nat;
  inv_summary : (length (summary s) ≤ OSPF_DATABASE_LIMIT)%nat;
  inv_requests : (size (requests s) ≤ OSPF_DATABASE_LIMIT)%nat;
  inv_retransmit : (size (retransmit s) ≤ OSPF_DATABASE_LIMIT)%nat;
  inv_keys : map_Forall (λ k h, header_key h = k) (requests s);
  inv_state : match state s with
              | ExStart => requests s = ∅ ∧ retransmit s = ∅ ∧ offset s = 0%nat
              | Exchange => ∃ hs, last_dd s
                  = Some (DatabaseDescription (mtu s) OPTIONS (own_flags s) (sequence s) hs)
              | Loading => requests s ≠ ∅ ∧ offset s = length (summary s)
              | Full => requests s = ∅ ∧ offset s = length (summary s)
              | _ => False
              end;
}.

Lemma inv_new local peer mtu sequence : exchange_inv (exchange_new local peer mtu sequence).
Proof. split; cbn; rewrite ?map_size_empty; unfold OSPF_DATABASE_LIMIT; try lia; [apply map_Forall_empty|done]. Qed.

Lemma length_headers_of db : (length (headers_of db) ≤ OSPF_DATABASE_LIMIT)%nat.
Proof. unfold headers_of. rewrite length_take. lia. Qed.

Lemma inv_start s db now : exchange_inv (start s db now).1.
Proof.
  split; cbn; rewrite ?map_size_empty; unfold OSPF_DATABASE_LIMIT; try lia.
  - apply length_headers_of.
  - apply map_Forall_empty.
  - done.
Qed.

(** [next_dd] keeps everything but the offset and the last packet. *)
Lemma next_dd_spec {E} s now :
  (offset s ≤ length (summary s))%nat →
  ∃ s' hs, @next_dd L EA E s now = Ok (s', DatabaseDescription (mtu s) OPTIONS (own_flags s') (sequence s) hs)
    ∧ s' = set_dd (set_offset s (offset s')) (Some (DatabaseDescription (mtu s) OPTIONS (own_flags s') (sequence s) hs)) (later now)
    ∧ (offset s ≤ offset s' ≤ length (summary s))%nat
    ∧ hs = take (offset s' - offset s) (drop (offset s) (summary s))
    ∧ (offset s < length (summary s) → offset s < offset s')%nat.
Proof.
  intros Ho. unfold next_dd.
  set (n := Z.to_nat (Z.max (sat_sub (mtu s) DD_OVERHEAD `div` 20) 1)).
  set (e := Nat.min (offset s + n) (length (summary s))).
  assert (1 ≤ n)%nat by (unfold n; lia).
  rewrite slice_ok by (unfold e; lia). rewrite bind_Ok.
  set (hs := take (e - offset s) (drop (offset s) (summary s))).
  exists (send_dd (set_offset s e) (own_flags (set_offset s e)) hs now).1, hs.
  split; [reflexivity|]. split; [reflexivity|]. cbn. split_and!; try done; unfold e; lia.
Qed.

Lemma request_header_inv db m h :
  (size m ≤ OSPF_DATABASE_LIMIT)%nat → map_Forall (λ k h, header_key h = k) m →
  (size (request_header db m h) ≤ OSPF_DATABASE_LIMIT)%nat
  ∧ map_Forall (λ k h, header_key h = k) (request_header db m h).
Proof.
  intros Hs Hk. unfold request_header.
  destruct (newer _ _); cbn [andb]; [|done].
  destruct (m !! header_key h) as [old|] eqn:Em.
  - rewrite bool_decide_true by done. rewrite orb_true_r.
    destruct (bool_decide _); [|done]. rewrite map_size_insert, Em. split; [done|].
    by apply map_Forall_insert_2.
  - rewrite bool_decide_false by (by intros [? ?]). rewrite orb_false_r.
    destruct (_ <? _)%nat eqn:E; [|done]. rewrite map_size_insert, Em. split; [lia|].
    by apply map_Forall_insert_2.
Qed.
Lemma request_headers_inv db hs m :
  (size m ≤ OSPF_DATABASE_LIMIT)%nat → map_Forall (λ k h, header_key h = k) m →
  (size (foldl (request_header db) m hs) ≤ OSPF_DATABASE_LIMIT)%nat
  ∧ map_Forall (λ k h, header_key h = k) (foldl (request_header db) m hs).
Proof.
  revert m. induction hs as [|h hs IH]; intros m Hs Hk; cbn [foldl]; [done|].
  apply IH; by apply request_header_inv.
Qed.

(** Everything [next_dd] and [finish] need to re-establish the invariant. *)
Definition pre_inv (s : OspfExchange L) : Prop :=
  (offset s ≤ length (summary s))%nat ∧ (length (summary s) ≤ OSPF_DATABASE_LIMIT)%nat
  ∧ (size (requests s) ≤ OSPF_DATABASE_LIMIT)%nat ∧ (size (retransmit s) ≤ OSPF_DATABASE_LIMIT)%nat
  ∧ map_Forall (λ k h, header_key h = k) (requests s).
Lemma inv_pre s : exchange_inv s → pre_inv s.
Proof. by intros []. Qed.
Lemma pre_request_headers s hs db : pre_inv s → pre_inv (request_headers s hs db).
Proof.
  intros (?&?&?&?&?). unfold pre_inv. cbn. destruct (request_headers_inv db hs (requests s)); [done..|]. by split_and!.
Qed.

Lemma inv_next_dd {E} s now :
  pre_inv s → state s = Exchange →
  ∃ s' p, @next_dd L EA E s now = Ok (s', p) ∧ exchange_inv s' ∧ state s' = Exchange ∧ master s' = master s.
Proof.
  intros (Ho & Hs & Hr & Ht & Hk) He.
  destruct (@next_dd_spec E s now Ho) as (s' & hs & -> & Heq & Hle & _). eexists s', _. split; [done|].
  assert (Hf : summary s' = summary s ∧ requests s' = requests s ∧ retransmit s' = retransmit s
    ∧ state s' = Exchange ∧ master s' = master s ∧ mtu s' = mtu s ∧ sequence s' = sequence s
    ∧ last_dd s' = Some (DatabaseDescription (mtu s) OPTIONS (own_flags s') (sequence s) hs)).
  { rewrite Heq. cbn. split_and!; try done. f_equal. f_equal. by rewrite <-Heq. }
  destruct Hf as (F1 & F2 & F3 & F4 & F5 & F6 & F7 & F8).
  split; [|done]. split; rewrite ?F1, ?F2, ?F3; try done; [lia|].
  rewrite F4, F6, F7. by exists hs.
Qed.

Lemma inv_finish s now :
  pre_inv s → offset s = length (summary s) → exchange_inv (finish s now).1.
Proof.
  intros (Ho & Hs & Hr & Ht & Hk) Hend. unfold finish. cbn.
  destruct (bool_decide (requests s = ∅)) eqn:E; [apply bool_decide_eq_true in E|apply bool_decide_eq_false in E];
    split; cbn; done.
Qed.

Lemma own_flags_more s : Z.land (own_flags s) 2 = 0 ↔ (length (summary s) ≤ offset s)%nat.
Proof.
  unfold own_flags, more_flag. destruct (offset s <? length (summary s))%nat eqn:E, (master s);
    (split; [intros H; (discriminate H || lia) | intros H; (reflexivity || lia)]).
Qed.

(** ** Every operation preserves the invariant *)

Lemma inv_set_sequence_Exchange s x : pre_inv s → pre_inv (set_state (set_sequence s x) Exchange).
Proof. done. Qed.

Lemma receive_description_inv {E} s m o f q hs db now :
  exchange_inv s →
  ∃ s' r, @receive_description L EA E s m o f q hs db now = Ok (s', r) ∧ exchange_inv s'.
Proof.
  intros Hi. pose proof (inv_pre s Hi) as Hp. unfold receive_description.
  destruct (_ || _); [by eexists _, _|].
  destruct (bool_decide (state s = ExStart)).
  { destruct (_ && bool_decide (hs = [])).
    - destruct (@inv_next_dd E (set_state (set_sequence s q) Exchange) now Hp eq_refl) as (s' & p & -> & Hi' & _).
      rewrite bind_Ok. by eexists _, _.
    - destruct (_ && _); [|by eexists _, _].
      pose proof (pre_request_headers (set_state s Exchange) hs db Hp) as Hp'.
      destruct (@inv_next_dd E (bump (request_headers (set_state s Exchange) hs db)) now Hp' eq_refl)
        as (s' & p & -> & Hi' & _).
      rewrite bind_Ok. by eexists _, _. }
  destruct (can_exchange s); cbn [negb]; [|by eexists _, _].
  destruct (_ && _); [by eexists _, _|]. destruct (_ && _); [by eexists _, _|].
  destruct (_ && _); [by eexists _, _|].
  destruct (_ || negb (bool_decide (state s = Exchange))) eqn:Eok.
  { unfold restart. destruct (start (bump s) db now) as [s' p] eqn:Es. eexists _, _. split; [done|].
    pose proof (inv_start (bump s) db now) as H. by rewrite Es in H. }
  apply orb_false_iff in Eok as [_ Eex]. apply negb_false_iff, bool_decide_eq_true in Eex.
  pose proof (pre_request_headers s hs db Hp) as Hp'. set (s1 := request_headers s hs db) in *.
  destruct Hi as [_ _ _ _ _ Hst]. rewrite Eex in Hst. destruct Hst as [hs0 Hlast].
  change (master s1) with (master s). destruct (master s) eqn:Em.
  - change (last_dd s1) with (last_dd s). rewrite Hlast.
    destruct (negb _ && _) eqn:Efin.
    + destruct (finish s1 now) as [s' ps] eqn:Ef. eexists _, _. split; [done|].
      pose proof (inv_finish s1 now Hp') as H. rewrite Ef in H. apply H.
      apply andb_true_iff in Efin as [Hm _]. rewrite negb_involutive in Hm.
      apply Z.eqb_eq, own_flags_more in Hm. destruct Hp' as (?&_). cbn in *. lia.
    + destruct (@inv_next_dd E (bump s1) now Hp' Eex) as (s' & p & -> & Hi' & _). rewrite bind_Ok.
      by eexists _, _.
  - destruct (@inv_next_dd E (set_sequence s1 q) now Hp' Eex) as (s' & p & -> & Hi' & _). rewrite bind_Ok.
    destruct (_ && _) eqn:Efin; [|by eexists _, _].
    destruct (finish s' now) as [s'' ps] eqn:Ef. eexists _, _. split; [done|].
    pose proof (inv_finish s' now (inv_pre s' Hi')) as H. rewrite Ef in H. apply H. lia.
Qed.

Lemma flood_inv s lsa now s' p :
  exchange_inv s → flood s lsa now = (s', p) →
  exchange_inv s' ∧ state s' = state s ∧ requests s' = requests s.
Proof.
  intros Hi. unfold flood. destruct (can_exchange s) eqn:Ec; cbn [negb]; [|by intros [= <- <-]].
  destruct (ok _) as [n|]; [|by intros [= <- <-]].
  destruct (_ || _) eqn:E; [by intros [= <- <-]|]. intros [= <- <-]. cbn. split; [|done].
  apply orb_false_iff in E as [_ E].
  destruct Hi as [H1 H2 H3 H4 H5 H6]. unfold can_exchange in Ec.
  split; try done; [|cbn; revert Ec H6; destruct (state s); done].
  cbn. rewrite map_size_insert. destruct (retransmit s !! key lsa) eqn:El; [done|].
  rewrite bool_decide_false in E by (by intros [? ?]). cbn [negb] in E. rewrite andb_true_r in E. lia.
Qed.

Lemma restart_inv s db now : exchange_inv (restart s db now).1.
Proof.
  unfold restart. pose proof (inv_start (bump s) db now) as H.
  by destruct (start (bump s) db now).
Qed.
Lemma serve_requests_inv s keys db now out : exchange_inv s → exchange_inv (serve_requests s keys db now out).1.
Proof.
  revert s out. induction keys as [|k keys IH]; intros s out Hi; cbn [serve_requests]; [done|].
  destruct (db !! k); [|apply restart_inv].
  destruct (flood s l now) as [s' p] eqn:Ef. apply IH. by destruct (flood_inv _ _ _ _ _ Hi Ef).
Qed.

(** Removing a request keeps all but the relation of the state to the list. *)
Definition loose_inv (s : OspfExchange L) : Prop :=
  can_exchange s = true ∧ pre_inv s
  ∧ match state s with
    | Exchange => ∃ hs, last_dd s = Some (DatabaseDescription (mtu s) OPTIONS (own_flags s) (sequence s) hs)
    | Full => requests s = ∅ ∧ offset s = length (summary s)
    | _ => offset s = length (summary s)
    end.
Lemma loose_delete s k : loose_inv s → loose_inv (set_requests s (delete k (requests s))).
Proof.
  intros (Hc & (?&?&Hr&?&Hk) & Hs). split; [done|]. split.
  - unfold pre_inv. cbn. split_and!; try done.
    + rewrite map_size_delete. destruct (_ !! _); unfold id; lia.
    + by apply map_Forall_delete.
  - cbn. revert Hs. destruct (state s); try done. intros [Hr0 ?]. split; [|done]. rewrite Hr0. by rewrite delete_empty.
Qed.
Lemma loose_flood s lsa now s' p :
  loose_inv s → flood s lsa now = (s', p) → loose_inv s' ∧ state s' = state s.
Proof.
  intros Hi. unfold flood. destruct (can_exchange s) eqn:Ec; cbn [negb]; [|by intros [= <- <-]].
  destruct (ok _) as [n|]; [|by intros [= <- <-]].
  destruct (_ || _) eqn:E; [by intros [= <- <-]|]. intros [= <- <-]. cbn. split; [|done].
  apply orb_false_iff in E as [_ E]. destruct Hi as (_ & (?&?&Hr&?&Hk) & Hs). split; [done|]. split; [|done].
  unfold pre_inv. cbn. split_and!; try done.
  rewrite map_size_insert. destruct (retransmit s !! key lsa) eqn:El; [done|].
  rewrite bool_decide_false in E by (by intros [? ?]). cbn [negb] in E. rewrite andb_true_r in E. lia.
Qed.
Lemma take_lsa_loose s lsa db now u s' u' :
  loose_inv s → take_lsa s lsa db now u = (s', u') → loose_inv s' ∧ state s' = state s.
Proof.
  intros Hi. unfold take_lsa. destruct (ok (header lsa)) as [h|]; [|by intros [= <- <-]].
  destruct (stale s h); [by intros [= <- <-]|].
  pose proof (loose_delete s (header_key h) Hi) as Hd. set (s1 := set_requests s _) in *.
  destruct (known db (header_key h)) as [old|]; [|by intros [= <- <-]].
  destruct (bool_decide _); [|by intros [= <- <-]].
  destruct (db !! header_key h) as [mine|]; [|by intros [= <- <-]].
  destruct (flood s1 mine now) as [s2 p] eqn:Ef. intros [= <- <-].
  by destruct (loose_flood s1 mine now s2 p Hd Ef).
Qed.
Lemma take_lsas_loose s lsas db now u s' u' :
  loose_inv s → take_lsas s lsas db now u = (s', u') → loose_inv s' ∧ state s' = state s.
Proof.
  revert s u. induction lsas as [|lsa lsas IH]; intros s u Hi; cbn [take_lsas]; [by intros [= <- <-]|].
  destruct (take_lsa s lsa db now u) as [s1 u1] eqn:E.
  destruct (take_lsa_loose _ _ _ _ _ _ _ Hi E) as [Hi1 Hs1]. intros H.
  destruct (IH s1 u1 Hi1 H) as [? ?]. split; congruence.
Qed.
Lemma inv_loose s : exchange_inv s → can_exchange s = true → loose_inv s.
Proof.
  intros Hi Hc. pose proof (inv_pre s Hi). destruct Hi as [_ _ _ _ _ Hs]. split; [done|]. split; [done|].
  unfold can_exchange in Hc. revert Hc Hs. destruct (state s); naive_solver.
Qed.
Lemma receive_update_inv s lsas db now :
  exchange_inv s → can_exchange s = true → exchange_inv (receive_update s lsas db now).1.
Proof.
  intros Hi Hc. unfold receive_update.
  destruct (take_lsas s lsas db now _) as [s1 u] eqn:E.
  destruct (take_lsas_loose _ _ _ _ _ _ _ (inv_loose s Hi Hc) E) as [(Hc1 & (?&?&?&?&?) & Hs1) _].
  unfold can_exchange in Hc1.
  destruct (bool_decide (state s1 = Loading)) eqn:El; cbn [andb].
  - apply bool_decide_eq_true in El. rewrite El in Hs1. destruct (bool_decide _) eqn:Er; cbn [fst].
    + apply bool_decide_eq_true in Er. by split.
    + apply bool_decide_eq_false in Er. split; try done. by rewrite El.
  - apply bool_decide_eq_false in El. cbn [fst]. split; try done. revert El Hc1 Hs1. by destruct (state s1).
Qed.
End invariant.

(** ** Runs of the state machine *)

Section runs.
Context {L : Type} {EA : ExchangeAdvertisement L}.
Implicit Types (s : OspfExchange L) (db : gmap Key L).

(** The calls the owning device makes. *)
Inductive call :=
| CStart (db : gmap Key L) (now : SimTime)
| CFlood (lsa : L) (now : SimTime)
| CReceive (b : OspfBody L) (db : gmap Key L) (now : SimTime)
| CTick (now : SimTime).
(** The state after a call and the packets it hands to the sender. *)
Definition call_step (s : OspfExchange L) (c : call) : res Empty_set (OspfExchange L * list (OspfBody L)) :=
  match c with
  | CStart db now => let '(s, p) := start s db now in Ok (s, [p])
  | CFlood lsa now => let '(s, p) := flood s lsa now in Ok (s, match p with Some p => [p] | None => [] end)
  | CReceive b db now => '(s, out) ← receive s b db now; Ok (s, packets out)
  | CTick now => Ok (tick s now)
  end.

(** What the neighbour was told, read off the packets that were sent: the
    database at the time of the last initial description (its [I] bit opens a
    new exchange), and the headers of the descriptions since. *)
Record journal := mkJournal { snapshot : gmap Key L; sent : list Header }.
Definition note (db : gmap Key L) (j : journal) (p : OspfBody L) : journal :=
  match p with
  | DatabaseDescription _ _ flags _ hs =>
      if Z.land flags 4 =? 0 then mkJournal (snapshot j) (sent j ++ hs) else mkJournal db []
  | _ => j
  end.
(** The database the call runs on; a timer only repeats packets sent before. *)
Definition call_database (c : call) (j : journal) : gmap Key L :=
  match c with CStart db _ | CReceive _ db _ => db | CFlood _ _ | CTick _ => snapshot j end.
Fixpoint run_calls (s : OspfExchange L) (j : journal) (cs : list call)
    : res Empty_set (OspfExchange L * journal) :=
  match cs with
  | [] => Ok (s, j)
  | c :: cs =>
      '(s', out) ← call_step s c;
      run_calls s' (foldl (note (call_database c j)) j out) cs
  end.

Lemma size_rearm now (m : gmap Key (L * SimTime)) : size (rearm now <$> m) = size m.
Proof. apply map_size_fmap. Qed.
Lemma take_acks_size (m : gmap Key (L * SimTime)) hs : (size (foldl take_ack m hs) ≤ size m)%nat.
Proof.
  revert m. induction hs as [|h hs IH]; intros m; cbn [foldl]; [done|]. etrans; [apply IH|].
  unfold take_ack. destruct (m !! header_key h) as [[lsa due]|] eqn:E; [|done].
  destruct (ok (header lsa)); [|done]. destruct (bool_decide _); [|done].
  rewrite map_size_delete_Some by done. lia.
Qed.

(** Changing only the due times and the retransmission list. *)
Lemma inv_timers s dd due rq m :
  exchange_inv s → dd = last_dd s → (size m ≤ size (retransmit s))%nat → (state s = ExStart → m = ∅) →
  exchange_inv (set_retransmit (set_request_due (set_dd s dd due) rq) m).
Proof.
  intros [H1 H2 H3 H4 H5 H6] -> Hm He. split; cbn; try done; [lia|].
  revert He H6. destruct (state s); try done. intros He (?&?&?). by rewrite He.
Qed.
Lemma tick_shape s now :
  ∃ due rq, (tick s now).1
    = set_retransmit (set_request_due (set_dd s (last_dd s) due) rq) (rearm now <$> retransmit s).
Proof.
  unfold tick, tick_dd, tick_requests. destruct s as [st ma mt sq su o la dd rq rd rt]. cbn.
  destruct (_ && (dd <=? now)); [destruct la|]; cbn; destruct (_ && (rd <=? now)); cbn;
    eexists _, _; unfold set_retransmit, set_request_due, set_dd; cbn; reflexivity.
Qed.
Lemma tick_inv s now : exchange_inv s → exchange_inv (tick s now).1.
Proof.
  intros Hi. destruct (tick_shape s now) as (due & rq & ->). apply inv_timers; [done|done| |].
  - by rewrite size_rearm.
  - intros He. destruct Hi as [_ _ _ _ _ H]. rewrite He in H. destruct H as (_ & -> & _). apply fmap_empty.
Qed.

Lemma receive_inv {E} s b db now :
  exchange_inv s → ∃ s' r, @receive L EA E s b db now = Ok (s', r) ∧ exchange_inv s'.
Proof.
  intros Hi. destruct b as [h|m o f q hs|keys|lsas|hs]; cbn [receive].
  - by eexists _, _.
  - by apply receive_description_inv.
  - destruct (can_exchange s); [|by eexists _, _].
    pose proof (serve_requests_inv s keys db now [] Hi). destruct (serve_requests _ _ _ _ _). by eexists _, _.
  - destruct (can_exchange s) eqn:E'; [|by eexists _, _].
    pose proof (receive_update_inv s lsas db now Hi E'). destruct (receive_update _ _ _ _). by eexists _, _.
  - destruct (can_exchange s) eqn:E'; [|by eexists _, _]. eexists _, _. split; [done|].
    destruct s. apply (inv_timers _ _ _ _ _ Hi); [done|apply take_acks_size|].
    cbn in *. intros ->. done.
Qed.
(** *** The journal *)

Definition initial (p : OspfBody L) : bool :=
  match p with DatabaseDescription _ _ flags _ _ => negb (Z.land flags 4 =? 0) | _ => false end.
Definition describes (p : OspfBody L) : bool :=
  match p with DatabaseDescription _ _ _ _ _ => true | _ => false end.

(** The summary is that of the noted database, its part before the offset was
    sent, and only in [ExStart] is the packet kept for repetition an initial one. *)
Record journal_ok (s : OspfExchange L) (j : journal) : Prop := {
  jn_summary : summary s = headers_of (snapshot j);
  jn_sent : take (offset s) (summary s) ⊆ sent j;
  jn_last : match last_dd s with
            | Some p => initial p = bool_decide (state s = ExStart)
            | None => True
            end;
}.

(** A call that sends no description and leaves the described part alone. *)
Definition unheard (s s' : OspfExchange L) : Prop :=
  summary s' = summary s ∧ offset s' = offset s ∧ last_dd s' = last_dd s
  ∧ (state s' = ExStart ↔ state s = ExStart).
Definition silent (ps : list (OspfBody L)) : Prop := Forall (λ p, describes p = false) ps.

#[local] Instance unheard_po : PreOrder unheard.
Proof. split; unfold unheard; [done|intros ??? (?&?&?&?) (?&?&?&?); split_and!; (congruence || tauto)]. Qed.

Lemma note_silent db j ps : silent ps → foldl (note db) j ps = j.
Proof. intros H. induction H as [|p ps Hp _ IH]; [done|]. by destruct p. Qed.
Lemma journal_unheard s s' j : unheard s s' → journal_ok s j → journal_ok s' j.
Proof.
  intros (H1 & H2 & H3 & H4) [J1 J2 J3]. split; rewrite ?H1, ?H2, ?H3; try done.
  by rewrite (bool_decide_ext _ _ H4).
Qed.

Lemma initial_spec mtu_ o f q (hs : list Header) : initial (DatabaseDescription mtu_ o f q hs) = negb (Z.land f 4 =? 0).
Proof. done. Qed.
Lemma own_flags_4 s : Z.land (own_flags s) 4 = 0.
Proof. unfold own_flags, more_flag. by destruct (master s), (_ <? _)%nat. Qed.

Lemma journal_start s db now j :
  let '(s', p) := start s db now in journal_ok s' (note db j p).
Proof. cbn. split; cbn; [done|set_solver|done]. Qed.
Lemma journal_repeat s j db p :
  journal_ok s j → exchange_inv s → last_dd s = Some p → (state s = ExStart → db = snapshot j) →
  journal_ok s (note db j p).
Proof.
  intros Hj Hi Hl Hdb. pose proof Hj as [J1 J2 J3]. rewrite Hl in J3. destruct p as [|? ? f ? hs| | |]; cbn in *; try done.
  destruct (Z.land f 4 =? 0) eqn:E; cbn in J3; symmetry in J3.
  - split; cbn; [done|set_solver|]. rewrite Hl. cbn. by rewrite E, J3.
  - apply bool_decide_eq_true in J3. destruct Hi as [_ _ _ _ _ Hs]. rewrite J3 in Hs.
    destruct Hs as (_ & _ & Ho). rewrite Hdb by done. split; cbn; [done| |].
    + rewrite Ho, take_0. set_solver.
    + rewrite Hl, J3. cbn. by rewrite E.
Qed.
Lemma journal_next s db now j :
  summary s = headers_of (snapshot j) → take (offset s) (summary s) ⊆ sent j →
  (offset s ≤ length (summary s))%nat → state s ≠ ExStart →
  ∃ s' p, @next_dd L EA Empty_set s now = Ok (s', p) ∧ journal_ok s' (note db j p)
    ∧ state s' = state s ∧ summary s' = summary s ∧ master s' = master s ∧ mtu s' = mtu s
    ∧ requests s' = requests s.
Proof.
  intros J1 J2 Ho Hst. destruct (@next_dd_spec L EA Empty_set s now Ho) as (s' & hs & -> & Heq & Hle & Hhs & _).
  eexists s', _. split; [done|].
  assert (F : summary s' = summary s ∧ state s' = state s ∧ master s' = master s ∧ mtu s' = mtu s
    ∧ requests s' = requests s
    ∧ last_dd s' = Some (DatabaseDescription (mtu s) OPTIONS (own_flags s') (sequence s) hs)).
  { rewrite Heq. cbn. split_and!; try done. by rewrite Heq at 1. }
  destruct F as (F1 & F2 & F3 & F4 & F5 & F6). split; [|done].
  cbn [note]. rewrite own_flags_4. change (0 =? 0) with true. cbv iota. split; cbn [snapshot sent].
  - by rewrite F1.
  - rewrite F1. replace (offset s') with (offset s + (offset s' - offset s))%nat by lia.
    rewrite <-take_take_drop. rewrite <-Hhs. set_solver.
  - rewrite F6, F2. cbn [initial]. rewrite own_flags_4. by rewrite bool_decide_false.
Qed.

Lemma unheard_flood s lsa now s' p :
  flood s lsa now = (s', p) → unheard s s' ∧ silent (match p with Some p => [p] | None => [] end).
Proof.
  unfold flood. destruct (can_exchange s); cbn [negb]; [|by intros [= <- <-]; repeat constructor].
  destruct (ok _) as [n|]; [|by intros [= <- <-]; repeat constructor].
  destruct (_ || _); intros [= <- <-]; by repeat constructor.
Qed.
Lemma unheard_take_lsa s lsa db now u s' u' :
  take_lsa s lsa db now u = (s', u') → silent (packets (up_result u)) →
  unheard s s' ∧ silent (packets (up_result u')).
Proof.
  unfold take_lsa. destruct (ok (header lsa)) as [h|]; [|by intros [= <- <-]].
  destruct (stale s h); [by intros [= <- <-]|]. set (s1 := set_requests s _).
  assert (H1 : unheard s s1) by done.
  destruct (known db (header_key h)) as [old|]; [|by intros [= <- <-]].
  destruct (bool_decide _); [|by intros [= <- <-]].
  destruct (db !! header_key h) as [mine|]; [|by intros [= <- <-]].
  destruct (flood s1 mine now) as [s2 p] eqn:Ef. intros [= <- <-] Hu.
  destruct (unheard_flood s1 mine now s2 p Ef) as [H2 Hp].
  split; [by etrans|]. by apply Forall_app.
Qed.
Lemma unheard_take_lsas s lsas db now u s' u' :
  take_lsas s lsas db now u = (s', u') → silent (packets (up_result u)) →
  unheard s s' ∧ silent (packets (up_result u')).
Proof.
  revert s u. induction lsas as [|lsa lsas IH]; intros s u; cbn [take_lsas]; [by intros [= <- <-]|].
  destruct (take_lsa s lsa db now u) as [s1 u1] eqn:E. intros H Hu.
  destruct (unheard_take_lsa _ _ _ _ _ _ _ E Hu) as [H1 Hu1]. destruct (IH s1 u1 H Hu1) as [H2 Hu2].
  split; [by etrans|done].
Qed.
Lemma unheard_update s lsas db now :
  can_exchange s = true →
  unheard s (receive_update s lsas db now).1 ∧ silent (packets (receive_update s lsas db now).2).
Proof.
  intros Hc. unfold receive_update. destruct (take_lsas s lsas db now _) as [s1 u] eqn:E.
  destruct (unheard_take_lsas _ _ _ _ _ _ _ E) as [H1 Hu]; [constructor|].
  assert (Ha : silent (packets (up_result u) ++ map LinkStateAck
    (chunks (Z.to_nat (Z.max (sat_sub (mtu s1) PACKET_OVERHEAD `div` 20) 1)) (up_acks u)))).
  { apply Forall_app. split; [done|]. apply Forall_map. by apply Forall_true. }
  destruct (bool_decide (state s1 = Loading)) eqn:El; cbn [andb]; [|by split].
  destruct (bool_decide (requests s1 = ∅)); [|by split]. split; [|exact Ha]. apply bool_decide_eq_true in El.
  destruct H1 as (?&?&?&H1). split_and!; try done. cbn. rewrite El in H1. split; [done|].
  intros Hs. by rewrite <-H1 in Hs.
Qed.
Lemma journal_serve s keys db now out j :
  journal_ok s j → silent out →
  let '(s', r) := serve_requests s keys db now out in journal_ok s' (foldl (note db) j (packets r)).
Proof.
  revert s out. induction keys as [|k keys IH]; intros s out Hj Ho; cbn [serve_requests].
  - cbn [packets]. by rewrite note_silent.
  - destruct (db !! k) as [lsa|].
    + destruct (flood s lsa now) as [s1 p] eqn:Ef. destruct (unheard_flood _ _ _ _ _ Ef) as [H1 Hp].
      apply IH; [by eapply journal_unheard|]. destruct p; [by apply Forall_app|done].
    + pose proof (journal_start (bump s) db now j) as H. unfold restart.
      destruct (start (bump s) db now) as [s1 p]. exact H.
Qed.

Lemma journal_finish s now j :
  journal_ok s j → state s ≠ ExStart →
  journal_ok (finish s now).1 j ∧ silent (finish s now).2.
Proof.
  intros Hj Hs. unfold finish. cbn [requests set_state].
  destruct (bool_decide (requests s = ∅)); cbn [fst snd]; (split; [eapply journal_unheard; [|done]|]).
  1,3: by split_and!.
  - constructor.
  - apply Forall_map. by apply Forall_true.
Qed.
Lemma silent_note db j ps qs : silent qs → foldl (note db) j (ps ++ qs) = foldl (note db) j ps.
Proof. intros H. by rewrite foldl_app, note_silent. Qed.

Lemma journal_description s m o f q hs db now j s' r :
  exchange_inv s → journal_ok s j →
  receive_description s m o f q hs db now = @Ok Empty_set _ (s', r) →
  journal_ok s' (foldl (note db) j (packets r)).
Proof.
  intros Hi Hj. pose proof (inv_pre s Hi) as (Ho & _). pose proof Hj as [J1 J2 J3]. unfold receive_description.
  destruct (_ || _); [by intros [= <- <-]|].
  destruct (bool_decide (state s = ExStart)) eqn:Ex.
  { destruct (_ && bool_decide (hs = [])).
    - destruct (journal_next (set_state (set_sequence s q) Exchange) db now j) as (s1 & p & -> & H & _); try done.
      rewrite bind_Ok. by intros [= <- <-].
    - destruct (_ && _); [|by intros [= <- <-]].
      destruct (journal_next (bump (request_headers (set_state s Exchange) hs db)) db now j) as (s1 & p & -> & H & _); try done.
      rewrite bind_Ok. by intros [= <- <-]. }
  apply bool_decide_eq_false in Ex.
  destruct (can_exchange s); cbn [negb]; [|by intros [= <- <-]].
  destruct (_ && _).
  { intros [= <- <-]. cbn [packets]. destruct (last_dd s) as [p|] eqn:El; [|done].
    apply (journal_repeat s j db p Hj Hi El). by intros ?. }
  destruct (_ && _); [by intros [= <- <-]|]. destruct (_ && _); [by intros [= <- <-]|].
  destruct (_ || negb (bool_decide (state s = Exchange))) eqn:Eok.
  { pose proof (journal_start (bump s) db now j) as H. unfold restart.
    destruct (start (bump s) db now) as [s1 p]. by intros [= <- <-]. }
  apply orb_false_iff in Eok as [_ Eex]. apply negb_false_iff, bool_decide_eq_true in Eex.
  set (s1 := request_headers s hs db). assert (Hj1 : journal_ok s1 j) by (apply (journal_unheard s); [done|exact Hj]).
  change (master s1) with (master s). destruct (master s).
  - destruct (negb _ && _).
    + destruct (journal_finish s1 now j Hj1 Ex) as [H Hs]. destruct (finish s1 now) as [s2 ps].
      intros [= <- <-]. cbn [packets]. by rewrite note_silent.
    + destruct (journal_next (bump s1) db now j) as (s2 & p & -> & H & _); try done.
      rewrite bind_Ok. by intros [= <- <-].
  - destruct (journal_next (set_sequence s1 q) db now j) as (s2 & p & -> & H & Hst & _); try done.
    rewrite bind_Ok. destruct (_ && _); [|by intros [= <- <-]].
    assert (Hs2 : state s2 ≠ ExStart) by by rewrite Hst.
    destruct (journal_finish s2 now _ H Hs2) as [H' Hq]. destruct (finish s2 now) as [s3 ps].
    intros [= <- <-]. cbn [packets foldl]. by rewrite note_silent.
Qed.
Lemma journal_receive s b db now j s' r :
  exchange_inv s → journal_ok s j → receive s b db now = @Ok Empty_set _ (s', r) →
  journal_ok s' (foldl (note db) j (packets r)).
Proof.
  intros Hi Hj. destruct b as [h|m o f q hs|keys|lsas|hs]; cbn [receive].
  - by intros [= <- <-].
  - by apply journal_description.
  - destruct (can_exchange s); [|by intros [= <- <-]].
    pose proof (journal_serve s keys db now [] j Hj ltac:(constructor)) as H.
    destruct (serve_requests _ _ _ _ _). by intros [= <- <-].
  - destruct (can_exchange s) eqn:Ec; [|by intros [= <- <-]].
    destruct (unheard_update s lsas db now Ec) as [H Hs]. destruct (receive_update _ _ _ _).
    intros [= <- <-]. cbn [fst snd] in *. rewrite note_silent by done. by eapply journal_unheard.
  - destruct (can_exchange s); intros [= <- <-]; [|done]. by apply (journal_unheard s).
Qed.
Lemma journal_tick s now j :
  exchange_inv s → journal_ok s j →
  journal_ok (tick s now).1 (foldl (note (snapshot j)) j (tick s now).2).
Proof.
  intros Hi Hj. unfold tick. destruct (tick_dd s now) as [s1 dd] eqn:E1.
  destruct (tick_requests s1 now) as [s2 rq] eqn:E2. cbn [tick_retransmit fst snd].
  assert (H2 : unheard s1 s2 ∧ silent rq).
  { unfold tick_requests in E2. destruct (_ && _); injection E2 as <- <-; [|by repeat constructor].
    split; [done|]. apply Forall_map. by apply Forall_true. }
  destruct H2 as [H2 Hrq]. rewrite foldl_app. rewrite silent_note; cycle 1.
  { apply Forall_forall. intros p. rewrite list_elem_of_omap. intros (e & _ & He). by destruct (_ <=? _); simplify_eq. }
  rewrite note_silent by done.
  apply (journal_unheard s1); [etrans; [exact H2|done]|].
  unfold tick_dd in E1. destruct (_ && _); [|by injection E1 as <- <-].
  destruct (last_dd s) as [p|] eqn:El; injection E1 as <- <-; [|done].
  cbn [foldl]. apply (journal_unheard s).
  - split_and!; (done || by rewrite El).
  - by apply (journal_repeat s j _ p).
Qed.

Lemma call_step_inv s c j :
  exchange_inv s → journal_ok s j →
  ∃ s' out, call_step s c = Ok (s', out) ∧ exchange_inv s'
    ∧ journal_ok s' (foldl (note (call_database c j)) j out).
Proof.
  intros Hi Hj. destruct c as [db now|lsa now|b db now|now]; cbn [call_step call_database].
  - pose proof (inv_start s db now) as H. pose proof (journal_start s db now j) as H'.
    destruct (start s db now) as [s' p]. by exists s', [p].
  - destruct (flood s lsa now) as [s' p] eqn:E. eexists s', _. split; [done|].
    split; [by destruct (flood_inv _ _ _ _ _ Hi E)|]. destruct (unheard_flood _ _ _ _ _ E) as [H Hp].
    rewrite note_silent by done. by eapply journal_unheard.
  - destruct (@receive_inv Empty_set s b db now Hi) as (s' & r & E & Hi'). rewrite E. exists s', (packets r).
    split; [done|]. split; [done|]. exact (journal_receive s b db now j s' r Hi Hj E).
  - pose proof (tick_inv s now Hi). pose proof (journal_tick s now j Hi Hj).
    destruct (tick s now) as [s' out]. by exists s', out.
Qed.

Lemma run_calls_inv s j calls :
  exchange_inv s → journal_ok s j →
  ∃ s' j', run_calls s j calls = Ok (s', j') ∧ exchange_inv s' ∧ journal_ok s' j'.
Proof.
  revert s j. induction calls as [|c calls IH]; intros s j Hi Hj; cbn [run_calls]; [by exists s, j|].
  destruct (call_step_inv s c j Hi Hj) as (s1 & out & -> & Hi1 & Hj1). rewrite bind_Ok. by apply IH.
Qed.
Lemma headers_all db :
  (size db ≤ OSPF_DATABASE_LIMIT)%nat → headers_of db = omap (λ e, ok (header e.2)) (entries key_code db).
Proof.
  intros Hs. unfold headers_of. apply take_ge.
  assert (H : ∀ l : list (Key * L), (length (omap (λ e, ok (header e.2)) l) ≤ length l)%nat).
  { induction l as [|e l IH]; [done|]. cbn. destruct (ok (header e.2)); cbn; lia. }
  rewrite H, length_entries. done.
Qed.
Lemma elem_of_headers_of db k lsa h :
  (size db ≤ OSPF_DATABASE_LIMIT)%nat → db !! k = Some lsa → ok (header lsa) = Some h → h ∈ headers_of db.
Proof.
  intros Hs Hk Hh. rewrite headers_all by done.
  apply list_elem_of_omap. exists (k, lsa). split; [by apply elem_of_entries|done].
Qed.

(** C16: Whatever the owning device does with an adjacency, in any order and
    with any packets, databases and times, no call panics; at most
    [OSPF_DATABASE_LIMIT] requests and retransmissions are held, [Full] means
    that nothing is requested and [Loading] that something is.  And an adjacency
    that has left the exchange ([Loading] or [Full]) has described its whole
    database to the neighbour: every advertisement of the database it was
    started or last restarted on, if that holds at most [OSPF_DATABASE_LIMIT]
    advertisements and the header of this one can be encoded, is named in a
    database description it has sent since. *)
Theorem adjacency_invariant local peer mtu sequence calls :
  ∃ s j, run_calls (exchange_new local peer mtu sequence) (mkJournal ∅ []) calls = Ok (s, j)
    ∧ exchange_inv s
    ∧ ((state s = Loading ∨ state s = Full) → (size (snapshot j) ≤ OSPF_DATABASE_LIMIT)%nat →
       ∀ k lsa h, snapshot j !! k = Some lsa → ok (header lsa) = Some h → h ∈ sent j).
Proof.
  destruct (run_calls_inv (exchange_new local peer mtu sequence) (mkJournal ∅ []) calls)
    as (s & j & Hr & Hi & [J1 J2 _]).
  { apply inv_new. }
  { split; cbn; [|set_solver|done]. unfold headers_of. by rewrite entries_empty. }
  exists s, j. split; [done|]. split; [done|]. intros Hst Hsz k lsa h Hk Hh. apply J2.
  assert (offset s = length (summary s)) as ->.
  { destruct Hi as [_ _ _ _ _ H]. by destruct Hst as [Hst|Hst]; rewrite Hst in H; destruct H. }
  rewrite firstn_all, J1. by eapply elem_of_headers_of.
Qed.

(** ** Timers *)

Lemma min_of_Some l d : min_of l = Some d → d ∈ l ∧ Forall (λ x, d ≤ x) l.
Proof.
  destruct l as [|x l]; [done|]. cbn. intros [= <-].
  assert (H : ∀ l x, foldl Z.min x l ∈ x :: l ∧ Forall (λ y, foldl Z.min x l ≤ y) (x :: l)); [|apply H].
  clear. induction l as [|y l IH]; intros x; cbn [foldl]; [split; [set_solver|by repeat constructor]|].
  destruct (IH (Z.min x y)) as [H1 H2]. apply Forall_cons in H2 as [H2 H3]. split.
  - apply elem_of_cons in H1 as [H1|H1]; [|set_solver].
    destruct (Z.min_spec x y) as [[_ E]|[_ E]]; rewrite E in *; set_solver.
  - constructor; [lia|]. constructor; [lia|done].
Qed.
Lemma min_of_None l : min_of l = None ↔ l = [].
Proof. by destruct l. Qed.

Lemma elem_of_if {A} (b : bool) (x : A) l : x ∈ (if b then l else []) ↔ b = true ∧ x ∈ l.
Proof. destruct b; set_solver. Qed.
Lemma elem_of_resent (m : gmap Key (L * SimTime)) now (p : OspfBody L) :
  p ∈ omap (λ e : Key * (L * SimTime), if e.2.2 <=? now then Some (LinkStateUpdate [e.2.1]) else None)
        (entries key_code m)
  ↔ ∃ k lsa due, m !! k = Some (lsa, due) ∧ due ≤ now ∧ p = LinkStateUpdate [lsa].
Proof.
  rewrite list_elem_of_omap. split.
  - intros ([k [lsa due]] & Hin & H). apply elem_of_entries in Hin. cbn in H.
    destruct (due <=? now) eqn:E; [|done]. simplify_eq. exists k, lsa, due. split_and!; (done || lia).
  - intros (k & lsa & due & Hin & Hle & ->). exists (k, (lsa, due)). split; [by apply elem_of_entries|].
    cbn. by destruct (due <=? now) eqn:E; [|lia].
Qed.
Lemma resent_nil (m : gmap Key (L * SimTime)) now :
  (∀ k lsa due, m !! k = Some (lsa, due) → now < due) →
  omap (λ e : Key * (L * SimTime), if e.2.2 <=? now then Some (@LinkStateUpdate L EA [e.2.1]) else None)
    (entries key_code m) = []
  ∧ rearm now <$> m = m.
Proof.
  intros H. split.
  - destruct (omap _ _) as [|p l] eqn:E; [done|]. exfalso.
    destruct (proj1 (elem_of_resent m now p)) as (k & lsa & due & Hk & Hle & _).
    { rewrite E. set_solver. }
    apply H in Hk. lia.
  - apply map_eq. intros k. rewrite lookup_fmap. destruct (m !! k) as [[lsa due]|] eqn:E; [|done].
    cbn. unfold rearm. cbn. apply H in E. destruct (due <=? now) eqn:E'; [lia|done].
Qed.
Lemma elem_of_deadlines s d :
  d ∈ (if dd_active s then [dd_due s] else [])
      ++ (if bool_decide (state s = Loading) then [request_due s] else [])
      ++ map (λ e, e.2.2) (entries key_code (retransmit s))
  ↔ (dd_active s = true ∧ d = dd_due s) ∨ (state s = Loading ∧ d = request_due s)
    ∨ ∃ k lsa, retransmit s !! k = Some (lsa, d).
Proof.
  rewrite !elem_of_app.
  assert (H1 : d ∈ (if dd_active s then [dd_due s] else []) ↔ dd_active s = true ∧ d = dd_due s).
  { destruct (dd_active s); set_solver. }
  assert (H2 : d ∈ (if bool_decide (state s = Loading) then [request_due s] else [])
    ↔ state s = Loading ∧ d = request_due s).
  { case_bool_decide; set_solver. }
  assert (H3 : d ∈ map (λ e : Key * (L * SimTime), e.2.2) (entries key_code (retransmit s))
    ↔ ∃ k lsa, retransmit s !! k = Some (lsa, d)).
  { rewrite list_elem_of_fmap. split.
    - intros ([k [lsa due]] & -> & H%elem_of_entries). by exists k, lsa.
    - intros (k & lsa & H). exists (k, (lsa, d)). split; [done|]. by apply elem_of_entries. }
  by rewrite H1, H2, H3.
Qed.
Lemma next_deadline_lt s now :
  (∀ d, next_deadline s = Some d → now < d) ↔
  (dd_active s = true → now < dd_due s) ∧ (state s = Loading → now < request_due s)
  ∧ ∀ k lsa due, retransmit s !! k = Some (lsa, due) → now < due.
Proof.
  assert (H : (∀ d, next_deadline s = Some d → now < d) ↔
    ∀ d, d ∈ (if dd_active s then [dd_due s] else [])
      ++ (if bool_decide (state s = Loading) then [request_due s] else [])
      ++ map (λ e, e.2.2) (entries key_code (retransmit s)) → now < d).
  { unfold next_deadline. set (l := _ ++ _). split.
    - intros H d Hd. destruct (min_of l) as [m|] eqn:E.
      + apply min_of_Some in E as [_ E]. rewrite Forall_forall in E. specialize (H m eq_refl).
        specialize (E d Hd). cbn in E. lia.
      + apply min_of_None in E. rewrite E in Hd. set_solver.
    - intros H d E. apply min_of_Some in E as [E _]. by apply H. }
  rewrite H. setoid_rewrite elem_of_deadlines. naive_solver.
Qed.

(** One [tick] sends again exactly what is due: the last description while
    the exchange runs and the side is responsible for it, the request list
    while loading, and each unacknowledged update whose timer has expired;
    afterwards every timer lies in the future, so that the event loop driven by
    [next_deadline] makes progress, and a tick before the deadline does
    nothing. *)
Theorem retransmit_progress s now :
  exchange_inv s → is_Some (last_dd s) → 0 ≤ now → now + RETRANSMIT_US ≤ U64_MAX →
  let '(s', out) := tick s now in
  state s' = state s ∧ requests s' = requests s
  ∧ (∀ d, next_deadline s' = Some d → now < d)
  ∧ (∀ k lsa due, retransmit s !! k = Some (lsa, due) →
       retransmit s' !! k = Some (lsa, if due <=? now then now + RETRANSMIT_US else due))
  ∧ (∀ p, p ∈ out ↔
       (dd_active s = true ∧ dd_due s ≤ now ∧ last_dd s = Some p)
       ∨ (state s = Loading ∧ request_due s ≤ now ∧ p ∈ request_packets s)
       ∨ (∃ k lsa due, retransmit s !! k = Some (lsa, due) ∧ due ≤ now ∧ p = LinkStateUpdate [lsa]))
  ∧ ((∀ d, next_deadline s = Some d → now < d) → out = [] ∧ s' = s).
Proof.
  intros Hi [last Hlast] Hn Hm. destruct (tick s now) as [s' out] eqn:Et.
  assert (Hlater : later now = now + RETRANSMIT_US) by (unfold later, sat_add; lia).
  assert (HR : RETRANSMIT_US = 5000000) by done.
  unfold tick, tick_dd, tick_requests, tick_retransmit in Et. rewrite Hlast in Et.
  set (dd := dd_active s && (dd_due s <=? now)) in *.
  assert (Hdd : ∃ s1 o1, (if dd then (set_dd s (Some last) (later now), [last]) else (s, [])) = (s1, o1)
    ∧ s1 = set_dd s (Some last) (if dd then now + RETRANSMIT_US else dd_due s)
    ∧ o1 = if dd then [last] else []).
  { rewrite <-Hlater. destruct dd; eexists _, _; (split; [done|]); [done|]. split; [|done].
    unfold set_dd. rewrite <-Hlast. by destruct s. }
  destruct Hdd as (s1 & o1 & Hdd & Hs1 & Ho1). rewrite Hdd in Et.
  set (rq := bool_decide (state s = Loading) && (request_due s <=? now)) in *.
  assert (Hrq : ∃ s2 o2, (if bool_decide (state s1 = Loading) && (request_due s1 <=? now)
      then (set_request_due s1 (later now), request_packets s1) else (s1, [])) = (s2, o2)
    ∧ s2 = set_request_due s1 (if rq then now + RETRANSMIT_US else request_due s)
    ∧ o2 = if rq then request_packets s else []).
  { rewrite Hs1. cbn. fold rq. rewrite <-Hlater. destruct rq; eexists _, _; split; done. }
  destruct Hrq as (s2 & o2 & Hrq & Hs2 & Ho2). rewrite Hrq in Et.
  rewrite Hs2, Hs1 in Et. cbn in Et. rewrite Ho1, Ho2 in Et. injection Et as <- <-.
  cbn [state requests set_retransmit set_request_due set_dd retransmit].
  split_and!; [done|done| | | |].
  - apply next_deadline_lt. cbn. split_and!.
    + intros Ha. unfold dd_active in Ha. cbn in Ha. fold (dd_active s) in Ha.
      unfold dd. rewrite Ha. cbn [andb]. destruct (dd_due s <=? now) eqn:E; lia.
    + intros Hl. unfold rq. rewrite bool_decide_true by done. cbn [andb].
      destruct (request_due s <=? now) eqn:E; lia.
    + intros k lsa due. rewrite lookup_fmap. destruct (retransmit s !! k) as [[a b]|]; [|done].
      cbn. unfold rearm. cbn. destruct (b <=? now) eqn:E; intros [= <- <-]; lia.
  - intros k lsa due Hk. rewrite lookup_fmap, Hk. cbn. unfold rearm. cbn. rewrite Hlater.
    by destruct (due <=? now).
  - intros p. rewrite !elem_of_app, elem_of_resent, Hlast. unfold dd, rq.
    rewrite !elem_of_if, !andb_true_iff, !Z.leb_le, bool_decide_eq_true, list_elem_of_singleton.
    split; naive_solver.
  - intros (H1 & H2 & H3)%next_deadline_lt.
    assert (Hdf : dd = false).
    { apply not_true_is_false. intros [Ha Hd]%andb_true_iff. apply H1 in Ha. lia. }
    assert (Hrf : rq = false).
    { apply not_true_is_false. intros [Ha%bool_decide_eq_true Hd]%andb_true_iff. apply H2 in Ha. lia. }
    rewrite Hdf, Hrf.
    destruct (resent_nil (retransmit s) now H3) as [Hnil Hsame]. split; [done|].
    rewrite Hsame. rewrite <-Hlast. by destruct s.
Qed.
End runs.

(** ** Two routers exchanging their databases *)

Section synchronization.
Context {L : Type} {EA : ExchangeAdvertisement L}.
Implicit Types (s m : OspfExchange L) (db : gmap Key L).

(** Deliver packets one after the other and collect what is sent back. *)
Fixpoint deliver s (ps : list (OspfBody L)) db (now : SimTime)
    : res Empty_set (OspfExchange L * list (OspfBody L)) :=
  match ps with
  | [] => Ok (s, [])
  | p :: ps =>
      '(s, out) ← receive s p db now;
      '(s, more) ← deliver s ps db now;
      Ok (s, packets out ++ more)
  end.
Definition is_description (p : OspfBody L) : bool :=
  match p with DatabaseDescription _ _ _ _ _ => true | _ => false end.
Definition descriptions (ps : list (OspfBody L)) : list (OspfBody L) :=
  filter (λ p, is_description p = true) ps.

(** [n] rounds on a link that loses nothing: in each, the descriptions in
    flight in both directions arrive. *)
Fixpoint rounds (n : nat) m s dm ds (to_s to_m : list (OspfBody L)) (now : SimTime)
    : res Empty_set (OspfExchange L * OspfExchange L * list (OspfBody L) * list (OspfBody L)) :=
  match n with
  | O => Ok (m, s, to_s, to_m)
  | S n =>
      '(s, from_s) ← deliver s to_s ds now;
      '(m, from_m) ← deliver m to_m dm now;
      rounds n m s dm ds (descriptions from_m) (descriptions from_s) now
  end.

Definition well_keyed db : Prop := map_Forall (λ k l, advertisement_ok l ∧ key l = k) db.

(** The requests [m] of a router with database [db] after seeing [hs]. *)
Definition requested db (hs : list Header) (m : gmap Key Header) : Prop :=
  (size m ≤ length hs)%nat
  ∧ ∀ k h, m !! k = Some h ↔ h ∈ hs ∧ header_key h = k ∧ newer h (known db k) = true.

Lemma requested_nil db : requested db [] ∅.
Proof. split; [done|]. intros k h. rewrite lookup_empty. set_solver. Qed.
Lemma requested_snoc db hs h rq :
  requested db hs rq → NoDup (header_key <$> hs ++ [h]) → (length hs < OSPF_DATABASE_LIMIT)%nat →
  requested db (hs ++ [h]) (request_header db rq h).
Proof.
  intros [Hs Hr] Hnd Hl. rewrite fmap_app, NoDup_app in Hnd. destruct Hnd as (_ & Hnd & _).
  assert (Hfresh : rq !! header_key h = None).
  { destruct (rq !! header_key h) as [h'|] eqn:E; [|done]. exfalso.
    apply Hr in E as (Hin & Hk & _). apply (Hnd (header_key h)); [|set_solver].
    rewrite <-Hk. by apply list_elem_of_fmap_2. }
  unfold request_header. rewrite Hfresh.
  assert ((size rq <? OSPF_DATABASE_LIMIT)%nat = true) as -> by lia. cbn [orb]. rewrite andb_true_r.
  destruct (newer h (known db (header_key h))) eqn:En.
  - split; [rewrite map_size_insert, Hfresh; lens|]. intros k h'.
    destruct (decide (k = header_key h)) as [->|Hne].
    + rewrite lookup_insert_eq. split.
      * intros [= <-]. split_and!; [set_solver|done|done].
      * intros ([Hin|Hin]%elem_of_app & Hk & _); [|set_solver].
        exfalso. apply (Hnd (header_key h)); [|set_solver]. rewrite <-Hk. by apply list_elem_of_fmap_2.
    + rewrite lookup_insert_ne by done. rewrite Hr. set_solver.
  - split; [lens|]. intros k h'. rewrite Hr. split; [set_solver|].
    intros ([Hin|Hin]%elem_of_app & Hk & Hn); [done|]. apply list_elem_of_singleton in Hin as ->.
    subst k. congruence.
Qed.
Lemma requested_app db hs hs' rq :
  requested db hs rq → NoDup (header_key <$> hs ++ hs') → (length (hs ++ hs') ≤ OSPF_DATABASE_LIMIT)%nat →
  requested db (hs ++ hs') (foldl (request_header db) rq hs').
Proof.
  revert hs rq. induction hs' as [|h hs' IH]; intros hs rq Hr Hnd Hl; cbn [foldl]; [by rewrite app_nil_r|].
  change (h :: hs') with ([h] ++ hs') in *. rewrite app_assoc in *. apply IH; [|done|done].
  apply requested_snoc; [done| |lens]. rewrite fmap_app, NoDup_app in Hnd. by destruct Hnd.
Qed.

(** The headers of a database that fits are exactly what it knows. *)
Lemma known_key db k h : well_keyed db → known db k = Some h → header_key h = k.
Proof.
  unfold known. intros Hw H. destruct (db !! k) as [l|] eqn:E; [|done].
  destruct (Hw k l E) as [Hok <-]. apply header_key_key; [done|]. by destruct (header l); cbn in H; simplify_eq.
Qed.
Lemma headers_size db : (size db ≤ OSPF_DATABASE_LIMIT)%nat → (length (headers_of db) ≤ size db)%nat.
Proof.
  intros Hs. rewrite headers_all, <-(length_entries key_code) by done. generalize (entries key_code db).
  induction l as [|e l IH]; [done|]. cbn. destruct (ok (header e.2)); cbn; lia.
Qed.
Lemma elem_of_headers db h :
  (size db ≤ OSPF_DATABASE_LIMIT)%nat → h ∈ headers_of db ↔ ∃ k, known db k = Some h.
Proof.
  intros Hs. rewrite headers_all by done. rewrite list_elem_of_omap. unfold known. split.
  - intros ([k l] & Hin%elem_of_entries & Hh). exists k. by rewrite Hin.
  - intros (k & H). destruct (db !! k) as [l|] eqn:E; [|done]. exists (k, l). by rewrite elem_of_entries.
Qed.
Lemma headers_NoDup db :
  well_keyed db → (size db ≤ OSPF_DATABASE_LIMIT)%nat → NoDup (header_key <$> headers_of db).
Proof.
  intros Hw Hs. rewrite headers_all by done.
  eapply sublist_NoDup; [by apply (entries_NoDup key_code db)|].
  assert (H : ∀ l : list (Key * L), (∀ e, e ∈ l → db !! e.1 = Some e.2) →
    sublist (header_key <$> omap (λ e, ok (header e.2)) l) l.*1).
  { induction l as [|[k l] ls IH]; intros Hl; [done|]. cbn.
    assert (Hk : ∀ h, ok (header l) = Some h → header_key h = k).
    { intros h Hh. apply (known_key db); [done|]. pose proof (Hl (k, l) ltac:(set_solver)) as Hkl. cbn in Hkl.
      unfold known. by rewrite Hkl. }
    specialize (IH ltac:(set_solver)). destruct (ok (header l)) as [h|]; cbn; [|by constructor].
    rewrite (Hk h eq_refl). by constructor. }
  apply H. intros [k l] Hin%elem_of_entries. done.
Qed.

(** What does not change during the exchange of descriptions. *)
Definition agreed m s dm ds : Prop :=
  master m = true ∧ master s = false ∧ mtu m = mtu s
  ∧ summary m = headers_of dm ∧ summary s = headers_of ds.
(** Both run the exchange; the master has sent [p], which describes the headers
    between [from] and its offset, and the slave's requests stop at [from]. *)
Definition in_step m s dm ds (p : OspfBody L) (from : nat) : Prop :=
  state m = Exchange ∧ state s = Exchange ∧ agreed m s dm ds
  ∧ (from ≤ offset m ≤ length (summary m))%nat ∧ (offset s ≤ length (summary s))%nat
  ∧ u32 (sequence s) ∧ sequence m = wrapping_succ (sequence s)
  ∧ last_dd m = Some p
  ∧ p = DatabaseDescription (mtu m) OPTIONS (own_flags m) (sequence m)
          (take (offset m - from) (drop from (summary m)))
  ∧ requested ds (take from (summary m)) (requests s)
  ∧ requested dm (take (offset s) (summary s)) (requests m).
(** The side with database [db] knows all of the other's headers and has left
    the exchange, with its requests outstanding if there are any. *)
Definition described db (peer : gmap Key L) s : Prop :=
  requested db (headers_of peer) (requests s)
  ∧ state s = (if bool_decide (requests s = ∅) then Full else Loading).

Lemma wrapping_succ_ne x : u32 x → wrapping_succ x ≠ x ∧ u32 (wrapping_succ x) ∧ wrapping_pred (wrapping_succ x) = x.
Proof.
  intros Hx. unfold wrapping_succ, wrapping_pred. destruct (decide (x = 4294967295)) as [->|Hne]; [by vm_compute|].
  rewrite (Z.mod_small (x + 1)) by lia. split_and!; lia.
Qed.
Lemma wrapping_pred_ne x : u32 x → wrapping_pred x ≠ x.
Proof.
  intros Hx. unfold wrapping_pred. destruct (decide (x = 0)) as [->|Hne]; [by vm_compute|].
  rewrite Z.mod_small; lia.
Qed.
Lemma own_flags_bits s :
  Z.land (own_flags s) (Z.lxor 7 255) = 0 ∧ Z.land (own_flags s) 4 = 0
  ∧ negb (Z.land (own_flags s) 1 =? 0) = master s
  ∧ (Z.land (own_flags s) 2 =? 0) = (length (summary s) <=? offset s)%nat
  ∧ (master s = false → Z.land (own_flags s) 5 = 0).
Proof.
  unfold own_flags, more_flag.
  destruct (offset s <? length (summary s))%nat eqn:E, (master s);
    (split; [reflexivity|]; split; [reflexivity|]; split; [reflexivity|]; split; [symmetry|done]).
  1-2: apply Nat.leb_gt; lia.
  all: apply Nat.leb_le; lia.
Qed.

Lemma take_more {A} (l : list A) a b : (a ≤ b ≤ length l)%nat → take a l ++ take (b - a) (drop a l) = take b l.
Proof. intros H. rewrite take_drop_commute. replace (a + (b - a))%nat with b by lia.
  etrans; [|apply (take_drop a)]. by rewrite take_take, Nat.min_l by lia. Qed.

(** Recording the next stretch of the peer's summary. *)
Lemma request_stretch db peer rq (a b : nat) :
  well_keyed peer → (size peer ≤ OSPF_DATABASE_LIMIT)%nat → (a ≤ b ≤ length (headers_of peer))%nat →
  requested db (take a (headers_of peer)) rq →
  requested db (take b (headers_of peer))
    (foldl (request_header db) rq (take (b - a) (drop a (headers_of peer)))).
Proof.
  intros Hw Hs Hab Hr. rewrite <-(take_more _ a b) by done. apply requested_app; [done| |].
  - rewrite take_more by done. eapply sublist_NoDup; [by apply headers_NoDup|].
    apply fmap_sublist. apply sublist_take.
  - rewrite take_more by done. rewrite length_take. pose proof (length_headers_of peer). lia.
Qed.

Lemma descriptions_requests (kss : list (list Key)) : descriptions (map LinkStateRequest kss) = [].
Proof. induction kss as [|ks kss IH]; [done|]. exact IH. Qed.
Lemma descriptions_cons f q (mt : Z) hs ps :
  descriptions (DatabaseDescription mt OPTIONS f q hs :: ps)
  = DatabaseDescription mt OPTIONS f q hs :: descriptions ps.
Proof. done. Qed.
Lemma finish_spec s now :
  ∃ s' ps, finish s now = (s', ps) ∧ descriptions ps = []
    ∧ state s' = (if bool_decide (requests s = ∅) then Full else Loading) ∧ requests s' = requests s
    ∧ offset s' = offset s ∧ summary s' = summary s ∧ master s' = master s ∧ mtu s' = mtu s
    ∧ sequence s' = sequence s.
Proof.
  unfold finish. cbn. destruct (bool_decide (requests s = ∅)) eqn:E; eexists _, _; (split; [reflexivity|]); cbn.
  - by split_and!.
  - split_and!; try done. apply descriptions_requests.
Qed.

(** The slave answers the master's description. *)
Lemma slave_step m s dm ds p from now :
  in_step m s dm ds p from → well_keyed dm → (size dm ≤ OSPF_DATABASE_LIMIT)%nat →
  ∃ s' out hs, receive s p ds now = @Ok Empty_set _ (s', mkResult out [])
    ∧ descriptions out = [DatabaseDescription (mtu m) OPTIONS (own_flags s') (sequence m) hs]
    ∧ agreed m s' dm ds ∧ sequence s' = sequence m
    ∧ (offset s ≤ offset s' ≤ length (summary s'))%nat
    ∧ (offset s < length (summary s) → offset s < offset s')%nat
    ∧ hs = take (offset s' - offset s) (drop (offset s) (headers_of ds))
    ∧ requested ds (take (offset m) (headers_of dm)) (requests s')
    ∧ state s' = (if (length (summary s') <=? offset s')%nat && (length (summary m) <=? offset m)%nat
                  then if bool_decide (requests s' = ∅) then Full else Loading else Exchange).
Proof.
  intros (Hm & Hs & (Mm & Ms & Hmtu & Sm & Ss) & Hfrom & Ho & Hq & Hseq & Hlast & -> & Rs & Rm) Hw Hsz.
  destruct (wrapping_succ_ne _ Hq) as (Hne & _ & _).
  destruct (own_flags_bits m) as (B8 & B4 & B1 & B2 & _).
  assert (Hl : length (summary m) = length (headers_of dm)) by by rewrite Sm.
  pose proof (request_stretch ds dm (requests s) from (offset m) Hw Hsz ltac:(lia)) as Hstretch.
  rewrite Sm in Rs. specialize (Hstretch Rs).
  cbn [receive]. unfold receive_description. rewrite Hmtu, Z.ltb_irrefl, B8, Z.land_diag, !Z.eqb_refl.
  cbn [negb orb]. rewrite Hs, Ms. unfold can_exchange. rewrite Hs. rewrite bool_decide_false by done.
  cbn [negb andb]. rewrite Hseq, (proj2 (Z.eqb_neq _ _) Hne), Z.eqb_refl, B4, B1, Mm.
  rewrite bool_decide_true by done. cbn [Z.eqb negb orb Bool.eqb].
  set (s1 := request_headers s _ ds). change (master s1) with (master s). rewrite Ms.
  destruct (@next_dd_spec L EA Empty_set (set_sequence s1 (wrapping_succ (sequence s))) now Ho)
    as (s' & hs & -> & Heq & Hle & Hhs & Hadv). rewrite bind_Ok.
  cbn [offset summary set_sequence request_headers set_requests s1] in Hle, Hhs, Hadv.
  assert (F : summary s' = headers_of ds ∧ state s' = Exchange ∧ master s' = false ∧ mtu s' = mtu s
    ∧ sequence s' = wrapping_succ (sequence s)
    ∧ requests s' = foldl (request_header ds) (requests s) (take (offset m - from) (drop from (summary m)))).
  { rewrite Heq. cbn. by rewrite Ss. }
  destruct F as (F1 & F2 & F3 & F4 & F5 & F6). rewrite Sm in F6. rewrite <-F6 in Hstretch.
  assert (Hlen : length (summary s') = length (summary s)) by by rewrite F1, Ss.
  rewrite B2. destruct (_ && _) eqn:Efin.
  - apply andb_true_iff in Efin as [E1 E2].
    destruct (finish_spec s' now) as (s'' & ps & -> & Hps & G1 & G2 & G3 & G4 & G5 & G6 & G7).
    eexists s'', _, hs. split; [reflexivity|]. rewrite descriptions_cons, Hps.
    assert (own_flags s'' = own_flags s') as ->.
    { unfold own_flags, more_flag. by rewrite G3, G4, G5. }
    unfold agreed. rewrite G1, G2, G3, G4, G5, G6, G7, F1, F3, F4, F5, E2.
    rewrite Hlen, F1 in *.
    split_and!; try done; try lia; try congruence.
    assert ((length (headers_of ds) <=? offset s')%nat = true) as -> by lia. done.
  - eexists s', _, hs. split; [reflexivity|]. rewrite descriptions_cons. unfold agreed.
    split_and!; try done; try lia; try congruence.
    rewrite F2. replace (length (summary s') <=? offset s')%nat with (offset s' =? length (summary s'))%nat by lia.
    by rewrite Efin.
Qed.

(** The master takes the slave's answer. *)
Lemma master_step m s dm ds p from hs s' fs now :
  in_step m s dm ds p from → well_keyed ds → (size ds ≤ OSPF_DATABASE_LIMIT)%nat →
  agreed m s' dm ds → sequence s' = sequence m →
  (offset s ≤ offset s' ≤ length (summary s'))%nat →
  hs = take (offset s' - offset s) (drop (offset s) (headers_of ds)) → fs = own_flags s' →
  let over := (length (summary s') <=? offset s')%nat && (length (summary m) <=? offset m)%nat in
  ∃ m' out, receive m (DatabaseDescription (mtu m) OPTIONS fs (sequence m) hs) dm now
      = @Ok Empty_set _ (m', mkResult out [])
    ∧ requested dm (take (offset s') (headers_of ds)) (requests m')
    ∧ (if over then descriptions out = []
         ∧ state m' = if bool_decide (requests m' = ∅) then Full else Loading
       else ∃ p', descriptions out = [p'] ∧ state m' = Exchange
         ∧ agreed m' s' dm ds ∧ (offset m ≤ offset m' ≤ length (summary m'))%nat
         ∧ (offset m < length (summary m) → offset m < offset m')%nat
         ∧ sequence m' = wrapping_succ (sequence m) ∧ last_dd m' = Some p'
         ∧ p' = DatabaseDescription (mtu m') OPTIONS (own_flags m') (sequence m')
                  (take (offset m' - offset m) (drop (offset m) (summary m')))).
Proof.
  intros (Hm & Hs & (Mm & Ms & Hmtu & Sm & Ss) & Hfrom & Ho & Hq & Hseq & Hlast & -> & Rs & Rm) Hw Hsz.
  intros (_ & Ms' & Hmtu' & _ & Ss') Hseq' Hoff -> -> over.
  destruct (wrapping_succ_ne _ Hq) as (_ & Hu & _).
  destruct (own_flags_bits s') as (B8 & B4 & B1 & B2 & B5).
  rewrite Ss in Rm, Ho. rewrite Ss' in Hoff.
  pose proof (request_stretch dm ds (requests m) (offset s) (offset s') Hw Hsz ltac:(lia) Rm) as Hstretch.
  cbn [receive]. unfold receive_description. rewrite Z.ltb_irrefl, B8, Z.land_diag, !Z.eqb_refl.
  cbn [negb orb]. rewrite Hm, Mm. unfold can_exchange. rewrite Hm, bool_decide_false by done.
  rewrite bool_decide_false by (by intros [|]). cbn [negb andb].
  rewrite <-Hseq in Hu. rewrite (proj2 (Z.eqb_neq _ _) (not_eq_sym (wrapping_pred_ne _ Hu))).
  rewrite Z.eqb_refl, B4, B1, Ms', bool_decide_true by done. cbn [Z.eqb negb orb Bool.eqb].
  set (m1 := request_headers m _ dm). change (master m1) with (master m). rewrite Mm.
  change (last_dd m1) with (last_dd m). rewrite Hlast.
  destruct (own_flags_bits m) as (_ & _ & _ & C2 & _).
  rewrite C2, B2, negb_involutive, (andb_comm (length (summary m) <=? offset m)%nat). fold over.
  assert (Ho1 : (offset m1 ≤ length (summary m1))%nat) by (cbn; lia).
  destruct over.
  - destruct (finish_spec m1 now) as (m' & ps & -> & Hps & G1 & G2 & _). eexists _, _. split; [reflexivity|].
    rewrite G1, G2. done.
  - destruct (@next_dd_spec L EA Empty_set (bump m1) now Ho1) as (m' & hs & -> & Heq & Hle & Hhs & Hadv).
    rewrite bind_Ok. eexists _, _. split; [reflexivity|].
    cbn [offset summary bump set_sequence request_headers set_requests m1] in Hle, Hhs, Hadv.
    assert (F : summary m' = summary m ∧ state m' = Exchange ∧ master m' = true ∧ mtu m' = mtu m
      ∧ sequence m' = wrapping_succ (sequence m)
      ∧ requests m' = foldl (request_header dm) (requests m) (take (offset s' - offset s) (drop (offset s) (headers_of ds)))
      ∧ last_dd m' = Some (DatabaseDescription (mtu m) OPTIONS (own_flags m') (wrapping_succ (sequence m)) hs)).
    { rewrite Heq. cbn. split_and!; try done. by rewrite Heq at 1. }
    destruct F as (F1 & F2 & F3 & F4 & F5 & F6 & F7). rewrite F6. split; [done|].
    eexists. rewrite descriptions_cons. split; [reflexivity|]. unfold agreed.
    rewrite F1, F4, F5, F7, <-Hhs. split_and!; (done || congruence || lia).
Qed.

Lemma deliver_one s p db now s' out adv :
  receive s p db now = @Ok Empty_set _ (s', mkResult out adv) → deliver s [p] db now = Ok (s', out).
Proof. intros H. cbn [deliver]. rewrite H, bind_Ok. cbn. by rewrite app_nil_r. Qed.

(** Two rounds: the slave answers [p] and the master takes the answer. *)
Lemma two_rounds n m s dm ds p now s' outs d m' outm advs advm :
  receive s p ds now = @Ok Empty_set _ (s', mkResult outs advs) → descriptions outs = [d] →
  receive m d dm now = @Ok Empty_set _ (m', mkResult outm advm) →
  rounds (S (S n)) m s dm ds [p] [] now = rounds n m' s' dm ds (descriptions outm) [] now.
Proof.
  intros Hs Hd Hm. cbn [rounds]. rewrite (deliver_one _ _ _ _ _ _ _ Hs), bind_Ok. cbn [deliver]. rewrite bind_Ok.
  rewrite Hd. change (descriptions []) with (@nil (OspfBody L)). cbn [deliver]. rewrite bind_Ok.
  rewrite Hm, !bind_Ok. cbn [packets]. by rewrite app_nil_r.
Qed.

Lemma in_step_next m s dm ds p from m' s' p' :
  in_step m s dm ds p from → sequence s' = sequence m → state s' = Exchange →
  (offset s' ≤ length (summary s'))%nat →
  requested ds (take (offset m) (headers_of dm)) (requests s') →
  requested dm (take (offset s') (headers_of ds)) (requests m') →
  state m' = Exchange → agreed m' s' dm ds → (offset m ≤ offset m' ≤ length (summary m'))%nat →
  sequence m' = wrapping_succ (sequence m) → last_dd m' = Some p' →
  p' = DatabaseDescription (mtu m') OPTIONS (own_flags m') (sequence m')
         (take (offset m' - offset m) (drop (offset m) (summary m'))) →
  in_step m' s' dm ds p' (offset m).
Proof.
  intros (_ & _ & _ & _ & _ & Hq & Hsq & _) Hs1 Hs2 Hs3 Hr1 Hr2 Hm1 Hag Hm2 Hm3 Hm4 Hm5.
  destruct (wrapping_succ_ne _ Hq) as (_ & Hu & _). pose proof Hag as (_ & _ & _ & Sm & Ss).
  split; [done|]. split; [done|]. split; [done|]. split; [done|]. split; [done|].
  rewrite Hs1. split; [by rewrite Hsq|]. split; [done|]. split; [done|]. split; [done|].
  rewrite Sm, Ss. done.
Qed.

Lemma exchange_loop n m s dm ds p from now :
  in_step m s dm ds p from → well_keyed dm → well_keyed ds →
  (size dm ≤ OSPF_DATABASE_LIMIT)%nat → (size ds ≤ OSPF_DATABASE_LIMIT)%nat →
  (length (summary m) - offset m + (length (summary s) - offset s) ≤ n)%nat →
  ∃ k m' s', (k ≤ 2 * (n + 1))%nat ∧ rounds k m s dm ds [p] [] now = Ok (m', s', [], [])
    ∧ described dm ds m' ∧ described ds dm s'.
Proof.
  intros Hin Hwm Hws Hsm Hss. revert m s p from Hin. induction n as [n IH] using lt_wf_ind. intros m s p from Hin Hn.
  destruct (slave_step m s dm ds p from now Hin Hwm Hsm)
    as (s' & outs & hs & Hrs & Hd & Hag & Hseq & Hoff & Hadv & Hhs & Hreq & Hst).
  destruct (master_step m s dm ds p from hs s' _ now Hin Hws Hss Hag Hseq Hoff Hhs eq_refl)
    as (m' & outm & Hrm & Hreqm & Hcase).
  pose proof Hin as (_ & _ & (_ & _ & _ & Sm & Ss) & Hfrom & Ho & Hq & Hsq & _).
  pose proof Hag as (_ & _ & _ & _ & Ss').
  assert (Hlen : length (summary s') = length (summary s)) by by rewrite Ss, Ss'.
  rewrite (andb_comm (length (summary s') <=? _)%nat) in Hst.
  destruct (length (summary m) <=? offset m)%nat eqn:Em, (length (summary s') <=? offset s')%nat eqn:Es; cbn [andb] in *.
  1: { destruct Hcase as [Hout Hstm]. exists 2%nat, m', s'. split; [lia|].
    rewrite (two_rounds _ _ _ _ _ _ _ _ _ _ _ _ _ _ Hrs Hd Hrm), Hout. split; [done|].
    rewrite Sm in Em. rewrite Ss' in Es. rewrite take_ge in Hreq, Hreqm by lia. by split. }
  all: destruct Hcase as (p' & Hout & Hst' & Hag' & Hoff' & Hadv' & Hseq' & Hlast' & Hp').
  all: pose proof Hag' as (_ & _ & _ & Sm' & _);
       assert (Hlen' : length (summary m') = length (summary m)) by (by rewrite Sm, Sm');
       destruct (IH (length (summary m') - offset m' + (length (summary s') - offset s'))%nat
                   ltac:(lia) m' s' p' (offset m)) as (k & m2 & s2 & Hk & Hrun & Hdone);
       [ eapply in_step_next; (done || lia) | done |].
  all: exists (S (S k)), m2, s2; split; [lia|]; split; [|done].
  all: by rewrite (two_rounds _ _ _ _ _ _ _ _ _ _ _ _ _ _ Hrs Hd Hrm), Hout.
Qed.

(** The two sides after [start]. *)
Definition started (s : OspfExchange L) (is_master : bool) mtu_ q db : Prop :=
  state s = ExStart ∧ master s = is_master ∧ mtu s = mtu_ ∧ sequence s = q
  ∧ summary s = headers_of db ∧ offset s = 0%nat ∧ requests s = ∅.
Definition first_dd (mtu_ q : Z) : OspfBody L := DatabaseDescription mtu_ OPTIONS 7 q [].

Lemma slave_start s mtu_ qs qm ds now :
  started s false mtu_ qs ds →
  ∃ s' hs, receive s (first_dd mtu_ qm) ds now
      = @Ok Empty_set _ (s', mkResult [DatabaseDescription mtu_ OPTIONS (own_flags s') qm hs] [])
    ∧ state s' = Exchange ∧ master s' = false ∧ mtu s' = mtu_ ∧ sequence s' = qm
    ∧ summary s' = headers_of ds ∧ requests s' = ∅
    ∧ (offset s' ≤ length (headers_of ds))%nat ∧ hs = take (offset s') (headers_of ds).
Proof.
  intros (Hs & Hm & Hmtu & Hq & Hsum & Ho & Hr). cbn [first_dd receive]. unfold receive_description.
  rewrite Hmtu, Z.ltb_irrefl, Z.land_diag, !Z.eqb_refl, Hm, Hs. cbn [negb orb andb].
  change (Z.land 7 (Z.lxor 7 255) =? 0) with true. change (7 =? 7) with true. cbn [negb orb andb].
  rewrite !bool_decide_true by done.
  destruct (@next_dd_spec L EA Empty_set (set_state (set_sequence s qm) Exchange) now) as (s' & hs & -> & Heq & Hle & Hhs & _).
  { cbn. lia. }
  cbn [offset summary set_sequence set_state mtu sequence] in *. rewrite bind_Ok, Hmtu. exists s', hs. split; [reflexivity|].
  rewrite Ho, Nat.sub_0_r, drop_0, Hsum in Hhs. rewrite Hsum in Hle.
  assert (F : state s' = Exchange ∧ master s' = false ∧ mtu s' = mtu_ ∧ sequence s' = qm
    ∧ summary s' = headers_of ds ∧ requests s' = ∅) by (rewrite Heq; cbn; done).
  destruct F as (?&?&?&?&?&?). split_and!; (done || lia).
Qed.
Lemma master_ignores s mtu_ q q' dm now :
  started s true mtu_ q dm → receive s (first_dd mtu_ q') dm now = @Ok Empty_set _ (s, result_default).
Proof.
  intros (Hs & Hm & Hmtu & _). cbn [first_dd receive]. unfold receive_description.
  rewrite Hmtu, Z.ltb_irrefl, Z.land_diag, !Z.eqb_refl, Hm, Hs. rewrite bool_decide_true by done. done.
Qed.
Lemma master_start m s dm ds mtu_ qm hs now :
  started m true mtu_ qm dm → well_keyed ds → (size ds ≤ OSPF_DATABASE_LIMIT)%nat → u32 qm →
  state s = Exchange → master s = false → mtu s = mtu_ → sequence s = qm →
  summary s = headers_of ds → requests s = ∅ →
  (offset s ≤ length (headers_of ds))%nat → hs = take (offset s) (headers_of ds) →
  ∃ m' p, receive m (DatabaseDescription mtu_ OPTIONS (own_flags s) qm hs) dm now
      = @Ok Empty_set _ (m', mkResult [p] [])
    ∧ descriptions [p] = [p] ∧ in_step m' s dm ds p 0 ∧ (offset s ≤ length (summary s))%nat.
Proof.
  intros (Hm & Mm & Hmtu & Hqm & Hsum & Ho & Hr) Hw Hsz Hu Ss Ms Smtu Sq Ssum Sr So ->.
  destruct (own_flags_bits s) as (B8 & _ & _ & _ & B5). specialize (B5 Ms).
  cbn [receive]. unfold receive_description. rewrite Hmtu, Z.ltb_irrefl, B8, Z.land_diag, !Z.eqb_refl, Hm, Mm.
  cbn [negb orb andb]. rewrite bool_decide_true by done. rewrite B5, Hqm, !Z.eqb_refl. cbn [andb].
  set (m1 := bump _).
  assert (Ho1 : (offset m1 ≤ length (summary m1))%nat) by (cbn; lia).
  destruct (@next_dd_spec L EA Empty_set m1 now Ho1) as (m' & hs & -> & Heq & Hle & Hhs & _). rewrite bind_Ok.
  cbn [offset summary m1 bump set_sequence set_state request_headers set_requests] in Hle, Hhs.
  assert (F : state m' = Exchange ∧ master m' = true ∧ mtu m' = mtu_ ∧ sequence m' = wrapping_succ qm
    ∧ summary m' = headers_of dm
    ∧ requests m' = foldl (request_header dm) ∅ (take (offset s) (headers_of ds))
    ∧ last_dd m' = Some (DatabaseDescription (mtu m1) OPTIONS (own_flags m') (sequence m1) hs)).
  { rewrite Heq. cbn. rewrite Hqm, Hr. split_and!; try done. by rewrite Heq at 1. }
  destruct F as (F1 & F2 & F3 & F4 & F5 & F6 & F7).
  eexists m', _. split; [reflexivity|]. split; [done|]. rewrite Ssum. split; [|done].
  assert (mtu m1 = mtu_ ∧ sequence m1 = wrapping_succ qm) as [E1 E2] by (cbn; by rewrite Hqm). rewrite E1, E2 in *.
  pose proof (request_stretch dm ds ∅ 0 (offset s) Hw Hsz ltac:(lia) (requested_nil dm)) as Hst.
  rewrite Nat.sub_0_r, drop_0 in Hst. rewrite <-F6 in Hst. unfold in_step, agreed.
  rewrite Ho, Nat.sub_0_r, drop_0 in Hhs.
  rewrite F1, F2, F3, F4, F5, F7, Ss, Ms, Smtu, Sq, Ssum, Sr, Nat.sub_0_r, drop_0, take_0, Hhs, Hsum.
  rewrite Hsum in Hle. pose proof (requested_nil ds). split_and!; (done || lia).
Qed.

(** C17: Two neighbours with distinct addresses and one MTU that start the
    exchange over a link that loses nothing leave it after boundedly many
    rounds; by then each has requested exactly those advertisements of the
    other's database that it lacks or holds an older instance of, and is [Full]
    if there are none and [Loading] otherwise. *)
Theorem exchange_synchronizes idm ids mtu_ qm qs dm ds now :
  ids < idm → u32 qm →
  well_keyed dm → well_keyed ds →
  (size dm ≤ OSPF_DATABASE_LIMIT)%nat → (size ds ≤ OSPF_DATABASE_LIMIT)%nat →
  let '(m0, to_s) := start (exchange_new idm ids mtu_ qm) dm now in
  let '(s0, to_m) := start (exchange_new ids idm mtu_ qs) ds now in
  ∃ k m s, (k ≤ 2 * (size dm + size ds) + 4)%nat
    ∧ rounds k m0 s0 dm ds [to_s] [to_m] now = Ok (m, s, [], [])
    ∧ (∀ key h, requests m !! key = Some h ↔ known ds key = Some h ∧ newer h (known dm key) = true)
    ∧ (∀ key h, requests s !! key = Some h ↔ known dm key = Some h ∧ newer h (known ds key) = true)
    ∧ state m = (if bool_decide (requests m = ∅) then Full else Loading)
    ∧ state s = (if bool_decide (requests s = ∅) then Full else Loading).
Proof.
  intros Hids Hq Hwm Hws Hsm Hss.
  destruct (start (exchange_new idm ids mtu_ qm) dm now) as [m0 to_s] eqn:Em0.
  destruct (start (exchange_new ids idm mtu_ qs) ds now) as [s0 to_m] eqn:Es0.
  assert (Hm0 : started m0 true mtu_ qm dm ∧ to_s = first_dd mtu_ qm).
  { injection Em0 as <- <-. unfold started. cbn. split_and!; (done || lia). }
  assert (Hs0 : started s0 false mtu_ qs ds ∧ to_m = first_dd mtu_ qs).
  { injection Es0 as <- <-. unfold started. cbn. split_and!; (done || lia). }
  clear Em0 Es0. destruct Hm0 as [Hm0 ->], Hs0 as [Hs0 ->].
  destruct (slave_start s0 mtu_ qs qm ds now Hs0)
    as (s1 & hs & Hr1 & S1 & S2 & S3 & S4 & S5 & S6 & S7 & S8).
  destruct (master_start m0 s1 dm ds mtu_ qm hs now Hm0 Hws Hss Hq S1 S2 S3 S4 S5 S6 S7 S8)
    as (m1 & p & Hr2 & Hp & Hin & _).
  destruct (exchange_loop (size dm + size ds) m1 s1 dm ds p 0 now Hin Hwm Hws Hsm Hss) as (k & m & s & Hk & Hrun & Hdm & Hds).
  { destruct Hin as (_ & _ & (_ & _ & _ & Sm & Ss) & _). rewrite Sm, Ss.
    pose proof (headers_size dm Hsm). pose proof (headers_size ds Hss). lia. }
  exists (S (S k)), m, s. split; [lia|]. split.
  { cbn [rounds]. rewrite (deliver_one _ _ _ _ _ _ _ Hr1), bind_Ok.
    rewrite (deliver_one _ _ _ _ _ _ _ (master_ignores m0 mtu_ qm qs dm now Hm0)), bind_Ok.
    rewrite descriptions_cons. change (descriptions []) with (@nil (OspfBody L)).
    cbn [deliver]. rewrite bind_Ok, Hr2, !bind_Ok. cbn [packets app].
    change (descriptions []) with (@nil (OspfBody L)). rewrite Hp. exact Hrun. }
  destruct Hdm as [[_ Hrm] Hstm], Hds as [[_ Hrs] Hsts].
  assert (Hiff : ∀ db peer (r : gmap Key Header), well_keyed peer → (size peer ≤ OSPF_DATABASE_LIMIT)%nat →
    (∀ k h, r !! k = Some h ↔ h ∈ headers_of peer ∧ header_key h = k ∧ newer h (known db k) = true) →
    ∀ k h, r !! k = Some h ↔ known peer k = Some h ∧ newer h (known db k) = true).
  { intros db peer r Hw Hsz Hr key h. rewrite Hr, elem_of_headers by done. split.
    - intros ([k' Hk'] & <- & Hn). pose proof (known_key _ _ _ Hw Hk') as Hkk. by rewrite Hkk in *.
    - intros [Hkn Hn]. split; [by exists key|]. split; [by apply (known_key peer)|done]. }
  split; [by apply Hiff|]. split; [by apply Hiff|]. done.
Qed.
End synchronization.

(** ** Witnesses: two OSPFv2 routers, one with an advertisement the other lacks *)

Definition sample_db : gmap LsaKey Lsa := {[ lsa_key sample_lsa := sample_lsa ]}.
Definition sample_router : OspfExchange Lsa := (start (exchange_new 2 1 1500 7) sample_db 0).1.
Definition sample_peer : OspfExchange Lsa := (start (exchange_new 1 2 1500 9) ∅ 0).1.

Lemma sample_well_keyed : @well_keyed Lsa _ sample_db.
Proof. apply map_Forall_singleton. split; [exact sample_lsa_ok|done]. Qed.
Lemma empty_well_keyed : @well_keyed Lsa _ ∅.
Proof. apply map_Forall_empty. Qed.

Lemma retransmit_progress_witness :
  exchange_inv sample_router ∧ (tick sample_router 6000000).2 ≠ [].
Proof.
  assert (Hi : exchange_inv sample_router) by apply inv_start. split; [exact Hi|].
  pose proof (retransmit_progress sample_router 6000000 Hi ltac:(by eexists) ltac:(lia)
    ltac:(unfold RETRANSMIT_US, U64_MAX; lia)) as H.
  destruct (tick sample_router 6000000) as [s out]. destruct H as (_ & _ & _ & _ & H & _). cbn.
  intros ->. assert (DatabaseDescription 1500 OPTIONS 7 7 [] ∈ @nil (OspfBody Lsa)) as Hin; [|by apply not_elem_of_nil in Hin].
  apply H. left. split; [reflexivity|]. split; [by vm_compute|reflexivity].
Defined.

Lemma exchange_synchronizes_witness :
  ∃ k m s, (k ≤ 6)%nat
    ∧ rounds k sample_router sample_peer sample_db ∅ [@first_dd Lsa _ 1500 7] [first_dd 1500 9] 0
      = Ok (m, s, [], [])
    ∧ requests m = ∅ ∧ state m = Full ∧ state s = Loading.
Proof.
  destruct (@exchange_synchronizes Lsa ospfv2_advertisement 2 1 1500 7 9 sample_db ∅ 0) as (k & m & s & Hk & Hrun & Hm & Hs & Hstm & Hsts).
  { lia. } { lia. } { exact sample_well_keyed. } { exact empty_well_keyed. }
  { vm_compute. lia. } { vm_compute. lia. }
  exists k, m, s. split; [exact Hk|]. split; [exact Hrun|].
  assert (Hm0 : requests m = ∅).
  { apply map_empty. intros key. apply eq_None_not_Some. intros [h Hh%Hm]. destruct Hh as [Hh _].
    unfold known in Hh. by rewrite lookup_empty in Hh. }
  assert (Hs0 : requests s ≠ ∅).
  { intros H0. destruct (lsa_header sample_lsa) as [h| |] eqn:Eh; [|by vm_compute in Eh|by vm_compute in Eh].
    assert (requests s !! lsa_key sample_lsa = Some h) as Hin; [|by rewrite H0, lookup_empty in Hin].
    apply Hs. split; [|done]. unfold known, sample_db. rewrite lookup_singleton_eq.
    change (header sample_lsa) with (lsa_header sample_lsa). by rewrite Eh. }
  split; [exact Hm0|]. rewrite Hstm, Hsts, bool_decide_true, bool_decide_false by done. done.
Defined.
