(* ===== verification/BgpAttributes.v ===== *)
(** rios-routing: BGP errors, prefixes and path attributes
    (src/crates/rios-routing/src/bgp/attributes.rs and the prefix lists of
    src/crates/rios-routing/src/bgp/mod.rs). *)
From S2P Require Import Prelude Wire Collections Text Prefix Ipv4.

Definition BGP_MAX_MESSAGE : Z := 4096.
Record BgpError := mk_error { code : Z; subcode : Z }.
#[export] Instance BgpError_eq_dec : EqDecision BgpError.
Proof. solve_decision. Defined.

(** [Ipv4Addr::is_unspecified], [is_multicast] and [is_broadcast]. *)
Definition is_unspecified (a : Ipv4Addr) : bool := a =? 0.
Definition is_multicast (a : Ipv4Addr) : bool := Z.shiftr a 28 =? 14.
Definition is_broadcast (a : Ipv4Addr) : bool := a =? U32_MAX.

(** ** mod.rs: prefix lists *)

Fixpoint encode_prefixes_from (prefixes : list Ipv4Network) (out : bytes) : res BgpError bytes :=
  match prefixes with
  | [] => Ok out
  | prefix :: prefixes =>
      let length := div_ceil (network_len prefix) 8 in
      if BGP_MAX_MESSAGE <? len out + 1 + length then Err (mk_error 1 2)
      else
        octets ← slice (be 4 (network prefix)) 0 (Z.to_nat length);
        encode_prefixes_from prefixes (out ++ [network_len prefix] ++ octets)
  end.
Definition encode_prefixes (prefixes : list Ipv4Network) : res BgpError bytes :=
  encode_prefixes_from prefixes [].

(** [while !bytes.is_empty()]: a prefix takes at least one octet. *)
Fixpoint decode_prefixes_from (fuel : nat) (bs : bytes) (out : list Ipv4Network)
    : res BgpError (list Ipv4Network) :=
  match bs with
  | [] => Ok out
  | prefix :: _ =>
      match fuel with
      | O => Panic
      | S fuel =>
          if 32 <? prefix then Err (mk_error 3 10)
          else
            let length := Z.to_nat (div_ceil prefix 8) in
            value ← ok_or (get_slice bs 1 (1 + length)) (mk_error 3 10);
            address ← put (zeros 4) 0 value;
            network ← or_err (network_new (of_be address) prefix) (mk_error 3 10);
            rest ← slice_from bs (1 + length);
            decode_prefixes_from fuel rest (out ++ [network])
      end
  end.
Definition decode_prefixes (bs : bytes) : res BgpError (list Ipv4Network) :=
  decode_prefixes_from (length bs) bs [].

(** ** attributes.rs *)

Inductive BgpOrigin := Igp | Egp | Incomplete.
#[export] Instance BgpOrigin_eq_dec : EqDecision BgpOrigin.
Proof. solve_decision. Defined.
(** [self.origin as u8], which is also the derived order. *)
Definition origin_code (o : BgpOrigin) : Z :=
  match o with Igp => 0 | Egp => 1 | Incomplete => 2 end.

Inductive AsPathSegment := Sequence (v : list Z) | Set_ (v : list Z).
#[export] Instance AsPathSegment_eq_dec : EqDecision AsPathSegment.
Proof. solve_decision. Defined.
Definition members (s : AsPathSegment) : list Z := match s with Sequence v | Set_ v => v end.
Definition is_sequence (s : AsPathSegment) : bool := match s with Sequence _ => true | Set_ _ => false end.

Record BgpUnknownAttribute := { flags : Z; unknown_code : Z; value : bytes }.
#[export] Instance BgpUnknownAttribute_eq_dec : EqDecision BgpUnknownAttribute.
Proof. solve_decision. Defined.
Record BgpAttributes := {
  origin : BgpOrigin;
  as_path : list AsPathSegment;
  next_hop : Ipv4Addr;
  atomic_aggregate : bool;
  med : option Z;
  local_preference : option Z;
  originator_id : option Ipv4Addr;
  cluster_list : list Ipv4Addr;
  unknown_transitive : list BgpUnknownAttribute
}.
#[export] Instance BgpAttributes_eq_dec : EqDecision BgpAttributes.
Proof. solve_decision. Defined.

Definition contains_as (a : BgpAttributes) (asn : Z) : bool :=
  existsb (λ s, existsb (Z.eqb asn) (members s)) (as_path a).
Definition segment_length (s : AsPathSegment) : Z :=
  match s with Sequence v => len v | Set_ _ => 1 end.
Definition sum_of (l : list Z) : Z := foldr Z.add 0 l.
Definition path_length (a : BgpAttributes) : Z := sum_of (map segment_length (as_path a)).
Definition first_as (a : BgpAttributes) : option Z :=
  match as_path a with [] => None | s :: _ => head (members s) end.

Definition with_path (a : BgpAttributes) (p : list AsPathSegment) : BgpAttributes :=
  {| origin := origin a; as_path := p; next_hop := next_hop a;
     atomic_aggregate := atomic_aggregate a; med := med a; local_preference := local_preference a;
     originator_id := originator_id a; cluster_list := cluster_list a;
     unknown_transitive := unknown_transitive a |}.
(** [prepend] on the path: merge with a leading sequence, then insert the
    chunks at the front from the last to the first. *)
Definition prepend (a : BgpAttributes) (asns : list Z) : res BgpError BgpAttributes :=
  if existsb (Z.eqb 0) asns
     || (1024 <? len asns + sum_of (map (λ s, len (members s)) (as_path a)))
  then Err (mk_error 6 8)
  else
    let '(values, path) :=
      match as_path a with
      | Sequence old :: path => (asns ++ old, path)
      | path => (asns, path)
      end in
    Ok (with_path a (foldl (λ path chunk, Sequence chunk :: path) path (rev (chunks 255 values)))).

Definition attribute (out : bytes) (flags code : Z) (value : bytes) : res BgpError bytes :=
  let extended := 255 <? len value in
  if BGP_MAX_MESSAGE <? len out + len value + (if extended then 4 else 3) then Err (mk_error 1 2)
  else
    Ok (out ++ [Z.lor (Z.land flags 0xe0) (if extended then 0x10 else 0); code]
            ++ (if extended then be 2 (len value `mod` 2 ^ 16) else [len value `mod` 256]) ++ value).

Fixpoint encode_members (four : bool) (asns : list Z) (path : bytes) : res BgpError bytes :=
  match asns with
  | [] => Ok path
  | asn :: asns =>
      if asn =? 0 then Err (mk_error 3 11)
      else
        octets ← (if four then Ok (be 4 asn)
                  else asn ← ok_or (try_from U16_MAX asn) (mk_error 3 11); Ok (be 2 asn));
        encode_members four asns (path ++ octets)
  end.
Fixpoint encode_path (four : bool) (segments : list AsPathSegment) (path : bytes) : res BgpError bytes :=
  match segments with
  | [] => Ok path
  | segment :: segments =>
      let values := members segment in
      if (len values =? 0) || (255 <? len values) then Err (mk_error 3 11)
      else if BGP_MAX_MESSAGE <? len path + 2 + len values * (if four then 4 else 2)
      then Err (mk_error 1 2)
      else
        path ← encode_members four values
                 (path ++ [if is_sequence segment then 2 else 1; len values `mod` 256]);
        encode_path four segments path
  end.
Fixpoint encode_unknown (us : list BgpUnknownAttribute) (seen : gset Z) (out : bytes) : res BgpError bytes :=
  match us with
  | [] => Ok out
  | u :: us =>
      if bool_decide (unknown_code u ∈ seen) || negb (Z.land (flags u) 0xc0 =? 0xc0)
      then Err (mk_error 3 4)
      else
        out ← attribute out (flags u) (unknown_code u) (value u);
        encode_unknown us ({[unknown_code u]} ∪ seen) out
  end.
Definition known_codes : gset Z := list_to_set [1; 2; 3; 4; 5; 6; 9; 10].
(** [if let Some(x) = o { attribute(..x.to_be_bytes())? }]. *)
Definition attribute_u32 (out : bytes) (flags code : Z) (o : option Z) : res BgpError bytes :=
  match o with Some x => attribute out flags code (be 4 x) | None => Ok out end.
Definition attributes_encode (a : BgpAttributes) (four : bool) : res BgpError bytes :=
  out ← attribute [] 0x40 1 [origin_code (origin a)];
  path ← encode_path four (as_path a) [];
  out ← attribute out 0x40 2 path;
  out ← attribute out 0x40 3 (be 4 (next_hop a));
  out ← (if atomic_aggregate a then attribute out 0x40 6 [] else Ok out);
  out ← attribute_u32 out 0x80 4 (med a);
  out ← attribute_u32 out 0x40 5 (local_preference a);
  out ← attribute_u32 out 0x80 9 (originator_id a);
  out ← (if len (cluster_list a) =? 0 then Ok out
         else if BGP_MAX_MESSAGE `div` 4 <? len (cluster_list a) then Err (mk_error 1 2)
         else attribute out 0x80 10 (concat (map (be 4) (cluster_list a))));
  encode_unknown (unknown_transitive a) known_codes out.

(** [decode_path]: a segment takes at least two octets. *)
Fixpoint decode_path_from (fuel : nat) (bs : bytes) (four : bool) (segments : list AsPathSegment)
    : res BgpError (list AsPathSegment) :=
  match bs with
  | [] => Ok segments
  | b0 :: _ =>
      match fuel with
      | O => Panic
      | S fuel =>
          b1 ← (if len bs <? 2 then Err (mk_error 3 11) else idx bs 1);
          if (b1 =? 0) || negb ((b0 =? 1) || (b0 =? 2)) then Err (mk_error 3 11)
          else
            let width := if four then 4%nat else 2%nat in
            let length := (Z.to_nat b1 * width)%nat in
            value ← ok_or (get_slice bs 2 (2 + length)) (mk_error 3 11);
            let members := map of_be (as_chunks width value) in
            if existsb (Z.eqb 0) members then Err (mk_error 3 11)
            else
              let segment := if b0 =? 1 then Set_ members else Sequence members in
              rest ← slice_from bs (2 + length);
              decode_path_from fuel rest four (segments ++ [segment])
      end
  end.
Definition decode_path (bs : bytes) (four : bool) : res BgpError (list AsPathSegment) :=
  decode_path_from (length bs) bs four [].

(** The local variables of [decode]. *)
Record Partial := {
  p_origin : option BgpOrigin;
  p_as_path : option (list AsPathSegment);
  p_next_hop : option Ipv4Addr;
  p_atomic : bool;
  p_med : option Z;
  p_local_preference : option Z;
  p_originator_id : option Ipv4Addr;
  p_cluster_list : list Ipv4Addr;
  p_unknown : list BgpUnknownAttribute
}.
Definition no_attributes : Partial := Build_Partial None None None false None None None [] [].

(** The flags [decode] expects of the well-known codes. *)
Definition expected_flags (code : Z) : option Z :=
  if (code =? 1) || (code =? 2) || (code =? 3) || (code =? 5) || (code =? 6) then Some 0x40
  else if (code =? 4) || (code =? 9) || (code =? 10) then Some 0x80
  else if (code =? 7) || (code =? 17) || (code =? 18) then Some 0xc0
  else None.
Definition origin_of (v : Z) : res BgpError BgpOrigin :=
  if v =? 0 then Ok Igp else if v =? 1 then Ok Egp else if v =? 2 then Ok Incomplete
  else Err (mk_error 3 6).

(** The [match code] of [decode]. *)
Definition apply_attribute (p : Partial) (flags code : Z) (value : bytes) (four : bool) : res BgpError Partial :=
  let 'Build_Partial og path nh at_ md lp oid cl un := p in
  let length := len value in
  if code =? 1 then
    if negb (length =? 1) then Err (mk_error 3 5)
    else v ← idx value 0; o ← origin_of v; Ok (Build_Partial (Some o) path nh at_ md lp oid cl un)
  else if code =? 2 then
    p ← decode_path value four; Ok (Build_Partial og (Some p) nh at_ md lp oid cl un)
  else if code =? 3 then
    if negb (length =? 4) then Err (mk_error 3 5)
    else
      address ← u32_at value 0;
      if is_unspecified address || is_multicast address || is_broadcast address then Err (mk_error 3 8)
      else Ok (Build_Partial og path (Some address) at_ md lp oid cl un)
  else if (code =? 4) || (code =? 5) then
    if negb (length =? 4) then Err (mk_error 3 5)
    else
      v ← u32_at value 0;
      if code =? 4 then Ok (Build_Partial og path nh at_ (Some v) lp oid cl un)
      else Ok (Build_Partial og path nh at_ md (Some v) oid cl un)
  else if code =? 9 then
    if negb (length =? 4) then Err (mk_error 3 5)
    else v ← u32_at value 0; Ok (Build_Partial og path nh at_ md lp (Some v) cl un)
  else if code =? 10 then
    if negb (length `mod` 4 =? 0) then Err (mk_error 3 5)
    else Ok (Build_Partial og path nh at_ md lp oid (map of_be (as_chunks 4 value)) un)
  else if code =? 6 then
    if negb (length =? 0) then Err (mk_error 3 5)
    else Ok (Build_Partial og path nh true md lp oid cl un)
  else if ((code =? 17) || (code =? 18)) && four then Ok p
  else if Z.land flags 0x80 =? 0 then Err (mk_error 3 2)
  else if Z.land flags 0xc0 =? 0xc0 then
    Ok (Build_Partial og path nh at_ md lp oid cl
          (un ++ [{| flags := Z.land flags 0xe0; unknown_code := code; value := value |}]))
  else Ok p.

(** [while !bytes.is_empty()]: an attribute takes at least three octets. *)
Fixpoint decode_attributes (fuel : nat) (bs : bytes) (four : bool) (seen : gset Z) (p : Partial)
    : res BgpError Partial :=
  match bs with
  | [] => Ok p
  | flags :: _ =>
      match fuel with
      | O => Panic
      | S fuel =>
          if len bs <? 3 then Err (mk_error 3 1)
          else
            code ← idx bs 1;
            '(header, length) ←
              (if negb (Z.land flags 0x10 =? 0) then
                 if len bs <? 4 then Err (mk_error 3 1) else length ← u16_at bs 2; Ok (4%nat, length)
               else length ← idx bs 2; Ok (3%nat, length));
            let length := Z.to_nat length in
            value ← ok_or (get_slice bs header (header + length)) (mk_error 3 5);
            if bool_decide (code ∈ seen) then Err (mk_error 3 1)
            else if match expected_flags code with
                    | Some e => negb (Z.land flags 0xc0 =? e)
                    | None => false
                    end
                    || (negb (Z.land flags 0x20 =? 0) && negb (Z.land flags 0xc0 =? 0xc0))
            then Err (mk_error 3 4)
            else
              p ← apply_attribute p flags code value four;
              rest ← slice_from bs (header + length);
              decode_attributes fuel rest four ({[code]} ∪ seen) p
      end
  end.
Definition attributes_decode (bs : bytes) (four : bool) : res BgpError BgpAttributes :=
  p ← decode_attributes (length bs) bs four ∅ no_attributes;
  origin ← ok_or (p_origin p) (mk_error 3 3);
  as_path ← ok_or (p_as_path p) (mk_error 3 3);
  next_hop ← ok_or (p_next_hop p) (mk_error 3 3);
  Ok {| origin := origin; as_path := as_path; next_hop := next_hop; atomic_aggregate := p_atomic p;
        med := p_med p; local_preference := p_local_preference p; originator_id := p_originator_id p;
        cluster_list := p_cluster_list p; unknown_transitive := p_unknown p |}.

(** ** Well-formed values *)

Definition segment_ok (s : AsPathSegment) : Prop := Forall (λ a, u32 a) (members s).
(** An attribute [encode] can carry unchanged: its flags are the three that the
    wire keeps, and a four-octet peer drops the transition codes. *)
Definition unknown_ok (four : bool) (u : BgpUnknownAttribute) : Prop :=
  (flags u = 0xc0 ∨ flags u = 0xe0) ∧ u8 (unknown_code u) ∧ bytes_ok (value u)
  ∧ (four = true → unknown_code u ≠ 17 ∧ unknown_code u ≠ 18).
Definition unicast (a : Ipv4Addr) : Prop :=
  u32 a ∧ is_unspecified a = false ∧ is_multicast a = false ∧ is_broadcast a = false.
Definition opt_u32 (o : option Z) : Prop := match o with Some x => u32 x | None => True end.
Definition attributes_ok (four : bool) (a : BgpAttributes) : Prop :=
  Forall segment_ok (as_path a) ∧ unicast (next_hop a) ∧ opt_u32 (med a)
  ∧ opt_u32 (local_preference a) ∧ opt_u32 (originator_id a) ∧ Forall (λ i, u32 i) (cluster_list a)
  ∧ Forall (unknown_ok four) (unknown_transitive a).

(** ** Helper lemmas: prefixes *)

Definition prefix_wire (n : Ipv4Network) : bytes :=
  network_len n :: take (Z.to_nat (div_ceil (network_len n) 8)) (be 4 (network n)).
Lemma prefix_length n : 0 ≤ n ≤ 32 → (Z.to_nat (div_ceil n 8) ≤ 4)%nat.
Proof. intros. pose proof (div_ceil_spec n 8 ltac:(lia)). lia. Qed.
Lemma encode_prefixes_from_eq ps out bs :
  Forall network_ok ps → encode_prefixes_from ps out = Ok bs →
  bs = out ++ concat (map prefix_wire ps) ∧ (len out ≤ BGP_MAX_MESSAGE → len bs ≤ BGP_MAX_MESSAGE).
Proof.
  intros Hps. revert out. induction Hps as [|n ps Hn _ IH]; intros out H; cbn [encode_prefixes_from] in H.
  - simplify_eq. split; [by rewrite app_nil_r|done].
  - destruct (_ <? _) eqn:E; [done|]. pose proof (prefix_length (network_len n) ltac:(apply Hn)) as Hk.
    assert (0 ≤ div_ceil (network_len n) 8) by (apply div_ceil_nonneg; [apply Hn|lia]).
    rewrite slice_ok in H by (rewrite ?length_be; lia). rewrite bind_Ok, drop_0, Nat.sub_0_r in H.
    apply IH in H as [-> Hl]. split; [by rewrite <-!app_assoc|].
    intros _. apply Hl. lens.
Qed.
Lemma prefix_pad n :
  network_ok n →
  put (zeros 4) 0 (take (Z.to_nat (div_ceil (network_len n) 8)) (be 4 (network n)))
  = (Ok (be 4 (network n)) : res BgpError bytes).
Proof.
  intros (Hu & Hl & Hz). pose proof (prefix_length _ Hl) as Hk.
  pose proof (div_ceil_spec (network_len n) 8 ltac:(lia)) as Hd.
  set (k := Z.to_nat (div_ceil (network_len n) 8)) in *.
  assert (Hb : ∀ j, (k + j < 4)%nat → byte_of (network n) j = 0).
  { intros j Hj. apply (byte_of_multiple _ (32 - network_len n)); [lia|done]. }
  rewrite put_ok by (rewrite length_take, length_zeros; lia). cbn [take app Nat.add]. f_equal.
  rewrite length_take, length_be, Nat.min_l by lia. clearbody k. clear Hd.
  do 5 (destruct k as [|k]; [cbn [be take drop zeros replicate app]; try rewrite (Hb 0%nat) by lia; try rewrite (Hb 1%nat) by lia;
    try rewrite (Hb 2%nat) by lia; try rewrite (Hb 3%nat) by lia; done|]). lia.
Qed.
Lemma network_new_id n : network_ok n → network_new (network n) (network_len n) = Ok n.
Proof.
  intros (Hu & Hl & Hz). unfold network_new, mask_of. destruct (Z.eqb_spec (network_len n) 0) as [E|E].
  - rewrite bind_Ok, Z.land_0_r. rewrite E in Hz. change (2 ^ (32 - 0)) with (2 ^ 32) in Hz.
    rewrite Z.mod_small in Hz by lia. destruct n; cbn in *. by subst.
  - decide_ifs. rewrite bind_Ok, (mask_bits_land 32) by lia. rewrite Hz, Z.sub_0_r. by destruct n.
Qed.
Lemma decode_prefixes_list ps fuel out :
  Forall network_ok ps → (length ps ≤ fuel)%nat →
  decode_prefixes_from fuel (concat (map prefix_wire ps)) out = Ok (out ++ ps).
Proof.
  intros Hps. revert fuel out. induction Hps as [|n ps Hn _ IH]; intros fuel out Hf.
  - rewrite app_nil_r. by destruct fuel.
  - destruct fuel as [|fuel]; cbn [length] in Hf; [lia|].
    pose proof (prefix_length (network_len n) ltac:(apply Hn)) as Hk.
    cbn [map concat]. unfold prefix_wire at 1. cbn [app decode_prefixes_from].
    replace (32 <? network_len n) with false by (destruct Hn; lia).
    set (k := Z.to_nat (div_ceil (network_len n) 8)) in *.
    assert (Hl : length (take k (be 4 (network n))) = k) by (rewrite length_take, length_be; lia).
    rewrite get_slice_at by (cbn [length]; rewrite length_app; lia).
    cbn [drop ok_or]. rewrite drop_0, bind_Ok, take_app_length' by done.
    pose proof (prefix_pad n Hn) as Hpad. fold k in Hpad. rewrite Hpad, bind_Ok. destruct Hn as (Hu & Hlen & Hz).
    rewrite (of_be_be_id 4) by lia. rewrite network_new_id by done. cbn [or_err]. rewrite bind_Ok.
    rewrite slice_from_ok by (cbn [length]; rewrite length_app; lia). rewrite bind_Ok.
    cbn [Nat.add drop]. rewrite drop_app_length', IH by lia.
    by rewrite <-app_assoc.
Qed.
Lemma prefixes_roundtrip ps bs :
  Forall network_ok ps → encode_prefixes ps = Ok bs →
  decode_prefixes bs = Ok ps ∧ len bs ≤ BGP_MAX_MESSAGE ∧ bytes_ok bs ∧ (ps ≠ [] → bs ≠ []).
Proof.
  intros Hps H. destruct (encode_prefixes_from_eq _ _ _ Hps H) as [-> Hl]. cbn [app] in *.
  split; [|split; [apply Hl; done|split]].
  - unfold decode_prefixes. rewrite decode_prefixes_list; [done|done|].
    clear. induction ps as [|n ps IH]; [done|]. cbn [map concat length]. unfold prefix_wire at 1. lens.
  - clear -Hps. induction Hps as [|n ps (Hu & Hn & _) _ IH]; [constructor|]. cbn [map concat].
    apply bytes_ok_app; [|done]. unfold prefix_wire. apply bytes_ok_cons; [lia|]. auto with bytes_ok.
  - by destruct ps.
Qed.

(** ** Helper lemmas: AS paths *)

Definition width (four : bool) : nat := if four then 4 else 2.
Definition segment_wire (four : bool) (s : AsPathSegment) : bytes :=
  [if is_sequence s then 2 else 1; len (members s)] ++ concat (map (be (width four)) (members s)).
(** What [encode_path] checks of a segment. *)
Definition carried (four : bool) (s : AsPathSegment) : Prop :=
  0 < len (members s) ≤ 255 ∧ Forall (λ a, a ≠ 0 ∧ a < 256 ^ Z.of_nat (width four)) (members s).

Lemma encode_members_eq four asns path bs :
  Forall (λ a, u32 a) asns → encode_members four asns path = Ok bs →
  bs = path ++ concat (map (be (width four)) asns)
  ∧ Forall (λ a, a ≠ 0 ∧ a < 256 ^ Z.of_nat (width four)) asns.
Proof.
  intros Ha. revert path. induction Ha as [|a asns Hu _ IH]; intros path H; cbn [encode_members] in H.
  - simplify_eq. split; [by rewrite app_nil_r|constructor].
  - destruct (a =? 0) eqn:E; [done|]. destruct four; cbn [width] in *.
    + rewrite bind_Ok in H. apply IH in H as [-> H]. split; [cbn [map concat]; by rewrite <-app_assoc|].
      constructor; [|done]. change (256 ^ Z.of_nat 4) with (2 ^ 32). lia.
    + unfold try_from, U16_MAX in H. destruct (a <=? 65535) eqn:E'; [|done]. cbn [ok_or] in H.
      rewrite !bind_Ok in H. apply IH in H as [-> H]. split; [cbn [map concat]; by rewrite <-app_assoc|].
      constructor; [|done]. change (256 ^ Z.of_nat 2) with (2 ^ 16). lia.
Qed.
Lemma encode_path_eq four ss path bs :
  Forall segment_ok ss → encode_path four ss path = Ok bs →
  bs = path ++ concat (map (segment_wire four) ss) ∧ Forall (carried four) ss
  ∧ (len path ≤ BGP_MAX_MESSAGE → len bs ≤ BGP_MAX_MESSAGE).
Proof.
  intros Hss. revert path. induction Hss as [|s ss Hs _ IH]; intros path H; cbn [encode_path] in H.
  - simplify_eq. split_and!; [by rewrite app_nil_r|constructor|done].
  - destruct (_ || _) eqn:E; [done|]. destruct (BGP_MAX_MESSAGE <? _) eqn:E'; [done|].
    destruct (encode_members _ _ _) as [p| |] eqn:Hp; [|done|done]. rewrite bind_Ok in H.
    apply encode_members_eq in Hp as [-> Hm]; [|done]. apply IH in H as (-> & Hc & Hl).
    assert (Hlen : 0 < len (members s) ≤ 255) by lens.
    split; [|split].
    + cbn [map concat]. unfold segment_wire at 2. rewrite Z.mod_small by lia. by rewrite <-!app_assoc.
    + by constructor.
    + intros _. apply Hl. rewrite !(Z.mod_small (len _)) by lia.
      unfold len in *. rewrite !length_app, length_concat_be. destruct four; cbn [width length]; lia.
Qed.
Lemma existsb_zero l : Forall (λ a : Z, a ≠ 0) l → existsb (Z.eqb 0) l = false.
Proof. induction 1 as [|a l Ha _ IH]; [done|]. cbn [existsb]. rewrite IH. lia. Qed.
Lemma members_back four xs :
  Forall (λ a, u32 a) xs → Forall (λ a, a ≠ 0 ∧ a < 256 ^ Z.of_nat (width four)) xs →
  map of_be (map (be (width four)) xs) = xs.
Proof.
  intros H1 H2. apply map_of_be. rewrite Forall_forall in *. intros x Hx.
  specialize (H1 x Hx). specialize (H2 x Hx). lia.
Qed.

Lemma decode_path_list four ss fuel out :
  Forall segment_ok ss → Forall (carried four) ss → (length ss ≤ fuel)%nat →
  decode_path_from fuel (concat (map (segment_wire four) ss)) four out = Ok (out ++ ss).
Proof.
  intros Hss. revert fuel out. induction Hss as [|s ss Hs _ IH]; intros fuel out Hc Hf.
  - rewrite app_nil_r. by destruct fuel.
  - destruct fuel as [|fuel]; cbn [length] in Hf; [lia|]. apply Forall_cons in Hc as [[Hl Hm] Hc].
    cbn [map concat]. unfold segment_wire at 1.
    set (w := concat (map (be (width four)) (members s))). set (rest := concat (map (segment_wire four) ss)).
    assert (Hw : length w = (Z.to_nat (len (members s)) * width four)%nat).
    { unfold w, len. rewrite length_concat_be. lia. }
    cbn [app decode_path_from]. set (b0 := if is_sequence s then 2 else 1).
    destruct (_ <? 2) eqn:E; [lens|]. change (@idx BgpError Z (b0 :: len (members s) :: w ++ rest) 1) with (@Ok BgpError Z (len (members s))). rewrite bind_Ok.
    assert ((len (members s) =? 0) || negb ((b0 =? 1) || (b0 =? 2)) = false) as ->.
    { replace (len (members s) =? 0) with false by lia. unfold b0. by destruct (is_sequence s). }
    change (if four then 4%nat else 2%nat) with (width four). cbn zeta. rewrite <-Hw.
    rewrite get_slice_at by (cbn [length]; rewrite length_app; lia). cbn [drop ok_or].
    rewrite drop_0, bind_Ok, take_app_length. unfold w at 1 2 3.
    rewrite chunks_be by (by destruct four; cbn; lia). rewrite members_back by done.
    rewrite existsb_zero by (eapply Forall_impl; [exact Hm|]; by intros ? []).
    rewrite slice_from_ok by (cbn [length]; rewrite length_app; lia). rewrite bind_Ok.
    cbn [Nat.add drop]. rewrite drop_app_length, IH by (done || lia). rewrite <-app_assoc. cbn [app].
    do 3 f_equal. unfold b0. by destruct s.
Qed.
Lemma path_roundtrip four ss bs :
  Forall segment_ok ss → encode_path four ss [] = Ok bs →
  decode_path bs four = Ok ss ∧ len bs ≤ BGP_MAX_MESSAGE ∧ bytes_ok bs.
Proof.
  intros Hss H. destruct (encode_path_eq _ _ _ _ Hss H) as (-> & Hc & Hl). cbn [app] in *.
  split; [|split; [by apply Hl|]].
  - unfold decode_path. rewrite decode_path_list; [done..|].
    clear. induction ss as [|s ss IH]; [done|]. cbn [map concat length]. unfold segment_wire at 1. lens.
  - clear -Hc. induction Hc as [|s ss [Hl _] _ IH]; [constructor|]. cbn [map concat]. apply bytes_ok_app; [|done].
    unfold segment_wire. apply bytes_ok_app; [octets; destruct (is_sequence s); lia|].
    clear. induction (members s) as [|x xs IH]; [constructor|]. cbn [map concat]. auto with bytes_ok.
Qed.

(** ** Helper lemmas: attributes *)

(** An attribute as its flags, its code and its value. *)
Abbreviation attr := (Z * Z * bytes)%type.
Definition attr_code (x : attr) : Z := x.1.2.
Definition extended (v : bytes) : Z := if 255 <? len v then 0x10 else 0.
Definition attr_wire (x : attr) : bytes :=
  [Z.lor (Z.land x.1.1 0xe0) (extended x.2); x.1.2]
  ++ (if 255 <? len x.2 then be 2 (len x.2) else [len x.2]) ++ x.2.
Definition wire (l : list attr) : bytes := concat (map attr_wire l).
Lemma wire_app l k : wire (l ++ k) = wire l ++ wire k.
Proof. unfold wire. by rewrite map_app, concat_app. Qed.
Definition u32_attr (f c : Z) (o : option Z) : list attr :=
  match o with Some x => [(f, c, be 4 x)] | None => [] end.
Definition unknown_attr (u : BgpUnknownAttribute) : attr := (flags u, unknown_code u, value u).
Definition fixed_list (a : BgpAttributes) (path : bytes) : list attr :=
  [(0x40, 1, [origin_code (origin a)]); (0x40, 2, path); (0x40, 3, be 4 (next_hop a))]
  ++ (if atomic_aggregate a then [(0x40, 6, [])] else [])
  ++ u32_attr 0x80 4 (med a) ++ u32_attr 0x40 5 (local_preference a)
  ++ u32_attr 0x80 9 (originator_id a)
  ++ (if len (cluster_list a) =? 0 then []
      else [(0x80, 10, concat (map (be 4) (cluster_list a)))]).

Lemma attribute_eq out f c v bs :
  attribute out f c v = Ok bs →
  bs = out ++ wire [(f, c, v)] ∧ len v ≤ BGP_MAX_MESSAGE ∧ len bs ≤ BGP_MAX_MESSAGE.
Proof.
  unfold attribute, wire, attr_wire, extended. cbn [map concat fst snd]. rewrite app_nil_r.
  destruct (BGP_MAX_MESSAGE <? _) eqn:E; [done|]. intros H%(f_equal ok). cbn [ok] in H. injection H as <-.
  unfold BGP_MAX_MESSAGE in *. assert (0 ≤ len v ∧ 0 ≤ len out) by lens.
  destruct (255 <? len v) eqn:E'; rewrite (Z.mod_small (len v)) by lia;
    (split; [done|split; [lia|]]); revert E; lens.
Qed.
Lemma attribute_u32_eq out f c o bs :
  attribute_u32 out f c o = Ok bs →
  bs = out ++ wire (u32_attr f c o) ∧ (len out ≤ BGP_MAX_MESSAGE → len bs ≤ BGP_MAX_MESSAGE).
Proof.
  destruct o as [x|]; cbn [attribute_u32 u32_attr]; intros H.
  - by apply attribute_eq in H as (-> & _ & ?).
  - simplify_eq. by rewrite app_nil_r.
Qed.
(** The codes of [us] are fresh and their flags are those of optional transitive
    attributes. *)
Fixpoint fresh (us : list BgpUnknownAttribute) (seen : gset Z) : Prop :=
  match us with
  | [] => True
  | u :: us => (unknown_code u ∉ seen) ∧ Z.land (flags u) 0xc0 = 0xc0 ∧ len (value u) ≤ BGP_MAX_MESSAGE
      ∧ fresh us ({[unknown_code u]} ∪ seen)
  end.
Lemma encode_unknown_eq us seen out bs :
  encode_unknown us seen out = Ok bs →
  bs = out ++ wire (map unknown_attr us) ∧ fresh us seen
  ∧ (len out ≤ BGP_MAX_MESSAGE → len bs ≤ BGP_MAX_MESSAGE).
Proof.
  revert seen out. induction us as [|u us IH]; intros seen out H; cbn [encode_unknown] in H.
  - simplify_eq. split_and!; [by rewrite app_nil_r|done|done].
  - destruct (_ || _) eqn:E; [done|]. apply orb_false_iff in E as [E1 E2].
    apply bind_Ok_inv in H as (o & Ho & H). apply attribute_eq in Ho as (-> & Hv & Hl).
    apply IH in H as (-> & Hf & Hl'). split_and!.
    + cbn [map]. change (unknown_attr u :: map unknown_attr us) with ([unknown_attr u] ++ map unknown_attr us).
      by rewrite wire_app, app_assoc.
    + cbn [fresh]. split_and!; [by apply bool_decide_eq_false in E1 | lia | done | done].
    + intros _. by apply Hl'.
Qed.

Lemma attributes_encode_eq a four bs :
  Forall segment_ok (as_path a) → attributes_encode a four = Ok bs →
  ∃ path, decode_path path four = Ok (as_path a) ∧ bytes_ok path ∧ len path ≤ BGP_MAX_MESSAGE
    ∧ len (cluster_list a) ≤ BGP_MAX_MESSAGE `div` 4
    ∧ bs = wire (fixed_list a path ++ map unknown_attr (unknown_transitive a))
    ∧ fresh (unknown_transitive a) known_codes ∧ len bs ≤ BGP_MAX_MESSAGE.
Proof.
  intros Hs H. unfold attributes_encode in H.
  apply bind_Ok_inv in H as (o1 & (-> & _ & _)%attribute_eq & H).
  apply bind_Ok_inv in H as (path & Hp & H).
  apply path_roundtrip in Hp as (Hd & Hl & Hb); [|done]. exists path. split_and!; [done|done|done|..].
  all: apply bind_Ok_inv in H as (o2 & (-> & _ & _)%attribute_eq & H);
    apply bind_Ok_inv in H as (o3 & (-> & _ & Hl3)%attribute_eq & H);
    apply bind_Ok_inv in H as (o4 & H4 & H);
    apply bind_Ok_inv in H as (o5 & (-> & Hl5)%attribute_u32_eq & H);
    apply bind_Ok_inv in H as (o6 & (-> & Hl6)%attribute_u32_eq & H);
    apply bind_Ok_inv in H as (o7 & (-> & Hl7)%attribute_u32_eq & H);
    apply bind_Ok_inv in H as (o8 & H8 & H);
    apply encode_unknown_eq in H as (-> & Hf & Hl9).
  - destruct (_ =? 0) eqn:E; [|destruct (_ <? _) eqn:E'; [done|lia]].
    unfold BGP_MAX_MESSAGE. assert (len (cluster_list a) = 0) as -> by lia. done.
  - assert (o4 = wire ([(0x40, 1, [origin_code (origin a)]); (0x40, 2, path); (0x40, 3, be 4 (next_hop a))]
        ++ (if atomic_aggregate a then [(0x40, 6, [])] else []))) as ->.
    { destruct (atomic_aggregate a); [apply attribute_eq in H4 as (-> & _)|apply Ok_inj in H4 as <-];
        unfold wire; cbn [map concat app]; by rewrite ?app_nil_r, <-?app_assoc. }
    unfold fixed_list. rewrite !wire_app, <-!app_assoc.
    destruct (_ =? 0) eqn:E; [|destruct (_ <? len (cluster_list a)) eqn:E'; [done|]; apply attribute_eq in H8 as (-> & _)].
    + apply Ok_inj in H8 as <-. by rewrite !wire_app, <-!app_assoc.
    + by rewrite !wire_app, <-!app_assoc.
  - done.
  - apply Hl9. destruct (_ =? 0) eqn:E;
      [|destruct (_ <? len (cluster_list a)) eqn:E'; [done|]; by apply attribute_eq in H8 as (_ & _ & ?)].
    apply Ok_inj in H8 as <-. apply Hl7, Hl6, Hl5. destruct (atomic_aggregate a); [by apply attribute_eq in H4 as (_ & _ & ?)|].
    by apply Ok_inj in H4 as <-.
Qed.

(** ** Helper lemmas: decoding attributes *)

(** An attribute whose flags are those the wire keeps and the decoder expects. *)
Definition attr_ok (x : attr) : Prop :=
  (x.1.1 = 0x40 ∨ x.1.1 = 0x80 ∨ x.1.1 = 0xc0 ∨ x.1.1 = 0xe0) ∧ len x.2 ≤ BGP_MAX_MESSAGE
  ∧ match expected_flags (attr_code x) with Some e => Z.land x.1.1 0xc0 = e | None => True end.

(** The extended-length bit is not part of what an attribute means. *)
Lemma apply_attribute_extended p f c v four :
  f = 0x40 ∨ f = 0x80 ∨ f = 0xc0 ∨ f = 0xe0 →
  apply_attribute p (Z.lor (Z.land f 0xe0) (extended v)) c v four = apply_attribute p f c v four.
Proof.
  intros [->|[->|[->| ->]]]; unfold extended; destruct (255 <? len v); unfold apply_attribute; done.
Qed.

Fixpoint apply_all (p : Partial) (l : list attr) (four : bool) : res BgpError Partial :=
  match l with
  | [] => Ok p
  | x :: l => p ← apply_attribute p x.1.1 x.1.2 x.2 four; apply_all p l four
  end.
Lemma apply_attributes_app p l k four : apply_all p (l ++ k) four = (p ← apply_all p l four; apply_all p k four).
Proof.
  revert p. induction l as [|x l IH]; intros p; [done|]. cbn [app apply_all].
  destruct (apply_attribute p x.1.1 x.1.2 x.2 four); [by rewrite !bind_Ok|done|done].
Qed.

Lemma decode_attribute_step fuel x rest four seen p :
  attr_ok x → attr_code x ∉ seen →
  decode_attributes (S fuel) (attr_wire x ++ rest) four seen p
  = (p ← apply_attribute p x.1.1 x.1.2 x.2 four;
     decode_attributes fuel rest four ({[attr_code x]} ∪ seen) p).
Proof.
  destruct x as [[f c] v]. unfold attr_ok, attr_code. cbn [fst snd]. intros (Hf & Hl & He) Hs.
  rewrite <-(apply_attribute_extended p f c v four Hf).
  set (g := Z.lor (Z.land f 0xe0) (extended v)).
  assert (Hg : Z.land g 0xc0 = Z.land f 0xc0 ∧ (Z.land g 0x20 =? 0) = negb (f =? 0xe0)
    ∧ (Z.land g 0x10 =? 0) = negb (255 <? len v)).
  { unfold g, extended. destruct (255 <? len v), Hf as [->|[->|[->| ->]]]; done. }
  destruct Hg as (G1 & G2 & G3). unfold attr_wire. cbn [fst snd]. fold g.
  assert (Hlen : 0 ≤ len v ∧ 0 ≤ len rest) by lens. unfold BGP_MAX_MESSAGE in Hl.
  assert (Hflags : match expected_flags c with Some e => negb (Z.land g 0xc0 =? e) | None => false end
    || (negb (Z.land g 0x20 =? 0) && negb (Z.land g 0xc0 =? 0xc0)) = false).
  { rewrite G1, G2. destruct (expected_flags c);
      destruct Hf as [->|[->|[->| ->]]]; cbn in He |- *; subst; done. }
  set (body := (if 255 <? len v then be 2 (len v) else [len v]) ++ v).
  cbn [app decode_attributes]. 
  destruct (len _ <? 3) eqn:E.
  { exfalso. revert E. unfold body. destruct (255 <? len v); lens. }
  change (@idx BgpError Z (g :: c :: body ++ rest) 1) with (@Ok BgpError Z c). rewrite bind_Ok, G3.
  unfold body. destruct (255 <? len v) eqn:E'; cbn [negb be app].
  - destruct (len _ <? 4) eqn:E4; [exfalso; revert E4; lens|]. read.
    rewrite of_be_2 by lia. rewrite ?bind_Ok. cbn beta iota zeta.
    replace (Z.to_nat (len v)) with (length v) by lens. rewrite get_slice_at by lens. cbn [drop ok_or].
    rewrite drop_0, take_app_length. cbn [ok_or]. rewrite bind_Ok. rewrite bool_decide_false by done. rewrite Hflags.
    destruct (apply_attribute p g c v four) as [p'| |]; [|done|done]. rewrite !bind_Ok.
    rewrite slice_from_ok by lens. rewrite bind_Ok. cbn [Nat.add drop]. by rewrite drop_app_length.
  - change (@idx BgpError Z (g :: c :: len v :: v ++ rest) 2) with (@Ok BgpError Z (len v)).
    rewrite !bind_Ok. cbn beta iota zeta.
    replace (Z.to_nat (len v)) with (length v) by lens. rewrite get_slice_at by lens. cbn [drop ok_or].
    rewrite drop_0, take_app_length. cbn [ok_or]. rewrite bind_Ok. rewrite bool_decide_false by done. rewrite Hflags.
    destruct (apply_attribute p g c v four) as [p'| |]; [|done|done]. rewrite !bind_Ok.
    rewrite slice_from_ok by lens. rewrite bind_Ok. cbn [Nat.add drop]. by rewrite drop_app_length.
Qed.

(** The codes of [l] are distinct and none is in [seen]. *)
Fixpoint codes_fresh (l : list attr) (seen : gset Z) : Prop :=
  match l with
  | [] => True
  | x :: l => (attr_code x ∉ seen) ∧ codes_fresh l ({[attr_code x]} ∪ seen)
  end.
Lemma decode_attributes_list l fuel four seen p :
  Forall attr_ok l → codes_fresh l seen → (length l ≤ fuel)%nat →
  decode_attributes fuel (wire l) four seen p = apply_all p l four.
Proof.
  intros Hl. revert fuel seen p. induction Hl as [|x l Hx _ IH]; intros fuel seen p Hf Hn.
  - by destruct fuel.
  - destruct fuel as [|fuel]; cbn [length] in Hn; [lia|]. destruct Hf as [Hc Hf].
    change (wire (x :: l)) with (attr_wire x ++ wire l).
    rewrite decode_attribute_step by done. cbn [apply_all].
    destruct (apply_attribute p x.1.1 x.1.2 x.2 four); [|done|done]. rewrite !bind_Ok. apply IH; [done|lia].
Qed.
Lemma length_wire l : (length l ≤ length (wire l))%nat.
Proof.
  induction l as [|x l IH]; [done|]. change (wire (x :: l)) with (attr_wire x ++ wire l).
  unfold attr_wire. lens.
Qed.

(** Decide a statement about concrete sets of codes. *)
Ltac decide_codes := apply (bool_decide_unpack _); vm_compute; exact I.
Lemma codes_fresh_unknown us s t :
  fresh us t → s ⊆ t → codes_fresh (map unknown_attr us) s.
Proof.
  revert s t. induction us as [|u us IH]; intros s t H Hst; [done|]. cbn [map codes_fresh fresh] in *.
  destruct H as (H1 & _ & _ & H). unfold attr_code at 1 2, unknown_attr at 1 2. cbn [fst snd].
  split; [by intros ?%Hst|]. eapply IH; [exact H|]. by apply union_mono_l.
Qed.
Lemma codes_fresh_fixed a path us :
  fresh us known_codes → codes_fresh (fixed_list a path ++ map unknown_attr us) ∅.
Proof.
  intros Hus. unfold fixed_list, u32_attr.
  destruct (atomic_aggregate a), (med a), (local_preference a), (originator_id a), (len (cluster_list a) =? 0);
    cbn [app codes_fresh attr_code fst snd];
    repeat (split; [decide_codes|]); (eapply codes_fresh_unknown; [exact Hus|decide_codes]).
Qed.

Lemma expected_unknown c : c ∉ known_codes → ∀ e, expected_flags c = Some e → e = 0xc0.
Proof.
  intros H e. assert (c ≠ 1 ∧ c ≠ 2 ∧ c ≠ 3 ∧ c ≠ 4 ∧ c ≠ 5 ∧ c ≠ 6 ∧ c ≠ 9 ∧ c ≠ 10) as Hc
    by (split_and!; intros ->; apply H; decide_codes).
  unfold expected_flags. decide_ifs. case_match; congruence.
Qed.
Lemma attr_ok_unknown us seen four :
  Forall (unknown_ok four) us → fresh us seen → known_codes ⊆ seen →
  Forall attr_ok (map unknown_attr us).
Proof.
  intros Hu. revert seen. induction Hu as [|u us (Hfl & _) _ IH]; intros seen Hf Hs; [constructor|].
  cbn [fresh map] in *. destruct Hf as (Hc & _ & Hlen & Hf). constructor; [|eapply IH; [exact Hf|by apply union_subseteq_r']].
  unfold attr_ok, attr_code, unknown_attr. cbn [fst snd]. split; [lia|]. split; [done|].
  destruct (expected_flags (unknown_code u)) eqn:E; [|done].
  apply expected_unknown in E as ->; [|by intros ?%Hs]. destruct Hfl as [-> | ->]; done.
Qed.
Lemma attr_ok_fixed a path :
  len path ≤ BGP_MAX_MESSAGE → len (cluster_list a) ≤ BGP_MAX_MESSAGE `div` 4 →
  Forall attr_ok (fixed_list a path).
Proof.
  unfold BGP_MAX_MESSAGE. change (4096 `div` 4) with 1024. intros Hp Hc.
  assert (Hcl : len (concat (map (be 4) (cluster_list a))) ≤ 4096)
    by (unfold len in *; rewrite length_concat_be; lia).
  unfold fixed_list, u32_attr.
  repeat first [apply Forall_cons_2 | apply Forall_app_2 | case_match | apply Forall_nil_2];
    unfold attr_ok, attr_code; cbn [fst snd];
    (split; [lia|split; [first [done | unfold BGP_MAX_MESSAGE; lens]|done]]).
Qed.

(** What the loop has collected. *)
Definition collected (a : BgpAttributes) : Partial :=
  Build_Partial (Some (origin a)) (Some (as_path a)) (Some (next_hop a)) (atomic_aggregate a) (med a)
    (local_preference a) (originator_id a) (cluster_list a) (unknown_transitive a).
Lemma apply_unknown us seen four og path nh at_ md lp oid cl un :
  Forall (unknown_ok four) us → fresh us seen → known_codes ⊆ seen →
  apply_all (Build_Partial og path nh at_ md lp oid cl un) (map unknown_attr us) four
  = Ok (Build_Partial og path nh at_ md lp oid cl (un ++ us)).
Proof.
  intros Hu. revert seen un. induction Hu as [|u us (Hfl & Hco & Hb & Hfour) _ IH]; intros seen un Hf Hs.
  - by rewrite app_nil_r.
  - cbn [map apply_all fresh] in *. destruct Hf as (Hc & _ & _ & Hf).
    assert (unknown_code u ∉ known_codes) as H by by intros ?%Hs.
    assert (unknown_code u ≠ 1 ∧ unknown_code u ≠ 2 ∧ unknown_code u ≠ 3 ∧ unknown_code u ≠ 4
      ∧ unknown_code u ≠ 5 ∧ unknown_code u ≠ 6 ∧ unknown_code u ≠ 9 ∧ unknown_code u ≠ 10)
      by (split_and!; intros E; rewrite E in H; apply H; decide_codes).
    unfold unknown_attr at 1 2 3. cbn [fst snd]. unfold apply_attribute. decide_ifs.
    assert ((Z.land (flags u) 128 =? 0) = false ∧ (Z.land (flags u) 192 =? 192) = true
      ∧ Z.land (flags u) 224 = flags u) as (-> & -> & ->) by (destruct Hfl as [-> | ->]; done).
    rewrite bind_Ok. rewrite (IH ({[unknown_code u]} ∪ seen)) by (done || by apply union_subseteq_r').
    rewrite <-app_assoc. by destruct u.
Qed.

Lemma apply_u32 p p' f c o four :
  opt_u32 o → (o = None → p' = p) →
  (∀ x, o = Some x → u32 x → apply_attribute p f c (be 4 x) four = Ok p') →
  apply_all p (u32_attr f c o) four = Ok p'.
Proof.
  intros Ho Hn Hs. destruct o as [x|]; cbn [u32_attr apply_all fst snd].
  - by rewrite (Hs x), bind_Ok.
  - by rewrite Hn.
Qed.
Ltac collect p' := rewrite apply_attributes_app, (apply_u32 _ p');
  [rewrite bind_Ok | done | by intros -> | intros x -> ?; cbn -[of_be byte_of]; by rewrite of_be_4].
Lemma apply_fixed a path four :
  attributes_ok four a → decode_path path four = Ok (as_path a) →
  apply_all no_attributes (fixed_list a path) four
  = Ok (Build_Partial (Some (origin a)) (Some (as_path a)) (Some (next_hop a)) (atomic_aggregate a)
          (med a) (local_preference a) (originator_id a) (cluster_list a) []).
Proof.
  destruct a as [og ps nh at_ md lp oid cl un]. unfold attributes_ok, fixed_list.
  cbn [origin as_path next_hop atomic_aggregate med local_preference originator_id cluster_list
       unknown_transitive].
  intros (_ & (Hn & Hn1 & Hn2 & Hn3) & Hm & Hp & Ho & Hc & _) Hpath.
  assert (E : apply_all no_attributes [(0x40, 1, [origin_code og]); (0x40, 2, path); (0x40, 3, be 4 nh)] four
    = Ok (Build_Partial (Some og) (Some ps) (Some nh) false None None None [] [])).
  { cbn [apply_all fst snd].
    assert (apply_attribute no_attributes 64 1 [origin_code og] four
      = Ok (Build_Partial (Some og) None None false None None None [] [])) as -> by by destruct og.
    rewrite bind_Ok.
    assert (apply_attribute (Build_Partial (Some og) None None false None None None [] []) 64 2 path four
      = Ok (Build_Partial (Some og) (Some ps) None false None None None [] [])) as ->
      by (unfold apply_attribute; cbn [Z.eqb Pos.eqb]; by rewrite Hpath).
    rewrite bind_Ok.
    unfold apply_attribute. cbn [Z.eqb Pos.eqb be]. read. rewrite of_be_4 by lia.
    by rewrite Hn1, Hn2, Hn3. }
  rewrite apply_attributes_app, E, bind_Ok. clear E.
  assert (E : apply_all (Build_Partial (Some og) (Some ps) (Some nh) false None None None [] [])
      (if at_ then [(0x40, 6, [])] else []) four
    = Ok (Build_Partial (Some og) (Some ps) (Some nh) at_ None None None [] [])) by by destruct at_.
  rewrite apply_attributes_app, E, bind_Ok. clear E.
  collect (Build_Partial (Some og) (Some ps) (Some nh) at_ md None None [] []).
  collect (Build_Partial (Some og) (Some ps) (Some nh) at_ md lp None [] []).
  collect (Build_Partial (Some og) (Some ps) (Some nh) at_ md lp oid [] []).
  destruct (len cl =? 0) eqn:E; [destruct cl; [done|lens]|]. cbn [apply_all fst snd].
  unfold apply_attribute. cbn [Z.eqb Pos.eqb orb].
  assert (len (concat (map (be 4) cl)) = len cl * 4) as -> by (pose proof (length_concat_be 4 cl); lens).
  rewrite Z_mod_mult, chunks_be by lia. cbn [Z.eqb negb]. rewrite bind_Ok, map_of_be; [done|].
  eapply Forall_impl; [exact Hc|]. cbn. lia.
Qed.

(** A list of attributes that the encoder accepts decodes to itself, on two-octet
    and on four-octet sessions. *)
Lemma attributes_roundtrip a four bs :
  attributes_ok four a → attributes_encode a four = Ok bs →
  attributes_decode bs four = Ok a ∧ len bs ≤ BGP_MAX_MESSAGE ∧ bs ≠ [].
Proof.
  intros Ha H. pose proof Ha as (Hs & _ & _ & _ & _ & _ & Hu).
  destruct (attributes_encode_eq a four bs Hs H) as (path & Hpath & Hb & Hl & Hcl & -> & Hf & Hlen).
  split; [|split; [done|done]].
  unfold attributes_decode. rewrite decode_attributes_list.
  - rewrite apply_attributes_app, apply_fixed, bind_Ok by done.
    rewrite (apply_unknown _ known_codes) by done. rewrite bind_Ok. cbn [p_origin p_as_path p_next_hop ok_or].
    rewrite !bind_Ok. by destruct a.
  - apply Forall_app_2; [by apply attr_ok_fixed|]. by eapply attr_ok_unknown.
  - by apply codes_fresh_fixed.
  - apply length_wire.
Qed.

(** ** Helper lemmas: prepending *)

Lemma foldl_cons_rev {A B} (f : A → B) cs l : foldl (λ p c, f c :: p) l (rev cs) = map f cs ++ l.
Proof.
  revert l. induction cs as [|c cs IH]; intros l; [done|]. cbn [rev map app].
  by rewrite foldl_app, IH.
Qed.
Lemma path_length_sequences cs : sum_of (map segment_length (map Sequence cs)) = len (concat cs).
Proof. induction cs as [|c cs IH]; [done|]. cbn [map sum_of foldr segment_length concat]. unfold sum_of in IH. rewrite IH. lens. Qed.
Lemma sum_of_app l k : sum_of (l ++ k) = sum_of l + sum_of k.
Proof. induction l as [|x l IH]; [done|]. cbn [app sum_of foldr]. unfold sum_of in *. lia. Qed.
Lemma existsb_concat {A} (f : A → bool) ls : existsb f (concat ls) = existsb (existsb f) ls.
Proof. induction ls as [|l ls IH]; [done|]. cbn [concat existsb]. by rewrite existsb_app, IH. Qed.
Lemma contains_as_members a asn :
  contains_as a asn = existsb (Z.eqb asn) (concat (map members (as_path a))).
Proof. unfold contains_as. induction (as_path a) as [|s ss IH]; [done|]. cbn. by rewrite existsb_app, IH. Qed.

(** [prepend] with the leading sequence already taken apart. *)
Lemma prepend_eq a asns b :
  prepend a asns = Ok b →
  ∃ values path, b = with_path a (map Sequence (chunks 255 values) ++ path)
    ∧ (as_path a = path ∧ values = asns ∨ ∃ old, as_path a = Sequence old :: path ∧ values = asns ++ old).
Proof.
  unfold prepend. destruct (_ || _); [done|].
  destruct (as_path a) as [|[old|old] path]; rewrite foldl_cons_rev; intros <-%Ok_inj;
    eexists _, _; (split; [reflexivity|]); eauto.
Qed.

Definition short (s : AsPathSegment) : Prop := 0 < len (members s) ≤ 255.

(** ** Properties *)

(** Prepending AS numbers puts them in front of the path, merged with a leading
    sequence: the members of the path are the new ones followed by the old ones,
    the length that route selection compares grows by their number, the loop test
    sees them, no segment outgrows its one-octet count, and nothing else changes;
    it is refused exactly for the reserved number 0 or a path of more than 1024. *)
Theorem prepend_spec a asns b :
  prepend a asns = Ok b →
  concat (map members (as_path b)) = asns ++ concat (map members (as_path a))
  ∧ path_length b = len asns + path_length a
  ∧ (∀ asn, contains_as b asn = existsb (Z.eqb asn) asns || contains_as a asn)
  ∧ (Forall short (as_path a) → Forall short (as_path b))
  ∧ b = with_path a (as_path b)
  ∧ existsb (Z.eqb 0) asns = false ∧ len (concat (map members (as_path b))) ≤ 1024.
Proof.
  intros H. pose proof H as H0. unfold prepend in H0.
  destruct (_ || _) eqn:E; [done|]. clear H0. apply orb_false_iff in E as [Ez Es].
  apply prepend_eq in H as (values & path & -> & Hv). cbn [with_path as_path].
  destruct (chunks_from_spec (length values) 255 values ltac:(lia) ltac:(lia)) as [Hc1 Hc2].
  fold (chunks 255 values) in *. rewrite map_app, map_map, map_id, concat_app, Hc1.
  assert (Hm : values ++ concat (map members path) = asns ++ concat (map members (as_path a))).
  { destruct Hv as [[-> ->]|(old & -> & ->)]; [done|]. cbn [map concat members]. by rewrite app_assoc. }
  assert (Hsum : sum_of (map (λ s, len (members s)) (as_path a)) = len (concat (map members (as_path a)))).
  { clear. induction (as_path a) as [|s ss IH]; [done|]. cbn [map concat sum_of foldr]. unfold sum_of in IH.
    rewrite IH. lens. }
  split_and!; [done | | | | by destruct a | done | rewrite Hm; rewrite Hsum in Es; lens].
  - unfold path_length. cbn [with_path as_path]. rewrite map_app, sum_of_app, path_length_sequences, Hc1.
    destruct Hv as [[-> ->]|(old & -> & ->)]; [done|]. cbn [map sum_of foldr segment_length].
    unfold sum_of. lens.
  - intros asn. rewrite !contains_as_members. cbn [with_path as_path].
    by rewrite map_app, map_map, map_id, concat_app, Hc1, Hm, existsb_app.
  - intros Hs. apply Forall_app_2.
    + apply Forall_map. eapply Forall_impl; [exact Hc2|]. unfold short. cbn. intros c. lens.
    + destruct Hv as [[Ha ->]|(old & Ha & ->)]; [by rewrite Ha in Hs|]. rewrite Ha in Hs. by apply Forall_cons in Hs as [_ ?].
Qed.

(** ** Helper lemmas: the decoders return well-formed values *)

Lemma chunks_aux_ok fuel n l : bytes_ok l → Forall (λ c, bytes_ok c ∧ length c = n) (chunks_aux fuel n l).
Proof.
  revert l. induction fuel as [|fuel IH]; intros l Hl; cbn [chunks_aux]; [constructor|].
  destruct (length l <? n)%nat eqn:E; [constructor|]. constructor; [|apply IH; auto with bytes_ok].
  split; [auto with bytes_ok|]. lens.
Qed.
Lemma chunk_values n l : bytes_ok l → Forall (λ x, 0 ≤ x < 256 ^ Z.of_nat n) (map of_be (as_chunks n l)).
Proof.
  intros Hl. apply Forall_map. eapply Forall_impl; [by apply (chunks_aux_ok (length l) n)|].
  cbn. intros c [Hc Hn]. pose proof (of_be_bound c Hc) as H. unfold len in H. by rewrite Hn in H.
Qed.
Lemma network_new_ok a l n : u32 a → 0 ≤ l → network_new a l = Ok n → network_ok n.
Proof.
  intros Ha Hl H. unfold network_new, mask_of in H. inv_ok; unfold network_ok; cbn [network network_len].
  - assert (l = 0) as -> by lia. rewrite Z.land_0_r. done.
  - rewrite mask_bits_land by lia. destruct (normalized 32 ltac:(lia) a l ltac:(lia) ltac:(lia)) as [H1 H2].
    split_wf; [lia | lia | done].
Qed.
Lemma decode_prefixes_from_ok fuel bs out :
  bytes_ok bs → (length bs ≤ fuel)%nat → Forall network_ok out →
  safe (decode_prefixes_from fuel bs out)
  ∧ ∀ ps, decode_prefixes_from fuel bs out = Ok ps → Forall network_ok ps.
Proof.
  revert bs out. induction fuel as [|fuel IH]; intros bs out Hb Hf Ho;
    destruct bs as [|b0 bs]; cbn [length] in Hf; try lia; cbn [decode_prefixes_from];
    try (split; [done|by intros ps <-%Ok_inj]).
  destruct (32 <? b0) eqn:E; [done|]. apply Forall_cons in Hb as [Hb0 Hb]. cbn beta in Hb0.
  pose proof (prefix_length b0 ltac:(lia)) as Hk. set (k := Z.to_nat (div_ceil b0 8)) in *.
  destruct (get_slice _ _ _) as [v|] eqn:Hv; [|done]. cbn [ok_or]. rewrite bind_Ok.
  apply get_slice_Some in Hv as [Hle ->]. cbn [drop]. rewrite drop_0.
  replace (1 + k - 1)%nat with k by lia. cbn [length] in Hle.
  rewrite put_ok by (rewrite length_take, length_zeros; lia). rewrite bind_Ok, take_0, app_nil_l, Nat.add_0_l.
  set (address := take k bs ++ _).
  assert (Ha : bytes_ok address ∧ length address = 4%nat).
  { unfold address. rewrite length_app, length_drop, length_zeros, !length_take.
    split; [auto with bytes_ok|lia]. }
  destruct Ha as [Ha1 Ha2]. pose proof (of_be_bound _ Ha1) as Hr. unfold len in Hr. rewrite Ha2 in Hr.
  change (256 ^ Z.of_nat 4) with (2 ^ 32) in Hr.
  destruct (network_new _ _) as [n| |] eqn:Hn; [|done|].
  - cbn [or_err]. rewrite bind_Ok, slice_from_ok, bind_Ok by (cbn [length]; lia). cbn [Nat.add drop].
    apply IH; [auto with bytes_ok | lens |]. apply Forall_app_2; [done|]. constructor; [|done].
    eapply network_new_ok; [| |exact Hn]; lia.
  - exfalso. unfold network_new in Hn. repeat case_match; done.
Qed.
Lemma decode_prefixes_ok bs :
  bytes_ok bs → safe (decode_prefixes bs) ∧ ∀ ps, decode_prefixes bs = Ok ps → Forall network_ok ps.
Proof. intros Hb. apply decode_prefixes_from_ok; [done|lia|constructor]. Qed.

Lemma decode_path_from_ok fuel bs four ss :
  bytes_ok bs → (length bs ≤ fuel)%nat → Forall segment_ok ss →
  safe (decode_path_from fuel bs four ss)
  ∧ ∀ r, decode_path_from fuel bs four ss = Ok r → Forall segment_ok r.
Proof.
  revert bs ss. induction fuel as [|fuel IH]; intros bs ss Hb Hf Hs;
    destruct bs as [|b0 bs]; cbn [length] in Hf; try lia; cbn [decode_path_from];
    try (split; [done|by intros r <-%Ok_inj]).
  destruct (_ <? 2) eqn:E; [done|]. destruct bs as [|b1 bs]; [lens|].
  change (@idx BgpError Z (b0 :: b1 :: bs) 1) with (@Ok BgpError Z b1). rewrite bind_Ok.
  destruct (_ || _) eqn:E1; [done|]. set (w := if four then 4%nat else 2%nat).
  destruct (get_slice _ _ _) as [v|] eqn:Hv; [|done]. cbn [ok_or]. rewrite bind_Ok.
  assert (Hbv : bytes_ok v) by ranges. apply get_slice_Some in Hv as [Hle _].
  destruct (existsb _ _); [done|]. rewrite slice_from_ok, bind_Ok by lia.
  apply IH; [auto with bytes_ok | rewrite length_drop; cbn [length] in *; lia |].
  apply Forall_app_2; [done|]. constructor; [|done]. unfold segment_ok.
  assert (Hw : Forall (λ a, u32 a) (map of_be (as_chunks w v))).
  { eapply Forall_impl; [by apply chunk_values|]. cbn. intros x Hx.
    assert (256 ^ Z.of_nat w ≤ 2 ^ 32) by (unfold w; by destruct four). lia. }
  by destruct (b0 =? 1).
Qed.

(** What [decode] has collected is well formed. *)
Definition partial_ok (four : bool) (p : Partial) : Prop :=
  match p_as_path p with Some ss => Forall segment_ok ss | None => True end
  ∧ match p_next_hop p with Some a => unicast a | None => True end
  ∧ opt_u32 (p_med p) ∧ opt_u32 (p_local_preference p) ∧ opt_u32 (p_originator_id p)
  ∧ Forall (λ i, u32 i) (p_cluster_list p) ∧ Forall (unknown_ok four) (p_unknown p).
Lemma transitive_flags f : u8 f → Z.land f 0xc0 = 0xc0 → Z.land f 0xe0 = 0xc0 ∨ Z.land f 0xe0 = 0xe0.
Proof.
  intros Hf H.
  assert (E : (λ f, negb (Z.land f 0xc0 =? 0xc0) || (Z.land f 0xe0 =? 0xc0) || (Z.land f 0xe0 =? 0xe0)) f = true)
    by (apply (all_bytes_spec (λ f, negb (Z.land f 0xc0 =? 0xc0) || (Z.land f 0xe0 =? 0xc0)
          || (Z.land f 0xe0 =? 0xe0))); [by vm_compute|done]).
  cbn beta in E. lia.
Qed.
Lemma apply_attribute_ok p f c v four :
  u8 f → u8 c → bytes_ok v → partial_ok four p →
  safe (apply_attribute p f c v four)
  ∧ ∀ q, apply_attribute p f c v four = Ok q → partial_ok four q.
Proof.
  intros Hf Hc Hv Hp. destruct p as [og path nh at_ md lp oid cl un].
  destruct Hp as (P1 & P2 & P3 & P4 & P5 & P6 & P7). cbn in P1, P2, P3, P4, P5, P6, P7.
  unfold apply_attribute. cbn zeta. split.
  - repeat first [apply safe_if; intros ? | apply safe_Err | apply safe_Ok]; solve_safe.
    + unfold origin_of. by repeat case_match.
    + by apply (decode_path_from_ok (length v) v four []).
  - intros q Hq. unfold partial_ok.
    inv_ok; cbn; split_wf; try done; try solve [ranges | by apply (decode_path_from_ok (length v) v four [])].
    + split_and!; try lia; ranges.
    + eapply Forall_impl; [by apply chunk_values|]. cbn. change (256 ^ Z.of_nat 4) with (2 ^ 32). lia.
    + apply Forall_app_2; [done|]. constructor; [|done]. unfold unknown_ok; split_wf; cbn [flags unknown_code value];
        [apply transitive_flags; lia | done | done | intros ->; lia].
Qed.
Lemma decode_attributes_ok fuel bs four seen p :
  bytes_ok bs → (length bs ≤ fuel)%nat → partial_ok four p →
  safe (decode_attributes fuel bs four seen p)
  ∧ ∀ q, decode_attributes fuel bs four seen p = Ok q → partial_ok four q.
Proof.
  revert bs seen p. induction fuel as [|fuel IH]; intros bs seen p Hb Hf Hp;
    destruct bs as [|f bs]; cbn [length] in Hf; try lia; cbn [decode_attributes];
    try (split; [done|by intros q <-%Ok_inj]).
  destruct (len _ <? 3) eqn:E; [done|]. destruct bs as [|c bs]; [lens|].
  change (@idx BgpError Z (f :: c :: bs) 1) with (@Ok BgpError Z c). rewrite bind_Ok.
  pose proof Hb as Hb'. apply Forall_cons in Hb' as [Hbf Hb']. apply Forall_cons in Hb' as [Hbc Hb'].
  cbn beta in Hbf, Hbc. set (bs' := f :: c :: bs) in *.
  match goal with |- context [mbind _ ?m] =>
    assert (Hm : safe m ∧ ∀ h l, m = Ok (h, l) → (2 ≤ h)%nat); [|destruct m as [[h l]| |] eqn:Hhl; [|done|by destruct Hm]]
  end.
  { split; [destruct (negb _) eqn:?; solve_safe|]. intros h l H. inv_ok; simplify_eq; lia. }
  rewrite bind_Ok. cbn beta iota zeta. destruct Hm as [_ Hm]. specialize (Hm h l eq_refl).
  destruct (get_slice _ _ _) as [v|] eqn:Hv; [|done]. cbn [ok_or]. rewrite bind_Ok.
  assert (Hbv : bytes_ok v) by ranges. apply get_slice_Some in Hv as [Hle _].
  case_bool_decide; [done|]. destruct (_ || _); [done|].
  destruct (apply_attribute_ok p f c v four) as [Hs Hok]; [done..|].
  destruct (apply_attribute p f c v four) as [q| |]; [|done|done].
  rewrite bind_Ok, slice_from_ok, bind_Ok by lia.
  apply IH; [auto with bytes_ok | rewrite length_drop; unfold bs' in *; cbn [length] in *; lia | by apply Hok].
Qed.
Lemma attributes_decode_ok bs four :
  bytes_ok bs → safe (attributes_decode bs four)
  ∧ ∀ a, attributes_decode bs four = Ok a → attributes_ok four a.
Proof.
  intros Hb. destruct (decode_attributes_ok (length bs) bs four ∅ no_attributes) as [Hs Hok];
    [done|lia|by repeat split; try constructor|].
  unfold attributes_decode. destruct (decode_attributes _ _ _ _ _) as [p| |]; [|done|done].
  rewrite bind_Ok. destruct (Hok p eq_refl) as (P1 & P2 & P3 & P4 & P5 & P6 & P7).
  destruct (p_origin p); [|done]. destruct (p_as_path p); [|done]. destruct (p_next_hop p); [|done].
  cbn [ok_or]. rewrite !bind_Ok. split; [done|]. intros a <-%Ok_inj. unfold attributes_ok. done.
Qed.

(** ** Witnesses *)

Definition sample_attributes : BgpAttributes :=
  {| origin := Igp; as_path := [Sequence [65001; 65002]; Set_ [65010]]; next_hop := 167772161;
     atomic_aggregate := true; med := Some 50; local_preference := None; originator_id := None;
     cluster_list := [7]; unknown_transitive := [{| flags := 224; unknown_code := 30; value := [1; 2] |}] |}.
Lemma prepend_spec_witness :
  prepend sample_attributes [65000]
    = Ok (with_path sample_attributes [Sequence [65000; 65001; 65002]; Set_ [65010]])
  ∧ path_length (with_path sample_attributes [Sequence [65000; 65001; 65002]; Set_ [65010]]) = 4.
Proof.
  assert (H : prepend sample_attributes [65000]
    = Ok (with_path sample_attributes [Sequence [65000; 65001; 65002]; Set_ [65010]])) by (vm_compute; reflexivity).
  split; [exact H|]. destruct (prepend_spec _ _ _ H) as (_ & Hl & _). rewrite Hl. reflexivity.
Defined.
