(* ===== verification/BgpMessages.v ===== *)
(** rios-routing: BGP messages and the framing of the TCP stream
    (src/crates/rios-routing/src/bgp/mod.rs and wire.rs). *)
From S2P Require Import Prelude Wire Ipv4 BgpAttributes.

(** ** mod.rs *)

Inductive BgpCapability :=
| FourOctetAs (asn : Z)
| Multiprotocol (afi safi : Z)
| RouteRefresh
| Unknown (code : Z) (value : bytes).
#[export] Instance BgpCapability_eq_dec : EqDecision BgpCapability.
Proof. solve_decision. Defined.

Record BgpOpen := {
  autonomous_system : Z;
  hold_time : Z;
  router_id : Ipv4Addr;
  capabilities : list BgpCapability
}.
#[export] Instance BgpOpen_eq_dec : EqDecision BgpOpen.
Proof. solve_decision. Defined.

Definition four_octet_asn (c : BgpCapability) : option Z :=
  match c with FourOctetAs asn => Some asn | _ => None end.
(** [filter_map(four_octet_asn)]. *)
Definition four_octet_asns (cs : list BgpCapability) : list Z := omap four_octet_asn cs.
Definition effective_asn (o : BgpOpen) : Z :=
  match four_octet_asns (capabilities o) with
  | asn :: _ => asn
  | [] => autonomous_system o
  end.
Definition four_octet_as (o : BgpOpen) : bool :=
  existsb (λ c, match c with FourOctetAs _ => true | _ => false end) (capabilities o).
Definition open_validate (o : BgpOpen) : res BgpError () :=
  if negb (hold_time o =? 0) && (hold_time o <? 3) then Err (mk_error 2 6)
  else if is_unspecified (router_id o) || is_multicast (router_id o) || is_broadcast (router_id o)
  then Err (mk_error 2 3)
  else if effective_asn o =? 0 then Err (mk_error 2 2)
  else
    let asns : gset Z := list_to_set (four_octet_asns (capabilities o)) in
    if (1 <? size asns)%nat then Err (mk_error 2 4) else Ok ().
Arguments open_validate : simpl never.

Record BgpUpdate := {
  withdrawn : list Ipv4Network;
  attributes : option BgpAttributes;
  announced : list Ipv4Network
}.
#[export] Instance BgpUpdate_eq_dec : EqDecision BgpUpdate.
Proof. solve_decision. Defined.
Inductive BgpMessage :=
| Open (open : BgpOpen)
| Update (update : BgpUpdate)
| Notification (code subcode : Z) (data : bytes)
| Keepalive.
#[export] Instance BgpMessage_eq_dec : EqDecision BgpMessage.
Proof. solve_decision. Defined.

Definition message_length (bs : bytes) : res BgpError Z :=
  if len bs <? 19 then Err (mk_error 1 2)
  else
    marker ← slice bs 0 16;
    if negb (bool_decide (marker = replicate 16 255)) then Err (mk_error 1 1)
    else
      length ← u16_at bs 16;
      if negb ((19 <=? length) && (length <=? BGP_MAX_MESSAGE)) then Err (mk_error 1 2)
      else
        kind ← idx bs 18;
        if negb ((1 <=? kind) && (kind <=? 4)) then Err (mk_error 1 3) else Ok length.

(** ** wire.rs: encoding *)

Definition capability_wire (c : BgpCapability) : Z * bytes :=
  match c with
  | FourOctetAs asn => (65, be 4 asn)
  | Multiprotocol afi safi => (1, be 2 afi ++ [0; safi])
  | RouteRefresh => (2, [])
  | Unknown code value => (code, value)
  end.
Fixpoint encode_capabilities (cs : list BgpCapability) (caps : bytes) : res BgpError bytes :=
  match cs with
  | [] => Ok caps
  | c :: cs =>
      let '(code, value) := capability_wire c in
      if (255 <? len value) || (253 <? len caps + 2 + len value) then Err (mk_error 2 4)
      else encode_capabilities cs (caps ++ [code; len value `mod` 256] ++ value)
  end.
(** The [match self] of [encode]: what it appends to the header and the type code. *)
Definition encode_body (m : BgpMessage) (four : bool) : res BgpError (Z * bytes) :=
  match m with
  | Open open =>
      _ ← open_validate open;
      caps ← encode_capabilities (capabilities open) [];
      Ok (1, [4] ++ be 2 (autonomous_system open) ++ be 2 (hold_time open) ++ be 4 (router_id open)
             ++ (if len caps =? 0 then [0]
                 else [(len caps + 2) `mod` 256; 2; len caps `mod` 256] ++ caps))
  | Update update =>
      if negb (len (announced update) =? 0) && negb (bool_decide (is_Some (attributes update)))
      then Err (mk_error 3 3)
      else
        withdrawn ← encode_prefixes (withdrawn update);
        attrs ← (match attributes update with Some a => attributes_encode a four | None => Ok [] end);
        count ← ok_or (try_from U16_MAX (len attrs)) (mk_error 1 2);
        announced ← encode_prefixes (announced update);
        Ok (2, be 2 (len withdrawn `mod` 2 ^ 16) ++ withdrawn ++ be 2 count ++ attrs ++ announced)
  | Notification code subcode data =>
      if BGP_MAX_MESSAGE - 21 <? len data then Err (mk_error 1 2)
      else Ok (3, [code; subcode] ++ data)
  | Keepalive => Ok (4, [])
  end.
Definition message_encode (m : BgpMessage) (four : bool) : res BgpError bytes :=
  let out := replicate 16 255 ++ [0; 0; 0] in
  '(kind, body) ← encode_body m four;
  out ← put (out ++ body) 18 [kind];
  if BGP_MAX_MESSAGE <? len out then Err (mk_error 1 2)
  else put out 16 (be 2 (len out `mod` 2 ^ 16)).

(** ** wire.rs: decoding *)

Definition capability_of (code : Z) (content : bytes) : res BgpError BgpCapability :=
  let size := len content in
  if (code =? 65) && (size =? 4) then asn ← u32_at content 0; Ok (FourOctetAs asn)
  else if (code =? 1) && (size =? 4) then
    afi ← u16_at content 0; safi ← idx content 3; Ok (Multiprotocol afi safi)
  else if (code =? 2) && (size =? 0) then Ok RouteRefresh
  else if (code =? 1) || (code =? 2) || (code =? 65) then Err (mk_error 2 4)
  else Ok (Unknown code content).
(** [while !value.is_empty()]: the capabilities of one parameter. *)
Fixpoint decode_capabilities (fuel : nat) (value : bytes) (caps : list BgpCapability)
    : res BgpError (list BgpCapability) :=
  match value with
  | [] => Ok caps
  | code :: _ =>
      match fuel with
      | O => Panic
      | S fuel =>
          if len value <? 2 then Err (mk_error 2 4)
          else
            size ← idx value 1;
            let size := Z.to_nat size in
            content ← ok_or (get_slice value 2 (2 + size)) (mk_error 2 4);
            capability ← capability_of code content;
            rest ← slice_from value (2 + size);
            decode_capabilities fuel rest (caps ++ [capability])
      end
  end.
(** [while !rest.is_empty()]: the optional parameters. *)
Fixpoint decode_parameters (fuel : nat) (rest : bytes) (caps : list BgpCapability)
    : res BgpError (list BgpCapability) :=
  match rest with
  | [] => Ok caps
  | kind :: _ =>
      match fuel with
      | O => Panic
      | S fuel =>
          if len rest <? 2 then Err (mk_error 2 4)
          else
            length ← idx rest 1;
            let length := Z.to_nat length in
            value ← ok_or (get_slice rest 2 (2 + length)) (mk_error 2 4);
            if negb (kind =? 2) then Err (mk_error 2 4)
            else
              caps ← decode_capabilities (List.length value) value caps;
              rest ← slice_from rest (2 + length);
              decode_parameters fuel rest caps
      end
  end.

Definition decode_open (b : bytes) : res BgpError BgpMessage :=
  bad ← (if len b <? 10 then Ok true else n ← idx b 9; Ok (negb (n + 10 =? len b)));
  if bad : bool then Err (mk_error 1 2)
  else
    version ← idx b 0;
    if negb (version =? 4) then Err (mk_error 2 1)
    else
      rest ← slice_from b 10;
      caps ← decode_parameters (length rest) rest [];
      autonomous_system ← u16_at b 1;
      hold_time ← u16_at b 3;
      id ← slice b 5 9;
      router_id ← u32_at id 0;
      let open := {| autonomous_system := autonomous_system; hold_time := hold_time;
                     router_id := router_id; capabilities := caps |} in
      _ ← open_validate open;
      Ok (Open open).
Definition decode_update (b : bytes) (four : bool) : res BgpError BgpMessage :=
  if len b <? 4 then Err (mk_error 3 1)
  else
    count ← u16_at b 0;
    let count := Z.to_nat count in
    field ← ok_or (get_slice b 2 (2 + count)) (mk_error 3 1);
    withdrawn ← decode_prefixes field;
    rest ← ok_or (match get_from b (2 + count) with
                  | Some r => if 2 <=? len r then Some r else None
                  | None => None
                  end) (mk_error 3 1);
    count ← u16_at rest 0;
    let count := Z.to_nat count in
    attrs ← ok_or (get_slice rest 2 (2 + count)) (mk_error 3 1);
    nlri ← slice_from rest (2 + count);
    announced ← decode_prefixes nlri;
    attributes ← (if len attrs =? 0 then Ok None
                  else a ← attributes_decode attrs four; Ok (Some a));
    if negb (len announced =? 0) && negb (bool_decide (is_Some attributes)) then Err (mk_error 3 3)
    else Ok (Update {| withdrawn := withdrawn; attributes := attributes; announced := announced |}).
Definition message_decode (bs : bytes) (four : bool) : res BgpError BgpMessage :=
  length ← message_length bs;
  if negb (length =? len bs) then Err (mk_error 1 2)
  else
    b ← slice_from bs 19;
    kind ← idx bs 18;
    if kind =? 1 then decode_open b
    else if kind =? 2 then decode_update b four
    else if kind =? 3 then
      if len b <? 2 then Err (mk_error 1 2)
      else
        code ← idx b 0;
        subcode ← idx b 1;
        data ← slice_from b 2;
        Ok (Notification code subcode data)
    else if (kind =? 4) && (len b =? 0) then Ok Keepalive
    else Err (mk_error 1 2).

(** ** mod.rs: the stream *)

(** [BgpStream] is its buffer; an operation returns its result and the buffer. *)
Abbreviation BgpStream := bytes.
Definition push (s : BgpStream) (bs : bytes) : res BgpError BgpStream :=
  room ← arith U64_MAX (BGP_MAX_MESSAGE * 2 - len s);
  if room <? len bs then Err (mk_error 6 8) else Ok (s ++ bs).
Definition next_message (s : BgpStream) (four : bool) : res BgpError (option BgpMessage * BgpStream) :=
  if len s <? 19 then Ok (None, s)
  else
    length ← message_length s;
    if len s <? length then Ok (None, s)
    else
      frame ← slice s 0 (Z.to_nat length);
      message ← message_decode frame four;
      Ok (Some message, drop (Z.to_nat length) s).

(** ** Well-formed values *)

Definition capability_ok (c : BgpCapability) : Prop :=
  match c with
  | FourOctetAs asn => u32 asn
  | Multiprotocol afi safi => u16 afi ∧ u8 safi
  | RouteRefresh => True
  | Unknown code value => u8 code ∧ bytes_ok value ∧ code ≠ 1 ∧ code ≠ 2 ∧ code ≠ 65
  end.
Definition open_ok (o : BgpOpen) : Prop :=
  u16 (autonomous_system o) ∧ u16 (hold_time o) ∧ u32 (router_id o) ∧ Forall capability_ok (capabilities o).
Definition message_ok (four : bool) (m : BgpMessage) : Prop :=
  match m with
  | Open o => open_ok o
  | Update u => Forall network_ok (withdrawn u) ∧ Forall network_ok (announced u)
      ∧ match attributes u with Some a => attributes_ok four a | None => True end
  | Notification code subcode data => u8 code ∧ u8 subcode ∧ bytes_ok data
  | Keepalive => True
  end.

(** ** Helper lemmas: the frame *)

Definition frame (kind : Z) (body : bytes) : bytes :=
  replicate 16 255 ++ be 2 (19 + len body) ++ [kind] ++ body.
Lemma len_frame k body : len (frame k body) = 19 + len body.
Proof. unfold frame. lens. Qed.
Lemma message_encode_eq m four bs :
  message_encode m four = Ok bs →
  ∃ k body, encode_body m four = Ok (k, body) ∧ bs = frame k body ∧ 19 + len body ≤ BGP_MAX_MESSAGE.
Proof.
  unfold message_encode, BGP_MAX_MESSAGE. intros H. apply bind_Ok_inv in H as ([k body] & Hb & H).
  exists k, body. split; [done|]. cbn [replicate app] in H. rewrite put_ok in H by lens.
  cbn [take drop app length Nat.add] in H. rewrite drop_0, bind_Ok in H. assert (0 ≤ len body) by lens.
  set (out := 255 :: _) in H. assert (Hl : len out = 19 + len body) by (unfold out; lens).
  destruct (4096 <? len out) eqn:E; [done|]. rewrite Hl in *. rewrite Z.mod_small in H by lia.
  rewrite put_ok in H by (unfold out; lens). apply Ok_inj in H as <-. split; [|lia].
  unfold out, frame. cbn [take drop app length Nat.add replicate be]. done.
Qed.
Lemma message_length_frame k body rest :
  1 ≤ k ≤ 4 → 19 + len body ≤ BGP_MAX_MESSAGE →
  message_length (frame k body ++ rest) = Ok (19 + len body).
Proof.
  unfold BGP_MAX_MESSAGE. intros Hk Hl. unfold message_length, frame. cbn [replicate app be].
  assert (0 ≤ len body) by lens.
  destruct (len _ <? 19) eqn:E; [lens|]. rewrite slice_ok by lens. cbn [take drop Nat.sub].
  rewrite ?take_0, bind_Ok, bool_decide_true by done. cbn [negb]. read. rewrite of_be_2 by lia.
  unfold BGP_MAX_MESSAGE. rewrite ?bind_Ok. by decide_ifs.
Qed.

(** Decoding a frame is decoding its body. *)
Lemma message_decode_frame k body four :
  1 ≤ k ≤ 4 → 19 + len body ≤ BGP_MAX_MESSAGE →
  message_decode (frame k body) four
  = if k =? 1 then decode_open body
    else if k =? 2 then decode_update body four
    else if k =? 3 then
      if len body <? 2 then Err (mk_error 1 2)
      else
        code ← idx body 0; subcode ← idx body 1; data ← slice_from body 2;
        Ok (Notification code subcode data)
    else if (k =? 4) && (len body =? 0) then Ok Keepalive
    else Err (mk_error 1 2).
Proof.
  intros Hk Hl. unfold message_decode. rewrite <-(app_nil_r (frame k body)) at 1.
  rewrite message_length_frame, bind_Ok, len_frame, Z.eqb_refl by done. cbn [negb].
  rewrite slice_from_ok by (pose proof (len_frame k body); lens). rewrite bind_Ok.
  unfold frame. cbn [replicate app be drop]. rewrite drop_0. read. by rewrite ?bind_Ok.
Qed.

(** ** Helper lemmas: OPEN *)

Lemma capability_roundtrip c code value :
  capability_ok c → capability_wire c = (code, value) → len value ≤ 255 →
  u8 code ∧ bytes_ok value ∧ capability_of code value = Ok c.
Proof.
  intros Hc Hw Hl. destruct c as [asn|afi safi| |k v]; cbn in Hw; simplify_eq; cbn in Hc.
  - split_wf; [lia|octets; apply byte_of_range|]. unfold capability_of. read. by rewrite of_be_4.
  - split_wf; [lia|octets; try apply byte_of_range; lia|]. unfold capability_of. read. by rewrite of_be_2 by lia.
  - split_wf; [lia|constructor|done].
  - destruct Hc as (?&?&?&?&?). split_wf; [done|done|]. unfold capability_of. by decide_ifs.
Qed.
Definition capability_octets (c : BgpCapability) : bytes :=
  [(capability_wire c).1; len (capability_wire c).2] ++ (capability_wire c).2.
Lemma encode_capabilities_eq cs caps bs :
  encode_capabilities cs caps = Ok bs →
  bs = caps ++ concat (map capability_octets cs)
  ∧ Forall (λ c, len (capability_wire c).2 ≤ 255) cs ∧ (len caps ≤ 253 → len bs ≤ 253).
Proof.
  revert caps. induction cs as [|c cs IH]; intros caps H; cbn [encode_capabilities] in H.
  - apply Ok_inj in H as <-. split_and!; [by rewrite app_nil_r|constructor|done].
  - destruct (capability_wire c) as [k v] eqn:Hw. destruct (_ || _) eqn:E; [done|].
    assert (0 ≤ len v) by lens. rewrite Z.mod_small in H by lia.
    apply IH in H as (-> & Hf & Hl). split_and!.
    + cbn [map concat]. unfold capability_octets at 2. rewrite Hw. by rewrite <-!app_assoc.
    + constructor; [rewrite Hw; cbn; lia|done].
    + intros _. apply Hl. lens.
Qed.
Lemma decode_capabilities_list cs fuel caps :
  Forall capability_ok cs → Forall (λ c, len (capability_wire c).2 ≤ 255) cs → (length cs ≤ fuel)%nat →
  decode_capabilities fuel (concat (map capability_octets cs)) caps = Ok (caps ++ cs).
Proof.
  intros Hcs. revert fuel caps. induction Hcs as [|c cs Hc _ IH]; intros fuel caps Hl Hf.
  - rewrite app_nil_r. by destruct fuel.
  - destruct fuel as [|fuel]; cbn [length] in Hf; [lia|]. apply Forall_cons in Hl as [Hl1 Hl].
    cbn [map concat]. unfold capability_octets at 1. destruct (capability_wire c) as [k v] eqn:Hw.
    cbn [fst snd] in *. destruct (capability_roundtrip c k v Hc Hw Hl1) as (_ & _ & Hof).
    set (rest := concat (map capability_octets cs)). cbn [app decode_capabilities].
    destruct (len _ <? 2) eqn:E; [lens|].
    change (@idx BgpError Z (k :: len v :: v ++ rest) 1) with (@Ok BgpError Z (len v)). rewrite bind_Ok.
    replace (Z.to_nat (len v)) with (length v) by lens. rewrite get_slice_at by lens. cbn [drop ok_or].
    rewrite drop_0, take_app_length, bind_Ok, Hof, bind_Ok, slice_from_ok, bind_Ok by lens.
    cbn [Nat.add drop]. rewrite drop_app_length, IH by (done || lia). by rewrite <-app_assoc.
Qed.
Lemma capabilities_length cs : (length cs ≤ length (concat (map capability_octets cs)))%nat.
Proof. induction cs as [|c cs IH]; [done|]. cbn [map concat]. unfold capability_octets at 1. lens. Qed.

Lemma open_roundtrip o four k body :
  open_ok o → encode_body (Open o) four = Ok (k, body) → k = 1 ∧ decode_open body = Ok (Open o).
Proof.
  intros (Ha & Hh & Hr & Hc) H. cbn [encode_body] in H.
  destruct (open_validate o) as [[]| |] eqn:Hv; [|done|done]. rewrite bind_Ok in H.
  destruct (encode_capabilities _ _) as [caps| |] eqn:Hcaps; [|done|done]. rewrite bind_Ok in H.
  apply Ok_inj in H. injection H as <- <-. split; [done|].
  apply encode_capabilities_eq in Hcaps as (-> & Hf & Hl). cbn [app] in *.
  set (caps := concat (map capability_octets (capabilities o))) in *. specialize (Hl ltac:(done)).
  set (rest := (if len caps =? 0 then [] else [2; len caps] ++ caps) : bytes).
  assert (Hrest : (if len caps =? 0 then [0] else [(len caps + 2) `mod` 256; 2; len caps `mod` 256] ++ caps)
    = len rest :: rest).
  { unfold rest. assert (0 ≤ len caps) by lens. destruct (len caps =? 0) eqn:E; [done|].
    rewrite !Z.mod_small by lia. cbn [app]. f_equal. lens. }
  assert (Hdec : decode_parameters (length rest) rest [] = Ok (capabilities o)).
  { unfold rest. destruct (len caps =? 0) eqn:E.
    - pose proof (capabilities_length (capabilities o)). fold caps in H.
      destruct (capabilities o); [done|cbn [length] in *; lens].
    - cbn [app length decode_parameters]. destruct (len _ <? 2) eqn:E'; [lens|].
      change (@idx BgpError Z (2 :: len caps :: caps) 1) with (@Ok BgpError Z (len caps)). rewrite bind_Ok.
      replace (Z.to_nat (len caps)) with (length caps) by lens. rewrite get_slice_at by lens. cbn [drop ok_or].
      rewrite drop_0, take_ge, bind_Ok by done. cbn [Z.eqb Pos.eqb negb].
      pose proof (decode_capabilities_list (capabilities o) (length caps) [] Hc Hf
        (capabilities_length _)) as Hd. fold caps in Hd. rewrite Hd, bind_Ok. rewrite slice_from_ok, bind_Ok by lens. cbn [Nat.add drop]. by rewrite drop_ge by lens. }
  cbn [app be] in Hrest |- *. rewrite Hrest. unfold decode_open. cbn [app be].
  destruct (len _ <? 10) eqn:E; [lens|]. read. rewrite ?bind_Ok.
  match goal with |- context [negb (?a =? ?b)] => replace (negb (a =? b)) with false by lens end.
  read. rewrite ?bind_Ok. rewrite slice_from_ok by lens. cbn [drop]. rewrite drop_0, bind_Ok, Hdec, bind_Ok.
  rewrite slice_ok by lens. cbn [take drop Nat.sub]. rewrite ?take_0. read.
  rewrite !of_be_2, of_be_4 by lia. destruct o. cbn [autonomous_system hold_time router_id capabilities] in *. by rewrite Hv.
Qed.

(** ** Helper lemmas: UPDATE and the whole message *)

Lemma update_roundtrip u four k body :
  message_ok four (Update u) → encode_body (Update u) four = Ok (k, body) →
  k = 2 ∧ decode_update body four = Ok (Update u).
Proof.
  intros (Hw & Han & Hat) H. cbn [encode_body] in H. destruct (_ && _) eqn:E; [done|].
  destruct (encode_prefixes (withdrawn u)) as [w| |] eqn:H1; [|done|done]. rewrite bind_Ok in H.
  destruct (prefixes_roundtrip _ _ Hw H1) as (D1 & L1 & _ & _). unfold BGP_MAX_MESSAGE in L1.
  apply bind_Ok_inv in H as (attrs & H2 & H).
  assert (D2 : (if len attrs =? 0 then Ok None else a ← attributes_decode attrs four; Ok (Some a))
               = (Ok (attributes u) : res BgpError _)).
  { destruct (attributes u) as [a|]; [|by apply Ok_inj in H2 as <-].
    destruct (attributes_roundtrip a four attrs Hat H2) as (Hd & _ & Hne). rewrite Hd.
    destruct attrs; [done|]. by replace (len (z :: attrs) =? 0) with false by lens. }
  apply bind_Ok_inv in H as (count & H3 & H). apply ok_or_Ok_inv in H3. unfold try_from, U16_MAX in H3.
  destruct (len attrs <=? 65535) eqn:Hl; [|done]. injection H3 as <-.
  destruct (encode_prefixes (announced u)) as [n| |] eqn:H4; [|done|done]. rewrite bind_Ok in H.
  destruct (prefixes_roundtrip _ _ Han H4) as (D4 & _ & _ & _).
  apply Ok_inj in H. injection H as <- <-. split; [done|].
  assert (0 ≤ len w) by lens. rewrite Z.mod_small by lia. unfold decode_update.
  destruct (len _ <? 4) eqn:E4; [lens|].
  match goal with |- context [u16_at ?b 0] =>
    assert (@u16_at BgpError b 0 = Ok (len w)) as -> by (eapply (u16_at_be (len w)); lia) end.
  rewrite bind_Ok.
  replace (Z.to_nat (len w)) with (length w) by lens. rewrite get_slice_at by lens. cbn [be app drop ok_or].
  rewrite drop_0, take_app_length, bind_Ok, D1, bind_Ok, get_from_ok by lens. cbn [Nat.add drop].
  rewrite drop_app_length.
  set (r := byte_of (len attrs) 1 :: _). assert (Hr : (2 <=? len r) = true) by (unfold r; lens).
  rewrite Hr. cbn [ok_or]. rewrite bind_Ok.
  assert (@u16_at BgpError r 0 = Ok (len attrs)) as -> by (apply (u16_at_be (len attrs) (attrs ++ n)); lens).
  rewrite bind_Ok. unfold r.
  replace (Z.to_nat (len attrs)) with (length attrs) by lens.
  change (S (S (length attrs))) with (2 + length attrs)%nat. rewrite get_slice_at by lens. cbn [drop ok_or].
  rewrite drop_0, take_app_length, bind_Ok, slice_from_ok, bind_Ok by lens. cbn [Nat.add drop].
  rewrite drop_app_length, D4, bind_Ok, D2, bind_Ok, E. by destruct u.
Qed.

Lemma encode_body_kind m four k body : encode_body m four = Ok (k, body) → 1 ≤ k ≤ 4.
Proof.
  destruct m; cbn [encode_body]; intros H; inv_ok; simplify_eq; lia.
Qed.
Lemma message_roundtrip_aux m four bs :
  message_ok four m → message_encode m four = Ok bs →
  message_decode bs four = Ok m ∧ 19 ≤ len bs ≤ BGP_MAX_MESSAGE
  ∧ ∀ rest, message_length (bs ++ rest) = Ok (len bs).
Proof.
  intros Hm H. apply message_encode_eq in H as (k & body & Hb & -> & Hl).
  pose proof (encode_body_kind _ _ _ _ Hb) as Hk. rewrite len_frame.
  split; [|split; [unfold BGP_MAX_MESSAGE in *; lens|]]; [|intros; by apply message_length_frame].
  rewrite message_decode_frame by done. destruct m as [o|u|c s d|].
  - by destruct (open_roundtrip _ _ _ _ Hm Hb) as [-> Hd].
  - by destruct (update_roundtrip _ _ _ _ Hm Hb) as [-> Hd].
  - cbn [encode_body] in Hb. destruct (_ <? _); [done|]. apply Ok_inj in Hb. injection Hb as <- <-.
    cbn [Z.eqb Pos.eqb app]. destruct (len _ <? 2) eqn:E; [lens|]. read. rewrite ?bind_Ok.
    rewrite slice_from_ok by lens. cbn [drop]. by rewrite drop_0.
  - by apply Ok_inj in Hb as [= <- <-].
Qed.

(** ** Helper lemmas: decoding any octets *)

Lemma capability_of_ok code content :
  u8 code → bytes_ok content →
  safe (capability_of code content) ∧ ∀ c, capability_of code content = Ok c → capability_ok c.
Proof.
  intros Hc Hb. unfold capability_of. cbn zeta. split.
  - repeat (apply safe_if; intros ?); solve_safe.
  - intros c H. inv_ok; cbn; split_wf; try ranges; try done; intros ->; done.
Qed.
Lemma decode_capabilities_ok fuel value caps :
  bytes_ok value → (length value ≤ fuel)%nat → Forall capability_ok caps →
  safe (decode_capabilities fuel value caps)
  ∧ ∀ cs, decode_capabilities fuel value caps = Ok cs → Forall capability_ok cs.
Proof.
  revert value caps. induction fuel as [|fuel IH]; intros value caps Hb Hf Hc;
    destruct value as [|k value]; cbn [length] in Hf; try lia; cbn [decode_capabilities];
    try (split; [done|by intros q <-%Ok_inj]).
  destruct (len _ <? 2) eqn:E; [done|]. destruct value as [|n value]; [lens|].
  change (@idx BgpError Z (k :: n :: value) 1) with (@Ok BgpError Z n). rewrite bind_Ok.
  destruct (get_slice _ _ _) as [v|] eqn:Hv; [|done]. cbn [ok_or]. rewrite bind_Ok.
  assert (Hbv : bytes_ok v) by ranges. apply get_slice_Some in Hv as [Hle _].
  pose proof Hb as Hb'. apply Forall_cons in Hb' as [Hk _]. cbn beta in Hk.
  destruct (capability_of_ok k v Hk Hbv) as [Hs Hok]. destruct (capability_of k v) as [c| |]; [|done|done].
  rewrite bind_Ok, slice_from_ok, bind_Ok by lia.
  apply IH; [auto with bytes_ok | rewrite length_drop; cbn [length] in *; lia |].
  apply Forall_app_2; [done|]. constructor; [by apply Hok|done].
Qed.
Lemma decode_parameters_ok fuel rest caps :
  bytes_ok rest → (length rest ≤ fuel)%nat → Forall capability_ok caps →
  safe (decode_parameters fuel rest caps)
  ∧ ∀ cs, decode_parameters fuel rest caps = Ok cs → Forall capability_ok cs.
Proof.
  revert rest caps. induction fuel as [|fuel IH]; intros rest caps Hb Hf Hc;
    destruct rest as [|k rest]; cbn [length] in Hf; try lia; cbn [decode_parameters];
    try (split; [done|by intros q <-%Ok_inj]).
  destruct (len _ <? 2) eqn:E; [done|]. destruct rest as [|n rest]; [lens|].
  change (@idx BgpError Z (k :: n :: rest) 1) with (@Ok BgpError Z n). rewrite bind_Ok.
  destruct (get_slice _ _ _) as [v|] eqn:Hv; [|done]. cbn [ok_or]. rewrite bind_Ok.
  assert (Hbv : bytes_ok v) by ranges. apply get_slice_Some in Hv as [Hle _].
  destruct (negb (k =? 2)); [done|].
  destruct (decode_capabilities_ok (length v) v caps) as [Hs Hok]; [done|lia|done|].
  destruct (decode_capabilities _ v caps) as [cs| |]; [|done|done].
  rewrite bind_Ok, slice_from_ok, bind_Ok by lia.
  apply IH; [auto with bytes_ok | rewrite length_drop; cbn [length] in *; lia | by apply Hok].
Qed.
Lemma open_validate_safe o : safe (open_validate o).
Proof. unfold open_validate. repeat case_match; done. Qed.
Lemma decode_open_ok b four :
  bytes_ok b → safe (decode_open b)
  ∧ ∀ m, decode_open b = Ok m → message_ok four m ∧ ∃ o, m = Open o ∧ open_validate o = Ok ().
Proof.
  intros Hb.
  destruct (decode_parameters_ok (length (drop 10 b)) (drop 10 b) []) as [Hs Hok];
    [auto with bytes_ok|lia|constructor|].
  unfold decode_open. destruct (len b <? 10) eqn:E; [by rewrite bind_Ok|].
  destruct (lookup_lt_is_Some_2 b 9) as [n Hn]; [lens|].
  assert (@idx BgpError Z b 9 = Ok n) as -> by by rewrite idx_Ok.
  rewrite !bind_Ok. destruct (negb _); [done|]. rewrite slice_from_ok by lens. split.
  - apply safe_bind; [solve_safe|]. intros v _. apply safe_if; [done|]. intros _. rewrite bind_Ok.
    apply safe_bind; [done|]. intros cs _. do 3 (apply safe_bind; [solve_safe|]; intros ??).
    apply safe_bind; [|intros ? _; apply safe_bind; [apply open_validate_safe|done]].
    match goal with H : slice b 5 9 = Ok _ |- _ => apply slice_Ok_inv in H as [? ->] end.
    apply safe_u32_at. lens.
  - intros m Hm. apply bind_Ok_inv in Hm as (v & _ & Hm). destruct (negb _); [done|]. rewrite bind_Ok in Hm.
    apply bind_Ok_inv in Hm as (cs & Hcs & Hm). apply Hok in Hcs.
    apply bind_Ok_inv in Hm as (a & Ha & Hm). apply bind_Ok_inv in Hm as (h & Hh & Hm).
    apply bind_Ok_inv in Hm as (i & Hi & Hm). apply bind_Ok_inv in Hm as (r & Hr & Hm).
    apply bind_Ok_inv in Hm as ([] & Hv & Hm). apply Ok_inj in Hm as <-. split; [|eauto].
    unfold message_ok, open_ok. cbn [autonomous_system hold_time router_id capabilities].
    split_wf; [ranges..|done].
Qed.
Lemma decode_update_ok b four :
  bytes_ok b → safe (decode_update b four)
  ∧ ∀ m, decode_update b four = Ok m → message_ok four m ∧ ∃ u, m = Update u.
Proof.
  intros Hb. unfold decode_update. split.
  - apply safe_if; [done|]. intros Hl. apply safe_bind; [solve_safe|]. intros n _. cbn zeta.
    apply safe_bind; [apply safe_ok_or|]. intros f Hf%ok_or_Ok_inv.
    apply safe_bind; [apply decode_prefixes_ok; ranges|]. intros w _.
    apply safe_bind; [apply safe_ok_or|]. intros r Hr%ok_or_Ok_inv.
    destruct (get_from b (2 + Z.to_nat n)) as [r'|] eqn:Hg; [|done]. destruct (2 <=? len r') eqn:Hlr; [|done].
    injection Hr as <-. apply safe_bind; [solve_safe|]. intros n' _. cbn zeta.
    apply safe_bind; [apply safe_ok_or|]. intros a Ha%ok_or_Ok_inv. pose proof Ha as [Hle _]%get_slice_Some.
    apply safe_bind; [apply safe_slice_from; lia|]. intros p Hp.
    apply safe_bind; [apply decode_prefixes_ok; ranges|]. intros an _.
    apply safe_bind; [|intros at_ _; by apply safe_if]. apply safe_if; [done|]. intros _.
    apply safe_bind; [apply attributes_decode_ok; ranges|done].
  - intros m Hm. destruct (_ <? 4); [done|]. apply bind_Ok_inv in Hm as (n & _ & Hm).
    apply bind_Ok_inv in Hm as (f & Hf%ok_or_Ok_inv & Hm). apply bind_Ok_inv in Hm as (w & Hw & Hm).
    apply bind_Ok_inv in Hm as (r & Hr%ok_or_Ok_inv & Hm).
    destruct (get_from b (2 + Z.to_nat n)) as [r'|] eqn:Hg; [|done]. destruct (2 <=? len r'); [|done].
    injection Hr as <-. apply bind_Ok_inv in Hm as (n' & _ & Hm).
    apply bind_Ok_inv in Hm as (a & Ha%ok_or_Ok_inv & Hm). apply bind_Ok_inv in Hm as (p & Hp & Hm).
    apply bind_Ok_inv in Hm as (an & Han & Hm). apply bind_Ok_inv in Hm as (at_ & Hat & Hm).
    destruct (_ && _); [done|]. apply Ok_inj in Hm as <-. split; [|eauto].
    cbn [message_ok withdrawn announced attributes]. split_and!.
    + eapply decode_prefixes_ok; [|exact Hw]. ranges.
    + eapply decode_prefixes_ok; [|exact Han]. ranges.
    + destruct (len a =? 0); [by apply Ok_inj in Hat as <-|].
      apply bind_Ok_inv in Hat as (x & Hx & <-%Ok_inj). eapply attributes_decode_ok; [|exact Hx]. ranges.
Qed.

(** ** Helper lemmas: the stream *)

Lemma message_length_safe bs : safe (message_length bs).
Proof.
  unfold message_length. apply safe_if; [done|]. intros Hl. apply safe_bind; [solve_safe|]. intros k _.
  apply safe_if; [done|]. intros _. solve_safe.
Qed.

Lemma message_length_prefix s r : 19 ≤ len s → message_length (s ++ r) = message_length s.
Proof.
  intros Hl. unfold message_length.
  destruct (len (s ++ r) <? 19) eqn:E1; [lens|]. destruct (len s <? 19) eqn:E2; [lens|].
  do 19 (destruct s as [|? s]; [exfalso; lens|]). cbn [app].
  rewrite !slice_ok by (cbn [length]; lia). reflexivity.
Qed.
Lemma next_message_whole e rest m four :
  message_ok four m → message_encode m four = Ok e →
  next_message (e ++ rest) four = Ok (Some m, rest).
Proof.
  intros Hm He. destruct (message_roundtrip_aux _ _ _ Hm He) as (Hd & Hl & Hlen). unfold next_message.
  assert (Hl' : len (e ++ rest) = len e + len rest ∧ 0 ≤ len rest) by lens. decide_ifs.
  rewrite Hlen, bind_Ok. decide_ifs. replace (Z.to_nat (len e)) with (length e) by lens.
  rewrite slice_ok by lens. rewrite drop_0, Nat.sub_0_r, take_app_length, bind_Ok, Hd, bind_Ok.
  by rewrite drop_app_length.
Qed.
Lemma next_message_partial s r m four :
  message_ok four m → message_encode m four = Ok (s ++ r) → r ≠ [] →
  next_message s four = Ok (None, s).
Proof.
  intros Hm He Hr. destruct (message_roundtrip_aux _ _ _ Hm He) as (_ & _ & Hlen). unfold next_message.
  destruct (len s <? 19) eqn:E; [done|]. specialize (Hlen []). rewrite app_nil_r in Hlen.
  rewrite message_length_prefix in Hlen by lia. rewrite Hlen, bind_Ok.
  assert (len s < len (s ++ r)) by (destruct r; [done|lens]). by decide_ifs.
Qed.

(** The loop of the receiver: read frames until the buffer holds no whole one. *)
Fixpoint read_all (fuel : nat) (s : BgpStream) (four : bool) : res BgpError (list BgpMessage * BgpStream) :=
  match fuel with
  | O => Panic
  | S fuel =>
      '(message, s) ← next_message s four;
      match message with
      | None => Ok ([], s)
      | Some m => '(ms, s) ← read_all fuel s four; Ok (m :: ms, s)
      end
  end.
Definition receive (s : BgpStream) (bs : bytes) (four : bool) : res BgpError (list BgpMessage * BgpStream) :=
  s ← push s bs; read_all (S (length s)) s four.
Fixpoint receive_chunks (cs : list bytes) (s : BgpStream) (four : bool)
    : res BgpError (list BgpMessage * BgpStream) :=
  match cs with
  | [] => Ok ([], s)
  | c :: cs =>
      '(ms, s) ← receive s c four;
      '(ms', s) ← receive_chunks cs s four;
      Ok (ms ++ ms', s)
  end.

(** [es] are the encodings of [ms]. *)
Definition encodings (four : bool) (ms : list BgpMessage) (es : list bytes) : Prop :=
  Forall2 (λ m e, message_ok four m ∧ message_encode m four = Ok e) ms es.
Lemma read_all_spec four ms es s rest fuel :
  encodings four ms es → s ++ rest = concat es → (length s < fuel)%nat →
  ∃ ms1 ms2 es2 t, ms = ms1 ++ ms2 ∧ encodings four ms2 es2 ∧ t ++ rest = concat es2
    ∧ len t < BGP_MAX_MESSAGE ∧ (rest = [] → t = []) ∧ read_all fuel s four = Ok (ms1, t).
Proof.
  intros H. revert s fuel. induction H as [|m e ms es [Hm He] H IH]; intros s fuel Hs Hf.
  - cbn [concat] in Hs. apply app_nil in Hs as [-> ->]. destruct fuel; [lia|].
    exists [], [], [], []. split_and!; try done; constructor.
  - destruct fuel as [|fuel]; [lia|]. destruct (message_roundtrip_aux _ _ _ Hm He) as (_ & Hl & _).
    cbn [concat] in Hs. destruct (decide (length e ≤ length s)%nat) as [Hle|Hlt].
    + assert (Hse : s = e ++ drop (length e) s).
      { rewrite <-(take_drop (length e) s) at 1. f_equal. apply (f_equal (take (length e))) in Hs.
        rewrite take_app_length in Hs. by rewrite take_app_le in Hs. }
      set (s' := drop (length e) s) in *. clearbody s'. subst s.
      destruct (IH s' fuel) as (ms1 & ms2 & es2 & t & -> & He2 & Ht & Hlt & Hn & Hr).
      { rewrite <-app_assoc in Hs. by apply app_inv_head in Hs. } { lens. }
      exists (m :: ms1), ms2, es2, t. split_and!; try done. cbn [read_all].
      by rewrite (next_message_whole _ _ _ _ Hm He), bind_Ok, Hr, bind_Ok.
    + assert (Hse : e = s ++ drop (length s) e).
      { rewrite <-(take_drop (length s) e) at 1. f_equal. symmetry in Hs. apply (f_equal (take (length s))) in Hs.
        rewrite take_app_length in Hs. by rewrite take_app_le in Hs by lia. }
      exists [], (m :: ms), (e :: es), s. split_and!; try done; [by constructor|unfold BGP_MAX_MESSAGE in *; lens| |].
      { intros ->. rewrite app_nil_r in Hs. subst s. lens. }
      cbn [read_all]. rewrite (next_message_partial s (drop (length s) e) m); [done|done|by rewrite <-Hse|].
      intros Hnil. rewrite Hnil, app_nil_r in Hse. subst s. lia.
Qed.

(** ** Properties *)

(** A BGP message of any of the four kinds that the encoder accepts is one
    frame of at most 4096 octets that decodes to it, path attributes, prefixes and
    capabilities included, on two-octet and on four-octet sessions. *)
Theorem bgp_roundtrip m four bs :
  message_ok four m → message_encode m four = Ok bs →
  message_decode bs four = Ok m ∧ 19 ≤ len bs ≤ BGP_MAX_MESSAGE.
Proof. intros Hm H. destruct (message_roundtrip_aux m four bs Hm H) as (? & ? & _). done. Qed.

(** Decoding any octets returns, and a message it returns is well formed; an
    OPEN it returns has passed [validate]. *)
Theorem bgp_decode_total bs four :
  bytes_ok bs →
  safe (message_decode bs four)
  ∧ ∀ m, message_decode bs four = Ok m →
      message_ok four m ∧ match m with Open o => open_validate o = Ok () | _ => True end.
Proof.
  intros Hb. unfold message_decode. pose proof (message_length_safe bs) as Hs.
  destruct (message_length bs) as [n| |] eqn:Hn; [|done|done]. rewrite bind_Ok.
  assert (Hl : 19 ≤ len bs) by (unfold message_length in Hn; destruct (len bs <? 19) eqn:?; [done|lia]).
  destruct (negb _); [done|]. rewrite slice_from_ok, bind_Ok by lens.
  assert (Hd : bytes_ok (drop 19 bs)) by auto with bytes_ok. set (b := drop 19 bs) in *.
  destruct (lookup_lt_is_Some_2 bs 18) as [k Hk]; [lens|].
  assert (@idx BgpError Z bs 18 = Ok k) as -> by by rewrite idx_Ok.
  rewrite bind_Ok. destruct (k =? 1).
  { destruct (decode_open_ok b four Hd) as [H1 H2]. split; [done|]. intros m Hm.
    by destruct (H2 m Hm) as (? & o & -> & ?). }
  destruct (k =? 2).
  { destruct (decode_update_ok b four Hd) as [H1 H2]. split; [done|]. intros m Hm.
    by destruct (H2 m Hm) as (? & u & ->). }
  destruct (k =? 3); [|by destruct (_ && _); [split; [done|by intros m <-%Ok_inj]|]].
  destruct (len b <? 2) eqn:E; [done|]. split; [solve_safe|].
  intros m Hm. inv_ok. cbn [message_ok]. split; [|done]. split_wf; ranges.
Qed.

(** C25: however TCP cuts the stream, pushing the chunks (of at most 4096 octets) as
    they arrive and reading every complete frame yields exactly the messages that
    were sent, in order, and leaves an empty buffer; the buffer never overflows. *)
Theorem stream_reassembles four ms es cs :
  encodings four ms es → concat cs = concat es → Forall (λ c, len c ≤ BGP_MAX_MESSAGE) cs →
  receive_chunks cs [] four = Ok (ms, []).
Proof.
  intros He Hc Hl.
  assert (H : ∀ s, len s < BGP_MAX_MESSAGE → s ++ concat cs = concat es →
    (cs = [] → s = []) → receive_chunks cs s four = Ok (ms, [])); [|by apply H].
  clear Hc. revert ms es He. induction Hl as [|c cs Hc _ IH]; intros ms es He s Hs Hse Hnil.
  { rewrite (Hnil eq_refl) in *. cbn in Hse. inversion He as [|m e ms' es' [Hm Hme] He']; subst; [done|].
    destruct (message_roundtrip_aux _ _ _ Hm Hme) as (_ & Hl & _). cbn [concat] in Hse.
    destruct e; [cbn in Hl; lens|done]. }
  cbn [receive_chunks concat] in *. unfold receive, push, BGP_MAX_MESSAGE, U64_MAX in *.
  assert (0 ≤ len s) by lens. rewrite arith_Ok, bind_Ok by lia. decide_ifs. rewrite bind_Ok.
  rewrite app_assoc in Hse.
  destruct (read_all_spec four ms es (s ++ c) (concat cs) (S (length (s ++ c))) He Hse ltac:(lia))
    as (ms1 & ms2 & es2 & t & -> & He2 & Ht & Hlt & Hn & ->). rewrite bind_Ok.
  rewrite (IH ms2 es2); [done|done|done|done|]. intros ->. by apply Hn.
Qed.

(** ** Witnesses *)

Definition sample_open : BgpMessage :=
  Open {| autonomous_system := 23456; hold_time := 180; router_id := 16843009;
          capabilities := [FourOctetAs 70000; Multiprotocol 1 1; Unknown 70 [1]] |}.
Definition sample_update : BgpMessage :=
  Update {| withdrawn := [{| network := 167772160; network_len := 8 |}]; attributes := Some sample_attributes;
            announced := [{| network := 3232235776; network_len := 24 |}] |}.
Definition octets_of (m : BgpMessage) : bytes :=
  match message_encode m true with Ok bs => bs | _ => [] end.
Lemma sample_open_ok : message_ok true sample_open.
Proof. unfold message_ok, open_ok; cbn. split_wf; try lia. repeat constructor; cbn; lia. Qed.
Lemma sample_update_ok : message_ok true sample_update.
Proof.
  unfold message_ok, attributes_ok, network_ok, unicast, segment_ok; cbn.
  split_wf; repeat constructor; cbn; try lia; try done; by right.
Qed.
Lemma bgp_roundtrip_witness :
  len (octets_of sample_update) = 81 ∧ message_decode (octets_of sample_update) true = Ok sample_update.
Proof.
  split; [vm_compute; reflexivity|].
  apply bgp_roundtrip; [apply sample_update_ok | vm_compute; reflexivity].
Defined.
Lemma bgp_decode_total_witness :
  message_decode (octets_of sample_open) true = Ok sample_open ∧ safe (message_decode (octets_of sample_open) true).
Proof.
  split; [vm_compute; reflexivity|]. apply bgp_decode_total.
  unfold bytes_ok. apply (bool_decide_unpack _). vm_compute. exact I.
Defined.
Lemma stream_reassembles_witness :
  receive_chunks [take 30 (octets_of sample_open ++ octets_of sample_update);
                  drop 30 (octets_of sample_open ++ octets_of sample_update)] [] true
  = Ok ([sample_open; sample_update], []).
Proof.
  apply (stream_reassembles true _ [octets_of sample_open; octets_of sample_update]).
  - apply List.Forall2_cons; [split; [apply sample_open_ok | vm_compute; reflexivity]|].
    apply List.Forall2_cons; [split; [apply sample_update_ok | vm_compute; reflexivity]|]. apply List.Forall2_nil.
  - vm_compute. reflexivity.
  - repeat constructor; vm_compute; congruence.
Defined.
