(* ===== verification/BgpSession.v ===== *)
(** rios-routing: the BGP session state machine
    (src/crates/rios-routing/src/bgp/session.rs).  A [SimTime] is its 64-bit
    count of microseconds; an operation returns the new session and the actions
    for the owner of the transport. *)
From S2P Require Import Prelude Wire Ipv4 BgpAttributes BgpMessages.

Abbreviation SimTime := Z.
Definition RETRY_US : Z := 30000000.
Definition OPEN_WAIT_US : Z := 240000000.

Inductive BgpState := Idle | Connect | Active | OpenSent | OpenConfirm | Established.
#[export] Instance BgpState_eq_dec : EqDecision BgpState.
Proof. solve_decision. Defined.

Record BgpSessionActions := {
  messages : list BgpMessage;
  update : option BgpUpdate;
  connect_transport : bool;
  close_transport : bool
}.
Definition actions_default : BgpSessionActions :=
  {| messages := []; update := None; connect_transport := false; close_transport := false |}.

Record BgpSession := {
  state : BgpState;
  peer_router_id : option Ipv4Addr;
  session_four_octet_as : bool;
  negotiated_hold_time : Z;
  established_since : option SimTime;
  last_error : option BgpError;
  local_as : Z;
  remote_as : Z;
  session_router_id : Ipv4Addr;
  configured_hold_time : Z;
  retry_at : SimTime;
  hold_at : option SimTime;
  keepalive_at : option SimTime
}.
#[export] Instance BgpSession_eq_dec : EqDecision BgpSession.
Proof. solve_decision. Defined.

(** Assignments to one or more fields of [self]. *)
Definition set_state (s : BgpSession) (x : BgpState) (since : option SimTime) : BgpSession :=
  {| state := x; peer_router_id := peer_router_id s; session_four_octet_as := session_four_octet_as s;
     negotiated_hold_time := negotiated_hold_time s; established_since := since;
     last_error := last_error s; local_as := local_as s; remote_as := remote_as s;
     session_router_id := session_router_id s; configured_hold_time := configured_hold_time s;
     retry_at := retry_at s; hold_at := hold_at s; keepalive_at := keepalive_at s |}.
Definition set_peer (s : BgpSession) (id : option Ipv4Addr) (four : bool) (hold : Z) : BgpSession :=
  {| state := state s; peer_router_id := id; session_four_octet_as := four;
     negotiated_hold_time := hold; established_since := established_since s;
     last_error := last_error s; local_as := local_as s; remote_as := remote_as s;
     session_router_id := session_router_id s; configured_hold_time := configured_hold_time s;
     retry_at := retry_at s; hold_at := hold_at s; keepalive_at := keepalive_at s |}.
Definition set_error (s : BgpSession) (e : option BgpError) : BgpSession :=
  {| state := state s; peer_router_id := peer_router_id s; session_four_octet_as := session_four_octet_as s;
     negotiated_hold_time := negotiated_hold_time s; established_since := established_since s;
     last_error := e; local_as := local_as s; remote_as := remote_as s;
     session_router_id := session_router_id s; configured_hold_time := configured_hold_time s;
     retry_at := retry_at s; hold_at := hold_at s; keepalive_at := keepalive_at s |}.
Definition set_timers (s : BgpSession) (retry : SimTime) (hold keepalive : option SimTime) : BgpSession :=
  {| state := state s; peer_router_id := peer_router_id s; session_four_octet_as := session_four_octet_as s;
     negotiated_hold_time := negotiated_hold_time s; established_since := established_since s;
     last_error := last_error s; local_as := local_as s; remote_as := remote_as s;
     session_router_id := session_router_id s; configured_hold_time := configured_hold_time s;
     retry_at := retry; hold_at := hold; keepalive_at := keepalive |}.

Definition session_open (s : BgpSession) : BgpOpen :=
  {| autonomous_system := default 23456 (try_from U16_MAX (local_as s));
     hold_time := configured_hold_time s;
     router_id := session_router_id s;
     capabilities := [FourOctetAs (local_as s)] |}.

Definition session_new (local_as remote_as : Z) (router_id : Ipv4Addr) (hold_time : Z) (now : SimTime)
    : res BgpError BgpSession :=
  if (local_as =? 0) || (remote_as =? 0) then Err (mk_error 2 2)
  else
    let session := {| state := Idle; peer_router_id := None; session_four_octet_as := false;
                      negotiated_hold_time := 0; established_since := None; last_error := None;
                      local_as := local_as; remote_as := remote_as; session_router_id := router_id;
                      configured_hold_time := hold_time; retry_at := now; hold_at := None;
                      keepalive_at := None |} in
    _ ← open_validate (session_open session);
    Ok session.

Definition transport_connected (s : BgpSession) (now : SimTime) : BgpSession * BgpSessionActions :=
  let s := set_state s OpenSent None in
  let s := set_peer s None false 0 in
  let s := set_timers s (retry_at s) (Some (sat_add U64_MAX now OPEN_WAIT_US)) None in
  (s, {| messages := [Open (session_open s)]; update := None; connect_transport := false;
         close_transport := false |}).

Definition reset (s : BgpSession) (now : SimTime) : BgpSession :=
  set_timers (set_state s Idle None) (sat_add U64_MAX now RETRY_US) None None.
Definition transport_failed (s : BgpSession) (now : SimTime) : BgpSession * BgpSessionActions :=
  (set_state (reset s now) Active (established_since (reset s now)),
   {| messages := []; update := None; connect_transport := false; close_transport := true |}).
Definition protocol_error (s : BgpSession) (error : BgpError) (now : SimTime) : BgpSession * BgpSessionActions :=
  (reset (set_error s (Some error)) now,
   {| messages := [Notification (code error) (subcode error) []]; update := None;
      connect_transport := false; close_transport := true |}).

Definition reset_hold (s : BgpSession) (now : SimTime) : BgpSession :=
  set_timers s (retry_at s)
    (if negb (negotiated_hold_time s =? 0)
     then Some (sat_add U64_MAX now (negotiated_hold_time s * 1000000)) else None)
    (keepalive_at s).
Definition next_keepalive (s : BgpSession) (now : SimTime) : BgpSession :=
  set_timers s (retry_at s) (hold_at s)
    (if negb (negotiated_hold_time s =? 0)
     then Some (sat_add U64_MAX now (negotiated_hold_time s `div` 3 * 1000000)) else None).

(** The [(OpenSent, Open)] arm of [receive]. *)
Definition receive_open (s : BgpSession) (open : BgpOpen) (now : SimTime) : BgpSession * BgpSessionActions :=
  match open_validate open with
  | Err error => protocol_error s error now
  | _ =>
      if negb (effective_asn open =? remote_as s) then protocol_error s (mk_error 2 2) now
      else if (local_as s =? remote_as s) && (router_id open =? session_router_id s)
      then protocol_error s (mk_error 2 3) now
      else if negb (four_octet_as open) && (U16_MAX <? local_as s)
      then protocol_error s (mk_error 2 2) now
      else
        let s := set_peer s (Some (router_id open)) (four_octet_as open)
                   (Z.min (configured_hold_time s) (hold_time open)) in
        let s := reset_hold s now in
        let s := next_keepalive s now in
        let s := set_state s OpenConfirm (established_since s) in
        (s, {| messages := [Keepalive]; update := None; connect_transport := false;
               close_transport := false |})
  end.
Definition receive (s : BgpSession) (message : BgpMessage) (now : SimTime) : BgpSession * BgpSessionActions :=
  match message with
  | Notification code subcode _ =>
      (reset (set_error s (Some (mk_error code subcode))) now,
       {| messages := []; update := None; connect_transport := false; close_transport := true |})
  | _ =>
      match state s, message with
      | OpenSent, Open open => receive_open s open now
      | OpenConfirm, Keepalive | Established, Keepalive =>
          let since := if bool_decide (state s = Established) then established_since s else Some now in
          (reset_hold (set_state s Established since) now, actions_default)
      | Established, Update update =>
          (reset_hold s now, {| messages := []; update := Some update; connect_transport := false;
                                close_transport := false |})
      | _, _ => protocol_error s (mk_error 5 0) now
      end
  end.

Definition is_waiting (s : BgpSession) : bool :=
  match state s with Idle | Active | Connect => true | _ => false end.
(** [retry.into_iter().chain(hold_at).chain(keepalive_at).min()]. *)
Definition option_min (a b : option SimTime) : option SimTime :=
  match a, b with Some x, Some y => Some (Z.min x y) | Some x, None => Some x | None, b => b end.
Definition next_deadline (s : BgpSession) : option SimTime :=
  option_min (option_min (if is_waiting s then Some (retry_at s) else None) (hold_at s)) (keepalive_at s).
Definition due (deadline : option SimTime) (now : SimTime) : bool :=
  match deadline with Some d => d <=? now | None => false end.
Definition tick (s : BgpSession) (now : SimTime) : BgpSession * BgpSessionActions :=
  if is_waiting s && (retry_at s <=? now) then
    (set_timers (set_state s Connect (established_since s)) (sat_add U64_MAX now RETRY_US)
       (hold_at s) (keepalive_at s),
     {| messages := []; update := None; connect_transport := true; close_transport := false |})
  else if due (hold_at s) now then protocol_error s (mk_error 4 0) now
  else if due (keepalive_at s) now then
    (next_keepalive s now,
     {| messages := [Keepalive]; update := None; connect_transport := false; close_transport := false |})
  else (s, actions_default).

(** ** The session as a step function *)

(** What the owner of the transport can do to a session, in any order. *)
Inductive Event :=
| Connected (now : SimTime)
| Failed (now : SimTime)
| Errored (error : BgpError) (now : SimTime)
| Received (message : BgpMessage) (now : SimTime)
| Ticked (now : SimTime).
Definition step (s : BgpSession) (e : Event) : BgpSession * BgpSessionActions :=
  match e with
  | Connected now => transport_connected s now
  | Failed now => transport_failed s now
  | Errored error now => protocol_error s error now
  | Received message now => receive s message now
  | Ticked now => tick s now
  end.
Definition run (s : BgpSession) (es : list Event) : BgpSession := foldl (λ s e, (step s e).1) s es.

(** ** Well-formed sessions *)

(** A negotiated hold time is absent or at least the smallest legal one. *)
Definition hold_ok (hold configured : Z) : Prop := hold = 0 ∨ 3 ≤ hold ≤ configured.
Definition timed (hold : Z) (t : option SimTime) : Prop := is_Some t ↔ hold ≠ 0.
Definition phase_ok (s : BgpSession) : Prop :=
  match state s with
  | Idle | Connect | Active => hold_at s = None ∧ keepalive_at s = None ∧ established_since s = None
  | OpenSent => is_Some (hold_at s) ∧ keepalive_at s = None ∧ established_since s = None
      ∧ peer_router_id s = None ∧ negotiated_hold_time s = 0
  | OpenConfirm | Established =>
      is_Some (peer_router_id s) ∧ hold_ok (negotiated_hold_time s) (configured_hold_time s)
      ∧ timed (negotiated_hold_time s) (hold_at s) ∧ timed (negotiated_hold_time s) (keepalive_at s)
      ∧ (is_Some (established_since s) ↔ state s = Established)
  end.
Definition session_ok (s : BgpSession) : Prop :=
  0 < local_as s ≤ U32_MAX ∧ remote_as s ≠ 0 ∧ u16 (configured_hold_time s)
  ∧ open_validate (session_open s) = Ok () ∧ phase_ok s.
(** What the configuration fixes. *)
Definition config (s : BgpSession) : Z * Z * Ipv4Addr * Z :=
  (local_as s, remote_as s, session_router_id s, configured_hold_time s).
(** The hold time of a received OPEN is a 16-bit field. *)
Definition event_ok (e : Event) : Prop :=
  match e with Received (Open o) _ => u16 (hold_time o) | _ => True end.

(** ** Helper lemmas *)

Lemma open_validate_hold o : open_validate o = Ok () → hold_time o = 0 ∨ 3 ≤ hold_time o.
Proof. unfold open_validate. destruct (_ && _) eqn:E; [done|]. lia. Qed.
Lemma reset_phase s now : phase_ok (reset s now) ∧ config (reset s now) = config s.
Proof. by split. Qed.
Lemma timed_some hold x : timed hold (if negb (hold =? 0) then Some x else None).
Proof. unfold timed. destruct (hold =? 0) eqn:E; cbn; [split; [by intros []|lia]|split; [lia|eauto]]. Qed.

Ltac phases := unfold phase_ok, hold_ok; cbn; eauto using timed_some.

Lemma receive_open_phase s o now :
  u16 (hold_time o) → u16 (configured_hold_time s) →
  hold_time (session_open s) = 0 ∨ 3 ≤ hold_time (session_open s) → established_since s = None →
  phase_ok (receive_open s o now).1 ∧ config (receive_open s o now).1 = config s.
Proof.
  intros Ho Hc Hs He. unfold receive_open. destruct (open_validate o) as [[]|e|] eqn:Hv; [|by split|by apply open_validate_safe in Hv].
  apply open_validate_hold in Hv. cbn in Hs.
  destruct (negb (effective_asn o =? remote_as s)); [by split|].
  destruct (_ && (router_id o =? _)); [by split|]. destruct (_ && (U16_MAX <? _)); [by split|].
  split; [|done]. unfold phase_ok, hold_ok. cbn. rewrite He.
  split_and!; [eauto | lia | apply timed_some | apply timed_some | split; [by intros []|done]].
Qed.
Lemma receive_phase s m now :
  session_ok s → event_ok (Received m now) →
  phase_ok (receive s m now).1 ∧ config (receive s m now).1 = config s.
Proof.
  intros (_ & _ & Hc & Hv & Hp) Ho. apply open_validate_hold in Hv. unfold receive.
  unfold phase_ok in Hp. destruct m as [o|u|c sc d|], (state s) eqn:Hst; try by split.
  - destruct Hp as (_ & _ & He & _ & _). by apply receive_open_phase.
  - split; [|done]. destruct Hp as (H1 & H2 & H3 & H4 & H5). unfold phase_ok. cbn. rewrite Hst.
    split_and!; try done; apply timed_some.
  - split; [|done]. destruct Hp as (H1 & H2 & H3 & H4 & H5). unfold phase_ok. cbn.
    split_and!; try done; apply timed_some.
  - split; [|done]. destruct Hp as (H1 & H2 & H3 & H4 & H5). unfold phase_ok. cbn.
    split_and!; try done; apply timed_some.
Qed.
Lemma tick_phase s now :
  session_ok s → phase_ok (tick s now).1 ∧ config (tick s now).1 = config s.
Proof.
  intros (_ & _ & _ & _ & Hp). unfold tick. destruct (is_waiting s && _) eqn:E1.
  - split; [|done]. unfold is_waiting, phase_ok in *. by destruct (state s).
  - destruct (due (hold_at s) now); [by split|]. destruct (due (keepalive_at s) now) eqn:E3; [|by split].
    split; [|done]. unfold phase_ok in *. cbn. destruct (state s);
      destruct_and? Hp; try by match goal with H : keepalive_at s = None |- _ => rewrite H in E3 end.
    all: split_and!; try done; apply timed_some.
Qed.
Lemma step_ok s e : session_ok s → event_ok e → session_ok (step s e).1 ∧ config (step s e).1 = config s.
Proof.
  intros Hs He.
  assert (H : phase_ok (step s e).1 ∧ config (step s e).1 = config s).
  { destruct e as [now|now|er now|m now|now]; cbn [step]; [|by split..|by apply receive_phase|by apply tick_phase].
    split; [|done]. unfold phase_ok. cbn. split_and!; eauto. }
  destruct H as [Hp Hc]. split; [|done]. destruct Hs as (H1 & H2 & H3 & H4 & _). unfold config in Hc.
  injection Hc as C1 C2 C3 C4. unfold session_ok, session_open. by rewrite C1, C2, C3, C4.
Qed.

(** ** Properties *)

(** C21: every session the code can reach, whatever messages, ticks, errors and
    transport events it meets and in whatever order, is well formed: the timers
    run exactly in the states that need them, the hold time in force is absent or
    at least three seconds and at most the configured one, the session is dated
    exactly while it is Established, and its configuration never changes. *)
Theorem session_invariant local_as_ remote_as_ id hold now s es :
  0 ≤ local_as_ ≤ U32_MAX → u16 hold → session_new local_as_ remote_as_ id hold now = Ok s →
  Forall event_ok es →
  session_ok (run s es) ∧ config (run s es) = (local_as_, remote_as_, id, hold).
Proof.
  intros Hl Hh Hs He.
  assert (H : session_ok s ∧ config s = (local_as_, remote_as_, id, hold)).
  { unfold session_new in Hs. destruct (_ || _) eqn:E; [done|].
    destruct (open_validate _) as [[]| |] eqn:Hv; [|done|done]. apply Ok_inj in Hs as <-.
    split; [|done]. unfold session_ok. cbn. split_wf; try (done || lia). }
  destruct H as [Hok <-]. clear Hs. revert s Hok. induction He as [|e es He _ IH]; intros s Hok; [done|].
  destruct (step_ok s e Hok He) as [Hok' Hc]. cbn [run foldl]. fold (run (step s e).1 es).
  rewrite <-Hc. by apply IH.
Qed.

(** C22: routes reach the speaker only from an Established session; a session is
    Established only by a KEEPALIVE in OpenConfirm, and OpenConfirm only by an OPEN,
    received in OpenSent, that is valid and carries the configured peer AS and, from
    an internal peer, another router id; whatever closes the transport also
    stops the timers. *)
Theorem session_transitions s e s' a :
  step s e = (s', a) →
  (∀ u, update a = Some u → state s = Established ∧ state s' = Established
     ∧ ∃ now, e = Received (Update u) now)
  ∧ (state s' = Established → state s ≠ Established →
       state s = OpenConfirm ∧ ∃ now, e = Received Keepalive now ∧ established_since s' = Some now)
  ∧ (state s' = OpenConfirm → state s ≠ OpenConfirm →
       state s = OpenSent ∧ ∃ o now, e = Received (Open o) now ∧ open_validate o = Ok ()
         ∧ effective_asn o = remote_as s ∧ peer_router_id s' = Some (router_id o)
         ∧ (local_as s = remote_as s → router_id o ≠ session_router_id s)
         ∧ (four_octet_as o = true ∨ local_as s ≤ U16_MAX))
  ∧ (close_transport a = true →
       (state s' = Idle ∨ state s' = Active) ∧ hold_at s' = None ∧ keepalive_at s' = None).
Proof.
  intros H.
  assert (Hro : ∀ o now, (receive_open s o now) = (s', a) →
    (update a = None) ∧ state s' ≠ Established
    ∧ (state s' = OpenConfirm → open_validate o = Ok () ∧ effective_asn o = remote_as s
         ∧ peer_router_id s' = Some (router_id o)
         ∧ (local_as s = remote_as s → router_id o ≠ session_router_id s)
         ∧ (four_octet_as o = true ∨ local_as s ≤ U16_MAX))
    ∧ (close_transport a = true → (state s' = Idle ∨ state s' = Active) ∧ hold_at s' = None ∧ keepalive_at s' = None)).
  { clear H. intros o now H. unfold receive_open in H.
    destruct (open_validate o) as [[]|er|] eqn:Hv;
      [|injection H as <- <-; cbn; split_and!; try done; by eauto|by apply open_validate_safe in Hv].
    do 3 (match type of H with (if ?c then _ else _) = _ => destruct c eqn:? end;
      [injection H as <- <-; cbn; split_and!; try done; by eauto|]).
    injection H as <- <-. cbn. split_and!; try done. intros _. split_and!; try done; lia. }
  destruct e as [now|now|er now|m now|now]; cbn [step] in H.
  - injection H as <- <-. cbn. split_and!; try done.
  - injection H as <- <-. cbn. split_and!; try done. by eauto.
  - injection H as <- <-. cbn. split_and!; try done. by eauto.
  - unfold receive in H. destruct m as [o|u|c sc d|], (state s) eqn:Hst;
      try (injection H as <- <-; cbn; rewrite ?Hst; split_and!; try done; eauto 10; fail).
    2: injection H as <- <-; cbn; rewrite Hst; split_and!; try done; intros u' [= <-]; eauto.
    destruct (Hro o now H) as (R1 & R2 & R3 & R4). split_and!; try done.
    + by rewrite R1.
    + intros Hs' _. split; [done|]. exists o, now. split; [done|]. by apply R3.
  - unfold tick in H. destruct (is_waiting s && _) eqn:E1; [injection H as <- <-; cbn; by split_and!|].
    destruct (due (hold_at s) now); [injection H as <- <-; cbn; split_and!; try done; by eauto|].
    destruct (due (keepalive_at s) now); injection H as <- <-; cbn; split_and!; done.
Qed.

(** ** Helper lemmas: deadlines *)

Lemma due_option_min a b now : due (option_min a b) now = due a now || due b now.
Proof. destruct a, b; cbn; rewrite ?orb_false_r; try done. lia. Qed.
Lemma next_deadline_due s now :
  due (next_deadline s) now
  = is_waiting s && (retry_at s <=? now) || due (hold_at s) now || due (keepalive_at s) now.
Proof.
  unfold next_deadline. rewrite !due_option_min. by destruct (is_waiting s).
Qed.
(** A clock that is far enough from the end of time for every timer. *)
Definition HORIZON : Z := U64_MAX - 65535 * 1000000.
Lemma waiting_timers s : session_ok s → is_waiting s = true → hold_at s = None ∧ keepalive_at s = None.
Proof.
  intros (_ & _ & _ & _ & Hp). unfold is_waiting, phase_ok in *. destruct (state s); try done; by destruct Hp as (?&?&?).
Qed.
Lemma keepalive_hold s : session_ok s → is_Some (keepalive_at s) → 3 ≤ negotiated_hold_time s ≤ 65535.
Proof.
  intros (_ & _ & Hc & _ & Hp) Hk. unfold phase_ok in Hp. destruct (state s); destruct_and? Hp;
    first
      [ match goal with H : keepalive_at s = None |- _ => rewrite H in Hk end; by destruct Hk
      | match goal with H : timed _ (keepalive_at s), H' : hold_ok _ _ |- _ =>
          apply H in Hk; destruct H'; lia end ].
Qed.

(** [next_deadline] never makes the simulation spin: a tick before it changes
    nothing, a tick at or after it acts (a connection attempt, a KEEPALIVE or a
    NOTIFICATION), and afterwards the next deadline is strictly in the future. *)
Theorem tick_progress s now :
  session_ok s → 0 ≤ now ≤ HORIZON →
  due (next_deadline (tick s now).1) now = false
  ∧ (due (next_deadline s) now = false → tick s now = (s, actions_default))
  ∧ (due (next_deadline s) now = true →
       connect_transport (tick s now).2 = true ∨ messages (tick s now).2 ≠ []).
Proof.
  unfold HORIZON, U64_MAX. intros Hs Hn. rewrite !next_deadline_due. unfold tick.
  destruct (is_waiting s && (retry_at s <=? now)) eqn:E1.
  - apply andb_prop in E1 as [Hw _]. destruct (waiting_timers s Hs Hw) as [Hh Hk]. cbn.
    rewrite Hh, Hk. cbn. unfold sat_add, U64_MAX, RETRY_US. split_and!; [lia|done|by left].
  - destruct (due (hold_at s) now) eqn:E2.
    { cbn. unfold sat_add, U64_MAX, RETRY_US. split_and!; [lia|done|by right]. }
    destruct (due (keepalive_at s) now) eqn:E3; cbn; rewrite ?E2; [|by rewrite E1, E3].
    assert (Hk : is_Some (keepalive_at s)) by (destruct (keepalive_at s); [eauto|done]).
    pose proof (keepalive_hold s Hs Hk) as Hneg.
    assert (Hd : 1 ≤ negotiated_hold_time s `div` 3 ≤ 65535).
    { pose proof (Z.div_mod (negotiated_hold_time s) 3 ltac:(lia)).
      pose proof (Z.mod_pos_bound (negotiated_hold_time s) 3 ltac:(lia)). lia. }
    change (is_waiting (next_keepalive s now)) with (is_waiting s). rewrite E1.
    replace (negotiated_hold_time s =? 0) with false by lia. cbn. unfold sat_add, U64_MAX.
    split_and!; [lia|done|by right].
Qed.

(** ** Two speakers *)

(** Two sessions and the messages in flight between them, in order. *)
Record System := { left_ : BgpSession; right_ : BgpSession; to_right : list BgpMessage; to_left : list BgpMessage }.
Inductive deliver : System → System → Prop :=
| deliver_right a b m ab ba now b' acts :
    receive b m now = (b', acts) →
    deliver {| left_ := a; right_ := b; to_right := m :: ab; to_left := ba |}
            {| left_ := a; right_ := b'; to_right := ab; to_left := ba ++ messages acts |}
| deliver_left a b m ab ba now a' acts :
    receive a m now = (a', acts) →
    deliver {| left_ := a; right_ := b; to_right := ab; to_left := m :: ba |}
            {| left_ := a'; right_ := b; to_right := ab ++ messages acts; to_left := ba |}.
(** Both ends of a TCP connection that has just been established. *)
Definition connected (a b : BgpSession) (ta tb : SimTime) : System :=
  {| left_ := (transport_connected a ta).1; right_ := (transport_connected b tb).1;
     to_right := messages (transport_connected a ta).2; to_left := messages (transport_connected b tb).2 |}.
(** Configurations that agree on the AS numbers and, inside one AS, differ in
    their router ids. *)
Definition compatible (me peer : BgpSession) : Prop :=
  session_ok me ∧ session_ok peer ∧ remote_as me = local_as peer ∧ remote_as peer = local_as me
  ∧ (local_as me = local_as peer → session_router_id me ≠ session_router_id peer).
Lemma compatible_sym a b : compatible a b → compatible b a.
Proof. intros (?&?&?&?&H). unfold compatible. split_and!; try done. intros E1 E2. by apply (H (eq_sym E1)). Qed.

(** What a speaker has negotiated after [i] messages of its peer. *)
Definition agreed (me peer s : BgpSession) : Prop :=
  peer_router_id s = Some (session_router_id peer) ∧ session_four_octet_as s = true
  ∧ negotiated_hold_time s = Z.min (configured_hold_time me) (configured_hold_time peer).
Definition progress (me peer : BgpSession) (i : nat) (s : BgpSession) : Prop :=
  config s = config me
  ∧ match i with
    | 0 => state s = OpenSent
    | 1 => state s = OpenConfirm ∧ agreed me peer s
    | _ => state s = Established ∧ agreed me peer s
    end%nat.
Definition sent (me : BgpSession) (i : nat) : list BgpMessage :=
  Open (session_open me) :: (if (1 <=? i)%nat then [Keepalive] else []).

Lemma receive_progress me peer i s m now s' acts :
  compatible me peer → progress me peer i s → [Open (session_open peer); Keepalive] !! i = Some m →
  receive s m now = (s', acts) →
  progress me peer (S i) s' ∧ messages acts = (if decide (i = 0%nat) then [Keepalive] else []).
Proof.
  intros (Hme & Hpeer & Hr1 & Hr2 & Hid) [Hc Hp] Hm H. pose proof Hpeer as (Hl & _ & _ & Hv & _).
  unfold config in Hc. injection Hc as C1 C2 C3 C4.
  destruct i as [|[|i]]; cbn in Hm; [| |done]; injection Hm as <-; unfold receive in H.
  - rewrite Hp in H. unfold receive_open in H. rewrite Hv in H.
    change (effective_asn (session_open peer)) with (local_as peer) in H.
    change (four_octet_as (session_open peer)) with true in H.
    rewrite C1, C2, C3, C4, Hr1, Z.eqb_refl in H. cbn [negb andb] in H.
    destruct (_ && _) eqn:E.
    { apply andb_prop in E as [E1 E2]. cbn in E2. exfalso. apply Hid; lia. }
    injection H as <- <-. split; [|done]. split; [unfold config; cbn; by rewrite C1, C2, C3, C4|].
    cbn. repeat split.
  - destruct Hp as [Hp (A1 & A2 & A3)]. rewrite Hp in H. injection H as <- <-. split; [|done].
    split; [unfold config; cbn; by rewrite C1, C2, C3, C4|]. cbn. repeat split; done.
Qed.

(** Where the two speakers are after [n] deliveries. *)
Definition in_flight (a b : BgpSession) (n : nat) (sys : System) : Prop :=
  ∃ i j, n = (i + j)%nat ∧ (i ≤ 2)%nat ∧ (j ≤ 2)%nat
    ∧ progress a b i (left_ sys) ∧ progress b a j (right_ sys)
    ∧ (j ≤ length (sent a i))%nat ∧ to_right sys = drop j (sent a i)
    ∧ (i ≤ length (sent b j))%nat ∧ to_left sys = drop i (sent b j).

Lemma deliver_in_flight a b n sys sys' :
  compatible a b → in_flight a b n sys → deliver sys sys' → in_flight a b (S n) sys'.
Proof.
  intros Hab (i & j & -> & Hi & Hj & Pl & Pr & Hjl & Hr & Hil & Hl) Hd.
  destruct Hd as [sa sb m ab ba now sb' acts H | sa sb m ab ba now sa' acts H];
    cbn [left_ right_ to_right to_left] in *.
  - assert (Hm : [Open (session_open a); Keepalive] !! j = Some m ∧ (j < 2)%nat).
    { destruct i as [|i]; destruct j as [|[|[|j]]]; cbn in *; simplify_eq; try lia; split; (done || lia). }
    destruct Hm as [Hm Hj2].
    destruct (receive_progress b a j sb m now sb' acts) as [Hp Hacts]; try done; [by apply compatible_sym|].
    exists i, (S j). split; [lia|]. cbn [left_ right_ to_right to_left]. rewrite Hacts.
    destruct i as [|[|[|i]]], j as [|[|j]]; cbn in *; try lia; simplify_eq; split_and!; (done || lia).
  - assert (Hm : [Open (session_open b); Keepalive] !! i = Some m ∧ (i < 2)%nat).
    { destruct j as [|j]; destruct i as [|[|[|i]]]; cbn in *; simplify_eq; try lia; split; (done || lia). }
    destruct Hm as [Hm Hi2].
    destruct (receive_progress a b i sa m now sa' acts) as [Hp Hacts]; try done.
    exists (S i), j. split; [lia|]. cbn [left_ right_ to_right to_left]. rewrite Hacts.
    destruct i as [|[|i]], j as [|[|[|j]]]; cbn in *; try lia; simplify_eq; split_and!; (done || lia).
Qed.

Lemma deliveries_in_flight a b k s0 sys n :
  compatible a b → relations.nsteps deliver n s0 sys → in_flight a b k s0 → in_flight a b (k + n) sys.
Proof.
  intros Hab Hs. revert k. induction Hs as [|n x y z Hxy _ IH]; intros k Hk; [by rewrite Nat.add_0_r|].
  replace (k + S n)%nat with (S k + n)%nat by lia. apply IH. by eapply deliver_in_flight.
Qed.

(** C23: when two speakers with compatible configurations connect, every order in
    which TCP delivers their messages ends after exactly four deliveries with both
    Established: each knows the other's router id, four-octet AS numbers are on and
    both hold times are the smaller of the two configured ones. *)
Theorem handshake_establishes a b ta tb n sys :
  compatible a b → relations.nsteps deliver n (connected a b ta tb) sys →
  (n ≤ 4)%nat
  ∧ (n = 4%nat ↔ to_right sys = [] ∧ to_left sys = [])
  ∧ (n = 4%nat → state (left_ sys) = Established ∧ agreed a b (left_ sys)
       ∧ state (right_ sys) = Established ∧ agreed b a (right_ sys)).
Proof.
  intros Hab Hn.
  assert (H : in_flight a b n sys).
  { assert (H0 : in_flight a b 0 (connected a b ta tb)).
    { exists 0%nat, 0%nat. cbn. split_and!; (done || lia). }
    exact (deliveries_in_flight a b 0 _ _ n Hab Hn H0). }
  destruct H as (i & j & -> & Hi & Hj & Pl & Pr & Hjl & Hr & Hil & Hl).
  destruct i as [|[|[|i]]], j as [|[|[|j]]]; cbn in *; try lia; rewrite Hr, Hl; split_and!; try lia; try done;
    try (split; [lia|]; intros [? ?]; done).
  intros _. destruct Pl as [_ [? ?]], Pr as [_ [? ?]]. done.
Qed.

(** ** Witnesses *)

Definition sample_session (me peer id hold : Z) : BgpSession :=
  {| state := Idle; peer_router_id := None; session_four_octet_as := false; negotiated_hold_time := 0;
     established_since := None; last_error := None; local_as := me; remote_as := peer;
     session_router_id := id; configured_hold_time := hold; retry_at := 0; hold_at := None;
     keepalive_at := None |}.
Lemma sample_session_ok me peer id hold :
  0 < me ≤ U32_MAX → peer ≠ 0 → u16 hold →
  open_validate (session_open (sample_session me peer id hold)) = Ok () →
  session_ok (sample_session me peer id hold).
Proof. intros. unfold session_ok. cbn. split_wf; (done || lia). Qed.
Definition west : BgpSession := sample_session 65001 65002 16843009 180.
Definition east : BgpSession := sample_session 65002 65001 33686018 90.
Definition meeting : System :=
  let '(a, x) := transport_connected west 0 in
  let '(b, y) := transport_connected east 0 in
  let '(a, k) := receive a (Open (session_open east)) 5 in
  let '(b, l) := receive b (Open (session_open west)) 6 in
  {| left_ := (receive a Keepalive 7).1; right_ := (receive b Keepalive 8).1; to_right := []; to_left := [] |}.

Lemma session_invariant_witness :
  state (run west [Ticked 0; Connected 3; Received (Open (session_open east)) 4; Received Keepalive 5]) = Established
  ∧ session_ok (run west [Ticked 0; Connected 3; Received (Open (session_open east)) 4; Received Keepalive 5]).
Proof.
  split; [vm_compute; reflexivity|].
  apply (session_invariant 65001 65002 16843009 180 0 west); [vm_compute; split; congruence | lia | done |].
  repeat constructor; cbn; lia.
Defined.
Lemma session_transitions_witness :
  ∃ s' a, step west (Ticked 0) = (s', a) ∧ connect_transport a = true ∧ state s' ≠ Established.
Proof.
  eexists _, _. split; [reflexivity|]. split; [reflexivity|]. intros H.
  destruct (session_transitions west (Ticked 0) _ _ eq_refl) as (_ & T & _).
  by destruct (T H ltac:(done)) as (E & _).
Defined.
Lemma tick_progress_witness : due (next_deadline (tick west 0).1) 0 = false.
Proof.
  apply tick_progress; [|vm_compute; split; congruence].
  apply sample_session_ok; first [vm_compute; split; congruence | done | lia].
Defined.
Lemma handshake_establishes_witness :
  relations.nsteps deliver 4 (connected west east 0 0) meeting ∧ state (left_ meeting) = Established.
Proof.
  assert (Hn : relations.nsteps deliver 4 (connected west east 0 0) meeting).
  { eapply relations.nsteps_l; [apply (deliver_left _ _ _ _ _ 5); reflexivity|].
    eapply relations.nsteps_l; [apply (deliver_right _ _ _ _ _ 6); reflexivity|].
    eapply relations.nsteps_l; [apply (deliver_left _ _ _ _ _ 7); reflexivity|].
    eapply relations.nsteps_l; [apply (deliver_right _ _ _ _ _ 8); reflexivity|].
    apply relations.nsteps_O. }
  split; [exact Hn|].
  destruct (handshake_establishes west east 0 0 4 meeting) as (_ & _ & H); [|exact Hn|by destruct (H eq_refl)].
  unfold compatible. split_and!; try done;
    apply sample_session_ok; first [vm_compute; split; congruence | done | lia].
Defined.
