(* ===== verification/BgpSelection.v ===== *)
(** rios-routing: BGP best-path selection
    (src/crates/rios-routing/src/bgp/selection.rs). *)
From S2P Require Import Prelude Wire Ipv4 BgpAttributes.

Record BgpPath := {
  path_prefix : Ipv4Network;
  path_attributes : BgpAttributes;
  learned_from : option Ipv4Addr;
  path_peer_router_id : Ipv4Addr;
  external : bool;
  igp_cost : Z
}.

(** The closure [rank]; [Reverse] negates the preference. *)
Definition rank (p : BgpPath) : list Z :=
  [- default 100 (local_preference (path_attributes p));
   match learned_from p with Some _ => 1 | None => 0 end;
   path_length (path_attributes p);
   origin_code (origin (path_attributes p))].
Definition med_of (p : BgpPath) : Z := default 0 (med (path_attributes p)).
Definition neighbor_as (p : BgpPath) : option Z := first_as (path_attributes p).
(** The loop that fills [med_by_as]. *)
Definition add_med (meds : gmap (option Z) Z) (p : BgpPath) : gmap (option Z) Z :=
  match meds !! neighbor_as p with
  | Some old => <[neighbor_as p := Z.min old (med_of p)]> meds
  | None => <[neighbor_as p := med_of p]> meds
  end.
Definition med_by_as (candidates : list BgpPath) : gmap (option Z) Z := foldl add_med ∅ candidates.
(** The key of the final [min_by_key]; [None] is below every address. *)
Definition final_key (p : BgpPath) : list Z :=
  [if external p then 0 else 1;
   igp_cost p;
   default (path_peer_router_id p) (originator_id (path_attributes p));
   len (cluster_list (path_attributes p));
   default (-1) (learned_from p)].
Definition bgp_best_path (paths : list BgpPath) : option BgpPath :=
  match min_by_key id (map rank paths) with
  | None => None
  | Some best =>
      let candidates := filter (λ p, rank p = best) paths in
      let meds := med_by_as candidates in
      min_by_key final_key (filter (λ p, meds !! neighbor_as p = Some (med_of p)) candidates)
  end.

(** ** The decision process, declaratively *)

(** A path of [l] that survives the ranking: none is ranked better. *)
Definition top_ranked (l : list BgpPath) (p : BgpPath) : Prop :=
  p ∈ l ∧ ∀ q, q ∈ l → lex_ltb (rank q) (rank p) = false.
(** And the comparison of MEDs, only against paths from the same neighboring AS. *)
Definition survivor (l : list BgpPath) (p : BgpPath) : Prop :=
  top_ranked l p ∧ ∀ q, top_ranked l q → neighbor_as q = neighbor_as p → med_of p ≤ med_of q.

(** ** Helper lemmas *)

Lemma med_by_as_snoc c p : med_by_as (c ++ [p]) = add_med (med_by_as c) p.
Proof. unfold med_by_as. by rewrite foldl_app. Qed.
Lemma add_med_lookup meds p k :
  add_med meds p !! k
  = if decide (k = neighbor_as p)
    then Some (match meds !! neighbor_as p with Some old => Z.min old (med_of p) | None => med_of p end)
    else meds !! k.
Proof.
  unfold add_med. case_decide as Hk.
  - subst k. destruct (meds !! neighbor_as p); by rewrite lookup_insert_eq.
  - destruct (meds !! neighbor_as p); by rewrite lookup_insert_ne.
Qed.
(** The map holds the least MED of every neighboring AS of the candidates. *)
Lemma med_by_as_spec c :
  (∀ q, q ∈ c → ∃ m, med_by_as c !! neighbor_as q = Some m ∧ m ≤ med_of q)
  ∧ (∀ k m, med_by_as c !! k = Some m → ∃ q, q ∈ c ∧ neighbor_as q = k ∧ med_of q = m).
Proof.
  induction c as [|p c [IH1 IH2]] using rev_ind.
  - split; [intros q Hq; by apply elem_of_nil in Hq|intros k m H; cbn in H; by rewrite lookup_empty in H].
  - rewrite med_by_as_snoc. split.
    + intros q Hq. rewrite add_med_lookup. case_decide as Hk.
      * apply elem_of_app in Hq as [Hq|Hq%list_elem_of_singleton].
        -- destruct (IH1 q Hq) as (m & Hm & Hle). rewrite Hk in Hm. rewrite Hm. eexists. split; [done|]. lia.
        -- subst q. eexists. split; [done|]. destruct (med_by_as c !! neighbor_as p); lia.
      * apply elem_of_app in Hq as [Hq|Hq%list_elem_of_singleton]; [by apply IH1|by subst q].
    + intros k m. rewrite add_med_lookup. case_decide as Hk.
      * intros [= <-]. destruct (med_by_as c !! neighbor_as p) as [old|] eqn:Hold.
        -- destruct (IH2 _ _ Hold) as (q & Hq & Hn & Hm).
           destruct (Z.min_spec old (med_of p)) as [[? ->]|[? ->]].
           ++ exists q. rewrite Hk. split; [set_solver|done].
           ++ exists p. split; [set_solver|done].
        -- exists p. split; [set_solver|done].
      * intros H. destruct (IH2 _ _ H) as (q & Hq & ?). exists q. split; [set_solver|done].
Qed.

Lemma top_ranked_filter l best :
  min_by_key id (map rank l) = Some best →
  ∀ p, p ∈ filter (λ p, rank p = best) l ↔ top_ranked l p.
Proof.
  intros [Hin Hmin]%min_by_key_least p. unfold id in Hmin. apply list_elem_of_fmap in Hin as (b & -> & Hb).
  rewrite list_elem_of_filter. unfold top_ranked. split.
  - intros [Hr Hp]. split; [done|]. intros q Hq. rewrite Hr. apply Hmin. by apply list_elem_of_fmap_2.
  - intros [Hp Hq]. split; [|done]. apply lex_ltb_total; [|by apply Hq]. apply Hmin. by apply list_elem_of_fmap_2.
Qed.
(** The final comparison is among exactly the survivors. *)
Lemma survivor_filter l best :
  min_by_key id (map rank l) = Some best →
  let c := filter (λ p, rank p = best) l in
  ∀ p, p ∈ filter (λ p, med_by_as c !! neighbor_as p = Some (med_of p)) c ↔ survivor l p.
Proof.
  intros Hbest c p. pose proof (top_ranked_filter l best Hbest) as Ht. fold c in Ht.
  destruct (med_by_as_spec c) as [M1 M2]. rewrite list_elem_of_filter. unfold survivor. rewrite <-Ht. split.
  - intros [Hm Hp]. split; [done|]. intros q Hq%Ht Hn. destruct (M1 q Hq) as (m & Hm' & Hle).
    rewrite Hn, Hm in Hm'. injection Hm' as <-. done.
  - intros [Hp Hmin]. split; [|done]. destruct (M1 p Hp) as (m & Hm & Hle). rewrite Hm. f_equal.
    destruct (M2 _ _ Hm) as (q & Hq & Hn & Hmq). specialize (Hmin q (proj1 (Ht q) Hq) Hn). lia.
Qed.
Lemma best_path_survivor l p :
  bgp_best_path l = Some p →
  survivor l p ∧ ∀ q, survivor l q → lex_ltb (final_key q) (final_key p) = false.
Proof.
  unfold bgp_best_path. destruct (min_by_key id (map rank l)) as [best|] eqn:Hbest; [|done].
  intros [Hin Hmin]%min_by_key_least. pose proof (survivor_filter l best Hbest) as Hs. cbn zeta in Hs.
  split; [by apply Hs|]. intros q Hq. by apply Hmin, Hs.
Qed.
(** A nonempty set of candidates has a survivor. *)
Lemma best_path_exists l : l ≠ [] → is_Some (bgp_best_path l).
Proof.
  intros Hl. unfold bgp_best_path. destruct (min_by_key id (map rank l)) as [best|] eqn:Hbest.
  2: { apply min_by_key_None in Hbest. by destruct l. }
  pose proof (top_ranked_filter l best Hbest) as Ht. set (c := filter _ l) in *.
  destruct (min_by_key _ (filter _ c)) as [p|] eqn:Hp; [eauto|]. exfalso.
  apply min_by_key_None in Hp. destruct (med_by_as_spec c) as [M1 M2].
  assert (Hc : ∃ b, b ∈ c).
  { apply min_by_key_least in Hbest as [(b & -> & Hb)%list_elem_of_fmap _]. exists b.
    apply list_elem_of_filter. done. }
  destruct Hc as [b Hb]. destruct (M1 b Hb) as (m & Hm & _). destruct (M2 _ _ Hm) as (q & Hq & Hn & Hmq).
  assert (Hqf : q ∈ filter (λ p, med_by_as c !! neighbor_as p = Some (med_of p)) c).
  { apply list_elem_of_filter. split; [|done]. by rewrite Hn, Hm, Hmq. }
  rewrite Hp in Hqf. by apply elem_of_nil in Hqf.
Qed.

(** The candidates of one prefix: every peer offers one path and a session
    address is a 32-bit value. *)
Definition distinct_sources (l : list BgpPath) : Prop :=
  (∀ p q, p ∈ l → q ∈ l → learned_from p = learned_from q → p = q)
  ∧ ∀ p a, p ∈ l → learned_from p = Some a → 0 ≤ a.
Lemma final_key_inj l p q :
  distinct_sources l → p ∈ l → q ∈ l → final_key p = final_key q → p = q.
Proof.
  intros [H1 H2] Hp Hq Hk. apply H1; [done..|]. unfold final_key in Hk. injection Hk as _ _ _ _ Hk.
  pose proof (H2 p) as Gp. pose proof (H2 q) as Gq.
  destruct (learned_from p) as [a|], (learned_from q) as [b|]; cbn in Hk; try done; [by subst|..].
  - specialize (Gp a Hp eq_refl). lia.
  - specialize (Gq b Hq eq_refl). lia.
Qed.

(** ** Properties *)

(** C24: best-path selection returns a path exactly when there is one; the path it
    returns has no better-ranked rival (local preference, local origination, AS
    path length, origin), no rival from its own neighboring AS with a lower MED,
    and the least final key among such paths; and it does not depend on the order
    in which the candidates are considered. *)
Theorem best_path_spec l :
  (l ≠ [] ↔ is_Some (bgp_best_path l))
  ∧ (∀ p, bgp_best_path l = Some p →
       survivor l p ∧ ∀ q, survivor l q → lex_ltb (final_key q) (final_key p) = false)
  ∧ (∀ l', distinct_sources l → (∀ p, p ∈ l ↔ p ∈ l') → bgp_best_path l' = bgp_best_path l).
Proof.
  split_and!; [split; [apply best_path_exists|by intros [p Hp] ->] | apply best_path_survivor |].
  intros l' Hd Hl.
  assert (Ht : ∀ p, top_ranked l p ↔ top_ranked l' p).
  { intros p. unfold top_ranked. rewrite Hl. split; intros [H1 H2]; split; try done; intros q Hq; apply H2; by apply Hl. }
  assert (Hs : ∀ p, survivor l p ↔ survivor l' p).
  { intros p. unfold survivor. rewrite Ht. split; intros [H1 H2]; split; try done; intros q Hq; apply H2; by apply Ht. }
  destruct (bgp_best_path l) as [p|] eqn:E.
  - apply best_path_survivor in E as [Hp Hmin].
    assert (Hne : l' ≠ []).
    { intros ->. destruct Hp as [[Hp _] _]. apply Hl in Hp. by apply elem_of_nil in Hp. }
    destruct (best_path_exists l' Hne) as [q Hq]. rewrite Hq. f_equal.
    apply best_path_survivor in Hq as [Hq Hqmin].
    apply (final_key_inj l); [done|apply Hl, Hq|apply Hp|].
    apply lex_ltb_total; [apply Hmin, Hs, Hq|apply Hqmin, Hs, Hp].
  - destruct l' as [|x l']; [done|]. exfalso. assert (Hx : x ∈ l) by (apply Hl; set_solver).
    destruct (best_path_exists l) as [q Hq]; [by intros ->; apply elem_of_nil in Hx|]. by rewrite E in Hq.
Qed.
