(* ===== verification/Device.v ===== *)
(** The device (src/crates/rios-device/src/lib.rs): its record, its
    construction, and the questions its components ask of it, among them
    whether an interface is up.

    The record has the fields of the components that are modelled; the
    runtimes of the routing protocols appear as the routes they install.
    Interfaces are up by a mutual recursion in the source ([protocol_up],
    [channel_members], [lacp_advertisement]): a port channel is up with its
    members, a subinterface with its parent. [protocol_up] here makes two
    rounds, and satisfies the equation of the source on a well-formed device
    ([Interfaces.protocol_up_equation]). [protocol_up_checked] is the same with
    the panics of the source, the failed lookup of a configuration and a
    recursion that is too deep; [protocol_up_checked_ok] shows that a
    well-formed device has neither.

    An index [map[&key]] that a well-formed device always answers is a lookup
    whose absent case is the neutral answer. *)
From S2P Require Import Prelude Wire Text Decimal EventQueue Ethernet Switching Ipv4 Collections AccessList RoutePolicy Config Inventory.
From S2P Require Ipv6 TcpConnection.

Abbreviation DeviceId := Z.
Inductive LinkState := LinkDown | LinkUp.
#[export] Instance LinkState_eq_dec : EqDecision LinkState.
Proof. solve_decision. Defined.

(** ** The runtimes of the components *)

(** ethernet.rs *)
Record MacEntry := {
  entry_vlan : VlanId; entry_mac : MacAddress; entry_interface : InterfaceId; entry_learned_at : SimTime
}.
#[export] Instance MacEntry_eq_dec : EqDecision MacEntry.
Proof. solve_decision. Defined.
Inductive DropReason :=
| DropQosPoliced | DropQosPriorityExceeded | DropQosBurstExceeded | DropQosPolicyChanged | DropVlanFiltered
| DropMalformedPacket | DropNeighborUnreachable | DropChannelInactive | DropNatFailed | DropQueueFull
| DropSimulatedLoss | DropLinkDown | DropStpBlocking | DropInterfaceDown | DropNoLink | DropLinkChanged
| DropMtuExceeded | DropNotForInterface | DropNotEthernet | DropInvalidEtherType | DropAccessList.
#[export] Instance DropReason_eq_dec : EqDecision DropReason.
Proof. solve_decision. Defined.
#[export] Instance DropReason_countable : Countable DropReason.
Proof.
  set (all := [DropQosPoliced; DropQosPriorityExceeded; DropQosBurstExceeded; DropQosPolicyChanged; DropVlanFiltered;
    DropMalformedPacket; DropNeighborUnreachable; DropChannelInactive; DropNatFailed; DropQueueFull;
    DropSimulatedLoss; DropLinkDown; DropStpBlocking; DropInterfaceDown; DropNoLink; DropLinkChanged;
    DropMtuExceeded; DropNotForInterface; DropNotEthernet; DropInvalidEtherType; DropAccessList]).
  refine (inj_countable (λ r, default 0%nat (fst <$> list_find (λ x, x = r) all)) (λ n, all !! n) _).
  by intros [].
Defined.

Record InterfaceCounters := {
  drop_reasons : gmap DropReason Z;
  rx_packets : Z;
  tx_packets : Z;
  rx_bytes : Z;
  tx_bytes : Z;
  drops : Z
}.
#[export] Instance InterfaceCounters_eta : Eta InterfaceCounters := λ c,
  {| drop_reasons := drop_reasons c; rx_packets := rx_packets c; tx_packets := tx_packets c;
     rx_bytes := rx_bytes c; tx_bytes := tx_bytes c; drops := drops c |}.
#[export] Instance InterfaceCounters_eq_dec : EqDecision InterfaceCounters.
Proof. solve_decision. Defined.
Definition InterfaceCounters_default : InterfaceCounters :=
  {| drop_reasons := ∅; rx_packets := 0; tx_packets := 0; rx_bytes := 0; tx_bytes := 0; drops := 0 |}.
Record Interface := {
  interface_id : InterfaceId;
  kind : InterfaceKind;
  media : InterfaceMedia;
  mac_address : MacAddress;
  link_state : LinkState;
  counters : InterfaceCounters
}.
#[export] Instance Interface_eta : Eta Interface := λ c,
  {| interface_id := interface_id c; kind := kind c; media := media c; mac_address := mac_address c;
     link_state := link_state c; counters := counters c |}.
#[export] Instance Interface_eq_dec : EqDecision Interface.
Proof. solve_decision. Defined.

(** network.rs *)
Record ArpEntry := {
  arp_address : Ipv4Addr; arp_mac : MacAddress; arp_interface : InterfaceId; arp_learned_at : SimTime
}.
#[export] Instance ArpEntry_eq_dec : EqDecision ArpEntry.
Proof. solve_decision. Defined.

(** stp.rs *)
#[export] Instance ConfigurationBpdu_eq_dec : EqDecision ConfigurationBpdu.
Proof. solve_decision. Defined.
#[export] Instance StpBpdu_eq_dec : EqDecision StpBpdu.
Proof. solve_decision. Defined.
#[export] Instance StpPortRole_eq_dec : EqDecision StpPortRole.
Proof. solve_decision. Defined.
#[export] Instance StpPortState_eq_dec : EqDecision StpPortState.
Proof. solve_decision. Defined.
#[export] Instance LacpPortInfo_eq_dec : EqDecision LacpPortInfo.
Proof. solve_decision. Defined.
#[export] Instance Lacpdu_eq_dec : EqDecision Lacpdu.
Proof. solve_decision. Defined.
Record StpReceived := {
  bpdu : StpBpdu;
  guarded : bool;
  stp_expires_at : SimTime
}.
#[export] Instance StpReceived_eta : Eta StpReceived := λ c,
  {| bpdu := bpdu c; guarded := guarded c; stp_expires_at := stp_expires_at c |}.
#[export] Instance StpReceived_eq_dec : EqDecision StpReceived.
Proof. solve_decision. Defined.
Record StpInstance := {
  agreed : gset InterfaceId;
  transitions : gmap InterfaceId SimTime;
  root_id : Z;
  root_cost : Z;
  root_port : option InterfaceId;
  stp_ports_of : gmap InterfaceId (StpPortRole * StpPortState);
  stp_received : gmap InterfaceId StpReceived
}.
#[export] Instance StpInstance_eta : Eta StpInstance := λ c,
  {| agreed := agreed c; transitions := transitions c; root_id := root_id c; root_cost := root_cost c;
     root_port := root_port c; stp_ports_of := stp_ports_of c; stp_received := stp_received c |}.
#[export] Instance StpInstance_eq_dec : EqDecision StpInstance.
Proof. solve_decision. Defined.
Definition StpInstance_default : StpInstance :=
  {| agreed := ∅; transitions := ∅; root_id := 0; root_cost := 0; root_port := None; stp_ports_of := ∅;
     stp_received := ∅ |}.

(** lacp.rs *)
Record LacpNeighbor := { pdu : Lacpdu; lacp_expires_at : SimTime }.
#[export] Instance LacpNeighbor_eq_dec : EqDecision LacpNeighbor.
Proof. solve_decision. Defined.

(** dhcp.rs *)
Record DhcpLease := {
  lease_dns_servers : list Ipv4Addr; lease_domain_name : option bytes; renew_at : SimTime; rebind_at : SimTime;
  lease_address : Ipv4Addr; lease_prefix_len : Z; lease_default_router : option Ipv4Addr;
  lease_server_id : Ipv4Addr; lease_expires_at : SimTime
}.
#[export] Instance DhcpLease_eq_dec : EqDecision DhcpLease.
Proof. solve_decision. Defined.
Record DhcpBinding := {
  binding_address : Ipv4Addr; client_mac : MacAddress; binding_pool_name : bytes; binding_expires_at : SimTime
}.
#[export] Instance DhcpBinding_eq_dec : EqDecision DhcpBinding.
Proof. solve_decision. Defined.
Record DhcpOffer := {
  offer_address : Ipv4Addr;
  offer_prefix_len : Z;
  offer_default_router : option Ipv4Addr;
  offer_server_id : Ipv4Addr;
  lease_time_seconds : Z;
  offer_pool : DhcpPoolId;
  offer_expires_at : SimTime
}.
#[export] Instance DhcpOffer_eta : Eta DhcpOffer := λ c,
  {| offer_address := offer_address c; offer_prefix_len := offer_prefix_len c;
     offer_default_router := offer_default_router c; offer_server_id := offer_server_id c;
     lease_time_seconds := lease_time_seconds c; offer_pool := offer_pool c;
     offer_expires_at := offer_expires_at c |}.
#[export] Instance DhcpOffer_eq_dec : EqDecision DhcpOffer.
Proof. solve_decision. Defined.

(** nat.rs *)
Inductive NatProtocol := NatIcmp | NatUdp | NatTcp.
#[export] Instance NatProtocol_eq_dec : EqDecision NatProtocol.
Proof. solve_decision. Defined.
Record NatStatistics := {
  hits : Z;
  misses : Z;
  allocations : Z;
  expired : Z;
  nat_drops : Z
}.
#[export] Instance NatStatistics_eta : Eta NatStatistics := λ c,
  {| hits := hits c; misses := misses c; allocations := allocations c; expired := expired c;
     nat_drops := nat_drops c |}.
#[export] Instance NatStatistics_eq_dec : EqDecision NatStatistics.
Proof. solve_decision. Defined.
Definition NatStatistics_default : NatStatistics :=
  {| hits := 0; misses := 0; allocations := 0; expired := 0; nat_drops := 0 |}.
Record NatTranslation := {
  nat_protocol : NatProtocol;
  inside_local_address : Ipv4Addr;
  inside_local_port : Z;
  inside_global_address : Ipv4Addr;
  inside_global_port : Z;
  outside_global_address : Ipv4Addr;
  outside_global_port : Z;
  nat_expires_at : SimTime
}.
#[export] Instance NatTranslation_eta : Eta NatTranslation := λ c,
  {| nat_protocol := nat_protocol c; inside_local_address := inside_local_address c;
     inside_local_port := inside_local_port c; inside_global_address := inside_global_address c;
     inside_global_port := inside_global_port c; outside_global_address := outside_global_address c;
     outside_global_port := outside_global_port c; nat_expires_at := nat_expires_at c |}.
#[export] Instance NatTranslation_eq_dec : EqDecision NatTranslation.
Proof. solve_decision. Defined.

(** tcp.rs and udp.rs *)
#[export] Existing Instance TcpConnection.TcpConnection_eq_dec.
#[export] Existing Instance TcpConnection.TcpSocket_eq_dec.
#[export] Existing Instance TcpConnection.TcpSocket_countable.
Record TcpRuntime := {
  connections : gmap TcpConnection.TcpSocket TcpConnection.TcpConnection;
  listeners : gset Z;
  next_sequence : Z
}.
#[export] Instance TcpRuntime_eta : Eta TcpRuntime := λ c,
  {| connections := connections c; listeners := listeners c; next_sequence := next_sequence c |}.
#[export] Instance TcpRuntime_eq_dec : EqDecision TcpRuntime.
Proof. solve_decision. Defined.
Definition TcpRuntime_default : TcpRuntime := {| connections := ∅; listeners := ∅; next_sequence := 0 |}.
(** A UDP socket has the fields of a TCP one. *)
Record UdpSocket := { udp_local : Ipv4Addr; udp_local_port : Z; udp_remote : Ipv4Addr; udp_remote_port : Z }.
#[export] Instance UdpSocket_eq_dec : EqDecision UdpSocket.
Proof. solve_decision. Defined.
#[export] Instance UdpSocket_countable : Countable UdpSocket.
Proof.
  refine (inj_countable' (λ s, (udp_local s, udp_local_port s, udp_remote s, udp_remote_port s))
            (λ '(a, b, c, d), {| udp_local := a; udp_local_port := b; udp_remote := c; udp_remote_port := d |}) _).
  by intros [].
Defined.

(** services/mod.rs: what an application has read and has yet to write. *)
Record Stream := { stream_input : bytes; stream_output : bytes; stream_close : bool }.
#[export] Instance Stream_eta : Eta Stream := λ c, {| stream_input := stream_input c; stream_output := stream_output c; stream_close := stream_close c |}.
#[export] Instance Stream_eq_dec : EqDecision Stream.
Proof. solve_decision. Defined.
Definition Stream_default : Stream := {| stream_input := []; stream_output := []; stream_close := false |}.

(** named_acl.rs *)
Record AclLog := {
  log_list : AclId; log_sequence : Z; log_action : AccessListAction; log_source : Ipv4Addr;
  log_destination : Ipv4Addr; log_protocol : Z
}.
#[export] Instance AclLog_eq_dec : EqDecision AclLog.
Proof. solve_decision. Defined.

(** ipv6.rs *)
Inductive Ipv6AddressState := Tentative | Preferred | Deprecated | Duplicate.
#[export] Instance Ipv6AddressState_eq_dec : EqDecision Ipv6AddressState.
Proof. solve_decision. Defined.
Inductive Ipv6AddressOrigin := LinkLocal | Manual | Slaac.
#[export] Instance Ipv6AddressOrigin_eq_dec : EqDecision Ipv6AddressOrigin.
Proof. solve_decision. Defined.
Record Ipv6AddressEntry := {
  address6 : Ipv6.Ipv6InterfaceConfig;
  address6_state : Ipv6AddressState;
  origin : Ipv6AddressOrigin;
  preferred_until : option SimTime;
  valid_until : option SimTime;
  dad_due : option SimTime;
  dad_sent : bool
}.
#[export] Instance Ipv6AddressEntry_eta : Eta Ipv6AddressEntry := λ c,
  {| address6 := address6 c; address6_state := address6_state c; origin := origin c;
     preferred_until := preferred_until c; valid_until := valid_until c; dad_due := dad_due c;
     dad_sent := dad_sent c |}.
#[export] Instance Ipv6AddressEntry_eq_dec : EqDecision Ipv6AddressEntry.
Proof. solve_decision. Defined.
Inductive Ipv6NeighborState := Incomplete | Reachable | Stale | Delay | Probe.
#[export] Instance Ipv6NeighborState_eq_dec : EqDecision Ipv6NeighborState.
Proof. solve_decision. Defined.
Record Ipv6Neighbor := {
  neighbor_interface : InterfaceId;
  neighbor_address : Ipv6.Ipv6Addr;
  neighbor_mac : option MacAddress;
  neighbor_state : Ipv6NeighborState;
  router : bool;
  neighbor_deadline : SimTime;
  probes : Z
}.
#[export] Instance Ipv6Neighbor_eta : Eta Ipv6Neighbor := λ c,
  {| neighbor_interface := neighbor_interface c; neighbor_address := neighbor_address c;
     neighbor_mac := neighbor_mac c; neighbor_state := neighbor_state c; router := router c;
     neighbor_deadline := neighbor_deadline c; probes := probes c |}.
#[export] Instance Ipv6Neighbor_eq_dec : EqDecision Ipv6Neighbor.
Proof. solve_decision. Defined.
Record InterfaceRuntime := {
  addresses6 : gmap Ipv6.Ipv6Addr Ipv6AddressEntry;
  ra_due : SimTime;
  ra_last : option SimTime;
  rs_due : option SimTime;
  rs_count : Z
}.
#[export] Instance InterfaceRuntime_eta : Eta InterfaceRuntime := λ c,
  {| addresses6 := addresses6 c; ra_due := ra_due c; ra_last := ra_last c; rs_due := rs_due c;
     rs_count := rs_count c |}.
#[export] Instance InterfaceRuntime_eq_dec : EqDecision InterfaceRuntime.
Proof. solve_decision. Defined.
Definition InterfaceRuntime_default : InterfaceRuntime :=
  {| addresses6 := ∅; ra_due := 0; ra_last := None; rs_due := Some 0; rs_count := 0 |}.
Record Ipv6Runtime := {
  interfaces6 : gmap InterfaceId InterfaceRuntime;
  neighbors6 : gmap (InterfaceId * Ipv6.Ipv6Addr) Ipv6Neighbor;
  routers : gmap (InterfaceId * Ipv6.Ipv6Addr) SimTime;
  prefixes6 : gmap (InterfaceId * Ipv6.Ipv6Network) SimTime
}.
#[export] Instance Ipv6Runtime_eta : Eta Ipv6Runtime := λ c,
  {| interfaces6 := interfaces6 c; neighbors6 := neighbors6 c; routers := routers c;
     prefixes6 := prefixes6 c |}.
#[export] Instance Ipv6Runtime_eq_dec : EqDecision Ipv6Runtime.
Proof. solve_decision. Defined.
Definition Ipv6Runtime_default : Ipv6Runtime :=
  {| interfaces6 := ∅; neighbors6 := ∅; routers := ∅; prefixes6 := ∅ |}.

(** ** The device *)

#[export] Instance RouteSource_eq_dec : EqDecision RouteSource.
Proof. solve_decision. Defined.
#[export] Instance Route_eq_dec : EqDecision Route.
Proof. solve_decision. Defined.
Record Device := {
  ipv6_runtime : Ipv6Runtime;
  bgp_routes : list Route;
  ospf_routes : list Route;
  stp_errdisabled : gset InterfaceId;
  lacp_neighbors : gmap InterfaceId LacpNeighbor;
  tcp : TcpRuntime;
  udp_sockets : gmap UdpSocket (list bytes);
  services : list ServiceConfig;
  streams : gmap TcpConnection.TcpSocket Stream;
  acl_matches : gmap (AclId * Z) Z;
  acl_logs : gmap (AclId * Z) Z;
  acl_log_records : list AclLog;
  legacy_acl_matches : gmap (AccessListId * Z) Z;
  id : DeviceId;
  device_type : DeviceType;
  interfaces : gmap InterfaceId Interface;
  running_config : RunningConfig;
  startup_config : option RunningConfig;
  arp_cache : gmap Ipv4Addr ArpEntry;
  mac_table : gmap (VlanId * MacAddress) MacEntry;
  stp_runtime : gmap VlanId StpInstance;
  dhcp_conflicts : gmap Ipv4Addr SimTime;
  dhcp_leases : gmap InterfaceId DhcpLease;
  dhcp_bindings : gmap MacAddress DhcpBinding;
  dhcp_offers : gmap MacAddress DhcpOffer;
  nat_translations : list NatTranslation;
  nat_statistics : NatStatistics;
  next_nat_port : Z
}.
#[export] Instance Device_eta : Eta Device := λ c,
  {| ipv6_runtime := ipv6_runtime c; bgp_routes := bgp_routes c; ospf_routes := ospf_routes c;
     stp_errdisabled := stp_errdisabled c; lacp_neighbors := lacp_neighbors c; tcp := tcp c;
     udp_sockets := udp_sockets c; services := services c; streams := streams c; acl_matches := acl_matches c;
     acl_logs := acl_logs c; acl_log_records := acl_log_records c;
     legacy_acl_matches := legacy_acl_matches c; id := id c; device_type := device_type c;
     interfaces := interfaces c; running_config := running_config c; startup_config := startup_config c;
     arp_cache := arp_cache c; mac_table := mac_table c; stp_runtime := stp_runtime c;
     dhcp_conflicts := dhcp_conflicts c; dhcp_leases := dhcp_leases c; dhcp_bindings := dhcp_bindings c;
     dhcp_offers := dhcp_offers c; nat_translations := nat_translations c;
     nat_statistics := nat_statistics c; next_nat_port := next_nat_port c |}.
#[export] Instance Device_eq_dec : EqDecision Device.
Proof. solve_decision. Defined.

(** ** Construction and capabilities *)

Definition configs (d : Device) : gmap InterfaceId InterfaceConfig := interface_configs (running_config d).
(** The items of a map keyed by an interface, in the order of the keys. *)
Definition items {V} (m : gmap Z V) : list (Z * V) := entries (λ k, [k]) m.
(** An assignment to a field of the running configuration. *)
Definition set_configs (f : gmap InterfaceId InterfaceConfig → gmap InterfaceId InterfaceConfig) (d : Device) : Device :=
  d <| running_config ::= λ r, r <| interface_configs ::= f |> |>.

Definition supports_switching (d : Device) : bool :=
  match device_type d with Switch | Layer3Switch => true | _ => false end.
Definition supports_routing (d : Device) : bool :=
  match device_type d with Router | Layer3Switch => true | _ => false end.
Definition ipv4_forwarding_enabled (d : Device) : bool :=
  bool_decide (device_type d = Router)
  || (bool_decide (device_type d = Layer3Switch) && ip_routing (running_config d)).
Definition ipv6_forwarding_enabled (d : Device) : bool :=
  supports_routing d && ipv6_unicast_routing (running_config d).

Definition validate_hostname (name : bytes) : res DeviceError () :=
  if bool_decide (name = []) || (63 <? len name) || negb (is_ascii_alphabetic (nth 0 name 0))
     || negb (forallb (λ b, is_ascii_alphanumeric b || (b =? 45)) name)
  then Err InvalidHostname else Ok ().

Definition RunningConfig_new (hostname : bytes) (vlans : gmap VlanId VlanConfig) : RunningConfig :=
  {| qos := QosConfig_default; routing_policy := RoutingPolicyConfig_default; bgp := None; ospfv3 := None;
     ipv6_unicast_routing := false; ipv6_static_routes := ∅; bridge_spanning_tree := StpConfig_default;
     dhcp_excluded := ∅; static_nat := ∅; nat_pools := ∅; nat_pool_rule := None; named_access_lists := ∅;
     hostname := hostname; ip_routing := false; interface_configs := ∅; static_routes := ∅; vlans := vlans;
     ospf_process := None; access_lists := ∅; dhcp_pools := ∅; nat_overload := None |}.
Definition device_new (id : DeviceId) (hostname : bytes) (device_type : DeviceType) : res DeviceError Device :=
  validate_hostname hostname;;
  if 0xffffff <? id then Err InvalidDeviceId
  else
    Ok {| ipv6_runtime := Ipv6Runtime_default; bgp_routes := []; ospf_routes := []; stp_errdisabled := ∅;
          lacp_neighbors := ∅; tcp := TcpRuntime_default; udp_sockets := ∅; services := []; streams := ∅; acl_matches := ∅;
          acl_logs := ∅; acl_log_records := []; legacy_acl_matches := ∅; id := id; device_type := device_type;
          interfaces := ∅;
          running_config := RunningConfig_new hostname
            match device_type with Switch | Layer3Switch => {[VlanId_DEFAULT := VlanConfig_default]} | _ => ∅ end;
          startup_config := None; arp_cache := ∅; mac_table := ∅; stp_runtime := ∅; dhcp_conflicts := ∅;
          dhcp_leases := ∅; dhcp_bindings := ∅; dhcp_offers := ∅; nat_translations := [];
          nat_statistics := NatStatistics_default; next_nat_port := 10000 |}.

Definition is_switchport (d : Device) (id : InterfaceId) : bool :=
  is_some_and (configs d !! id) (λ c, bool_decide (is_Some (switchport c))).
Definition is_port_channel (d : Device) (id : InterfaceId) : bool :=
  is_some_and (configs d !! id) (λ c, bool_decide (is_Some (port_channel c))).
(** [str::eq_ignore_ascii_case]. *)
Definition eq_ignore_ascii_case (a b : bytes) : bool :=
  bool_decide (to_ascii_lowercase a = to_ascii_lowercase b).
Definition find_interface (d : Device) (canonical : bytes) : option InterfaceId :=
  fst <$> find (λ e, eq_ignore_ascii_case (name e.2) canonical) (items (configs d)).

(** [str::strip_prefix]. *)
Definition strip_prefix (prefix s : bytes) : option bytes :=
  if starts_with s prefix then Some (drop (length prefix) s) else None.
Definition svi_number (name : bytes) : option VlanId :=
  number ← strip_prefix (text "Vlan") name; v ← parse U16_MAX number; ok (VlanId_new v).
Definition svi_vlan (d : Device) (id : InterfaceId) : option VlanId :=
  i ← interfaces d !! id;
  if negb (bool_decide (kind i = Vlan)) then None else c ← configs d !! id; svi_number (name c).

(** The name of a bundle (channel.rs), and the bundle of a member. *)
Definition port_channel_name (number : Z) : bytes := text "Port-channel" ++ to_string number.
Definition channel_interface (d : Device) (member : InterfaceId) : option InterfaceId :=
  c ← configs d !! member;
  g ← channel_group c;
  fst <$> find (λ e, bool_decide (port_channel e.2 = Some (group_number g))) (items (configs d)).

(** Effective address of an interface (dhcp.rs). *)
Definition interface_ipv4 (d : Device) (id : InterfaceId) : option Ipv4InterfaceConfig :=
  c ← configs d !! id;
  match ipv4 c with
  | Some ip => Some ip
  | None => lease ← dhcp_leases d !! id; ok (config_new (lease_address lease) (lease_prefix_len lease))
  end.

(** ** Which interfaces are up *)

Definition LACP_ACTIVITY : Z := 1.
Definition LACP_TIMEOUT : Z := 2.
Definition LACP_SYNC : Z := 8.
Definition LACP_COLLECTING : Z := 16.
Definition LACP_DISTRIBUTING : Z := 32.
Definition LACP_DEFAULTED : Z := 64.

(** Both sides are passive: nothing is advertised. *)
Definition stays_silent (neighbor : option LacpNeighbor) (info : LacpPortInfo) : bool :=
  (Z.land (state info) LACP_ACTIVITY =? 0)
  && is_none_or neighbor (λ peer, Z.land (state (actor (pdu peer))) LACP_ACTIVITY =? 0).
(** The advertisement of the port [info] to [neighbor], given the partner the
    group selected. *)
Definition advertise (neighbor : option LacpNeighbor) (info : LacpPortInfo) (selected : option (Z * bytes * Z)) : Lacpdu :=
  let peer := match neighbor with Some peer => actor (pdu peer) | None => LacpPortInfo_default end in
  let selected := bool_decide (selected = Some (system_priority peer, system peer, key peer)) in
  let state' :=
    match neighbor with
    | Some n =>
        if selected && matches (partner (pdu n)) info && negb (Z.land (state peer) LACP_AGGREGATION =? 0)
        then
          let s := Z.lor (state info) LACP_SYNC in
          if negb (Z.land (state peer) LACP_SYNC =? 0)
          then
            let s := Z.lor s LACP_COLLECTING in
            if negb (Z.land (state peer) LACP_COLLECTING =? 0) then Z.lor s LACP_DISTRIBUTING else s
          else s
        else state info
    | None => Z.lor (state info) LACP_DEFAULTED
    end in
  {| actor := {| system_priority := system_priority info; system := system info; key := key info;
                 port_priority := port_priority info; port := port info; state := state' |};
     partner := peer; collector_delay := 0 |}.

(** [d] seen from an answer to [protocol_up] (lacp.rs, channel.rs, lib.rs) on a
    device whose interfaces all have a configuration; [protocol_up_checked]
    below answers with the panic the code has on other devices. *)
Section up.
Context (up : InterfaceId → bool) (d : Device).

Definition in_group (id : InterfaceId) (number : Z) : bool :=
  is_some_and (configs d !! id) (λ c, is_some_and (channel_group c) (λ g, group_number g =? number)).

Definition lacp_actor_with (id : InterfaceId) : option LacpPortInfo :=
  config ← configs d !! id;
  group ← channel_group config;
  if bool_decide (group_mode group = ModeOn) || negb (up id) then None
  else
    system ← min_by_key (λ m, m) (mac_address <$> filter (λ i, is_ethernet (kind i) = true) (values (interfaces d)));
    port ← try_from U16_MAX id;
    Some {| system_priority := 32768; system := system; key := group_number group; port_priority := 32768;
            port := port;
            state := Z.lor (Z.lor LACP_TIMEOUT LACP_AGGREGATION)
                       (if bool_decide (group_mode group = ModeActive) then LACP_ACTIVITY else 0) |}.

Definition partner_key (p : Z * bytes * Z) : list Z := p.1.1 :: p.1.2 ++ [p.2].
Definition selected_partner_with (number : Z) : option (Z * bytes * Z) :=
  min_by_key partner_key
    (map (λ e, let a := actor (pdu e.2) in (system_priority a, system a, key a))
       (filter (λ e, up e.1 && in_group e.1 number = true) (items (lacp_neighbors d)))).

Definition lacp_advertisement_with (id : InterfaceId) : option Lacpdu :=
  info ← lacp_actor_with id;
  let neighbor := lacp_neighbors d !! id in
  if stays_silent neighbor info then None
  else Some (advertise neighbor info (selected_partner_with (key info))).
Definition lacp_distributing_with (id : InterfaceId) : bool :=
  is_some_and (lacp_advertisement_with id) (λ p, negb (Z.land (state (actor p)) LACP_DISTRIBUTING =? 0)).

(** Whether [id] is an active member of the bundle [number] configured as
    [logical]. *)
Definition active_member (number : Z) (logical : InterfaceConfig) (e : InterfaceId * InterfaceConfig) : bool :=
  is_some_and (channel_group e.2)
    (λ g, (group_number g =? number) && (bool_decide (group_mode g = ModeOn) || lacp_distributing_with e.1))
  && bool_decide (switchport e.2 = switchport logical) && (mtu e.2 =? mtu logical) && up e.1.
Definition channel_members_with (logical : InterfaceId) : list InterfaceId :=
  match configs d !! logical with
  | Some c =>
      match port_channel c with
      | Some number => (filter (λ e, active_member number c e = true) (items (configs d))).*1
      | None => []
      end
  | None => []
  end.

Definition protocol_up_with (id : InterfaceId) : bool :=
  match interfaces d !! id with
  | None => false
  | Some i =>
      negb (bool_decide (id ∈ stp_errdisabled d))
      && is_some_and (configs d !! id) (λ c, bool_decide (admin_state c = AdminUp))
      && match kind i with
         | Loopback => true
         | PortChannel => negb (bool_decide (channel_members_with id = []))
         | EthernetSubinterface =>
             is_some_and (configs d !! id) (λ c,
               bool_decide (is_Some (dot1q c))
               && is_some_and (parent c) (λ parent, up parent && negb (is_switchport d parent)))
         | GigabitEthernet | TenGigabitEthernet | Vlan => bool_decide (link_state i = LinkUp)
         | Serial | Console => false
         end
  end.
End up.

Fixpoint up_rounds (n : nat) (d : Device) (id : InterfaceId) : bool :=
  match n with O => false | S n => protocol_up_with (up_rounds n d) d id end.
Definition protocol_up (d : Device) (id : InterfaceId) : bool := up_rounds 2 d id.

(** *** The answers as the code computes them

    Once an interface is found, its configuration is indexed without a check,
    and nothing bounds the mutual recursion: [Panic] stands for the failed
    lookup and, when the rounds run out, for a recursion that is too deep.
    Conditions are evaluated in the order of the code and no further than it
    does.  [protocol_up_checked_ok] shows that on a well-formed device two
    rounds answer [protocol_up]. *)
Section checked.
Context {E : Type} (up : InterfaceId → res E bool) (d : Device).

Definition lacp_actor_checked (id : InterfaceId) : res E (option LacpPortInfo) :=
  match configs d !! id ≫= channel_group with
  | None => Ok None
  | Some group =>
      if bool_decide (group_mode group = ModeOn) then Ok None
      else u ← up id; Ok (lacp_actor_with (λ _, u) d id)
  end.
Definition selected_partner_checked (number : Z) : res E (option (Z * bytes * Z)) :=
  es ← try_filter (λ e, u ← up e.1; Ok (u && in_group d e.1 number)) (items (lacp_neighbors d));
  Ok (min_by_key partner_key
        (map (λ e, let a := actor (pdu e.2) in (system_priority a, system a, key a)) es)).
Definition lacp_advertisement_checked (id : InterfaceId) : res E (option Lacpdu) :=
  o ← lacp_actor_checked id;
  match o with
  | None => Ok None
  | Some info =>
      let neighbor := lacp_neighbors d !! id in
      if stays_silent neighbor info then Ok None
      else selected ← selected_partner_checked (key info); Ok (Some (advertise neighbor info selected))
  end.
Definition lacp_distributing_checked (id : InterfaceId) : res E bool :=
  o ← lacp_advertisement_checked id;
  Ok (is_some_and o (λ p, negb (Z.land (state (actor p)) LACP_DISTRIBUTING =? 0))).
Definition active_member_checked (number : Z) (logical : InterfaceConfig) (e : InterfaceId * InterfaceConfig)
    : res E bool :=
  match channel_group e.2 with
  | None => Ok false
  | Some g =>
      if negb (group_number g =? number) then Ok false
      else
        joined ← (if bool_decide (group_mode g = ModeOn) then Ok true else lacp_distributing_checked e.1);
        if joined && bool_decide (switchport e.2 = switchport logical) && (mtu e.2 =? mtu logical) then up e.1
        else Ok false
  end.
Definition channel_members_checked (logical : InterfaceId) : res E (list InterfaceId) :=
  match configs d !! logical with
  | Some c =>
      match port_channel c with
      | Some number => es ← try_filter (active_member_checked number c) (items (configs d)); Ok es.*1
      | None => Ok []
      end
  | None => Ok []
  end.
Definition protocol_up_checked_with (id : InterfaceId) : res E bool :=
  match interfaces d !! id with
  | None => Ok false
  | Some i =>
      if bool_decide (id ∈ stp_errdisabled d) then Ok false
      else
        match configs d !! id with
        | None => Panic
        | Some c =>
            if negb (bool_decide (admin_state c = AdminUp)) then Ok false
            else
              match kind i with
              | Loopback => Ok true
              | PortChannel => members ← channel_members_checked id; Ok (negb (bool_decide (members = [])))
              | EthernetSubinterface =>
                  match dot1q c, parent c with
                  | Some _, Some parent => u ← up parent; Ok (u && negb (is_switchport d parent))
                  | _, _ => Ok false
                  end
              | GigabitEthernet | TenGigabitEthernet | Vlan => Ok (bool_decide (link_state i = LinkUp))
              | Serial | Console => Ok false
              end
        end
  end.
End checked.
Fixpoint checked_rounds {E : Type} (n : nat) (d : Device) (id : InterfaceId) : res E bool :=
  match n with O => Panic | S n => protocol_up_checked_with (checked_rounds n d) d id end.
Definition protocol_up_checked {E : Type} (d : Device) (id : InterfaceId) : res E bool := checked_rounds 2 d id.

Definition lacp_advertisement (d : Device) (id : InterfaceId) : option Lacpdu :=
  lacp_advertisement_with (protocol_up d) d id.
Definition channel_members (d : Device) (logical : InterfaceId) : list InterfaceId :=
  channel_members_with (protocol_up d) d logical.

Definition owns_ipv4 (d : Device) (id : InterfaceId) (a : Ipv4Addr) : bool :=
  protocol_up d id && is_some_and (interface_ipv4 d id) (λ ip, address ip =? a).
Definition owns_any_ipv4 (d : Device) (a : Ipv4Addr) : bool :=
  existsb (λ id, owns_ipv4 d id a) (items (configs d)).*1.
Definition active_svi (d : Device) (vlan : VlanId) : option InterfaceId :=
  find (λ id, bool_decide (svi_vlan d id = Some vlan) && protocol_up d id) (items (interfaces d)).*1.

(** ** Well-formed devices *)

(** One interface with its configuration: its name is canonical for its kind,
    members of a bundle are Ethernet ports of a bundle that exists, parents are
    Ethernet ports, and an interface that is switched or bundled has no
    address of its own. *)
Record interface_ok (d : Device) (id : InterfaceId) (i : Interface) (c : InterfaceConfig) : Prop := {
  ok_id : interface_id i = id ∧ 1 ≤ id ≤ U16_MAX;
  ok_name : canonical (name c) (kind i);
  ok_port_channel : ∀ n, port_channel c = Some n ↔ kind i = PortChannel ∧ name c = port_channel_name n ∧ u16 n;
  ok_group : ∀ g, channel_group c = Some g →
    is_ethernet (kind i) = true ∧ ∃ l lc, configs d !! l = Some lc ∧ port_channel lc = Some (group_number g);
  ok_parent : ∀ p, parent c = Some p →
    ∃ j, interfaces d !! p = Some j ∧ is_ethernet (kind j) = true;
  ok_switchport : is_Some (switchport c) →
    supports_switching d = true ∧ (is_ethernet (kind i) = true ∨ kind i = PortChannel) ∧ ipv4 c = None;
  ok_member : is_Some (channel_group c) → ipv4 c = None
}.

(** Two interfaces together: subinterfaces of one parent have different tags,
    at most one of them native, and the members of one bundle are of one kind
    and all static or all LACP. *)
Definition agree_pair (ka kb : InterfaceKind) (a b : InterfaceConfig) : Prop :=
  (∀ p ta tb, parent a = Some p → parent b = Some p → dot1q a = Some ta → dot1q b = Some tb →
     dot1q_vlan ta ≠ dot1q_vlan tb ∧ dot1q_native ta && dot1q_native tb = false)
  ∧ ∀ ga gb, channel_group a = Some ga → channel_group b = Some gb → group_number ga = group_number gb →
      ka = kb ∧ (group_mode ga = ModeOn ↔ group_mode gb = ModeOn).

(** The inventory and the configuration agree, and what the tables of the
    device mention exists. *)
Record device_ok (d : Device) : Prop := {
  ok_dom : ∀ id, is_Some (interfaces d !! id) ↔ is_Some (configs d !! id);
  ok_interface : ∀ id i c, interfaces d !! id = Some i → configs d !! id = Some c → interface_ok d id i c;
  ok_names : ∀ a b ca cb, configs d !! a = Some ca → configs d !! b = Some cb →
    eq_ignore_ascii_case (name ca) (name cb) = true → a = b;
  ok_pairs : ∀ a b ia ib ca cb, a ≠ b → interfaces d !! a = Some ia → interfaces d !! b = Some ib →
    configs d !! a = Some ca → configs d !! b = Some cb → agree_pair (kind ia) (kind ib) ca cb;
  ok_mac_table : ∀ v m e, mac_table d !! (v, m) = Some e →
    entry_vlan e = v ∧ entry_mac e = m ∧ is_Some (interfaces d !! entry_interface e);
  ok_arp : ∀ a e, arp_cache d !! a = Some e → arp_address e = a ∧ is_Some (interfaces d !! arp_interface e);
  ok_lacp : ∀ id n, lacp_neighbors d !! id = Some n → ∃ i, interfaces d !! id = Some i ∧ is_ethernet (kind i) = true
}.

(** ** Helper lemmas: the rounds of [protocol_up] *)

Definition ethernet_at (d : Device) (id : InterfaceId) : Prop :=
  ∃ i, interfaces d !! id = Some i ∧ is_ethernet (kind i) = true.

Lemma device_ok_config d id c :
  device_ok d → configs d !! id = Some c → ∃ i, interfaces d !! id = Some i ∧ interface_ok d id i c.
Proof.
  intros Hd Hc. assert (is_Some (interfaces d !! id)) as [i Hi] by (apply (ok_dom _ Hd); by eexists). exists i. split; [done|].
  by apply (ok_interface _ Hd).
Qed.
Lemma in_group_ethernet d id c g :
  device_ok d → configs d !! id = Some c → channel_group c = Some g → ethernet_at d id.
Proof.
  intros Hd Hc Hg. destruct (device_ok_config _ _ _ Hd Hc) as (i & Hi & Hok). exists i.
  split; [done|]. by destruct (ok_group _ _ _ _ Hok _ Hg).
Qed.

(** Whether an Ethernet port is up does not depend on other interfaces. *)
Lemma ethernet_up_with d id f g : ethernet_at d id → protocol_up_with f d id = protocol_up_with g d id.
Proof. intros (i & Hi & He). unfold protocol_up_with. rewrite Hi. by destruct (kind i). Qed.

Lemma filter_ext_in {A} (P Q : A → Prop) `{∀ x, Decision (P x), ∀ x, Decision (Q x)} (l : list A) :
  (∀ x, x ∈ l → P x ↔ Q x) → filter P l = filter Q l.
Proof.
  induction l as [|x l IH]; intros Hl; [done|]. rewrite !filter_cons.
  rewrite (decide_ext (P x) (Q x)) by (apply Hl; by left). rewrite IH; [done|].
  intros y Hy. apply Hl. by right.
Qed.

Section agree.
Context (d : Device) (f g : InterfaceId → bool).
Hypothesis Hd : device_ok d.
Hypothesis Hfg : ∀ id, ethernet_at d id → f id = g id.

Lemma in_group_agree id n : f id && in_group d id n = g id && in_group d id n.
Proof using All.
  unfold in_group. destruct (configs d !! id) as [c|] eqn:Hc; cbn; [|by rewrite !andb_false_r].
  destruct (channel_group c) as [gr|] eqn:Hg; cbn; [|by rewrite !andb_false_r].
  rewrite Hfg; [done|]. by eapply in_group_ethernet.
Qed.
Lemma lacp_actor_agree id : lacp_actor_with f d id = lacp_actor_with g d id.
Proof using All.
  unfold lacp_actor_with. destruct (configs d !! id) as [c|] eqn:Hc; [|done]. cbn.
  destruct (channel_group c) as [gr|] eqn:Hg; [|done]. cbn. rewrite Hfg; [done|]. by eapply in_group_ethernet.
Qed.
Lemma selected_partner_agree n : selected_partner_with f d n = selected_partner_with g d n.
Proof using All.
  unfold selected_partner_with. do 2 f_equal. apply filter_ext_in. intros x _. by rewrite in_group_agree.
Qed.
Lemma lacp_advertisement_agree id : lacp_advertisement_with f d id = lacp_advertisement_with g d id.
Proof using All.
  unfold lacp_advertisement_with. rewrite lacp_actor_agree. destruct (lacp_actor_with g d id); [|done]. cbn.
  by rewrite selected_partner_agree.
Qed.
Lemma channel_members_agree id : channel_members_with f d id = channel_members_with g d id.
Proof using All.
  unfold channel_members_with. destruct (configs d !! id) as [c|]; [|done].
  destruct (port_channel c) as [n|]; [|done]. f_equal. apply filter_ext_in. intros [m cm] Hm%elem_of_entries.
  unfold active_member, lacp_distributing_with. cbn [fst snd]. rewrite lacp_advertisement_agree.
  destruct (channel_group cm) as [gr|] eqn:Hg; [|done]. cbn. rewrite (Hfg m); [done|]. by eapply in_group_ethernet.
Qed.
Lemma protocol_up_agree id : protocol_up_with f d id = protocol_up_with g d id.
Proof using All.
  unfold protocol_up_with. destruct (interfaces d !! id) as [i|] eqn:Hi; [|done]. f_equal.
  destruct (kind i) eqn:Hk; try done; [|by rewrite channel_members_agree].
  destruct (configs d !! id) as [c|] eqn:Hc; [|done]. cbn. destruct (parent c) as [p|] eqn:Hp; [|done]. cbn.
  rewrite (Hfg p); [done|]. destruct (ok_interface _ Hd id i c Hi Hc) as []. by apply ok_parent0.
Qed.
End agree.

(** On a well-formed device two rounds reach the equation of the source. *)
Lemma protocol_up_fix d id :
  device_ok d → protocol_up d id = protocol_up_with (protocol_up d) d id.
Proof.
  intros Hd. unfold protocol_up. change (up_rounds 2 d id) with (protocol_up_with (up_rounds 1 d) d id).
  apply protocol_up_agree; [done|]. intros p Hp.
  change (up_rounds 2 d p) with (protocol_up_with (up_rounds 1 d) d p).
  change (up_rounds 1 d p) with (protocol_up_with (up_rounds 0 d) d p). by apply ethernet_up_with.
Qed.

(** ** Helper lemmas: the code's own answers *)

Section checked_agree.
Context {E : Type} (d : Device) (up : InterfaceId → res E bool) (f : InterfaceId → bool).
Hypothesis Hd : device_ok d.
Hypothesis Hup : ∀ id, ethernet_at d id → up id = Ok (f id).

Lemma lacp_actor_checked_ok id : lacp_actor_checked up d id = Ok (lacp_actor_with f d id).
Proof using All.
  unfold lacp_actor_checked, lacp_actor_with. destruct (configs d !! id) as [c|] eqn:Hc; [|done]. cbn.
  destruct (channel_group c) as [g|] eqn:Hg; [|done]. cbn. destruct (bool_decide _) eqn:Em; [done|].
  rewrite Hup by by eapply in_group_ethernet. rewrite bind_Ok. cbn. by rewrite ?Hg, ?Em.
Qed.
Lemma selected_partner_checked_ok n : selected_partner_checked up d n = Ok (selected_partner_with f d n).
Proof using All.
  unfold selected_partner_checked, selected_partner_with.
  rewrite (try_filter_pure _ (λ e, f e.1 && in_group d e.1 n)); [done|].
  intros [id nb] Hin%elem_of_entries. cbn. by rewrite Hup, bind_Ok by by eapply ok_lacp.
Qed.
Lemma lacp_distributing_checked_ok id : lacp_distributing_checked up d id = Ok (lacp_distributing_with f d id).
Proof using All.
  unfold lacp_distributing_checked, lacp_distributing_with, lacp_advertisement_checked, lacp_advertisement_with.
  rewrite lacp_actor_checked_ok, bind_Ok. destruct (lacp_actor_with f d id) as [info|]; [|done]. cbn [mbind option_bind].
  destruct (stays_silent _ _); [done|]. by rewrite selected_partner_checked_ok, !bind_Ok.
Qed.
Lemma channel_members_checked_ok id : channel_members_checked up d id = Ok (channel_members_with f d id).
Proof using All.
  unfold channel_members_checked, channel_members_with. destruct (configs d !! id) as [c|]; [|done].
  destruct (port_channel c) as [n|]; [|done]. rewrite (try_filter_pure _ (active_member f d n c)); [done|].
  intros [m cm] Hm%elem_of_entries. unfold active_member_checked, active_member. cbn [fst snd].
  destruct (channel_group cm) as [g|] eqn:Hg; [|done]. cbn [is_some_and].
  destruct (group_number g =? n); cbn [negb andb]; [|done].
  assert (H : (if bool_decide (group_mode g = ModeOn) then Ok true else lacp_distributing_checked up d m)
    = Ok (bool_decide (group_mode g = ModeOn) || lacp_distributing_with f d m)).
  { destruct (bool_decide _); [done|]. apply lacp_distributing_checked_ok. }
  rewrite H, bind_Ok. destruct (_ || _); cbn [andb]; [|done].
  destruct (bool_decide _ && _); [|done]. apply Hup. by eapply in_group_ethernet.
Qed.
Lemma protocol_up_checked_agree id : protocol_up_checked_with up d id = Ok (protocol_up_with f d id).
Proof using All.
  unfold protocol_up_checked_with, protocol_up_with. destruct (interfaces d !! id) as [i|] eqn:Hi; [|done].
  destruct (bool_decide (id ∈ _)); [done|]. assert (is_Some (configs d !! id)) as [c Hc] by (apply (ok_dom _ Hd); by eexists).
  rewrite Hc. cbn [is_some_and negb andb]. destruct (bool_decide _); cbn [negb andb]; [|done].
  destruct (kind i) eqn:Hk; try done; [|by rewrite channel_members_checked_ok].
  destruct (dot1q c); [|done]. rewrite bool_decide_true by done. cbn [andb].
  destruct (parent c) as [p|] eqn:Hp; [|done]. cbn [is_some_and]. rewrite Hup; [done|].
  destruct (ok_interface _ Hd id i c Hi Hc) as []. by apply ok_parent0.
Qed.
End checked_agree.

(** On a well-formed device the code answers [protocol_up]: no lookup fails and
    the recursion is at most two calls deep. *)
Lemma checked_rounds_ok {E : Type} n d id : device_ok d → (2 ≤ n)%nat → @checked_rounds E n d id = Ok (protocol_up d id).
Proof.
  intros Hd Hn. destruct n as [|[|n]]; [lia..|]. cbn [checked_rounds]. rewrite protocol_up_fix by done.
  apply protocol_up_checked_agree; [done|]. intros p Hp. rewrite protocol_up_fix by done.
  destruct Hp as (i & Hi & He). unfold protocol_up_checked_with, protocol_up_with. rewrite Hi.
  destruct (bool_decide (p ∈ _)); [done|]. assert (is_Some (configs d !! p)) as [c Hc] by (apply (ok_dom _ Hd); by eexists).
  rewrite Hc. cbn. destruct (bool_decide _); [|done]. by destruct (kind i).
Qed.
Lemma protocol_up_checked_ok {E : Type} d id : device_ok d → @protocol_up_checked E d id = Ok (protocol_up d id).
Proof. intros Hd. by apply checked_rounds_ok. Qed.
