(* ===== verification/Interfaces.v ===== *)
(** The operations on the inventory of a device: interfaces, their addresses,
    VLANs, switch ports, subinterfaces and port channels
    (src/crates/rios-device/src/lib.rs, subinterface.rs, channel.rs).

    [keeps_operation] says that every operation keeps a well-formed device well
    formed (the invariant over the calls of all components is in
    [DeviceCalls]), and [rejected_unchanged] that an operation never panics
    and that one that returns an error has changed nothing. *)
From S2P Require Import Prelude Wire State Text Decimal EventQueue Ethernet Switching Ipv4 Collections AccessList RoutePolicy Config Inventory Device.

Abbreviation op A := (stateful Device DeviceError A).

(** ** Shared steps *)

(** [*self.config_mut(id)? = f(...)]. *)
Definition update_config (id : InterfaceId) (f : InterfaceConfig → InterfaceConfig) : op () := λ d,
  match configs d !! id with
  | Some c => (Ok (), set_configs (insert id (f c)) d)
  | None => (Err MissingInterface, d)
  end.
Definition switchport_mut (id : InterfaceId) (f : SwitchportConfig → SwitchportConfig) : op () := λ d,
  match configs d !! id with
  | Some c =>
      match switchport c with
      | Some s => (Ok (), set_configs (insert id (c <| switchport := Some (f s) |>)) d)
      | None => (Err NotSwitchport, d)
      end
  | None => (Err MissingInterface, d)
  end.

(** [mac_table.retain(|_, entry| entry.interface != id)]. *)
Definition forget_macs (id : InterfaceId) (d : Device) : Device :=
  d <| mac_table ::= filter (λ e, entry_interface e.2 ≠ id) |>.

(** ipv6.rs: the interface and its subinterfaces. *)
Definition reset_ipv6_interface (id : InterfaceId) (d : Device) : Device :=
  let kept := λ port, negb (is_some_and (configs d !! port)
                              (λ c, bool_decide (port = id) || bool_decide (parent c = Some id))) in
  d <| ipv6_runtime ::= λ r,
    {| interfaces6 := filter (λ e, kept e.1 = true) (interfaces6 r);
       neighbors6 := filter (λ e, kept e.1.1 = true) (neighbors6 r);
       routers := filter (λ e, kept e.1.1 = true) (routers r);
       prefixes6 := filter (λ e, kept e.1.1 = true) (prefixes6 r) |} |>.

(** channel.rs: the members of a bundle take its switch port. *)
Definition sync_channel_switchports (id : InterfaceId) (d : Device) : Device :=
  match configs d !! id with
  | Some logical =>
      match port_channel logical with
      | Some number =>
          set_configs (fmap (λ c : InterfaceConfig,
            if is_some_and (channel_group c) (λ g, group_number g =? number)
            then c <| switchport := switchport logical |> else c)) d
      | None => d
      end
  | None => d
  end.

(** ** The global settings *)

Definition set_ip_routing (enabled : bool) : op () :=
  reject_if (λ d, negb (supports_routing d)) NotRoutedPort;;
  modify (λ d, d <| running_config ::= λ r, r <| ip_routing := enabled |> |>).
Definition set_hostname (hostname' : bytes) : op () :=
  lift (validate_hostname hostname');;
  modify (λ d, d <| running_config ::= λ r, r <| hostname := hostname' |> |>).
Definition save_config (d : Device) : Device := d <| startup_config := Some (running_config d) |>.

(** ** Interfaces *)

(** The address made of the numbers of the device and of the interface. *)
Definition interface_mac (device interface : Z) : MacAddress :=
  let d := be 8 device in let p := be 8 interface in
  [2; nth 5 d 0; nth 6 d 0; nth 7 d 0; nth 6 p 0; nth 7 p 0].

(** The number, the inventory entry and the configuration of a new interface. *)
Definition next_interface (d : Device) : InterfaceId :=
  match last_entry (λ k, [k]) (interfaces d) with Some (id, _) => id + 1 | None => 1 end.
Definition new_interface (d : Device) (kind : InterfaceKind) (media : InterfaceMedia) : Interface :=
  {| interface_id := next_interface d; kind := kind; media := media;
     mac_address := interface_mac (id d) (next_interface d); link_state := LinkDown;
     counters := InterfaceCounters_default |}.
Definition new_config (d : Device) (name : bytes) (kind : InterfaceKind) : InterfaceConfig :=
  let port := supports_switching d && is_ethernet kind in
  {| service_policy_output := None; ipv6 := Ipv6InterfacePolicy_default; ospf := OspfInterfaceConfig_default;
     spanning_tree := StpPortConfig_default; channel_group := None; port_channel := None;
     named_access_group_in := None; named_access_group_out := None; parent := None; dot1q := None; name := name;
     description := []; admin_state := if port then AdminUp else AdminDown; ipv4 := None; dhcp_client := false;
     helper_address := None; mtu := 1500; switchport_capable := port;
     switchport := if port then Some SwitchportConfig_default else None; access_group_in := None;
     access_group_out := None; nat_role := None |}.
Definition insert_interface (name : bytes) (kind : InterfaceKind) (media : InterfaceMedia) : op InterfaceId := λ d,
  match find_interface d name with
  | Some id => (Ok id, d)
  | None =>
      let next := next_interface d in
      if U16_MAX <? next then (Err (InvalidInterface name), d)
      else (Ok next, set_configs (insert next (new_config d name kind))
                       (d <| interfaces ::= insert next (new_interface d kind media) |>))
  end.

Definition add_physical_interface (name : bytes) : op InterfaceId :=
  '(canonical, kind) ← lift (canonical_interface name);
  reject_if (λ _, negb (is_physical kind)) (InvalidInterface name);;
  media ← lift match kind with
               | GigabitEthernet => Ok Rj45
               | TenGigabitEthernet => Ok SfpPlus
               | Serial => Ok MediaSerial
               | Console => Ok MediaConsole
               | Loopback | Vlan | EthernetSubinterface | PortChannel => Panic
               end;
  insert_interface canonical kind media.
Definition add_port (name : bytes) (media : InterfaceMedia) : op InterfaceId :=
  '(canonical, kind) ← lift (canonical_interface name);
  reject_if (λ _, negb match kind, media with
                       | GigabitEthernet, (Rj45 | Sfp) | TenGigabitEthernet, SfpPlus
                       | Serial, MediaSerial | Console, MediaConsole => true
                       | _, _ => false
                       end) (InvalidInterface name);;
  insert_interface canonical kind media.

(** subinterface.rs *)
Definition create_subinterface (canonical : bytes) : op InterfaceId :=
  reject_if (λ d, negb (supports_routing d)) NotRoutedPort;;
  '(parent_name, _) ← require (λ _, split_once 46 canonical) (InvalidInterface canonical);
  p ← require (λ d, find_interface d parent_name) (InvalidInterface parent_name);
  reject_if (λ d, is_switchport d p) NotRoutedPort;;
  mac ← try_gets (λ d, match interfaces d !! p with Some i => Ok (mac_address i) | None => Panic end);
  id ← insert_interface canonical EthernetSubinterface Virtual;
  update_config id (λ c, c <| parent := Some p |>);;
  update_config id (λ c, c <| admin_state := AdminUp |>);;
  i ← require (λ d, interfaces d !! id) MissingInterface;
  modify (λ d, d <| interfaces ::= insert id (i <| mac_address := mac |>) |>);;
  mret id.
(** channel.rs *)
Definition create_port_channel (canonical : bytes) : op InterfaceId :=
  reject_if (λ d, negb (supports_routing d) && negb (supports_switching d)) InvalidChannel;;
  number ← require (λ _, strip_prefix (text "Port-channel") canonical ≫= parse U16_MAX) InvalidChannel;
  id ← insert_interface canonical PortChannel Virtual;
  switching ← gets supports_switching;
  update_config id (λ c, c <| port_channel := Some number |> <| admin_state := AdminUp |>
                           <| switchport_capable := switching |>
                           <| switchport := if switching : bool then Some SwitchportConfig_default else None |>);;
  mret id.
Definition ensure_interface (name : bytes) : op InterfaceId :=
  '(canonical, kind) ← lift (canonical_interface name);
  existing ← gets (λ d, find_interface d canonical);
  match existing with
  | Some id => mret id
  | None =>
      reject_if (λ _, is_physical kind) (InvalidInterface name);;
      match kind with
      | EthernetSubinterface => create_subinterface canonical
      | PortChannel => create_port_channel canonical
      | _ => insert_interface canonical kind Virtual
      end
  end.

(** [char::is_control] and [str::trim], on characters. *)
Definition is_control (c : Z) : bool := ((0 <=? c) && (c <=? 31)) || ((127 <=? c) && (c <=? 159)).
Fixpoint trim_start (s : bytes) : bytes :=
  match s with [] => [] | c :: s' => if is_whitespace c then trim_start s' else s end.
Definition trim (s : bytes) : bytes := rev (trim_start (rev (trim_start s))).

Definition set_description (id : InterfaceId) (text : bytes) : op () :=
  reject_if (λ _, (240 <? len text) || existsb is_control text) InvalidDescription;;
  update_config id (λ c, c <| description := trim text |>).
Definition clear_description (id : InterfaceId) : op () := update_config id (λ c, c <| description := [] |>).

Definition set_ipv4 (id : InterfaceId) (ip : Ipv4InterfaceConfig) : op () :=
  reject_if (λ d, is_some_and (interfaces d !! id)
                    (λ i, match kind i with Serial | Console => true | _ => false end)) UnsupportedIpv4Interface;;
  reject_if (λ d, bool_decide (is_Some (channel_interface d id))) InvalidChannel;;
  reject_if (λ d, is_switchport d id) NotRoutedPort;;
  update_config id (λ c, c <| ipv4 := Some ip |> <| dhcp_client := false |>);;
  modify (λ d, d <| dhcp_leases ::= delete id |>).
Definition clear_ipv4 (id : InterfaceId) : op () :=
  update_config id (λ c, c <| ipv4 := None |> <| dhcp_client := false |>);;
  modify (λ d, d <| dhcp_leases ::= delete id |>).

Definition set_admin_state (id : InterfaceId) (state : AdminState) : op () :=
  update_config id (λ c, c <| admin_state := state |>);;
  modify (λ d,
    if bool_decide (state = AdminDown)
    then reset_ipv6_interface id d
           <| stp_errdisabled ::= λ s, s ∖ {[id]} |>
           <| lacp_neighbors ::= delete id |>
           <| stp_runtime ::= fmap (λ t : StpInstance, t <| stp_received ::= delete id |> <| stp_ports_of ::= delete id |>) |>
    else d).

(** Carrier, from the simulation. *)
Definition set_link_state (id : InterfaceId) (state : LinkState) : op () :=
  modify (λ d, if bool_decide (state = LinkDown)
                  && is_some_and (interfaces d !! id) (λ i, negb (bool_decide (link_state i = state)))
               then reset_ipv6_interface id d else d);;
  i ← require (λ d, interfaces d !! id) MissingInterface;
  modify (λ d, d <| interfaces ::= insert id (i <| link_state := state |>) |>);;
  modify (λ d,
    if bool_decide (state = LinkDown)
    then forget_macs id
           (d <| lacp_neighbors ::= delete id |>
              <| stp_runtime ::= fmap (λ t : StpInstance,
                   t <| stp_received ::= delete id |> <| agreed ::= λ s, s ∖ {[id]} |>
                     <| transitions ::= delete id |>) |>)
    else d).

(** Autostate of the SVIs from the active ports of their VLANs. *)
Definition carries_vlan (s : SwitchportConfig) (vlan : VlanId) : bool :=
  match mode s with
  | Access => access_vlan s =? vlan
  | Trunk => is_none_or (trunk_allowed_vlans s) (λ allowed, bool_decide (vlan ∈ allowed))
  end.
Definition svi_up (d : Device) (vlan : VlanId) : bool :=
  bool_decide (is_Some (vlans (running_config d) !! vlan))
  && existsb (λ e : InterfaceId * InterfaceConfig,
       is_some_and (switchport e.2) (λ s,
         bool_decide (channel_group e.2 = None) && protocol_up d e.1 && carries_vlan s vlan)) (items (configs d)).
Definition autostate (up : bool) (i : Interface) : Interface :=
  i <| link_state := if up then LinkUp else LinkDown |>.
(** The effect of [Device::refresh_svi_states] where every SVI has a valid name
    and every interface a configuration: there it is what the code computes, by
    [refresh_svi_states_ok_eq]. *)
Definition refresh_svi_states (d : Device) : Device :=
  d <| interfaces ::= map_imap (λ id i, Some
    (if bool_decide (kind i = Vlan) then autostate (is_some_and (svi_vlan d id) (svi_up d)) i else i)) |>.
(** The method itself, with the panics of [expect("validated SVI name")] and of
    [protocol_up]: the states of all SVIs are computed before any is written. *)
Definition svi_up_checked {E : Type} (d : Device) (vlan : VlanId) : res E bool :=
  if bool_decide (is_Some (vlans (running_config d) !! vlan)) then
    try_any (λ e : InterfaceId * InterfaceConfig,
      match switchport e.2 with
      | None => Ok false
      | Some s =>
          if negb (bool_decide (channel_group e.2 = None)) then Ok false
          else u ← protocol_up_checked d e.1; Ok (u && carries_vlan s vlan)
      end) (items (configs d))
  else Ok false.
Definition svi_states {E : Type} (d : Device) : res E (list (InterfaceId * bool)) :=
  try_map (λ e : InterfaceId * Interface,
      vlan ← match svi_vlan d e.1 with Some vlan => Ok vlan | None => Panic end;
      up ← svi_up_checked d vlan; Ok (e.1, up))
    (filter (λ e, kind e.2 = Vlan) (items (interfaces d))).
Definition refresh_svi_states_checked : op () :=
  states ← try_gets svi_states;
  modify (λ d, d <| interfaces ::= λ m, foldl (λ m s, alter (autostate s.2) s.1 m) m states |>).

(** ** VLANs and switch ports *)

Definition create_vlan (vlan : VlanId) : op () :=
  reject_if (λ d, negb (supports_switching d)) NotSwitchport;;
  modify (λ d, d <| running_config ::= λ r,
    r <| vlans ::= λ m, match m !! vlan with Some _ => m | None => <[vlan := VlanConfig_default]> m end |> |>).
Definition remove_vlan (vlan : VlanId) : op () :=
  reject_if (λ d, negb (supports_switching d)) NotSwitchport;;
  reject_if (λ _, vlan =? VlanId_DEFAULT) DefaultVlan;;
  modify (λ d, d <| running_config ::= λ r, r <| vlans ::= delete vlan |> |>
                 <| mac_table ::= filter (λ e, e.1.1 ≠ vlan) |>
                 <| stp_runtime ::= delete vlan |>).
(** [u8::is_ascii_graphic]. *)
Definition is_ascii_graphic (b : Z) : bool := (33 <=? b) && (b <=? 126).
Definition set_vlan_name (vlan : VlanId) (name : bytes) : op () :=
  reject_if (λ _, bool_decide (name = []) || (32 <? len name) || negb (forallb is_ascii_graphic name)) InvalidVlanName;;
  require (λ d, vlans (running_config d) !! vlan) NotSwitchport;;
  modify (λ d, d <| running_config ::= λ r, r <| vlans ::= insert vlan {| vlan_name := name |} |> |>).

(** Whether an interface may carry a switch port. *)
Definition bundle_or_port (d : Device) (id : InterfaceId) : bool :=
  is_some_and (interfaces d !! id) (λ i, is_ethernet (kind i) || bool_decide (kind i = PortChannel)).

Definition enable_switchport (id : InterfaceId) : op () :=
  reject_if (λ d, negb (supports_switching d) || negb (bundle_or_port d id)) NotSwitchport;;
  update_config id (λ c, c <| ipv4 := None |> <| ipv6 := Ipv6InterfacePolicy_default |>
                           <| dhcp_client := false |>
                           <| switchport ::= λ s, Some (default SwitchportConfig_default s) |>);;
  modify (λ d, sync_channel_switchports id (reset_ipv6_interface id d)).
Definition disable_switchport (id : InterfaceId) : op () :=
  reject_if (λ d, negb (bool_decide (device_type d = Layer3Switch)) || negb (bundle_or_port d id)) NotRoutedPort;;
  update_config id (λ c, c <| switchport := None |>);;
  modify (λ d, forget_macs id (sync_channel_switchports id d)).
(** The common ending of the changes to a switch port. *)
Definition port_changed (id : InterfaceId) (d : Device) : Device := forget_macs id (sync_channel_switchports id d).
Definition set_switchport_mode (id : InterfaceId) (new_mode : SwitchportMode) : op () :=
  enable ← gets (λ d, bool_decide (device_type d = Layer3Switch) && negb (is_switchport d id));
  (if enable : bool then enable_switchport id else mret ());;
  switchport_mut id (λ s, s <| mode := new_mode |>);;
  modify (port_changed id).
Definition set_access_vlan (id : InterfaceId) (vlan : VlanId) : op () :=
  switchport_mut id (λ s, s <| access_vlan := vlan |>);;
  modify (port_changed id).
Definition set_trunk_allowed_vlans (id : InterfaceId) (allowed : gset VlanId) : op () :=
  switchport_mut id (λ s, s <| trunk_allowed_vlans := Some allowed |>);;
  modify (port_changed id).
(** subinterface.rs *)
Definition set_native_vlan (id : InterfaceId) (vlan : VlanId) : op () :=
  switchport_mut id (λ s, s <| native_vlan := vlan |>);;
  modify (port_changed id).
(** Another subinterface of the parent has the VLAN, or is native too. *)
Definition encapsulation_taken (d : Device) (id p : InterfaceId) (vlan : VlanId) (native : bool) : bool :=
  existsb (λ e : InterfaceId * InterfaceConfig,
    negb (e.1 =? id) && bool_decide (parent e.2 = Some p)
    && is_some_and (dot1q e.2) (λ tag, (dot1q_vlan tag =? vlan) || (dot1q_native tag && native))) (items (configs d)).
Definition set_dot1q (id : InterfaceId) (vlan : VlanId) (native : bool) : op () :=
  p ← require (λ d, configs d !! id ≫= parent) NotSubinterface;
  reject_if (λ d, encapsulation_taken d id p vlan native) DuplicateEncapsulation;;
  update_config id (λ c, c <| dot1q := Some {| dot1q_vlan := vlan; dot1q_native := native |} |>);;
  modify (λ d, d <| arp_cache ::= filter (λ e, arp_interface e.2 ≠ id) |>).

(** ** Port channels (channel.rs) *)

(** The other members of a bundle. *)
Definition other_members (d : Device) (id : InterfaceId) (number : Z) : list (InterfaceId * InterfaceConfig) :=
  filter (λ e, negb (e.1 =? id) && is_some_and (channel_group e.2) (λ g, group_number g =? number) = true)
    (items (configs d)).
(** [map[&key]]: a missing key panics. *)
Definition index {A E : Type} (m : gmap InterfaceId A) (id : InterfaceId) : res E A :=
  match m !! id with Some a => Ok a | None => Panic end.
(** A member of another kind, or one that mixes static and LACP membership. *)
Definition incompatible_member {E : Type} (d : Device) (id : InterfaceId) (mode : ChannelMode)
    (e : InterfaceId * InterfaceConfig) : res E bool :=
  other ← index (interfaces d) e.1;
  port ← index (interfaces d) id;
  Ok (negb (bool_decide (kind other = kind port))
      || is_some_and (channel_group e.2)
           (λ g, negb (bool_decide (bool_decide (group_mode g = ModeOn) = bool_decide (mode = ModeOn))))).

Definition set_channel_group (id : InterfaceId) (number : Z) (mode : ChannelMode) : op () :=
  reject_if (λ d, negb ((1 <=? number) && (number <=? 4096))
                  || negb (is_some_and (interfaces d !! id) (λ i, is_ethernet (kind i)))
                  || (negb (supports_routing d) && negb (supports_switching d))) InvalidChannel;;
  config ← try_gets (λ d, index (configs d) id);
  reject_if (λ d, bool_decide (is_Some (ipv4 config)) || active (ipv6 config) || dhcp_client config
                  || is_some_and (channel_group config) (λ g, negb (group_number g =? number))
                  || existsb (λ other, bool_decide (parent other = Some id)) (values (configs d))) InvalidChannel;;
  try_reject_if (λ d, if 8 <=? len (other_members d id number) then Ok true
                      else try_any (incompatible_member d id mode) (other_members d id number)) InvalidChannel;;
  logical ← gets (λ d, find_interface d (port_channel_name number));
  try_reject_if (λ d, match logical with
                      | Some l => c ← index (configs d) l; Ok (negb (bool_decide (switchport c = switchport config)))
                      | None => Ok false
                      end) InvalidChannel;;
  logical ← match logical with
            | Some l => mret l
            | None =>
                l ← create_port_channel (port_channel_name number);
                update_config l (λ c, c <| switchport := switchport config |> <| mtu := mtu config |>);;
                mret l
            end;
  try_reject_if (λ d, c ← index (configs d) logical; Ok (negb (mtu c =? mtu config))) InvalidChannel;;
  update_config id (λ c, c <| channel_group := Some {| group_number := number; group_mode := mode |} |>);;
  modify (forget_macs id).
Definition clear_channel_group (id : InterfaceId) : op () :=
  update_config id (λ c, c <| channel_group := None |>);;
  modify (λ d, d <| lacp_neighbors ::= delete id |>).

(** ** Helper lemmas: names *)

Lemma starts_with_app p s : starts_with (p ++ s) p = true.
Proof. induction p as [|c p IH]; [by destruct s|]. cbn. by rewrite Z.eqb_refl. Qed.
Lemma strip_prefix_app p s : strip_prefix p (p ++ s) = Some s.
Proof. unfold strip_prefix. by rewrite starts_with_app, drop_app_length. Qed.

Lemma canonical_interface_ok s n k : canonical_interface s = Ok (n, k) → canonical n k.
Proof. apply rounds_canonical. Qed.

(** A plain name starts with the name of its kind. *)
Lemma canonical_single n k :
  canonical n k → k = PortChannel ∨ k = Vlan →
  ∃ name v, (name, k) ∈ candidates ∧ n = name ++ to_string v ∧ 1 ≤ v ≤ (match k with Vlan => 4094 | _ => 4096 end).
Proof.
  intros [(name & ns & Hin & -> & Hv & Hr)|(? & ? & ? & ? & ? & ? & ? & ->)]; [|by intros []].
  intros Hk. assert (∃ v, ns = [v] ∧ 1 ≤ v ≤ match k with Vlan => 4094 | _ => 4096 end) as (v & -> & Hv').
  { destruct Hk as [-> | ->]; cbn in Hv; destruct ns as [|v [|]]; unfold len in Hv; cbn in *; try lia; exists v; (split; [done|lia]). }
  by exists name, v.
Qed.
Lemma canonical_port_channel n : canonical n PortChannel → ∃ v, n = port_channel_name v ∧ 1 ≤ v ≤ 4096.
Proof.
  intros H. destruct (canonical_single _ _ H) as (name & v & Hin & -> & Hv); [by left|].
  exists v. split; [|done]. unfold candidates in Hin. rewrite !elem_of_cons, elem_of_nil in Hin.
  repeat destruct Hin as [[=]|Hin]; try done. by subst.
Qed.
Lemma canonical_svi n : canonical n Vlan → is_Some (svi_number n).
Proof.
  intros H. destruct (canonical_single _ _ H) as (name & v & Hin & -> & Hv); [by right|]. cbn in Hv.
  unfold candidates in Hin. rewrite !elem_of_cons, elem_of_nil in Hin.
  repeat destruct Hin as [[=]|Hin]; try done. subst. unfold svi_number. rewrite strip_prefix_app. cbn [mbind option_bind].
  rewrite parse_to_string by (unfold U16_MAX; lia). cbn [mbind option_bind]. unfold VlanId_new.
  assert ((1 <=? v) && (v <=? 4094) = true) as -> by lia. by eexists.
Qed.

Lemma lower_digits s : Forall digit s → to_ascii_lowercase s = s.
Proof.
  induction 1 as [|c s Hc _ IH]; [done|]. cbn. unfold to_ascii_lowercase in IH. rewrite IH. f_equal.
  unfold lower, digit in *. decide_ifs. done.
Qed.
Lemma canonical_bundle_name v : 1 ≤ v ≤ 4096 → canonical (port_channel_name v) PortChannel.
Proof.
  intros Hv. left. exists (text "Port-channel"), [v]. split; [unfold candidates; set_solver|].
  split; [done|]. split; [unfold numbers_valid, len; cbn; lia|]. constructor; [unfold U16_MAX; lia|constructor].
Qed.
(** The names of bundles are told apart without regard to case. *)
Lemma bundle_name_canonical n k v :
  canonical n k → u16 v → eq_ignore_ascii_case n (port_channel_name v) = true → k = PortChannel ∧ n = port_channel_name v.
Proof.
  intros Hn Hv He%bool_decide_eq_true. unfold port_channel_name, to_ascii_lowercase in He. rewrite map_app in He.
  change (map lower n) with (to_ascii_lowercase n) in He. unfold to_ascii_lowercase at 1 in He.
  change (map lower (to_string v)) with (to_ascii_lowercase (to_string v)) in He.
  rewrite (lower_digits (to_string v)) in He by (apply to_string_digits; lia).
  destruct Hn as [(name & ns & Hin & -> & Hns & Hr)|(p & k' & num & Hp & _ & -> & _ & ->)].
  - rewrite map_app in He. unfold candidates in Hin. rewrite !elem_of_cons, elem_of_nil in Hin.
    repeat destruct Hin as [[= -> ->]|Hin]; try done; try (cbn [text map app] in He; discriminate He).
    split; [done|]. cbn in Hns. destruct ns as [|m [|]]; try (unfold len in Hns; cbn in Hns; lia).
    apply Forall_cons in Hr as [Hm _]. cbn [map join] in He. apply app_inv_head in He.
    change (map lower (to_string m)) with (to_ascii_lowercase (to_string m)) in He.
    rewrite (lower_digits (to_string m)) in He by (apply to_string_digits; lia). cbn [map join]. unfold port_channel_name. by rewrite He.
  - exfalso. assert (Hdot : 46 ∈ map lower (text "Port-channel") ++ to_string v).
    { rewrite <-He, map_app. apply elem_of_app. right. cbn. by left. }
    apply elem_of_app in Hdot as [Hdot|Hdot]; [revert Hdot; apply (bool_decide_unpack _); by vm_compute|].
    revert Hdot. apply digits_not; [unfold digit; lia|apply to_string_digits; lia].
Qed.

(** The first letters of the families differ, so equal names are of one kind. *)
Lemma candidates_head n1 k1 n2 k2 :
  (n1, k1) ∈ candidates → (n2, k2) ∈ candidates →
  head (to_ascii_lowercase n1) = head (to_ascii_lowercase n2) → k1 = k2.
Proof.
  assert (H : forallb (λ a : bytes * InterfaceKind, forallb (λ b : bytes * InterfaceKind,
    negb (bool_decide (head (to_ascii_lowercase a.1) = head (to_ascii_lowercase b.1)))
    || bool_decide (a.2 = b.2)) candidates) candidates = true) by reflexivity.
  intros H1%list_elem_of_In H2%list_elem_of_In He. rewrite forallb_forall in H. specialize (H _ H1).
  rewrite forallb_forall in H. specialize (H _ H2). cbn [fst snd] in H.
  rewrite (bool_decide_true _ He) in H. by apply bool_decide_eq_true in H.
Qed.
Lemma lower_dot s : 46 ∈ map lower s → 46 ∈ s.
Proof.
  intros (c & Hc & Hin)%list_elem_of_In%in_map_iff. apply list_elem_of_In in Hin.
  unfold lower in Hc. destruct (_ && _) eqn:E; [lia|by subst].
Qed.
Lemma plain_no_dot n k : plain n k → 46 ∉ n.
Proof.
  intros H Hin. apply plain_chars in H as [_ H]. rewrite Forall_forall in H. by apply H, name_char_plain in Hin as [_ ?].
Qed.
Lemma canonical_kind n1 k1 n2 k2 :
  canonical n1 k1 → canonical n2 k2 → eq_ignore_ascii_case n1 n2 = true → k1 = k2.
Proof.
  intros H1 H2 He%bool_decide_eq_true. unfold to_ascii_lowercase in He.
  assert (Hdot : ∀ p s, 46 ∈ map lower (p ++ 46 :: s)).
  { intros. rewrite map_app. apply elem_of_app. right. cbn. by left. }
  destruct H1 as [Hp1|(p1 & ? & ? & Hp1 & _ & -> & _ & ->)], H2 as [Hp2|(p2 & ? & ? & Hp2 & _ & -> & _ & ->)].
  - destruct Hp1 as (m1 & ? & Hin1 & -> & _), Hp2 as (m2 & ? & Hin2 & -> & _).
    apply (candidates_head m1 k1 m2 k2 Hin1 Hin2).
    apply candidates_names in Hin1 as (Hn1 & _), Hin2 as (Hn2 & _).
    rewrite !map_app in He. destruct m1, m2; [done..|]. cbn in *. by injection He as ->.
  - pose proof (Hdot p2 (to_string x0)) as Hd. rewrite <-He in Hd. by apply lower_dot, (plain_no_dot _ _ Hp1) in Hd.
  - pose proof (Hdot p1 (to_string x0)) as Hd. rewrite He in Hd. by apply lower_dot, (plain_no_dot _ _ Hp2) in Hd.
  - done.
Qed.

(** ** Helper lemmas: what keeps a device well formed *)

(** What [device_ok] looks at in an interface. *)
Definition shape (i : Interface) : InterfaceId * InterfaceKind := (interface_id i, kind i).
(** A configuration that may take the place of [c]. *)
Definition config_kept (d : Device) (id : InterfaceId) (c c' : InterfaceConfig) : Prop :=
  name c' = name c ∧ port_channel c' = port_channel c
  ∧ (parent c' = parent c ∧ dot1q c' = dot1q c ∧ (channel_group c' = channel_group c ∨ channel_group c' = None))
  ∧ ∀ i, interfaces d !! id = Some i → interface_ok d id i c → interface_ok d id i c'.

(** [d'] is [d] with the same interfaces, configurations that may take the
    place of the old ones, and fewer learned entries. *)
Record kept (d d' : Device) : Prop := {
  kept_type : device_type d' = device_type d;
  kept_shape : ∀ id, shape <$> interfaces d' !! id = shape <$> interfaces d !! id;
  kept_configs : ∀ id, option_Forall2 (config_kept d id) (configs d !! id) (configs d' !! id);
  kept_macs : mac_table d' ⊆ mac_table d;
  kept_arp : arp_cache d' ⊆ arp_cache d;
  kept_lacp : lacp_neighbors d' ⊆ lacp_neighbors d
}.

Lemma shape_Some d d' id i' :
  shape <$> interfaces d' !! id = shape <$> interfaces d !! id → interfaces d' !! id = Some i' →
  ∃ i, interfaces d !! id = Some i ∧ interface_id i' = interface_id i ∧ kind i' = kind i.
Proof.
  intros Hs Hi. rewrite Hi in Hs. cbn in Hs. destruct (interfaces d !! id) as [i|]; [|done].
  injection Hs as -> ->. by exists i.
Qed.
Lemma shape_is_Some d d' id :
  shape <$> interfaces d' !! id = shape <$> interfaces d !! id →
  is_Some (interfaces d' !! id) ↔ is_Some (interfaces d !! id).
Proof. intros Hs. by rewrite <-!(fmap_is_Some shape), Hs. Qed.

Lemma interface_ok_mono d d' id i i' c :
  device_type d' = device_type d →
  (∀ l lc, configs d !! l = Some lc → ∃ lc', configs d' !! l = Some lc' ∧ port_channel lc' = port_channel lc) →
  (∀ p j, interfaces d !! p = Some j → ∃ j', interfaces d' !! p = Some j' ∧ kind j' = kind j) →
  interface_id i' = interface_id i → kind i' = kind i → interface_ok d id i c → interface_ok d' id i' c.
Proof.
  intros Ht Hc Hi Hid Hkind [O1 O2 O3 Og Op Os Om]. constructor; rewrite ?Hid, ?Hkind; try done.
  - intros g Hg. destruct (Og g Hg) as (? & l & lc & Hl & Hn). split; [done|].
    destruct (Hc l lc Hl) as (lc' & ? & ?). exists l, lc'. split; [done|congruence].
  - intros p Hp. destruct (Op p Hp) as (j & Hj & He). destruct (Hi p j Hj) as (j' & ? & Hk). exists j'. by rewrite Hk.
  - unfold supports_switching in *. by rewrite Ht.
Qed.
Lemma interface_ok_kept d d' id i i' c :
  kept d d' → interface_id i' = interface_id i → kind i' = kind i → interface_ok d id i c → interface_ok d' id i' c.
Proof.
  intros [Kt Ks Kc _ _ _]. apply interface_ok_mono; [done| |].
  - intros l lc Hl. specialize (Kc l). rewrite Hl in Kc. inversion Kc as [? lc' (_ & Hpc & _) E1 E2|]. by exists lc'.
  - intros p j Hj. pose proof (Ks p) as Hs. rewrite Hj in Hs.
    destruct (interfaces d' !! p) as [j'|] eqn:Ej; [|done]. injection Hs as _ Hs. by exists j'.
Qed.

Lemma agree_pair_sym ka kb a b : agree_pair ka kb a b → agree_pair kb ka b a.
Proof.
  intros [H1 H2]. split.
  - intros p ta tb Ha Hb Hta Htb. destruct (H1 p tb ta) as [? E]; try done. split; [done|]. by rewrite andb_comm.
  - intros ga gb Ha Hb He. destruct (H2 gb ga) as [? E]; done.
Qed.
Lemma agree_pair_fields ka kb a b a' b' :
  parent a' = parent a ∧ dot1q a' = dot1q a ∧ (channel_group a' = channel_group a ∨ channel_group a' = None) →
  parent b' = parent b ∧ dot1q b' = dot1q b ∧ (channel_group b' = channel_group b ∨ channel_group b' = None) →
  agree_pair ka kb a b → agree_pair ka kb a' b'.
Proof.
  intros (A1 & A2 & A3) (B1 & B2 & B3) [H1 H2]. unfold agree_pair. rewrite A1, A2, B1, B2. split; [done|].
  intros ga gb Ha Hb. apply H2; destruct A3, B3; congruence.
Qed.
Lemma device_ok_kept d d' : kept d d' → device_ok d → device_ok d'.
Proof.
  intros Hk [Odom Oif Onames Opairs Omac Oarp Olacp]. pose proof Hk as [Kt Ks Kc Km Ka Kl]. constructor.
  - intros id. rewrite shape_is_Some by apply Ks. rewrite Odom.
    specialize (Kc id). destruct Kc; [split; intros _; by eexists|by split; intros [? ?]].
  - intros id i' c' Hi Hc. specialize (Kc id). rewrite Hc in Kc.
    inversion Kc as [c ? (Hn & Hpc & _ & Hok) E1 E2|]; subst.
    destruct (shape_Some _ _ _ _ (Ks id) Hi) as (i & Hi0 & Hid & Hkind).
    apply (interface_ok_kept d d' id i i' c' Hk Hid Hkind). apply Hok; [done|]. by apply Oif.
  - intros a b ca cb Ha Hb. pose proof (Kc a) as HA. pose proof (Kc b) as HB.
    rewrite Ha in HA. rewrite Hb in HB. inversion HA as [ca0 ? (Hna & _) E1 E2|]; subst.
    inversion HB as [cb0 ? (Hnb & _) E3 E4|]; subst. rewrite Hna, Hnb. by apply Onames.
  - intros a b ia ib ca cb Hne Hia Hib Ha Hb. pose proof (Kc a) as HA. pose proof (Kc b) as HB.
    rewrite Ha in HA. rewrite Hb in HB. inversion HA as [ca0 ? (_ & _ & Fa & _) E1 E2|]; subst.
    inversion HB as [cb0 ? (_ & _ & Fb & _) E3 E4|]; subst.
    destruct (shape_Some _ _ _ _ (Ks a) Hia) as (ja & Hja & _ & ->), (shape_Some _ _ _ _ (Ks b) Hib) as (jb & Hjb & _ & ->).
    apply (agree_pair_fields _ _ ca0 cb0); try done. by apply (Opairs a b).
  - intros v m e He. eapply lookup_weaken in He; [|exact Km]. destruct (Omac _ _ _ He) as (?&?&?).
    rewrite shape_is_Some by apply Ks. done.
  - intros a e He. eapply lookup_weaken in He; [|exact Ka]. destruct (Oarp _ _ He) as (?&?).
    rewrite shape_is_Some by apply Ks. done.
  - intros id n Hn. eapply lookup_weaken in Hn; [|exact Kl]. destruct (Olacp _ _ Hn) as (i & Hi & He).
    pose proof (Ks id) as Hs. rewrite Hi in Hs. destruct (interfaces d' !! id) as [i'|]; [|done].
    injection Hs as _ Hk'. exists i'. by rewrite Hk'.
Qed.

Lemma config_kept_refl d id c : config_kept d id c c.
Proof. split_and!; auto. Qed.
#[export] Hint Resolve config_kept_refl : core.
Lemma configs_refl d id : option_Forall2 (config_kept d id) (configs d !! id) (configs d !! id).
Proof. destruct (configs d !! id); by constructor. Qed.
(** The usual cases: nothing of it changed, or one configuration did. *)
Lemma kept_same d d' :
  device_type d' = device_type d → interfaces d' = interfaces d → configs d' = configs d →
  mac_table d' ⊆ mac_table d → arp_cache d' ⊆ arp_cache d → lacp_neighbors d' ⊆ lacp_neighbors d → kept d d'.
Proof. intros H1 H2 H3 H4 H5 H6. constructor; try done; intros id; rewrite ?H2, ?H3; [done|apply configs_refl]. Qed.
Lemma kept_insert d d' id c c' :
  configs d !! id = Some c → config_kept d id c c' →
  device_type d' = device_type d → interfaces d' = interfaces d → configs d' = <[id := c']> (configs d) →
  mac_table d' ⊆ mac_table d → arp_cache d' ⊆ arp_cache d → lacp_neighbors d' ⊆ lacp_neighbors d → kept d d'.
Proof.
  intros Hc Hk H1 H2 H3 H4 H5 H6. constructor; try done; intros x; rewrite ?H2, ?H3; [done|].
  destruct (decide (x = id)) as [->|Hx].
  - rewrite lookup_insert_eq, Hc. by constructor.
  - rewrite lookup_insert_ne by done. apply configs_refl.
Qed.

Lemma configs_set f d : configs (set_configs f d) = f (configs d).
Proof. done. Qed.
(** Another configuration of one interface. *)
Lemma device_ok_replace d id i c c' :
  device_ok d → interfaces d !! id = Some i → configs d !! id = Some c →
  name c' = name c → port_channel c' = port_channel c → interface_ok d id i c' →
  (∀ b j cb, id ≠ b → interfaces d !! b = Some j → configs d !! b = Some cb → agree_pair (kind i) (kind j) c' cb) →
  device_ok (set_configs (insert id c') d).
Proof.
  intros [Odom Oif Onames Opairs Omac Oarp Olacp] Hi Hc En Ep Hok Hpairs.
  assert (Hn : ∀ x cx, <[id := c']> (configs d) !! x = Some cx → ∃ cx0, configs d !! x = Some cx0 ∧ name cx = name cx0).
  { intros x cx [[<- <-]|[? Hx]]%lookup_insert_Some; [by exists c|by exists cx]. }
  constructor; try done.
  - intros x. rewrite configs_set, lookup_insert_is_Some, Odom. destruct (decide (id = x)) as [<-|]; [rewrite Hc|]; naive_solver.
  - intros x j cx Hj Hx. rewrite configs_set in Hx. apply (interface_ok_mono d _ x j j cx); try done.
    + rewrite configs_set. intros l lc Hl. destruct (decide (l = id)) as [->|Hne].
      * exists c'. rewrite lookup_insert_eq. split; congruence.
      * exists lc. by rewrite lookup_insert_ne.
    + intros p jp Hp. by exists jp.
    + apply lookup_insert_Some in Hx as [[<- <-]|[? Hx]]; [|by apply Oif].
      cbn in Hj. rewrite Hi in Hj. by injection Hj as <-.
  - intros a b ca cb. rewrite configs_set. intros Ha Hb He. destruct (Hn _ _ Ha) as (? & ? & Ea), (Hn _ _ Hb) as (? & ? & Eb).
    rewrite Ea, Eb in He. by eapply Onames.
  - intros a b ia ib ca cb Hne. rewrite configs_set. intros Hia Hib Ha Hb. cbn in Hia, Hib.
    apply lookup_insert_Some in Ha as [[<- <-]|[? Ha]], Hb as [[<- <-]|[? Hb]]; try done.
    + rewrite Hi in Hia. injection Hia as <-. by eapply Hpairs.
    + rewrite Hi in Hib. injection Hib as <-. apply agree_pair_sym. by eapply Hpairs.
    + by apply (Opairs a b).
Qed.
(** A new interface under a new name. *)
Lemma device_ok_insert d d' id i c :
  device_ok d → device_type d' = device_type d → interfaces d' = <[id := i]> (interfaces d) →
  configs d' = <[id := c]> (configs d) → mac_table d' = mac_table d → arp_cache d' = arp_cache d →
  lacp_neighbors d' = lacp_neighbors d →
  interfaces d !! id = None → find_interface d (name c) = None → interface_ok d' id i c →
  dot1q c = None → channel_group c = None → device_ok d'.
Proof.
  intros [Odom Oif Onames Opairs Omac Oarp Olacp] Ht Hi Hc Hm Ha Hlacp Hfresh Hname Hnew Htag Hgroup.
  assert (Hcf : configs d !! id = None).
  { apply eq_None_not_Some. rewrite <-Odom, Hfresh. by intros [? ?]. }
  assert (Hn : ∀ a ca, configs d !! a = Some ca → eq_ignore_ascii_case (name ca) (name c) = false).
  { unfold find_interface, items in Hname. rewrite fmap_None, find_entries_None in Hname. intros a ca Hca. exact (Hname _ _ Hca). }
  assert (Hsym : ∀ a b, eq_ignore_ascii_case a b = eq_ignore_ascii_case b a).
  { intros a b. unfold eq_ignore_ascii_case. apply bool_decide_ext. by split. }
  constructor.
  - intros x. rewrite Hi, Hc, !lookup_insert_is_Some, Odom. done.
  - intros x i' c'. rewrite Hi, Hc. intros Hi' Hc'. destruct (decide (x = id)) as [->|Hx].
    + rewrite lookup_insert_eq in Hi'. rewrite lookup_insert_eq in Hc'.
      injection Hi' as <-. injection Hc' as <-. done.
    + rewrite lookup_insert_ne in Hi' by done. rewrite lookup_insert_ne in Hc' by done.
      apply (interface_ok_mono d d' x i' i' c'); try done; [| |by apply Oif].
      * intros l lc Hl. exists lc. rewrite Hc, lookup_insert_ne by congruence. done.
      * intros p j Hj. exists j. rewrite Hi, lookup_insert_ne by congruence. done.
  - intros a b ca cb. rewrite Hc, !lookup_insert_Some. intros [[<- <-]|[? Hca]] [[<- <-]|[? Hcb]] He; try done.
    + by rewrite Hsym, (Hn _ _ Hcb) in He.
    + by rewrite (Hn _ _ Hca) in He.
    + by eapply Onames.
  - assert (Hag : ∀ ka kb cb, agree_pair ka kb c cb) by (intros; split; intros; congruence).
    intros a b ia ib ca cb Hne. rewrite Hi, Hc. intros Hia Hib Hca Hcb.
    apply lookup_insert_Some in Hca as [[<- <-]|[Hna Hca]]; [apply Hag|].
    apply lookup_insert_Some in Hcb as [[<- <-]|[Hnb Hcb]]; [apply agree_pair_sym, Hag|].
    rewrite lookup_insert_ne in Hia by done. rewrite lookup_insert_ne in Hib by done. by apply (Opairs a b).
  - intros v m e. rewrite Hm. intros He. destruct (Omac _ _ _ He) as (?&?&?). rewrite Hi, lookup_insert_is_Some'. auto.
  - intros a e. rewrite Ha. intros He. destruct (Oarp _ _ He) as (?&?). rewrite Hi, lookup_insert_is_Some'. auto.
  - intros a n. rewrite Hlacp. intros Hnb. destruct (Olacp _ _ Hnb) as (j & Hj & ?). exists j.
    rewrite Hi, lookup_insert_ne by congruence. done.
Qed.

Lemma next_interface_fresh d : device_ok d → interfaces d !! next_interface d = None ∧ 1 ≤ next_interface d.
Proof.
  intros Hd. unfold next_interface. destruct (last_entry _ _) as [[k i]|] eqn:E.
  - apply last_entry_spec in E as [Hk Hmax]. split.
    + apply eq_None_not_Some. intros Hs. apply Hmax, lex_single in Hs. lia.
    + assert (is_Some (configs d !! k)) as [c Hc] by (apply (ok_dom _ Hd); by eexists).
      destruct (ok_interface _ Hd _ _ _ Hk Hc) as [[? ?] _ _ _ _ _ _]. lia.
  - apply last_entry_None in E. rewrite E. by rewrite lookup_empty.
Qed.

(** ** Helper lemmas: the steps keep a device well formed *)

Abbreviation keeps m := (preserves device_ok m).

Lemma keeps_kept (f : Device → Device) : (∀ d, device_ok d → kept d (f d)) → keeps (@modify Device DeviceError f).
Proof. intros H. apply preserves_modify. intros d Hd. eapply device_ok_kept; [by apply H|done]. Qed.
Lemma keeps_update id f :
  (∀ d c, device_ok d → configs d !! id = Some c → config_kept d id c (f c)) → keeps (update_config id f).
Proof.
  intros H d Hd. unfold update_config. destruct (configs d !! id) as [c|] eqn:Hc; [|done]. cbn.
  eapply device_ok_kept; [|done]. by eapply (kept_insert _ _ id c (f c)); [|by apply H|..].
Qed.
(** A change of fields [interface_ok] does not mention, or one that clears the
    address of the interface. *)
Lemma config_kept_fields d id c c' :
  name c' = name c → port_channel c' = port_channel c → channel_group c' = channel_group c → parent c' = parent c →
  switchport c' = switchport c → (ipv4 c' = ipv4 c ∨ ipv4 c' = None) → dot1q c' = dot1q c → config_kept d id c c'.
Proof.
  intros E1 E2 E3 E4 E5 E6 E7. split; [done|]. split; [done|]. split; [by split_and!; [..|left]|]. intros i Hi [O1 O2 O3 Og Op Os Om].
  assert (Hip : ipv4 c = None → ipv4 c' = None) by (intros Hip; destruct E6 as [->|]; congruence).
  constructor; rewrite ?E1, ?E2, ?E3, ?E4, ?E5; try done; [|by intros ?%Om%Hip].
  intros Hs. destruct (Os Hs) as (? & ? & ?). auto.
Qed.
Lemma keeps_fields id f :
  (∀ c, name (f c) = name c) → (∀ c, port_channel (f c) = port_channel c) →
  (∀ c, channel_group (f c) = channel_group c) → (∀ c, parent (f c) = parent c) →
  (∀ c, switchport (f c) = switchport c) → (∀ c, ipv4 (f c) = ipv4 c ∨ ipv4 (f c) = None) →
  (∀ c, dot1q (f c) = dot1q c) →
  keeps (update_config id f).
Proof. intros. apply keeps_update. intros d c _ _. by apply config_kept_fields. Qed.

(** A switch port may be replaced by another, or removed. *)
Lemma config_kept_switchport d id c s :
  (is_Some s → is_Some (switchport c)) → config_kept d id c (c <| switchport := s |>).
Proof.
  intros Hs. split; [done|]. split; [done|]. split; [auto|]. intros i Hi [O1 O2 O3 Og Op Os Om]. constructor; try done.
  intros H. by apply Os, Hs.
Qed.
Lemma keeps_switchport_mut id f : keeps (switchport_mut id f).
Proof.
  intros d Hd. unfold switchport_mut. destruct (configs d !! id) as [c|] eqn:Hc; [|done].
  destruct (switchport c) as [s|] eqn:Hs; [|done]. cbn.
  eapply device_ok_kept; [|done]. apply (kept_insert d _ id c (c <| switchport := Some (f s) |>)); try done.
  apply config_kept_switchport. by rewrite Hs.
Qed.

(** The members of a bundle may have whatever switch port the bundle has. *)
Lemma sync_kept id d : device_ok d → kept d (sync_channel_switchports id d).
Proof.
  intros Hd. unfold sync_channel_switchports. destruct (configs d !! id) as [l|] eqn:Hl; [|by apply kept_same].
  destruct (port_channel l) as [n|] eqn:Hn; [|by apply kept_same].
  constructor; try done. intros x. rewrite configs_set, lookup_fmap. destruct (configs d !! x) as [c|] eqn:Hc; [|constructor].
  constructor. destruct (channel_group c) as [g|] eqn:Hg; cbn; [|done]. destruct (group_number g =? n); [|done].
  split; [done|]. split; [done|]. split; [auto|]. intros i Hi [O1 O2 O3 Og Op Os Om]. constructor; try done. cbn. intros Hs.
  destruct (device_ok_config _ _ _ Hd Hl) as (j & Hj & [_ _ _ _ _ Osl _]). destruct (Osl Hs) as (? & _ & _).
  split; [done|]. split; [left; by apply (Og g)|]. apply Om. by rewrite Hg.
Qed.
Lemma forget_kept id d : kept d (forget_macs id d).
Proof. apply kept_same; try done. apply map_filter_subseteq. Qed.
Lemma port_changed_ok id d : device_ok d → device_ok (port_changed id d).
Proof. intros Hd. eapply device_ok_kept; [apply forget_kept|]. eapply device_ok_kept; [by apply sync_kept|done]. Qed.

#[export] Hint Resolve reads_bind preserves_reads keeps_switchport_mut : stateful.

Lemma find_interface_Some d n id :
  find_interface d n = Some id → ∃ c, configs d !! id = Some c ∧ eq_ignore_ascii_case (name c) n = true.
Proof.
  unfold find_interface, items. intros H. apply fmap_Some in H as ([k c] & Hf & ->).
  apply find_entries in Hf as (Hc & He & _). by exists c.
Qed.
(** The interface a canonical name finds has its kind. *)
Lemma find_interface_kind d n k id :
  device_ok d → canonical n k → find_interface d n = Some id →
  ∃ i c, interfaces d !! id = Some i ∧ configs d !! id = Some c ∧ kind i = k ∧ interface_ok d id i c
    ∧ eq_ignore_ascii_case (name c) n = true.
Proof.
  intros Hd Hn (c & Hc & He)%find_interface_Some. destruct (device_ok_config _ _ _ Hd Hc) as (i & Hi & Hok).
  exists i, c. split_and!; try done. destruct Hok as [_ Hcn _ _ _ _ _]. by eapply canonical_kind.
Qed.

(** *** The operations that create interfaces *)

Lemma port_channel_name_inj v w : u16 v → u16 w → port_channel_name v = port_channel_name w → v = w.
Proof. unfold port_channel_name. intros Hv Hw H%app_inv_head. apply to_string_inj in H; lia. Qed.

(** The configuration and the entry of a new interface are well formed; a
    bundle also gets its number. *)
Lemma new_interface_ok d d' k m n :
  device_ok d → next_interface d ≤ U16_MAX → canonical n k → k ≠ PortChannel → device_type d' = device_type d →
  interface_ok d' (next_interface d) (new_interface d k m) (new_config d n k).
Proof.
  intros Hd Hmax Hn Hk Ht. destruct (next_interface_fresh d Hd) as [_ Hlow]. constructor; cbn; try done.
  - intros v. split; [done|]. intros [? _]. done.
  - unfold supports_switching. rewrite Ht. fold (supports_switching d). intros Hs.
    destruct (supports_switching d); [cbn in *|by destruct Hs]. destruct (is_ethernet k); [auto|by destruct Hs].
Qed.

Lemma insert_interface_new d n k m :
  find_interface d n = None →
  insert_interface n k m d
  = if U16_MAX <? next_interface d then (Err (InvalidInterface n), d)
    else (Ok (next_interface d), set_configs (insert (next_interface d) (new_config d n k))
                                   (d <| interfaces ::= insert (next_interface d) (new_interface d k m) |>)).
Proof. intros H. unfold insert_interface. by rewrite H. Qed.
Lemma keeps_insert n k m : canonical n k → k ≠ PortChannel → keeps (insert_interface n k m).
Proof.
  intros Hn Hk d Hd. destruct (find_interface d n) as [x|] eqn:Hf; [by unfold insert_interface; rewrite Hf|].
  rewrite insert_interface_new by done. destruct (U16_MAX <? _) eqn:Hmax; [done|].
  destruct (next_interface_fresh d Hd) as [Hfresh _]. cbn [snd].
  eapply (device_ok_insert d _ (next_interface d)); try done. apply new_interface_ok; try done. lia.
Qed.

(** [update_config] of an interface that exists. *)
Lemma run_update id f c d : configs d !! id = Some c → update_config id f d = (Ok (), set_configs (insert id (f c)) d).
Proof. intros Hc. unfold update_config. by rewrite Hc. Qed.
Lemma set_configs_twice id c c' d :
  set_configs (insert id c') (set_configs (insert id c) d) = set_configs (insert id c') d.
Proof. unfold set_configs. cbn. by rewrite insert_insert_eq. Qed.

(** A new bundle, with the port its members have. *)
Lemma create_port_channel_new d v :
  device_ok d → 1 ≤ v ≤ 4096 → find_interface d (port_channel_name v) = None →
  let c := new_config d (port_channel_name v) PortChannel <| port_channel := Some v |> <| admin_state := AdminUp |>
             <| switchport_capable := supports_switching d |>
             <| switchport := if supports_switching d then Some SwitchportConfig_default else None |> in
  create_port_channel (port_channel_name v) d
  = if negb (supports_routing d) && negb (supports_switching d) then (Err InvalidChannel, d)
    else if U16_MAX <? next_interface d then (Err (InvalidInterface (port_channel_name v)), d)
    else (Ok (next_interface d), set_configs (insert (next_interface d) c)
            (d <| interfaces ::= insert (next_interface d) (new_interface d PortChannel Virtual) |>)).
Proof.
  intros Hd Hv Hf c. unfold create_port_channel. rewrite run_reject. destruct (_ && _) eqn:Hs; [done|].
  rewrite run_require. unfold port_channel_name at 1. rewrite strip_prefix_app. cbn [mbind option_bind].
  rewrite parse_to_string by (unfold U16_MAX; lia). rewrite run_bind, insert_interface_new by done.
  destruct (U16_MAX <? next_interface d); [done|]. rewrite run_gets, run_bind.
  erewrite run_update by (rewrite configs_set; apply lookup_insert_eq). rewrite set_configs_twice. done.
Qed.
Lemma create_port_channel_ok d v c :
  device_ok d → 1 ≤ v ≤ 4096 → next_interface d ≤ U16_MAX → find_interface d (port_channel_name v) = None →
  name c = port_channel_name v → port_channel c = Some v → channel_group c = None → parent c = None →
  dot1q c = None → ipv4 c = None → (is_Some (switchport c) → supports_switching d = true) →
  device_ok (set_configs (insert (next_interface d) c)
    (d <| interfaces ::= insert (next_interface d) (new_interface d PortChannel Virtual) |>)).
Proof.
  intros Hd Hv Hmax Hf E1 E2 E3 E4 E6 E5 Hs. destruct (next_interface_fresh d Hd) as [Hfresh Hlow].
  eapply (device_ok_insert d _ (next_interface d)); try done; [by rewrite E1|].
  constructor; rewrite ?E1, ?E2, ?E3, ?E4, ?E5; cbn -[port_channel_name]; try done.
  - by apply canonical_bundle_name.
  - intros n. split; [intros [= <-]; split_and!; try done; lia|]. intros (_ & He & Hn). f_equal.
    apply port_channel_name_inj; (done || lia).
  - intros H. split_and!; auto.
Qed.

(** A new subinterface of the parent its name mentions. *)
Lemma create_subinterface_new d n :
  device_ok d → canonical n EthernetSubinterface → find_interface d n = None →
  (∃ e, create_subinterface n d = (Err e, d))
  ∨ ∃ p ip, interfaces d !! p = Some ip ∧ is_ethernet (kind ip) = true ∧ next_interface d ≤ U16_MAX
    ∧ create_subinterface n d
      = (Ok (next_interface d),
         set_configs (insert (next_interface d)
             (new_config d n EthernetSubinterface <| parent := Some p |> <| admin_state := AdminUp |>))
           (d <| interfaces ::= insert (next_interface d)
                   (new_interface d EthernetSubinterface Virtual <| mac_address := mac_address ip |>) |>)).
Proof.
  intros Hd Hn Hf. unfold create_subinterface. rewrite run_reject. destruct (negb _); [left; by eexists|].
  destruct Hn as [Hn|(q & kq & num & Hq & Hkq & En & Hnum & _)].
  { exfalso. destruct Hn as (name & ns & _ & _ & Hns & _). done. }
  subst n. rewrite run_require, split_once_app by (by eapply plain_no_dot).
  rewrite run_require. destruct (find_interface d q) as [p|] eqn:Hp; [|left; by eexists].
  rewrite run_reject. destruct (is_switchport d p); [left; by eexists|].
  destruct (find_interface_kind d q kq p Hd (or_introl Hq) Hp) as (ip & cp & Hip & Hcp & Hkind & Hok & _).
  rewrite run_try_gets, Hip, run_bind, insert_interface_new by done.
  destruct (U16_MAX <? next_interface d) eqn:Hmax; [left; by eexists|]. right. exists p, ip.
  split; [done|]. split; [by rewrite Hkind|]. split; [lia|].
  rewrite run_bind. erewrite run_update by (rewrite configs_set; apply lookup_insert_eq). rewrite set_configs_twice.
  rewrite run_bind. erewrite run_update by (rewrite configs_set; apply lookup_insert_eq). rewrite set_configs_twice.
  rewrite run_require. cbn [interfaces set_configs set_field]. rewrite lookup_insert_eq, run_modify. f_equal.
  unfold set_configs. cbn. by rewrite insert_insert_eq.
Qed.
Lemma create_subinterface_ok d n p ip :
  device_ok d → canonical n EthernetSubinterface → find_interface d n = None →
  interfaces d !! p = Some ip → is_ethernet (kind ip) = true → next_interface d ≤ U16_MAX →
  device_ok (set_configs (insert (next_interface d)
       (new_config d n EthernetSubinterface <| parent := Some p |> <| admin_state := AdminUp |>))
     (d <| interfaces ::= insert (next_interface d)
             (new_interface d EthernetSubinterface Virtual <| mac_address := mac_address ip |>) |>)).
Proof.
  intros Hd Hn Hf Hp Hk Hmax. destruct (next_interface_fresh d Hd) as [Hfresh Hlow].
  eapply (device_ok_insert d _ (next_interface d)); try done. constructor; cbn; try done.
  - intros v. split; [done|]. by intros [? _].
  - intros x [= <-]. exists ip. split; [|done]. by rewrite lookup_insert_ne by congruence.
  - rewrite andb_false_r. by intros [? ?].
Qed.

Lemma keeps_ensure n : keeps (ensure_interface n).
Proof.
  intros d Hd. unfold ensure_interface. rewrite run_lift.
  destruct (canonical_interface n) as [[c k]|e|] eqn:Hc; [|done..]. apply canonical_interface_ok in Hc.
  rewrite run_gets. destruct (find_interface d c) as [x|] eqn:Hf; [done|]. rewrite run_reject.
  destruct (is_physical k) eqn:Hk; [done|].
  destruct k; try done; try (by apply keeps_insert).
  - destruct (create_subinterface_new d c Hd Hc Hf) as [[e He]|(p & ip & Hp & Hk' & Hmax & He)]; rewrite He; [done|].
    by apply create_subinterface_ok.
  - destruct (canonical_port_channel _ Hc) as (v & -> & Hv). rewrite create_port_channel_new by done. cbv zeta.
    destruct (_ && _); [done|]. destruct (U16_MAX <? _) eqn:Hmax; [done|]. apply (create_port_channel_ok d v); try done; [lia|].
    cbn. destruct (supports_switching d); [done|]. by intros [? ?].
Qed.

Lemma keeps_add_physical n : keeps (add_physical_interface n).
Proof.
  intros d Hd. unfold add_physical_interface. rewrite run_lift.
  destruct (canonical_interface n) as [[c k]|e|] eqn:Hc; [|done..]. apply canonical_interface_ok in Hc.
  rewrite run_reject. destruct (negb _) eqn:Hk; [done|]. rewrite run_lift.
  destruct k; try done; by apply keeps_insert.
Qed.
Lemma keeps_add_port n m : keeps (add_port n m).
Proof.
  intros d Hd. unfold add_port. rewrite run_lift.
  destruct (canonical_interface n) as [[c k]|e|] eqn:Hc; [|done..]. apply canonical_interface_ok in Hc.
  rewrite run_reject. destruct (negb _) eqn:Hk; [done|]. apply keeps_insert; [done| |done]. by intros ->.
Qed.

(** *** Joining a bundle *)

(** The members of a bundle are of the kind and the mode of a joining one. *)
Definition joinable (d : Device) (id : InterfaceId) (i : Interface) (number : Z) (mode : ChannelMode) : Prop :=
  ∀ b j cb g, id ≠ b → interfaces d !! b = Some j → configs d !! b = Some cb → channel_group cb = Some g →
    group_number g = number → kind i = kind j ∧ (mode = ModeOn ↔ group_mode g = ModeOn).
Lemma members_joinable {E : Type} d id i number mode :
  device_ok d → interfaces d !! id = Some i →
  ∃ b, try_any (incompatible_member d id mode) (other_members d id number) = @Ok E _ b
    ∧ (b = false → joinable d id i number mode).
Proof.
  intros Hd Hi.
  set (bad := λ e : InterfaceId * InterfaceConfig,
    negb (bool_decide (kind <$> interfaces d !! e.1 = Some (kind i)))
    || is_some_and (channel_group e.2)
         (λ g, negb (bool_decide (bool_decide (group_mode g = ModeOn) = bool_decide (mode = ModeOn))))).
  exists (existsb bad (other_members d id number)). split.
  { apply try_any_pure. intros [b cb] [_ Hb%elem_of_entries]%list_elem_of_filter.
    destruct (device_ok_config _ _ _ Hd Hb) as (j & Hj & _). unfold incompatible_member, index, bad. cbn [fst snd].
    rewrite Hj, Hi, !bind_Ok. cbn.
    by rewrite (bool_decide_ext (kind j = kind i) (Some (kind j) = Some (kind i))) by (split; [by intros -> | by intros [= ->]]). }
  intros H b j cb g Hne Hj Hb Hg Hn.
  assert (Hin : (b, cb) ∈ other_members d id number).
  { apply list_elem_of_filter. split; [|by apply elem_of_entries]. cbn. rewrite Hg. cbn. lia. }
  destruct (bad (b, cb)) eqn:Eb.
  { by rewrite (proj2 (existsb_exists _ _)) in H by (exists (b, cb); by rewrite <-list_elem_of_In). }
  unfold bad in Eb. cbn [fst snd] in Eb. rewrite Hg, Hj in Eb. cbn in Eb.
  apply orb_false_iff in Eb as [E1%negb_false_iff%bool_decide_eq_true E2%negb_false_iff%bool_decide_eq_true].
  injection E1 as E1. split; [done|]. rewrite <-(bool_decide_eq_true (mode = ModeOn)), <-E2. apply bool_decide_eq_true.
Qed.

(** The check of the members answers on a well-formed device. *)
Lemma members_checked {E : Type} d id i number mode :
  device_ok d → interfaces d !! id = Some i →
  ∃ b, (if 8 <=? len (other_members d id number) then Ok true
        else try_any (incompatible_member d id mode) (other_members d id number)) = @Ok E _ b
    ∧ (b = false → joinable d id i number mode).
Proof. intros Hd Hi. destruct (_ <=? _); [by exists true|]. by apply members_joinable. Qed.
Lemma index_Some {A E : Type} (m : gmap InterfaceId A) id a : m !! id = Some a → index m id = @Ok E A a.
Proof. unfold index. by intros ->. Qed.

Lemma join_ok d id i c l lc number mode :
  device_ok d → interfaces d !! id = Some i → configs d !! id = Some c → is_ethernet (kind i) = true → ipv4 c = None →
  configs d !! l = Some lc → port_channel lc = Some number → joinable d id i number mode →
  device_ok (forget_macs id
    (set_configs (insert id (c <| channel_group := Some {| group_number := number; group_mode := mode |} |>)) d)).
Proof.
  intros Hd Hi Hc He Hip Hl Hn Hj. eapply device_ok_kept; [apply forget_kept|].
  destruct (ok_interface _ Hd _ _ _ Hi Hc) as [O1 O2 O3 Og Op Os Om].
  apply (device_ok_replace d id i c); try done.
  - constructor; try done. intros g [= <-]. split; [done|]. by exists l, lc.
  - intros b j cb Hne Hb Hcb. destruct (ok_pairs _ Hd id b i j c cb) as [Htags _]; try done. split; [exact Htags|].
    intros ga gb [= <-] Hgb Hnum. by apply (Hj b j cb gb).
Qed.

Lemma keeps_set_channel_group id number mode : keeps (set_channel_group id number mode).
Proof.
  intros d Hd. unfold set_channel_group. rewrite run_reject. destruct (_ || _ || _) eqn:C1; [done|].
  apply orb_false_iff in C1 as [[C1 C2]%orb_false_iff _]. apply negb_false_iff in C2.
  destruct (interfaces d !! id) as [i|] eqn:Hi; [|done]. cbn in C2.
  assert (is_Some (configs d !! id)) as [c Hc] by (apply (ok_dom _ Hd); by eexists).
  rewrite run_try_gets, (index_Some _ _ c), run_reject by done. destruct (_ || _) eqn:C3; [done|].
  rewrite !orb_false_iff in C3. destruct C3 as [[[[C3 _] _] _] _]. apply bool_decide_eq_false in C3.
  assert (Hip : ipv4 c = None) by (destruct (ipv4 c); [by destruct C3|done]).
  destruct (members_checked (E:=DeviceError) d id i number mode Hd Hi) as (full & Hfull & Hj). rewrite (run_try_reject _ _ _ _ full) by exact Hfull.
  destruct full; [done|]. specialize (Hj eq_refl). rewrite run_gets.
  destruct (find_interface d (port_channel_name number)) as [l|] eqn:Hf.
  - destruct (find_interface_kind d _ PortChannel l Hd (canonical_bundle_name number ltac:(lia)) Hf)
      as (il & lc & Hil & Hlc & Hk & [_ Hcn Opc _ _ _ _] & He).
    erewrite run_try_reject by by rewrite (index_Some _ _ lc), bind_Ok by done.
    destruct (negb (bool_decide _)); [done|]. rewrite run_bind. cbn [mret stateful_mret].
    erewrite run_try_reject by by rewrite (index_Some _ _ lc), bind_Ok by done.
    destruct (negb (mtu lc =? mtu c)); [done|]. rewrite run_bind.
    rewrite (run_update _ _ c) by done. cbn [snd modify].
    apply (join_ok d id i c l lc); try done. apply Opc.
    destruct (bundle_name_canonical _ _ number Hcn ltac:(lia) He) as [? ?]. split_and!; try done; lia.
  - rewrite (run_try_reject _ _ _ _ false) by done. rewrite run_bind, run_bind, create_port_channel_new by (done || lia).
    cbv zeta. destruct (negb (supports_routing d) && _); [exact Hd|]. destruct (U16_MAX <? _) eqn:Hmax; [exact Hd|]. cbv iota beta.
    rewrite run_bind. erewrite run_update by (rewrite configs_set; apply lookup_insert_eq). rewrite set_configs_twice.
    cbn [mret stateful_mret]. destruct (next_interface_fresh d Hd) as [Hfresh Hlow].
    assert (Hne : id ≠ next_interface d) by congruence.
    rewrite (run_try_reject _ _ _ _ false).
    2: { erewrite index_Some by (rewrite configs_set; apply lookup_insert_eq). rewrite bind_Ok. f_equal.
         apply negb_false_iff, Z.eqb_refl. }
    rewrite run_bind. erewrite run_update by (rewrite configs_set, lookup_insert_ne by done; exact Hc).
    cbn [snd modify]. destruct (device_ok_config _ _ _ Hd Hc) as (i' & Hi' & [_ _ _ _ _ Os _]).
    eapply (join_ok _ id i c (next_interface d)); try done.
    + apply (create_port_channel_ok d number); try done; [lia|lia|]. cbn. intros Hs. by apply Os.
    + cbn. by rewrite lookup_insert_ne by done.
    + rewrite configs_set. by rewrite lookup_insert_ne by done.
    + rewrite configs_set. apply lookup_insert_eq.
    + done.
    + intros b j cb g Hb Hjb Hcb Hg Hnum. rewrite configs_set in Hcb.
      apply lookup_insert_Some in Hcb as [[<- <-]|[? Hcb]]; [done|].
      cbn in Hjb. rewrite lookup_insert_ne in Hjb by done. by apply (Hj b j cb g).
Qed.

(** *** The operations on the fields of an interface and of the device *)

Ltac keeps_fields := apply keeps_fields; intros; first [reflexivity | by left | by right].
Ltac keeps_same := apply keeps_kept; intros; apply kept_same; first [reflexivity | apply map_filter_subseteq | apply delete_subseteq].

Lemma keeps_set_ip_routing b : keeps (set_ip_routing b).
Proof. apply preserves_bind; [auto with stateful|]. intros _. keeps_same. Qed.
Lemma keeps_set_hostname h : keeps (set_hostname h).
Proof. apply preserves_bind; [auto with stateful|]. intros _. keeps_same. Qed.
Lemma save_config_ok d : device_ok d → device_ok (save_config d).
Proof. intros Hd. eapply device_ok_kept; [|done]. by apply kept_same. Qed.
Lemma keeps_set_description id t : keeps (set_description id t).
Proof. apply preserves_bind; [auto with stateful|]. intros _. keeps_fields. Qed.
Lemma keeps_clear_description id : keeps (clear_description id).
Proof. unfold clear_description. keeps_fields. Qed.

Lemma keeps_clear_ipv4 id : keeps (clear_ipv4 id).
Proof. apply preserves_bind; [keeps_fields|]. intros _. keeps_same. Qed.
(** An address is taken only outside switch ports and bundles. *)
Lemma keeps_set_ipv4 id ip : keeps (set_ipv4 id ip).
Proof.
  intros d Hd. unfold set_ipv4. rewrite run_reject. destruct (is_some_and _ _); [done|].
  rewrite run_reject. destruct (bool_decide _) eqn:Hch; [done|]. rewrite run_reject.
  destruct (is_switchport d id) eqn:Hsw; [done|]. rewrite run_bind.
  destruct (configs d !! id) as [c|] eqn:Hc; [|unfold update_config; by rewrite Hc].
  rewrite (run_update _ _ c) by done. cbn [snd modify].
  eapply device_ok_kept; [by apply kept_same|]. eapply device_ok_kept; [|exact Hd].
  apply (kept_insert d _ id c (c <| ipv4 := Some ip |> <| dhcp_client := false |>) Hc); try done.
  split; [done|]. split; [done|]. split; [auto|]. intros i Hi [O1 O2 O3 Og Op Os Om]. constructor; try done.
  - cbn. intros [s Hs]. unfold is_switchport in Hsw. rewrite Hc in Hsw. cbn in Hsw. by rewrite Hs in Hsw.
  - cbn. intros [g Hg]. exfalso. apply bool_decide_eq_false in Hch. apply Hch.
    destruct (Og g Hg) as (_ & l & lc & Hl & Hn). unfold channel_interface. rewrite Hc. cbn. rewrite Hg. cbn.
    apply fmap_is_Some, not_eq_None_Some. unfold items. rewrite find_entries_None. intros H.
    specialize (H l lc Hl). cbn in H. by rewrite Hn, bool_decide_true in H by done.
Qed.
Lemma keeps_set_admin_state id st : keeps (set_admin_state id st).
Proof.
  apply preserves_bind; [keeps_fields|]. intros _. apply keeps_kept. intros d Hd.
  destruct (bool_decide _); (apply kept_same; first [done | apply delete_subseteq]).
Qed.

Lemma keeps_shape (f : Device → Device) :
  (∀ d, device_type (f d) = device_type d) → (∀ d id, shape <$> interfaces (f d) !! id = shape <$> interfaces d !! id) →
  (∀ d, configs (f d) = configs d) → (∀ d, mac_table (f d) ⊆ mac_table d) → (∀ d, arp_cache (f d) ⊆ arp_cache d) →
  (∀ d, lacp_neighbors (f d) ⊆ lacp_neighbors d) →
  ∀ d, device_ok d → device_ok (f d).
Proof.
  intros H1 H2 H3 H4 H5 H6 d Hd. eapply device_ok_kept; [|exact Hd]. constructor; try done.
  intros id. rewrite H3. apply configs_refl.
Qed.
Lemma refresh_svi_states_ok d : device_ok d → device_ok (refresh_svi_states d).
Proof.
  revert d. apply keeps_shape; try done. intros d id. cbn. rewrite map_lookup_imap.
  destruct (interfaces d !! id) as [i|]; [|done]. cbn. by destruct (bool_decide _).
Qed.
(** On a well-formed device no SVI name fails and no lookup panics. *)
Lemma svi_up_checked_ok {E : Type} d v : device_ok d → @svi_up_checked E d v = Ok (svi_up d v).
Proof.
  intros Hd. unfold svi_up_checked, svi_up. destruct (bool_decide _); [|done]. cbn [andb].
  apply try_any_pure. intros [id c] _. cbn [fst snd]. destruct (switchport c) as [s|]; [|done]. cbn [is_some_and].
  destruct (bool_decide _); [|done]. cbn [negb andb]. by rewrite protocol_up_checked_ok, bind_Ok.
Qed.
Lemma svi_named d id i : device_ok d → interfaces d !! id = Some i → kind i = Vlan → is_Some (svi_vlan d id).
Proof.
  intros Hd Hi Hk. assert (is_Some (configs d !! id)) as [c Hc] by (apply (ok_dom _ Hd); by eexists).
  destruct (ok_interface _ Hd _ _ _ Hi Hc) as [_ Hn _ _ _ _ _]. rewrite Hk in Hn.
  unfold svi_vlan. rewrite Hi, Hc. cbn. rewrite bool_decide_true by done. cbn. by apply canonical_svi.
Qed.
Lemma svi_states_ok {E : Type} d :
  device_ok d →
  @svi_states E d = Ok (map (λ e : InterfaceId * Interface, (e.1, is_some_and (svi_vlan d e.1) (svi_up d)))
                          (filter (λ e, kind e.2 = Vlan) (items (interfaces d)))).
Proof.
  intros Hd. apply try_map_pure. intros [id i] [Hk Hi%elem_of_entries]%list_elem_of_filter.
  destruct (svi_named d id i Hd Hi Hk) as [v Hv]. cbn [fst snd]. by rewrite Hv, bind_Ok, svi_up_checked_ok, bind_Ok.
Qed.
Lemma foldl_alter {V B : Type} (g : B → V → V) (l : list (Z * B)) (m : gmap Z V) k :
  NoDup l.*1 →
  foldl (λ m s, alter (g s.2) s.1 m) m l !! k
  = match (list_to_map l : gmap Z B) !! k with Some b => g b <$> m !! k | None => m !! k end.
Proof.
  revert m. induction l as [|[j b] l IH]; intros m; cbn [fmap list_fmap foldl fst snd list_to_map foldr uncurry].
  { intros _. by rewrite lookup_empty. }
  intros [Hj Hl]%NoDup_cons. rewrite IH by done. destruct (decide (k = j)) as [->|Hne].
  - rewrite lookup_insert_eq, lookup_alter_eq, not_elem_of_list_to_map_1 by done. done.
  - by rewrite lookup_insert_ne, lookup_alter_ne by congruence.
Qed.
Lemma refresh_svi_states_ok_eq d :
  device_ok d → refresh_svi_states_checked d = (Ok (), refresh_svi_states d).
Proof.
  intros Hd. unfold refresh_svi_states_checked. rewrite run_try_gets, svi_states_ok by done.
  assert (Hset : ∀ f g, f (interfaces d) = g (interfaces d) → d <| interfaces ::= f |> = d <| interfaces ::= g |>).
  { intros f g H. clear -H. destruct d. cbn in *. by rewrite H. }
  unfold modify, refresh_svi_states. f_equal. apply Hset, map_eq. intros id. clear Hset.
  set (g := λ e : InterfaceId * Interface, (e.1, is_some_and (svi_vlan d e.1) (svi_up d))).
  set (l := filter _ _).
  assert (Hl : (map g l).*1 = l.*1) by (change (map g l) with (g <$> l); rewrite <-list_fmap_compose; done).
  rewrite foldl_alter, map_lookup_imap.
  2: { rewrite Hl. unfold l. eapply sublist_NoDup; [apply (entries_NoDup (λ k : InterfaceId, [k]) (interfaces d))|]. apply fmap_sublist, sublist_filter. }
  destruct ((list_to_map (map g l) : gmap Z bool) !! id) as [b|] eqn:Eb.
  - apply elem_of_list_to_map_2, list_elem_of_fmap in Eb as ([id' i] & [= -> ->] & [Hk Hi%elem_of_entries]%list_elem_of_filter).
    cbn in Hk, Hi. rewrite Hi. cbn. by rewrite bool_decide_true.
  - apply not_elem_of_list_to_map_2 in Eb. rewrite Hl in Eb. destruct (interfaces d !! id) as [i|] eqn:Hi; [|done]. cbn.
    rewrite bool_decide_false; [done|]. intros Hk. apply Eb. apply list_elem_of_fmap. exists (id, i). split; [done|].
    apply list_elem_of_filter. split; [done|]. by apply elem_of_entries.
Qed.
Lemma keeps_refresh_svi_states : keeps refresh_svi_states_checked.
Proof. intros d Hd. rewrite refresh_svi_states_ok_eq by done. by apply refresh_svi_states_ok. Qed.
Lemma keeps_set_link_state id st : keeps (set_link_state id st).
Proof.
  apply preserves_bind; [|intros _; apply preserves_bind_with; [auto with stateful|]].
  - apply keeps_kept. intros d Hd. destruct (_ && _); (apply kept_same; first [done | apply delete_subseteq]).
  - intros d i Hd Hi. rewrite run_modify. unfold require, ok_or in Hi. cbn in Hi.
    destruct (interfaces d !! id) as [j|] eqn:Hj; [|done]. injection Hi as <-. cbn [snd modify].
    assert (H : device_ok (d <| interfaces ::= insert id (j <| link_state := st |>) |>)).
    { eapply device_ok_kept; [|exact Hd]. constructor; try done; intros x; [|exact (configs_refl d x)].
      cbn. destruct (decide (x = id)) as [->|Hx]; [by rewrite lookup_insert_eq, Hj|by rewrite lookup_insert_ne]. }
    destruct (bool_decide _); [|exact H]. eapply device_ok_kept; [apply forget_kept|].
    eapply device_ok_kept; [|exact H]. (apply kept_same; first [done | apply delete_subseteq]).
Qed.

Lemma keeps_create_vlan v : keeps (create_vlan v).
Proof. apply preserves_bind; [auto with stateful|]. intros _. keeps_same. Qed.
Lemma keeps_remove_vlan v : keeps (remove_vlan v).
Proof. do 2 (apply preserves_bind; [auto with stateful|intros _]). keeps_same. Qed.
Lemma keeps_set_vlan_name v n : keeps (set_vlan_name v n).
Proof. do 2 (apply preserves_bind; [auto with stateful|intros _]). keeps_same. Qed.

Lemma keeps_port_changed id : keeps (@modify Device DeviceError (port_changed id)).
Proof. apply preserves_modify. apply port_changed_ok. Qed.
#[export] Hint Resolve keeps_port_changed : stateful.
Lemma keeps_enable_switchport id : keeps (enable_switchport id).
Proof.
  intros d Hd. unfold enable_switchport. rewrite run_reject. destruct (_ || _) eqn:Hs; [done|].
  apply orb_false_iff in Hs as [Hsw%negb_false_iff Hb%negb_false_iff].
  unfold bundle_or_port in Hb. destruct (interfaces d !! id) as [i|] eqn:Hi; [|done]. cbn in Hb.
  assert (is_Some (configs d !! id)) as [c Hc] by (apply (ok_dom _ Hd); by eexists).
  rewrite run_bind, (run_update _ _ c) by done. cbn [snd modify].
  eapply device_ok_kept; [apply sync_kept|]; (eapply device_ok_kept; [by apply kept_same|]);
  (eapply device_ok_kept; [|exact Hd]; eapply (kept_insert d _ id c _ Hc); [|done..]);
  (split; [done|]; split; [done|]; split; [auto|]; intros i' Hi' [O1 O2 O3 Og Op Os Om]; rewrite Hi in Hi'; injection Hi' as <-;
   constructor; try done; intros _; split; [done|]; split; [|done];
   apply orb_true_iff in Hb as [?|?%bool_decide_eq_true]; auto).
Qed.
Lemma keeps_disable_switchport id : keeps (disable_switchport id).
Proof.
  apply preserves_bind; [auto with stateful|]. intros _. apply preserves_bind; [|intros _; apply keeps_port_changed].
  apply keeps_update. intros d c _ _. apply config_kept_switchport. by intros [? ?].
Qed.
Lemma keeps_switchport_changed id f : keeps (switchport_mut id f;; modify (port_changed id)).
Proof. apply preserves_bind; auto with stateful. Qed.
Lemma keeps_set_switchport_mode id m : keeps (set_switchport_mode id m).
Proof.
  apply preserves_bind; [auto with stateful|]. intros b. apply preserves_bind; [|intros _; apply keeps_switchport_changed].
  destruct b; [apply keeps_enable_switchport|auto with stateful].
Qed.
(** A tag is taken only when no other subinterface of the parent has it. *)
Lemma keeps_set_dot1q id v n : keeps (set_dot1q id v n).
Proof.
  intros d Hd. unfold set_dot1q. rewrite run_require. destruct (configs d !! id) as [c|] eqn:Hc; [|done].
  cbn [mbind option_bind]. destruct (parent c) as [p|] eqn:Hp; [|done].
  rewrite run_reject. destruct (encapsulation_taken d id p v n) eqn:Ht; [done|].
  rewrite run_bind, (run_update _ _ c) by done. cbn [snd modify].
  apply (device_ok_kept (set_configs (insert id (c <| dot1q := Some {| dot1q_vlan := v; dot1q_native := n |} |>)) d));
    [apply kept_same; try done; apply map_filter_subseteq|].
  destruct (device_ok_config _ _ _ Hd Hc) as (i & Hi & Hok). pose proof Hok as [O1 O2 O3 Og Op Os Om].
  apply (device_ok_replace d id i c); try done.
  intros b j cb Hne Hb Hcb. destruct (ok_pairs _ Hd id b i j c cb) as [_ Hgroups]; try done. split; [|exact Hgroups].
  cbn. rewrite Hp. intros q ta tb [= <-] Hpb [= <-] Htb. cbn.
  unfold encapsulation_taken in Ht. destruct ((dot1q_vlan tb =? v) || (dot1q_native tb && n)) eqn:E.
  - rewrite (proj2 (existsb_exists _ _)) in Ht; [done|]. exists (b, cb). split; [by apply list_elem_of_In, elem_of_entries|].
    cbn. rewrite Hpb, Htb. cbn. rewrite E, bool_decide_true by done. lia.
  - apply orb_false_iff in E as [? ?]. split; [lia|]. by rewrite andb_comm.
Qed.
Lemma keeps_clear_channel_group id : keeps (clear_channel_group id).
Proof.
  apply preserves_bind; [|intros _; keeps_same]. apply keeps_update. intros d c _ _.
  split; [done|]. split; [done|]. split; [auto|]. intros i _ [O1 O2 O3 Og Op Os Om]. constructor; try done. by intros [? ?].
Qed.

(** ** The operations of the management interface *)

(** One call on a device; the ones that create an interface return its number. *)
Inductive operation :=
  | SetIpRouting (enabled : bool) | SetHostname (hostname : bytes) | SaveConfig
  | AddPhysicalInterface (name : bytes) | AddPort (name : bytes) (media : InterfaceMedia) | EnsureInterface (name : bytes)
  | SetDescription (id : InterfaceId) (text : bytes) | ClearDescription (id : InterfaceId)
  | SetIpv4 (id : InterfaceId) (ip : Ipv4InterfaceConfig) | ClearIpv4 (id : InterfaceId)
  | SetAdminState (id : InterfaceId) (state : AdminState) | SetLinkState (id : InterfaceId) (state : LinkState)
  | RefreshSviStates
  | CreateVlan (vlan : VlanId) | RemoveVlan (vlan : VlanId) | SetVlanName (vlan : VlanId) (name : bytes)
  | EnableSwitchport (id : InterfaceId) | DisableSwitchport (id : InterfaceId)
  | SetSwitchportMode (id : InterfaceId) (mode : SwitchportMode) | SetAccessVlan (id : InterfaceId) (vlan : VlanId)
  | SetTrunkAllowedVlans (id : InterfaceId) (allowed : gset VlanId) | SetNativeVlan (id : InterfaceId) (vlan : VlanId)
  | SetDot1q (id : InterfaceId) (vlan : VlanId) (native : bool)
  | SetChannelGroup (id : InterfaceId) (number : Z) (mode : ChannelMode) | ClearChannelGroup (id : InterfaceId).

Definition returning (m : op InterfaceId) : op (option InterfaceId) := id ← m; mret (Some id).
Definition silent (m : op ()) : op (option InterfaceId) := m;; mret None.
Definition run_operation (o : operation) : op (option InterfaceId) :=
  match o with
  | SetIpRouting b => silent (set_ip_routing b)
  | SetHostname h => silent (set_hostname h)
  | SaveConfig => silent (modify save_config)
  | AddPhysicalInterface n => returning (add_physical_interface n)
  | AddPort n m => returning (add_port n m)
  | EnsureInterface n => returning (ensure_interface n)
  | SetDescription i t => silent (set_description i t)
  | ClearDescription i => silent (clear_description i)
  | SetIpv4 i ip => silent (set_ipv4 i ip)
  | ClearIpv4 i => silent (clear_ipv4 i)
  | SetAdminState i s => silent (set_admin_state i s)
  | SetLinkState i s => silent (set_link_state i s)
  | RefreshSviStates => silent refresh_svi_states_checked
  | CreateVlan v => silent (create_vlan v)
  | RemoveVlan v => silent (remove_vlan v)
  | SetVlanName v n => silent (set_vlan_name v n)
  | EnableSwitchport i => silent (enable_switchport i)
  | DisableSwitchport i => silent (disable_switchport i)
  | SetSwitchportMode i m => silent (set_switchport_mode i m)
  | SetAccessVlan i v => silent (set_access_vlan i v)
  | SetTrunkAllowedVlans i a => silent (set_trunk_allowed_vlans i a)
  | SetNativeVlan i v => silent (set_native_vlan i v)
  | SetDot1q i v n => silent (set_dot1q i v n)
  | SetChannelGroup i n m => silent (set_channel_group i n m)
  | ClearChannelGroup i => silent (clear_channel_group i)
  end.
Definition run_operations (os : list operation) (d : Device) : Device :=
  foldl (λ d o, (run_operation o d).2) d os.

#[export] Hint Resolve keeps_set_ip_routing keeps_set_hostname keeps_add_physical keeps_add_port keeps_ensure
  keeps_set_description keeps_clear_description keeps_set_ipv4 keeps_clear_ipv4 keeps_set_admin_state
  keeps_set_link_state keeps_create_vlan keeps_remove_vlan keeps_set_vlan_name keeps_enable_switchport
  keeps_disable_switchport keeps_set_switchport_mode keeps_switchport_changed keeps_set_dot1q
  keeps_set_channel_group keeps_clear_channel_group : stateful.

Lemma keeps_silent m : keeps m → keeps (silent m).
Proof. intros H. apply preserves_bind; auto with stateful. Qed.
Lemma keeps_returning m : keeps m → keeps (returning m).
Proof. intros H. apply preserves_bind; auto with stateful. Qed.
Lemma keeps_operation o : keeps (run_operation o).
Proof.
  destruct o; first [apply keeps_silent | apply keeps_returning];
    first [apply keeps_switchport_changed | solve [eauto with stateful]
          | apply preserves_modify, save_config_ok | apply keeps_refresh_svi_states].
Qed.

(** *** The operations that reject leave the device as it was *)

(** On a well-formed device: no panic, and an error changes nothing. *)
Definition settled {A} (d : Device) (r : res DeviceError A * Device) : Prop :=
  match r.1 with Ok _ => True | Err _ => r.2 = d | Panic => False end.
Definition atomic_ok {A} (m : op A) : Prop := ∀ d, device_ok d → settled d (m d).
Lemma atomic_atomic_ok {A} (m : op A) : atomic m → panic_free m → atomic_ok m.
Proof. intros H Hp d _. specialize (H d). specialize (Hp d). unfold settled. destruct (m d).1 as [a|e|]; [done|by apply (H e)|done]. Qed.
Lemma atomic_update id f : atomic (update_config id f).
Proof. intros d e. unfold update_config. by destruct (configs d !! id). Qed.
Lemma atomic_switchport_mut id f : atomic (switchport_mut id f).
Proof. intros d e. unfold switchport_mut. destruct (configs d !! id) as [c|]; [|done]. by destruct (switchport c). Qed.
Lemma atomic_insert n k m : atomic (insert_interface n k m).
Proof. intros d e. unfold insert_interface. destruct (find_interface d n); [done|]. by destruct (_ <? _). Qed.
#[export] Hint Resolve atomic_update atomic_switchport_mut atomic_insert : stateful.
Lemma panic_free_update id f : panic_free (update_config id f).
Proof. intros d. unfold update_config. by destruct (configs d !! id). Qed.
Lemma panic_free_switchport_mut id f : panic_free (switchport_mut id f).
Proof. intros d. unfold switchport_mut. destruct (configs d !! id) as [c|]; [|done]. by destruct (switchport c). Qed.
Lemma panic_free_insert n k m : panic_free (insert_interface n k m).
Proof. intros d. unfold insert_interface. destruct (find_interface d n); [done|]. by destruct (_ <? _). Qed.
Lemma validate_hostname_safe h : validate_hostname h ≠ Panic.
Proof. unfold validate_hostname. by repeat case_match. Qed.
#[export] Hint Resolve panic_free_update panic_free_switchport_mut panic_free_insert validate_hostname_safe : stateful.

Lemma atomic_add_physical n : atomic (add_physical_interface n).
Proof. unfold add_physical_interface. atomic. Qed.
Lemma canonical_interface_safe n : canonical_interface n ≠ Panic.
Proof. apply rounds_canonical. Qed.
Lemma panic_free_add_physical n : panic_free (add_physical_interface n).
Proof.
  intros d. unfold add_physical_interface. rewrite run_lift. pose proof (canonical_interface_safe n).
  destruct (canonical_interface n) as [[c k]|e|]; [|done..]. rewrite run_reject. destruct (negb _) eqn:Hk; [done|].
  rewrite run_lift. destruct k; try done; apply panic_free_insert.
Qed.
Lemma panic_free_add_port n m : panic_free (add_port n m).
Proof.
  apply panic_free_bind; [auto using canonical_interface_safe with stateful|]. intros [c k]. eauto with stateful.
Qed.
Lemma atomic_add_port n m : atomic (add_port n m).
Proof. unfold add_port. atomic. Qed.
Lemma atomic_enable_switchport id : atomic (enable_switchport id).
Proof. unfold enable_switchport. atomic. Qed.
Lemma panic_free_enable_switchport id : panic_free (enable_switchport id).
Proof. unfold enable_switchport. eauto 8 with stateful. Qed.
Lemma panic_free_set_switchport_mode id m : panic_free (set_switchport_mode id m).
Proof.
  unfold set_switchport_mode. apply panic_free_bind; [auto with stateful|]. intros b. apply panic_free_bind; [|eauto 8 with stateful].
  destruct b; [apply panic_free_enable_switchport|auto with stateful].
Qed.
Lemma atomic_set_dot1q id v n : atomic (set_dot1q id v n).
Proof. unfold set_dot1q. atomic. Qed.
Lemma sync_switchport id d c s :
  configs d !! id = Some c → switchport c = Some s →
  ∃ c', configs (sync_channel_switchports id d) !! id = Some c' ∧ switchport c' = Some s.
Proof.
  intros Hc Hs. unfold sync_channel_switchports. rewrite Hc. destruct (port_channel c); [|by exists c].
  rewrite configs_set, lookup_fmap, Hc. cbn. destruct (is_some_and _ _); [|by exists c]. eexists. split; [done|]. by rewrite <-Hs.
Qed.
(** A port that was made a switch port is one. *)
Lemma enable_switchport_on id d d' :
  enable_switchport id d = (Ok (), d') → ∃ c s, configs d' !! id = Some c ∧ switchport c = Some s.
Proof.
  unfold enable_switchport. rewrite run_reject. destruct (_ || _); [done|]. rewrite run_bind.
  destruct (configs d !! id) as [c|] eqn:Hc; [|unfold update_config; by rewrite Hc].
  rewrite (run_update _ _ c) by done. intros [= <-].
  edestruct sync_switchport as (c' & Hc' & Hs'); [| |by exists c', (default SwitchportConfig_default (switchport c))].
  - cbn. apply lookup_insert_eq.
  - done.
Qed.
Lemma atomic_set_switchport_mode id m : atomic (set_switchport_mode id m).
Proof.
  intros d e. unfold set_switchport_mode. rewrite run_gets. destruct (_ && _); rewrite run_bind.
  2: { cbn [mret stateful_mret]. rewrite run_bind. unfold switchport_mut. destruct (configs d !! id) as [c|]; [|done]. by destruct (switchport c). }
  destruct (enable_switchport id d) as [[[]|e'|] d'] eqn:He; [|intros _|done].
  - destruct (enable_switchport_on _ _ _ He) as (c & s & Hc & Hs). rewrite run_bind. unfold switchport_mut. by rewrite Hc, Hs.
  - pose proof (atomic_enable_switchport id d e') as H. rewrite He in H. by apply H.
Qed.
Lemma atomic_set_link_state id st : atomic (set_link_state id st).
Proof.
  intros d e. unfold set_link_state. rewrite run_modify, run_require.
  assert (Hi : ∀ b : bool, interfaces (if b then reset_ipv6_interface id d else d) = interfaces d) by by intros [].
  rewrite Hi. destruct (interfaces d !! id) as [i|]; [done|]. cbn [is_some_and]. by rewrite andb_false_r.
Qed.
Lemma atomic_ensure n : atomic_ok (ensure_interface n).
Proof.
  intros d Hd. unfold ensure_interface. rewrite run_lift.
  destruct (canonical_interface n) as [[c k]|e'|] eqn:Hc; [|done|by destruct (canonical_interface_safe n)]. apply canonical_interface_ok in Hc.
  rewrite run_gets. destruct (find_interface d c) as [id|] eqn:Hf; [done|].
  rewrite run_reject. destruct (is_physical k) eqn:Hk; [done|].
  destruct k; try done; try (apply (atomic_atomic_ok _ (atomic_insert _ _ _) (panic_free_insert _ _ _)), Hd).
  - destruct (create_subinterface_new d c Hd Hc Hf) as [[e' He]|(p & ip & Hp & Hk' & Hmax & He)]; by rewrite He.
  - destruct (canonical_port_channel _ Hc) as (v & -> & Hv). rewrite create_port_channel_new by done. cbv zeta.
    destruct (_ && _); [done|]. by destruct (U16_MAX <? _).
Qed.

(** Joining a bundle checks everything before it creates the bundle. *)
Lemma atomic_set_channel_group id number mode : atomic_ok (set_channel_group id number mode).
Proof.
  intros d Hd. unfold set_channel_group. rewrite run_reject. destruct (_ || _ || _) eqn:C1; [done|].
  apply orb_false_iff in C1 as [[C1 C2]%orb_false_iff _]. apply negb_false_iff in C2.
  destruct (interfaces d !! id) as [i|] eqn:Hi; [|done]. cbn in C2.
  assert (is_Some (configs d !! id)) as [c Hc] by (apply (ok_dom _ Hd); by eexists).
  rewrite run_try_gets, (index_Some _ _ c), run_reject by done. destruct (_ || _); [done|].
  destruct (members_checked (E:=DeviceError) d id i number mode Hd Hi) as (full & Hfull & _). rewrite (run_try_reject _ _ _ _ full) by exact Hfull.
  destruct full; [done|]. rewrite run_gets.
  destruct (find_interface d (port_channel_name number)) as [l|] eqn:Hf.
  - destruct (find_interface_kind d _ PortChannel l Hd (canonical_bundle_name number ltac:(lia)) Hf)
      as (il & lc & Hil & Hlc & _).
    erewrite run_try_reject by by rewrite (index_Some _ _ lc), bind_Ok by done.
    destruct (negb (bool_decide _)); [done|]. rewrite run_bind. cbn [mret stateful_mret].
    erewrite run_try_reject by by rewrite (index_Some _ _ lc), bind_Ok by done.
    destruct (negb (mtu lc =? mtu c)); [done|]. rewrite run_bind. by rewrite (run_update _ _ c) by done.
  - rewrite (run_try_reject _ _ _ _ false) by done. rewrite run_bind, run_bind, create_port_channel_new by (done || lia).
    cbv zeta. destruct (negb (supports_routing d) && _); [done|]. destruct (U16_MAX <? _); [done|]. cbv iota beta.
    rewrite run_bind. erewrite run_update by (rewrite configs_set; apply lookup_insert_eq). rewrite set_configs_twice.
    cbn [mret stateful_mret]. destruct (next_interface_fresh d Hd) as [Hfresh Hlow].
    assert (Hne : id ≠ next_interface d) by congruence.
    rewrite (run_try_reject _ _ _ _ false).
    2: { erewrite index_Some by (rewrite configs_set; apply lookup_insert_eq). rewrite bind_Ok. f_equal.
         apply negb_false_iff, Z.eqb_refl. }
    rewrite run_bind. by erewrite run_update by (rewrite configs_set, lookup_insert_ne by done; exact Hc).
Qed.

Lemma atomic_refresh_svi_states : atomic_ok refresh_svi_states_checked.
Proof. intros d Hd. by rewrite refresh_svi_states_ok_eq. Qed.

Lemma atomic_silent m : atomic_ok m → atomic_ok (silent m).
Proof.
  intros H d Hd. specialize (H d Hd). unfold settled, silent in *. rewrite run_bind.
  by destruct (m d) as [[[]|e'|] d'].
Qed.
Lemma atomic_returning m : atomic_ok m → atomic_ok (returning m).
Proof.
  intros H d Hd. specialize (H d Hd). unfold settled, returning in *. rewrite run_bind.
  by destruct (m d) as [[a|e'|] d'].
Qed.
#[export] Hint Resolve atomic_add_physical atomic_add_port atomic_enable_switchport atomic_set_dot1q
  atomic_set_switchport_mode atomic_set_link_state panic_free_add_physical panic_free_add_port
  panic_free_enable_switchport panic_free_set_switchport_mode : stateful.
Create HintDb operations.
#[export] Hint Unfold set_ip_routing set_hostname set_description clear_description set_ipv4 clear_ipv4 set_admin_state
  create_vlan remove_vlan set_vlan_name disable_switchport set_access_vlan set_trunk_allowed_vlans set_native_vlan
  clear_channel_group set_link_state set_dot1q : operations.
Lemma atomic_operation o : atomic_ok (run_operation o).
Proof.
  destruct o; first [apply atomic_silent | apply atomic_returning];
    first [ apply atomic_ensure | apply atomic_set_channel_group | apply atomic_refresh_svi_states
          | apply atomic_atomic_ok; [ first [solve [eauto with stateful] | solve [autounfold with operations; atomic]]
                                    | autounfold with operations; eauto 12 with stateful ] ].
Qed.

Lemma device_new_ok n h t d : device_new n h t = Ok d → device_ok d.
Proof.
  unfold device_new. intros H. apply bind_Ok_inv in H as (_ & _ & H). destruct (_ <? _); [done|].
  apply Ok_inj in H. subst d.
  constructor; cbn; intros *; unfold configs; cbn; by rewrite ?lookup_empty.
Qed.

Lemma run_operations_ok os d : device_ok d → device_ok (run_operations os d).
Proof.
  unfold run_operations. revert d. induction os as [|o os IH]; intros d Hd; [done|].
  apply IH. by apply keeps_operation.
Qed.

(** ** Properties *)

(** C4: a call on a well-formed device never panics (no configuration that is
    indexed is missing, no SVI has a name that is no VLAN, no question whether
    an interface is up asks without end), and a call that is refused
    with an error leaves the device as it was, also where the error is found
    after the first change of a call that makes several. *)
Theorem rejected_unchanged o d :
  device_ok d →
  match run_operation o d with
  | (Ok _, _) => True
  | (Err _, d') => d' = d
  | (Panic, _) => False
  end.
Proof. intros Hd. pose proof (atomic_operation o d Hd) as H. unfold settled in H. by destruct (run_operation o d) as [[| |] ?]. Qed.

(** Two rounds are enough on every device the operations can make:
    [protocol_up] satisfies the recursive equation of the source, in which a
    port channel is up when it has active members, a subinterface when it is
    encapsulated and its routed parent is up, and LACP asks the same question
    of the members. *)
Theorem protocol_up_equation number hostname type d os id :
  device_new number hostname type = Ok d →
  protocol_up (run_operations os d) id
  = protocol_up_with (protocol_up (run_operations os d)) (run_operations os d) id.
Proof. intros Hd%device_new_ok. by apply protocol_up_fix, run_operations_ok. Qed.

(** A layer-3 switch with two ports in a bundle, an SVI and a routed port. *)
Definition sample_setup : list operation :=
  [AddPhysicalInterface (text "gi0/1"); AddPhysicalInterface (text "gi0/2"); AddPhysicalInterface (text "gi0/3");
   CreateVlan 10; EnsureInterface (text "vlan 10"); SetChannelGroup 1 5 ModeOn; SetChannelGroup 2 5 ModeOn;
   SetAccessVlan 5 10; DisableSwitchport 3; SetIpv4 3 {| address := 0x0a000001; prefix_len := 24 |}].
Definition sample_run : res DeviceError Device :=
  d ← device_new 7 (text "core") Layer3Switch; Ok (run_operations sample_setup d).

Lemma sample_device : ∃ d, sample_run = Ok d ∧ device_ok d.
Proof.
  unfold sample_run. destruct (device_new 7 (text "core") Layer3Switch) as [d|e|] eqn:E; [|by vm_compute in E..].
  exists (run_operations sample_setup d). split; [done|]. by apply run_operations_ok, (device_new_ok _ _ _ _ E).
Qed.
(** A member of a bundle takes no address of its own. *)
Lemma rejected_unchanged_witness :
  ∃ d, sample_run = Ok d
    ∧ run_operation (SetIpv4 1 {| address := 0x0a000001; prefix_len := 24 |}) d = (Err InvalidChannel, d).
Proof.
  destruct sample_device as (d & Hd & Hok). exists d. split; [done|].
  pose proof (rejected_unchanged (SetIpv4 1 {| address := 0x0a000001; prefix_len := 24 |}) d Hok) as H.
  assert (Hr : (d ← sample_run; (run_operation (SetIpv4 1 {| address := 0x0a000001; prefix_len := 24 |}) d).1) = Err InvalidChannel)
    by by vm_compute.
  rewrite Hd, bind_Ok in Hr. destruct (run_operation _ d) as [[|e|] d']; [done| |done]. cbn in Hr. injection Hr as ->. by rewrite H.
Defined.
Lemma protocol_up_equation_witness :
  ∃ d, device_new 7 (text "core") Layer3Switch = Ok d
    ∧ protocol_up (run_operations sample_setup d) 5
      = protocol_up_with (protocol_up (run_operations sample_setup d)) (run_operations sample_setup d) 5.
Proof.
  destruct (device_new 7 (text "core") Layer3Switch) as [d|e|] eqn:E; [|by vm_compute in E..].
  exists d. split; [done|]. by apply (protocol_up_equation 7 (text "core") Layer3Switch).
Defined.
