(* ===== verification/AccessControl.v ===== *)
(** The access lists of a device: their configuration, their evaluation on a
    packet, and its counters (src/crates/rios-device/src/acl.rs and
    named_acl.rs).

    The program keeps numbered standard lists in two ways: as a list of
    entries, and, once the list was opened by name, as a sequenced list.
    [promotion_preserves] says that going from one to the other changes no
    decision on any packet; [first_rule_decides] that a sequenced list decides
    by its first matching rule, denying what none matches; and [acl_invariant]
    what stays true of the lists, the counters and the log. *)
From S2P Require Import Prelude Wire State Text Decimal EventQueue Ethernet Switching Ipv4 Collections AccessList RoutePolicy Config Inventory Device Interfaces.

Abbreviation lists d := (named_access_lists (running_config d)).
Abbreviation legacy d := (access_lists (running_config d)).
Abbreviation in_order := (entries (λ k : Z, [k])).

(** ** named_acl.rs *)

Definition acl_id (d : Device) (name : bytes) : option AclId :=
  fst <$> find (λ e, bool_decide (acl_name e.2 = name)) (in_order (lists d)).

Definition set_lists (f : gmap AclId AccessList → gmap AclId AccessList) (d : Device) : Device :=
  d <| running_config ::= λ r, r <| named_access_lists ::= f |> |>.
Definition set_legacy (f : gmap AccessListId (list StandardAccessListEntry) → gmap AccessListId (list StandardAccessListEntry))
    (d : Device) : Device :=
  d <| running_config ::= λ r, r <| access_lists ::= f |> |>.

(** A number in a range of its kind, written without leading zeros. *)
Definition number_valid (kind : AclKind) (name : bytes) : bool :=
  match parse U16_MAX name with
  | Some number =>
      match kind with
      | Standard => ((1 <=? number) && (number <=? 99)) || ((1300 <=? number) && (number <=? 1999))
      | Extended => ((100 <=? number) && (number <=? 199)) || ((2000 <=? number) && (number <=? 2699))
      end && bool_decide (name = to_string number)
  | None => false
  end.
Definition acl_name_valid (kind : AclKind) (name : bytes) : bool :=
  negb (bool_decide (name = [])) && (len name <=? 64)
  && forallb (λ b, is_ascii_alphanumeric b || (b =? 95) || (b =? 45)) name
  && (negb (forallb is_ascii_digit name) || number_valid kind name).

(** The rules of a standard list in steps of ten. *)
Definition promoted_entries (old : list StandardAccessListEntry) : gmap Z AclEntry :=
  list_to_map (imap (λ i e, ((Z.of_nat i + 1) * 10, promoted e)) old).
(** The standard list a name takes over, if any. *)
Definition takes_over (d : Device) (kind : AclKind) (name : bytes) : option (AccessListId * list StandardAccessListEntry) :=
  if bool_decide (kind = Standard) then
    number ← parse U8_MAX name;
    old_id ← AccessListId_new number;
    old ← legacy d !! old_id;
    Some (old_id, old)
  else None.
Definition ensure_acl (name : bytes) (kind : AclKind) : op AclId :=
  reject_if (λ d, negb (supports_routing d)) AccessListUnsupported;;
  reject_if (λ _, negb (acl_name_valid kind name)) InvalidAccessList;;
  existing ← gets (λ d, acl_id d name);
  match existing with
  | Some id =>
      list ← try_gets (λ d, match lists d !! id with Some l => Ok l | None => Panic end);
      if bool_decide (acl_kind list = kind) then mret id else fail InvalidAccessList
  | None =>
      reject_if (λ d, 4096 <=? Z.of_nat (size (lists d))) AccessListCapacity;;
      id ← require (λ d, match last_entry (λ k : Z, [k]) (lists d) with
                         | None => Some 1
                         | Some (id, _) => checked_add U32_MAX id 1
                         end) AccessListCapacity;
      old ← gets (λ d, takes_over d kind name);
      modify (λ d, match old with Some (old_id, _) => set_legacy (delete old_id) d | None => d end);;
      modify (set_lists (insert id {| acl_name := name; acl_kind := kind;
        acl_entries := match old with Some (_, old) => promoted_entries old | None => ∅ end |}));;
      mret id
  end.

(** What the kind of a list allows in its entries. *)
Definition range_valid (p : PortMatch) : bool := match p with Range a b => a <=? b | _ => true end.
Definition entry_valid (kind : AclKind) (e : AclEntry) : bool :=
  match e with
  | Remark text => (len text <=? 240) && negb (existsb is_control text)
  | Rule r =>
      range_valid (rule_source_port r) && range_valid (rule_destination_port r)
      && (match rule_protocol r with AclTcp | AclUdp => true | _ => false end
          || (bool_decide (rule_source_port r = AnyPort) && bool_decide (rule_destination_port r = AnyPort)))
      && (bool_decide (kind = Extended)
          || (bool_decide (rule_protocol r = AclIp) && bool_decide (rule_destination r = ANY)))
  end.
Definition forget_counters (id : AclId) (sequence : Z) (d : Device) : Device :=
  d <| acl_matches ::= delete (id, sequence) |> <| acl_logs ::= delete (id, sequence) |>.
Definition next_sequence (l : AccessList) : Z :=
  match last_entry (λ k : Z, [k]) (acl_entries l) with None => 10 | Some (last, _) => sat_add U32_MAX last 10 end.
Definition set_acl_entry (id : AclId) (sequence : option Z) (entry : AclEntry) : op () :=
  list ← require (λ d, lists d !! id) MissingAccessList;
  let sequence := default (next_sequence list) sequence in
  reject_if (λ _, (sequence =? 0) || (sequence =? U32_MAX)) InvalidAccessList;;
  reject_if (λ _, (4096 <=? Z.of_nat (size (acl_entries list)))
                  && negb (bool_decide (is_Some (acl_entries list !! sequence)))) AccessListCapacity;;
  reject_if (λ _, negb (entry_valid (acl_kind list) entry)) InvalidAccessList;;
  modify (λ d, forget_counters id sequence
                 (set_lists (insert id (list <| acl_entries ::= insert sequence entry |>)) d)).
Definition remove_acl_entry (id : AclId) (sequence : Z) : op () :=
  list ← require (λ d, lists d !! id) MissingAccessList;
  modify (λ d, forget_counters id sequence (set_lists (insert id (list <| acl_entries ::= delete sequence |>)) d)).
Definition set_named_access_group (interface : InterfaceId) (name : bytes) (direction : AccessListDirection) : op () :=
  id ← require (λ d, acl_id d name) MissingAccessList;
  update_config interface (λ c,
    match direction with
    | DirectionIn => c <| named_access_group_in := Some id |> <| access_group_in := None |>
    | DirectionOut => c <| named_access_group_out := Some id |> <| access_group_out := None |>
    end).

Definition acl_match_count (d : Device) (id : AclId) (sequence : Z) : Z := default 0 (acl_matches d !! (id, sequence)).
Definition take_acl_logs (d : Device) : list AclLog * Device := (acl_log_records d, d <| acl_log_records := [] |>).

(** The rule that decides a packet, and what it decides. *)
Definition deciding_rule (l : AccessList) (packet : Ipv4Packet) : option (Z * AclEntry) :=
  find (λ e, bool_decide (is_Some (evaluate e.2 packet))) (in_order (acl_entries l)).
Definition logs (e : AclEntry) : bool := match e with Rule r => log r | Remark _ => false end.
Definition acl_found (d : Device) (id : AclId) (packet : Ipv4Packet) : option (Z * AccessListAction * bool) :=
  l ← lists d !! id;
  '(sequence, e) ← deciding_rule l packet;
  action ← evaluate e packet;
  Some (sequence, action, logs e).
Definition count {K} `{Countable K} (k : K) (m : gmap K Z) : gmap K Z := <[k := sat_add U64_MAX (default 0 (m !! k)) 1]> m.
(** A full log loses its oldest record. *)
Definition push_log (record : AclLog) (records : list AclLog) : list AclLog :=
  (if 256 <=? len records then drop 1 records else records) ++ [record].
Definition evaluate_named_acl (id : AclId) (packet : Ipv4Packet) (d : Device) : bool * Device :=
  match acl_found d id packet with
  | None => (false, d)
  | Some (sequence, action, log) =>
      let d := d <| acl_matches ::= count (id, sequence) |> in
      let d := if log : bool
               then d <| acl_log_records ::= push_log
                           {| log_list := id; log_sequence := sequence; log_action := action;
                              log_source := source packet; log_destination := destination packet;
                              log_protocol := IpProtocol_to_u8 (protocol packet) |} |>
                      <| acl_logs ::= count (id, sequence) |>
               else d in
      (bool_decide (action = Permit), d)
  end.

(** ** acl.rs *)

Definition add_access_list_entry (id : AccessListId) (entry : StandardAccessListEntry) : op () :=
  reject_if (λ d, negb (supports_routing d)) AccessListUnsupported;;
  named ← gets (λ d, acl_id d (to_string id));
  match named with
  | Some named => set_acl_entry named None (promoted entry)
  | None =>
      reject_if (λ d, is_some_and (legacy d !! id) (λ l, 4096 <=? len l)) AccessListCapacity;;
      modify (λ d, set_legacy (insert id (default [] (legacy d !! id) ++ [entry])) d)
  end.
Definition set_access_group (interface : InterfaceId) (id : AccessListId) (direction : AccessListDirection) : op () :=
  reject_if (λ d, negb (supports_routing d)) AccessListUnsupported;;
  named ← gets (λ d, acl_id d (to_string id));
  match named with
  | Some _ => set_named_access_group interface (to_string id) direction
  | None =>
      reject_if (λ d, negb (bool_decide (is_Some (legacy d !! id)))) MissingAccessList;;
      update_config interface (λ c,
        match direction with
        | DirectionIn => c <| access_group_in := Some id |> <| named_access_group_in := None |>
        | DirectionOut => c <| access_group_out := Some id |> <| named_access_group_out := None |>
        end)
  end.

(** The entry of a numbered list that matches first, with its index. *)
Definition legacy_match (l : list StandardAccessListEntry) (source : Ipv4Addr) : option (Z * StandardAccessListEntry) :=
  find (λ e, standard_matches e.2 source) (imap (λ i e, (Z.of_nat i, e)) l).
Definition named_group (direction : AccessListDirection) (c : InterfaceConfig) : option AclId :=
  match direction with DirectionIn => named_access_group_in c | DirectionOut => named_access_group_out c end.
Definition numbered_group (direction : AccessListDirection) (c : InterfaceConfig) : option AccessListId :=
  match direction with DirectionIn => access_group_in c | DirectionOut => access_group_out c end.
Definition permits_ipv4 (interface : InterfaceId) (direction : AccessListDirection) (packet : Ipv4Packet)
    (d : Device) : bool * Device :=
  match configs d !! interface with
  | None => (false, d)
  | Some c =>
      match named_group direction c with
      | Some id => evaluate_named_acl id packet d
      | None =>
          match numbered_group direction c with
          | None => (true, d)
          | Some id =>
              match acl_id d (to_string id) with
              | Some named => evaluate_named_acl named packet d
              | None =>
                  match legacy d !! id ≫= λ l, legacy_match l (source packet) with
                  | Some (index, entry) =>
                      (bool_decide (standard_action entry = Permit), d <| legacy_acl_matches ::= count (id, index) |>)
                  | None => (false, d)
                  end
              end
          end
      end
  end.
(** The packet a source address stands for. *)
Definition probe (source : Ipv4Addr) : Ipv4Packet :=
  {| dscp_ecn := 0; source := source; destination := 0; ttl := 64; protocol := OtherProtocol 0; payload := [] |}.
Definition access_list_permits (d : Device) (id : AccessListId) (source : Ipv4Addr) : bool :=
  match acl_id d (to_string id) with
  | Some named => is_some_and (acl_found d named (probe source)) (λ f, bool_decide (f.1.2 = Permit))
  | None =>
      match legacy d !! id ≫= λ l, find (λ e, standard_matches e source) l with
      | Some entry => bool_decide (standard_action entry = Permit)
      | None => false
      end
  end.

(** ** The calls that change the lists *)

Inductive acl_operation :=
  | EnsureAcl (name : bytes) (kind : AclKind)
  | SetAclEntry (id : AclId) (sequence : option Z) (entry : AclEntry)
  | RemoveAclEntry (id : AclId) (sequence : Z)
  | AddAccessListEntry (id : AccessListId) (entry : StandardAccessListEntry)
  | SetAccessGroup (interface : InterfaceId) (id : AccessListId) (direction : AccessListDirection)
  | SetNamedAccessGroup (interface : InterfaceId) (name : bytes) (direction : AccessListDirection)
  | Evaluate (interface : InterfaceId) (direction : AccessListDirection) (packet : Ipv4Packet)
  | TakeAclLogs.
(** The ranges of the types of the arguments. *)
Definition acl_typed (o : acl_operation) : Prop :=
  match o with
  | SetAclEntry _ (Some s) _ => u32 s
  | AddAccessListEntry id _ | SetAccessGroup _ id _ => 1 ≤ id ≤ 99
  | _ => True
  end.
Definition run_acl (o : acl_operation) : op () :=
  match o with
  | EnsureAcl n k => ensure_acl n k;; mret ()
  | SetAclEntry i s e => set_acl_entry i s e
  | RemoveAclEntry i s => remove_acl_entry i s
  | AddAccessListEntry i e => add_access_list_entry i e
  | SetAccessGroup i l dir => set_access_group i l dir
  | SetNamedAccessGroup i n dir => set_named_access_group i n dir
  | Evaluate i dir p => modify (λ d, (permits_ipv4 i dir p d).2)
  | TakeAclLogs => modify (λ d, (take_acl_logs d).2)
  end.

(** What the calls keep. *)
Definition list_ok (l : AccessList) : Prop :=
  Z.of_nat (size (acl_entries l)) ≤ 4096
  ∧ ∀ s e, acl_entries l !! s = Some e → 0 < s < U32_MAX ∧ entry_valid (acl_kind l) e = true.
Record acl_ok (d : Device) : Prop := {
  acl_names : ∀ a b la lb, lists d !! a = Some la → lists d !! b = Some lb → acl_name la = acl_name lb → a = b;
  acl_size : Z.of_nat (size (lists d)) ≤ 4096;
  acl_list : ∀ id l, lists d !! id = Some l → 1 ≤ id ≤ U32_MAX ∧ list_ok l;
  acl_legacy : ∀ n l, legacy d !! n = Some l →
    1 ≤ n ≤ 99 ∧ len l ≤ 4096 ∧ ∀ id nl, lists d !! id = Some nl → acl_name nl ≠ to_string n;
  acl_groups : ∀ i c dir id, configs d !! i = Some c → named_group dir c = Some id → is_Some (lists d !! id);
  acl_log : len (acl_log_records d) ≤ 256
}.

(** ** Helper lemmas *)

Lemma acl_id_Some d name id :
  acl_id d name = Some id → ∃ l, lists d !! id = Some l ∧ acl_name l = name.
Proof.
  unfold acl_id. intros H. apply fmap_Some in H as ([k l] & Hf & ->). apply find_entries in Hf as (Hl & Hn & _).
  exists l. split; [done|]. by apply bool_decide_eq_true in Hn.
Qed.
Lemma acl_id_None d name : acl_id d name = None ↔ ∀ id l, lists d !! id = Some l → acl_name l ≠ name.
Proof.
  unfold acl_id. rewrite fmap_None, find_entries_None. split; intros H id l Hl; specialize (H id l Hl); cbn in *.
  - by apply bool_decide_eq_false in H.
  - by apply bool_decide_eq_false.
Qed.
Lemma acl_id_unique d name id l :
  acl_ok d → lists d !! id = Some l → acl_name l = name → acl_id d name = Some id.
Proof.
  intros Hd Hl Hn. destruct (acl_id d name) as [id'|] eqn:E.
  - apply acl_id_Some in E as (l' & Hl' & Hn'). f_equal. eapply (acl_names _ Hd); [exact Hl'|exact Hl|congruence].
  - rewrite acl_id_None in E. by destruct (E id l Hl).
Qed.

Lemma size_insert_bound {V} (m : gmap Z V) k v n :
  Z.of_nat (size m) ≤ n → ((n <=? Z.of_nat (size m)) && negb (bool_decide (is_Some (m !! k))) = false) →
  Z.of_nat (size (<[k := v]> m)) ≤ n.
Proof.
  intros Hm H. rewrite map_size_insert. destruct (m !! k) as [x|] eqn:E; [done|].
  rewrite (bool_decide_false (is_Some None)) in H by (by intros [? ?]). cbn. lia.
Qed.

(** Changing one list of a device, and its counters. *)
Lemma acl_ok_list d d' id l l' :
  acl_ok d → lists d !! id = Some l → acl_name l' = acl_name l → list_ok l' →
  lists d' = <[id := l']> (lists d) → legacy d' = legacy d → configs d' = configs d →
  acl_log_records d' = acl_log_records d → acl_ok d'.
Proof.
  intros [On Os Ol Og Oc Oo] Hl Hname Hl' E1 E2 E3 E4.
  assert (Hn : ∀ x lx, lists d' !! x = Some lx → ∃ l0, lists d !! x = Some l0 ∧ acl_name lx = acl_name l0).
  { intros x lx. rewrite E1. intros [[<- <-]|[? Hx]]%lookup_insert_Some; [by exists l|by exists lx]. }
  constructor; rewrite ?E2, ?E3, ?E4.
  - intros a b la lb Ha Hb He. destruct (Hn _ _ Ha) as (? & ? & Ea), (Hn _ _ Hb) as (? & ? & Eb).
    rewrite Ea, Eb in He. by eapply On.
  - rewrite E1, map_size_insert, Hl. cbn. lia.
  - intros x lx. rewrite E1. intros [[<- <-]|[? Hx]]%lookup_insert_Some; [|by apply Ol].
    split; [by apply (Ol _ _ Hl)|done].
  - intros n ln Hln. destruct (Og n ln Hln) as (? & ? & Hne). split_and!; [lia..|].
    intros x lx Hx. destruct (Hn x lx Hx) as (l0 & Hl0 & ->). by eapply Hne.
  - intros i c dir x Hc Hx. rewrite E1, lookup_insert_is_Some'. right. by eapply Oc.
  - done.
Qed.
(** Changes that concern no list. *)
Lemma acl_ok_same d d' :
  acl_ok d → lists d' = lists d → legacy d' = legacy d →
  (∀ i c dir id, configs d' !! i = Some c → named_group dir c = Some id → is_Some (lists d !! id)) →
  len (acl_log_records d') ≤ 256 → acl_ok d'.
Proof. intros [On Os Ol Og Oc Oo] E1 E2 E3 E4. constructor; rewrite ?E1, ?E2; done. Qed.

Abbreviation keeps_acl m := (preserves acl_ok m).

Lemma set_acl_entry_ok id s e : match s with Some s => u32 s | None => True end → keeps_acl (set_acl_entry id s e).
Proof.
  intros Hs d Hd. unfold set_acl_entry. rewrite run_require. destruct (lists d !! id) as [l|] eqn:Hl; [|done].
  cbv zeta. set (n := default (next_sequence l) s).
  assert (Hn : 0 ≤ n ≤ U32_MAX).
  { subst n. unfold next_sequence, U32_MAX. destruct s as [s|]; cbn; [lia|].
    destruct (last_entry _ _) as [[k v]|] eqn:E; [|lia].
    apply last_entry_spec in E as [Hk _]. apply (acl_list _ Hd _ _ Hl) in Hk as [? _]. unfold sat_add. lia. }
  rewrite run_reject. destruct (_ || _) eqn:E1; [done|]. rewrite run_reject. destruct (_ && _) eqn:E2; [done|].
  rewrite run_reject. destruct (negb (entry_valid _ _)) eqn:E3; [done|]. cbn [snd modify].
  destruct (acl_list _ Hd _ _ Hl) as [_ [Hsize Hent]].
  apply (acl_ok_list d _ id l (l <| acl_entries ::= insert n e |>)); try done. split.
  - apply size_insert_bound; [done|]. exact E2.
  - cbn. intros x ex [[<- <-]|[? Hx]]%lookup_insert_Some; [|by apply Hent].
    split; [lia|]. by apply negb_false_iff in E3.
Qed.
Lemma remove_acl_entry_ok id s : keeps_acl (remove_acl_entry id s).
Proof.
  intros d Hd. unfold remove_acl_entry. rewrite run_require. destruct (lists d !! id) as [l|] eqn:Hl; [|done]. cbn [snd modify].
  destruct (acl_list _ Hd _ _ Hl) as [_ [Hsize Hent]].
  apply (acl_ok_list d _ id l (l <| acl_entries ::= delete s |>)); try done. split.
  - cbn. rewrite map_size_delete. destruct (acl_entries l !! s); cbn; lia.
  - cbn. intros x ex [_ Hx]%lookup_delete_Some. by apply Hent.
Qed.

Lemma update_config_acl id f :
  (∀ d c dir n, acl_ok d → configs d !! id = Some c → named_group dir (f c) = Some n → is_Some (lists d !! n)) →
  keeps_acl (update_config id f).
Proof.
  intros H d Hd. unfold update_config. destruct (configs d !! id) as [c|] eqn:Hc; [|done]. cbn [snd].
  apply (acl_ok_same d); try done; [|exact (acl_log _ Hd)].
  intros i c' dir n. rewrite configs_set. intros [[<- <-]|[? Hi]]%lookup_insert_Some; [by apply (H d c)|by apply (acl_groups _ Hd i)].
Qed.
Lemma set_named_access_group_ok i n dir : keeps_acl (set_named_access_group i n dir).
Proof.
  intros d Hd. unfold set_named_access_group. rewrite run_require. destruct (acl_id d n) as [id|] eqn:Hid; [|done].
  apply acl_id_Some in Hid as (l & Hl & _). unfold update_config. destruct (configs d !! i) as [c|] eqn:Hc; [|done]. cbn [snd].
  apply (acl_ok_same d); try done; [|exact (acl_log _ Hd)].
  intros x c' dir' m. rewrite configs_set. intros [[<- <-]|[? Hx]]%lookup_insert_Some; [|by apply (acl_groups _ Hd x)].
  pose proof (acl_groups _ Hd _ _ dir' m Hc) as Hg.
  destruct dir, dir'; cbn in *; try done; intros [= <-]; by eexists.
Qed.
Lemma set_access_group_ok i id dir : keeps_acl (set_access_group i id dir).
Proof.
  intros d Hd. unfold set_access_group. rewrite run_reject. destruct (negb _); [done|]. rewrite run_gets.
  destruct (acl_id d (to_string id)); [by apply set_named_access_group_ok|].
  rewrite run_reject. destruct (negb _); [done|]. revert d Hd. apply update_config_acl.
  intros d c dir' m Hd Hc. pose proof (acl_groups _ Hd _ _ dir' m Hc) as Hg. by destruct dir, dir'.
Qed.

Lemma promoted_valid e : entry_valid Standard (promoted e) = true.
Proof. done. Qed.
Lemma add_access_list_entry_ok id e : 1 ≤ id ≤ 99 → keeps_acl (add_access_list_entry id e).
Proof.
  intros Hid d Hd. unfold add_access_list_entry. rewrite run_reject. destruct (negb _); [done|]. rewrite run_gets.
  destruct (acl_id d (to_string id)) eqn:En; [by apply set_acl_entry_ok|].
  rewrite run_reject. destruct (is_some_and _ _) eqn:Hf; [done|]. cbn [snd modify].
  rewrite acl_id_None in En. destruct Hd as [On Os Ol Og Oc Oo]. constructor; try done.
  cbn. intros n l [[<- <-]|[? Hx]]%lookup_insert_Some; [|by apply Og].
  split; [done|]. split; [|by intros; eapply En]. rewrite len_app.
  destruct (legacy d !! id) as [l|] eqn:Hl; cbn in *; unfold len in *; cbn in *; lia.
Qed.

Lemma push_log_bound r l : len l ≤ 256 → len (push_log r l) ≤ 256.
Proof.
  intros H. unfold push_log. rewrite len_app. destruct (256 <=? len l) eqn:E; unfold len in *.
  - rewrite length_drop. cbn. lia.
  - cbn. lia.
Qed.
Lemma evaluate_ok i dir p d : acl_ok d → acl_ok (permits_ipv4 i dir p d).2.
Proof.
  assert (He : ∀ id d, acl_ok d → acl_ok (evaluate_named_acl id p d).2).
  { clear. intros id d Hd. unfold evaluate_named_acl. destruct (acl_found d id p) as [[[s a] l]|]; [|done].
    destruct Hd. destruct l; cbn [snd]; constructor; try done. cbn. by apply push_log_bound. }
  intros Hd. unfold permits_ipv4. destruct (configs d !! i) as [c|]; [|done].
  destruct (named_group dir c); [by apply He|]. destruct (numbered_group dir c); [|done].
  destruct (acl_id d _); [by apply He|]. destruct (legacy d !! _ ≫= _) as [[]|]; [|done].
  apply (acl_ok_same d); try done; [|exact (acl_log _ Hd)]. intros x ? ? ?. by apply (acl_groups _ Hd x).
Qed.

(** *** Creating a list *)

Lemma promoted_NoDup (old : list StandardAccessListEntry) :
  NoDup (imap (λ i e, ((Z.of_nat i + 1) * 10, promoted e)) old).*1.
Proof. apply (imap_NoDup promoted (λ i, (Z.of_nat i + 1) * 10)). lia. Qed.
Lemma promoted_lookup old s e :
  promoted_entries old !! s = Some e ↔ ∃ i x, old !! i = Some x ∧ s = (Z.of_nat i + 1) * 10 ∧ e = promoted x.
Proof.
  unfold promoted_entries. rewrite <-elem_of_list_to_map by apply promoted_NoDup.
  rewrite elem_of_lookup_imap. naive_solver.
Qed.
Lemma promoted_size old : Z.of_nat (size (promoted_entries old)) = len old.
Proof. unfold promoted_entries. by rewrite map_size_list_to_map, length_imap by apply promoted_NoDup. Qed.

(** What [ensure_acl] does when it creates a list. *)
Definition with_list (d : Device) (id : AclId) (name : bytes) (kind : AclKind) : Device :=
  let old := takes_over d kind name in
  set_lists (insert id {| acl_name := name; acl_kind := kind;
                          acl_entries := match old with Some (_, old) => promoted_entries old | None => ∅ end |})
    (match old with Some (old_id, _) => set_legacy (delete old_id) d | None => d end).
Lemma ensure_acl_cases d name kind :
  (∃ r, ensure_acl name kind d = (r, d) ∧ match r with Ok id => acl_id d name = Some id | _ => True end)
  ∨ ∃ id, ensure_acl name kind d = (Ok id, with_list d id name kind)
      ∧ acl_id d name = None ∧ acl_name_valid kind name = true ∧ Z.of_nat (size (lists d)) < 4096
      ∧ match last_entry (λ k : Z, [k]) (lists d) with None => Some 1 | Some (k, _) => checked_add U32_MAX k 1 end = Some id.
Proof.
  unfold ensure_acl. rewrite run_reject. destruct (negb (supports_routing d)); [left; by eexists|].
  rewrite run_reject. destruct (negb (acl_name_valid kind name)) eqn:Hv; [left; by eexists|]. apply negb_false_iff in Hv.
  rewrite run_gets. destruct (acl_id d name) as [id|] eqn:Hid.
  - left. destruct (acl_id_Some _ _ _ Hid) as (l & Hl & _). rewrite run_try_gets, Hl. destruct (bool_decide _); by eexists.
  - rewrite run_reject. destruct (_ <=? _) eqn:Hs; [left; by eexists|]. rewrite run_require.
    destruct (match last_entry _ _ with None => _ | Some _ => _ end) as [id|] eqn:Hn; [|left; by eexists].
    right. exists id. rewrite run_gets, run_modify. split_and!; [|done..|lia|done]. done.
Qed.
Lemma fresh_acl_id d id :
  acl_ok d →
  match last_entry (λ k : Z, [k]) (lists d) with None => Some 1 | Some (k, _) => checked_add U32_MAX k 1 end = Some id →
  1 ≤ id ≤ U32_MAX ∧ lists d !! id = None.
Proof.
  intros Hd. destruct (last_entry _ _) as [[k l]|] eqn:E.
  - apply last_entry_spec in E as [Hk Hmax]. destruct (acl_list _ Hd _ _ Hk) as [? _]. unfold checked_add.
    destruct (k + 1 <=? U32_MAX) eqn:Hle; [|done]. intros [= <-]. split; [lia|].
    apply eq_None_not_Some. intros Hs. apply Hmax, lex_single in Hs. lia.
  - apply last_entry_None in E. intros [= <-]. rewrite E. split; [unfold U32_MAX; lia|]. apply lookup_empty.
Qed.
Lemma takes_over_Some d kind name n old :
  takes_over d kind name = Some (n, old) ↔ kind = Standard ∧ parse U8_MAX name = Some n ∧ 1 ≤ n ≤ 99 ∧ legacy d !! n = Some old.
Proof.
  unfold takes_over. case_bool_decide; [|naive_solver]. destruct (parse U8_MAX name) as [m|]; cbn; [|naive_solver].
  unfold AccessListId_new. destruct (_ && _) eqn:E; cbn; [|split; [done|naive_solver lia]].
  destruct (legacy d !! m) eqn:El; cbn; split; naive_solver lia.
Qed.
(** A name in use for a numbered list is the number's, and is taken over. *)
Lemma number_taken_over d kind n old :
  1 ≤ n ≤ 99 → acl_name_valid kind (to_string n) = true → legacy d !! n = Some old →
  takes_over d kind (to_string n) = Some (n, old).
Proof.
  intros Hn Hv Hold. apply takes_over_Some. assert (Hp : ∀ max, 99 ≤ max → parse max (to_string n) = Some n).
  { intros max Hmax. apply parse_to_string; unfold U64_MAX in *; lia. }
  split_and!; try done; try lia; [|by apply Hp].
  unfold acl_name_valid in Hv. rewrite !andb_true_iff in Hv. destruct Hv as [_ Hv].
  rewrite digits_all in Hv by (apply to_string_digits; lia). cbn in Hv. unfold number_valid in Hv. rewrite Hp in Hv by (unfold U16_MAX; lia).
  destruct kind; [done|]. apply andb_true_iff in Hv as [Hv _]. lia.
Qed.
Lemma legacy_with_list d id name kind :
  legacy (with_list d id name kind)
  = match takes_over d kind name with Some (n, _) => delete n (legacy d) | None => legacy d end.
Proof. unfold with_list. by destruct (takes_over d kind name) as [[n old]|]. Qed.
Lemma lists_with_list d id name kind :
  ∃ l, lists (with_list d id name kind) = <[id := l]> (lists d) ∧ acl_name l = name ∧ acl_kind l = kind
    ∧ acl_entries l = match takes_over d kind name with Some (_, old) => promoted_entries old | None => ∅ end.
Proof. unfold with_list. destruct (takes_over d kind name) as [[n old]|]; by eexists. Qed.
Lemma ensure_acl_ok name kind : keeps_acl (ensure_acl name kind).
Proof.
  intros d Hd. destruct (ensure_acl_cases d name kind) as [(r & E & _)|(id & E & Hnone & Hv & Hsize & Hnext)]; rewrite E; [done|].
  cbn [snd]. destruct (fresh_acl_id d id Hd Hnext) as [Hid Hfresh]. rewrite acl_id_None in Hnone.
  destruct (lists_with_list d id name kind) as (l & El & Hname & Hkind & Hent).
  pose proof Hd as [On Os Ol Og Oc Oo]. constructor; rewrite ?El.
  - intros a b la lb Ha Hb He. apply lookup_insert_Some in Ha as [[<- <-]|[? Ha]], Hb as [[<- <-]|[? Hb]]; try done.
    + destruct (Hnone _ _ Hb). congruence.
    + destruct (Hnone _ _ Ha). congruence.
    + by eapply On.
  - rewrite map_size_insert_None by done. lia.
  - intros x lx [[<- <-]|[? Hx]]%lookup_insert_Some; [|by apply Ol]. split; [done|]. unfold list_ok. rewrite Hent, Hkind.
    destruct (takes_over d kind name) as [[n old]|] eqn:Ht; [|by rewrite map_size_empty].
    apply takes_over_Some in Ht as (-> & _ & _ & Hold). destruct (Og _ _ Hold) as (_ & Hlen & _).
    rewrite promoted_size. split; [done|]. intros s e (i & x & Hx & -> & ->)%promoted_lookup.
    apply lookup_lt_Some in Hx. unfold len, U32_MAX in *. split; [lia|done].
  - intros n ln Hln. rewrite legacy_with_list in Hln.
    assert (legacy d !! n = Some ln ∧ name ≠ to_string n) as [Hold Hne].
    { destruct (takes_over d kind name) as [[m old]|] eqn:Ht.
      - apply lookup_delete_Some in Hln as [Hmn Hln]. split; [done|]. intros ->.
        rewrite (number_taken_over d kind n ln) in Ht; [by injection Ht as <- _|by apply (Og n ln)|done|done].
      - split; [done|]. intros ->. rewrite (number_taken_over d kind n ln) in Ht; [done|by apply (Og n ln)|done|done]. }
    destruct (Og n ln Hold) as (? & ? & Hall). split_and!; [lia..|].
    intros x lx [[<- <-]|[? Hx]]%lookup_insert_Some; [congruence|by eapply Hall].
  - intros i c dir x Hc Hx. rewrite lookup_insert_is_Some'. right. eapply (Oc i c dir); [|exact Hx].
    revert Hc. unfold with_list. by destruct (takes_over d kind name) as [[]|].
  - unfold with_list. by destruct (takes_over d kind name) as [[]|].
Qed.

Lemma keeps_run_acl o : acl_typed o → keeps_acl (run_acl o).
Proof.
  destruct o; cbn [acl_typed run_acl]; intros Ht.
  - apply preserves_bind; [apply ensure_acl_ok|auto with stateful].
  - apply set_acl_entry_ok. by destruct sequence.
  - apply remove_acl_entry_ok.
  - by apply add_access_list_entry_ok.
  - apply set_access_group_ok.
  - apply set_named_access_group_ok.
  - apply preserves_modify. intros d. apply evaluate_ok.
  - apply preserves_modify. by intros d [On Os Ol Og Oc Oo].
Qed.

(** *** The decision of a list that took over a numbered one *)

Definition decision (e : option AccessListAction) : bool := bool_decide (e = Some Permit).
Lemma in_order_promoted old : in_order (promoted_entries old) = imap (λ i e, ((Z.of_nat i + 1) * 10, promoted e)) old.
Proof. apply (entries_imap promoted (λ i, (Z.of_nat i + 1) * 10)). lia. Qed.
Lemma found_promoted d id l old p :
  lists d !! id = Some l → acl_entries l = promoted_entries old → u32 (destination p) →
  decision ((λ f, f.1.2) <$> acl_found d id p)
  = decision (standard_action <$> find (λ e, standard_matches e (source p)) old).
Proof.
  intros Hl He Hp. unfold acl_found. rewrite Hl. cbn [mbind option_bind].
  assert (Hs : snd <$> deciding_rule l p = promoted <$> find (λ e, standard_matches e (source p)) old).
  { unfold deciding_rule. rewrite He, in_order_promoted.
    etransitivity; [exact (find_imap_snd (λ e, bool_decide (is_Some (evaluate e p))) promoted (λ i, (Z.of_nat i + 1) * 10) old)|].
    f_equal. apply find_ext. intros e. rewrite promoted_evaluate by done. by destruct (standard_matches e (source p)). }
  destruct (find _ old) as [e|] eqn:Hf; cbn in Hs.
  - destruct (deciding_rule l p) as [[s x]|]; [|done]. cbn in Hs. injection Hs as ->. cbn [mbind option_bind].
    apply find_some in Hf as [_ Hm]. by rewrite promoted_evaluate, Hm by done.
  - by destruct (deciding_rule l p) as [[s x]|].
Qed.
Lemma legacy_match_snd l source : snd <$> legacy_match l source = find (λ e, standard_matches e source) l.
Proof.
  unfold legacy_match. etransitivity; [exact (find_imap_snd (λ e, standard_matches e source) (λ e, e) Z.of_nat l)|].
  by destruct (find _ l).
Qed.

(** The decision of a list, without the counters. *)
Definition list_decides (d : Device) (id : AclId) (p : Ipv4Packet) : bool := decision ((λ f, f.1.2) <$> acl_found d id p).
Definition number_decides (d : Device) (n : AccessListId) (p : Ipv4Packet) : bool :=
  match acl_id d (to_string n) with
  | Some id => list_decides d id p
  | None => decision (l ← legacy d !! n; standard_action <$> find (λ e, standard_matches e (source p)) l)
  end.
Lemma evaluate_decides id p d : (evaluate_named_acl id p d).1 = list_decides d id p.
Proof.
  unfold evaluate_named_acl, list_decides, decision. destruct (acl_found d id p) as [[[s a] l]|]; [|done]. cbn.
  by destruct a, l.
Qed.
Lemma permits_decides i dir p d :
  (permits_ipv4 i dir p d).1
  = match configs d !! i with
    | None => false
    | Some c => match named_group dir c, numbered_group dir c with
                | Some id, _ => list_decides d id p
                | None, Some n => number_decides d n p
                | None, None => true
                end
    end.
Proof.
  unfold permits_ipv4, number_decides. destruct (configs d !! i) as [c|]; [|done].
  destruct (named_group dir c); [apply evaluate_decides|]. destruct (numbered_group dir c) as [n|]; [|done].
  destruct (acl_id d _); [apply evaluate_decides|]. destruct (legacy d !! n) as [l|]; [|done]. cbn.
  rewrite <-legacy_match_snd. destruct (legacy_match l (source p)) as [[s e]|]; [|done]. cbn. by destruct (standard_action e).
Qed.
Lemma access_list_decides d n source : access_list_permits d n source = number_decides d n (probe source).
Proof.
  unfold access_list_permits, number_decides, list_decides, decision. destruct (acl_id d _) as [id|].
  - destruct (acl_found d id _) as [[[s a] l]|]; [|done]. cbn. by destruct a.
  - destruct (legacy d !! n) as [l|]; [|done]. cbn. destruct (find _ l) as [e|]; [|done]. cbn. by destruct (standard_action e).
Qed.

(** *** What a new list changes *)

(** A valid name that parses as a number is that number as printed. *)
Lemma valid_number_name kind name n : acl_name_valid kind name = true → parse U8_MAX name = Some n → to_string n = name.
Proof.
  intros Hv Hp. unfold acl_name_valid in Hv. rewrite !andb_true_iff in Hv. destruct Hv as [[_ Hc] Hv].
  assert (Hd : forallb is_ascii_digit name = true).
  { apply (parse_digits_only U8_MAX _ n Hp). intros [s ->]. cbn in Hc. done. }
  rewrite Hd in Hv. cbn in Hv. unfold number_valid in Hv. rewrite (parse_wider U8_MAX U16_MAX _ n) in Hv by done.
  apply andb_true_iff in Hv as [_ Hv%bool_decide_eq_true]. done.
Qed.
Section promotion.
Context (d : Device) (name : bytes) (kind : AclKind) (id : AclId).
Hypothesis Hd : acl_ok d.
Hypothesis Hnone : acl_id d name = None.
Hypothesis Hvalid : acl_name_valid kind name = true.
Hypothesis Hfresh : lists d !! id = None.
Hypothesis Hok : acl_ok (with_list d id name kind).

Lemma other_list x : x ≠ id → lists (with_list d id name kind) !! x = lists d !! x.
Proof using. destruct (lists_with_list d id name kind) as (l & -> & _). intros. by rewrite lookup_insert_ne. Qed.
Lemma other_found x p : is_Some (lists d !! x) → acl_found (with_list d id name kind) x p = acl_found d x p.
Proof using Hfresh. intros Hx. unfold acl_found. rewrite other_list; [done|]. intros ->. rewrite Hfresh in Hx. by destruct Hx. Qed.
Lemma other_acl_id n : n ≠ name → acl_id (with_list d id name kind) n = acl_id d n.
Proof using All.
  intros Hn. destruct (acl_id d n) as [x|] eqn:E.
  - apply acl_id_Some in E as (l & Hl & Hln). apply (acl_id_unique _ _ _ l Hok); [|done].
    rewrite other_list; [done|]. congruence.
  - rewrite acl_id_None in E |- *. intros x l Hl. destruct (lists_with_list d id name kind) as (l0 & El & Hl0 & _).
    rewrite El in Hl. apply lookup_insert_Some in Hl as [[<- <-]|[? Hl]]; [congruence|by eapply E].
Qed.
Lemma number_decides_same n p :
  1 ≤ n ≤ 99 → u32 (destination p) → number_decides (with_list d id name kind) n p = number_decides d n p.
Proof using All.
  intros Hn Hp. unfold number_decides. destruct (decide (to_string n = name)) as [E|E].
  - subst name. destruct (lists_with_list d id (to_string n) kind) as (l & El & Hname & _ & Hent).
    rewrite (acl_id_unique _ _ id l Hok), Hnone; [|by rewrite El, lookup_insert_eq|done].
    unfold list_decides. destruct (legacy d !! n) as [old|] eqn:Hold; cbn [mbind option_bind].
    + rewrite (number_taken_over d kind n old) in Hent by done.
      rewrite (found_promoted _ _ l old) by (rewrite ?El, ?lookup_insert_eq; done). by destruct (find _ old).
    + destruct (takes_over d kind (to_string n)) as [[m old]|] eqn:Ht.
      { apply takes_over_Some in Ht as (_ & Hm & _ & Hold'). rewrite parse_to_string in Hm by (unfold U8_MAX; lia).
        injection Hm as <-. congruence. }
      unfold acl_found. rewrite El, lookup_insert_eq. cbn. unfold deciding_rule. by rewrite Hent, entries_empty.
  - rewrite other_acl_id by congruence. destruct (acl_id d (to_string n)) as [x|] eqn:Hx.
    + apply acl_id_Some in Hx as (l & Hl & _). unfold list_decides. rewrite other_found; [done|by eexists].
    + rewrite legacy_with_list. destruct (takes_over d kind name) as [[m old]|] eqn:Ht; [|done].
      rewrite lookup_delete_ne; [done|]. intros <-. apply takes_over_Some in Ht as (-> & Hm & _ & _).
      by apply E, (valid_number_name Standard).
Qed.
End promotion.

(** ** Properties *)

(** The groups of the interfaces are numbers of the standard lists. *)
Definition groups_typed (d : Device) : Prop :=
  map_Forall (λ _ c, Forall (λ n, 1 ≤ n ≤ 99) (option_list (access_group_in c) ++ option_list (access_group_out c))) (configs d).
Lemma groups_typed_lookup d i c dir n :
  groups_typed d → configs d !! i = Some c → numbered_group dir c = Some n → 1 ≤ n ≤ 99.
Proof.
  intros Hd Hi Hn. specialize (Hd _ _ Hi). cbn in Hd. rewrite Forall_forall in Hd. apply Hd, elem_of_app.
  destruct dir; cbn in Hn; rewrite Hn; cbn; [left|right]; by apply list_elem_of_singleton.
Qed.
Lemma acl_ok_empty d :
  lists d = ∅ → legacy d = ∅ → acl_log_records d = [] →
  map_Forall (λ _ c, named_access_group_in c = None ∧ named_access_group_out c = None) (configs d) → acl_ok d.
Proof.
  intros E1 E2 E3 Hc. constructor; rewrite ?E1, ?E2, ?E3; try done.
  intros i c dir id Hi Hx. destruct (Hc _ _ Hi) as [H1 H2]. by destruct dir; cbn in Hx; congruence.
Qed.

(** C29: Opening a list by name changes no decision: when [ensure_acl] creates a
    list, and with it may turn a numbered standard list into a sequenced one,
    every interface permits exactly the packets it permitted before, in both
    directions, and every numbered list permits the sources it permitted. *)
Theorem promotion_preserves d name kind id d' :
  acl_ok d → groups_typed d → ensure_acl name kind d = (Ok id, d') →
  (∀ i dir p, u32 (destination p) → (permits_ipv4 i dir p d').1 = (permits_ipv4 i dir p d).1)
  ∧ (∀ n source, 1 ≤ n ≤ 99 → access_list_permits d' n source = access_list_permits d n source).
Proof.
  intros Hd Hg He. pose proof (ensure_acl_ok name kind d Hd) as Hok. rewrite He in Hok. cbn in Hok.
  destruct (ensure_acl_cases d name kind) as [(r & E & _)|(id' & E & Hnone & Hv & _ & Hnext)]; rewrite E in He.
  { by injection He as -> <-. }
  injection He as <- <-. destruct (fresh_acl_id d id' Hd Hnext) as [_ Hfresh]. split.
  - intros i dir p Hp. rewrite !permits_decides.
    assert (Hc : configs (with_list d id' name kind) = configs d).
    { unfold with_list. by destruct (takes_over d kind name) as [[]|]. }
    rewrite Hc. destruct (configs d !! i) as [c|] eqn:Hi; [|done].
    destruct (named_group dir c) as [x|] eqn:Hx.
    + unfold list_decides. rewrite other_found; [done..|]. by apply (acl_groups _ Hd i c dir).
    + destruct (numbered_group dir c) as [n|] eqn:Hn; [|done].
      apply number_decides_same; try done. by apply (groups_typed_lookup d i c dir).
  - intros n source Hn. rewrite !access_list_decides. by apply number_decides_same.
Qed.

(** A sequenced list decides by the matching rule of least sequence number
    and denies what no rule matches; the evaluation adds one to the counter of
    that rule, changes no other counter, and logs the packet exactly when the
    rule says so. *)
Theorem first_rule_decides d id p :
  match evaluate_named_acl id p d with
  | (permitted, d') =>
      (∃ l s e a, lists d !! id = Some l ∧ acl_entries l !! s = Some e ∧ evaluate e p = Some a
         ∧ (∀ s' e', acl_entries l !! s' = Some e' → is_Some (evaluate e' p) → s ≤ s')
         ∧ permitted = bool_decide (a = Permit)
         ∧ (∀ id' s', acl_match_count d' id' s'
              = if decide (id' = id ∧ s' = s) then sat_add U64_MAX (acl_match_count d id s) 1 else acl_match_count d id' s')
         ∧ acl_log_records d'
           = if logs e then push_log {| log_list := id; log_sequence := s; log_action := a; log_source := source p;
                                        log_destination := destination p; log_protocol := IpProtocol_to_u8 (protocol p) |}
                              (acl_log_records d)
             else acl_log_records d)
      ∨ (permitted = false ∧ d' = d
         ∧ ∀ l s e, lists d !! id = Some l → acl_entries l !! s = Some e → evaluate e p = None)
  end.
Proof.
  unfold evaluate_named_acl, acl_found. destruct (lists d !! id) as [l|] eqn:Hl; cbn [mbind option_bind]; [|right; by split_and!].
  unfold deciding_rule. destruct (find _ _) as [[s e]|] eqn:Hf; cbn [mbind option_bind].
  - apply find_entries in Hf as (He & Ha%bool_decide_eq_true & Hmin). cbn [snd] in Ha. destruct Ha as [a Ha]. rewrite Ha.
    cbn [mbind option_bind]. left. exists l, s, e, a. split_and!; try done.
    + intros s' e' He' Hs'. apply lex_single, (Hmin s' e'); [done|]. by apply bool_decide_eq_true.
    + intros id' s'. unfold acl_match_count. destruct (logs e); cbn; unfold count;
        (case_decide as Hd; [destruct Hd as [-> ->]; by rewrite lookup_insert_eq|
          rewrite lookup_insert_ne; [done|]; intros [= -> ->]; by apply Hd]).
    + by destruct (logs e).
  - right. split_and!; [done..|]. intros l' s e [= <-] He. rewrite find_entries_None in Hf. specialize (Hf s e He).
    apply bool_decide_eq_false in Hf. cbn in Hf. by apply eq_None_not_Some.
Qed.

(** Whatever calls configure and use the lists, from a new device on: the
    names of the lists are unique, a number is either a numbered or a sequenced
    list, every list has at most 4096 entries, each valid for its kind and
    under a sequence number between the bounds, the groups of the interfaces
    exist, and the log holds at most 256 records. *)
Theorem acl_invariant number hostname type d os :
  device_new number hostname type = Ok d → Forall acl_typed os →
  acl_ok (foldl (λ d o, (run_acl o d).2) d os).
Proof.
  intros Hn Hos. assert (Hd : acl_ok d).
  { unfold device_new in Hn. apply bind_Ok_inv in Hn as (_ & _ & Hn). destruct (_ <? _); [done|].
    apply Ok_inj in Hn. subst d. by apply acl_ok_empty. }
  clear Hn. revert d Hd. induction Hos as [|o os Ho _ IH]; intros d Hd; [done|]. cbn. apply IH. by apply keeps_run_acl.
Qed.

(** A router whose standard list 5 filters what enters its port. *)
Definition sample_router : res DeviceError Device :=
  d ← device_new 1 (text "edge") Router; Ok (run_operations [AddPhysicalInterface (text "gi0/0")] d).
Definition sample_lists : list acl_operation :=
  [AddAccessListEntry 5 {| standard_action := Deny; standard_source := 0x0a000001; standard_wildcard := 0 |};
   AddAccessListEntry 5 {| standard_action := Permit; standard_source := 0x0a000000; standard_wildcard := 0xff |};
   SetAccessGroup 1 5 DirectionIn].
Definition sample_packet : Ipv4Packet :=
  {| dscp_ecn := 0; source := 0x0a000002; destination := 0xc0a80001; ttl := 64; protocol := Udp; payload := [] |}.
Definition filtering (d : Device) : Device := foldl (λ d o, (run_acl o d).2) d sample_lists.
Lemma sample_router_ok : ∃ d, sample_router = Ok d ∧ acl_ok d.
Proof.
  destruct sample_router as [d|e|] eqn:E; [|by vm_compute in E..]. exists d. split; [done|].
  assert (H : (d ← sample_router; Ok (bool_decide (lists d = ∅) && bool_decide (legacy d = ∅)
    && bool_decide (acl_log_records d = [])
    && bool_decide (map_Forall (λ _ c, named_access_group_in c = None ∧ named_access_group_out c = None) (configs d))))
    = @Ok DeviceError _ true) by by vm_compute.
  rewrite E, bind_Ok in H. apply Ok_inj in H. rewrite !andb_true_iff, !bool_decide_eq_true in H. destruct H as [[[? ?] ?] ?]. by apply acl_ok_empty.
Qed.
Lemma filtering_ok d : acl_ok d → acl_ok (filtering d).
Proof. intros Hd. unfold filtering, sample_lists. cbn [foldl]. do 3 (apply keeps_run_acl; [cbn; lia|]). exact Hd. Qed.
(** Opening list 5 by name keeps what the port lets in. *)
Lemma promotion_preserves_witness :
  ∃ d d', sample_router = Ok d ∧ ensure_acl (text "5") Standard (filtering d) = (Ok 1, d')
    ∧ (permits_ipv4 1 DirectionIn sample_packet d').1 = (permits_ipv4 1 DirectionIn sample_packet (filtering d)).1.
Proof.
  destruct sample_router_ok as (d & Hd & Hok).
  assert (H : (d ← sample_router; Ok ((ensure_acl (text "5") Standard (filtering d)).1,
                                      bool_decide (groups_typed (filtering d)))) = @Ok DeviceError _ (Ok 1, true)) by by vm_compute.
  rewrite Hd, bind_Ok in H. apply Ok_inj, pair_equal_spec in H as [H1 H2%bool_decide_eq_true].
  destruct (ensure_acl (text "5") Standard (filtering d)) as [r d'] eqn:E. cbn in H1. subst r. exists d, d'.
  split; [done|]. split; [done|].
  apply (promotion_preserves (filtering d) (text "5") Standard 1 d'); [by apply filtering_ok|done|done|].
  cbn. lia.
Defined.
Lemma acl_invariant_witness :
  ∃ d, device_new 1 (text "edge") Router = Ok d ∧ acl_ok (foldl (λ d o, (run_acl o d).2) d sample_lists).
Proof.
  destruct (device_new 1 (text "edge") Router) as [d|e|] eqn:E; [|by vm_compute in E..]. exists d. split; [done|].
  apply (acl_invariant 1 (text "edge") Router); [done|]. unfold sample_lists. rewrite !Forall_cons. cbn. split_and!; try lia. constructor.
Defined.
