(* ===== verification/Nat.v ===== *)
(** Network address translation (src/crates/rios-device/src/nat.rs,
    nat/config.rs, nat/transport.rs): static rules, pools and overload, on
    whole IPv4 packets whose TCP, UDP or ICMP payload is decoded, changed and
    encoded again.

    [nat_ok] is the safety of the table: no two translations share an outbound
    or an inbound key, so a reply has one owner ([nat_mappings_unique] of
    [DeviceCalls]).
    [nat_reply_restored] is its purpose: the reply to a translated packet is
    translated back to the host and port the packet came from.
    [nat_port_available] says that the search for a port never fails. *)
From S2P Require Import Prelude Wire State Text Decimal EventQueue Ethernet Switching Ipv4 Collections AccessList RoutePolicy Config Inventory Device Interfaces AccessControl.
From S2P Require Checksum Udp TcpSegment Icmp.

Definition NAT_TIMEOUT_MS : Z := 60000.
Definition NAT_PORT_FIRST : Z := 10000.
Definition NAT_PORT_LAST : Z := 60000.
Definition MAX_TRANSLATIONS : Z := 16384.

Inductive NatOutcome := NatUnchanged | NatTranslated | NatDrop.

(** ** nat/transport.rs *)

(** The decoders never panic on octets, so [ok] only drops their errors. *)
Definition outbound_transport (packet : Ipv4Packet) : option (NatProtocol * Z * Z) :=
  match protocol packet with
  | Icmp => echo ← ok (Icmp.echo_decode (payload packet)); Some (NatIcmp, Icmp.identifier echo, 0)
  | Udp => udp ← ok (Udp.udp_decode (payload packet)); Some (NatUdp, Udp.source_port udp, Udp.destination_port udp)
  | Tcp => tcp ← ok (TcpSegment.segment_decode (source packet) (destination packet) (payload packet));
           Some (NatTcp, TcpSegment.source_port tcp, TcpSegment.destination_port tcp)
  | _ => None
  end.
Definition inbound_transport (packet : Ipv4Packet) : option (NatProtocol * Z * Z) :=
  '(protocol, src, dst) ← outbound_transport packet;
  Some (if bool_decide (protocol = NatIcmp) then (protocol, src, 0) else (protocol, dst, src)).

Definition tcp_with_port (port : option Z) (from : bool) (s : TcpSegment.TcpSegment) : TcpSegment.TcpSegment :=
  {| TcpSegment.source_port := if from then default (TcpSegment.source_port s) port else TcpSegment.source_port s;
     TcpSegment.destination_port := if from then TcpSegment.destination_port s else default (TcpSegment.destination_port s) port;
     TcpSegment.sequence := TcpSegment.sequence s; TcpSegment.acknowledgment := TcpSegment.acknowledgment s;
     TcpSegment.flags := TcpSegment.flags s; TcpSegment.window := TcpSegment.window s;
     TcpSegment.options := TcpSegment.options s; TcpSegment.payload := TcpSegment.payload s |}.
Definition udp_with_port (port : option Z) (from : bool) (d : Udp.UdpDatagram) : Udp.UdpDatagram :=
  {| Udp.source_port := if from then default (Udp.source_port d) port else Udp.source_port d;
     Udp.destination_port := if from then Udp.destination_port d else default (Udp.destination_port d) port;
     Udp.payload := Udp.payload d |}.
Definition echo_with_port (port : option Z) (e : Icmp.IcmpEcho) : Icmp.IcmpEcho :=
  {| Icmp.kind := Icmp.kind e; Icmp.identifier := default (Icmp.identifier e) port;
     Icmp.sequence := Icmp.sequence e; Icmp.payload := Icmp.payload e |}.

(** [None] is [false], which leaves the packet as it was. *)
Definition rewrite (packet : Ipv4Packet) (address : Ipv4Addr) (port : option Z) (from : bool) : option Ipv4Packet :=
  let new_source := if from then address else source packet in
  let new_destination := if from then destination packet else address in
  bs ← match protocol packet with
       | Tcp =>
           tcp ← ok (TcpSegment.segment_decode (source packet) (destination packet) (payload packet));
           ok (TcpSegment.segment_encode (tcp_with_port port from tcp) new_source new_destination)
       | Udp =>
           udp ← ok (Udp.udp_decode (payload packet));
           ok (Udp.udp_encode (udp_with_port port from udp))
       | Icmp =>
           if bool_decide (is_Some port)
           then echo ← ok (Icmp.echo_decode (payload packet)); ok (Icmp.echo_encode (echo_with_port port echo))
           else Some (payload packet)
       | _ => if bool_decide (port = None) then Some (payload packet) else None
       end;
  Some {| dscp_ecn := dscp_ecn packet; source := new_source; destination := new_destination; ttl := ttl packet;
          protocol := protocol packet; payload := bs |}.

(** ** nat.rs *)

Definition nat_role_of (d : Device) (interface : InterfaceId) : option NatRole := configs d !! interface ≫= nat_role.
Definition nat_drop (d : Device) : Device := d <| nat_statistics ::= λ s, s <| nat_drops ::= λ n, sat_add U64_MAX n 1 |> |>.
Definition nat_hit (d : Device) : Device := d <| nat_statistics ::= λ s, s <| hits ::= λ n, sat_add U64_MAX n 1 |> |>.
Definition nat_miss (d : Device) : Device := d <| nat_statistics ::= λ s, s <| misses ::= λ n, sat_add U64_MAX n 1 |> |>.

(** [BTreeSet<StaticNat>] in the derived order of the rules. *)
Definition static_code (r : StaticNat) : list Z :=
  match r with
  | StaticAddress local global => [0; local; global]
  | StaticPort p local local_port global global_port =>
      [1; match p with TransportTcp => 0 | TransportUdp => 1 end; local; local_port; global; global_port]
  end.
Definition nat_rules (d : Device) : list StaticNat :=
  (entries static_code (gset_to_gmap () (static_nat (running_config d)))).*1.
Definition static_matches (address : Ipv4Addr) (transport : option (NatProtocol * Z * Z)) (from : bool) (r : StaticNat) : bool :=
  ((if from then nat_local r else nat_global r) =? address)
  && match r with
     | StaticAddress _ _ => true
     | StaticPort p _ local_port _ global_port =>
         is_some_and transport (λ t,
           bool_decide (t.1.1 = match p with TransportTcp => NatTcp | TransportUdp => NatUdp end)
           && (t.1.2 =? if from then local_port else global_port))
     end.
Definition static_port (from : bool) (r : StaticNat) : option Z :=
  match r with
  | StaticAddress _ _ => None
  | StaticPort _ _ local_port _ global_port => Some (if from then global_port else local_port)
  end.
Definition translate_static (packet : Ipv4Packet) (from : bool) (d : Device) : option (Ipv4Packet * Device) :=
  let address := if from then source packet else destination packet in
  let transport := if from then outbound_transport packet else inbound_transport packet in
  r ← find (static_matches address transport from) (nat_rules d);
  packet ← rewrite packet (if from then nat_global r else nat_local r) (static_port from r) from;
  Some (packet, nat_hit d).

Definition expire_nat (now : SimTime) (d : Device) : Device :=
  let kept := filter (λ e, now < nat_expires_at e) (nat_translations d) in
  d <| nat_translations := kept |>
    <| nat_statistics ::= λ s, s <| expired ::= λ n, sat_add U64_MAX n (len (nat_translations d) - len kept) |> |>.

Definition port_free (d : Device) (port : Z) : bool :=
  negb (existsb (λ e, inside_global_port e =? port) (nat_translations d))
  && negb (existsb (λ r, match r with StaticPort _ _ _ _ global_port => global_port =? port | StaticAddress _ _ => false end)
             (nat_rules d)).
Definition following_port (port : Z) : Z := if NAT_PORT_LAST <=? port then NAT_PORT_FIRST else port + 1.
(** [plain +] is safe: the next port is at most [NAT_PORT_LAST]. *)
Fixpoint allocate_from (tries : nat) (d : Device) : option Z * Device :=
  match tries with
  | O => (None, d)
  | S tries =>
      let port := next_nat_port d in
      let d := d <| next_nat_port := following_port port |> in
      if port_free d port then (Some port, d) else allocate_from tries d
  end.
Definition allocate_nat_port (d : Device) : option Z * Device :=
  allocate_from (Z.to_nat (NAT_PORT_LAST - NAT_PORT_FIRST + 1)) d.

Definition pool_contains (pool : NatPool) (address : Ipv4Addr) : bool :=
  (pool_first pool <=? address) && (address <=? pool_last pool).
Definition pool_address (d : Device) (pool : NatPool) (local : Ipv4Addr) (overload : bool) : option Ipv4Addr :=
  match find (λ e, (inside_local_address e =? local) && pool_contains pool (inside_global_address e)) (nat_translations d) with
  | Some e => Some (inside_global_address e)
  | None =>
      find (λ address,
        negb (existsb (λ r, nat_global r =? address) (nat_rules d))
        && (overload || negb (existsb (λ e, inside_global_address e =? address) (nat_translations d))))
        (seqZ (pool_first pool) (pool_last pool - pool_first pool + 1))
  end.

(** The policy for traffic that leaves by [egress]: an access list, a pool or
    the address of the interface, and whether ports are shared. *)
Definition nat_policy (d : Device) (egress : InterfaceId) : option (AccessListId * option NatPool * bool) :=
  match nat_pool_rule (running_config d) with
  | Some r => Some (pool_access_list r, nat_pools (running_config d) !! rule_pool r, overload r)
  | None =>
      match nat_overload (running_config d) with
      | Some r => if outside_interface r =? egress then Some (overload_access_list r, None, true) else None
      | None => None
      end
  end.

Definition outbound_key (e : NatTranslation) : NatProtocol * Ipv4Addr * Z * Ipv4Addr * Z :=
  (nat_protocol e, inside_local_address e, inside_local_port e, outside_global_address e, outside_global_port e).
Definition inbound_key (e : NatTranslation) : NatProtocol * Ipv4Addr * Z * Ipv4Addr * Z :=
  (nat_protocol e, inside_global_address e, inside_global_port e, outside_global_address e, outside_global_port e).
(** [position] and [find] of an entry with a key. *)
Fixpoint position {A} (p : A → bool) (l : list A) : option nat :=
  match l with [] => None | x :: l => if p x then Some 0%nat else S <$> position p l end.
Definition refreshed (now : SimTime) (e : NatTranslation) : NatTranslation :=
  e <| nat_expires_at := sat_add U64_MAX now (NAT_TIMEOUT_MS * 1000) |>.

(** The new entry of a flow, or the error of an exhausted table or pool; the
    search for a port moves [next_nat_port] also when it fails. *)
Definition new_translation (egress : InterfaceId) (packet : Ipv4Packet) (transport : NatProtocol * Z * Z)
    (pool : option NatPool) (overload : bool) (now : SimTime) (d : Device) : option NatTranslation * Device :=
  let '(protocol, local_port, outside_port) := transport in
  if MAX_TRANSLATIONS <=? len (nat_translations d) then (None, d)
  else
    let global := match pool with
                  | Some pool => pool_address d pool (source packet) overload
                  | None => address <$> interface_ipv4 d egress
                  end in
    match global with
    | None => (None, d)
    | Some global =>
        let '(port, d) := if overload then allocate_nat_port d else (Some local_port, d) in
        match port with
        | None => (None, d)
        | Some port =>
            (Some {| nat_protocol := protocol; inside_local_address := source packet; inside_local_port := local_port;
                     inside_global_address := global; inside_global_port := port;
                     outside_global_address := destination packet; outside_global_port := outside_port;
                     nat_expires_at := now |}, d)
        end
    end.

(** Use the entry of the flow: renew it and rewrite the packet. *)
Definition use_outbound (index : nat) (e : NatTranslation) (packet : Ipv4Packet) (now : SimTime) (d : Device)
    : NatOutcome * Ipv4Packet * Device :=
  let d := d <| nat_translations ::= <[index := refreshed now e]> |> in
  match rewrite packet (inside_global_address e) (Some (inside_global_port e)) true with
  | Some packet => (NatTranslated, packet, nat_hit d)
  | None => (NatDrop, packet, nat_drop d)
  end.
Definition nat_dynamic (egress : InterfaceId) (packet : Ipv4Packet) (now : SimTime) (pool : option NatPool)
    (overload : bool) (d : Device) : NatOutcome * Ipv4Packet * Device :=
  match outbound_transport packet with
  | None => (NatDrop, packet, nat_drop d)
  | Some (protocol, local_port, outside_port) =>
      let d := expire_nat now d in
      let key := (protocol, source packet, local_port, destination packet, outside_port) in
      match position (λ e, bool_decide (outbound_key e = key)) (nat_translations d) with
      | Some index =>
          match nat_translations d !! index with
          | Some e => use_outbound index e packet now d
          | None => (NatDrop, packet, d)
          end
      | None =>
          match new_translation egress packet (protocol, local_port, outside_port) pool overload now d with
          | (None, d) => (NatDrop, packet, nat_drop d)
          | (Some e, d) =>
              use_outbound (length (nat_translations d)) e packet now
                (d <| nat_translations ::= λ l, l ++ [e] |>
                   <| nat_statistics ::= λ s, s <| allocations ::= λ n, sat_add U64_MAX n 1 |> |>)
          end
      end
  end.
Definition nat_outbound (ingress egress : InterfaceId) (packet : Ipv4Packet) (now : SimTime) (d : Device)
    : NatOutcome * Ipv4Packet * Device :=
  if negb (bool_decide (nat_role_of d ingress = Some Inside)) || negb (bool_decide (nat_role_of d egress = Some Outside))
  then (NatUnchanged, packet, d)
  else
    match translate_static packet true d with
    | Some (packet, d) => (NatTranslated, packet, d)
    | None =>
        match nat_policy d egress with
        | None => (NatUnchanged, packet, d)
        | Some (acl, pool, overload) =>
            if access_list_permits d acl (source packet) then nat_dynamic egress packet now pool overload d
            else (NatUnchanged, packet, d)
        end
    end.

Definition translate_nat_inbound (ingress : InterfaceId) (packet : Ipv4Packet) (now : SimTime) (d : Device)
    : bool * Ipv4Packet * Device :=
  if negb (bool_decide (nat_role_of d ingress = Some Outside)) then (false, packet, d)
  else
    match translate_static packet false d with
    | Some (packet, d) => (true, packet, d)
    | None =>
        let d := expire_nat now d in
        match inbound_transport packet with
        | None => (false, packet, d)
        | Some (protocol, global_port, outside_port) =>
            let key := (protocol, destination packet, global_port, source packet, outside_port) in
            match position (λ e, bool_decide (inbound_key e = key)) (nat_translations d) with
            | None => (false, packet, nat_miss d)
            | Some index =>
                match nat_translations d !! index with
                | None => (false, packet, d)
                | Some e =>
                    let d := d <| nat_translations ::= <[index := refreshed now e]> |> in
                    match rewrite packet (inside_local_address e) (Some (inside_local_port e)) false with
                    | Some packet => (true, packet, nat_hit d)
                    | None => (false, packet, d)
                    end
                end
            end
        end
    end.

(** Proxy ARP for the global addresses. *)
Definition nat_owns_address (interface : InterfaceId) (address : Ipv4Addr) (now : SimTime) (d : Device) : bool * Device :=
  if negb (bool_decide (nat_role_of d interface = Some Outside)) || negb (protocol_up d interface) then (false, d)
  else
    let d := expire_nat now d in
    (existsb (λ r, nat_global r =? address) (nat_rules d)
     || existsb (λ e, inside_global_address e =? address) (nat_translations d), d).
Definition clear_nat_translations (d : Device) : Device := d <| nat_translations := [] |>.

(** ** nat/config.rs *)

Definition is_router (d : Device) : bool := bool_decide (device_type d = Router).
Definition set_nat_role (interface : InterfaceId) (role : NatRole) : op () :=
  reject_if (λ d, negb (is_router d)) NatUnsupported;;
  update_config interface (λ c, c <| nat_role := Some role |>).
Definition validate_nat_acl (id : AccessListId) : op () :=
  reject_if (λ d, negb (is_router d)) NatUnsupported;;
  reject_if (λ d, negb (bool_decide (is_Some (legacy d !! id))) && bool_decide (acl_id d (to_string id) = None)) InvalidNatConfig.
Definition set_nat_overload (access_list : AccessListId) (interface : InterfaceId) : op () :=
  validate_nat_acl access_list;;
  reject_if (λ d, negb (bool_decide (is_Some (configs d !! interface)))) InvalidNatConfig;;
  modify (λ d, clear_nat_translations (d <| running_config ::= λ r,
    r <| nat_overload := Some {| overload_access_list := access_list; outside_interface := interface |} |>
      <| nat_pool_rule := None |> |>)).

Definition is_multicast (a : Ipv4Addr) : bool := (0xe0000000 <=? a) && (a <=? 0xefffffff).
Definition bad_endpoint (a : Ipv4Addr) : bool := (a =? 0) || is_multicast a || (a =? U32_MAX).
Definition rules_conflict (old rule : StaticNat) : bool :=
  match old, rule with
  | StaticPort a _ al _ ap, StaticPort b _ bl _ bp =>
      bool_decide (a = b) && (((nat_global old =? nat_global rule) && (ap =? bp)) || ((nat_local old =? nat_local rule) && (al =? bl)))
  | _, _ => (nat_global old =? nat_global rule) || (nat_local old =? nat_local rule)
  end.
Definition zero_port (r : StaticNat) : bool :=
  match r with StaticPort _ _ local_port _ global_port => (local_port =? 0) || (global_port =? 0) | StaticAddress _ _ => false end.
Definition add_static_nat (rule : StaticNat) : op () :=
  reject_if (λ d, negb (is_router d)) NatUnsupported;;
  reject_if (λ _, zero_port rule) InvalidNatConfig;;
  known ← gets (λ d, bool_decide (rule ∈ static_nat (running_config d)));
  if known : bool then mret ()
  else
    reject_if (λ d, (4096 <=? Z.of_nat (size (static_nat (running_config d)))) || bad_endpoint (nat_local rule) || bad_endpoint (nat_global rule))
      InvalidNatConfig;;
    reject_if (λ d, existsb (λ old, rules_conflict old rule) (nat_rules d)) InvalidNatConfig;;
    modify (λ d, clear_nat_translations (d <| running_config ::= λ r, r <| static_nat ::= λ s, {[rule]} ∪ s |> |>)).

Definition bad_pool_end (prefix_len : Z) (a : Ipv4Addr) : bool :=
  let host_mask := if prefix_len <? 32 then Z.shiftr U32_MAX prefix_len else 0 in
  let octet := Z.shiftr a 24 in
  (octet =? 0) || (octet =? 127) || (224 <=? octet)
  || ((prefix_len <? 31) && ((Z.land a host_mask =? 0) || (Z.land a host_mask =? host_mask))).
Definition pool_name_valid (name : bytes) : bool :=
  negb (bool_decide (name = [])) && (len name <=? 64)
  && forallb (λ b, is_ascii_alphanumeric b || (b =? 95) || (b =? 45)) name.
Definition set_nat_pool (name : bytes) (pool : NatPool) : op () :=
  reject_if (λ d, negb (is_router d)) NatUnsupported;;
  net ← lift (or_err (network_new (pool_first pool) (pool_prefix_len pool)) InvalidNatConfig);
  reject_if (λ d,
    negb (pool_name_valid name) || (pool_last pool <? pool_first pool) || (65535 <? pool_last pool - pool_first pool)
    || negb (contains net (pool_last pool))
    || bad_pool_end (pool_prefix_len pool) (pool_first pool) || bad_pool_end (pool_prefix_len pool) (pool_last pool)
    || ((256 <=? Z.of_nat (size (nat_pools (running_config d)))) && negb (bool_decide (is_Some (nat_pools (running_config d) !! name)))))
    InvalidNatConfig;;
  modify (λ d, clear_nat_translations (d <| running_config ::= λ r, r <| nat_pools ::= insert name pool |> |>)).
Definition set_nat_pool_rule (rule : NatPoolRule) : op () :=
  validate_nat_acl (pool_access_list rule);;
  reject_if (λ d, negb (bool_decide (is_Some (nat_pools (running_config d) !! rule_pool rule)))) InvalidNatConfig;;
  modify (λ d, clear_nat_translations (d <| running_config ::= λ r,
    r <| nat_pool_rule := Some rule |> <| nat_overload := None |> |>)).

(** ** The table *)

(** Whether dynamic translations share addresses by port, if there are any. *)
Definition nat_shared (c : RunningConfig) : option bool :=
  match nat_pool_rule c with
  | Some r => Some (overload r)
  | None => match nat_overload c with Some _ => Some true | None => None end
  end.
(** A port no static rule gives away. *)
Definition port_not_static (c : RunningConfig) (port : Z) : Prop :=
  ∀ p l lp g, StaticPort p l lp g port ∉ static_nat c.
Record table_ok (c : RunningConfig) (l : list NatTranslation) : Prop := {
  table_len : len l ≤ MAX_TRANSLATIONS;
  table_outbound : NoDup (outbound_key <$> l);
  table_mode :
    match nat_shared c with
    | None => l = []
    | Some true => NoDup (inside_global_port <$> l)
        ∧ ∀ e, e ∈ l → NAT_PORT_FIRST ≤ inside_global_port e ≤ NAT_PORT_LAST ∧ port_not_static c (inside_global_port e)
    | Some false => ∀ e, e ∈ l → inside_global_port e = inside_local_port e
        ∧ ∀ e', e' ∈ l → inside_global_address e = inside_global_address e' → inside_local_address e = inside_local_address e'
    end;
  table_pool : ∀ r pool, nat_pool_rule c = Some r → nat_pools c !! rule_pool r = Some pool →
    ∀ e, e ∈ l → pool_contains pool (inside_global_address e) = true ∧ ∀ s, s ∈ static_nat c → nat_global s ≠ inside_global_address e
}.
Record nat_ok (d : Device) : Prop := {
  nat_next : NAT_PORT_FIRST ≤ next_nat_port d ≤ NAT_PORT_LAST;
  nat_static_size : Z.of_nat (size (static_nat (running_config d))) ≤ 4096;
  nat_static : ∀ r s, r ∈ static_nat (running_config d) → s ∈ static_nat (running_config d) → r ≠ s → rules_conflict r s = false;
  nat_rule_pool : ∀ r, nat_pool_rule (running_config d) = Some r →
    is_Some (nat_pools (running_config d) !! rule_pool r) ∧ nat_overload (running_config d) = None;
  nat_table : table_ok (running_config d) (nat_translations d)
}.

(** *** Lists of translations *)

Lemma elem_of_nat_rules d r : r ∈ nat_rules d ↔ r ∈ static_nat (running_config d).
Proof.
  unfold nat_rules. rewrite list_elem_of_fmap. split.
  - intros ([k []] & -> & Hk%elem_of_entries). by apply lookup_gset_to_gmap_Some in Hk as [? _].
  - intros Hr. exists (r, ()). split; [done|]. apply elem_of_entries. by apply lookup_gset_to_gmap_Some.
Qed.
Lemma length_nat_rules d : len (nat_rules d) = Z.of_nat (size (static_nat (running_config d))).
Proof.
  unfold nat_rules, len. rewrite length_fmap, length_entries, <-length_map_to_list.
  by rewrite map_to_list_gset_to_gmap, length_fmap.
Qed.
Lemma existsb_false {A} (f : A → bool) l : existsb f l = false ↔ ∀ x, x ∈ l → f x = false.
Proof.
  split.
  - intros H x Hx. destruct (f x) eqn:E; [|done]. rewrite (proj2 (existsb_exists f l)) in H; [done|].
    exists x. by rewrite <-list_elem_of_In.
  - intros H. destruct (existsb f l) eqn:E; [|done]. apply existsb_exists in E as (x & Hx%list_elem_of_In & Hf).
    by rewrite (H x Hx) in Hf.
Qed.
Lemma position_Some {A} (p : A → bool) l i : position p l = Some i → ∃ x, l !! i = Some x ∧ p x = true.
Proof.
  revert i. induction l as [|x l IH]; intros i; cbn; [done|]. destruct (p x) eqn:E.
  - intros [= <-]. by exists x.
  - intros (j & Hj & ->)%fmap_Some. by apply IH.
Qed.
Lemma position_None {A} (p : A → bool) l : position p l = None ↔ ∀ x, x ∈ l → p x = false.
Proof.
  induction l as [|x l IH]; cbn; [split; [intros _ y Hy; by apply elem_of_nil in Hy|done]|].
  destruct (p x) eqn:E; [split; [done|intros H; by rewrite H in E by left]|].
  rewrite fmap_None, IH. split; [intros H y [->|Hy]%elem_of_cons; auto|intros H y Hy; apply H; by right].
Qed.
Lemma elem_of_update {A} (l : list A) i x y : y ∈ <[i := x]> l → y = x ∨ y ∈ l.
Proof.
  intros [j Hj]%list_elem_of_lookup. apply list_lookup_insert_Some in Hj as [(_ & -> & _)|[_ Hj]]; [by left|].
  right. by eapply list_elem_of_lookup_2.
Qed.

Section table.
Context (c : RunningConfig).
Lemma table_ok_nil : table_ok c [].
Proof.
  constructor; [unfold len; cbn; unfold MAX_TRANSLATIONS; lia|constructor| |by intros ? ? ? ? ? ?%elem_of_nil].
  destruct (nat_shared c) as [[]|]; [split; [constructor|]|..]; [by intros ? ?%elem_of_nil..|done].
Qed.
Lemma table_ok_sublist l k : k `sublist_of` l → table_ok c l → table_ok c k.
Proof.
  intros Hs [Hl Ho Hm Hp]. assert (Hin : ∀ e, e ∈ k → e ∈ l) by (intros e He; by eapply elem_of_sublist).
  constructor.
  - apply sublist_length in Hs. unfold len in *. lia.
  - eapply sublist_NoDup; [done|by apply fmap_sublist].
  - destruct (nat_shared c) as [[]|].
    + destruct Hm as [Hn Hm]. split; [eapply sublist_NoDup; [done|by apply fmap_sublist]|]. auto.
    + intros e He. destruct (Hm e (Hin e He)) as [? Hall]. auto.
    + subst l. by apply sublist_nil_r.
  - intros r pool Hr Hpool e He. by apply (Hp r pool), Hin.
Qed.
Lemma table_ok_refresh l i e now : table_ok c l → l !! i = Some e → table_ok c (<[i := refreshed now e]> l).
Proof.
  intros [Hl Ho Hm Hp] Hi. assert (He : e ∈ l) by by eapply list_elem_of_lookup_2.
  assert (Hsame : ∀ {B} (f : NatTranslation → B), f (refreshed now e) = f e → f <$> <[i := refreshed now e]> l = f <$> l).
  { intros B f Hf. rewrite list_fmap_insert, Hf. apply list_insert_id. by rewrite list_lookup_fmap, Hi. }
  assert (Hin : ∀ x, x ∈ <[i := refreshed now e]> l → ∃ y, y ∈ l ∧ inside_global_port x = inside_global_port y
    ∧ inside_local_port x = inside_local_port y ∧ inside_global_address x = inside_global_address y
    ∧ inside_local_address x = inside_local_address y).
  { intros x [->|Hx]%elem_of_update; [by exists e|by exists x]. }
  constructor.
  - unfold len in *. by rewrite length_insert.
  - by rewrite Hsame.
  - destruct (nat_shared c) as [[]|].
    + destruct Hm as [Hn Hm]. split; [by rewrite Hsame|]. intros x (y & Hy & -> & _)%Hin. auto.
    + intros x (y & Hy & Eg & El & Ea & Eb)%Hin. destruct (Hm y Hy) as [Hport Hall]. rewrite Eg, El. split; [done|].
      intros x' (y' & Hy' & _ & _ & Ea' & Eb')%Hin. rewrite Ea, Ea', Eb, Eb'. by apply Hall.
    + by subst l.
  - intros r pool Hr Hpool x (y & Hy & _ & _ & -> & _)%Hin. by apply (Hp r pool).
Qed.
End table.

(** *** The search for a port *)

(** [nat_ok] reads the running configuration, the table and the next port. *)
Lemma nat_ok_same d d' :
  nat_ok d → running_config d' = running_config d → NAT_PORT_FIRST ≤ next_nat_port d' ≤ NAT_PORT_LAST →
  table_ok (running_config d) (nat_translations d') → nat_ok d'.
Proof. intros [On Os Oc Or Ot] E1 E2 E3. constructor; rewrite ?E1; done. Qed.

Lemma port_free_spec d port :
  port_free d port = true ↔
  (∀ e, e ∈ nat_translations d → inside_global_port e ≠ port) ∧ port_not_static (running_config d) port.
Proof.
  unfold port_free, port_not_static. rewrite andb_true_iff, !negb_true_iff, !existsb_false. split; intros [H1 H2]; split.
  - intros e He. specialize (H1 e He). lia.
  - intros p l lp g Hs. specialize (H2 _ (proj2 (elem_of_nat_rules d _) Hs)). cbn in H2. lia.
  - intros e He. specialize (H1 e He). lia.
  - intros r Hr%elem_of_nat_rules. destruct r; [done|]. destruct (Z.eqb_spec global_port port); [|done]. subst.
    by destruct (H2 _ _ _ _ Hr).
Qed.
Lemma following_port_range p : NAT_PORT_FIRST ≤ p ≤ NAT_PORT_LAST → NAT_PORT_FIRST ≤ following_port p ≤ NAT_PORT_LAST.
Proof. unfold following_port, NAT_PORT_FIRST, NAT_PORT_LAST. destruct (_ <=? _) eqn:?; lia. Qed.
Lemma port_free_next d n port : port_free (d <| next_nat_port := n |>) port = port_free d port.
Proof. done. Qed.
Lemma allocate_from_spec tries d :
  NAT_PORT_FIRST ≤ next_nat_port d ≤ NAT_PORT_LAST →
  ∃ n, (allocate_from tries d).2 = d <| next_nat_port := n |> ∧ NAT_PORT_FIRST ≤ n ≤ NAT_PORT_LAST
    ∧ ∀ port, (allocate_from tries d).1 = Some port → NAT_PORT_FIRST ≤ port ≤ NAT_PORT_LAST ∧ port_free d port = true.
Proof.
  revert d. induction tries as [|tries IH]; intros d Hn; cbn [allocate_from].
  { exists (next_nat_port d). split; [by destruct d|]. by split. }
  pose proof (following_port_range _ Hn) as Hf. rewrite port_free_next. destruct (port_free d (next_nat_port d)) eqn:E.
  - exists (following_port (next_nat_port d)). split; [done|]. split; [done|]. by intros port [= <-].
  - destruct (IH (d <| next_nat_port := following_port (next_nat_port d) |>)) as (n & -> & Hr & Hp); [exact Hf|].
    exists n. split; [done|]. split; [done|]. intros port Hport. by apply Hp.
Qed.

(** The ports the search looks at. *)
Definition port_after (p : Z) (i : nat) : Z :=
  NAT_PORT_FIRST + (p - NAT_PORT_FIRST + Z.of_nat i) `mod` (NAT_PORT_LAST - NAT_PORT_FIRST + 1).
Lemma port_after_S p i : NAT_PORT_FIRST ≤ p ≤ NAT_PORT_LAST → port_after (following_port p) i = port_after p (S i).
Proof.
  intros Hp. unfold port_after, following_port. destruct (NAT_PORT_LAST <=? p) eqn:E; f_equal.
  - replace p with NAT_PORT_LAST by lia. rewrite <-(Z.mod_add (NAT_PORT_FIRST - _ + _) 1) by (unfold NAT_PORT_FIRST, NAT_PORT_LAST; lia).
    f_equal. lia.
  - f_equal. lia.
Qed.
Lemma allocate_from_None tries d :
  NAT_PORT_FIRST ≤ next_nat_port d ≤ NAT_PORT_LAST → (allocate_from tries d).1 = None →
  ∀ i, (i < tries)%nat → port_free d (port_after (next_nat_port d) i) = false.
Proof.
  revert d. induction tries as [|tries IH]; intros d Hn H i Hi; [lia|]. cbn [allocate_from] in H.
  rewrite port_free_next in H. destruct (port_free d (next_nat_port d)) eqn:E; [done|].
  destruct i as [|i].
  - unfold port_after. rewrite Z.mod_small by (unfold NAT_PORT_FIRST, NAT_PORT_LAST in *; lia).
    by replace (NAT_PORT_FIRST + _) with (next_nat_port d) by lia.
  - rewrite <-port_after_S by done. specialize (IH (d <| next_nat_port := following_port (next_nat_port d) |>)).
    apply IH; [exact (following_port_range _ Hn)|exact H|lia].
Qed.
Definition global_ports (d : Device) : list Z :=
  (inside_global_port <$> nat_translations d)
  ++ ((λ r, match r with StaticPort _ _ _ _ p => p | StaticAddress _ _ => 0 end) <$> nat_rules d).
Lemma allocate_nat_port_total d : nat_ok d → ∃ port, (allocate_nat_port d).1 = Some port.
Proof.
  intros Hd. destruct (allocate_nat_port d).1 as [port|] eqn:E; [by exists port|]. exfalso.
  pose proof (nat_next _ Hd) as Hn. set (ports := seqZ NAT_PORT_FIRST (NAT_PORT_LAST - NAT_PORT_FIRST + 1)).
  assert (Hall : ∀ p, p ∈ ports → p ∈ global_ports d).
  { intros p Hp%elem_of_seqZ. set (m := NAT_PORT_LAST - NAT_PORT_FIRST + 1).
    assert (Hm : 0 < m) by (unfold m, NAT_PORT_LAST, NAT_PORT_FIRST; lia).
    pose proof (Z.mod_pos_bound (p - next_nat_port d) m Hm) as Hi.
    pose proof (allocate_from_None _ d Hn E (Z.to_nat ((p - next_nat_port d) `mod` m)) ltac:(fold m; lia)) as Hf.
    unfold port_after in Hf. fold m in Hf. rewrite Z2Nat.id, Zplus_mod_idemp_r in Hf by lia.
    replace (next_nat_port d - NAT_PORT_FIRST + (p - next_nat_port d)) with (p - NAT_PORT_FIRST) in Hf by lia.
    rewrite Z.mod_small in Hf by (unfold m in *; lia). replace (NAT_PORT_FIRST + (p - NAT_PORT_FIRST)) with p in Hf by lia.
    unfold port_free in Hf. apply elem_of_app. apply andb_false_iff in Hf as [Hf|Hf]; apply negb_false_iff, existsb_exists in Hf as (x & Hx%list_elem_of_In & Hxp).
    - left. apply list_elem_of_fmap. exists x. split; [lia|done].
    - right. apply list_elem_of_fmap. exists x. split; [|done]. destruct x; [done|]. lia. }
  pose proof (NoDup_submseteq ports (global_ports d) (NoDup_seqZ _ _) Hall) as Hs%submseteq_length.
  unfold ports, global_ports in Hs. rewrite length_seqZ, length_app, !length_fmap in Hs.
  pose proof (length_nat_rules d) as Hr. pose proof (nat_static_size _ Hd). pose proof (table_len _ _ (nat_table _ Hd)).
  unfold len, MAX_TRANSLATIONS, NAT_PORT_LAST, NAT_PORT_FIRST in *. lia.
Qed.

(** *** New translations *)

Lemma pool_address_spec d pool local shared g :
  table_ok (running_config d) (nat_translations d) →
  (∀ e, e ∈ nat_translations d → pool_contains pool (inside_global_address e) = true
        ∧ ∀ s, s ∈ static_nat (running_config d) → nat_global s ≠ inside_global_address e) →
  pool_address d pool local shared = Some g →
  pool_contains pool g = true ∧ (∀ s, s ∈ static_nat (running_config d) → nat_global s ≠ g)
  ∧ ((∃ e, e ∈ nat_translations d ∧ inside_local_address e = local ∧ inside_global_address e = g)
     ∨ (shared = false → ∀ e, e ∈ nat_translations d → inside_global_address e ≠ g)).
Proof.
  intros Ht Hp. unfold pool_address. destruct (find _ (nat_translations d)) as [e|] eqn:Hf.
  - intros [= <-]. apply find_some in Hf as [He%list_elem_of_In Hm]. apply andb_true_iff in Hm as [Hl Hc].
    split; [done|]. split; [by apply Hp|]. left. exists e. split_and!; [done|lia|done].
  - intros Hg. apply find_some in Hg as [Hin%list_elem_of_In Hg]. apply elem_of_seqZ in Hin.
    apply andb_true_iff in Hg as [Hs%negb_true_iff Hg]. rewrite existsb_false in Hs. split_and!.
    + unfold pool_contains. lia.
    + intros s Hs'%elem_of_nat_rules. specialize (Hs s Hs'). lia.
    + right. intros ->. cbn in Hg. apply negb_true_iff in Hg. rewrite existsb_false in Hg. intros e He. specialize (Hg e He). lia.
Qed.

(** What [new_translation] returns: the entry of the flow, and a device that
    differs in the next port. *)
Lemma new_translation_spec egress p k lp op pool shared now d r d' :
  nat_ok d → new_translation egress p (k, lp, op) pool shared now d = (r, d') →
  (∃ n, d' = d <| next_nat_port := n |> ∧ NAT_PORT_FIRST ≤ n ≤ NAT_PORT_LAST)
  ∧ ∀ e, r = Some e →
      len (nat_translations d) < MAX_TRANSLATIONS
      ∧ outbound_key e = (k, source p, lp, destination p, op) ∧ inside_local_address e = source p ∧ inside_local_port e = lp
      ∧ (if shared then NAT_PORT_FIRST ≤ inside_global_port e ≤ NAT_PORT_LAST ∧ port_free d (inside_global_port e) = true
         else inside_global_port e = lp)
      ∧ ∀ pool', pool = Some pool' → pool_address d pool' (source p) shared = Some (inside_global_address e).
Proof.
  intros Hd. unfold new_translation. pose proof (nat_next _ Hd) as Hn.
  assert (Hsame : ∃ n, d = d <| next_nat_port := n |> ∧ NAT_PORT_FIRST ≤ n ≤ NAT_PORT_LAST)
    by (exists (next_nat_port d); by destruct d).
  destruct (MAX_TRANSLATIONS <=? _) eqn:Hlen; [by intros [= <- <-]|].
  destruct (match pool with Some _ => _ | None => _ end) as [g|] eqn:Hg; [|by intros [= <- <-]].
  destruct (allocate_from_spec (Z.to_nat (NAT_PORT_LAST - NAT_PORT_FIRST + 1)) d Hn) as (n & En & Hr & Hport).
  change (allocate_from _ d) with (allocate_nat_port d) in En, Hport.
  assert (Hpool : ∀ pool', pool = Some pool' → pool_address d pool' (source p) shared = Some g) by (intros ? ->; done).
  destruct shared.
  - destruct (allocate_nat_port d) as [[port|] d1]; cbn in En; intros [= <- <-]; (split; [by exists n|]); [|done].
    intros e [= <-]. destruct (Hport port eq_refl). cbn. split_and!; try done; lia.
  - intros [= <- <-]. split; [done|]. intros e [= <-]. cbn. split_and!; try done; lia.
Qed.

(** Whether the policy shares ports is what the table records. *)
Lemma nat_policy_shared d egress acl pool shared :
  nat_ok d → nat_policy d egress = Some (acl, pool, shared) →
  nat_shared (running_config d) = Some shared
  ∧ match nat_pool_rule (running_config d) with
    | Some r => is_Some pool ∧ pool = nat_pools (running_config d) !! rule_pool r
    | None => pool = None
    end.
Proof.
  intros Hd. unfold nat_policy, nat_shared. destruct (nat_pool_rule _) as [r|] eqn:Hr.
  - intros [= <- <- <-]. split; [done|]. destruct (nat_rule_pool _ Hd r Hr) as [Hp _]. by split.
  - destruct (nat_overload _) as [o|]; [|done]. destruct (_ =? _); [|done]. by intros [= <- <- <-].
Qed.

Lemma table_ok_push egress p k lp op pool shared now d e d' acl :
  nat_ok d → nat_policy d egress = Some (acl, pool, shared) →
  (∀ x, x ∈ nat_translations d → outbound_key x ≠ (k, source p, lp, destination p, op)) →
  new_translation egress p (k, lp, op) pool shared now d = (Some e, d') →
  table_ok (running_config d) (nat_translations d ++ [e]).
Proof.
  intros Hd Hpol Hnew He. destruct (new_translation_spec _ _ _ _ _ _ _ _ _ _ _ Hd He) as [_ H].
  destruct (H e eq_refl) as (Hlen & Hkey & Hla & Hlp & Hport & Hpool). clear H.
  destruct (nat_policy_shared _ _ _ _ _ Hd Hpol) as [Hsh Hpoolrule].
  pose proof (nat_table _ Hd) as Ht. pose proof Ht as [Tl To Tm Tp].
  assert (Hin : ∀ x, x ∈ nat_translations d ++ [e] → x ∈ nat_translations d ∨ x = e).
  { intros x [Hx|Hx%list_elem_of_singleton]%elem_of_app; auto. }
  assert (Hga : ∀ r pool', nat_pool_rule (running_config d) = Some r → nat_pools (running_config d) !! rule_pool r = Some pool' →
    pool_contains pool' (inside_global_address e) = true
    ∧ (∀ s, s ∈ static_nat (running_config d) → nat_global s ≠ inside_global_address e)
    ∧ ((∃ x, x ∈ nat_translations d ∧ inside_local_address x = source p ∧ inside_global_address x = inside_global_address e)
       ∨ (shared = false → ∀ x, x ∈ nat_translations d → inside_global_address x ≠ inside_global_address e))).
  { intros r pool' Hr Hp. rewrite Hr in Hpoolrule. destruct Hpoolrule as [_ Heq]. rewrite Hp in Heq.
    apply (pool_address_spec d pool' (source p) shared); [done|by apply (Tp r)|by apply Hpool]. }
  constructor.
  - rewrite len_app. unfold len at 2. cbn. lia.
  - rewrite fmap_app. apply NoDup_app. split_and!; [done| |apply NoDup_singleton].
    intros x (y & -> & Hy)%list_elem_of_fmap Hx%list_elem_of_singleton. apply (Hnew y Hy). congruence.
  - rewrite Hsh in Tm |- *. destruct shared.
    + destruct Tm as [Hnd Hall]. destruct Hport as [Hrange [Hfree Hst]%port_free_spec]. split.
      * rewrite fmap_app. apply NoDup_app. split_and!; [done| |apply NoDup_singleton].
        intros x (y & -> & Hy)%list_elem_of_fmap Hx%list_elem_of_singleton. by apply (Hfree y Hy).
      * intros x [Hx| ->]%Hin; [by apply Hall|done].
    + assert (Hr : is_Some (nat_pool_rule (running_config d))).
      { unfold nat_shared in Hsh. destruct (nat_pool_rule _); [by eexists|]. by destruct (nat_overload _). }
      destruct Hr as [r Hr]. destruct (nat_rule_pool _ Hd r Hr) as [[pool' Hp] _].
      destruct (Hga r pool' Hr Hp) as (_ & _ & Hold).
      assert (Hloc : ∀ x, x ∈ nat_translations d → inside_global_address x = inside_global_address e → inside_local_address x = source p).
      { intros x Hx Hgx. destruct Hold as [(y & Hy & Hly & Hgy)|Hold]; [|by destruct (Hold eq_refl x Hx)].
        destruct (Tm x Hx) as [_ Hxy]. rewrite (Hxy y Hy); [done|congruence]. }
      intros x [Hx| ->]%Hin.
      * destruct (Tm x Hx) as [Hxp Hxy]. split; [done|]. intros y [Hy| ->]%Hin Hg; [by apply Hxy|]. rewrite Hla. by apply Hloc.
      * split; [congruence|]. intros y [Hy| ->]%Hin Hg; [|done]. rewrite Hla. symmetry. by apply Hloc.
  - intros r pool' Hr Hp x [Hx| ->]%Hin; [by apply (Tp r)|]. by destruct (Hga r pool' Hr Hp) as (? & ? & _).
Qed.

(** *** Packets keep the table *)

Lemma expire_nat_ok now d : nat_ok d → nat_ok (expire_nat now d).
Proof.
  intros Hd. apply (nat_ok_same d); [done..|exact (nat_next _ Hd)|].
  eapply table_ok_sublist; [|exact (nat_table _ Hd)]. apply sublist_filter.
Qed.
Lemma refresh_ok d i e now : nat_ok d → nat_translations d !! i = Some e → nat_ok (d <| nat_translations ::= <[i := refreshed now e]> |>).
Proof. intros Hd Hi. apply (nat_ok_same d); [done..|exact (nat_next _ Hd)|]. apply table_ok_refresh; [exact (nat_table _ Hd)|done]. Qed.
Lemma use_outbound_ok i e p now d : nat_ok d → nat_translations d !! i = Some e → nat_ok (use_outbound i e p now d).2.
Proof.
  intros Hd Hi. pose proof (refresh_ok d i e now Hd Hi) as H. unfold use_outbound.
  destruct (rewrite _ _ _ _); by destruct H.
Qed.
Lemma translate_static_ok p from d p' d' : nat_ok d → translate_static p from d = Some (p', d') → nat_ok d'.
Proof.
  intros Hd. unfold translate_static. intros H. apply bind_Some in H as (r & _ & H). apply bind_Some in H as (q & _ & [= _ <-]).
  by destruct Hd.
Qed.
Lemma nat_dynamic_ok egress p now pool shared d acl :
  nat_ok d → nat_policy d egress = Some (acl, pool, shared) → nat_ok (nat_dynamic egress p now pool shared d).2.
Proof.
  intros Hd Hpol. unfold nat_dynamic. destruct (outbound_transport p) as [[[k lp] op]|]; [|by destruct Hd].
  pose proof (expire_nat_ok now d Hd) as Hx. cbv zeta. set (dx := expire_nat now d) in *.
  destruct (position _ _) as [i|] eqn:Hi.
  - destruct (position_Some _ _ _ Hi) as (e & He & _). rewrite He. by apply use_outbound_ok.
  - rewrite position_None in Hi.
    assert (Hnew : ∀ x, x ∈ nat_translations dx → outbound_key x ≠ (k, source p, lp, destination p, op)).
    { intros x Hx'. eapply bool_decide_eq_false_1, Hi, Hx'. }
    destruct (new_translation _ _ _ _ _ _ dx) as [[e|] d'] eqn:He.
    + pose proof (table_ok_push _ _ _ _ _ _ _ _ _ _ _ acl Hx Hpol Hnew He) as Ht.
      destruct (new_translation_spec _ _ _ _ _ _ _ _ _ _ _ Hx He) as [(n & -> & Hn) _].
      apply use_outbound_ok; [|by apply (list_lookup_middle _ [])].
      by apply (nat_ok_same dx).
    + destruct (new_translation_spec _ _ _ _ _ _ _ _ _ _ _ Hx He) as [(n & -> & Hn) _].
      apply (nat_ok_same dx); try done. exact (nat_table _ Hx).
Qed.
Lemma nat_outbound_ok i e p now d : nat_ok d → nat_ok (nat_outbound i e p now d).2.
Proof.
  intros Hd. unfold nat_outbound. destruct (_ || _); [done|]. destruct (translate_static p true d) as [[p' d']|] eqn:Hs.
  { by eapply translate_static_ok. }
  destruct (nat_policy d e) as [[[acl pool] shared]|] eqn:Hp; [|done].
  destruct (access_list_permits _ _ _); [by eapply nat_dynamic_ok|done].
Qed.
Lemma translate_nat_inbound_ok i p now d : nat_ok d → nat_ok (translate_nat_inbound i p now d).2.
Proof.
  intros Hd. unfold translate_nat_inbound. destruct (negb _); [done|].
  destruct (translate_static p false d) as [[p' d']|] eqn:Hs; [by eapply translate_static_ok|].
  pose proof (expire_nat_ok now d Hd) as Hx. cbv zeta. destruct (inbound_transport p) as [[[k gp] op]|]; [|done].
  destruct (position _ _) as [j|] eqn:Hj; [|by destruct Hx].
  destruct (position_Some _ _ _ Hj) as (e & He & _). rewrite He.
  pose proof (refresh_ok _ j e now Hx He) as Hr. destruct (rewrite _ _ _ _); [by destruct Hr|exact Hr].
Qed.

(** *** Configuration keeps the table, by emptying it *)

Lemma update_config_nat_ok id f : preserves nat_ok (update_config id f).
Proof.
  intros d Hd. unfold update_config. destruct (configs d !! id); [|done]. destruct Hd as [On Os Oc Or [Tl To Tm Tp]].
  by constructor.
Qed.
Lemma validate_reads id : reads (validate_nat_acl id).
Proof. unfold validate_nat_acl. auto with stateful. Qed.
#[export] Hint Resolve validate_reads : stateful.
Lemma cleared_ok d d' :
  nat_ok d → next_nat_port d' = next_nat_port d → static_nat (running_config d') = static_nat (running_config d) →
  nat_translations d' = [] →
  (∀ r, nat_pool_rule (running_config d') = Some r →
    is_Some (nat_pools (running_config d') !! rule_pool r) ∧ nat_overload (running_config d') = None) → nat_ok d'.
Proof.
  intros [On Os Oc Or Ot] E1 E2 E3 E4. constructor; rewrite ?E1, ?E2, ?E3; try done. apply table_ok_nil.
Qed.
Lemma set_nat_overload_ok acl i : preserves nat_ok (set_nat_overload acl i).
Proof.
  do 2 (apply preserves_bind; [auto with stateful|intros _]). apply preserves_modify. intros d Hd. by apply (cleared_ok d).
Qed.
Lemma set_nat_role_ok i r : preserves nat_ok (set_nat_role i r).
Proof. apply preserves_bind; [auto with stateful|]. intros _. apply update_config_nat_ok. Qed.
Lemma set_nat_pool_ok n p : preserves nat_ok (set_nat_pool n p).
Proof.
  do 3 (apply preserves_bind; [auto with stateful|intros ?]). apply preserves_modify. intros d Hd. apply (cleared_ok d); try done.
  cbn. intros r Hr. destruct (nat_rule_pool _ Hd r Hr) as [? ?]. split; [by apply lookup_insert_is_Some'; right|done].
Qed.
Lemma set_nat_pool_rule_ok r : preserves nat_ok (set_nat_pool_rule r).
Proof.
  apply preserves_bind; [auto with stateful|intros _]. intros d Hd. rewrite run_reject. destruct (negb _) eqn:E; [done|].
  apply negb_false_iff, bool_decide_eq_true in E. cbn [snd modify]. apply (cleared_ok d); try done. by intros r' [= <-].
Qed.
Lemma rules_conflict_sym r s : rules_conflict r s = rules_conflict s r.
Proof.
  destruct r as [|[] ? ? ? ?], s as [|[] ? ? ? ?]; cbn;
    rewrite ?(Z.eqb_sym local), ?(Z.eqb_sym global), ?(Z.eqb_sym local_port), ?(Z.eqb_sym global_port); done.
Qed.
Lemma add_static_nat_ok r : preserves nat_ok (add_static_nat r).
Proof.
  do 2 (apply preserves_bind; [auto with stateful|intros _]). intros d Hd. rewrite run_gets.
  destruct (bool_decide _) eqn:Hk; [done|]. apply bool_decide_eq_false in Hk. rewrite run_reject.
  destruct (_ || _ || _) eqn:Hs; [done|]. rewrite run_reject. destruct (existsb _ _) eqn:Hc; [done|]. cbn [snd modify].
  rewrite existsb_false in Hc. rewrite !orb_false_iff in Hs. destruct Hs as [[Hs _] _].
  destruct Hd as [On Os Oc Or Ot]. constructor; try done; [| |apply table_ok_nil].
  - cbn. rewrite size_union, size_singleton by set_solver. lia.
  - cbn. intros x y [->%elem_of_singleton|Hx]%elem_of_union [->%elem_of_singleton|Hy]%elem_of_union Hne; [done|..].
    + rewrite rules_conflict_sym. by apply Hc, elem_of_nat_rules.
    + by apply Hc, elem_of_nat_rules.
    + by apply Oc.
Qed.

(** The calls of the component. *)
Inductive nat_operation :=
  | SetNatRole (interface : InterfaceId) (role : NatRole)
  | SetNatOverload (access_list : AccessListId) (interface : InterfaceId)
  | AddStaticNat (rule : StaticNat) | SetNatPool (name : bytes) (pool : NatPool) | SetNatPoolRule (rule : NatPoolRule)
  | ClearNat | OutboundPacket (ingress egress : InterfaceId) (packet : Ipv4Packet) (now : SimTime)
  | InboundPacket (ingress : InterfaceId) (packet : Ipv4Packet) (now : SimTime)
  | ProxyArp (interface : InterfaceId) (address : Ipv4Addr) (now : SimTime).
Definition run_nat (o : nat_operation) : op () :=
  match o with
  | SetNatRole i r => set_nat_role i r
  | SetNatOverload a i => set_nat_overload a i
  | AddStaticNat r => add_static_nat r
  | SetNatPool n p => set_nat_pool n p
  | SetNatPoolRule r => set_nat_pool_rule r
  | ClearNat => modify clear_nat_translations
  | OutboundPacket i e p now => modify (λ d, (nat_outbound i e p now d).2)
  | InboundPacket i p now => modify (λ d, (translate_nat_inbound i p now d).2)
  | ProxyArp i a now => modify (λ d, (nat_owns_address i a now d).2)
  end.
Definition run_nats (os : list nat_operation) (d : Device) : Device := foldl (λ d o, (run_nat o d).2) d os.
Lemma keeps_run_nat o : preserves nat_ok (run_nat o).
Proof.
  destruct o; cbn [run_nat].
  - apply set_nat_role_ok.
  - apply set_nat_overload_ok.
  - apply add_static_nat_ok.
  - apply set_nat_pool_ok.
  - apply set_nat_pool_rule_ok.
  - apply preserves_modify. intros d Hd. apply (cleared_ok d); try done. apply (nat_rule_pool _ Hd).
  - apply preserves_modify. intros d. apply nat_outbound_ok.
  - apply preserves_modify. intros d. apply translate_nat_inbound_ok.
  - apply preserves_modify. intros d Hd. unfold nat_owns_address. destruct (_ || _); [done|]. by apply expire_nat_ok.
Qed.
Lemma run_nats_ok os d : nat_ok d → nat_ok (run_nats os d).
Proof.
  unfold run_nats. revert d. induction os as [|o os IH]; intros d Hd; [done|]. apply IH. by apply keeps_run_nat.
Qed.

Lemma inbound_unique d i j e e' :
  nat_ok d → nat_translations d !! i = Some e → nat_translations d !! j = Some e' → inbound_key e = inbound_key e' → i = j.
Proof.
  intros Hd Hi Hj He. pose proof (nat_table _ Hd) as [_ To Tm _]. injection He as E1 E2 E3 E4 E5.
  destruct (nat_shared _) as [[]|].
  - destruct Tm as [Hn _]. eapply NoDup_lookup; [exact Hn|by rewrite list_lookup_fmap, Hi|]. rewrite list_lookup_fmap, Hj. cbn. congruence.
  - destruct (Tm e) as [Hp Hl]; [by eapply list_elem_of_lookup_2|].
    destruct (Tm e') as [Hp' _]; [by eapply list_elem_of_lookup_2|].
    eapply NoDup_lookup; [exact To|by rewrite list_lookup_fmap, Hi|]. rewrite list_lookup_fmap, Hj. cbn. unfold outbound_key.
    rewrite <-Hp, (Hl e'), E1, E3, E4, E5, Hp' by (done || by eapply list_elem_of_lookup_2). done.
  - by rewrite Tm in Hi.
Qed.

(** *** Rewriting a packet *)

(** The octets an IPv4 packet can carry. *)
Definition packet_ok (p : Ipv4Packet) : Prop := bytes_ok (payload p) ∧ len (payload p) ≤ 65515.

(** The transport of a packet after a change of one port. *)
Definition with_port (from : bool) (port : Z) (t : NatProtocol * Z * Z) : NatProtocol * Z * Z :=
  let '(k, x, y) := t in
  if bool_decide (k = NatIcmp) then (k, port, 0) else if from then (k, port, y) else (k, x, port).

Lemma ok_Some {E A} (m : res E A) a : ok m = Some a ↔ m = Ok a.
Proof. destruct m; split; by intros [= ->]. Qed.

Lemma rewrite_port p a port from t :
  packet_ok p → u16 port → outbound_transport p = Some t →
  ∃ p', rewrite p a (Some port) from = Some p'
    ∧ source p' = (if from then a else source p) ∧ destination p' = (if from then destination p else a)
    ∧ outbound_transport p' = Some (with_port from port t) ∧ packet_ok p'.
Proof.
  intros [Hb Hl] Hport. unfold outbound_transport, rewrite. destruct (protocol p) eqn:Ep; try done.
  - intros H. apply bind_Some in H as (e & He & [= <-]). apply ok_Some in He. rewrite bool_decide_true by by eexists.
    destruct (Icmp.echo_decode_ok _ _ Hb ltac:(unfold Checksum.MAX_SUMMED; lia) He) as [(Hi & Hs & Hp & Hn) Hlen].
    destruct (Icmp.echo_decode_encode (echo_with_port (Some port) e)) as (bs & Henc & Hdec & Hbs & Hbl); [done|].
    rewrite (proj2 (ok_Some _ _) He). cbn [mbind option_bind]. rewrite Henc. cbn [ok mbind option_bind]. eexists. split; [done|].
    cbn [source destination protocol payload]. rewrite Hdec. split_and!; try done.
    split; cbn [payload]; [done|]. rewrite Hbl. cbn. lia.
  - intros H. apply bind_Some in H as (s & Hs & [= <-]). apply ok_Some in Hs.
    destruct (TcpSegment.segment_decode_ok _ _ _ _ Hb Hs) as (Hok & Hsend & Hlen).
    set (s' := tcp_with_port (Some port) from s).
    assert (Hok' : TcpSegment.segment_ok s').
    { destruct Hok as (?&?&?&?&?&?&?&?). unfold s', TcpSegment.segment_ok, tcp_with_port. by destruct from; cbn. }
    assert (Hsend' : TcpSegment.sendable s') by exact Hsend.
    rewrite (proj2 (ok_Some _ _) Hs). cbn [mbind option_bind]. fold s'.
    set (src := if from then a else source p). set (dst := if from then destination p else a).
    destruct (TcpSegment.segment_encode_eq src dst s' Hok' Hsend') as (c & He & Hz). rewrite He.
    cbn [ok mbind option_bind]. eexists. split; [done|]. cbn [source destination protocol payload].
    rewrite (TcpSegment.segment_decode_eq src dst s' c Hok' Hsend' Hz). cbn [ok mbind option_bind]. split_and!; [done..| |].
    + by destruct from.
    + split; cbn [payload]; [by apply TcpSegment.segment_bytes|]. rewrite TcpSegment.segment_length. subst s'. cbn. lia.
  - intros H. apply bind_Some in H as (u & Hu & [= <-]). apply ok_Some in Hu.
    destruct (Udp.udp_decode_ok _ _ Hb Hu) as [Hok Hlen].
    rewrite (proj2 (ok_Some _ _) Hu). cbn [mbind option_bind]. set (u' := udp_with_port (Some port) from u).
    assert (Hok' : Udp.udp_ok u').
    { destruct Hok as (?&?&?). unfold u', Udp.udp_ok, udp_with_port. by destruct from; cbn. }
    rewrite Udp.udp_encode_eq. assert (65527 <? len (Udp.payload u') = false) as -> by (subst u'; cbn; lia).
    cbn [ok mbind option_bind]. eexists. split; [done|]. cbn [source destination protocol payload].
    pose proof (Udp.udp_decode_eq u' 0 [] Hok' ltac:(subst u'; cbn; lia)) as Hd. rewrite app_nil_r in Hd. rewrite Hd.
    cbn [ok mbind option_bind]. split_and!; [done..| |].
    + by destruct from.
    + split; cbn [payload]; [by apply Udp.datagram_ok|]. rewrite Udp.datagram_len. subst u'. cbn [Udp.payload udp_with_port].
      pose proof (Udp.udp_decode_short _ _ Hu). lia.
Qed.

(** *** The entry a translated packet leaves behind *)

Lemma outbound_entry i e p now d p' d' :
  nat_ok d → packet_ok p → translate_static p true d = None → nat_outbound i e p now d = (NatTranslated, p', d') →
  ∃ t en j, outbound_transport p = Some t ∧ nat_translations d' !! j = Some en
    ∧ nat_expires_at en = sat_add U64_MAX now (NAT_TIMEOUT_MS * 1000)
    ∧ outbound_key en = (t.1.1, source p, t.1.2, destination p, t.2)
    ∧ rewrite p (inside_global_address en) (Some (inside_global_port en)) true = Some p'
    ∧ running_config d' = running_config d ∧ nat_role_of d e = Some Outside.
Proof.
  intros Hd Hp Hs. unfold nat_outbound. destruct (_ || _) eqn:Hr; [done|]. rewrite Hs.
  apply orb_false_iff in Hr as [_ Hr%negb_false_iff%bool_decide_eq_true].
  destruct (nat_policy d e) as [[[acl pool] shared]|] eqn:Hpol; [|done].
  destruct (access_list_permits _ _ _); [|done]. unfold nat_dynamic.
  destruct (outbound_transport p) as [[[k x] y]|] eqn:Ht; [|done].
  pose proof (expire_nat_ok now d Hd) as Hx. cbv zeta. set (dx := expire_nat now d) in *.
  assert (Huse : ∀ d1 j en, nat_translations d1 !! j = Some en → running_config d1 = running_config d →
    outbound_key en = (k, source p, x, destination p, y) → use_outbound j en p now d1 = (NatTranslated, p', d') →
    ∃ t en j, Some (k, x, y) = Some t ∧ nat_translations d' !! j = Some en
      ∧ nat_expires_at en = sat_add U64_MAX now (NAT_TIMEOUT_MS * 1000)
      ∧ outbound_key en = (t.1.1, source p, t.1.2, destination p, t.2)
      ∧ rewrite p (inside_global_address en) (Some (inside_global_port en)) true = Some p'
      ∧ running_config d' = running_config d ∧ nat_role_of d e = Some Outside).
  { intros d1 j en Hj Hc Hkey. unfold use_outbound. destruct (rewrite _ _ _ _) as [q|] eqn:Hq; [|done]. intros [= <- <-].
    exists (k, x, y), (refreshed now en), j. split_and!; try done.
    cbn. rewrite list_lookup_insert_eq; [done|]. by eapply lookup_lt_Some. }
  destruct (position _ _) as [j|] eqn:Hj.
  - destruct (position_Some _ _ _ Hj) as (en & Hen & Hkey%bool_decide_eq_true). rewrite Hen. by apply Huse.
  - destruct (new_translation _ _ _ _ _ _ dx) as [[en|] d1] eqn:Hn; [|done].
    destruct (new_translation_spec _ _ _ _ _ _ _ _ _ _ _ Hx Hn) as [(n & -> & Hnn) H].
    destruct (H en eq_refl) as (_ & Hkey & _). apply Huse; [by apply (list_lookup_middle _ [])|done|exact Hkey].
Qed.

(** A dynamic mapping a static rule could take over is one of the overload of
    an interface whose address a static rule owns. *)
Lemma dynamic_not_static d en k y q :
  nat_ok d → en ∈ nat_translations d →
  (nat_pool_rule (running_config d) = None → ∀ l, StaticAddress l (inside_global_address en) ∉ static_nat (running_config d)) →
  destination q = inside_global_address en → inbound_transport q = Some (k, inside_global_port en, y) →
  translate_static q false d = None.
Proof.
  intros Hd Hen Haddr Hq Ht. unfold translate_static. cbn [negb]. rewrite Hq, Ht.
  destruct (find _ (nat_rules d)) as [s|] eqn:Hf; [|done]. exfalso.
  apply find_some in Hf as [Hs%list_elem_of_In%elem_of_nat_rules Hm]. unfold static_matches in Hm.
  apply andb_true_iff in Hm as [Hg Hm]. pose proof (nat_table _ Hd) as [_ _ Tm Tp].
  unfold nat_shared in Tm. destruct (nat_pool_rule (running_config d)) as [r|] eqn:Hr.
  - destruct (nat_rule_pool _ Hd r Hr) as [[pool Hpool] _]. destruct (Tp r pool eq_refl Hpool en Hen) as [_ Hne].
    apply (Hne s Hs). lia.
  - destruct (nat_overload _); [|by rewrite Tm in Hen; apply elem_of_nil in Hen]. destruct Tm as [_ Tm].
    destruct (Tm en Hen) as [_ Hns]. destruct s as [l g|pr l lp g gp]; cbn in Hg, Hm.
    + apply (Haddr eq_refl l). by replace (inside_global_address en) with g by lia.
    + apply andb_true_iff in Hm as [_ Hm]. apply (Hns pr l lp g). by replace (inside_global_port en) with gp by lia.
Qed.

Lemma port_u16 p t : packet_ok p → outbound_transport p = Some t → u16 t.1.2.
Proof.
  intros [Hb Hl]. unfold outbound_transport. destruct (protocol p); try done; intros H;
    apply bind_Some in H as (x & Hx%ok_Some & [= <-]); cbn.
  - by destruct (Icmp.echo_decode_ok _ _ Hb ltac:(unfold Checksum.MAX_SUMMED; lia) Hx) as [(Hi & _) _].
  - by destruct (TcpSegment.segment_decode_ok _ _ _ _ Hb Hx) as [(Hi & _) _].
  - by destruct (Udp.udp_decode_ok _ _ Hb Hx) as [(Hi & _) _].
Qed.
Lemma inbound_rewrite p a port t :
  packet_ok p → u16 port → inbound_transport p = Some t →
  ∃ p', rewrite p a (Some port) false = Some p' ∧ source p' = source p ∧ destination p' = a
    ∧ inbound_transport p' = Some (t.1.1, port, t.2).
Proof.
  intros Hp Hport. unfold inbound_transport. intros H. apply bind_Some in H as ([[k x] y] & Ht & [= <-]).
  destruct (rewrite_port p a port false _ Hp Hport Ht) as (p' & Hr & Hs & Hd & Ht' & _).
  exists p'. split_and!; try done. rewrite Ht'. cbn. by destruct k.
Qed.
Lemma global_port_u16 d en p t :
  nat_ok d → en ∈ nat_translations d → packet_ok p → outbound_transport p = Some t → inside_local_port en = t.1.2 →
  u16 (inside_global_port en).
Proof.
  intros Hd Hen Hp Ht Hl. pose proof (nat_table _ Hd) as [_ _ Tm _]. pose proof (port_u16 p t Hp Ht) as Hu.
  destruct (nat_shared _) as [[]|].
  - destruct Tm as [_ Tm]. destruct (Tm en Hen) as [? _]. unfold NAT_PORT_FIRST, NAT_PORT_LAST in *. lia.
  - destruct (Tm en Hen) as [-> _]. by rewrite Hl.
  - rewrite Tm in Hen. by apply elem_of_nil in Hen.
Qed.

(** ** Properties *)

(** The search for a port of an overload never fails: while the table and
    the static rules are within their bounds, the ports they leave are enough. *)
Theorem nat_port_available d :
  nat_ok d →
  ∃ port, (allocate_nat_port d).1 = Some port ∧ NAT_PORT_FIRST ≤ port ≤ NAT_PORT_LAST
    ∧ (∀ e, e ∈ nat_translations d → inside_global_port e ≠ port) ∧ port_not_static (running_config d) port.
Proof.
  intros Hd. destruct (allocate_nat_port_total d Hd) as [port Hp]. exists port. split; [done|].
  destruct (allocate_from_spec (Z.to_nat (NAT_PORT_LAST - NAT_PORT_FIRST + 1)) d (nat_next _ Hd)) as (n & _ & _ & H).
  destruct (H port Hp) as [Hr Hf]. split; [done|]. by apply port_free_spec.
Qed.

(** C9: A reply finds its way back. When a packet [p] left by [e] through a
    dynamic translation as [p'], any packet [q] that comes back to [e] before
    the translation expires, from where [p'] went and to where it seemed to
    come from, address and port, is translated to the host and the port that
    sent [p]; unless the overloaded interface's own address is also the global
    address of a static rule, which then takes the reply. *)
Theorem nat_reply_restored i e p now d p' d' q now' k x y :
  nat_ok d → packet_ok p → packet_ok q →
  translate_static p true d = None → nat_outbound i e p now d = (NatTranslated, p', d') →
  (nat_pool_rule (running_config d) = None → ∀ l, StaticAddress l (source p') ∉ static_nat (running_config d)) →
  outbound_transport p = Some (k, x, y) →
  inbound_transport q = outbound_transport p' → source q = destination p' → destination q = source p' →
  now' < sat_add U64_MAX now (NAT_TIMEOUT_MS * 1000) →
  ∃ q' d'', translate_nat_inbound e q now' d' = (true, q', d'')
    ∧ destination q' = source p ∧ source q' = source q ∧ inbound_transport q' = Some (k, x, y).
Proof.
  intros Hd Hp Hq Hst Hout Haddr Ht Hqt Hqs Hqd Hnow.
  destruct (outbound_entry _ _ _ _ _ _ _ Hd Hp Hst Hout) as (t & en & j & Ht' & Hj & Hexp & Hkey & Hrw & Hc & Hrole).
  rewrite Ht in Ht'. injection Ht' as <-. cbn in Hkey. injection Hkey as K1 K2 K3 K4 K5.
  assert (Hd' : nat_ok d') by (pose proof (nat_outbound_ok i e p now d Hd) as H; by rewrite Hout in H).
  assert (Hen : en ∈ nat_translations d') by by eapply list_elem_of_lookup_2.
  pose proof (global_port_u16 d' en p _ Hd' Hen Hp Ht K3) as Hgp.
  destruct (rewrite_port p (inside_global_address en) (inside_global_port en) true _ Hp Hgp Ht) as (p1 & Hrw1 & Hs1 & Hd1 & Ht1 & _).
  rewrite Hrw in Hrw1. injection Hrw1 as <-. cbn in Hs1, Hd1.
  assert (Hqt' : inbound_transport q = Some (k, inside_global_port en, y)).
  { rewrite Hqt, Ht1. cbn. case_bool_decide as Hk; [|done]. subst k. unfold outbound_transport in Ht.
    destruct (protocol p); try done; apply bind_Some in Ht as (? & _ & Ht); congruence. }
  unfold translate_nat_inbound.
  rewrite bool_decide_true by (unfold nat_role_of, configs in *; by rewrite Hc). cbn [negb].
  rewrite (dynamic_not_static d' en k y q); [|exact Hd'|exact Hen|rewrite Hc, <-Hs1; exact Haddr|congruence|exact Hqt'].
  cbv zeta. rewrite Hqt'. pose proof (expire_nat_ok now' d' Hd') as Hx. set (dx := expire_nat now' d') in *.
  assert (Henx : en ∈ nat_translations dx) by (apply list_elem_of_filter; split; [by rewrite Hexp|done]).
  assert (Hin : inbound_key en = (k, destination q, inside_global_port en, source q, y)).
  { unfold inbound_key. rewrite K1, K4, K5, Hqd, Hqs, Hs1, Hd1. done. }
  destruct (position _ _) as [j'|] eqn:Hpos.
  - destruct (position_Some _ _ _ Hpos) as (e2 & He2 & Hkey2%bool_decide_eq_true). rewrite He2.
    apply list_elem_of_lookup in Henx as [jx Hjx]. rewrite <-Hin in Hkey2.
    assert (j' = jx) as -> by (by eapply inbound_unique). rewrite Hjx in He2. injection He2 as <-.
    assert (Hx16 : u16 (inside_local_port en)) by (rewrite K3; exact (port_u16 p _ Hp Ht)).
    destruct (inbound_rewrite q (inside_local_address en) (inside_local_port en) _ Hq Hx16 Hqt') as (q' & Hr & Hqs' & Hqd' & Hqt2).
    rewrite Hr. eexists q', _. split; [done|]. split_and!; [congruence|done|]. rewrite Hqt2. cbn. by rewrite K3.
  - rewrite position_None in Hpos. specialize (Hpos en Henx). apply bool_decide_eq_false in Hpos. by rewrite Hin in Hpos.
Qed.

(** A router that shares the address of its second port with the hosts of 10/8. *)
Definition nat_router : res DeviceError Device :=
  d ← device_new 1 (text "R1") Router;
  let d := run_operations [AddPhysicalInterface (text "gi0/0"); AddPhysicalInterface (text "gi0/1");
                           SetIpv4 2 {| address := 0xcb007101; prefix_len := 24 |}] d in
  Ok (run_acl (AddAccessListEntry 1 {| standard_action := Permit; standard_source := 0x0a000000; standard_wildcard := 0xffffff |}) d).2.
Definition nat_setup : list nat_operation := [SetNatRole 1 Inside; SetNatRole 2 Outside; SetNatOverload 1 2].
Definition udp_octets (src dst : Z) : bytes :=
  match Udp.udp_encode {| Udp.source_port := src; Udp.destination_port := dst; Udp.payload := [1] |} with Ok bs => bs | _ => [] end.
Definition query : Ipv4Packet :=
  {| dscp_ecn := 0; source := 0x0a000002; destination := 0xcb007102; ttl := 64; protocol := Udp; payload := udp_octets 1234 53 |}.
Definition answer : Ipv4Packet :=
  {| dscp_ecn := 0; source := 0xcb007102; destination := 0xcb007101; ttl := 64; protocol := Udp; payload := udp_octets 53 10000 |}.
Lemma nat_ok_empty d :
  static_nat (running_config d) = ∅ → nat_pool_rule (running_config d) = None → nat_translations d = [] →
  next_nat_port d = NAT_PORT_FIRST → nat_ok d.
Proof.
  intros E1 E2 E3 E4. constructor; rewrite ?E1, ?E2, ?E3, ?E4; try done; apply table_ok_nil.
Qed.
Lemma nat_router_ok : ∃ d, nat_router = Ok d ∧ nat_ok d.
Proof.
  destruct nat_router as [d|e|] eqn:E; [|by vm_compute in E..]. exists d. split; [done|].
  assert (H : (d ← nat_router; Ok (bool_decide (static_nat (running_config d) = ∅)
    && bool_decide (nat_pool_rule (running_config d) = None) && bool_decide (nat_translations d = [])
    && bool_decide (next_nat_port d = NAT_PORT_FIRST))) = @Ok DeviceError _ true) by by vm_compute.
  rewrite E, bind_Ok in H. apply Ok_inj in H. rewrite !andb_true_iff, !bool_decide_eq_true in H.
  destruct H as [[[? ?] ?] ?]. by apply nat_ok_empty.
Qed.
Lemma packets_ok : packet_ok query ∧ packet_ok answer.
Proof. split; (split; [apply (bool_decide_unpack _); by vm_compute|by vm_compute]). Qed.

Lemma nat_port_available_witness : ∃ d port, nat_router = Ok d ∧ (allocate_nat_port d).1 = Some port.
Proof.
  destruct nat_router_ok as (d & Hd & Hok). destruct (nat_port_available d Hok) as (port & Hp & _). exists d, port. split; [exact Hd|exact Hp].
Defined.
(** The answer to the first host's query comes back to its port 1234. *)
Lemma nat_reply_restored_witness :
  ∃ d p' d' q' d'', nat_router = Ok d
    ∧ nat_outbound 1 2 query 0 (run_nats nat_setup d) = (NatTranslated, p', d')
    ∧ translate_nat_inbound 2 answer 1000 d' = (true, q', d'')
    ∧ destination q' = 0x0a000002 ∧ inbound_transport q' = Some (NatUdp, 1234, 53).
Proof.
  destruct nat_router_ok as (d & Hd & Hok). destruct packets_ok as [Hq Ha].
  assert (H : (d ← nat_router;
    let dn := run_nats nat_setup d in let r := nat_outbound 1 2 query 0 dn in
    Ok ((r.1.1, source r.1.2, destination r.1.2, outbound_transport r.1.2),
        (bool_decide (translate_static query true dn = None), bool_decide (static_nat (running_config dn) = ∅),
         outbound_transport query, inbound_transport answer)))
    = @Ok DeviceError _ ((NatTranslated, 0xcb007101, 0xcb007102, Some (NatUdp, 10000, 53)),
         (true, true, Some (NatUdp, 1234, 53), Some (NatUdp, 10000, 53)))) by by vm_compute.
  rewrite Hd, bind_Ok in H. apply Ok_inj in H. cbv zeta in H.
  assert (Hn : nat_ok (run_nats nat_setup d)) by by apply run_nats_ok.
  destruct (nat_outbound 1 2 query 0 (run_nats nat_setup d)) as [[o p'] d'] eqn:Hout. cbn [fst snd] in H.
  set (dn := run_nats nat_setup d) in *.
  apply pair_equal_spec in H as [H1 H2]. apply pair_equal_spec in H1 as [H1 Ht'].
  apply pair_equal_spec in H1 as [H1 Hd']. apply pair_equal_spec in H1 as [-> Hs'].
  apply pair_equal_spec in H2 as [H2 Hq']. apply pair_equal_spec in H2 as [H2 Ht].
  apply pair_equal_spec in H2 as [Hst Hempty].
  apply bool_decide_eq_true_1 in Hst. apply bool_decide_eq_true_1 in Hempty.
  assert (Haddr : nat_pool_rule (running_config dn) = None → ∀ l, StaticAddress l (source p') ∉ static_nat (running_config dn))
    by (intros _ l; rewrite Hempty; apply not_elem_of_empty).
  destruct (nat_reply_restored 1 2 query 0 dn p' d' answer 1000 NatUdp 1234 53 Hn Hq Ha Hst Hout Haddr Ht)
    as (q' & d'' & Hin & Hdst & _ & Hport).
  - rewrite Ht'. exact Hq'.
  - symmetry. exact Hd'.
  - symmetry. exact Hs'.
  - by vm_compute.
  - exists d, p', d', q', d''. split_and!; [exact Hd|exact Hout|exact Hin|exact Hdst|exact Hport].
Defined.
