(* ===== verification/Stp.v ===== *)
(** Spanning tree on one device
    (src/crates/rios-device/src/stp.rs and stp/config.rs): the choice of the
    root and of the port roles in every VLAN, the forwarding timers, guarded
    ports, and the proposals and agreements of the rapid protocol.

    An [StpInstance] is what a device knows of one VLAN. [recompute_instance]
    is the body of [recompute_stp_instance]; it reads the device but changes
    only the instance. *)
From S2P Require Import Prelude Wire State EventQueue Ethernet Switching Ipv4 Collections Config Inventory Device Interfaces.

Definition BPDU_AGREEMENT : Z := 64.
Definition BPDU_LEARNING : Z := 16.
Definition BPDU_FORWARDING : Z := 32.
Definition BPDU_ROLE_ROOT : Z := 8.
Definition BPDU_ROLE_DESIGNATED : Z := 12.
Definition BPDU_ROLE_ALTERNATE : Z := 4.

(** ** What an instance reads of the device *)

Definition bridge_id (d : Device) (vlan : VlanId) : option Z :=
  mac ← min_by_key (λ m, m) (mac_address <$> values (interfaces d));
  let priority := default 32768 (priorities (bridge_spanning_tree (running_config d)) !! vlan) in
  Some (Z.lor (Z.shiftl (Z.lor priority vlan) 48) (of_be (0 :: 0 :: mac))).
Definition port_policy (d : Device) (port : InterfaceId) : StpPortConfig :=
  match configs d !! port with Some c => spanning_tree c | None => StpPortConfig_default end.
Definition stp_port_id (d : Device) (port : InterfaceId) : Z :=
  Z.lor (Z.shiftl (stp_priority (port_policy d port)) 8) (Z.land port 0x0fff).
Definition stp_cost_of (d : Device) (port : InterfaceId) : Z :=
  match stp_cost (port_policy d port) with
  | Some cost => cost
  | None => if is_some_and (interfaces d !! port) (λ i, bool_decide (kind i = TenGigabitEthernet)) then 2 else 4
  end.
Definition is_rapid (d : Device) : bool := stp_rapid (bridge_spanning_tree (running_config d)).

(** The VLANs a port takes part in, and the ports of every VLAN. *)
Definition port_vlans (d : Device) (e : InterfaceId * InterfaceConfig) : list VlanId :=
  if bool_decide (is_Some (channel_group e.2)) || negb (protocol_up d e.1) then []
  else
    match switchport e.2 with
    | None => []
    | Some s =>
        match mode s with
        | Access => if bool_decide (is_Some (vlans (running_config d) !! access_vlan s)) then [access_vlan s] else []
        | Trunk =>
            filter (λ v, is_none_or (trunk_allowed_vlans s) (λ allowed, bool_decide (v ∈ allowed)) = true)
              (items (vlans (running_config d))).*1
        end
    end.
Definition push_port (id : InterfaceId) (ports : gmap VlanId (list InterfaceId)) (vlan : VlanId) :
    gmap VlanId (list InterfaceId) :=
  <[vlan := default [] (ports !! vlan) ++ [id]]> ports.
Definition stp_ports (d : Device) : gmap VlanId (list InterfaceId) :=
  foldl (λ ports e, foldl (push_port e.1) ports (port_vlans d e)) ∅ (items (configs d)).

(** ** The instance of one VLAN *)

Section instance.
Context (d : Device) (bridge : Z) (ports : list InterfaceId) (now : SimTime).

(** What is forgotten first: expired advertisements, and ports that left. *)
Definition trimmed (i : StpInstance) : StpInstance :=
  i <| stp_received ::= filter (λ e, e.1 ∈ ports ∧ now < stp_expires_at e.2) |>
    <| agreed ::= filter (λ p, p ∈ ports) |>
    <| transitions ::= filter (λ e, e.1 ∈ ports) |>.

(** The vector a port offers: root, cost through the port, neighbour, its
    port, our port. *)
Definition offered (e : InterfaceId * StpReceived) : list Z :=
  let b := configuration (bpdu e.2) in
  [Switching.root_id b; sat_add U32_MAX (Switching.root_cost b) (stp_cost_of d e.1); Switching.bridge_id b;
   Switching.port_id b; stp_port_id d e.1].
Definition best_offer (i : StpInstance) : option (InterfaceId * StpReceived) :=
  min_by_key offered (filter (λ e, guarded e.2 = false) (items (stp_received i))).
(** Root identifier, cost and port. *)
Definition choose_root (i : StpInstance) : Z * Z * option InterfaceId :=
  match best_offer i with
  | Some e =>
      if lex_ltb (offered e) [bridge; 0; bridge; 0; 0]
      then (Switching.root_id (configuration (bpdu e.2)),
            sat_add U32_MAX (Switching.root_cost (configuration (bpdu e.2))) (stp_cost_of d e.1), Some e.1)
      else (bridge, 0, None)
  | None => (bridge, 0, None)
  end.

Definition elected (i : StpInstance) : StpInstance :=
  let '(root, cost, port) := choose_root i in
  let changed := negb (root_id i =? root) || negb (bool_decide (root_port i = port)) || negb (root_cost i =? cost) in
  let i := if changed then i <| agreed := ∅ |> <| transitions := ∅ |> else i in
  i <| root_id := root |> <| root_cost := cost |> <| root_port := port |>.

(** Whether the advertisement of the neighbour is worse than ours. *)
Definition outranks (i : StpInstance) (port : InterfaceId) (r : StpReceived) : bool :=
  let b := configuration (bpdu r) in
  lex_ltb [root_id i; root_cost i; bridge; stp_port_id d port]
    [Switching.root_id b; Switching.root_cost b; Switching.bridge_id b; Switching.port_id b].
Definition is_guarded (i : StpInstance) (port : InterfaceId) : bool := is_some_and (stp_received i !! port) guarded.
Definition role_of (i : StpInstance) (port : InterfaceId) : StpPortRole :=
  if bool_decide (Some port = root_port i) then RoleRoot
  else if is_guarded i port || is_none_or (stp_received i !! port) (outranks i port) then RoleDesignated
  else RoleAlternate.
Definition state_of (i : StpInstance) (port : InterfaceId) (role : StpPortRole) (since : SimTime) : StpPortState :=
  let edge := portfast (port_policy d port) && bool_decide (stp_received i !! port = None) in
  if is_guarded i port || bool_decide (role = RoleAlternate) then Blocking
  else if edge || (is_rapid d && bool_decide (port ∈ agreed i)) then Forwarding
  else if sat_sub now since <? 15000000 then (if is_rapid d then Blocking else Listening)
  else if sat_sub now since <? 30000000 then Learning
  else Forwarding.
(** One turn of the loop over the ports. *)
Definition assign_port (previous : gmap InterfaceId (StpPortRole * StpPortState)) (i : StpInstance) (port : InterfaceId) :
    StpInstance :=
  let role := role_of i port in
  let i := if is_none_or (previous !! port) (λ old, negb (bool_decide (old.1 = role)))
           then i <| agreed ::= λ s, s ∖ {[port]} |> <| transitions ::= insert port now |> else i in
  let since := default now (transitions i !! port) in
  let i := i <| transitions ::= insert port since |> in
  i <| stp_ports_of ::= insert port (role, state_of i port role since) |>.

(** The new instance, and whether the learned addresses must go. *)
Definition recompute_instance (i : StpInstance) : StpInstance * bool :=
  let t := trimmed i in
  let e := elected t in
  let previous := stp_ports_of e in
  let i' := foldl (assign_port previous) (e <| stp_ports_of := ∅ |>) ports in
  let root_changed := negb (root_id t =? root_id e) || negb (bool_decide (root_port t = root_port e))
                      || negb (root_cost t =? root_cost e) in
  (i', root_changed || existsb (λ s, negb (bool_decide (stp_ports_of i' !! s.1 = Some s.2))) (items previous)).
End instance.

Definition recompute_stp_instance (vlan : VlanId) (ports : list InterfaceId) (now : SimTime) (d : Device) : Device :=
  match bridge_id d vlan with
  | None => d
  | Some bridge =>
      let '(i, changed) := recompute_instance d bridge ports now (default StpInstance_default (stp_runtime d !! vlan)) in
      let d := d <| stp_runtime ::= insert vlan i |> in
      if changed then d <| mac_table ::= filter (λ e, e.1.1 ≠ vlan) |> else d
  end.
Definition refresh_spanning_tree (now : SimTime) (d : Device) : Device :=
  if negb (supports_switching d) then d
  else
    let ports := stp_ports d in
    let d := d <| stp_runtime ::= filter (λ e, is_Some (ports !! e.1)) |> in
    foldl (λ d e, recompute_stp_instance e.1 e.2 now d) d (items ports).

(** ** Messages *)

Definition sends_rapid (d : Device) (i : StpInstance) (port : InterfaceId) : bool :=
  is_rapid d && is_none_or (stp_received i !! port) (λ peer, rapid (bpdu peer)).
Definition packet_flags (d : Device) (i : StpInstance) (port : InterfaceId) (role : StpPortRole) (state : StpPortState) : Z :=
  if sends_rapid d i port
  then
    let flags := match role with RoleRoot => BPDU_ROLE_ROOT | RoleDesignated => BPDU_ROLE_DESIGNATED | RoleAlternate => BPDU_ROLE_ALTERNATE end in
    let flags := if bool_decide (role = RoleDesignated) && negb (bool_decide (port ∈ agreed i)) then Z.lor flags BPDU_PROPOSAL else flags in
    let flags := if bool_decide (role = RoleRoot) && bool_decide (port ∈ agreed i) then Z.lor flags BPDU_AGREEMENT else flags in
    let flags := match state with Learning | Forwarding => Z.lor flags BPDU_LEARNING | _ => flags end in
    match state with Forwarding => Z.lor flags BPDU_FORWARDING | _ => flags end
  else 0.
(** The message a port sends, if it sends one. *)
Definition port_packet (d : Device) (bridge : Z) (i : StpInstance) (port : InterfaceId) (role : StpPortRole) (state : StpPortState) :
    option StpBpdu :=
  let rapid := sends_rapid d i port in
  if negb (bool_decide (role = RoleDesignated)) && negb (rapid && bool_decide (role = RoleRoot)) then None
  else
    let packet := stp_new {| Switching.root_id := root_id i; Switching.root_cost := root_cost i;
                             Switching.bridge_id := bridge; Switching.port_id := stp_port_id d port |}
                    rapid (packet_flags d i port role state) in
    let packet := match root_port i ≫= λ root, stp_received i !! root with
                  | Some root =>
                      {| configuration := configuration packet; Switching.rapid := Switching.rapid packet; flags := flags packet;
                         message_age := sat_add U16_MAX (message_age (bpdu root)) 256; max_age := max_age packet;
                         hello_time := hello_time packet; forward_delay := forward_delay packet |}
                  | None => packet
                  end in
    if message_age packet <? max_age packet then Some packet else None.
Definition instance_packets (d : Device) (vlan : VlanId) (i : StpInstance) : list (InterfaceId * VlanId * StpBpdu) :=
  match bridge_id d vlan with
  | None => []
  | Some bridge =>
      omap (λ e, packet ← port_packet d bridge i e.1 e.2.1 e.2.2; Some (e.1, vlan, packet)) (items (stp_ports_of i))
  end.
Definition stp_packets (now : SimTime) (d : Device) : list (InterfaceId * VlanId * StpBpdu) * Device :=
  let d := refresh_spanning_tree now d in
  (concat (map (λ e, instance_packets d e.1 e.2) (items (stp_runtime d))), d).
Definition stp_bpdus (now : SimTime) (d : Device) : list (InterfaceId * VlanId * ConfigurationBpdu) * Device :=
  let '(packets, d) := stp_packets now d in (map (λ p, (p.1, configuration p.2)) packets, d).

(** The three ways a port may be shut, synchronised or agreed. *)
Definition shut_guarded (interface : InterfaceId) (d : Device) : Device :=
  let d := d <| stp_errdisabled ::= λ s, s ∪ {[interface]} |>
             <| stp_runtime ::= fmap (λ i : StpInstance,
                  i <| stp_received ::= delete interface |> <| stp_ports_of ::= delete interface |>
                    <| agreed ::= λ s, s ∖ {[interface]} |>) |> in
  refresh_svi_states (forget_macs interface d).
Definition synchronize (d : Device) (interface : InterfaceId) (now : SimTime) (i : StpInstance) : StpInstance :=
  let i := foldl (λ i e,
    let edge := portfast (port_policy d e.1) && bool_decide (stp_received i !! e.1 = None) in
    if negb (e.1 =? interface) && bool_decide (e.2.1 = RoleDesignated) && negb edge
    then i <| agreed ::= λ s, s ∖ {[e.1]} |> <| transitions ::= insert e.1 now |> else i) i (items (stp_ports_of i)) in
  i <| agreed ::= λ s, s ∪ {[interface]} |>.
Definition negotiate (d : Device) (interface : InterfaceId) (packet : StpBpdu) (now : SimTime) (i : StpInstance) : StpInstance :=
  let role := fst <$> stp_ports_of i !! interface in
  if bool_decide (role = Some RoleRoot) && negb (Z.land (flags packet) BPDU_PROPOSAL =? 0)
  then if bool_decide (interface ∈ agreed i) then i else synchronize d interface now i
  else if bool_decide (role = Some RoleDesignated) && negb (Z.land (flags packet) BPDU_AGREEMENT =? 0)
          && (Z.land (flags packet) 12 =? BPDU_ROLE_ROOT)
          && (Switching.root_id (configuration packet) =? root_id i)
          && (root_cost i <=? Switching.root_cost (configuration packet))
  then i <| agreed ::= λ s, s ∪ {[interface]} |>
  else i.
Definition lifetime_of (packet : StpBpdu) : Z :=
  let lifetime := (sat_sub (max_age packet) (message_age packet) * 1000000) `div` 256 in
  if rapid packet then Z.min lifetime ((hello_time packet * 3000000) `div` 256) else lifetime.
(** Whether a port with a root guard must refuse the offer. *)
Definition refuses (d : Device) (interface : InterfaceId) (bridge : Z) (i : StpInstance) (b : ConfigurationBpdu) : bool :=
  root_guard (port_policy d interface)
  && lex_ltb [Switching.root_id b; Switching.root_cost b; Switching.bridge_id b] [root_id i; root_cost i; bridge].
Definition update_instance (vlan : VlanId) (f : StpInstance → StpInstance) (d : Device) : Device :=
  d <| stp_runtime ::= λ m, insert vlan (f (default StpInstance_default (m !! vlan))) m |>.
Definition receive_stp_packet (interface : InterfaceId) (vlan : VlanId) (packet : StpBpdu) (now : SimTime) (d : Device) :
    bool * Device :=
  match stp_ports d !! vlan with
  | None => (false, d)
  | Some members =>
      if negb (bool_decide (interface ∈ members)) then (false, d)
      else if bpdu_guard (port_policy d interface) then (true, shut_guarded interface d)
      else
        match bridge_id d vlan with
        | None => (false, d)
        | Some bridge =>
            let b := configuration packet in
            if Switching.bridge_id b =? bridge then (false, d)
            else
              let d := refresh_spanning_tree now d in
              let previous := default StpInstance_default (stp_runtime d !! vlan) in
              let guarded := refuses d interface bridge previous b in
              let received := {| bpdu := packet; guarded := guarded; stp_expires_at := sat_add U64_MAX now (lifetime_of packet) |} in
              let d := update_instance vlan (λ i,
                (if bool_decide (stp_received i !! interface = None) then i <| transitions ::= insert interface now |> else i)
                  <| stp_received ::= insert interface received |>) d in
              let d := recompute_stp_instance vlan members now d in
              let d := if is_rapid d && rapid packet && negb guarded
                       then recompute_stp_instance vlan members now
                              (update_instance vlan (negotiate d interface packet now) d)
                       else d in
              let current := default StpInstance_default (stp_runtime d !! vlan) in
              (negb (root_id previous =? root_id current) || negb (bool_decide (root_port previous = root_port current))
               || negb (bool_decide (stp_ports_of previous = stp_ports_of current))
               || negb (bool_decide (agreed previous = agreed current))
               || (rapid packet && negb (Z.land (flags packet) BPDU_PROPOSAL =? 0)
                   && bool_decide (root_port current = Some interface)), d)
        end
  end.
Definition receive_stp (interface : InterfaceId) (vlan : VlanId) (b : ConfigurationBpdu) (now : SimTime) (d : Device) : Device :=
  (receive_stp_packet interface vlan (stp_new b false 0) now d).2.

Definition stp_port_state (d : Device) (interface : InterfaceId) (vlan : VlanId) : option (StpPortRole * StpPortState) :=
  i ← stp_runtime d !! vlan; stp_ports_of i !! interface.
Definition stp_learning (d : Device) (interface : InterfaceId) (vlan : VlanId) : bool :=
  is_some_and (stp_port_state d interface vlan) (λ s, match s.2 with Learning | Forwarding => true | _ => false end).
Definition stp_forwarding (d : Device) (interface : InterfaceId) (vlan : VlanId) : bool :=
  is_some_and (stp_port_state d interface vlan) (λ s, bool_decide (s.2 = Forwarding)).

(** ** Configuration (stp/config.rs) *)

Definition set_stp_priority (vlan : VlanId) (priority : Z) : op () :=
  reject_if (λ d, negb (supports_switching d) || negb (priority `mod` 4096 =? 0)) InvalidSpanningTree;;
  modify (λ d, d <| running_config ::= λ r, r <| bridge_spanning_tree ::= λ s, s <| priorities ::= insert vlan priority |> |> |>).
Definition set_stp_port (id : InterfaceId) (policy : StpPortConfig) : op () :=
  reject_if (λ d, negb (is_switchport d id) || negb (stp_priority policy `mod` 16 =? 0)
                  || is_some_and (stp_cost policy) (λ cost, (cost =? 0) || (200000000 <? cost))) InvalidSpanningTree;;
  modify (λ d, if negb (root_guard policy)
               then d <| stp_runtime ::= fmap (λ i : StpInstance, i <| stp_received ::= alter (λ r, r <| guarded := false |>) id |>) |>
               else d);;
  update_config id (λ c, c <| spanning_tree := policy |>).
Definition set_stp_rapid (rapid : bool) : op () :=
  reject_if (λ d, negb (supports_switching d)) InvalidSpanningTree;;
  modify (λ d, d <| running_config ::= λ r, r <| bridge_spanning_tree ::= λ s, s <| stp_rapid := rapid |> |> |>
                 <| stp_runtime := ∅ |>).

(** ** Helper lemmas: one instance *)

(** What the roles of an instance depend on. *)
Definition vectors (i : StpInstance) : Z * Z * option InterfaceId * gmap InterfaceId StpReceived :=
  (root_id i, root_cost i, root_port i, stp_received i).
(** A port of an instance has the role its vectors give it; one that does not
    block is neither an alternate nor guarded. *)
Definition port_assigned (d : Device) (bridge : Z) (i : StpInstance) (port : InterfaceId) (s : StpPortRole * StpPortState) : Prop :=
  s.1 = role_of d bridge i port ∧ (s.2 ≠ Blocking → is_guarded i port = false ∧ s.1 ≠ RoleAlternate).

Section instance_lemmas.
Context (d : Device) (bridge : Z) (ports : list InterfaceId) (now : SimTime).

Lemma port_assigned_vectors i j port s :
  vectors i = vectors j → port_assigned d bridge i port s → port_assigned d bridge j port s.
Proof.
  intros [= E1 E2 E3 E4]. unfold port_assigned, role_of, outranks, is_guarded. by rewrite E1, E2, E3, E4.
Qed.
Lemma assign_vectors previous i port : vectors (assign_port d bridge now previous i port) = vectors i.
Proof. unfold assign_port. by destruct (is_none_or _ _). Qed.
Lemma assign_here previous i port :
  ∃ s, stp_ports_of (assign_port d bridge now previous i port) = <[port := s]> (stp_ports_of i) ∧ port_assigned d bridge i port s.
Proof.
  unfold assign_port. cbv zeta.
  assert (Hs : ∀ j since, vectors j = vectors i → port_assigned d bridge i port (role_of d bridge i port, state_of d now j port (role_of d bridge i port) since)).
  { intros j since [= E1 E2 E3 E4]. split; [done|]. unfold state_of. cbn [fst snd].
    assert (is_guarded j port = is_guarded i port) as -> by (unfold is_guarded; by rewrite E4).
    destruct (is_guarded i port); [done|]. cbn [orb]. case_bool_decide as Hr; [done|]. by intros _. }
  destruct (is_none_or _ _); (eexists; split; [reflexivity|by apply Hs]).
Qed.
Lemma assign_all previous i l :
  let i' := foldl (assign_port d bridge now previous) i l in
  vectors i' = vectors i
  ∧ ∀ port s, stp_ports_of i' !! port = Some s → stp_ports_of i !! port = Some s ∨ port_assigned d bridge i' port s.
Proof.
  revert i. induction l as [|p l IH]; intros i; cbn [foldl]; [by auto|].
  destruct (IH (assign_port d bridge now previous i p)) as [Hv Hp]. rewrite assign_vectors in Hv. split; [done|].
  intros port s Hs. destruct (Hp port s Hs) as [Hold|]; [|by right].
  destruct (assign_here previous i p) as (s' & Hset & Hok). rewrite Hset in Hold.
  apply lookup_insert_Some in Hold as [[<- <-]|[_ Hold]]; [|by left].
  right. by apply (port_assigned_vectors i).
Qed.

(** The root an instance has chosen: itself, or the best unguarded offer. *)
Definition root_chosen (i : StpInstance) : Prop :=
  match root_port i with
  | None => root_id i = bridge ∧ root_cost i = 0
  | Some port =>
      ∃ r, stp_received i !! port = Some r ∧ guarded r = false
        ∧ root_id i = Switching.root_id (configuration (bpdu r))
        ∧ root_cost i = sat_add U32_MAX (Switching.root_cost (configuration (bpdu r))) (stp_cost_of d port)
        ∧ root_id i ≤ bridge
        ∧ ∀ port' r', stp_received i !! port' = Some r' → guarded r' = false →
            lex_ltb (offered d (port', r')) (offered d (port, r)) = false
  end.
Lemma elected_chosen i : stp_received (elected d bridge i) = stp_received i ∧ root_chosen (elected d bridge i).
Proof.
  unfold elected. destruct (choose_root d bridge i) as [[root cost] port] eqn:Hc. cbv zeta.
  assert (Hr : ∀ j, stp_received j = stp_received i →
    stp_received (j <| root_id := root |> <| root_cost := cost |> <| root_port := port |>) = stp_received i
    ∧ root_chosen (j <| root_id := root |> <| root_cost := cost |> <| root_port := port |>)).
  2: { destruct (_ || _ || _); by apply Hr. }
  intros j Hj. split; [done|]. unfold root_chosen. cbn. unfold choose_root in Hc.
  destruct (best_offer d i) as [[p r]|] eqn:Hb; [|by injection Hc as <- <- <-].
  destruct (lex_ltb _ _) eqn:Hl; [|by injection Hc as <- <- <-]. injection Hc as <- <- <-.
  apply min_by_key_least in Hb as [Hin Hmin]. apply list_elem_of_filter in Hin as [Hg Hin]. apply elem_of_entries in Hin.
  exists r. cbn [fst snd] in *. rewrite Hj. split_and!; try done.
  - unfold offered in Hl. cbn in Hl. lia.
  - intros p' r' Hr' Hg'. apply (Hmin (p', r')), list_elem_of_filter. split; [done|]. by apply elem_of_entries.
Qed.
Lemma recompute_spec i :
  let i' := (recompute_instance d bridge ports now i).1 in
  root_chosen i' ∧ ∀ port s, stp_ports_of i' !! port = Some s → port_assigned d bridge i' port s.
Proof.
  unfold recompute_instance. cbv zeta. cbn [fst].
  set (e := elected d bridge (trimmed ports now i)). set (e0 := e <| stp_ports_of := ∅ |>).
  destruct (assign_all (stp_ports_of e) e0 ports) as [Hv Hp]. set (i' := foldl _ _ _) in *.
  split.
  - destruct (elected_chosen (trimmed ports now i)) as [_ Hc]. fold e in Hc.
    unfold root_chosen in *. injection Hv as E1 E2 E3 E4. rewrite E1, E2, E3, E4. exact Hc.
  - intros port s Hs. destruct (Hp port s Hs) as [He|]; [|done]. change (stp_ports_of e0) with (∅ : gmap InterfaceId (StpPortRole * StpPortState)) in He. by rewrite lookup_empty in He.
Qed.
End instance_lemmas.

(** ** Helper lemmas: the instances of a device *)

(** What the instances read. *)
Definition bases (d : Device) : gmap InterfaceId Interface * RunningConfig := (interfaces d, running_config d).
Lemma recompute_bases d d' : bases d = bases d' → recompute_instance d = recompute_instance d' ∧ bridge_id d = bridge_id d'.
Proof. destruct d, d'. cbn. intros [= -> ->]. split; reflexivity. Qed.
Lemma recompute_device vlan ports now d :
  bases (recompute_stp_instance vlan ports now d) = bases d
  ∧ stp_runtime (recompute_stp_instance vlan ports now d)
    = match bridge_id d vlan with
      | None => stp_runtime d
      | Some bridge => <[vlan := (recompute_instance d bridge ports now (default StpInstance_default (stp_runtime d !! vlan))).1]> (stp_runtime d)
      end.
Proof.
  unfold recompute_stp_instance. destruct (bridge_id d vlan); [|done].
  destruct (recompute_instance _ _ _ _ _) as [i []]; by split.
Qed.
Lemma refresh_fold now l d v :
  bases (foldl (λ d e, recompute_stp_instance e.1 e.2 now d) d l) = bases d
  ∧ (v ∈ l.*1 → ∀ bridge, bridge_id d v = Some bridge → ∀ i,
      stp_runtime (foldl (λ d e, recompute_stp_instance e.1 e.2 now d) d l) !! v = Some i →
      ∃ ports i0, i = (recompute_instance d bridge ports now i0).1).
Proof.
  revert d. induction l as [|[v' ports] l IH] using rev_ind; intros d; [split; [done|by intros ?%elem_of_nil]|].
  rewrite foldl_snoc, fmap_app. cbn [fst snd]. set (d1 := foldl _ d l).
  destruct (IH d) as [Hb Hi]. fold d1 in Hb, Hi. destruct (recompute_device v' ports now d1) as [Hb' Hr].
  split; [congruence|]. intros Hv bridge Hbr i Hl. rewrite Hr in Hl.
  destruct (recompute_bases d1 d Hb) as [Erec Ebr]. rewrite Ebr in Hl.
  destruct (decide (v' = v)) as [->|Hne].
  - rewrite Hbr, lookup_insert_eq in Hl. apply (inj Some) in Hl as <-. rewrite Erec. by do 2 eexists.
  - apply elem_of_app in Hv as [Hv|Hv%list_elem_of_singleton]; [|by subst]. apply Hi; try done.
    by destruct (bridge_id d v'); [rewrite lookup_insert_ne in Hl|].
Qed.
Lemma recompute_fold_None now l d v :
  v ∉ l.*1 → stp_runtime d !! v = None →
  stp_runtime (foldl (λ d e, recompute_stp_instance e.1 e.2 now d) d l) !! v = None.
Proof.
  revert d. induction l as [|[v' ps] l IH]; intros d Hin Hd; cbn [foldl fst snd]; [done|]. apply IH; [set_solver|].
  destruct (recompute_device v' ps now d) as [_ ->]. destruct (bridge_id d v'); [|done].
  rewrite lookup_insert_ne; [done|]. set_solver.
Qed.
Lemma refresh_bases now d : bases (refresh_spanning_tree now d) = bases d.
Proof.
  unfold refresh_spanning_tree. destruct (negb _); [done|]. cbv zeta.
  set (d0 := d <| stp_runtime ::= _ |>). by destruct (refresh_fold now (items (stp_ports d)) d0 0) as [-> _].
Qed.
(** After a refresh every instance is a recomputed one. *)
Lemma refresh_instance now d v bridge i :
  bridge_id d v = Some bridge → supports_switching d = true → stp_runtime (refresh_spanning_tree now d) !! v = Some i →
  ∃ ports i0, i = (recompute_instance d bridge ports now i0).1.
Proof.
  intros Hbr Hs. unfold refresh_spanning_tree. rewrite Hs. cbn [negb]. cbv zeta.
  set (d0 := d <| stp_runtime ::= _ |>). intros Hl. destruct (refresh_fold now (items (stp_ports d)) d0 v) as [_ Hi].
  destruct (recompute_bases d0 d eq_refl) as [Erec Ebr]. destruct (decide (v ∈ (items (stp_ports d)).*1)) as [Hin|Hin].
  - rewrite Ebr in Hi. destruct (Hi Hin bridge Hbr i Hl) as (ports & i0 & ->). rewrite Erec. by exists ports, i0.
  - rewrite recompute_fold_None in Hl; [done|done|]. unfold d0. cbn. apply map_lookup_filter_None. right.
    intros j _ [ports Hp]. cbn in Hp. apply Hin, list_elem_of_fmap. exists (v, ports). split; [done|]. by apply elem_of_entries.
Qed.

(** The messages a refreshed device sends in a VLAN. *)
Lemma elem_of_packets now d port v p :
  (port, v, p) ∈ (stp_packets now d).1 ↔
  ∃ i bridge role state, let d := refresh_spanning_tree now d in
    stp_runtime d !! v = Some i ∧ bridge_id d v = Some bridge ∧ stp_ports_of i !! port = Some (role, state)
    ∧ port_packet d bridge i port role state = Some p.
Proof.
  unfold stp_packets. cbv zeta. set (d' := refresh_spanning_tree now d). cbn [fst].
  rewrite list_elem_of_In, in_concat. split.
  - intros (l & Hl & Hp). apply in_map_iff in Hl as ([v' i] & <- & Hi). cbn [fst snd] in Hp.
    apply list_elem_of_In, elem_of_entries in Hi. unfold instance_packets in Hp. destruct (bridge_id d' v') as [bridge|] eqn:Hb; [|done].
    apply list_elem_of_In, list_elem_of_omap in Hp as ([q [role state]] & Hq & Hp). apply elem_of_entries in Hq. cbn [fst snd] in Hp.
    apply bind_Some in Hp as (p' & Hp & [= -> -> ->]). by exists i, bridge, role, state.
  - intros (i & bridge & role & state & Hi & Hb & Hs & Hp). exists (instance_packets d' v i). split.
    + apply in_map_iff. exists (v, i). split; [done|]. apply list_elem_of_In. by apply elem_of_entries.
    + unfold instance_packets. rewrite Hb. apply list_elem_of_In, list_elem_of_omap. exists (port, (role, state)).
      split; [by apply elem_of_entries|]. cbn [fst snd]. by rewrite Hp.
Qed.
