(* ===== verification/Switch.v ===== *)
(** The data plane of a switch: the VLAN of a received frame, the tag of a
    sent one, the table of learned addresses, the boundary checks and counters
    of an interface, and the ports a frame is forwarded to
    (src/crates/rios-device/src/lib.rs, ethernet.rs, subinterface.rs,
    channel.rs and lacp.rs; forward_switch_frame of
    src/crates/rios-topology/src/delivery.rs).

    [forward_switch_frame] returns the frames it hands to the cables, with
    their ports; [connected] says which ports have a cable. *)
From S2P Require Import Prelude Wire State Text EventQueue Ipv4 Ethernet Switching Collections Config Inventory Device Interfaces Stp.

(** ** VLANs of frames (lib.rs) *)

Definition vlan_allowed (s : SwitchportConfig) (vlan : VlanId) : bool :=
  is_none_or (trunk_allowed_vlans s) (λ allowed, bool_decide (vlan ∈ allowed)).
Definition classify_switch_ingress (d : Device) (id : InterfaceId) (frame : EthernetFrame) : option (VlanId * EthernetFrame) :=
  c ← configs d !! id;
  port ← switchport c;
  let is_tagged := bool_decide (ethertype frame = Dot1Q) in
  '(vlan, frame) ← match mode port with
                   | Access => if is_tagged then None else Some (access_vlan port, frame)
                   | Trunk => if is_tagged then ok (untagged frame) else Some (native_vlan port, frame)
                   end;
  let allowed := match mode port with Access => true | Trunk => vlan_allowed port vlan end in
  if allowed && bool_decide (is_Some (vlans (running_config d) !! vlan)) then Some (vlan, frame) else None.
Definition prepare_switch_egress (d : Device) (id : InterfaceId) (vlan : VlanId) (frame : EthernetFrame) : option EthernetFrame :=
  c ← configs d !! id;
  port ← switchport c;
  match mode port with
  | Access => if access_vlan port =? vlan then Some frame else None
  | Trunk => if vlan_allowed port vlan then Some (if native_vlan port =? vlan then frame else tagged frame vlan) else None
  end.

(** ** Subinterfaces of a routed port (subinterface.rs) *)

Definition subinterface_egress (d : Device) (id : InterfaceId) (frame : EthernetFrame) : option (InterfaceId * EthernetFrame) :=
  c ← configs d !! id;
  tag ← dot1q c;
  p ← parent c;
  if protocol_up d id then Some (p, if dot1q_native tag then frame else tagged frame (dot1q_vlan tag)) else None.
Definition selects (p : InterfaceId) (vlan : option VlanId) (e : InterfaceId * InterfaceConfig) : bool :=
  bool_decide (parent e.2 = Some p)
  && is_some_and (dot1q e.2) (λ tag, match vlan with Some v => dot1q_vlan tag =? v | None => dot1q_native tag end).
Definition routed_ingress (d : Device) (p : InterfaceId) (frame : EthernetFrame) : option (InterfaceId * EthernetFrame) :=
  let is_tagged := bool_decide (ethertype frame = Dot1Q) in
  '(vlan, inner) ← (if is_tagged then '(vlan, f) ← ok (untagged frame); Some (Some vlan, f) else Some (None, frame));
  match find (selects p vlan) (items (configs d)) with
  | Some (id, _) => if protocol_up d id then Some (id, inner) else None
  | None => if is_tagged then None else Some (p, inner)
  end.

(** ** Learned addresses (ethernet.rs) *)

Definition MAC_LIFETIME_MS : Z := 5 * 60 * 1000.
Definition learn_mac (vlan : VlanId) (address : MacAddress) (interface : InterfaceId) (now : SimTime) : op () :=
  reject_if (λ d, negb (supports_switching d) || negb (bool_decide (is_Some (interfaces d !! interface)))) MissingInterface;;
  modify (λ d,
    if negb (bool_decide (address = [0; 0; 0; 0; 0; 0])) && negb (is_multicast address)
    then d <| mac_table ::= insert (vlan, address)
                {| entry_vlan := vlan; entry_mac := address; entry_interface := interface; entry_learned_at := now |} |>
    else d).
Definition mac_lookup (vlan : VlanId) (address : MacAddress) (now : SimTime) (d : Device) : option MacEntry * Device :=
  match mac_table d !! (vlan, address) with
  | None => (None, d)
  | Some entry =>
      if MAC_LIFETIME_MS * 1000 <=? sat_sub now (entry_learned_at entry)
      then (None, d <| mac_table ::= delete (vlan, address) |>)
      else (Some entry, d)
  end.

(** ** The boundary of an interface (ethernet.rs) *)

Definition check_frame (d : Device) (id : InterfaceId) (frame : EthernetFrame) (receive : bool) : option DropReason :=
  match interfaces d !! id with
  | None => Some DropNotEthernet
  | Some i =>
      if negb (is_ethernet (kind i)) then Some DropNotEthernet
      else if negb (protocol_up d id) then Some DropInterfaceDown
      else
        let payload_len := if bool_decide (ethertype frame = Dot1Q) then sat_sub (len (payload frame)) 4 else len (payload frame) in
        if is_some_and (configs d !! id) (λ c, mtu c <? payload_len) then Some DropMtuExceeded
        else if negb (valid_length_or_type frame) then Some DropInvalidEtherType
        else if receive && negb (is_switchport d id) && negb (bool_decide (destination frame = mac_address i))
                && negb (is_some_and (channel_interface d id) (λ l,
                     is_some_and (interfaces d !! l) (λ j, bool_decide (mac_address j = destination frame))))
                && negb (is_multicast (destination frame))
        then Some DropNotForInterface
        else None
  end.
Definition update_counters (id : InterfaceId) (f : InterfaceCounters → InterfaceCounters) : op () :=
  i ← require (λ d, interfaces d !! id) MissingInterface;
  modify (λ d, d <| interfaces ::= insert id (i <| counters ::= f |>) |>).
Definition record_frame (id : InterfaceId) (length : Z) (receive : bool) : op () :=
  update_counters id (λ c,
    if receive : bool
    then c <| rx_packets ::= λ n, sat_add U64_MAX n 1 |> <| rx_bytes ::= λ n, sat_add U64_MAX n length |>
    else c <| tx_packets ::= λ n, sat_add U64_MAX n 1 |> <| tx_bytes ::= λ n, sat_add U64_MAX n length |>).
Definition record_drop (id : InterfaceId) : op () := update_counters id (λ c, c <| drops ::= λ n, sat_add U64_MAX n 1 |>).
Definition record_drop_reason (id : InterfaceId) (reason : DropReason) : op () :=
  record_drop id;;
  update_counters id (λ c, c <| drop_reasons ::= λ m, <[reason := sat_add U64_MAX (default 0 (m !! reason)) 1]> m |>).

(** ** Bundles (channel.rs, lacp.rs) *)

Definition flow_hash (frame : EthernetFrame) : Z :=
  foldl (λ hash byte, (hash * 31 + byte) `mod` 2 ^ 64) 0 (source frame ++ destination frame).
Definition channel_egress (d : Device) (logical : InterfaceId) (frame : EthernetFrame) : option InterfaceId :=
  if negb (protocol_up d logical) then None
  else
    let members := channel_members d logical in
    if bool_decide (members = []) then None
    else members !! Z.to_nat (flow_hash frame `mod` len members).
Definition channel_ingress (d : Device) (member : InterfaceId) : res DropReason InterfaceId :=
  match channel_interface d member with
  | None => Ok member
  | Some logical =>
      if protocol_up d logical && bool_decide (member ∈ channel_members d logical) then Ok logical else Err DropChannelInactive
  end.

Definition LACP_LIFETIME : Z := 3000000.
Definition lacp_acceptable (info : LacpPortInfo) (p : Lacpdu) : bool :=
  negb (bool_decide (system (actor p) = system info) || bool_decide (system (actor p) = [0; 0; 0; 0; 0; 0])
        || negb (Z.land (nth 0 (system (actor p)) 0) 1 =? 0) || (Switching.port (actor p) =? 0)
        || (Z.land (state (actor p)) LACP_AGGREGATION =? 0)).
Definition receive_lacp (id : InterfaceId) (p : Lacpdu) (now : SimTime) (d : Device) : option Lacpdu * Device :=
  match lacp_actor_with (protocol_up d) d id with
  | None => (None, d)
  | Some info =>
      if negb (lacp_acceptable info p) then (None, d)
      else
        let before := lacp_advertisement d id in
        let d := refresh_svi_states
                   (d <| lacp_neighbors ::= insert id {| pdu := p; lacp_expires_at := sat_add U64_MAX now LACP_LIFETIME |} |>) in
        let after := lacp_advertisement d id in
        (if bool_decide (before = after) then None else after, d)
  end.
Definition lacp_tick (now : SimTime) (d : Device) : list (InterfaceId * Lacpdu) * Device :=
  let d := refresh_svi_states (d <| lacp_neighbors ::= filter (λ e, now < lacp_expires_at e.2) |>) in
  (omap (λ id, p ← lacp_advertisement d id; Some (id, p)) (items (configs d)).*1, d).
Definition has_lacp (d : Device) : bool :=
  existsb (λ c, is_some_and (channel_group c) (λ g, negb (bool_decide (group_mode g = ModeOn)))) (values (configs d)).

(** ** Forwarding in a VLAN (delivery.rs) *)

Definition egress_port (d : Device) (connected : InterfaceId → bool) (vlan : VlanId) (learned : option MacEntry)
    (ingress port : InterfaceId) : bool :=
  negb (port =? ingress) && is_none_or learned (λ e, entry_interface e =? port) && protocol_up d port
  && stp_forwarding d port vlan && bool_decide (channel_interface d port = None)
  && (is_port_channel d port || connected port).
(** The entry a frame is forwarded by. *)
Definition lookup_for (vlan : VlanId) (f : EthernetFrame) (now : SimTime) (d : Device) : option MacEntry * Device :=
  if is_multicast (destination f) then (None, d) else mac_lookup vlan (destination f) now d.
Definition forward_switch_frame (connected : InterfaceId → bool) (ingress : InterfaceId) (vlan : VlanId) (frame : EthernetFrame)
    (now : SimTime) : op (list (InterfaceId * EthernetFrame)) :=
  blocked ← gets (λ d, negb (stp_forwarding d ingress vlan));
  if blocked : bool then record_drop_reason ingress DropStpBlocking;; mret []
  else
    learn_mac vlan (source frame) ingress now;;
    learned ← (λ d, let '(e, d) := lookup_for vlan frame now d in (Ok e, d));
    gets (λ d, omap (λ port, f ← prepare_switch_egress d port vlan frame; Some (port, f))
                 (filter (λ port, egress_port d connected vlan learned ingress port = true) (items (interfaces d)).*1)).

(** ** Helper lemmas: frames *)

(** A frame as a device holds it: well formed, of a valid length or type, and
    its type field in the form the decoder gives it. *)
Definition frame_valid (f : EthernetFrame) : Prop := frame_ok f ∧ valid_length_or_type f = true ∧ Ethernet.canonical f = f.

Lemma canonical_untagged f : Ethernet.canonical f = f → ethertype f ≠ Dot1Q → EtherType_to_u16 (ethertype f) ≠ 0x8100.
Proof.
  destruct f as [dst src ty pl]. unfold Ethernet.canonical. cbn. intros H Hne E. rewrite E in H. cbn in H.
  injection H as <-. done.
Qed.
Lemma u16_at_ok l i v : bytes_ok l → @u16_at FrameError l i = Ok v → u16 v.
Proof.
  intros Hb H. unfold u16_at in H. inv_ok. unfold idx in *.
  destruct (l !! i) as [a|] eqn:Ha; [|done]. destruct (l !! S i) as [b|] eqn:Hb'; [|done]. simplify_eq.
  apply (Forall_lookup_1 _ _ _ _ Hb) in Ha, Hb'. unfold of_be. cbn in *. lia.
Qed.
Lemma untagged_valid f vlan g : frame_valid f → untagged f = Ok (vlan, g) → frame_valid g ∧ ethertype g ≠ Dot1Q.
Proof.
  intros [(Hd & Hs & Hp & Ht) _]. unfold untagged. destruct (_ || _) eqn:Hlen; [done|]. intros H. inv_ok.
  apply orb_false_iff in Heqb as [Hshort Hq]. unfold slice_from in Hx2. destruct (_ <=? _)%nat eqn:Hle; [|done].
  injection Hx2 as <-. apply (u16_at_ok _ _ _ Hp) in Hx1. cbn in Hq.
  split; [split; [split_and!|split]|]; cbn [destination source payload ethertype]; try done.
  - by apply Forall_drop.
  - rewrite EtherType_roundtrip. lia.
  - rewrite EtherType_roundtrip. lia.
  - unfold valid_length_or_type. cbn. unfold EtherType_from_u16.
    assert (Hdrop : len (drop 4 (payload f)) = len (payload f) - 4) by (unfold len; rewrite length_drop; lia).
    repeat case_match; simplify_eq; cbn; lia.
  - unfold Ethernet.canonical. cbn [destination source payload ethertype]. by rewrite EtherType_roundtrip.
  - unfold EtherType_from_u16. repeat case_match; try done; lia.
Qed.
Lemma classify_valid d id f vlan g :
  frame_valid f → classify_switch_ingress d id f = Some (vlan, g) → frame_valid g ∧ ethertype g ≠ Dot1Q.
Proof.
  intros Hf. unfold classify_switch_ingress. intros H. apply bind_Some in H as (c & _ & H). apply bind_Some in H as (s & _ & H).
  apply bind_Some in H as ([v h] & Hm & H). destruct (_ && _); [|done]. injection H as -> ->.
  destruct (mode s); case_bool_decide as Hq; simplify_eq; try (by split).
  eapply untagged_valid; [exact Hf|]. by destruct (untagged f); simplify_eq/=.
Qed.

(** ** Helper lemmas: the ports of a VLAN *)

(** A port carries a VLAN; two ends of a cable read each other's frames alike. *)
Definition carries (s : SwitchportConfig) (vlan : VlanId) : bool :=
  match mode s with Access => access_vlan s =? vlan | Trunk => vlan_allowed s vlan end.
Definition agrees (s t : SwitchportConfig) : Prop := mode s = mode t ∧ native_vlan s = native_vlan t.

Lemma prepare_carries d id vlan f g :
  prepare_switch_egress d id vlan f = Some g →
  ∃ c s, configs d !! id = Some c ∧ switchport c = Some s ∧ carries s vlan = true
    ∧ g = match mode s with Access => f | Trunk => if native_vlan s =? vlan then f else tagged f vlan end.
Proof.
  unfold prepare_switch_egress. intros H. apply bind_Some in H as (c & Hc & H). apply bind_Some in H as (s & Hs & H).
  exists c, s. split; [done|]. split; [done|]. unfold carries. destruct (mode s).
  - destruct (_ =? _); [|done]. by injection H as <-.
  - destruct (vlan_allowed s vlan); [|done]. by injection H as <-.
Qed.
(** The other end of the cable puts the frame into the same VLAN. *)
Lemma classify_prepared e q s c vlan f :
  frame_valid f → ethertype f ≠ Dot1Q → vlan_ok vlan →
  configs e !! q = Some c → switchport c = Some s → carries s vlan = true → is_Some (vlans (running_config e) !! vlan) →
  classify_switch_ingress e q
    (match mode s with Access => f | Trunk => if native_vlan s =? vlan then f else tagged f vlan end) = Some (vlan, f).
Proof.
  intros (Hf & Hv & Hcan) Hne Hvlan Hc Hs Hcar Hex. unfold classify_switch_ingress. rewrite Hc. cbn [mbind option_bind].
  rewrite Hs. cbn [mbind option_bind]. unfold carries in Hcar. destruct (mode s).
  - rewrite bool_decide_false by done. apply Z.eqb_eq in Hcar. rewrite Hcar. cbn [mbind option_bind andb].
    by rewrite bool_decide_true.
  - destruct (native_vlan s =? vlan) eqn:Hnat.
    + rewrite bool_decide_false by done. apply Z.eqb_eq in Hnat. rewrite Hnat. cbn [mbind option_bind]. rewrite Hcar. cbn [andb].
      by rewrite bool_decide_true.
    + rewrite bool_decide_true by done. rewrite tagged_untagged by (try done; by apply canonical_untagged).
      rewrite Hcan. cbn [ok mbind option_bind]. rewrite Hcar. cbn [andb]. by rewrite bool_decide_true.
Qed.

(** Learning and looking up change the table of addresses only. *)
Lemma learn_mac_table v a i now d r d1 : learn_mac v a i now d = (r, d1) → ∃ t, d1 = d <| mac_table := t |>.
Proof.
  unfold learn_mac. rewrite run_reject. destruct (_ || _); [intros [= <- <-]; exists (mac_table d); by destruct d|].
  cbn. intros [= _ <-]. destruct (_ && _); [by eexists|]. exists (mac_table d). by destruct d.
Qed.
Lemma mac_lookup_table v a now d e d1 : mac_lookup v a now d = (e, d1) → ∃ t, d1 = d <| mac_table := t |>.
Proof.
  unfold mac_lookup. intros H. destruct (mac_table d !! (v, a)); [destruct (_ <=? _)|]; injection H as <- <-;
    [by eexists|exists (mac_table d); by destruct d..].
Qed.
Lemma forward_inv connected ingress vlan f now d out d' :
  forward_switch_frame connected ingress vlan f now d = (Ok out, d') → out ≠ [] →
  stp_forwarding d ingress vlan = true
  ∧ ∃ d1, learn_mac vlan (source f) ingress now d = (Ok (), d1)
  ∧ ∃ learned, lookup_for vlan f now d1 = (learned, d')
  ∧ out = omap (λ port, g ← prepare_switch_egress d port vlan f; Some (port, g))
            (filter (λ port, egress_port d connected vlan learned ingress port = true) (items (interfaces d)).*1).
Proof.
  unfold forward_switch_frame. rewrite run_gets. intros H Hne. destruct (stp_forwarding d ingress vlan); cbn [negb] in H.
  2:{ rewrite run_bind in H. by destruct (record_drop_reason _ _ _) as [[[]| |] ?]; injection H as <- _ || discriminate H. }
  split; [done|]. rewrite run_bind in H. destruct (learn_mac _ _ _ _ d) as [[[]| |] d1] eqn:Hl; [|done..].
  exists d1. split; [done|]. destruct (learn_mac_table _ _ _ _ _ _ _ Hl) as [t ->]. rewrite run_bind in H.
  destruct (lookup_for vlan f now (d <| mac_table := t |>)) as [learned d2] eqn:Hd2.
  assert (∃ t', d2 = d <| mac_table := t' |>) as [t' ->].
  { unfold lookup_for in Hd2. destruct (is_multicast _); [injection Hd2 as _ <-; by exists t|].
    destruct (mac_lookup_table _ _ _ _ _ _ Hd2) as [t' ->]. by exists t'. }
  exists learned. injection H as <- <-. split; [done|]. reflexivity.
Qed.

(** C6: vLANs are kept apart, and together, by switches and trunks. A frame that
    a port has put into a VLAN is forwarded only to other ports, each once, that
    spanning tree has opened in this VLAN and whose configuration carries it; and
    whatever switch is at the other end of such a port, if the two ends agree on
    mode and native VLAN and the other one carries the VLAN too, it puts the
    frame into the same VLAN with the same contents. *)
Theorem vlan_isolation d connected ingress raw vlan f now out d' :
  frame_valid raw → vlan_ok vlan → classify_switch_ingress d ingress raw = Some (vlan, f) →
  forward_switch_frame connected ingress vlan f now d = (Ok out, d') →
  NoDup out.*1
  ∧ ∀ port g, (port, g) ∈ out →
      port ≠ ingress ∧ protocol_up d port = true ∧ stp_forwarding d port vlan = true
      ∧ ∃ c s, configs d !! port = Some c ∧ switchport c = Some s ∧ carries s vlan = true
      ∧ ∀ e q c' s', configs e !! q = Some c' → switchport c' = Some s' → agrees s s' → carries s' vlan = true →
          is_Some (vlans (running_config e) !! vlan) → classify_switch_ingress e q g = Some (vlan, f).
Proof.
  intros Hraw Hvlan Hcl Hfw. destruct (classify_valid _ _ _ _ _ Hraw Hcl) as [Hf Hq].
  destruct (decide (out = [])) as [->|Hne]; [split; [constructor|by intros ? ? ?%elem_of_nil]|].
  destruct (forward_inv _ _ _ _ _ _ _ _ Hfw Hne) as (_ & _ & _ & learned & _ & ->). split.
  - assert (Hnd : NoDup (filter (λ port, egress_port d connected vlan learned ingress port = true) (items (interfaces d)).*1)).
    { apply NoDup_filter, entries_NoDup. }
    clear Hne Hfw. induction Hnd as [|x l Hx Hnd IH]; [constructor|]. cbn [omap list_omap].
    destruct (prepare_switch_egress d x vlan f); cbn [mbind option_bind]; [|done]. cbn [fmap list_fmap fst]. constructor; [|done].
    intros ([y h] & -> & Hy)%list_elem_of_fmap. apply list_elem_of_omap in Hy as (z & Hz & Hy).
    apply bind_Some in Hy as (? & _ & [= -> ->]). done.
  - intros port g Hin. apply list_elem_of_omap in Hin as (p & Hp & Hg). apply bind_Some in Hg as (g' & Hg & [= -> ->]).
    apply list_elem_of_filter in Hp as [Hp _]. unfold egress_port in Hp. rewrite !andb_true_iff in Hp.
    destruct Hp as [[[[[Hi _] Hup] Hstp] _] _]. split_and!; [lia|done|done|].
    destruct (prepare_carries _ _ _ _ _ Hg) as (c & s & Hc & Hs & Hcar & ->). exists c, s. split_and!; [done..|].
    intros e q c' s' Hc' Hs' [Hm Hn] Hcar' Hex. rewrite Hm, Hn. by eapply classify_prepared.
Qed.


(** *** The life of a learned entry *)






(** ** Bundles *)

Lemma bundle_unique d l l' c c' n :
  device_ok d → configs d !! l = Some c → configs d !! l' = Some c' → port_channel c = Some n → port_channel c' = Some n → l = l'.
Proof.
  intros Hd Hl Hl' Hc Hc'.
  destruct (device_ok_config _ _ _ Hd Hl) as (i & _ & Hi), (device_ok_config _ _ _ Hd Hl') as (i' & _ & Hi').
  apply (ok_port_channel _ _ _ _ Hi) in Hc as (_ & Hn & _). apply (ok_port_channel _ _ _ _ Hi') in Hc' as (_ & Hn' & _).
  apply (ok_names _ Hd l l' c c' Hl Hl'). rewrite Hn, Hn'. by apply bool_decide_eq_true.
Qed.
Lemma member_bundle d l m c n :
  device_ok d → configs d !! l = Some c → port_channel c = Some n → m ∈ channel_members d l → channel_interface d m = Some l.
Proof.
  intros Hd Hl Hn Hm. unfold channel_members, channel_members_with in Hm. rewrite Hl, Hn in Hm.
  apply list_elem_of_fmap in Hm as ([k cm] & -> & Hm). apply list_elem_of_filter in Hm as [Ha Hm%elem_of_entries]. cbn [fst snd] in *.
  unfold active_member in Ha. cbn [fst snd] in Ha. rewrite !andb_true_iff in Ha. destruct Ha as [[[Hg _] _] _].
  unfold channel_interface. rewrite Hm. cbn [mbind option_bind]. destruct (channel_group cm) as [g|]; [|done].
  cbn [is_some_and] in Hg. apply andb_true_iff in Hg as [Hg _]. apply Z.eqb_eq in Hg. cbn [mbind option_bind]. rewrite Hg.
  destruct (find _ _) as [[l' c']|] eqn:Hf; cbn.
  - f_equal. apply find_entries in Hf as (Hl' & Hc' & _). cbn in Hc'. apply bool_decide_eq_true in Hc'. by apply (bundle_unique d l' l c' c n).
  - unfold items in Hf. rewrite find_entries_None in Hf. specialize (Hf _ _ Hl). cbn in Hf. by rewrite bool_decide_true in Hf.
Qed.

(** C31: a bundle that is up always finds a member for a frame; frames of one
    flow (one source and destination) take the same member as long as the
    bundle is as it is; and the member it takes is one whose frames the
    bundle accepts as its own. *)
Theorem bundle_keeps_flow d l f i :
  device_ok d → interfaces d !! l = Some i → kind i = PortChannel → protocol_up d l = true →
  ∃ m, channel_egress d l f = Some m ∧ protocol_up d m = true ∧ channel_ingress d m = Ok l
    ∧ ∀ g, source g = source f → destination g = destination f → channel_egress d l g = Some m.
Proof.
  intros Hd Hi Hk Hup. pose proof Hup as Hfix. rewrite protocol_up_fix in Hfix by done. unfold protocol_up_with in Hfix.
  rewrite Hi, Hk in Hfix. rewrite !andb_true_iff in Hfix. destruct Hfix as [_ Hne]. apply negb_true_iff, bool_decide_eq_false in Hne.
  fold (channel_members d l) in Hne.
  assert (Hlt : (Z.to_nat (flow_hash f `mod` len (channel_members d l)) < length (channel_members d l))%nat).
  { assert (0 < len (channel_members d l)) by (unfold len; destruct (channel_members d l); [done|cbn; lia]).
    pose proof (Z.mod_pos_bound (flow_hash f) (len (channel_members d l)) ltac:(done)). unfold len in *. lia. }
  destruct (lookup_lt_is_Some_2 _ _ Hlt) as [m Hm]. exists m.
  assert (He : ∀ g, source g = source f → destination g = destination f → channel_egress d l g = Some m).
  { intros g Hs Hg. unfold channel_egress. rewrite Hup. cbn [negb]. rewrite bool_decide_false by done.
    unfold flow_hash in *. by rewrite Hs, Hg. }
  apply list_elem_of_lookup_2 in Hm. split; [by apply He|].
  assert (is_Some (configs d !! l)) as [c Hc] by (apply (ok_dom _ Hd); by eexists).
  assert (Hn : ∃ n, port_channel c = Some n).
  { unfold channel_members, channel_members_with in Hm. rewrite Hc in Hm. destruct (port_channel c); [by eexists|by apply elem_of_nil in Hm]. }
  destruct Hn as [n Hn]. split.
  - unfold channel_members, channel_members_with in Hm. rewrite Hc, Hn in Hm.
    apply list_elem_of_fmap in Hm as (e & -> & Hm). apply list_elem_of_filter in Hm as [Ha _]. unfold active_member in Ha.
    by apply andb_true_iff in Ha as [_ Ha].
  - split; [|done]. unfold channel_ingress. rewrite (member_bundle d l m c n) by done. rewrite Hup. by rewrite bool_decide_true.
Qed.

(** ** A switch with an access port and two trunks *)

Definition sample_switch : res DeviceError Device :=
  d ← device_new 1 (text "SW1") Switch;
  Ok (refresh_spanning_tree 30000000 (refresh_spanning_tree 0 (run_operations
    [AddPhysicalInterface (text "gi0/0"); AddPhysicalInterface (text "gi0/1"); AddPhysicalInterface (text "gi0/2");
     CreateVlan 10; SetAccessVlan 1 10; SetSwitchportMode 2 Trunk; SetSwitchportMode 3 Trunk;
     SetLinkState 1 LinkUp; SetLinkState 2 LinkUp; SetLinkState 3 LinkUp] d))).
Definition sample_frame : EthernetFrame :=
  {| destination := [2; 0; 0; 0; 0; 9]; source := [2; 0; 0; 0; 0; 7]; ethertype := Ethernet.Ipv4; payload := [69; 0] |}.
Definition reply_frame : EthernetFrame :=
  {| destination := [2; 0; 0; 0; 0; 7]; source := [2; 0; 0; 0; 0; 9]; ethertype := Ethernet.Ipv4; payload := [69; 0] |}.
Definition all_connected : InterfaceId → bool := λ _, true.
Lemma sample_frame_valid : frame_valid sample_frame.
Proof.
  split; [|by split]. unfold frame_ok, mac_ok, bytes_ok. cbn. split_and!; try done; try lia; repeat constructor; lia.
Qed.
Lemma vlan_ten : vlan_ok 10.
Proof. split; lia. Qed.
Lemma sample_forwarded :
  ∃ d d', sample_switch = Ok d
    ∧ forward_switch_frame all_connected 1 10 sample_frame 40000000 d
      = (Ok [(2, tagged sample_frame 10); (3, tagged sample_frame 10)], d')
    ∧ classify_switch_ingress d 1 sample_frame = Some (10, sample_frame) ∧ stp_forwarding d 1 10 = true
    ∧ (forward_switch_frame all_connected 2 10 reply_frame 41000000 d').1 = Ok [(1, reply_frame)].
Proof.
  destruct sample_switch as [d|e|] eqn:E; [|by vm_compute in E..].
  assert (H : (d ← sample_switch;
    let r := forward_switch_frame all_connected 1 10 sample_frame 40000000 d in
    Ok (r.1, classify_switch_ingress d 1 sample_frame, stp_forwarding d 1 10,
        (forward_switch_frame all_connected 2 10 reply_frame 41000000 r.2).1))
    = @Ok DeviceError _ (Ok [(2, tagged sample_frame 10); (3, tagged sample_frame 10)], Some (10, sample_frame), true,
        Ok [(1, reply_frame)])) by by vm_compute.
  rewrite E, bind_Ok in H. cbv zeta in H. apply Ok_inj in H. apply pair_equal_spec in H as [H H4].
  apply pair_equal_spec in H as [H H3]. apply pair_equal_spec in H as [H1 H2].
  exists d, (forward_switch_frame all_connected 1 10 sample_frame 40000000 d).2. split; [reflexivity|].
  split; [rewrite <-H1; apply surjective_pairing|]. split; [exact H2|]. split; [exact H3|exact H4].
Qed.


Lemma vlan_isolation_witness :
  ∃ d g, sample_switch = Ok d ∧ g = tagged sample_frame 10 ∧ protocol_up d 2 = true
    ∧ classify_switch_ingress d 3 g = Some (10, sample_frame).
Proof.
  destruct sample_forwarded as (d & d' & Hd & Hf & Hc & _). exists d, (tagged sample_frame 10). split; [exact Hd|]. split; [reflexivity|].
  destruct (vlan_isolation d all_connected 1 sample_frame 10 sample_frame 40000000 _ d' sample_frame_valid vlan_ten Hc Hf)
    as [_ H]. destruct (H 2 (tagged sample_frame 10)) as (_ & Hup & _ & c & s & Hcfg & Hs & Hcar & Hfar); [left|].
  split; [exact Hup|].
  assert (E : (d ← sample_switch; Ok ((configs d !! 2 ≫= switchport), (configs d !! 3 ≫= switchport),
      bool_decide (is_Some (vlans (running_config d) !! 10))))
    = @Ok DeviceError _ (Some (SwitchportConfig_default <| mode := Trunk |>), Some (SwitchportConfig_default <| mode := Trunk |>), true))
    by by vm_compute.
  rewrite Hd, bind_Ok in E. apply Ok_inj in E. apply pair_equal_spec in E as [E E3%bool_decide_eq_true].
  apply pair_equal_spec in E as [E1 E2]. rewrite Hcfg in E1. cbn [mbind option_bind] in E1. rewrite Hs in E1. injection E1 as ->.
  apply bind_Some in E2 as (c' & Hc' & Hs'). exact (Hfar d 3 c' _ Hc' Hs' (conj eq_refl eq_refl) eq_refl E3).
Defined.
(** The bundle of [sample_setup] with its members up. *)
Lemma bundle_keeps_flow_witness :
  ∃ d m, channel_egress d 5 sample_frame = Some m ∧ channel_ingress d m = Ok 5.
Proof.
  destruct (device_new 7 (text "core") Layer3Switch) as [d0|e|] eqn:E; [|by vm_compute in E..].
  pose proof (run_operations_ok (sample_setup ++ [SetLinkState 1 LinkUp; SetLinkState 2 LinkUp]) d0 (device_new_ok _ _ _ _ E)) as Hok.
  assert (H : (d0 ← device_new 7 (text "core") Layer3Switch;
    let d := run_operations (sample_setup ++ [SetLinkState 1 LinkUp; SetLinkState 2 LinkUp]) d0 in
    Ok (kind <$> interfaces d !! 5, protocol_up d 5)) = @Ok DeviceError _ (Some PortChannel, true)) by by vm_compute.
  rewrite E, bind_Ok in H. cbv zeta in H. apply Ok_inj, pair_equal_spec in H as [Hk Hup].
  set (d := run_operations _ _) in *. exists d.
  destruct (interfaces d !! 5) as [i|] eqn:Hi; [|discriminate Hk]. injection Hk as Hk.
  destruct (bundle_keeps_flow d 5 sample_frame i Hok Hi Hk Hup) as (m & He & _ & Hin & _). exists m. split; [exact He|exact Hin].
Defined.
