(* ===== verification/Frame.v ===== *)
(** What the operations of [Interfaces] leave alone.

    A component keeps its own part of the device. [Apart part] says that the
    part does not look at the fields those operations write; from it
    [apart_operation] gives that no operation on interfaces, VLANs or bundles
    changes the part, so an invariant of a component about its own part holds
    whatever is configured in between. *)
From S2P Require Import Prelude Wire State EventQueue Ethernet Switching Ipv4 Collections Config Inventory Device Interfaces.

Class Apart {X} (part : Device → X) : Prop := {
  apart_configs f d : part (set_configs f d) = part d;
  apart_interfaces f d : part (d <| interfaces ::= f |>) = part d;
  apart_vlans f d : part (d <| running_config ::= λ r, r <| vlans ::= f |> |>) = part d;
  apart_ip_routing v d : part (d <| running_config ::= λ r, r <| ip_routing := v |> |>) = part d;
  apart_hostname v d : part (d <| running_config ::= λ r, r <| hostname := v |> |>) = part d;
  apart_startup v d : part (d <| startup_config := v |>) = part d;
  apart_leases f d : part (d <| dhcp_leases ::= f |>) = part d;
  apart_errdisabled f d : part (d <| stp_errdisabled ::= f |>) = part d;
  apart_lacp f d : part (d <| lacp_neighbors ::= f |>) = part d;
  apart_stp f d : part (d <| stp_runtime ::= f |>) = part d;
  apart_macs f d : part (d <| mac_table ::= f |>) = part d;
  apart_ipv6 f d : part (d <| ipv6_runtime ::= f |>) = part d;
  apart_arp f d : part (d <| arp_cache ::= f |>) = part d
}.

Section apart.
Context {X : Type} (part : Device → X) `{!Apart part}.

(** A method that leaves the part as it is. *)
Definition leaves {A} (m : op A) : Prop := ∀ d, part (m d).2 = part d.

Lemma leaves_reads {A} (m : op A) : reads m → leaves m.
Proof using. intros H d. by rewrite H. Qed.
Lemma leaves_bind {A B} (m : op A) (k : A → op B) : leaves m → (∀ a, leaves (k a)) → leaves (m ≫= k).
Proof using.
  intros Hm Hk d. rewrite run_bind. specialize (Hm d). destruct (m d) as [[a| |] d']; [|done..]. by rewrite Hk.
Qed.
Lemma leaves_modify f : (∀ d, part (f d) = part d) → leaves (modify f).
Proof using. intros H d. apply H. Qed.
Lemma leaves_update id f : leaves (update_config id f).
Proof using All. intros d. unfold update_config. destruct (configs d !! id); [apply apart_configs|done]. Qed.
Lemma leaves_switchport id f : leaves (switchport_mut id f).
Proof using All.
  intros d. unfold switchport_mut. destruct (configs d !! id) as [c|]; [|done]. destruct (switchport c); [apply apart_configs|done].
Qed.
Lemma leaves_insert n k m : leaves (insert_interface n k m).
Proof using All.
  intros d. unfold insert_interface. destruct (find_interface d n); [done|]. destruct (_ <? _); [done|].
  cbn [snd]. by rewrite apart_configs, apart_interfaces.
Qed.
Lemma sync_apart id d : part (sync_channel_switchports id d) = part d.
Proof using All.
  unfold sync_channel_switchports. destruct (configs d !! id) as [c|]; [|done]. by destruct (port_channel c); [rewrite apart_configs|].
Qed.
Lemma svi_apart d : part (refresh_svi_states d) = part d.
Proof using All.
  unfold refresh_svi_states.
  match goal with |- part (d <| interfaces ::= ?f |>) = _ => exact (apart_interfaces f d) end.
Qed.
Lemma reset_apart id d : part (reset_ipv6_interface id d) = part d.
Proof using All. apply apart_ipv6. Qed.
Lemma forget_apart id d : part (forget_macs id d) = part d.
Proof using All. apply apart_macs. Qed.
Lemma save_apart d : part (save_config d) = part d.
Proof using All. apply apart_startup. Qed.
End apart.

(** Peel the writes off until the part is of the device itself. *)
Ltac same_part :=
  unfold port_changed;
  repeat first
    [ reflexivity
    | lazymatch goal with
      | |- ?p _ = ?p _ =>
          first
            [ rewrite (apart_macs (part:=p)) | rewrite (apart_lacp (part:=p)) | rewrite (apart_stp (part:=p))
            | rewrite (apart_errdisabled (part:=p)) | rewrite (apart_ipv6 (part:=p)) | rewrite (apart_arp (part:=p))
            | rewrite (apart_interfaces (part:=p)) | rewrite (apart_vlans (part:=p)) | rewrite (apart_ip_routing (part:=p))
            | rewrite (apart_hostname (part:=p)) | rewrite (apart_leases (part:=p)) | rewrite (forget_apart p)
            | rewrite (sync_apart p) | rewrite (svi_apart p) | rewrite (reset_apart p) | rewrite (save_apart p)
            | rewrite (apart_configs (part:=p)) ]
      end ].
(** Split a method into steps that leave the part alone. *)
Ltac leaves :=
  repeat lazymatch goal with
  | |- leaves _ (_ ≫= _) => apply leaves_bind; [|intros ?]
  | |- leaves _ (let '(_, _) := ?x in _) => destruct x
  | |- leaves _ (match ?x with _ => _ end) => destruct x
  | |- leaves _ (update_config _ _) => apply leaves_update; apply _
  | |- leaves _ (switchport_mut _ _) => apply leaves_switchport; apply _
  | |- leaves _ (insert_interface _ _ _) => apply leaves_insert; apply _
  | |- leaves _ (modify _) => apply leaves_modify; intros ?
  | |- leaves _ _ => apply leaves_reads; solve [eauto with stateful]
  end;
  repeat case_match; same_part.

Lemma leaves_create_port_channel {X} (part : Device → X) `{!Apart part} n : leaves part (create_port_channel n).
Proof. unfold create_port_channel. leaves. Qed.
Lemma apart_operation {X} (part : Device → X) `{!Apart part} o d : part (run_operation o d).2 = part d.
Proof.
  revert d. change (leaves part (run_operation o)).
  destruct o; unfold run_operation, silent, returning, set_ip_routing, set_hostname, add_physical_interface, add_port, ensure_interface,
    create_subinterface, create_port_channel, set_description, clear_description, set_ipv4, clear_ipv4, set_admin_state, set_link_state,
    create_vlan, remove_vlan, set_vlan_name, disable_switchport, set_access_vlan, set_trunk_allowed_vlans, set_native_vlan,
    set_dot1q, set_channel_group, clear_channel_group, set_switchport_mode, enable_switchport, refresh_svi_states_checked; leaves.
  by apply leaves_create_port_channel.
Qed.
