(* ===== verification/DhcpServer.v ===== *)
(** The DHCP server and client state of a device
    (src/crates/rios-device/src/dhcp.rs and dhcp/config.rs): pools, offers,
    bindings, the search for a free address, and client leases.

    [dhcp_no_double_lease] is the contract of the server: whatever it is asked,
    no two clients hold or are offered one address. [dhcp_offer_spec] says which
    address a client is offered. *)
From S2P Require Import Prelude Wire State Text EventQueue Ethernet Switching Ipv4 Collections Config Inventory Device Interfaces Frame.

Definition MAX_DHCP_BINDINGS : Z := 8192.
Definition DHCP_OFFER_MS : Z := 60000.

(** ** Pools and exclusions *)

Definition pools (d : Device) : gmap DhcpPoolId DhcpPoolConfig := dhcp_pools (running_config d).
Definition set_pools (f : gmap DhcpPoolId DhcpPoolConfig → gmap DhcpPoolId DhcpPoolConfig) (d : Device) : Device :=
  d <| running_config ::= λ r, r <| dhcp_pools ::= f |> |>.
Definition serves_dhcp (d : Device) : bool := supports_routing d || bool_decide (device_type d = Host).

Definition new_pool (name : bytes) : DhcpPoolConfig :=
  {| lease_seconds := 3600; pool_dns_servers := []; pool_domain_name := None; reserved_address := None;
     hardware_address := None; pool_name := name; pool_network := None; pool_default_router := None |}.
Definition ensure_dhcp_pool (name : bytes) : op DhcpPoolId :=
  reject_if (λ d, negb (serves_dhcp d)) DhcpUnsupported;;
  reject_if (λ _, bool_decide (name = []) || (32 <? len name) || negb (forallb is_ascii_graphic name)) InvalidDhcpPoolName;;
  existing ← gets (λ d, find (λ e, eq_ignore_ascii_case (pool_name e.2) name) (items (pools d)));
  match existing with
  | Some (id, _) => mret id
  | None =>
      reject_if (λ d, 1024 <=? Z.of_nat (size (pools d))) InvalidDhcpNetwork;;
      id ← gets (λ d, match last_entry (λ k, [k]) (pools d) with Some (id, _) => sat_add U32_MAX id 1 | None => 1 end);
      modify (set_pools (insert id (new_pool name)));;
      mret id
  end.

(** config.rs *)
Definition first_octet (a : Ipv4Addr) : Z := a `div` 2 ^ 24.
Definition valid_address (a : Ipv4Addr) : bool :=
  negb (first_octet a =? 0) && (first_octet a <? 224) && negb (first_octet a =? 127).
Definition usable (n : Ipv4Network) (a : Ipv4Addr) : bool :=
  contains n a && negb (a =? network n) && negb (a =? broadcast n).
Definition pool_invalid (old pool : DhcpPoolConfig) : bool :=
  negb (bool_decide (pool_name pool = pool_name old)) || (lease_seconds pool <? 60) || (365 * 86400 <? lease_seconds pool)
  || negb (lease_seconds pool `mod` 60 =? 0) || (8 <? len (pool_dns_servers pool))
  || existsb (λ ip, negb (valid_address ip)) (pool_dns_servers pool)
  || is_some_and (pool_default_router pool) (λ ip, negb (valid_address ip))
  || is_some_and (pool_domain_name pool) (λ name, bool_decide (name = []) || (253 <? len name)
       || negb (forallb (λ b, is_ascii_alphanumeric b || (b =? 46) || (b =? 45)) name))
  || is_some_and (pool_network pool) (λ n, 30 <? network_len n)
  || is_some_and (reserved_address pool) (λ a, negb (is_some_and (pool_network pool) (λ n, usable n a)))
  || is_some_and (hardware_address pool) (λ m, is_multicast m || bool_decide (m = [0; 0; 0; 0; 0; 0])).
Definition update_dhcp_pool (id : DhcpPoolId) (pool : DhcpPoolConfig) : op () :=
  old ← require (λ d, pools d !! id) MissingDhcpPool;
  reject_if (λ _, pool_invalid old pool) InvalidDhcpNetwork;;
  modify (λ d, set_pools (insert id pool) d <| dhcp_offers ::= filter (λ e, offer_pool e.2 ≠ id) |>).
Definition set_dhcp_pool_network (id : DhcpPoolId) (network : Ipv4Network) : op () :=
  reject_if (λ _, 30 <? network_len network) InvalidDhcpNetwork;;
  pool ← require (λ d, pools d !! id) MissingDhcpPool;
  update_dhcp_pool id (pool <| pool_network := Some network |>).
Definition set_dhcp_default_router (id : DhcpPoolId) (address : Ipv4Addr) : op () :=
  pool ← require (λ d, pools d !! id) MissingDhcpPool;
  update_dhcp_pool id (pool <| pool_default_router := Some address |>).
Definition exclude_dhcp_addresses (first last : Ipv4Addr) : op () :=
  reject_if (λ d, negb (serves_dhcp d)) DhcpUnsupported;;
  reject_if (λ d, (last <? first) || negb (valid_address first) || negb (valid_address last)
                  || ((4096 <=? Z.of_nat (size (dhcp_excluded (running_config d))))
                      && negb (bool_decide (is_Some (dhcp_excluded (running_config d) !! first))))) InvalidDhcpNetwork;;
  modify (λ d, d <| running_config ::= λ r, r <| dhcp_excluded ::= insert first last |> |>
                 <| dhcp_offers ::= filter (λ e, offer_address e.2 < first ∨ last < offer_address e.2) |>).
Definition set_dhcp_helper (interface : InterfaceId) (address : Ipv4Addr) : op () :=
  reject_if (λ d, negb (supports_routing d)) DhcpUnsupported;;
  reject_if (λ _, negb (valid_address address)) InvalidDhcpNetwork;;
  update_config interface (λ c, c <| helper_address := Some address |>).

(** ** The client *)

Definition set_dhcp_client (interface : InterfaceId) : op () :=
  reject_if (λ d, match device_type d with Router | Host | Layer3Switch => false | _ => true end) DhcpUnsupported;;
  reject_if (λ d, is_some_and (interfaces d !! interface)
                    (λ i, match kind i with Serial | Console => true | _ => false end)) UnsupportedIpv4Interface;;
  was_dhcp ← gets (λ d, is_some_and (configs d !! interface) dhcp_client);
  update_config interface (λ c, c <| ipv4 := None |> <| dhcp_client := true |>);;
  modify (λ d, if was_dhcp : bool then d else d <| dhcp_leases ::= delete interface |>).
Definition unleased (d : Device) (e : InterfaceId * InterfaceConfig) : bool :=
  dhcp_client e.2 && bool_decide (dhcp_leases d !! e.1 = None).
Definition dhcp_client_interfaces (d : Device) : list InterfaceId :=
  (filter (λ e, unleased d e && protocol_up d e.1 = true) (items (configs d))).*1.
Definition has_pending_dhcp_client (d : Device) : bool := existsb (unleased d) (items (configs d)).
Definition install_dhcp_lease (interface : InterfaceId) (lease : DhcpLease) : op () :=
  reject_if (λ d, negb (is_some_and (configs d !! interface) dhcp_client)) DhcpUnsupported;;
  modify (λ d, d <| dhcp_leases ::= insert interface lease |>).
Definition expire_dhcp_lease (interface : InterfaceId) (address : Ipv4Addr) (deadline : SimTime) (d : Device) : bool * Device :=
  if is_some_and (dhcp_leases d !! interface) (λ l, (lease_address l =? address) && (lease_expires_at l <=? deadline))
  then (true, d <| dhcp_leases ::= delete interface |>)
  else (false, d).

(** ** The server *)

Definition expire_dhcp_server_state (now : SimTime) (d : Device) : Device :=
  d <| dhcp_conflicts ::= filter (λ e, now < e.2) |>
    <| dhcp_offers ::= filter (λ e, now < offer_expires_at e.2) |>
    <| dhcp_bindings ::= filter (λ e, now < binding_expires_at e.2) |>.

(** The pool for a client on a subnet: one reserved for it before the others. *)
Definition pool_serves (client_mac : MacAddress) (subnet : Ipv4Addr) (pool : DhcpPoolConfig) : bool :=
  is_some_and (pool_network pool) (λ n, contains n subnet)
  && (bool_decide (hardware_address pool = None) || bool_decide (hardware_address pool = Some client_mac))
  && (bool_decide (reserved_address pool = None) || bool_decide (hardware_address pool = Some client_mac)).
Definition select_pool (d : Device) (client_mac : MacAddress) (subnet : Ipv4Addr) : option (DhcpPoolId * DhcpPoolConfig) :=
  min_by_key (λ e, [if bool_decide (reserved_address e.2 = None) then 1 else 0; e.1])
    (filter (λ e, pool_serves client_mac subnet e.2 = true) (items (pools d))).

(** The addresses a client may not have. *)
Definition used_addresses (d : Device) (client_mac : MacAddress) : list Ipv4Addr :=
  (binding_address <$> (filter (λ e, e.1 ≠ client_mac) (map_to_list (dhcp_bindings d))).*2)
  ++ (offer_address <$> (filter (λ e, e.1 ≠ client_mac) (map_to_list (dhcp_offers d))).*2)
  ++ omap (λ id, address <$> interface_ipv4 d id) (items (configs d)).*1
  ++ omap (λ p, if bool_decide (hardware_address p = Some client_mac) then None else reserved_address p) (values (pools d))
  ++ (map_to_list (dhcp_conflicts d)).*1.
Definition exclusions (d : Device) : list (Ipv4Addr * Ipv4Addr) := map_to_list (dhcp_excluded (running_config d)).
Definition covers (a : Ipv4Addr) (e : Ipv4Addr * Ipv4Addr) : bool := (e.1 <=? a) && (a <=? e.2).

Section search.
Context (network : Ipv4Network) (router : option Ipv4Addr) (used : list Ipv4Addr) (excluded : list (Ipv4Addr * Ipv4Addr)).

Definition allowed (a : Ipv4Addr) : bool :=
  usable network a && negb (bool_decide (a ∈ used)) && negb (bool_decide (router = Some a)) && negb (existsb (covers a) excluded).
(** The loop over candidates; [Panic] if the fuel runs out. *)
Fixpoint search (fuel : nat) (last candidate : Z) : res DeviceError (option Ipv4Addr) :=
  match fuel with
  | O => Panic
  | S fuel =>
      if last <? candidate then Ok None
      else
        match max_by_key (λ e, [e]) (filter (λ e, covers candidate e = true) excluded).*2 with
        | Some end_ =>
            match checked_add U32_MAX end_ 1 with Some next => search fuel last next | None => Ok None end
        | None =>
            if allowed candidate then Ok (Some candidate)
            else match checked_add U32_MAX candidate 1 with Some next => search fuel last next | None => Ok None end
        end
  end.
Definition search_fuel : nat := length excluded + length used + 4.
Definition first_free : res DeviceError (option Ipv4Addr) :=
  search search_fuel (sat_sub (broadcast network) 1) (sat_add U32_MAX (Ipv4.network network) 1).
End search.

(** The address for a client without a standing offer. *)
Definition choose_address (d : Device) (client_mac : MacAddress) (pool : DhcpPoolConfig) (network : Ipv4Network)
    (previous : option Ipv4Addr) : res DeviceError (option Ipv4Addr) :=
  let ok_address := allowed network (pool_default_router pool) (used_addresses d client_mac) (exclusions d) in
  match reserved_address pool with
  | Some a => Ok (if ok_address a then Some a else None)
  | None =>
      match previous with
      | Some a => if ok_address a then Ok (Some a)
                  else first_free network (pool_default_router pool) (used_addresses d client_mac) (exclusions d)
      | None => first_free network (pool_default_router pool) (used_addresses d client_mac) (exclusions d)
      end
  end.
Definition previous_address (d : Device) (client_mac : MacAddress) (pool : DhcpPoolConfig) : option Ipv4Addr :=
  b ← dhcp_bindings d !! client_mac;
  if bool_decide (binding_pool_name b = pool_name pool) then Some (binding_address b) else None.
Definition new_offer (pool_id : DhcpPoolId) (pool : DhcpPoolConfig) (network : Ipv4Network) (server_id a : Ipv4Addr) (now : SimTime) : DhcpOffer :=
  {| offer_address := a; offer_prefix_len := network_len network; offer_default_router := pool_default_router pool;
     offer_server_id := server_id; lease_time_seconds := lease_seconds pool; offer_pool := pool_id;
     offer_expires_at := sat_add U64_MAX now (DHCP_OFFER_MS * 1000) |}.
Definition fresh_offer (pool_id : DhcpPoolId) (pool : DhcpPoolConfig) (network : Ipv4Network) (server_id : Ipv4Addr)
    (client_mac : MacAddress) (now : SimTime) : stateful Device DeviceError (option DhcpOffer) := λ d,
  let previous := previous_address d client_mac pool in
  if (MAX_DHCP_BINDINGS <=? Z.of_nat (size (dhcp_offers d)) + Z.of_nat (size (dhcp_bindings d))) && bool_decide (previous = None)
  then (Ok None, d)
  else
    match choose_address d client_mac pool network previous with
    | Ok (Some a) =>
        let offer := new_offer pool_id pool network server_id a now in
        (Ok (Some offer), d <| dhcp_offers ::= insert client_mac offer |>)
    | Ok None => (Ok None, d)
    | Err e => (Err e, d)
    | Panic => (Panic, d)
    end.
(** The offer that stands, if it is of this pool. *)
Definition standing_offer (d : Device) (client_mac : MacAddress) (pool_id : DhcpPoolId) : option DhcpOffer :=
  offer ← dhcp_offers d !! client_mac; if offer_pool offer =? pool_id then Some offer else None.
Definition offer_dhcp_on_network (interface : InterfaceId) (client_mac : MacAddress) (subnet : Ipv4Addr) (now : SimTime) :
    stateful Device DeviceError (option DhcpOffer) := λ d,
  match interface_ipv4 d interface with
  | None => (Ok None, d)
  | Some ip =>
      let d := expire_dhcp_server_state now d in
      match select_pool d client_mac subnet with
      | None => (Ok None, d)
      | Some (pool_id, pool) =>
          match pool_network pool with
          | None => (Ok None, d)
          | Some network =>
              match standing_offer d client_mac pool_id with
              | Some offer => (Ok (Some offer), d)
              | None => fresh_offer pool_id pool network (address ip) client_mac now d
              end
          end
      end
  end.
Definition offer_dhcp (interface : InterfaceId) (client_mac : MacAddress) (now : SimTime) :
    stateful Device DeviceError (option DhcpOffer) := λ d,
  match interface_ipv4 d interface with
  | None => (Ok None, d)
  | Some ip => offer_dhcp_on_network interface client_mac (address ip) now d
  end.
Definition commit_dhcp (client_mac : MacAddress) (address server_id : Ipv4Addr) (now : SimTime) (d : Device) : option DhcpOffer * Device :=
  let d := expire_dhcp_server_state now d in
  match dhcp_offers d !! client_mac with
  | None => (None, d)
  | Some offer =>
      if negb (offer_address offer =? address) || negb (offer_server_id offer =? server_id) then (None, d)
      else
        let d := d <| dhcp_offers ::= delete client_mac |> in
        let offer := offer <| offer_expires_at := sat_add U64_MAX now (lease_time_seconds offer * 1000000) |> in
        match pools d !! offer_pool offer with
        | None => (None, d)
        | Some pool =>
            (Some offer, d <| dhcp_bindings ::= insert client_mac
               {| binding_address := address; client_mac := client_mac; binding_pool_name := pool_name pool;
                  binding_expires_at := offer_expires_at offer |} |>)
        end
  end.
Definition decline_dhcp (mac : MacAddress) (address : Ipv4Addr) (now : SimTime) (d : Device) : Device :=
  if is_some_and (dhcp_bindings d !! mac) (λ b, binding_address b =? address)
     || is_some_and (dhcp_offers d !! mac) (λ o, offer_address o =? address)
  then
    let d := d <| dhcp_bindings ::= delete mac |> <| dhcp_offers ::= delete mac |> in
    if Z.of_nat (size (dhcp_conflicts d)) <? MAX_DHCP_BINDINGS
    then d <| dhcp_conflicts ::= insert address (sat_add U64_MAX now 600000000) |> else d
  else d.

(** ** Helper lemmas: the search *)

Section search_lemmas.
Context (network : Ipv4Network) (router : option Ipv4Addr) (used : list Ipv4Addr) (excluded : list (Ipv4Addr * Ipv4Addr)).
Abbreviation allowed := (allowed network router used excluded).

(** What the search may still have to skip from a candidate on. *)
Definition obstacles (c : Z) : nat :=
  length (filter (λ e : Ipv4Addr * Ipv4Addr, c ≤ e.2) excluded)
  + length (filter (λ a, c ≤ a) (used ++ option_list router)).
Lemma filter_length_le {A} (P Q : A → Prop) `{∀ x, Decision (P x), ∀ x, Decision (Q x)} l :
  (∀ y, P y → Q y) → (length (filter P l) ≤ length (filter Q l))%nat.
Proof.
  intros Hsub. induction l as [|z l IH]; [done|]. rewrite !filter_cons. repeat case_decide; cbn; [lia|naive_solver|lia|done].
Qed.
Lemma filter_length_lt {A} (P Q : A → Prop) `{∀ x, Decision (P x), ∀ x, Decision (Q x)} l x :
  (∀ y, P y → Q y) → x ∈ l → Q x → ¬ P x → (length (filter P l) < length (filter Q l))%nat.
Proof.
  intros Hsub. induction l as [|y l IH]; [by intros ?%elem_of_nil|]. intros [->|Hx]%elem_of_cons HQ HP; rewrite !filter_cons.
  - rewrite decide_False, decide_True by done. cbn. pose proof (filter_length_le P Q l Hsub). lia.
  - specialize (IH Hx HQ HP). repeat case_decide; cbn; [lia|naive_solver|lia|done].
Qed.
Lemma obstacles_excluded c e next :
  e ∈ excluded → covers c e = true → c < next → e.2 < next → (obstacles next < obstacles c)%nat.
Proof.
  intros He Hc Hn He2. unfold obstacles. unfold covers in Hc. apply Nat.add_lt_le_mono.
  - apply (filter_length_lt _ _ _ e); [intros y Hy; lia|done|lia|lia].
  - apply filter_length_le. intros y Hy. lia.
Qed.
Lemma obstacles_used c : c ∈ used ++ option_list router → (obstacles (c + 1) < obstacles c)%nat.
Proof.
  intros Hc. unfold obstacles. apply Nat.add_le_lt_mono.
  - apply filter_length_le. intros y Hy. lia.
  - apply (filter_length_lt _ _ _ c); [intros y Hy; lia|done|lia|lia].
Qed.

Lemma excluded_end c :
  match max_by_key (λ e, [e]) (filter (λ e, covers c e = true) excluded).*2 with
  | Some end_ => (∃ e, e ∈ excluded ∧ covers c e = true ∧ e.2 = end_) ∧ c ≤ end_ ∧ ∀ b, c ≤ b ≤ end_ → allowed b = false
  | None => existsb (covers c) excluded = false
  end.
Proof.
  destruct (max_by_key _ _) as [end_|] eqn:Hm.
  - apply max_by_key_spec in Hm as [Hin _]. apply list_elem_of_fmap in Hin as (e & -> & He).
    apply list_elem_of_filter in He as [Hc He]. unfold covers in Hc. split; [exists e; unfold covers; auto|]. split; [lia|].
    intros b Hb. unfold DhcpServer.allowed. assert (existsb (covers b) excluded = true) as ->; [|by rewrite andb_false_r].
    apply existsb_exists. exists e. split; [by apply list_elem_of_In|]. unfold covers. lia.
  - apply max_by_key_None, fmap_nil_inv in Hm. destruct (existsb _ _) eqn:E; [|done].
    apply existsb_exists in E as (e & He & Hc). assert (Hf : e ∈ filter (λ e, covers c e = true) excluded).
    { apply list_elem_of_filter. split; [done|]. by apply list_elem_of_In. }
    rewrite Hm in Hf. by apply elem_of_nil in Hf.
Qed.

(** The search ends, with the least free address from the candidate on. *)
Lemma search_spec fuel last c :
  (∀ b, c ≤ b ≤ last → usable network b = true) → last ≤ U32_MAX → (obstacles c < fuel)%nat →
  match search network router used excluded fuel last c with
  | Ok (Some a) => c ≤ a ≤ last ∧ allowed a = true ∧ ∀ b, c ≤ b < a → allowed b = false
  | Ok None => ∀ b, c ≤ b ≤ last → allowed b = false
  | _ => False
  end.
Proof.
  intros Hu Hlast. revert c Hu. induction fuel as [|fuel IH]; intros c Hu Hfuel; [lia|]. cbn [search].
  destruct (last <? c) eqn:Hlt; [intros b Hb; lia|].
  assert (Hnext : ∀ next, c < next → (obstacles next < obstacles c)%nat → (∀ b, c ≤ b < next → allowed b = false) →
    match search network router used excluded fuel last next with
    | Ok (Some a) => c ≤ a ≤ last ∧ allowed a = true ∧ ∀ b, c ≤ b < a → allowed b = false
    | Ok None => ∀ b, c ≤ b ≤ last → allowed b = false
    | _ => False
    end).
  { intros next Hn Ho Hno. specialize (IH next ltac:(intros b Hb; apply Hu; lia) ltac:(lia)).
    destruct (search _ _ _ _ _ _ _) as [[a|]| |]; [|intros b Hb|done..].
    - destruct IH as (H1 & H2 & H3). split; [lia|]. split; [done|]. intros b Hb.
      destruct (decide (b < next)); [apply Hno; lia|apply H3; lia].
    - destruct (decide (b < next)); [apply Hno; lia|apply IH; lia]. }
  pose proof (excluded_end c) as He. destruct (max_by_key _ _) as [end_|].
  - destruct He as ((e & Hin & Hc & <-) & Hle & Hno). unfold checked_add. destruct (_ <=? _) eqn:Hmax.
    + apply Hnext; [lia| |intros b Hb; apply Hno; lia]. apply (obstacles_excluded c e); try done; lia.
    + intros b Hb. apply Hno. lia.
  - destruct (allowed c) eqn:Hal; [split_and!; [lia|lia|done|intros b Hb; lia]|]. unfold checked_add. destruct (_ <=? _) eqn:Hmax.
    + apply Hnext; [lia| |intros b Hb; by replace b with c by lia]. apply obstacles_used.
      unfold DhcpServer.allowed in Hal. rewrite (Hu c) in Hal by lia. rewrite He in Hal. rewrite elem_of_app.
      destruct (decide (c ∈ used)) as [|Hn]; [by left|]. rewrite (bool_decide_false _ Hn) in Hal. cbn in Hal.
      rewrite andb_true_r in Hal. apply negb_false_iff, bool_decide_eq_true in Hal. right. rewrite Hal. by left.
    + intros b Hb. by replace b with c by lia.
Qed.
Lemma broadcast_u32 : network_ok network → broadcast network ≤ U32_MAX.
Proof.
  intros Hn. pose proof Hn as (Hw & Hl & Hz). rewrite broadcast_eq by done.
  set (k := 32 - network_len network) in *. assert (Hk : 0 ≤ k ≤ 32) by lia.
  assert (2 ^ 32 = 2 ^ k * 2 ^ (32 - k)) as E by (rewrite <-Z.pow_add_r by lia; f_equal; lia).
  apply Z.mod_divide in Hz as [m Hm]; [|lia]. assert (0 < 2 ^ k) by (apply Z.pow_pos_nonneg; lia).
  assert (m < 2 ^ (32 - k)) by (unfold U32_MAX in *; nia). unfold U32_MAX. nia.
Qed.
Lemma usable_range b : network_ok network → u32 b → usable network b = true ↔ Ipv4.network network < b < broadcast network.
Proof.
  intros Hn Hb. destruct (contains_range network b Hn Hb) as [Hc _]. unfold usable.
  rewrite !andb_true_iff, !negb_true_iff, Hc. lia.
Qed.
Lemma first_free_spec :
  network_ok network → network_len network ≤ 30 →
  match first_free network router used excluded with
  | Ok (Some a) => allowed a = true ∧ ∀ b, 0 ≤ b < a → allowed b = false
  | Ok None => ∀ b, u32 b → allowed b = false
  | _ => False
  end.
Proof.
  intros Hn Hlen. pose proof Hn as (Hw & _). pose proof (broadcast_u32 Hn) as Hmax. change U32_MAX with 4294967295 in Hmax.
  assert (Hin : ∀ b, u32 b → allowed b = true → Ipv4.network network < b < broadcast network).
  { intros b Hb Ha. unfold DhcpServer.allowed in Ha. rewrite !andb_true_iff in Ha. apply usable_range; [done|done|]. by destruct Ha as [[[? _] _] _]. }
  unfold first_free. assert (Hs : sat_add U32_MAX (Ipv4.network network) 1 = Ipv4.network network + 1 ∧ sat_sub (broadcast network) 1 = broadcast network - 1).
  { rewrite broadcast_eq in Hmax |- * by done. pose proof (Z.pow_le_mono_r 2 1 (32 - network_len network) ltac:(lia) ltac:(lia)).
    unfold sat_add, sat_sub, U32_MAX. lia. }
  destruct Hs as [-> ->].
  assert (Hf : (obstacles (Ipv4.network network + 1) < search_fuel used excluded)%nat).
  { unfold obstacles, search_fuel. pose proof (length_filter (λ e : Ipv4Addr * Ipv4Addr, Ipv4.network network + 1 ≤ e.2) excluded).
    pose proof (length_filter (λ a, Ipv4.network network + 1 ≤ a) (used ++ option_list router)) as H2.
    rewrite length_app in H2. destruct router; cbn in *; lia. }
  pose proof (search_spec (search_fuel used excluded) (broadcast network - 1) (Ipv4.network network + 1)
    ltac:(intros b Hb; apply usable_range; [done|lia|lia]) ltac:(unfold U32_MAX in *; lia) Hf) as H.
  destruct (search _ _ _ _ _ _ _) as [[a|]| |]; [|intros b Hb|done..].
  - destruct H as (H1 & H2 & H3). split; [done|]. intros b Hb. destruct (allowed b) eqn:E; [|done].
    destruct (Hin b ltac:(unfold U32_MAX in *; lia) E). rewrite <-E. apply H3. lia.
  - destruct (allowed b) eqn:E; [|done]. destruct (Hin b Hb E). rewrite <-E. apply H. lia.
Qed.
End search_lemmas.

(** ** The invariant of the server *)

(** A client holds an address when it is bound to it or offered it. *)
Definition holds (d : Device) (mac : MacAddress) (a : Ipv4Addr) : Prop :=
  (binding_address <$> dhcp_bindings d !! mac) = Some a ∨ (offer_address <$> dhcp_offers d !! mac) = Some a.
Definition pool_ok (p : DhcpPoolConfig) : Prop := ∀ n, pool_network p = Some n → network_ok n ∧ network_len n ≤ 30.
Record dhcp_ok (d : Device) : Prop := {
  dhcp_distinct : ∀ m m' a, holds d m a → holds d m' a → m = m';
  dhcp_pools_ok : ∀ id p, pools d !! id = Some p → pool_ok p
}.

(** Fewer bindings and offers, and pools as before. *)
Lemma dhcp_ok_fewer d d' :
  dhcp_bindings d' ⊆ dhcp_bindings d → dhcp_offers d' ⊆ dhcp_offers d →
  (∀ id p, pools d' !! id = Some p → pool_ok p) → dhcp_ok d → dhcp_ok d'.
Proof.
  intros Hb Ho Hp [Hd _]. constructor; [|done].
  assert (Hh : ∀ m a, holds d' m a → holds d m a).
  { intros m a [H|H]; apply fmap_Some in H as (x & Hx & ->); eapply lookup_weaken in Hx; try done; [left|right]; by rewrite Hx. }
  intros m m' a H1 H2. by eapply Hd; apply Hh.
Qed.
Lemma dhcp_ok_same d d' :
  dhcp_bindings d' = dhcp_bindings d → dhcp_offers d' = dhcp_offers d → pools d' = pools d → dhcp_ok d → dhcp_ok d'.
Proof. intros Hb Ho Hp Hd. apply (dhcp_ok_fewer d); [by rewrite Hb|by rewrite Ho|rewrite Hp; exact (dhcp_pools_ok _ Hd)|done]. Qed.
Lemma expire_ok now d : dhcp_ok d → dhcp_ok (expire_dhcp_server_state now d).
Proof.
  intros Hd. apply (dhcp_ok_fewer d); [apply map_filter_subseteq..|exact (dhcp_pools_ok _ Hd)|done].
Qed.

(** An address nobody else may have is nobody else's. *)
Lemma not_used d mac a m : a ∉ used_addresses d mac → holds d m a → m = mac.
Proof.
  intros Hn Hh. destruct (decide (m = mac)) as [|Hne]; [done|]. destruct Hn. unfold used_addresses. rewrite !elem_of_app.
  destruct Hh as [H|H]; apply fmap_Some in H as (x & Hx & ->); [left|right; left].
  - apply list_elem_of_fmap. exists x. split; [done|]. apply list_elem_of_fmap. exists (m, x). split; [done|].
    apply list_elem_of_filter. split; [done|]. by apply elem_of_map_to_list.
  - apply list_elem_of_fmap. exists x. split; [done|]. apply list_elem_of_fmap. exists (m, x). split; [done|].
    apply list_elem_of_filter. split; [done|]. by apply elem_of_map_to_list.
Qed.
Lemma allowed_not_used n r used ex a : allowed n r used ex a = true → usable n a = true ∧ a ∉ used.
Proof.
  unfold allowed. rewrite !andb_true_iff, !negb_true_iff. intros [[[? H%bool_decide_eq_false] _] _]. done.
Qed.

(** What is chosen is allowed, the least one when nothing else decides. *)
Lemma choose_address_spec d mac pool n prev :
  pool_ok pool → pool_network pool = Some n →
  let free := allowed n (pool_default_router pool) (used_addresses d mac) (exclusions d) in
  match choose_address d mac pool n prev with
  | Ok (Some a) => free a = true
      ∧ (reserved_address pool = Some a ∨ (reserved_address pool = None ∧ (prev = Some a ∨ ∀ b, 0 ≤ b < a → free b = false)))
  | Ok None => (∃ a, reserved_address pool = Some a ∧ free a = false) ∨ ∀ b, u32 b → free b = false
  | _ => False
  end.
Proof.
  intros Hp Hn free. destruct (Hp n Hn) as [Hok Hlen]. unfold choose_address. fold free.
  pose proof (first_free_spec n (pool_default_router pool) (used_addresses d mac) (exclusions d) Hok Hlen) as Hf. fold free in Hf.
  destruct (reserved_address pool) as [a|].
  - destruct (free a) eqn:E; [auto|]. left. by exists a.
  - destruct prev as [a|]; [destruct (free a) eqn:E; [auto|]|]; destruct (first_free _ _ _ _) as [[b|]| |]; try done; try (by right).
    all: destruct Hf as [H1 H2]; split; [done|]; right; split; [done|]; by right.
Qed.
Lemma fresh_offer_ok id pool n server mac now d :
  dhcp_ok d → pools d !! id = Some pool → pool_network pool = Some n → dhcp_ok (fresh_offer id pool n server mac now d).2.
Proof.
  intros Hd Hid Hn. pose proof (dhcp_pools_ok _ Hd _ _ Hid) as Hp. unfold fresh_offer. cbv zeta. destruct (_ && _); [done|].
  pose proof (choose_address_spec d mac pool n (previous_address d mac pool) Hp Hn) as Hc. cbv zeta in Hc.
  destruct (choose_address _ _ _ _ _) as [[a|]| |]; try done. destruct Hc as [Ha _]. apply allowed_not_used in Ha as [_ Ha].
  cbn [snd]. constructor; [|exact (dhcp_pools_ok _ Hd)].
  assert (Hh : ∀ m b, holds (d <| dhcp_offers ::= insert mac (new_offer id pool n server a now) |>) m b → holds d m b ∨ (m = mac ∧ b = a)).
  { intros m b [H|H]; [by left; left|]. cbn in H. destruct (decide (m = mac)) as [->|Hne].
    - rewrite lookup_insert_eq in H. injection H as <-. by right.
    - rewrite lookup_insert_ne in H by done. left. by right. }
  intros m m' b Hm Hm'. apply Hh in Hm, Hm'. destruct Hm as [Hm|[Em Eb]], Hm' as [Hm'|[Em' Eb']]; subst; try done.
  - by eapply (dhcp_distinct _ Hd).
  - by eapply not_used.
  - symmetry. by eapply not_used.
Qed.
Lemma select_pool_Some d mac subnet id pool :
  select_pool d mac subnet = Some (id, pool) → pools d !! id = Some pool ∧ pool_serves mac subnet pool = true.
Proof.
  unfold select_pool. intros [Hin _]%min_by_key_least. apply list_elem_of_filter in Hin as [Hs Hin%elem_of_entries]. done.
Qed.
Lemma offer_on_network_ok i mac subnet now d : dhcp_ok d → dhcp_ok (offer_dhcp_on_network i mac subnet now d).2.
Proof.
  intros Hd. unfold offer_dhcp_on_network. destruct (interface_ipv4 d i); [|done]. cbv zeta.
  pose proof (expire_ok now d Hd) as Hx. set (dx := expire_dhcp_server_state now d) in *.
  destruct (select_pool dx mac subnet) as [[id pool]|] eqn:Hs; [|done]. apply select_pool_Some in Hs as [Hs _].
  destruct (pool_network pool) eqn:Hn; [|done]. destruct (standing_offer _ _ _); [done|]. by apply fresh_offer_ok.
Qed.
Lemma commit_ok mac a server now d : dhcp_ok d → dhcp_ok (commit_dhcp mac a server now d).2.
Proof.
  intros Hd. unfold commit_dhcp. cbv zeta. pose proof (expire_ok now d Hd) as Hx. set (dx := expire_dhcp_server_state now d) in *.
  destruct (dhcp_offers dx !! mac) as [o|] eqn:Ho; [|done]. destruct (_ || _) eqn:Hm; [done|].
  assert (Hdel : dhcp_ok (dx <| dhcp_offers ::= delete mac |>)).
  { apply (dhcp_ok_fewer dx); [done|apply delete_subseteq|exact (dhcp_pools_ok _ Hx)|done]. }
  destruct (pools _ !! _) as [pool|]; [|exact Hdel]. cbn [snd].
  apply orb_false_iff in Hm as [Ha _]. apply negb_false_iff, Z.eqb_eq in Ha.
  constructor; [|exact (dhcp_pools_ok _ Hx)].
  assert (Hh : ∀ m b, holds (dx <| dhcp_offers ::= delete mac |> <| dhcp_bindings ::= insert mac
      {| binding_address := a; client_mac := mac; binding_pool_name := pool_name pool;
         binding_expires_at := sat_add U64_MAX now (lease_time_seconds o * 1000000) |} |>) m b → holds dx m b).
  { intros m b [H|H]; cbn in H.
    - destruct (decide (m = mac)) as [->|Hne].
      + rewrite lookup_insert_eq in H. injection H as <-. right. rewrite Ho. cbn. by rewrite Ha.
      + rewrite lookup_insert_ne in H by done. by left.
    - right. destruct (decide (m = mac)) as [->|Hne]; [by rewrite lookup_delete_eq in H|]. by rewrite lookup_delete_ne in H. }
  intros m m' b H1%Hh H2%Hh. by eapply (dhcp_distinct _ Hx).
Qed.
Lemma decline_ok mac a now d : dhcp_ok d → dhcp_ok (decline_dhcp mac a now d).
Proof.
  intros Hd. unfold decline_dhcp. destruct (_ || _); [|done]. cbv zeta.
  assert (Hdel : dhcp_ok (d <| dhcp_bindings ::= delete mac |> <| dhcp_offers ::= delete mac |>)).
  { apply (dhcp_ok_fewer d); [apply delete_subseteq..|exact (dhcp_pools_ok _ Hd)|done]. }
  destruct (_ <? _); [|exact Hdel]. revert Hdel. by apply dhcp_ok_same.
Qed.
Lemma update_pool_ok id pool d : (∀ n, pool_network pool = Some n → network_ok n) → dhcp_ok d → dhcp_ok (update_dhcp_pool id pool d).2.
Proof.
  intros Hp Hd. unfold update_dhcp_pool. rewrite run_require. destruct (pools d !! id); [|done]. rewrite run_reject.
  destruct (pool_invalid _ _) eqn:Hi; [done|]. apply (dhcp_ok_fewer d); [done|apply map_filter_subseteq| |done].
  unfold pool_invalid in Hi. rewrite !orb_false_iff in Hi. destruct Hi as [[[_ Hn] _] _].
  intros id' p Hl. change (<[id := pool]> (pools d) !! id' = Some p) in Hl.
  apply lookup_insert_Some in Hl as [[<- <-]|[_ Hp']]; [|by apply (dhcp_pools_ok _ Hd id')].
  intros n Hnet. split; [by apply Hp|]. rewrite Hnet in Hn. cbn in Hn. lia.
Qed.
Lemma ensure_pool_ok name d : dhcp_ok d → dhcp_ok (ensure_dhcp_pool name d).2.
Proof.
  intros Hd. unfold ensure_dhcp_pool. rewrite run_reject. destruct (negb _); [done|]. rewrite run_reject.
  destruct (_ || _); [done|]. rewrite run_gets. destruct (find _ _) as [[]|]; [done|]. rewrite run_reject. destruct (_ <=? _); [done|].
  rewrite run_gets, run_modify. cbv zeta. set (id := match last_entry _ _ with Some _ => _ | None => _ end).
  apply (dhcp_ok_fewer d); [done..| |done].
  intros id' p Hl. change (<[id := new_pool name]> (pools d) !! id' = Some p) in Hl.
  apply lookup_insert_Some in Hl as [[<- <-]|[_ Hp']]; [done|]. by apply (dhcp_pools_ok _ Hd id').
Qed.

(** ** Histories of a server *)

Inductive dhcp_operation :=
  | EnsurePool (name : bytes) | UpdatePool (id : DhcpPoolId) (pool : DhcpPoolConfig)
  | SetPoolNetwork (id : DhcpPoolId) (network : Ipv4Network) | SetDefaultRouter (id : DhcpPoolId) (address : Ipv4Addr)
  | ExcludeAddresses (first last : Ipv4Addr) | SetHelper (interface : InterfaceId) (address : Ipv4Addr)
  | SetClient (interface : InterfaceId) | InstallLease (interface : InterfaceId) (lease : DhcpLease)
  | ExpireLease (interface : InterfaceId) (address : Ipv4Addr) (deadline : SimTime)
  | OfferOnNetwork (interface : InterfaceId) (mac : MacAddress) (subnet : Ipv4Addr) (now : SimTime)
  | OfferDirect (interface : InterfaceId) (mac : MacAddress) (now : SimTime)
  | Commit (mac : MacAddress) (address server_id : Ipv4Addr) (now : SimTime)
  | Decline (mac : MacAddress) (address : Ipv4Addr) (now : SimTime) | ExpireServer (now : SimTime)
  | Configure (o : operation).
Definition run_dhcp (o : dhcp_operation) (d : Device) : Device :=
  match o with
  | EnsurePool n => (ensure_dhcp_pool n d).2
  | UpdatePool i p => (update_dhcp_pool i p d).2
  | SetPoolNetwork i n => (set_dhcp_pool_network i n d).2
  | SetDefaultRouter i a => (set_dhcp_default_router i a d).2
  | ExcludeAddresses a b => (exclude_dhcp_addresses a b d).2
  | SetHelper i a => (set_dhcp_helper i a d).2
  | SetClient i => (set_dhcp_client i d).2
  | InstallLease i l => (install_dhcp_lease i l d).2
  | ExpireLease i a t => (expire_dhcp_lease i a t d).2
  | OfferOnNetwork i m s t => (offer_dhcp_on_network i m s t d).2
  | OfferDirect i m t => (offer_dhcp i m t d).2
  | Commit m a s t => (commit_dhcp m a s t d).2
  | Decline m a t => decline_dhcp m a t d
  | ExpireServer t => expire_dhcp_server_state t d
  | Configure o => (run_operation o d).2
  end.
(** Networks are those [Ipv4Network::new] makes. *)
Definition dhcp_typed (o : dhcp_operation) : Prop :=
  match o with
  | UpdatePool _ p => ∀ n, pool_network p = Some n → network_ok n
  | SetPoolNetwork _ n => network_ok n
  | _ => True
  end.

(** The operations on interfaces leave the server alone. *)
Definition dhcp_part (d : Device) := (dhcp_bindings d, dhcp_offers d, pools d).
#[export] Instance dhcp_apart : Apart dhcp_part.
Proof. by constructor. Qed.
Lemma leaves_dhcp_ok {A} (m : op A) d : leaves dhcp_part m → dhcp_ok d → dhcp_ok (m d).2.
Proof. intros Hm. specialize (Hm d). injection Hm as E1 E2 E3. by apply dhcp_ok_same. Qed.

Lemma run_dhcp_ok o d : dhcp_typed o → dhcp_ok d → dhcp_ok (run_dhcp o d).
Proof.
  intros Ht Hd. destruct o; cbn [run_dhcp].
  - by apply ensure_pool_ok.
  - by apply update_pool_ok.
  - unfold set_dhcp_pool_network. rewrite run_reject. destruct (_ <? _) eqn:Hl; [done|]. rewrite run_require.
    destruct (pools d !! id); [|done]. apply update_pool_ok; [|done]. by intros n [= <-].
  - unfold set_dhcp_default_router. rewrite run_require. destruct (pools d !! id) as [p|] eqn:Hp; [|done].
    apply update_pool_ok; [|done]. intros n Hn. by apply (dhcp_pools_ok _ Hd _ _ Hp).
  - unfold exclude_dhcp_addresses. rewrite run_reject. destruct (negb _); [done|]. rewrite run_reject. destruct (_ || _); [done|].
    apply (dhcp_ok_fewer d); [done|apply map_filter_subseteq|exact (dhcp_pools_ok _ Hd)|done].
  - apply leaves_dhcp_ok; [unfold set_dhcp_helper; leaves|done].
  - apply leaves_dhcp_ok; [unfold set_dhcp_client; leaves|done].
  - apply leaves_dhcp_ok; [unfold install_dhcp_lease; leaves|done].
  - unfold expire_dhcp_lease. destruct (is_some_and _ _); [|done]. by apply (dhcp_ok_same d).
  - by apply offer_on_network_ok.
  - unfold offer_dhcp. destruct (interface_ipv4 d interface); [|done]. by apply offer_on_network_ok.
  - by apply commit_ok.
  - by apply decline_ok.
  - by apply expire_ok.
  - apply leaves_dhcp_ok; [intros d'; apply (apart_operation dhcp_part)|done].
Qed.
Definition run_dhcps (os : list dhcp_operation) (d : Device) : Device := foldl (λ d o, run_dhcp o d) d os.
Lemma run_dhcps_ok os d : Forall dhcp_typed os → dhcp_ok d → dhcp_ok (run_dhcps os d).
Proof.
  intros Hos. revert d. induction Hos as [|o os Ho _ IH]; intros d Hd; [done|]. apply IH. by apply run_dhcp_ok.
Qed.
Lemma device_new_dhcp_ok n h t d : device_new n h t = Ok d → dhcp_ok d.
Proof.
  unfold device_new. intros (_ & _ & H)%bind_Ok_inv. destruct (_ <? _); [done|]. apply Ok_inj in H as <-.
  constructor; [by intros m m' a [H|H]|done].
Qed.

(** C7: the server never gives one address to two clients. From a new device,
    whatever pools are configured, whatever clients discover, request, decline
    or let expire, and whatever else is configured in between, an address that
    is bound or offered to a client is bound or offered to no other client. *)
Theorem dhcp_no_double_lease number hostname type d os mac mac' a :
  device_new number hostname type = Ok d → Forall dhcp_typed os →
  holds (run_dhcps os d) mac a → holds (run_dhcps os d) mac' a → mac = mac'.
Proof. intros Hd%device_new_dhcp_ok Hos. apply (dhcp_distinct _ (run_dhcps_ok os d Hos Hd)). Qed.

(** What a client is offered. The request is always answered (the search for
    an address ends). An offer is the one that stands for the client in the
    chosen pool, or a new one recorded for it: an address of the pool's network
    other than its first and last, not excluded, not the router's, and neither
    bound nor offered to another client, quarantined, reserved for another, nor
    an address of the device itself; unless the pool reserves it or the client had it
    before, it is the least such address. Without an offer there is no address
    on the interface, no pool, no room in the tables, or no such address. *)
Theorem dhcp_offer_spec d i mac subnet now :
  dhcp_ok d →
  let dx := expire_dhcp_server_state now d in
  let '(r, d') := offer_dhcp_on_network i mac subnet now d in
  match r with
  | Ok (Some o) => ∃ id pool n, select_pool dx mac subnet = Some (id, pool) ∧ pool_network pool = Some n
      ∧ dhcp_offers d' !! mac = Some o
      ∧ let free := allowed n (pool_default_router pool) (used_addresses dx mac) (exclusions dx) in
        dhcp_offers dx !! mac = Some o
        ∨ (free (offer_address o) = true
           ∧ (reserved_address pool = Some (offer_address o) ∨ previous_address dx mac pool = Some (offer_address o)
              ∨ ∀ b, 0 ≤ b < offer_address o → free b = false))
  | Ok None => interface_ipv4 d i = None ∨ select_pool dx mac subnet = None
      ∨ MAX_DHCP_BINDINGS ≤ Z.of_nat (size (dhcp_offers dx)) + Z.of_nat (size (dhcp_bindings dx))
      ∨ ∃ id pool n, select_pool dx mac subnet = Some (id, pool) ∧ pool_network pool = Some n
        ∧ let free := allowed n (pool_default_router pool) (used_addresses dx mac) (exclusions dx) in
          (∃ a, reserved_address pool = Some a ∧ free a = false) ∨ ∀ b, u32 b → free b = false
  | Err _ | Panic => False
  end.
Proof.
  intros Hd dx. unfold offer_dhcp_on_network. destruct (interface_ipv4 d i) as [ip|]; [|by left]. cbv zeta. fold dx.
  pose proof (expire_ok now d Hd) as Hx. fold dx in Hx.
  destruct (select_pool dx mac subnet) as [[id pool]|] eqn:Hs; [|by right; left].
  pose proof (select_pool_Some _ _ _ _ _ Hs) as [Hid Hserves]. pose proof (dhcp_pools_ok _ Hx _ _ Hid) as Hp.
  destruct (pool_network pool) as [n|] eqn:Hn; [|by unfold pool_serves in Hserves; rewrite Hn in Hserves].
  destruct (standing_offer dx mac id) as [o|] eqn:Ho.
  { unfold standing_offer in Ho. apply bind_Some in Ho as (o' & Ho & Ho'). destruct (_ =? _); [|done]. injection Ho' as ->.
    exists id, pool, n. auto. }
  unfold fresh_offer. cbv zeta. destruct (_ && _) eqn:Hfull; [right; right; left; lia|].
  pose proof (choose_address_spec dx mac pool n (previous_address dx mac pool) Hp Hn) as Hc. cbv zeta in Hc.
  destruct (choose_address _ _ _ _ _) as [[a|]| |]; [|right; right; right; by exists id, pool, n|done..].
  exists id, pool, n. split; [done|]. split; [done|]. split; [apply lookup_insert_eq|]. right. cbn [offer_address new_offer].
  destruct Hc as [Hf Hr]. split; [done|]. naive_solver.
Qed.

(** A router that serves 10.0.0.0/24 to two hosts, and reserves nothing. *)
Definition lan : Ipv4Network := {| network := 0x0a000000; network_len := 24 |}.
Definition host_a : MacAddress := [2; 0; 0; 0; 0; 10].
Definition host_b : MacAddress := [2; 0; 0; 0; 0; 11].
Definition dhcp_setup : list dhcp_operation :=
  [Configure (AddPhysicalInterface (text "gi0/0"));
   Configure (SetIpv4 1 {| address := 0x0a000001; prefix_len := 24 |});
   EnsurePool (text "LAN"); SetPoolNetwork 1 lan; SetDefaultRouter 1 0x0a000001;
   ExcludeAddresses 0x0a000002 0x0a000009; OfferDirect 1 host_a 0; Commit host_a 0x0a00000a 0x0a000001 1000].
Lemma lan_ok : network_ok lan.
Proof. unfold network_ok. cbn. lia. Qed.
Lemma dhcp_setup_typed : Forall dhcp_typed dhcp_setup.
Proof. repeat constructor; try done; apply lan_ok. Qed.
Lemma dhcp_both_typed : Forall dhcp_typed (dhcp_setup ++ [OfferDirect 1 host_b 2000]).
Proof. apply Forall_app. split; [exact dhcp_setup_typed|by repeat constructor]. Qed.
Lemma dhcp_setup_run :
  ∃ d, device_new 1 (text "R1") Router = Ok d
    ∧ holds (run_dhcps (dhcp_setup ++ [OfferDirect 1 host_b 2000]) d) host_a 0x0a00000a
    ∧ holds (run_dhcps (dhcp_setup ++ [OfferDirect 1 host_b 2000]) d) host_b 0x0a00000b
    ∧ (offer_address <$> default None (ok (offer_dhcp_on_network 1 host_b 0x0a000001 2000 (run_dhcps dhcp_setup d)).1)) = Some 0x0a00000b.
Proof.
  destruct (device_new 1 (text "R1") Router) as [d|e|] eqn:E; [|by vm_compute in E..]. exists d. split; [done|].
  assert (H : (d ← device_new 1 (text "R1") Router;
    let d1 := run_dhcps (dhcp_setup ++ [OfferDirect 1 host_b 2000]) d in
    Ok (binding_address <$> dhcp_bindings d1 !! host_a, offer_address <$> dhcp_offers d1 !! host_b,
        offer_address <$> default None (ok (offer_dhcp_on_network 1 host_b 0x0a000001 2000 (run_dhcps dhcp_setup d)).1)))
    = @Ok DeviceError _ (Some 0x0a00000a, Some 0x0a00000b, Some 0x0a00000b)) by by vm_compute.
  rewrite E, bind_Ok in H. cbv zeta in H. apply Ok_inj, pair_equal_spec in H as [H H3]. apply pair_equal_spec in H as [H1 H2].
  split; [left; exact H1|]. split; [right; exact H2|exact H3].
Qed.
Lemma dhcp_no_double_lease_witness :
  ∃ d, device_new 1 (text "R1") Router = Ok d
    ∧ ¬ holds (run_dhcps (dhcp_setup ++ [OfferDirect 1 host_b 2000]) d) host_b 0x0a00000a.
Proof.
  destruct dhcp_setup_run as (d & Hd & Ha & Hb & _). exists d. split; [exact Hd|]. intros Hc.
  discriminate (dhcp_no_double_lease 1 (text "R1") Router d (dhcp_setup ++ [OfferDirect 1 host_b 2000]) host_a host_b 0x0a00000a Hd
    dhcp_both_typed Ha Hc).
Defined.
(** The second host is offered the least free address, 10.0.0.11. *)
Lemma dhcp_offer_spec_witness :
  ∃ d o, device_new 1 (text "R1") Router = Ok d ∧ offer_address o = 0x0a00000b
    ∧ dhcp_offers (offer_dhcp_on_network 1 host_b 0x0a000001 2000 (run_dhcps dhcp_setup d)).2 !! host_b = Some o.
Proof.
  destruct dhcp_setup_run as (d & Hd & _ & _ & Ho). pose proof (run_dhcps_ok dhcp_setup d dhcp_setup_typed (device_new_dhcp_ok _ _ _ _ Hd)) as Hok.
  pose proof (dhcp_offer_spec (run_dhcps dhcp_setup d) 1 host_b 0x0a000001 2000 Hok) as H. cbv zeta in H.
  destruct (offer_dhcp_on_network 1 host_b 0x0a000001 2000 (run_dhcps dhcp_setup d)) as [[[o|]| |] d'] eqn:E; [|discriminate Ho..].
  destruct H as (id & pool & n & _ & _ & H & _). exists d, o.
  split; [exact Hd|]. split; [|rewrite E; exact H]. cbn in Ho. injection Ho as Ho. exact Ho.
Defined.

(** A switch port takes no address, but it may become a DHCP client, which
    gives it one. *)
Definition dhcp_on_switchport : res DeviceError (res DeviceError () * res DeviceError () * option Ipv4InterfaceConfig) :=
  d ← device_new 1 (text "SW1") Layer3Switch;
  let d := run_operations [AddPhysicalInterface (text "gi0/0")] d in
  let '(r, d1) := set_dhcp_client 1 d in
  let '(_, d2) := install_dhcp_lease 1 {| lease_dns_servers := []; lease_domain_name := None; renew_at := 1; rebind_at := 2;
    lease_address := 0x0a00000a; lease_prefix_len := 24; lease_default_router := None; lease_server_id := 0x0a000001;
    lease_expires_at := 3 |} d1 in
  Ok ((set_ipv4 1 {| address := 0x0a00000a; prefix_len := 24 |} d).1, r, interface_ipv4 d2 1).
Lemma switchport_dhcp_client :
  dhcp_on_switchport = Ok (Err NotRoutedPort, Ok (), Some {| address := 0x0a00000a; prefix_len := 24 |}).
Proof. vm_compute. reflexivity. Qed.
