(* ===== verification/Forwarding.v ===== *)
(** Routes and neighbours of a device (src/crates/rios-device/src/network.rs):
    the routing table assembled from what the interfaces, the configuration,
    the leases and the protocols give, the recursive resolution of a
    destination to a next hop, and the ARP cache.

    [resolution_refines] says what the bounded search with its set of visited
    addresses computes, [resolved_next_hop] that its answer can be sent,
    [connected_reached] when a destination is reached without a gateway, and
    [arp_refines] that the cache remembers what was last heard for four hours. *)
From Stdlib Require Import Sorting.Sorted.
From S2P Require Import Prelude Wire State Text EventQueue Ethernet Ipv4 Collections Config Inventory Device Interfaces.

Definition ARP_LIFETIME_MS : Z := 4 * 60 * 60 * 1000.

Record ResolvedRoute := {
  resolved_interface : InterfaceId;
  source_ip : Ipv4Addr;
  source_mac : MacAddress;
  resolved_next_hop : Ipv4Addr
}.

(** ** The routing table *)

Definition connected_route (d : Device) (id : InterfaceId) : res DeviceError (list Route) :=
  match interface_ipv4 d id with
  | Some ip =>
      if protocol_up d id then
        p ← unwrap (network_new (address ip) (prefix_len ip));
        Ok [{| prefix := p; next_hop := None; outgoing_interface := Some id; administrative_distance := 0; metric := 0;
               route_source := Connected |}]
      else Ok []
  | None => Ok []
  end.
Definition static_route (connected : RoutingTable) (entry : Ipv4Network * Ipv4Addr) : list Route :=
  match Ipv4.lookup connected entry.2 with
  | Some route =>
      [{| prefix := entry.1; next_hop := Some entry.2; outgoing_interface := outgoing_interface route;
          administrative_distance := 1; metric := 0; route_source := Static |}]
  | None => []
  end.
Definition lease_route (d : Device) (connected : RoutingTable) (entry : InterfaceId * DhcpLease) : list Route :=
  match lease_default_router entry.2 with
  | Some next_hop =>
      if protocol_up d entry.1 && bool_decide (is_Some (Ipv4.lookup connected next_hop))
      then [{| prefix := {| network := 0; network_len := 0 |}; next_hop := Some next_hop; outgoing_interface := Some entry.1;
               administrative_distance := 1; metric := 0; route_source := Static |}]
      else []
  | None => []
  end.
Definition static_entries (d : Device) : list (Ipv4Network * Ipv4Addr) :=
  entries (λ n, [network n; network_len n]) (static_routes (running_config d)).
Definition routing_table_without_bgp (d : Device) : res DeviceError RoutingTable :=
  connected ← try_map (connected_route d) (items (configs d)).*1;
  let connected := concat connected in
  Ok (connected ++ concat (static_route connected <$> static_entries d)
      ++ concat (lease_route d connected <$> items (dhcp_leases d)) ++ ospf_routes d).
Definition routing_table (d : Device) : res DeviceError RoutingTable :=
  table ← routing_table_without_bgp d;
  Ok (table ++ filter (λ r, is_some_and (outgoing_interface r) (protocol_up d) = true) (bgp_routes d)).

Definition set_static_route (prefix : Ipv4Network) (next_hop : Ipv4Addr) (d : Device) : Device :=
  d <| running_config ::= λ r, r <| static_routes ::= <[prefix := next_hop]> |> |>.
Definition remove_static_route (prefix : Ipv4Network) (next_hop : Ipv4Addr) (d : Device) : Device :=
  if bool_decide (static_routes (running_config d) !! prefix = Some next_hop)
  then d <| running_config ::= λ r, r <| static_routes ::= delete prefix |> |> else d.

(** ** Resolution *)

(** One turn of the loop: an answer, or the next address to look up. An interface
    that is up exists ([protocol_up] answers false otherwise), so the lookup of
    its hardware address cannot fail. *)
Definition hop (d : Device) (table : RoutingTable) (destination : Ipv4Addr) : option (ResolvedRoute + Ipv4Addr) :=
  route ← Ipv4.lookup table destination;
  id ← outgoing_interface route;
  if negb (protocol_up d id) then None
  else
    ip ← interface_ipv4 d id;
    let target := default destination (next_hop route) in
    if bool_decide (next_hop route = None)
       || match network_new (address ip) (prefix_len ip) with Ok p => contains p target | _ => false end
    then
      i ← interfaces d !! id;
      Some (inl {| resolved_interface := id; source_ip := address ip; source_mac := mac_address i;
                   resolved_next_hop := target |})
    else Some (inr target).
Fixpoint resolve_from (rounds : nat) (visited : gset Ipv4Addr) (d : Device) (table : RoutingTable) (destination : Ipv4Addr) :
    option ResolvedRoute :=
  match rounds with
  | O => None
  | S rounds =>
      if bool_decide (destination ∈ visited) then None
      else
        match hop d table destination with
        | Some (inl r) => Some r
        | Some (inr next) => resolve_from rounds ({[destination]} ∪ visited) d table next
        | None => None
        end
  end.
Definition resolve_in_table (d : Device) (table : RoutingTable) (destination : Ipv4Addr) : option ResolvedRoute :=
  resolve_from 16 ∅ d table destination.
Definition resolve_route (d : Device) (destination : Ipv4Addr) : res DeviceError (option ResolvedRoute) :=
  table ← routing_table d; Ok (resolve_in_table d table destination).
Definition resolve_non_bgp_route (d : Device) (destination : Ipv4Addr) : res DeviceError (option ResolvedRoute) :=
  table ← routing_table_without_bgp d; Ok (resolve_in_table d table destination).
Definition connected_source (d : Device) (destination : Ipv4Addr) : res DeviceError (option (InterfaceId * Ipv4Addr * MacAddress)) :=
  route ← resolve_route d destination;
  Ok (r ← route; if resolved_next_hop r =? destination then Some (resolved_interface r, source_ip r, source_mac r) else None).

(** ** The ARP cache *)

Definition learn_arp (a : Ipv4Addr) (mac : MacAddress) (id : InterfaceId) (now : SimTime) : op () :=
  reject_if (λ d, negb (bool_decide (is_Some (interfaces d !! id)))) MissingInterface;;
  modify (λ d, d <| arp_cache ::= <[a := {| arp_address := a; arp_mac := mac; arp_interface := id; arp_learned_at := now |}]> |>).
Definition arp_fresh (now : SimTime) (e : ArpEntry) : bool := sat_sub now (arp_learned_at e) <? ARP_LIFETIME_MS * 1000.
Definition arp_lookup (a : Ipv4Addr) (now : SimTime) (d : Device) : option ArpEntry * Device :=
  match arp_cache d !! a with
  | Some e => if arp_fresh now e then (Some e, d) else (None, d <| arp_cache ::= delete a |>)
  | None => (None, d)
  end.
(** What [show_arp] does to the cache before it prints it. *)
Definition arp_age (now : SimTime) (d : Device) : Device :=
  d <| arp_cache ::= filter (λ e, arp_fresh now e.2 = true) |>.

(** ** Specification *)

(** The resolution the code means to follow: [leads_to n a r] when [n] gateways
    lie between [a] and the answer [r]. *)
Inductive leads_to (d : Device) (table : RoutingTable) : nat → Ipv4Addr → ResolvedRoute → Prop :=
| leads_here a r : hop d table a = Some (inl r) → leads_to d table 0 a r
| leads_on n a next r : hop d table a = Some (inr next) → leads_to d table n next r → leads_to d table (S n) a r.

(** The addresses and lengths of the interfaces are valid, which the type
    Ipv4InterfaceConfig makes sure of. *)
Definition addresses_ok (d : Device) : Prop := ∀ id ip, interface_ipv4 d id = Some ip → u32 (address ip) ∧ 0 ≤ prefix_len ip ≤ 32.
(** The network of an interface. *)
Definition attached (d : Device) (id : InterfaceId) (a : Ipv4Addr) : Prop :=
  ∃ ip p, interface_ipv4 d id = Some ip ∧ network_new (address ip) (prefix_len ip) = Ok p ∧ contains p a = true.

Inductive arp_call :=
| ArpLearn (a : Ipv4Addr) (mac : MacAddress) (id : InterfaceId) (now : SimTime)
| ArpResolve (a : Ipv4Addr) (now : SimTime)
| ArpShow (now : SimTime).
Definition arp_time (c : arp_call) : SimTime :=
  match c with ArpLearn _ _ _ now | ArpResolve _ now | ArpShow now => now end.
(** The answers of a history of calls. *)
Fixpoint run_arp (calls : list arp_call) (d : Device) : list (option ArpEntry) * Device :=
  match calls with
  | [] => ([], d)
  | ArpLearn a mac id now :: calls => run_arp calls (learn_arp a mac id now d).2
  | ArpResolve a now :: calls =>
      let '(e, d) := arp_lookup a now d in let '(es, d) := run_arp calls d in (e :: es, d)
  | ArpShow now :: calls => run_arp calls (arp_age now d)
  end.
(** What a cache without memory limits would answer: [heard] holds what was
    last learned for each address. *)
Fixpoint recall (known : InterfaceId → bool) (calls : list arp_call) (heard : Ipv4Addr → option ArpEntry) : list (option ArpEntry) :=
  match calls with
  | [] => []
  | ArpLearn a mac id now :: calls =>
      recall known calls (λ b, if known id && (b =? a)
        then Some {| arp_address := a; arp_mac := mac; arp_interface := id; arp_learned_at := now |} else heard b)
  | ArpResolve a now :: calls => (e ← heard a; if arp_fresh now e then Some e else None) :: recall known calls heard
  | ArpShow now :: calls => recall known calls heard
  end.

(** ** Helper lemmas: resolution *)

Lemma leads_to_inj d t n a r : leads_to d t n a r → ∀ m r', leads_to d t m a r' → n = m ∧ r = r'.
Proof.
  induction 1 as [a r H|n a next r H _ IH]; intros m r' H'; inversion H'; subst; try congruence.
  - split; congruence.
  - assert (next0 = next) as -> by congruence. naive_solver.
Qed.
Lemma resolve_from_sound rounds visited d t a r :
  resolve_from rounds visited d t a = Some r → ∃ n, (n < rounds)%nat ∧ leads_to d t n a r.
Proof.
  revert visited a. induction rounds as [|rounds IH]; intros visited a; cbn [resolve_from]; [done|].
  destruct (bool_decide _); [done|]. destruct (hop d t a) as [[r'|next]|] eqn:Hh; [|intros H|done].
  - intros [= ->]. exists 0%nat. split; [lia|]. by constructor.
  - destruct (IH _ _ H) as (n & Hn & Hl). exists (S n). split; [lia|]. by econstructor.
Qed.
(** An address already visited is farther from the answer than the one now
    looked up, so the set of visited addresses rejects nothing that resolves. *)
Lemma resolve_from_complete rounds visited d t n a r :
  leads_to d t n a r → (n < rounds)%nat → (∀ v m s, v ∈ visited → leads_to d t m v s → (n < m)%nat) →
  resolve_from rounds visited d t a = Some r.
Proof.
  intros Hl. revert rounds visited. induction Hl as [a r Hh|n a next r Hh Hl IH]; intros [|rounds] visited Hn Hv; try lia;
    cbn [resolve_from]; rewrite bool_decide_false, Hh.
  - done.
  - intros Hin. specialize (Hv _ _ _ Hin (leads_here _ _ _ _ Hh)). lia.
  - apply IH; [lia|]. intros v m s [->%elem_of_singleton|Hin]%elem_of_union Hm.
    + destruct (leads_to_inj _ _ _ _ _ (leads_on _ _ _ _ _ _ Hh Hl) _ _ Hm) as [<- _]. lia.
    + specialize (Hv _ _ _ Hin Hm). lia.
  - intros Hin. specialize (Hv _ _ _ Hin (leads_on _ _ _ _ _ _ Hh Hl)). lia.
Qed.

(** ** Helper lemmas: the table *)

Lemma connected_route_Ok d id : addresses_ok d → ∃ l, connected_route d id = Ok l.
Proof.
  intros Hd. unfold connected_route. destruct (interface_ipv4 d id) as [ip|] eqn:Hip; [|by eexists].
  destruct (protocol_up d id); [|by eexists]. destruct (Hd _ _ Hip). rewrite network_new_eq by done. by eexists.
Qed.
Lemma connected_route_elem d id l r :
  connected_route d id = Ok l → r ∈ l →
  ∃ ip p, interface_ipv4 d id = Some ip ∧ protocol_up d id = true ∧ network_new (address ip) (prefix_len ip) = Ok p
    ∧ r = {| prefix := p; next_hop := None; outgoing_interface := Some id; administrative_distance := 0; metric := 0;
             route_source := Connected |}.
Proof.
  unfold connected_route. destruct (interface_ipv4 d id) as [ip|]; [|by intros <-%Ok_inj ?%elem_of_nil].
  destruct (protocol_up d id); [|by intros <-%Ok_inj ?%elem_of_nil].
  destruct (network_new _ _) as [p| |] eqn:Hp; try done. intros <-%Ok_inj ->%list_elem_of_singleton. by exists ip, p.
Qed.
(** Where the routes of the table come from. *)
Inductive origin (d : Device) (connected : RoutingTable) (r : Route) : Prop :=
| from_interface : r ∈ connected → origin d connected r
| from_gateway : is_Some (next_hop r) → administrative_distance r = 1 → origin d connected r
| from_protocol : r ∈ ospf_routes d ++ bgp_routes d → origin d connected r.
Lemma routing_table_origin d t :
  routing_table d = Ok t →
  ∃ ls, try_map (connected_route d) (items (configs d)).*1 = Ok ls ∧ (∀ r, r ∈ concat ls → r ∈ t) ∧ ∀ r, r ∈ t → origin d (concat ls) r.
Proof.
  intros (t0 & (ls & Hls & <-%Ok_inj)%bind_Ok_inv & <-%Ok_inj)%bind_Ok_inv. exists ls. split; [done|]. split.
  - intros r Hr. rewrite <-!app_assoc. apply elem_of_app. by left.
  - intros r. rewrite !elem_of_app. intros [[Hr|[Hr|[Hr|Hr]]]|Hr].
    + by apply from_interface.
    + apply list_elem_of_In, in_concat in Hr as (l & (e & -> & _)%list_elem_of_In%list_elem_of_fmap & Hr).
      unfold static_route in Hr. destruct (Ipv4.lookup _ _); [|done]. destruct Hr as [<-|[]]. by apply from_gateway; [eexists|].
    + apply list_elem_of_In, in_concat in Hr as (l & (e & -> & _)%list_elem_of_In%list_elem_of_fmap & Hr).
      unfold lease_route in Hr. destruct (lease_default_router _); [|done]. destruct (_ && _); [|done].
      destruct Hr as [<-|[]]. by apply from_gateway; [eexists|].
    + apply from_protocol, elem_of_app. by left.
    + apply from_protocol, elem_of_app. right. by apply list_elem_of_filter in Hr as [_ ?].
Qed.
Lemma concat_connected d ls r :
  try_map (connected_route d) (items (configs d)).*1 = Ok ls → r ∈ concat ls → ∃ id l, connected_route d id = Ok l ∧ r ∈ l.
Proof.
  intros Hls%try_map_Ok Hr. apply list_elem_of_In, in_concat in Hr as (l & Hl & Hr).
  apply list_elem_of_In, list_elem_of_lookup in Hl as [i Hi]. destruct (Forall2_lookup_r _ _ _ _ _ Hls Hi) as (id & _ & Hid).
  exists id, l. split; [done|]. by apply list_elem_of_In.
Qed.
Lemma connected_in_table d ls id l :
  try_map (connected_route d) (items (configs d)).*1 = Ok ls → is_Some (configs d !! id) → connected_route d id = Ok l →
  ∀ r, r ∈ l → r ∈ concat ls.
Proof.
  intros Hls%try_map_Ok [c Hc] Hl r Hr.
  assert (Hin : id ∈ (items (configs d)).*1).
  { apply list_elem_of_fmap. exists (id, c). split; [done|]. by apply elem_of_entries. }
  apply list_elem_of_lookup in Hin as [i Hi]. destruct (Forall2_lookup_l _ _ _ _ _ Hls Hi) as (l' & Hl' & Hid).
  rewrite Hl in Hid. apply Ok_inj in Hid as <-. apply list_elem_of_In, in_concat. exists l. split; apply list_elem_of_In; [|done].
  by apply list_elem_of_lookup_2 in Hl'.
Qed.
Lemma routing_table_Ok d : addresses_ok d → ∃ t, routing_table d = Ok t.
Proof.
  intros Hd. assert (∃ ls, try_map (connected_route d) (items (configs d)).*1 = Ok ls) as [ls Hls].
  { induction (items (configs d)).*1 as [|id l [ls IH]]; [by eexists|]. destruct (connected_route_Ok d id Hd) as [r Hr].
    cbn [try_map]. rewrite Hr, bind_Ok, IH, bind_Ok. by eexists. }
  unfold routing_table, routing_table_without_bgp. rewrite Hls, !bind_Ok. by eexists.
Qed.
Lemma hop_here d t a r :
  hop d t a = Some (inl r) →
  ∃ q ip i, Ipv4.lookup t a = Some q ∧ outgoing_interface q = Some (resolved_interface r)
    ∧ protocol_up d (resolved_interface r) = true
    ∧ interface_ipv4 d (resolved_interface r) = Some ip ∧ address ip = source_ip r
    ∧ interfaces d !! resolved_interface r = Some i ∧ mac_address i = source_mac r
    ∧ resolved_next_hop r = default a (next_hop q)
    ∧ (next_hop q = None ∨ attached d (resolved_interface r) (resolved_next_hop r)).
Proof.
  unfold hop. intros (q & Hq & (id & Hid & H)%bind_Some)%bind_Some. destruct (protocol_up d id) eqn:Hup; [|done]. cbn [negb] in H.
  apply bind_Some in H as (ip & Hip & H). destruct (_ || _) eqn:E; [|done]. apply bind_Some in H as (i & Hi & [= <-]). cbn.
  exists q, ip, i. split_and!; try done. apply orb_true_iff in E as [E%bool_decide_eq_true|E]; [by left|right].
  destruct (network_new _ _) as [p| |] eqn:Hp; try done. by exists ip, p.
Qed.
Lemma lookup_contains t a q : Ipv4.lookup t a = Some q → q ∈ t ∧ contains (prefix q) a = true.
Proof. intros [Hq _]%min_by_key_least. by apply list_elem_of_filter in Hq as [? ?]. Qed.
Lemma network_new_len a l p : network_new a l = Ok p → network_len p = l.
Proof. unfold network_new. by intros (m & _ & [= <-])%bind_Ok_inv. Qed.
Lemma up_interface d id : protocol_up d id = true → is_Some (interfaces d !! id) ∧ is_Some (configs d !! id).
Proof.
  unfold protocol_up. cbn [up_rounds]. unfold protocol_up_with. destruct (interfaces d !! id); [|done].
  rewrite !andb_true_iff. intros [[_ H] _]. destruct (configs d !! id); [|done]. split; by eexists.
Qed.

(** ** Helper lemmas: the cache *)

Lemma arp_fresh_mono now later e : now ≤ later → arp_fresh later e = true → arp_fresh now e = true.
Proof. unfold arp_fresh, sat_sub. lia. Qed.
(** The cache holds what was heard, less what is too old at [now]. *)
Definition remembers (now : SimTime) (heard : Ipv4Addr → option ArpEntry) (cache : gmap Ipv4Addr ArpEntry) : Prop :=
  ∀ a, cache !! a = heard a ∨ cache !! a = None ∧ ∀ e, heard a = Some e → arp_fresh now e = false.
Lemma remembers_later now later heard cache : now ≤ later → remembers now heard cache → remembers later heard cache.
Proof.
  intros Hle H a. destruct (H a) as [Ha|[Ha Hold]]; [by left|right]. split; [done|]. intros e He.
  specialize (Hold e He). destruct (arp_fresh later e) eqn:E; [|done]. by rewrite (arp_fresh_mono now later e Hle E) in Hold.
Qed.
Lemma remembers_learn now heard cache a e :
  remembers now heard cache → remembers now (λ b, if b =? a then Some e else heard b) (<[a := e]> cache).
Proof.
  intros H b. destruct (Z.eqb_spec b a) as [->|Hne]; [left; by rewrite lookup_insert_eq|].
  rewrite lookup_insert_ne by done. apply H.
Qed.
Lemma remembers_shrink now heard cache cache' :
  remembers now heard cache →
  (∀ a, cache' !! a = cache !! a ∨ cache' !! a = None ∧ ∀ e, cache !! a = Some e → arp_fresh now e = false) →
  remembers now heard cache'.
Proof.
  intros H Hs a. destruct (Hs a) as [->|[Hn Hold]]; [apply H|]. right. split; [done|]. intros e He.
  destruct (H a) as [Ha|[_ Hheard]]; [apply Hold; congruence|by apply Hheard].
Qed.
Lemma arp_lookup_spec a now heard d e d' :
  remembers now heard (arp_cache d) → arp_lookup a now d = (e, d') →
  e = (e ← heard a; if arp_fresh now e then Some e else None) ∧ remembers now heard (arp_cache d') ∧ interfaces d' = interfaces d.
Proof.
  intros H. unfold arp_lookup. destruct (arp_cache d !! a) as [x|] eqn:Hx.
  - assert (heard a = Some x) as -> by (destruct (H a) as [<-|[? _]]; congruence). cbn [mbind option_bind].
    destruct (arp_fresh now x) eqn:Hf; intros [= <- <-]; (split; [done|]); (split; [|done]); [done|].
    apply (remembers_shrink _ _ _ _ H). intros b. cbn. destruct (decide (b = a)) as [->|Hne].
    + right. rewrite lookup_delete_eq. split; [done|]. intros y. by rewrite Hx; intros [= <-].
    + left. by rewrite lookup_delete_ne.
  - intros [= <- <-]. split; [|done]. destruct (H a) as [Ha|[_ Ha]]; [by rewrite <-Ha, Hx|].
    destruct (heard a) as [y|]; [|done]. cbn. by rewrite (Ha y eq_refl).
Qed.
Lemma remembers_age now heard d : remembers now heard (arp_cache d) → remembers now heard (arp_cache (arp_age now d)).
Proof.
  intros H. apply (remembers_shrink _ _ _ _ H). intros a. cbn. rewrite map_lookup_filter.
  destruct (arp_cache d !! a) as [x|]; cbn; [|by left]. destruct (arp_fresh now x) eqn:E.
  - left. case_guard; done.
  - right. split; [by case_guard|]. by intros y [= <-].
Qed.
Lemma run_arp_recall calls d now heard known :
  (∀ id, known id = bool_decide (is_Some (interfaces d !! id))) → remembers now heard (arp_cache d) →
  Sorted Z.le (now :: (arp_time <$> calls)) → (run_arp calls d).1 = recall known calls heard.
Proof.
  revert d now heard. induction calls as [|c calls IH]; intros d now heard Hk Hr Hs; [done|].
  cbn [fmap list_fmap] in Hs. apply Sorted_inv in Hs as [Hs Hle%HdRel_inv]. apply (remembers_later _ _ _ _ Hle) in Hr.
  destruct c as [a mac id t|a t|t]; cbn [arp_time run_arp recall] in *.
  - unfold learn_arp. rewrite run_reject, Hk. destruct (decide (is_Some (interfaces d !! id))) as [Hi|Hi].
    + rewrite bool_decide_true by done. cbn [negb snd andb]. rewrite run_modify || cbn [modify snd].
      apply (IH _ t); [done| |done]. by apply remembers_learn.
    + rewrite bool_decide_false by done. cbn [negb snd andb]. by apply (IH _ t).
  - destruct (arp_lookup a t d) as [e d'] eqn:E. destruct (arp_lookup_spec _ _ _ _ _ _ Hr E) as (-> & Hr' & Hi).
    specialize (IH d' t heard ltac:(by intros ?; rewrite Hi, Hk) Hr' Hs). destruct (run_arp calls d') as [es d'']. cbn in *. by rewrite IH.
  - apply (IH _ t); [done| |done]. by apply remembers_age.
Qed.

(** ** Theorems *)

(** Resolving a destination follows gateways exactly as the specification
    does, through at most sixteen of them: the set of visited addresses makes
    the search stop on a loop and never hides a next hop. *)
Theorem resolution_refines d table a r :
  resolve_in_table d table a = Some r ↔ ∃ n, (n < 16)%nat ∧ leads_to d table n a r.
Proof.
  split; [apply resolve_from_sound|]. intros (n & Hn & Hl). apply (resolve_from_complete _ _ _ _ n); [done..|].
  intros v m s []%elem_of_empty.
Qed.

(** C36: Resolution returns on a device whose addresses are valid, and a resolved
    route can be sent: its interface is up, the source is that interface's
    address and MAC, and the next hop is on the network of that interface,
    unless a routing protocol gave a route without a next hop for it. *)
Theorem resolved_next_hop_reachable d a :
  addresses_ok d →
  ∃ o, resolve_route d a = Ok o ∧ ∀ r, o = Some r →
    protocol_up d (resolved_interface r) = true
    ∧ (∃ ip, interface_ipv4 d (resolved_interface r) = Some ip ∧ address ip = source_ip r)
    ∧ (∃ i, interfaces d !! resolved_interface r = Some i ∧ mac_address i = source_mac r)
    ∧ (attached d (resolved_interface r) (resolved_next_hop r)
       ∨ ∃ q, q ∈ ospf_routes d ++ bgp_routes d ∧ next_hop q = None ∧ contains (prefix q) (resolved_next_hop r) = true).
Proof.
  intros Hd. destruct (routing_table_Ok d Hd) as [t Ht]. unfold resolve_route. rewrite Ht, bind_Ok. eexists. split; [done|].
  intros r (n & _ & Hl)%resolve_from_sound. induction Hl as [b r Hh|n b next r _ _ IH]; [|done].
  destruct (hop_here _ _ _ _ Hh) as (q & ip & i & Hq & Hid & Hup & Hip & Hsrc & Hi & Hmac & Hnext & Hon).
  split_and!; [done|by exists ip|by exists i|]. destruct Hon as [Hn|Hon]; [|by left].
  rewrite Hn in Hnext. cbn in Hnext. rewrite Hnext in *. apply lookup_contains in Hq as [Hq Hc].
  destruct (routing_table_origin _ _ Ht) as (ls & Hls & _ & Horigin). destruct (Horigin q Hq) as [Hin|[? Hs] _|Hin].
  - left. destruct (concat_connected _ _ _ Hls Hin) as (id & l & Hl & Hql).
    destruct (connected_route_elem _ _ _ _ Hl Hql) as (ip' & p & Hip' & _ & Hp & ->). cbn in *.
    injection Hid as <-. by exists ip', p.
  - by rewrite Hn in Hs.
  - right. by exists q.
Qed.

(** C37: A destination on the network of an interface that is up is sent to
    directly, without a gateway, whatever static, leased or learned routes there
    are, as long as none of them is more specific. *)
Theorem connected_reached d t id ip a :
  addresses_ok d → routing_table d = Ok t → (∀ q, q ∈ ospf_routes d ++ bgp_routes d → 0 < administrative_distance q) →
  protocol_up d id = true → interface_ipv4 d id = Some ip → attached d id a →
  (∀ q, q ∈ t → contains (prefix q) a = true → network_len (prefix q) ≤ prefix_len ip) →
  ∃ r, resolve_route d a = Ok (Some r) ∧ resolved_next_hop r = a ∧ attached d (resolved_interface r) a
    ∧ connected_source d a = Ok (Some (resolved_interface r, source_ip r, source_mac r)).
Proof.
  intros Hd Ht Hlearned Hup Hip (ip' & p & Hip' & Hp & Ha) Hspecific. rewrite Hip in Hip'. injection Hip' as <-.
  destruct (routing_table_origin _ _ Ht) as (ls & Hls & Hsub & Horigin).
  assert (∃ c, c ∈ t ∧ contains (prefix c) a = true ∧ route_key c = [- prefix_len ip; 0; 0]) as (c & Hct & Hca & Hkey).
  { eexists. split; [|split].
    - apply Hsub. eapply (connected_in_table _ _ id _ Hls); [by apply up_interface| |by apply list_elem_of_singleton].
      unfold connected_route. by rewrite Hip, Hup, Hp.
    - done.
    - unfold route_key. cbn. by rewrite (network_new_len _ _ _ Hp). }
  destruct (Ipv4.lookup t a) as [q|] eqn:Hq.
  2:{ apply min_by_key_None in Hq. assert (Hin : c ∈ filter (λ r, contains (prefix r) a = true) t) by by apply list_elem_of_filter.
      rewrite Hq in Hin. by apply elem_of_nil in Hin. }
  pose proof (lookup_contains _ _ _ Hq) as [Hqt Hqa]. apply min_by_key_least in Hq as Hmin. destruct Hmin as [_ Hmin].
  specialize (Hmin c ltac:(by apply list_elem_of_filter)). rewrite Hkey in Hmin. specialize (Hspecific q Hqt Hqa).
  unfold route_key in Hmin. cbn [lex_ltb] in Hmin.
  destruct (Horigin q Hqt) as [Hin|_ Had|Hin]; [|lia|by specialize (Hlearned q Hin); lia].
  destruct (concat_connected _ _ _ Hls Hin) as (id' & l & Hl & Hql).
  destruct (connected_route_elem _ _ _ _ Hl Hql) as (ip' & p' & Hip'' & Hup' & Hp' & ->). cbn in *.
  destruct (up_interface _ _ Hup') as [[i Hi] _].
  assert (Hres : resolve_route d a = Ok (Some {| resolved_interface := id'; source_ip := address ip'; source_mac := mac_address i; resolved_next_hop := a |})).
  { unfold resolve_route. rewrite Ht, bind_Ok. unfold resolve_in_table. cbn [resolve_from]. rewrite bool_decide_false by apply not_elem_of_empty.
    unfold hop. rewrite Hq. cbn. rewrite Hup'. cbn. rewrite Hip''. cbn. by rewrite Hi. }
  eexists. split; [done|]. split_and!; [done|by exists ip', p'|]. unfold connected_source. rewrite Hres, bind_Ok. cbn. by rewrite Z.eqb_refl.
Qed.

(** C38: Over any history of learning, resolving and showing in the order of
    time, the cache answers with what was last learned for the address on an
    interface that exists, if that was less than four hours ago, and with
    nothing otherwise. *)
Theorem arp_refines d calls :
  arp_cache d = ∅ → Sorted Z.le (arp_time <$> calls) →
  (run_arp calls d).1 = recall (λ id, bool_decide (is_Some (interfaces d !! id))) calls (λ _, None).
Proof.
  intros Hd Hs. destruct calls as [|c calls]; [done|].
  apply (run_arp_recall _ _ (arp_time c)); [done| |by constructor; [|constructor]].
  intros a. left. by rewrite Hd.
Qed.

(** ** Concrete inputs *)

(** A router with two networks and a default route. *)
Definition sample_setup : list operation :=
  [AddPhysicalInterface (text "gi0/0"); AddPhysicalInterface (text "gi0/1");
   SetIpv4 1 {| address := 0x0a000001; prefix_len := 24 |}; SetIpv4 2 {| address := 0xc0a80001; prefix_len := 16 |};
   SetAdminState 1 AdminUp; SetAdminState 2 AdminUp; SetLinkState 1 LinkUp; SetLinkState 2 LinkUp].
Definition default_network : Ipv4Network := {| network := 0; network_len := 0 |}.
Definition sample_router : res DeviceError Device :=
  d ← device_new 1 (text "R1") Router; Ok (set_static_route default_network 0xc0a80009 (run_operations sample_setup d)).
Definition address_valid (d : Device) (id : InterfaceId) : bool :=
  match interface_ipv4 d id with
  | Some ip => (0 <=? address ip) && (address ip <=? U32_MAX) && (0 <=? prefix_len ip) && (prefix_len ip <=? 32)
  | None => true
  end.
Lemma addresses_ok_valid d : forallb (address_valid d) (items (configs d)).*1 = true → addresses_ok d.
Proof.
  intros H id ip Hip. assert (Hin : id ∈ (items (configs d)).*1).
  { unfold interface_ipv4 in Hip. apply bind_Some in Hip as (c & Hc & _). apply list_elem_of_fmap. exists (id, c).
    split; [done|]. by apply elem_of_entries. }
  rewrite forallb_forall in H. specialize (H id ltac:(by apply list_elem_of_In)). unfold address_valid in H. rewrite Hip in H.
  unfold U32_MAX in *. lia.
Qed.
(** What is sent for an address outside both networks, and for a neighbour. *)
Definition next_hops (d : Device) : list (res DeviceError (option (InterfaceId * Ipv4Addr))) :=
  map (λ a, o ← resolve_route d a; Ok (option_map (λ r, (resolved_interface r, resolved_next_hop r)) o)) [0x08080808; 0x0a000063].
Lemma sample_router_routes :
  ∃ d, sample_router = Ok d ∧ addresses_ok d ∧ next_hops d = [Ok (Some (2, 0xc0a80009)); Ok (Some (1, 0x0a000063))]
    ∧ ospf_routes d ++ bgp_routes d = [] ∧ protocol_up d 1 = true
    ∧ interface_ipv4 d 1 = Some {| address := 0x0a000001; prefix_len := 24 |} ∧ arp_cache d = ∅ ∧ is_Some (interfaces d !! 1)
    ∧ ∃ t, routing_table d = Ok t ∧ forallb (λ q, network_len (prefix q) <=? 24) t = true.
Proof.
  destruct sample_router as [d|e|] eqn:E; [|by vm_compute in E..]. exists d. split; [done|].
  assert (H : (d ← sample_router; t ← routing_table d;
    Ok (forallb (address_valid d) (items (configs d)).*1, next_hops d, ospf_routes d ++ bgp_routes d, protocol_up d 1,
        interface_ipv4 d 1, bool_decide (arp_cache d = ∅), forallb (λ q, network_len (prefix q) <=? 24) t))
    = @Ok DeviceError _ (true, [Ok (Some (2, 0xc0a80009)); Ok (Some (1, 0x0a000063))], [], true,
        Some {| address := 0x0a000001; prefix_len := 24 |}, true, true)) by by vm_compute.
  rewrite E, bind_Ok in H. apply bind_Ok_inv in H as (t & Ht & H). apply Ok_inj in H. rewrite !pair_equal_spec in H.
  destruct H as [[[[[[Ha Hn] Hl] Hup] Hip] Harp] Hlen]. apply bool_decide_eq_true in Harp.
  split_and!; try done; [by apply addresses_ok_valid|by apply up_interface|by exists t].
Qed.
Lemma resolved_next_hop_reachable_witness :
  ∃ d, sample_router = Ok d ∧ next_hops d = [Ok (Some (2, 0xc0a80009)); Ok (Some (1, 0x0a000063))]
    ∧ ∃ o, resolve_route d 0x08080808 = Ok o ∧ ∀ r, o = Some r → protocol_up d (resolved_interface r) = true.
Proof.
  destruct sample_router_routes as (d & Hd & Ha & Hn & _). exists d. split; [exact Hd|]. split; [exact Hn|].
  destruct (resolved_next_hop_reachable d 0x08080808 Ha) as (o & Ho & Hr). exists o. split; [exact Ho|].
  intros r Hor. exact (proj1 (Hr r Hor)).
Defined.
Lemma connected_reached_witness :
  ∃ d r, sample_router = Ok d ∧ resolve_route d 0x0a000063 = Ok (Some r) ∧ resolved_next_hop r = 0x0a000063.
Proof.
  destruct sample_router_routes as (d & Hd & Ha & _ & Hl & Hup & Hip & _ & _ & t & Ht & Hlen). exists d.
  destruct (connected_reached d t 1 {| address := 0x0a000001; prefix_len := 24 |} 0x0a000063 Ha Ht) as (r & Hr & Hn & _).
  - intros q Hq. rewrite Hl in Hq. apply elem_of_nil in Hq. destruct Hq.
  - exact Hup.
  - exact Hip.
  - exists {| address := 0x0a000001; prefix_len := 24 |}, {| network := 0x0a000000; network_len := 24 |}.
    split; [exact Hip|]. split; [vm_compute; reflexivity|vm_compute; reflexivity].
  - intros q Hq _. rewrite forallb_forall in Hlen. apply list_elem_of_In in Hq. specialize (Hlen q Hq). cbn [prefix_len]. lia.
  - exists r. split; [exact Hd|]. split; [exact Hr|exact Hn].
Defined.
(** A neighbour that is replaced, one never heard, and one that is forgotten. *)
Definition sample_calls : list arp_call :=
  [ArpLearn 7 [2; 0; 0; 0; 0; 7] 1 0; ArpResolve 7 5; ArpLearn 7 [2; 0; 0; 0; 0; 9] 1 10; ArpResolve 7 20; ArpResolve 8 30; ArpShow 14400000009; ArpResolve 7 14400000010].
Lemma arp_refines_witness :
  ∃ d, sample_router = Ok d ∧ Sorted Z.le (arp_time <$> sample_calls)
    ∧ map (option_map arp_mac) (run_arp sample_calls d).1 = [Some [2; 0; 0; 0; 0; 7]; Some [2; 0; 0; 0; 0; 9]; None; None].
Proof.
  destruct sample_router_routes as (d & Hd & _ & _ & _ & _ & _ & Harp & Hi & _). exists d. split; [exact Hd|].
  assert (Hs : Sorted Z.le (arp_time <$> sample_calls)) by (repeat constructor; cbn; lia). split; [exact Hs|].
  rewrite (arp_refines d sample_calls Harp Hs). unfold sample_calls. cbn [recall]. rewrite (bool_decide_true _ Hi). vm_compute. reflexivity.
Defined.
