(* ===== verification/Transport.v ===== *)
(** The TCP endpoints of a device (the methods of [Device] in
    src/crates/rios-device/src/tcp.rs): listeners, the table of connections,
    the calls of applications, packets that arrive and the timer.

    [tcp_table_invariant] keeps the table bounded and well formed and shows
    that no call panics; [host_simulates] is the contract with
    [TcpConnection]: whatever happens to the host, each of its sockets only
    takes steps of the connection state machine, and what that machine sends
    is among the packets of the host, so what is proved of two connections
    holds of two hosts. [connection_refused] and [hosts_connect] follow packets
    between two hosts. *)
From S2P Require Import Prelude Wire State Text EventQueue Ethernet Ipv4 Collections Config Inventory Device Interfaces TcpSegment TcpConnection.

Abbreviation tcp_op A := (stateful Device TcpError A).

(** [Result::ok] outside of a [match]: a panic stays one. *)
Definition settle {E F A} (m : res E A) : res F (option A) :=
  match m with Ok a => Ok (Some a) | Err _ => Ok None | Panic => Panic end.

Definition packet (socket : TcpSocket) (segment : TcpSegment) : res TcpError Ipv4Packet :=
  payload ← map_err Packet (segment_encode segment (local_address socket) (remote_address socket));
  Ok {| Ipv4.dscp_ecn := 0; Ipv4.source := local_address socket; Ipv4.destination := remote_address socket; Ipv4.ttl := 64;
        Ipv4.protocol := Ipv4.Tcp; Ipv4.payload := payload |}.

(** ** The table *)

Definition view (d : Device) (socket : TcpSocket) : option TcpConnection := connections (tcp d) !! socket.
Definition update_connections (f : gmap TcpSocket TcpConnection → gmap TcpSocket TcpConnection) (d : Device) : Device :=
  d <| tcp ::= λ r, r <| connections ::= f |> |>.
Definition set_connection (socket : TcpSocket) (c : TcpConnection) : Device → Device := update_connections (insert socket c).
Definition connection_count (d : Device) : Z := Z.of_nat (size (connections (tcp d))).
Definition tcp_connections (d : Device) : list (TcpSocket * TcpConnection) :=
  entries (λ s, [local_address s; local_port s; remote_address s; remote_port s]) (connections (tcp d)).

Definition tcp_listen (port : Z) : tcp_op () :=
  reject_if (λ _, port =? 0) Endpoint;;
  reject_if (λ d, (1024 <=? Z.of_nat (size (listeners (tcp d)))) && negb (bool_decide (port ∈ listeners (tcp d)))) Capacity;;
  modify (λ d, d <| tcp ::= λ r, r <| listeners ::= λ l, {[port]} ∪ l |> |>).
Definition tcp_unlisten (port : Z) (d : Device) : Device := d <| tcp ::= λ r, r <| listeners ::= λ l, l ∖ {[port]} |> |>.
Definition tcp_set_idle_timeout (socket : TcpSocket) (timeout : option Z) : tcp_op () :=
  c ← require (λ d, view d socket) Missing;
  modify (set_connection socket (c <| idle_timeout_us := timeout |>)).
Definition tcp_initial_sequence : tcp_op Z := λ d,
  let sequence := wrapping_add32 (next_sequence (tcp d)) 64000 in
  (Ok sequence, d <| tcp ::= λ r, r <| next_sequence := sequence |> |>).

(** ** Calls of applications *)

Definition tcp_abort (socket : TcpSocket) : tcp_op Ipv4Packet :=
  c ← require (λ d, view d socket) Missing;
  modify (update_connections (delete socket));;
  reset ← lift (segment c socket (flags_bitor RST ACK) []);
  lift (packet socket reset).

Definition unusable_remote (a : Ipv4Addr) : bool :=
  (a =? 0) || (a `div` 2 ^ 28 =? 14) || (a =? 0xffffffff).
Definition tcp_connect (socket : TcpSocket) (now : SimTime) : tcp_op Ipv4Packet :=
  reject_if (λ d, (local_port socket =? 0) || (remote_port socket =? 0) || negb (owns_any_ipv4 d (local_address socket))
                  || unusable_remote (remote_address socket)) Endpoint;;
  reject_if (λ d, bool_decide (is_Some (view d socket))) TcpConnection.State;;
  reject_if (λ d, MAX_CONNECTIONS <=? connection_count d) Capacity;;
  isn ← tcp_initial_sequence;
  '(c, syn) ← lift (open_active isn socket now);
  modify (set_connection socket c);;
  lift (packet socket syn).
Definition tcp_send (socket : TcpSocket) (payload : bytes) (now : SimTime) : tcp_op Ipv4Packet :=
  reject_if (λ _, bool_decide (payload = []) || (MAX_PAYLOAD <? len payload)) Capacity;;
  c ← require (λ d, view d socket) Missing;
  '(c, seg) ← lift (connection_write c socket payload now);
  modify (set_connection socket c);;
  lift (packet socket seg).
Definition tcp_close (socket : TcpSocket) (now : SimTime) : tcp_op Ipv4Packet :=
  c ← require (λ d, view d socket) Missing;
  '(c, fin) ← lift (connection_close c socket now);
  modify (set_connection socket c);;
  lift (packet socket fin).
Definition tcp_read (socket : TcpSocket) : tcp_op (bytes * Ipv4Packet) :=
  c ← require (λ d, view d socket) Missing;
  '(c, data, update) ← lift (connection_read c socket);
  modify (set_connection socket c);;
  p ← lift (packet socket update);
  mret (data, p).

(** ** Packets that arrive *)

Definition socket_of (incoming : Ipv4Packet) (seg : TcpSegment) : TcpSocket :=
  {| local_address := Ipv4.destination incoming; local_port := destination_port seg;
     remote_address := Ipv4.source incoming; remote_port := source_port seg |}.
(** The reset for a segment without a connection. *)
Definition refusal (socket : TcpSocket) (seg : TcpSegment) (now : SimTime) : res TcpError TcpSegment :=
  reset ← segment (connection_new 0 now) socket RST [];
  if flags_contains (flags seg) ACK
  then Ok {| source_port := source_port reset; destination_port := destination_port reset; sequence := acknowledgment seg;
             acknowledgment := acknowledgment reset; flags := flags reset; window := window reset; options := options reset;
             payload := payload reset |}
  else
    n ← sequence_len seg;
    Ok {| source_port := source_port reset; destination_port := destination_port reset; sequence := sequence reset;
          acknowledgment := wrapping_add32 (sequence seg) n; flags := flags_bitor RST ACK; window := window reset;
          options := options reset; payload := payload reset |}.
(** The segment of a packet for this device. *)
Definition incoming_segment (d : Device) (incoming : Ipv4Packet) : res TcpError (option TcpSegment) :=
  if negb (match Ipv4.protocol incoming with Ipv4.Tcp => true | _ => false end) || negb (owns_any_ipv4 d (Ipv4.destination incoming))
  then Ok None
  else settle (segment_decode (Ipv4.source incoming) (Ipv4.destination incoming) (Ipv4.payload incoming)).
Definition accepts (d : Device) (socket : TcpSocket) (seg : TcpSegment) : bool :=
  bool_decide (flags seg = SYN) && bool_decide (local_port socket ∈ listeners (tcp d)) && (connection_count d <? MAX_CONNECTIONS).
Definition receive_segment (socket : TcpSocket) (seg : TcpSegment) (now : SimTime) : tcp_op (option Ipv4Packet) :=
  existing ← gets (λ d, view d socket);
  match existing with
  | Some c =>
      '(c, reply) ← lift (receive c socket seg now);
      modify (set_connection socket c);;
      match reply with Some reply => lift (settle (packet socket reply)) | None => mret None end
  | None =>
      if flags_contains (flags seg) RST then mret None
      else
        accepted ← gets (λ d, accepts d socket seg);
        if accepted : bool then
          isn ← tcp_initial_sequence;
          '(c, reply) ← lift (open_passive isn socket seg now);
          modify (set_connection socket c);;
          lift (settle (packet socket reply))
        else
          reset ← lift (refusal socket seg now);
          lift (settle (packet socket reset))
  end.
Definition receive_tcp (incoming : Ipv4Packet) (now : SimTime) : tcp_op (option Ipv4Packet) :=
  seg ← try_gets (λ d, incoming_segment d incoming);
  match seg with Some seg => receive_segment (socket_of incoming seg) seg now | None => mret None end.

(** ** The timer *)

Definition tick_connection (now : SimTime) (e : TcpSocket * TcpConnection) :
    res TcpError ((TcpSocket * TcpConnection) * option Ipv4Packet) :=
  '(c, again) ← retransmit e.2 now;
  match again with
  | Some seg => p ← settle (packet e.1 seg); Ok ((e.1, c), p)
  | None => Ok ((e.1, c), None)
  end.
Definition tcp_tick (now : SimTime) : tcp_op (list Ipv4Packet) :=
  modify (update_connections (filter (λ e, retained e.2 now = true)));;
  ticked ← try_gets (λ d, try_map (tick_connection now) (tcp_connections d));
  modify (update_connections (λ _, list_to_map ticked.*1));;
  mret (omap (λ p, p) ticked.*2).

(** ** The calls as data *)

Inductive tcp_operation :=
| Listen (port : Z) | Unlisten (port : Z) | SetIdleTimeout (socket : TcpSocket) (timeout : option Z) | Abort (socket : TcpSocket)
| Connect (socket : TcpSocket) (now : SimTime) | Send (socket : TcpSocket) (payload : bytes) (now : SimTime)
| CloseStream (socket : TcpSocket) (now : SimTime) | ReadStream (socket : TcpSocket)
| Receive (incoming : Ipv4Packet) (now : SimTime) | Tick (now : SimTime).
Definition one (p : tcp_op Ipv4Packet) : tcp_op (list Ipv4Packet * bytes) := p ← p; mret ([p], []).
(** A call, with the packets it returns and the bytes it reads. *)
Definition run_tcp (o : tcp_operation) : tcp_op (list Ipv4Packet * bytes) :=
  match o with
  | Listen port => tcp_listen port;; mret ([], [])
  | Unlisten port => modify (tcp_unlisten port);; mret ([], [])
  | SetIdleTimeout s timeout => tcp_set_idle_timeout s timeout;; mret ([], [])
  | Abort s => one (tcp_abort s)
  | Connect s now => one (tcp_connect s now)
  | Send s payload now => one (tcp_send s payload now)
  | CloseStream s now => one (tcp_close s now)
  | ReadStream s => '(data, p) ← tcp_read s; mret ([p], data)
  | Receive incoming now => p ← receive_tcp incoming now; mret (option_list p, [])
  | Tick now => ps ← tcp_tick now; mret (ps, [])
  end.
(** The ranges of the machine integers in a call. *)
Definition tcp_typed (o : tcp_operation) : Prop :=
  match o with
  | Listen port => u16 port
  | Connect s _ => socket_ok s
  | Send _ payload _ => bytes_ok payload
  | Receive incoming _ => u32 (Ipv4.source incoming) ∧ u32 (Ipv4.destination incoming) ∧ bytes_ok (Ipv4.payload incoming)
  | _ => True
  end.

(** ** Specification *)

(** A well-formed connection between the calls of a host. *)
Definition good (c : TcpConnection) : Prop := connection_ok c ∧ (after_fin (state c) = true → peer_closed c = true).
(** The table is bounded and its connections are well formed. *)
Record tcp_ok (d : Device) : Prop := {
  ok_count : connection_count d ≤ MAX_CONNECTIONS;
  ok_listener_count : Z.of_nat (size (listeners (tcp d))) ≤ 1024;
  ok_listeners : ∀ port, port ∈ listeners (tcp d) → 1 ≤ port ≤ 65535;
  ok_sequence : u32 (next_sequence (tcp d));
  ok_connections : ∀ s c, view d s = Some c → socket_ok s ∧ good c
}.
(** No counter of retransmissions has reached its end. *)
Definition counting (d : Device) : Prop := ∀ s c, view d s = Some c → retransmissions c < U64_MAX.

(** The call of a host that is this call on the connection of socket [s]. *)
Definition requested (d : Device) (o : tcp_operation) (s : TcpSocket) (x : call) : Prop :=
  match o, x with
  | Send s' payload now, Write payload' now' => s' = s ∧ payload' = payload ∧ now' = now ∧ 0 < len payload ≤ MAX_PAYLOAD
  | CloseStream s' now, Close now' => s' = s ∧ now' = now
  | ReadStream s', Read => s' = s
  | Receive incoming now, Deliver seg now' => incoming_segment d incoming = Ok (Some seg) ∧ socket_of incoming seg = s ∧ now' = now
  | Tick now, Timer now' => now' = now
  | _, _ => False
  end.
(** The packets carry these segments of the socket. *)
Definition carried (s : TcpSocket) (packets : list Ipv4Packet) (segments : list TcpSegment) : Prop :=
  ∀ seg, seg ∈ segments → ∃ p, packet s seg = Ok p ∧ p ∈ packets.
(** How one socket may change in a call. *)
Inductive follows (d : Device) (o : tcp_operation) (s : TcpSocket) (packets : list Ipv4Packet) (data : bytes) :
  option TcpConnection → option TcpConnection → Prop :=
| follows_same c : c = None ∨ (∀ x, ¬ requested d o s x) → follows d o s packets data c c
| follows_timeout c timeout : o = SetIdleTimeout s timeout → follows d o s packets data (Some c) (Some (c <| idle_timeout_us := timeout |>))
| follows_call c c' x out w r :
    requested d o s x → run_call c s x = Ok (c', out, w, r) → carried s packets out → data = r →
    (∀ now, o = Tick now → retained c now = true) →
    follows d o s packets data (Some c) (Some c')
| follows_connect c now isn syn :
    o = Connect s now → open_active isn s now = Ok (c, syn) → carried s packets [syn] → follows d o s packets data None (Some c)
| follows_accept c incoming seg now isn reply :
    o = Receive incoming now → incoming_segment d incoming = Ok (Some seg) → socket_of incoming seg = s → flags seg = SYN →
    local_port s ∈ listeners (tcp d) → @open_passive TcpError isn s seg now = Ok (c, reply) → carried s packets [reply] →
    follows d o s packets data None (Some c)
| follows_removed c : o = Abort s ∨ (∃ now, o = Tick now ∧ retained c now = false) → follows d o s packets data (Some c) None.

(** ** Helper lemmas: packets and calls *)

Lemma outgoing_sendable g : outgoing_ok g → sendable g.
Proof.
  intros (_ & Ho & Hl). unfold sendable, MAX_PAYLOAD in *. rewrite Ho. split_and!; try done. change (len (@nil Z)) with 0. lia.
Qed.
Lemma packet_built s g : socket_ok s → outgoing_ok g → ∃ p, packet s g = Ok p ∧ packet_ok p
  ∧ Ipv4.source p = local_address s ∧ Ipv4.destination p = remote_address s ∧ Ipv4.protocol p = Ipv4.Tcp
  ∧ segment_decode (local_address s) (remote_address s) (Ipv4.payload p) = Ok g.
Proof.
  intros (?&?&?&?) Hg. destruct (segment_encode_eq (local_address s) (remote_address s) g) as (c & He & Hz); [apply Hg|by apply outgoing_sendable|].
  unfold packet. rewrite He. cbn [map_err]. rewrite bind_Ok. eexists. split; [done|]. cbn. split_and!; try done.
  - unfold packet_ok. cbn. split_and!; try done; try lia. apply segment_bytes; [apply Hg|by apply outgoing_sendable].
  - apply segment_decode_eq; [apply Hg|by apply outgoing_sendable|done].
Qed.

Definition call_typed (x : call) : Prop :=
  match x with
  | Write payload _ => bytes_ok payload ∧ len payload ≤ MAX_PAYLOAD
  | Deliver seg _ => incoming_ok seg
  | _ => True
  end.
Lemma call_spec c s x :
  socket_ok s → good c → call_typed x → ((∃ now, x = Timer now) → retransmissions c < U64_MAX) →
  match run_call c s x with
  | Ok (c', out, _, _) => good c' ∧ Forall outgoing_ok out
  | Err _ => True
  | Panic => False
  end.
Proof.
  intros Hs [Hc Haf] Hx Hn. destruct x as [p now|now| |g now|now]; cbn [run_call] in *.
  - destruct (connection_write c s p now) as [[c' g]|e|] eqn:E; [|done|].
    + destruct (connection_write_ok _ _ _ _ _ _ Hc Hs (proj1 Hx) (proj2 Hx) E) as (Hw & -> & Hc' & Hst & _ & _ & _ & Hp & _).
      split; [split; [done|by rewrite Hst, Hp]|]. apply Forall_singleton, built_ok; try done; apply Hx.
    + unfold connection_write in E. destruct (negb _); [done|]. destruct (_ || _); [done|].
      destruct (@send_ok TcpError c s (flags_bitor ACK PSH) p now) as (? & He & _); try done; [apply Hx..|by rewrite He in E].
  - destruct (connection_close c s now) as [[c' g]|e|] eqn:E; [|done|].
    + destruct (connection_close_ok _ _ _ _ _ Hc Hs E) as (Hw & -> & Hc' & Hst & _ & _ & _ & Hp & _).
      split; [split; [done|]|by apply Forall_singleton, built_ok; try done; constructor].
      rewrite Hst, Hp. case_bool_decide as Hest; [done|]. intros _. apply Haf. unfold can_write in Hw. by destruct (state c).
    + unfold connection_close in E. case_bool_decide; [done|]. destruct (state c); try done; cbn in E;
        match type of E with context [send ?c0 _ _ _ _] =>
          destruct (@send_ok TcpError c0 s (flags_bitor ACK FIN) [] now) as (? & He & _); try done; [constructor|by rewrite He in E]
        end.
  - destruct (connection_read c s) as [[[c' data] g]|e|] eqn:E; [|done|].
    + destruct (connection_read_ok _ _ _ _ _ Hc E) as (-> & _ & -> & Hc'). split; [by split|]. apply Forall_singleton, built_ok; try done. constructor.
    + unfold connection_read in E. by rewrite segment_built in E by (cbn; unfold RECEIVE_LIMIT, len; cbn; lia).
  - destruct (receive_spec (E:=TcpError) c s g now Hc Hx Haf) as ([c' reply] & Hr & Hc' & _ & Hs'). rewrite Hr. cbn in *.
    destruct Hs' as (_ & _ & _ & Haf' & Hreply). split; [by split|]. apply Forall_forall. intros r Hin.
    apply elem_of_option_list in Hin. destruct (Hreply r Hin) as [(o & Ho & ->)| ->].
    + destruct Hc as (_&_&_&_&_&_&Hpend). by apply Hpend.
    + apply built_ok; try done. constructor.
  - destruct (retransmit c now) as [[c' again]|e|] eqn:E; [|done|].
    + destruct (retransmit_ok c now c' again Hc (Hn ltac:(by eexists)) E) as (Hc' & Hst & _ & _ & _ & Hp & _ & Hg).
      split; [split; [done|]|].
      * rewrite Hp. destruct Hst as [->| ->]; done.
      * apply Forall_forall. intros r Hin. apply elem_of_option_list in Hin. destruct (Hg r Hin) as (o & Ho & ->).
        destruct Hc as (_&_&_&_&_&_&Hpend). by apply Hpend.
    + specialize (Hn ltac:(by eexists)). destruct Hc as (_&_&_&_&_&?&Hpend). unfold retransmit in E.
      destruct (outstanding c) as [o|]; [|done]. destruct (Hpend o eq_refl) as [_ Hr].
      destruct (now <? deadline o); [done|]. destruct (5 <=? retries o) eqn:H5; [done|].
      unfold U8_MAX, U64_MAX in *. by rewrite (arith_Ok 255), bind_Ok, arith_Ok, bind_Ok in E by lia.
Qed.

(** ** Helper lemmas: the table *)

Lemma view_set s c d s' : view (set_connection s c d) s' = if bool_decide (s = s') then Some c else view d s'.
Proof. unfold view, set_connection, update_connections. cbn. case_bool_decide as E; [by rewrite E, lookup_insert_eq|by rewrite lookup_insert_ne]. Qed.
Lemma tcp_ok_set s c d :
  tcp_ok d → socket_ok s → good c → is_Some (view d s) ∨ connection_count d < MAX_CONNECTIONS → tcp_ok (set_connection s c d).
Proof.
  intros [Hc Hlc Hl Hq Hv] Hs Hgood Hroom. constructor; try done.
  - unfold connection_count, set_connection, update_connections, view in *. cbn in *. destruct Hroom as [[c0 H0]|Hroom].
    + rewrite map_size_insert_Some by by eexists. done.
    + destruct (connections (tcp d) !! s) eqn:E; [rewrite map_size_insert_Some by (by eexists); lia|]. rewrite map_size_insert_None by done. lia.
  - intros s' c'. rewrite view_set. case_bool_decide as E; [|apply Hv]. intros [= <-]. by subst.
Qed.
Lemma tcp_ok_shrink f d :
  tcp_ok d → (∀ m, f m ⊆ m) → tcp_ok (update_connections f d).
Proof.
  intros [Hc Hlc Hl Hq Hv] Hf. constructor; try done.
  - unfold connection_count, update_connections in *. cbn in *.
    pose proof (map_subseteq_size _ _ (Hf (connections (tcp d)))). lia.
  - intros s c Hs. apply Hv. unfold view, update_connections in *. cbn in *. by eapply lookup_weaken.
Qed.

(** What is claimed of a call. *)
Definition outcome (d : Device) (o : tcp_operation) (r : res TcpError (list Ipv4Packet * bytes) * Device) : Prop :=
  tcp_ok r.2 ∧ match r.1 with
  | Ok (packets, data) => Forall packet_ok packets ∧ ∀ s, follows d o s packets data (view d s) (view r.2 s)
  | Err _ => ∀ s, view r.2 s = view d s
  | Panic => False
  end.
Lemma outcome_err d o e d' : tcp_ok d' → (∀ s, view d' s = view d s) → outcome d o (Err e, d').
Proof. intros H Hv. by split. Qed.
(** Only the timer is for more than one socket. *)
Lemma requested_socket d o s s' x x' : requested d o s x → requested d o s' x' → (∀ now, o ≠ Tick now) → s = s'.
Proof.
  destruct o, x; try done; destruct x'; try done; cbn [requested]; try (by intros (-> & _) (-> & _)); try (by intros -> ->).
  - intros (H1 & <- & _) (H2 & <- & _) _. congruence.
  - intros _ _ H. by destruct (H now).
Qed.
(** A call on one socket that exists. *)
Lemma outcome_call d o s c x c' out w r packets :
  tcp_ok d → view d s = Some c → requested d o s x → run_call c s x = Ok (c', out, w, r) → (∀ now, o ≠ Tick now) →
  good c' → carried s packets out → Forall packet_ok packets →
  outcome d o (Ok (packets, r), set_connection s c' d).
Proof.
  intros Hd Hv Hx Hrun Ho Hg Hcar Hp. pose proof (ok_connections d Hd s c Hv) as [Hs _].
  split; [apply tcp_ok_set; try done; left; by eexists|]. cbn. split; [done|]. intros s'. rewrite view_set.
  case_bool_decide as E; [subst s'; rewrite Hv|].
  - eapply follows_call; try done. intros now ->. by destruct (Ho now).
  - apply follows_same. right. intros x' Hx'. apply E. by eapply requested_socket.
Qed.
Lemma carried_one s g p : packet s g = Ok p → carried s [p] [g].
Proof. intros Hp g' ->%list_elem_of_singleton. exists p. split; [done|by left]. Qed.
Lemma carried_nil s ps : carried s ps [].
Proof. by intros g []%elem_of_nil. Qed.

(** A call of an application that sends one segment. *)
Lemma outcome_one d o s c x c' g w r :
  tcp_ok d → view d s = Some c → requested d o s x → call_typed x → (∀ now, o ≠ Tick now) →
  run_call c s x = Ok (c', [g], w, r) →
  ∃ p, packet s g = Ok p ∧ outcome d o (Ok ([p], r), set_connection s c' d).
Proof.
  intros Hd Hv Hx Ht Hn Hrun. pose proof (ok_connections d Hd s c Hv) as [Hs Hg].
  assert (Ht' : (∃ now, x = Timer now) → retransmissions c < U64_MAX) by (intros [now ->]; destruct o; try done; by destruct (Hn now0)).
  pose proof (call_spec c s x Hs Hg Ht Ht') as H. rewrite Hrun in H. destruct H as [Hg' Hout].
  rewrite Forall_singleton in Hout. destruct (packet_built s g Hs Hout) as (p & Hp & Hpok & _). exists p. split; [done|].
  eapply outcome_call; try done; [by apply carried_one|by apply Forall_singleton].
Qed.

Lemma one_bind {A} (m : tcp_op A) (k : A → tcp_op Ipv4Packet) d : one (m ≫= k) d = (m ≫= (λ a, one (k a))) d.
Proof. unfold one. rewrite !run_bind. by destruct (m d) as [[]]. Qed.
Lemma one_lift s g d p : packet s g = Ok p → one (lift (packet s g)) d = (Ok ([p], []), d).
Proof. intros Hp. unfold one. by rewrite run_lift, Hp. Qed.
(** A call that is on no connection. *)
Ltac unconcerned := apply follows_same; right; intros [] Hx; exact Hx.
(** Errors before anything is written. *)
Ltac refuse := by apply outcome_err.
Lemma outcome_send d s payload now : tcp_ok d → bytes_ok payload → outcome d (Send s payload now) (run_tcp (Send s payload now) d).
Proof.
  intros Hd Hb. cbn [run_tcp]. unfold tcp_send. rewrite one_bind, run_reject. destruct (_ || _) eqn:E; [refuse|].
  rewrite one_bind, run_require. destruct (view d s) as [c|] eqn:Hv; [|refuse]. rewrite one_bind, run_lift.
  pose proof (ok_connections d Hd s c Hv) as [Hs Hg]. apply orb_false_iff in E as [E%bool_decide_eq_false E2].
  assert (Ht : call_typed (Write payload now)) by (split; [done|lia]).
  pose proof (call_spec c s (Write payload now) Hs Hg Ht ltac:(by intros [])) as H. cbn [run_call] in H.
  destruct (connection_write c s payload now) as [[c' g]|e|] eqn:Hw; [|refuse|done].
  destruct (outcome_one d (Send s payload now) s c (Write payload now) c' g payload []) as (p & Hp & Ho); try done.
  - cbn. split_and!; try done; [|lia]. destruct payload; [done|lens].
  - cbn [run_call]. by rewrite Hw.
  - by rewrite one_bind, run_modify, (one_lift _ _ _ p).
Qed.
Lemma outcome_close d s now : tcp_ok d → outcome d (CloseStream s now) (run_tcp (CloseStream s now) d).
Proof.
  intros Hd. cbn [run_tcp]. unfold tcp_close. rewrite one_bind, run_require. destruct (view d s) as [c|] eqn:Hv; [|refuse].
  rewrite one_bind, run_lift. pose proof (ok_connections d Hd s c Hv) as [Hs Hg].
  pose proof (call_spec c s (Close now) Hs Hg I ltac:(by intros [])) as H. cbn [run_call] in H.
  destruct (connection_close c s now) as [[c' g]|e|] eqn:Hw; [|refuse|done].
  destruct (outcome_one d (CloseStream s now) s c (Close now) c' g [] []) as (p & Hp & Ho); try done.
  - cbn [run_call]. by rewrite Hw.
  - by rewrite one_bind, run_modify, (one_lift _ _ _ p).
Qed.
Lemma outcome_read d s : tcp_ok d → outcome d (ReadStream s) (run_tcp (ReadStream s) d).
Proof.
  intros Hd. cbn [run_tcp]. unfold tcp_read. rewrite run_bind, run_require. destruct (view d s) as [c|] eqn:Hv; [|refuse].
  rewrite run_lift. pose proof (ok_connections d Hd s c Hv) as [Hs Hg].
  pose proof (call_spec c s Read Hs Hg I ltac:(by intros [])) as H. cbn [run_call] in H.
  destruct (connection_read c s) as [[[c' data] g]|e|] eqn:Hw; [|refuse|done].
  destruct (outcome_one d (ReadStream s) s c Read c' g [] data) as (p & Hp & Ho); try done.
  - cbn [run_call]. by rewrite Hw.
  - by rewrite run_modify, run_lift, Hp.
Qed.
Lemma open_active_spec s now isn :
  socket_ok s → u32 isn → ∃ c syn, open_active isn s now = Ok (c, syn) ∧ good c ∧ outgoing_ok syn.
Proof.
  intros Hs Hi. unfold open_active.
  match goal with |- context [send ?c0 _ _ _ _] => assert (Hc0 : connection_ok c0) by (ok_fields; by constructor);
    destruct (@send_ok TcpError c0 s SYN [] now Hc0 Hs) as (c & He & Hc & Hst & _); try done; [by constructor|] end.
  exists c. eexists. split; [exact He|]. split; [split; [done|by rewrite Hst]|]. apply built_ok; try done. constructor.
Qed.
Lemma initial_sequence d :
  tcp_ok d → ∃ isn d', tcp_initial_sequence d = (Ok isn, d') ∧ u32 isn ∧ tcp_ok d' ∧ (∀ s, view d' s = view d s)
    ∧ connection_count d' = connection_count d ∧ listeners (tcp d') = listeners (tcp d) ∧ owns_any_ipv4 d' = owns_any_ipv4 d.
Proof. intros [? ? ? ? ?]. eexists _, _. split; [done|]. split; [apply wrapping_u32|]. split_and!; try done. constructor; try done. apply wrapping_u32. Qed.
Lemma outcome_connect d s now : tcp_ok d → socket_ok s → outcome d (Connect s now) (run_tcp (Connect s now) d).
Proof.
  intros Hd Hs. cbn [run_tcp]. unfold tcp_connect. rewrite one_bind, run_reject. destruct (_ || _); [refuse|].
  rewrite one_bind, run_reject. case_bool_decide as Hv; [refuse|]. rewrite one_bind, run_reject.
  destruct (MAX_CONNECTIONS <=? connection_count d) eqn:Hc; [refuse|]. rewrite one_bind, run_bind.
  destruct (initial_sequence d Hd) as (isn & d1 & -> & Hi & Hd1 & Hv1 & Hc1 & _).
  destruct (open_active_spec s now isn Hs Hi) as (c & syn & Ho & Hg & Hout).
  destruct (packet_built s syn Hs Hout) as (p & Hp & Hpok & _).
  rewrite one_bind, run_lift, Ho, one_bind, run_modify, (one_lift _ _ _ p) by done.
  apply eq_None_not_Some in Hv. split; cbn [fst snd].
  - apply tcp_ok_set; try done. right. lia.
  - split; [by apply Forall_singleton|]. intros s'. rewrite view_set, Hv1. case_bool_decide as E; [subst s'; rewrite Hv|unconcerned].
    eapply follows_connect; [done|done|]. by apply carried_one.
Qed.
Lemma outcome_abort d s : tcp_ok d → outcome d (Abort s) (run_tcp (Abort s) d).
Proof.
  intros Hd. cbn [run_tcp]. unfold tcp_abort. rewrite one_bind, run_require. destruct (view d s) as [c|] eqn:Hv; [|refuse].
  pose proof (ok_connections d Hd s c Hv) as [Hs [Hc _]]. rewrite one_bind, run_modify, one_bind, run_lift.
  rewrite segment_built by apply Hc. destruct (packet_built s (built c s (flags_bitor RST ACK) []) Hs) as (p & Hp & Hpok & _);
    [apply built_ok; try done; constructor|]. rewrite (one_lift _ _ _ p) by done. split; cbn [fst snd].
  - apply tcp_ok_shrink; [done|]. intros m. apply delete_subseteq.
  - split; [by apply Forall_singleton|]. intros s'. unfold view, update_connections. cbn. destruct (decide (s' = s)) as [->|Hne].
    + rewrite lookup_delete_eq. unfold view in Hv. rewrite Hv. apply follows_removed. by left.
    + rewrite lookup_delete_ne by done. unconcerned.
Qed.
Lemma outcome_listeners d f o : tcp_ok d → Z.of_nat (size (f (listeners (tcp d)))) ≤ 1024 →
  (∀ p, p ∈ f (listeners (tcp d)) → 1 ≤ p ≤ 65535) → (∀ s x, ¬ requested d o s x) →
  outcome d o (Ok ([], []), d <| tcp ::= λ r, r <| listeners ::= f |> |>).
Proof.
  intros [? ? ? ? ?] Hsize Hrange Ho. split; [by constructor|]. cbn. split; [constructor|]. intros s. apply follows_same. right. apply Ho.
Qed.
Lemma outcome_listen d port : tcp_ok d → u16 port → outcome d (Listen port) (run_tcp (Listen port) d).
Proof.
  intros Hd Hp. cbn [run_tcp]. unfold tcp_listen. rewrite run_bind, run_reject. destruct (port =? 0) eqn:E0; [refuse|].
  rewrite run_reject. destruct (_ && _) eqn:E; [refuse|]. apply outcome_listeners; [done| | |intros ? [] Hx; exact Hx].
  - pose proof (ok_listener_count d Hd). apply andb_false_iff in E as [E|E%negb_false_iff%bool_decide_eq_true].
    + rewrite size_union_alt. pose proof (subseteq_size ({[port]} ∖ listeners (tcp d)) {[port]} ltac:(set_solver)) as H1.
      rewrite size_union_alt || idtac. pose proof (size_union_alt {[port]} (listeners (tcp d))) as H2.
      pose proof (size_singleton (C:=gset Z) port) as H3.
      pose proof (subseteq_size (listeners (tcp d) ∖ {[port]}) (listeners (tcp d)) ltac:(set_solver)). lia.
    + replace ({[port]} ∪ listeners (tcp d)) with (listeners (tcp d)) by set_solver. done.
  - intros p [->%elem_of_singleton|Hin]%elem_of_union; [lia|]. by apply (ok_listeners d Hd).
Qed.
Lemma outcome_unlisten d port : tcp_ok d → outcome d (Unlisten port) (run_tcp (Unlisten port) d).
Proof.
  intros Hd. apply outcome_listeners; [done| | |intros ? [] Hx; exact Hx].
  - pose proof (ok_listener_count d Hd). pose proof (subseteq_size (listeners (tcp d) ∖ {[port]}) (listeners (tcp d)) ltac:(set_solver)). lia.
  - intros p Hin. apply (ok_listeners d Hd). set_solver.
Qed.
Lemma outcome_timeout d s timeout : tcp_ok d → outcome d (SetIdleTimeout s timeout) (run_tcp (SetIdleTimeout s timeout) d).
Proof.
  intros Hd. cbn [run_tcp]. unfold tcp_set_idle_timeout. rewrite run_bind, run_require. destruct (view d s) as [c|] eqn:Hv; [|refuse].
  pose proof (ok_connections d Hd s c Hv) as [Hs Hg]. change (outcome d (SetIdleTimeout s timeout) (Ok ([], []), set_connection s (c <| idle_timeout_us := timeout |>) d)).
  assert (Hg' : good (c <| idle_timeout_us := timeout |>)) by exact Hg.
  split; cbn [fst snd].
  - apply tcp_ok_set; [done..|]. left. by eexists.
  - split; [constructor|]. intros s'.
    cbn [snd].    rewrite view_set. case_bool_decide as E; [subst s'; rewrite Hv; by apply follows_timeout|unconcerned].
Qed.

(** ** Helper lemmas: packets that arrive *)

Lemma incoming_segment_ok d incoming :
  u32 (Ipv4.source incoming) → u32 (Ipv4.destination incoming) → bytes_ok (Ipv4.payload incoming) →
  incoming_segment d incoming = Ok None
  ∨ ∃ seg, incoming_segment d incoming = Ok (Some seg) ∧ incoming_ok seg ∧ socket_ok (socket_of incoming seg)
      ∧ owns_any_ipv4 d (Ipv4.destination incoming) = true
      ∧ segment_decode (Ipv4.source incoming) (Ipv4.destination incoming) (Ipv4.payload incoming) = Ok seg.
Proof.
  intros Hs Hd Hb. unfold incoming_segment. destruct (_ || _) eqn:E; [by left|]. apply orb_false_iff in E as [_ E%negb_false_iff].
  destruct (segment_decode _ _ _) as [seg|e|] eqn:Hdec; [|by left|].
  - right. exists seg. destruct (segment_decode_ok _ _ _ _ Hb Hdec) as (Hok & (_ & _ & _ & Hl) & _).
    split; [done|]. assert (0 ≤ len (options seg)) by lens. split; [split; [done|lia]|]. split; [|done].
    destruct Hok as (?&?&_). unfold socket_ok, socket_of. cbn. done.
  - destruct (segment_decode_total (Ipv4.source incoming) (Ipv4.destination incoming) _ Hb) as [H _]. by rewrite Hdec in H.
Qed.
Lemma open_passive_spec isn s seg now :
  socket_ok s → u32 isn → incoming_ok seg →
  ∃ c reply, @open_passive TcpError isn s seg now = Ok (c, reply) ∧ good c ∧ outgoing_ok reply.
Proof.
  intros Hs Hi Hg. assert (∃ r, @open_passive TcpError isn s seg now = Ok r) as [[c reply] Ho].
  { destruct Hg as [(?&?&?&?&?&?&?&?) _]. unfold open_passive. eexists. rewrite send_eq by (cbn; unfold RECEIVE_LIMIT, len; cbn; lia). reflexivity. }
  destruct (open_passive_ok isn s seg now c reply Hi Hs Hg Ho) as (c0 & Hc0 & _ & -> & Hc & Hst & _).
  exists c. eexists. split; [done|]. split; [split; [done|by rewrite Hst]|]. apply built_ok; try done. constructor.
Qed.
Lemma refusal_spec s seg now : socket_ok s → incoming_ok seg → ∃ g, refusal s seg now = Ok g ∧ outgoing_ok g
  ∧ source_port g = local_port s ∧ destination_port g = remote_port s
  ∧ (flags_contains (flags seg) ACK = false → flags g = flags_bitor RST ACK ∧ acknowledgment g = wrapping_add32 (sequence seg) (seq_len seg)).
Proof.
  intros Hs [Hg Hl]. unfold refusal. rewrite segment_built by done.
  assert (Hc0 : connection_ok (connection_new 0 now)) by (ok_fields; by constructor).
  destruct (built_ok (connection_new 0 now) s RST [] Hc0 Hs ltac:(done) ltac:(constructor) ltac:(done)) as ((B1&B2&B3&B4&B5&B6&B7&B8) & Bo & Bl).
  destruct Hg as (?&?&?&?&?&?&?&?). rewrite bind_Ok. destruct (flags_contains (flags seg) ACK) eqn:E.
  - eexists. split; [done|]. split; [|done]. split; [|done]. unfold segment_ok. cbn in *. split_and!; try done; lia.
  - rewrite sequence_len_eq by done. rewrite bind_Ok. eexists. split; [done|]. split; [|done]. split; [|done].
    unfold segment_ok. cbn in *. split_and!; try done; try apply wrapping_u32; lia.
Qed.
Definition received_ok (m : tcp_op (option Ipv4Packet)) : tcp_op (list Ipv4Packet * bytes) := p ← m; mret (option_list p, []).
Lemma received_bind {A} (m : tcp_op A) (k : A → tcp_op (option Ipv4Packet)) d :
  received_ok (m ≫= k) d = (m ≫= (λ a, received_ok (k a))) d.
Proof. unfold received_ok. rewrite !run_bind. by destruct (m d) as [[]]. Qed.
Lemma received_settled s g d p : packet s g = Ok p → received_ok (lift (settle (packet s g))) d = (Ok ([p], []), d).
Proof. intros Hp. unfold received_ok. by rewrite run_lift, Hp. Qed.
Lemma outcome_nothing d o packets :
  tcp_ok d → Forall packet_ok packets → (∀ s x, requested d o s x → view d s = None) → outcome d o (Ok (packets, []), d).
Proof.
  intros Hd Hp Ho. split; [done|]. split; [done|]. intros s. apply follows_same. cbn [snd].
  destruct (view d s) eqn:Hs; [right|by left]. intros x Hx%Ho. congruence.
Qed.
Lemma outcome_receive d incoming now :
  tcp_ok d → tcp_typed (Receive incoming now) → outcome d (Receive incoming now) (run_tcp (Receive incoming now) d).
Proof.
  intros Hd (Hsrc & Hdst & Hb). cbn [run_tcp]. change (outcome d (Receive incoming now) (received_ok (receive_tcp incoming now) d)).
  unfold receive_tcp. rewrite received_bind, run_try_gets.
  destruct (incoming_segment_ok d incoming Hsrc Hdst Hb) as [Hno|(seg & Hseg & Hin & Hs & _)]; [rewrite Hno; apply outcome_nothing; [done..|]; intros s [] Hx; try done; destruct Hx; congruence|].
  rewrite Hseg. unfold receive_segment. set (s := socket_of incoming seg) in *. rewrite received_bind, run_gets.
  destruct (view d s) as [c|] eqn:Hv.
  - pose proof (ok_connections d Hd s c Hv) as [_ Hg]. rewrite received_bind, run_lift.
    pose proof (call_spec c s (Deliver seg now) Hs Hg Hin ltac:(by intros [])) as H. cbn [run_call] in H.
    destruct (receive c s seg now) as [[c' reply]|e|] eqn:Hr; [|refuse|done].
    destruct H as [Hg' Hout]. rewrite received_bind, run_modify.
    assert (Hreq : requested d (Receive incoming now) s (Deliver seg now)) by done.
    assert (Hrun : run_call c s (Deliver seg now) = Ok (c', option_list reply, [], [])) by (cbn [run_call]; by rewrite Hr).
    destruct reply as [g|]; cbn [option_list option_rect] in *.
    + rewrite Forall_singleton in Hout. destruct (packet_built s g Hs Hout) as (p & Hp & Hpok & _).
      rewrite (received_settled _ _ _ p) by done. eapply outcome_call; try done; [by apply carried_one|by apply Forall_singleton].
    + eapply outcome_call; try done; apply carried_nil.
  - assert (Hnone : ∀ s' x, requested d (Receive incoming now) s' x → view d s' = None).
    { intros s' [] Hx; try done. destruct Hx as (Hx & <- & _). rewrite Hseg in Hx. by injection Hx as <-. }
    destruct (flags_contains (flags seg) RST); [by apply outcome_nothing|]. rewrite received_bind, run_gets.
    destruct (accepts d s seg) eqn:Hacc.
    + unfold accepts in Hacc. rewrite !andb_true_iff, !bool_decide_eq_true in Hacc. destruct Hacc as [[Hsyn Hport] Hroom].
      destruct (initial_sequence d Hd) as (isn & d1 & Hseq & Hi & Hd1 & Hv1 & Hc1 & _). rewrite received_bind, run_bind, Hseq.
      destruct (open_passive_spec isn s seg now Hs Hi Hin) as (c & reply & Ho & Hg & Hout).
      destruct (packet_built s reply Hs Hout) as (p & Hp & Hpok & _).
      rewrite received_bind, run_lift, Ho, received_bind, run_modify, (received_settled _ _ _ p) by done. split; cbn [fst snd].
      * apply tcp_ok_set; [done..|]. right. lia.
      * split; [by apply Forall_singleton|]. intros s'. rewrite view_set, Hv1. case_bool_decide as E; [subst s'; rewrite Hv|].
        2:{ apply follows_same. destruct (view d s') eqn:Hs'; [right|by left]. intros x Hx%Hnone. congruence. }
        eapply follows_accept; try done. by apply carried_one.
    + destruct (refusal_spec s seg now Hs Hin) as (g & Hg & Hout & _). destruct (packet_built s g Hs Hout) as (p & Hp & Hpok & _).
      rewrite received_bind, run_lift, Hg, (received_settled _ _ _ p) by done. apply outcome_nothing; [done| |done]. by apply Forall_singleton.
Qed.

(** ** Helper lemmas: the timer *)

Lemma tick_connection_spec now s c :
  socket_ok s → good c → retransmissions c < U64_MAX →
  ∃ c' out p, run_call c s (Timer now) = Ok (c', out, [], []) ∧ tick_connection now (s, c) = Ok ((s, c'), p)
    ∧ good c' ∧ Forall packet_ok (option_list p) ∧ carried s (option_list p) out.
Proof.
  intros Hs Hg Hn. pose proof (call_spec c s (Timer now) Hs Hg I ltac:(done)) as H. unfold tick_connection. cbn [run_call fst snd] in *.
  destruct (retransmit c now) as [[c' again]|e|] eqn:E; [| |done].
  - destruct H as [Hg' Hout]. rewrite !bind_Ok. destruct again as [g|]; cbn [option_list option_rect] in *.
    + rewrite Forall_singleton in Hout. destruct (packet_built s g Hs Hout) as (p & Hp & Hpok & _). rewrite Hp. cbn [settle]. rewrite bind_Ok.
      exists c', [g], (Some p). split_and!; try done; [|by apply carried_one]. by apply Forall_singleton.
    + exists c', [], None. split_and!; try done. apply carried_nil.
  - exfalso. unfold retransmit in E. destruct (outstanding c) as [o|]; [|done]. destruct (now <? deadline o); [done|].
    destruct (5 <=? retries o); [done|]. apply bind_Err_inv in E as [E|(? & _ & E)]; [unfold arith in E; by repeat case_match|].
    apply bind_Err_inv in E as [E|(? & _ & E)]; [unfold arith in E; by repeat case_match|done].
Qed.
Lemma ticked_all now l :
  (∀ s c, (s, c) ∈ l → socket_ok s ∧ good c ∧ retransmissions c < U64_MAX) →
  ∃ out, try_map (tick_connection now) l = Ok out ∧ out.*1.*1 = l.*1 ∧ Forall packet_ok (omap (λ p, p) out.*2)
    ∧ (∀ s c', (s, c') ∈ out.*1 → good c')
    ∧ ∀ s c, (s, c) ∈ l → ∃ c' segs p, ((s, c'), p) ∈ out ∧ run_call c s (Timer now) = Ok (c', segs, [], [])
        ∧ carried s (option_list p) segs.
Proof.
  induction l as [|[s c] l IH]; intros Hl.
  { exists []. split_and!; try done; by intros ? ? ?%elem_of_nil. }
  destruct IH as (out & Hout & Hkeys & Hps & Hgood & Hall); [intros; apply Hl; by right|].
  destruct (Hl s c ltac:(by left)) as (Hs & Hg & Hn). destruct (tick_connection_spec now s c Hs Hg Hn) as (c' & segs & p & Hrun & Ht & Hg' & Hp & Hc).
  exists (((s, c'), p) :: out). cbn [try_map]. rewrite Ht, bind_Ok, Hout, bind_Ok. split; [done|]. cbn [fmap list_fmap fst snd]. split_and!.
  - by rewrite Hkeys.
  - cbn [omap list_omap]. destruct p; [|done]. cbn in Hp. rewrite Forall_singleton in Hp. by constructor.
  - intros s' x [[= -> ->]|Hin]%elem_of_cons; [done|]. by eapply Hgood.
  - intros s' x [[= -> ->]|Hin]%elem_of_cons.
    + exists c', segs, p. split_and!; try done. by left.
    + destruct (Hall s' x Hin) as (c'' & segs' & p' & H1 & H2 & H3). exists c'', segs', p'. split_and!; try done. by right.
Qed.
Lemma tick_result d now :
  tcp_ok d → counting d →
  ∃ packets d', run_tcp (Tick now) d = (Ok (packets, []), d') ∧ tcp_ok d' ∧ Forall packet_ok packets
    ∧ ∀ s, match view d s with
           | Some c =>
               if retained c now
               then ∃ c' segs, view d' s = Some c' ∧ run_call c s (Timer now) = Ok (c', segs, [], []) ∧ carried s packets segs
               else view d' s = None
           | None => view d' s = None
           end.
Proof.
  intros Hd Hcount. set (d1 := update_connections (filter (λ e, retained e.2 now = true)) d).
  assert (Hd1 : tcp_ok d1) by (apply tcp_ok_shrink; [done|intros m; apply map_filter_subseteq]).
  assert (Hv1 : ∀ s c, view d1 s = Some c ↔ view d s = Some c ∧ retained c now = true).
  { intros s c. unfold view, d1, update_connections. cbn. by rewrite map_lookup_filter_Some. }
  destruct (ticked_all now (tcp_connections d1)) as (out & Hout & Hkeys & Hps & Hgood & Hall).
  { intros s c Hin%elem_of_entries. destruct (ok_connections d1 Hd1 s c Hin) as [? ?]. apply Hv1 in Hin as [Hin _]. by specialize (Hcount s c Hin). }
  exists (omap (λ p, p) out.*2), (update_connections (λ _, list_to_map out.*1) d1).
  assert (Hnd : NoDup out.*1.*1) by (rewrite Hkeys; apply entries_NoDup).
  assert (Hv : ∀ s c, view (update_connections (λ _, list_to_map out.*1) d1) s = Some c ↔ (s, c) ∈ out.*1).
  { intros s c. unfold view, update_connections. cbn. symmetry. by apply elem_of_list_to_map. }
  assert (Hdom : ∀ s, view d1 s = None → view (update_connections (λ _, list_to_map out.*1) d1) s = None).
  { intros s Hs. destruct (view (update_connections _ _) s) as [c|] eqn:E; [|done]. apply Hv in E.
    assert (Hin : s ∈ (tcp_connections d1).*1) by (rewrite <-Hkeys; apply list_elem_of_fmap; by exists (s, c)).
    apply list_elem_of_fmap in Hin as ([s' c'] & -> & Hin%elem_of_entries). change (view d1 s' = None) in Hs. unfold view in Hs. congruence. }
  split; [|split; [|split; [done|]]].
  - cbn [run_tcp]. unfold tcp_tick. rewrite run_bind, run_modify, run_try_gets. fold d1. by rewrite Hout.
  - destruct Hd1 as [K1 K2 K3 K4 K5]. constructor; try done.
    + unfold connection_count, update_connections in *. cbn. unfold tcp_connections in Hkeys.
      rewrite map_size_list_to_map by done. rewrite <-(length_fmap fst), Hkeys, length_fmap, length_entries. exact K1.
    + intros s c Hs. pose proof Hs as Hin. apply Hv in Hin. split; [|by eapply Hgood].
      destruct (view d1 s) as [c0|] eqn:E; [by apply (K5 s c0)|]. by rewrite Hdom in Hs.
  - intros s. destruct (view d s) as [c|] eqn:Hs.
    2:{ apply Hdom. destruct (view d1 s) as [c0|] eqn:E; [|done]. apply Hv1 in E as [E _]. congruence. }
    destruct (retained c now) eqn:Hr.
    2:{ apply Hdom. destruct (view d1 s) as [c0|] eqn:E; [|done]. apply Hv1 in E as [E E2]. congruence. }
    assert (Hin : (s, c) ∈ tcp_connections d1) by (apply elem_of_entries, Hv1; done).
    destruct (Hall s c Hin) as (c' & segs & p & Helem & Hcall & Hcar). exists c', segs. split; [|split; [done|]].
    { apply Hv, list_elem_of_fmap. by exists ((s, c'), p). }
    intros g Hg. destruct (Hcar g Hg) as (q & Hq & Hqin). exists q. split; [done|]. apply elem_of_option_list in Hqin.
    apply list_elem_of_omap. exists p. split; [|done]. apply list_elem_of_fmap. by exists ((s, c'), p).
Qed.
Lemma outcome_tick d now : tcp_ok d → counting d → outcome d (Tick now) (run_tcp (Tick now) d).
Proof.
  intros Hd Hcount. destruct (tick_result d now Hd Hcount) as (packets & d' & -> & Hd' & Hp & Hv). split; [done|]. split; [done|].
  intros s. specialize (Hv s). cbn [snd]. destruct (view d s) as [c|]; [|rewrite Hv; apply follows_same; by left].
  destruct (retained c now) eqn:Hr.
  - destruct Hv as (c' & segs & -> & Hcall & Hcar). eapply (follows_call _ _ _ _ _ c c' (Timer now)); try done. by intros ? [= ->].
  - rewrite Hv. apply follows_removed. right. by exists now.
Qed.
Lemma run_tcp_outcome d o : tcp_ok d → counting d → tcp_typed o → outcome d o (run_tcp o d).
Proof.
  intros Hd Hc Ht. destruct o; [by apply outcome_listen|by apply outcome_unlisten|by apply outcome_timeout|by apply outcome_abort
    |by apply outcome_connect|by apply outcome_send|by apply outcome_close|by apply outcome_read|by apply outcome_receive|by apply outcome_tick].
Qed.

(** ** Helper lemmas: two hosts *)

(** The socket at the other end. *)
Definition mirror (s : TcpSocket) : TcpSocket :=
  {| local_address := remote_address s; local_port := remote_port s; remote_address := local_address s; remote_port := local_port s |}.
Lemma mirror_ok s : socket_ok s → socket_ok (mirror s).
Proof. by intros (?&?&?&?). Qed.
(** A packet of one end is, at the other, its segment on the mirrored socket. *)
Lemma delivered s g p d now :
  socket_ok s → outgoing_ok g → packet s g = Ok p → source_port g = local_port s → destination_port g = remote_port s →
  owns_any_ipv4 d (remote_address s) = true → receive_tcp p now d = receive_segment (mirror s) g now d.
Proof.
  intros Hs Hg Hp Hsrc Hdst Hown. destruct (packet_built s g Hs Hg) as (p' & Hp' & _ & H1 & H2 & H3 & Hdec).
  assert (p' = p) as -> by congruence. unfold receive_tcp. rewrite run_try_gets. unfold incoming_segment.
  rewrite H1, H2, H3, Hown, Hdec. cbn [negb orb settle]. f_equal. unfold socket_of, mirror. by rewrite H1, H2, Hsrc, Hdst.
Qed.
Lemma connect_inv s now d d' p :
  tcp_ok d → socket_ok s → run_tcp (Connect s now) d = (Ok ([p], []), d') →
  ∃ isn c g, open_active isn s now = Ok (c, g) ∧ packet s g = Ok p ∧ outgoing_ok g ∧ view d' s = Some c
    ∧ owns_any_ipv4 d' (local_address s) = true.
Proof.
  intros Hd Hs. cbn [run_tcp]. unfold tcp_connect. rewrite one_bind, run_reject. destruct (_ || _) eqn:E; [done|].
  rewrite one_bind, run_reject. case_bool_decide; [done|]. rewrite one_bind, run_reject. destruct (_ <=? _); [done|].
  rewrite one_bind, run_bind. destruct (initial_sequence d Hd) as (isn & d1 & -> & Hi & _ & _ & _ & _ & Hown).
  destruct (open_active_spec s now isn Hs Hi) as (c & g & Ho & _ & Hg). rewrite one_bind, run_lift, Ho, one_bind, run_modify.
  destruct (packet_built s g Hs Hg) as (p' & Hp & _). rewrite (one_lift _ _ _ p') by done. rewrite pair_equal_spec.
  intros [Hpp <-]. apply Ok_inj, pair_equal_spec in Hpp as [Hpp _]. assert (p' = p) as -> by congruence.
  exists isn, c, g. split_and!; try done; [by rewrite view_set, bool_decide_true|].
  rewrite !orb_false_iff, negb_false_iff in E. change (owns_any_ipv4 d1 (local_address s) = true). rewrite Hown. apply E.
Qed.
Lemma run_receive p now d : run_tcp (Receive p now) d = received_ok (receive_tcp p now) d.
Proof. done. Qed.

(** ** Theorems *)

(** C33: A call on a host either is refused and changes no connection, or moves
    every socket as the connection state machine does: unchanged, by a call of
    that machine whose segments are among the packets the host sends and whose
    bytes are what it returns, opened, accepted or removed. No call panics, the
    table stays bounded and well formed, and every packet sent is well formed. *)
Theorem host_simulates d o :
  tcp_ok d → counting d → tcp_typed o →
  tcp_ok (run_tcp o d).2 ∧ match (run_tcp o d).1 with
  | Ok (packets, data) => Forall packet_ok packets ∧ ∀ s, follows d o s packets data (view d s) (view (run_tcp o d).2 s)
  | Err _ => ∀ s, view (run_tcp o d).2 s = view d s
  | Panic => False
  end.
Proof. apply run_tcp_outcome. Qed.

(** C34: Connecting to a port where nobody listens ends: the SYN is answered with
    a reset, the other host keeps no state, the reset closes the connection, and
    the next tick of the timer removes it. *)
Theorem connection_refused a b s now n1 n2 n3 a1 syn :
  tcp_ok a → tcp_ok b → socket_ok s → run_tcp (Connect s now) a = (Ok ([syn], []), a1) →
  owns_any_ipv4 b (remote_address s) = true → view b (mirror s) = None → remote_port s ∉ listeners (tcp b) →
  ∃ rst a2, run_tcp (Receive syn n1) b = (Ok ([rst], []), b) ∧ run_tcp (Receive rst n2) a1 = (Ok ([], []), a2)
    ∧ (state <$> view a2 s) = Some Closed ∧ (counting a2 → view (run_tcp (Tick n3) a2).2 s = None).
Proof.
  intros Ha Hb Hs Hconn Hown Hnone Hport. pose proof (mirror_ok s Hs) as Hm.
  destruct (connect_inv s now a a1 syn Ha Hs Hconn) as (isn & c & g & Ho & Hp & Hg & Hv & Howna).
  unfold open_active in Ho. rewrite send_eq in Ho by done. apply Ok_inj, pair_equal_spec in Ho as [Hc Hseg].
  assert (Hn : send_next c = wrapping_add32 (sequence g) (seq_len g) ∧ state c = SynSent) by (rewrite <-Hc, <-Hseg; done).
  assert (Hfl : flags g = SYN ∧ source_port g = local_port s ∧ destination_port g = remote_port s) by (rewrite <-Hseg; done).
  destruct Hn as [Hn Hst], Hfl as (Hfl & Hsrc & Hdst).
  destruct (refusal_spec (mirror s) g n1 Hm (outgoing_incoming g Hg)) as (r & Hr & Hrok & Hrsrc & Hrdst & Hrack).
  destruct (packet_built (mirror s) r Hm Hrok) as (rst & Hrst & Hrstok & _).
  destruct (Hrack ltac:(by rewrite Hfl)) as [Hrfl Hrn].
  exists rst, (set_connection s (c <| state := Closed |> <| outstanding := None |>) a1). split; [|split; [|split]].
  - rewrite run_receive. unfold received_ok. rewrite run_bind, (delivered s g syn b n1) by done. unfold receive_segment.
    rewrite run_gets, Hnone, Hfl. change (flags_contains SYN RST) with false. cbn iota. rewrite run_gets.
    unfold accepts. rewrite (bool_decide_false (_ ∈ _)), andb_false_r by done. cbn [andb]. rewrite run_lift, Hr. unfold lift. by rewrite Hrst.
  - rewrite run_receive. unfold received_ok. rewrite run_bind, (delivered (mirror s) r rst a1 n2) by done. unfold receive_segment.
    assert (mirror (mirror s) = s) as -> by (by destruct s). rewrite run_gets, Hv, run_lift. unfold receive.
    rewrite Hst, Hrfl. rewrite bool_decide_false by done. change (flags_contains (flags_bitor RST ACK) RST) with true. cbn iota.
    unfold receive_reset. rewrite Hst, bool_decide_true, Hrfl, Hrn, Hn by done. rewrite Z.eqb_refl. done.
  - rewrite view_set, bool_decide_true by done. done.
  - intros Hcount. destruct (tick_result (set_connection s (c <| state := Closed |> <| outstanding := None |>) a1) n3) as (ps & d' & Htick & _ & _ & Hgone); [|done|].
    + pose proof (outcome_connect a s now Ha Hs) as [Ha1 _]. rewrite Hconn in Ha1.
      pose proof (ok_connections _ Ha1 s c Hv) as [_ [Hcok _]]. apply tcp_ok_set; try done; [|left; by eexists]. split; [|done].
      destruct Hcok as (?&?&?&?&?&?&?). ok_fields.
    + rewrite Htick. specialize (Hgone s). rewrite view_set, bool_decide_true in Hgone by done. exact Hgone.
Qed.

(** C14: connecting to a port with a listener works: delivering the three packets
    of the handshake leaves one connection on each host, established and at
    rest, known to each by the other's address. *)
Theorem hosts_connect a b s now n1 n2 n3 a1 syn :
  tcp_ok a → tcp_ok b → socket_ok s → run_tcp (Connect s now) a = (Ok ([syn], []), a1) →
  owns_any_ipv4 b (remote_address s) = true → view b (mirror s) = None → remote_port s ∈ listeners (tcp b) →
  connection_count b < MAX_CONNECTIONS →
  ∃ synack b1 ack a2 b2, run_tcp (Receive syn n1) b = (Ok ([synack], []), b1)
    ∧ run_tcp (Receive synack n2) a1 = (Ok ([ack], []), a2) ∧ run_tcp (Receive ack n3) b1 = (Ok ([], []), b2)
    ∧ ∃ c e, view a2 s = Some c ∧ view b2 (mirror s) = Some e ∧ state c = Established ∧ state e = Established
        ∧ at_rest c e ∧ passive c = false ∧ passive e = true.
Proof.
  intros Ha Hb Hs Hconn Hown Hnone Hport Hroom. pose proof (mirror_ok s Hs) as Hm.
  destruct (connect_inv s now a a1 syn Ha Hs Hconn) as (isn & c & g & Ho & Hp & Hg & Hv & Howna).
  destruct (initial_sequence b Hb) as (ib & b0 & Hib & Hi & Hb0 & Hvb & _ & _ & Hownb).
  destruct (tcp_handshake s (mirror s) isn ib now n1 n2 n3)
    as (c1 & sg & d1 & sa & c2 & ak & d2 & H1 & Hfl & H2 & H3 & H4 & H5 & H6 & H7 & _ & _ & _ & _ & H8 & H9 & [Hsa1 Hsa2] & Hak1 & Hak2).
  assert (c = c1 ∧ g = sg) as [<- <-] by (rewrite Ho in H1; by apply Ok_inj, pair_equal_spec in H1).
  pose proof (outcome_connect a s now Ha Hs) as [Ha1 _]. rewrite Hconn in Ha1. cbn [snd] in Ha1.
  pose proof (ok_connections _ Ha1 s c Hv) as [_ Hgood].
  destruct (open_passive_spec ib (mirror s) g n1 Hm Hi (outgoing_incoming g Hg)) as (d1' & sa' & H2' & Hgood1 & Hsa).
  assert (d1' = d1 ∧ sa' = sa) as [-> ->] by (rewrite H2 in H2'; by apply Ok_inj, pair_equal_spec in H2' as [-> ->]).
  pose proof (call_spec c s (Deliver sa n2) Hs Hgood (outgoing_incoming sa Hsa) ltac:(by intros [])) as Hcall. cbn [run_call] in Hcall.
  rewrite H3 in Hcall. destruct Hcall as [_ Hak]. cbn [option_list option_rect] in Hak. rewrite Forall_singleton in Hak.
  destruct (packet_built (mirror s) sa Hm Hsa) as (psa & Hpsa & _), (packet_built s ak Hs Hak) as (pak & Hpak & _).
  assert (Hports : source_port g = local_port s ∧ destination_port g = remote_port s).
  { unfold open_active in Ho. rewrite send_eq in Ho by done. apply Ok_inj, pair_equal_spec in Ho as [_ <-]. done. }
  destruct Hports as [Hg1 Hg2].
  exists psa, (set_connection (mirror s) d1 b0), pak, (set_connection s c2 a1), (set_connection (mirror s) d2 (set_connection (mirror s) d1 b0)).
  split_and!.
  - rewrite run_receive. unfold received_ok. rewrite run_bind, (delivered s g syn b n1) by done. unfold receive_segment.
    rewrite run_gets, Hnone, Hfl. change (flags_contains SYN RST) with false. cbn iota. rewrite run_gets.
    unfold accepts. rewrite Hfl, (bool_decide_true (_ ∈ _)), bool_decide_true by done.
    replace (connection_count b <? MAX_CONNECTIONS) with true by lia. cbn [andb].
    rewrite run_bind, Hib, run_lift, H2, run_modify. unfold lift. by rewrite Hpsa.
  - rewrite run_receive. unfold received_ok. rewrite run_bind, (delivered (mirror s) sa psa a1 n2) by done. unfold receive_segment.
    assert (mirror (mirror s) = s) as -> by (by destruct s). rewrite run_gets, Hv, run_lift, H3, run_modify. unfold lift. by rewrite Hpak.
  - rewrite run_receive. unfold received_ok. rewrite run_bind.
    rewrite (delivered s ak pak _ n3) by (done || (change (owns_any_ipv4 b0 (remote_address s) = true); by rewrite Hownb)).
    unfold receive_segment. rewrite run_gets, view_set, bool_decide_true, run_lift, H4 by done. done.
  - exists c2, d2. rewrite !view_set, !bool_decide_true by done. done.
Qed.

(** ** Concrete inputs *)

Lemma tcp_ok_empty d : tcp d = TcpRuntime_default → tcp_ok d ∧ counting d.
Proof.
  intros H. split; [|intros s c; unfold view; by rewrite H].
  constructor; unfold connection_count, view; rewrite H; cbn; try done.
Qed.
Lemma connect_accepted d s now :
  tcp_ok d → socket_ok s → local_port s ≠ 0 → remote_port s ≠ 0 → owns_any_ipv4 d (local_address s) = true →
  unusable_remote (remote_address s) = false → view d s = None → connection_count d < MAX_CONNECTIONS →
  ∃ syn d', run_tcp (Connect s now) d = (Ok ([syn], []), d').
Proof.
  intros Hd Hs Hl Hr Hown Hun Hv Hc. cbn [run_tcp]. unfold tcp_connect. rewrite one_bind, run_reject, Hown, Hun.
  replace (local_port s =? 0) with false by lia. replace (remote_port s =? 0) with false by lia. cbn [negb orb].
  rewrite one_bind, run_reject, Hv, bool_decide_false by (by intros []). rewrite one_bind, run_reject.
  replace (MAX_CONNECTIONS <=? connection_count d) with false by lia. rewrite one_bind, run_bind.
  destruct (initial_sequence d Hd) as (isn & d1 & -> & Hi & _). destruct (open_active_spec s now isn Hs Hi) as (c & g & Ho & _ & Hg).
  destruct (packet_built s g Hs Hg) as (p & Hp & _). rewrite one_bind, run_lift, Ho, one_bind, run_modify, (one_lift _ _ _ p) by done. by eexists _, _.
Qed.
(** Two hosts on one network. *)
Definition sample_host (a : Ipv4Addr) : res DeviceError Device :=
  d ← device_new 1 (text "host") Host;
  Ok (run_operations [AddPhysicalInterface (text "gi0/0"); SetIpv4 1 {| address := a; prefix_len := 24 |}; SetAdminState 1 AdminUp;
                      SetLinkState 1 LinkUp] d).
Definition client_address : Ipv4Addr := 0x0a000001.
Definition server_address : Ipv4Addr := 0x0a000002.
Definition client_socket : TcpSocket :=
  {| local_address := client_address; local_port := 40000; remote_address := server_address; remote_port := 80 |}.
Lemma client_socket_ok : socket_ok client_socket.
Proof. by vm_compute. Qed.
Lemma sample_host_ok a : a = client_address ∨ a = server_address →
  ∃ d, sample_host a = Ok d ∧ tcp d = TcpRuntime_default ∧ owns_any_ipv4 d a = true.
Proof.
  intros Ha. destruct (sample_host a) as [d|e|] eqn:E; [|by destruct Ha as [->| ->]; vm_compute in E..]. exists d. split; [done|].
  assert (H : (d ← sample_host a; Ok (bool_decide (tcp d = TcpRuntime_default), owns_any_ipv4 d a)) = @Ok DeviceError _ (true, true))
    by (destruct Ha as [->| ->]; by vm_compute).
  rewrite E, bind_Ok in H. apply Ok_inj, pair_equal_spec in H as [H1%bool_decide_eq_true H2]. done.
Qed.
Lemma sample_connect :
  ∃ a b a1 syn, sample_host client_address = Ok a ∧ sample_host server_address = Ok b ∧ tcp_ok a ∧ tcp_ok b ∧ counting a
    ∧ run_tcp (Connect client_socket 0) a = (Ok ([syn], []), a1) ∧ owns_any_ipv4 b server_address = true ∧ tcp b = TcpRuntime_default.
Proof.
  destruct (sample_host_ok client_address ltac:(by left)) as (a & Ea & Ha & Oa), (sample_host_ok server_address ltac:(by right)) as (b & Eb & Hb & Ob).
  destruct (tcp_ok_empty a Ha) as [Ka Ca], (tcp_ok_empty b Hb) as [Kb _].
  destruct (connect_accepted a client_socket 0 Ka client_socket_ok) as (syn & a1 & H); try done.
  - unfold view. by rewrite Ha.
  - unfold connection_count. by rewrite Ha.
  - by exists a, b, a1, syn.
Qed.
Lemma host_simulates_witness :
  ∃ a syn, sample_host client_address = Ok a
    ∧ (∃ a1, run_tcp (Connect client_socket 0) a = (Ok ([syn], []), a1)) ∧ tcp_ok (run_tcp (Connect client_socket 0) a).2.
Proof.
  destruct sample_connect as (a & b & a1 & syn & Ea & _ & Ka & _ & Ca & H & _). exists a, syn. split; [exact Ea|].
  split; [exists a1; exact H|]. exact (proj1 (host_simulates a (Connect client_socket 0) Ka Ca client_socket_ok)).
Defined.
Lemma connection_refused_witness :
  ∃ a b a1 syn rst, sample_host client_address = Ok a ∧ sample_host server_address = Ok b
    ∧ run_tcp (Connect client_socket 0) a = (Ok ([syn], []), a1) ∧ run_tcp (Receive syn 1) b = (Ok ([rst], []), b).
Proof.
  destruct sample_connect as (a & b & a1 & syn & Ea & Eb & Ka & Kb & _ & H & Ob & Hb). exists a, b, a1, syn.
  destruct (connection_refused a b client_socket 0 1 2 3 a1 syn Ka Kb client_socket_ok H Ob) as (rst & a2 & Hrst & _).
  - unfold view. rewrite Hb. reflexivity.
  - rewrite Hb. apply not_elem_of_empty.
  - exists rst. split; [exact Ea|]. split; [exact Eb|]. split; [exact H|exact Hrst].
Defined.
Lemma hosts_connect_witness :
  ∃ a b a1 b1 syn synack, sample_host client_address = Ok a ∧ sample_host server_address = Ok b
    ∧ run_tcp (Connect client_socket 0) a = (Ok ([syn], []), a1)
    ∧ run_tcp (Receive syn 1) (run_tcp (Listen 80) b).2 = (Ok ([synack], []), b1).
Proof.
  destruct sample_connect as (a & b & a1 & syn & Ea & Eb & Ka & Kb & _ & H & Ob & Hb).
  pose proof (proj1 (outcome_listen b 80 Kb (conj (ltac:(discriminate) : 0 ≤ 80) (ltac:(discriminate) : 80 ≤ 65535)))) as Kl.
  assert (Hl : (run_tcp (Listen 80) b).2 = b <| tcp ::= λ r, r <| listeners ::= λ l, {[80]} ∪ l |> |>).
  { cbn [run_tcp]. unfold tcp_listen. rewrite run_bind, run_reject. cbn [Z.eqb]. rewrite run_reject, Hb. reflexivity. }
  rewrite Hl in *.
  destruct (hosts_connect a _ client_socket 0 1 2 3 a1 syn Ka Kl client_socket_ok H) as (synack & b1 & ack & a2 & b2 & Hsyn & _).
  - exact Ob.
  - unfold view. cbn. rewrite Hb. reflexivity.
  - cbn. rewrite Hb. apply elem_of_union_l, elem_of_singleton_2. reflexivity.
  - unfold connection_count. cbn. rewrite Hb. reflexivity.
  - exists a, b, a1, b1, syn, synack. split; [exact Ea|]. split; [exact Eb|]. split; [exact H|]. rewrite Hl. exact Hsyn.
Defined.
