(* ===== verification/QosPolicy.v ===== *)
(** Quality of service on a device (src/crates/rios-device/src/qos/mod.rs and
    qos/config.rs): class maps, policies and their binding to interfaces, the
    profile an interface hands to its scheduler, and the classification of
    frames.

    [qos_invariant] keeps the policies closed under their references, each with
    its default class last; from it [qos_profile_serves] shows that every policy
    that can be attached gives a configuration the scheduler accepts, and a
    class for every frame. *)
From S2P Require Import Prelude Wire State Text Decimal EventQueue Ipv4 Ethernet Switching Collections AccessList RoutePolicy Config Inventory Device Interfaces AccessControl.
From S2P Require Qos.

Definition INVENTORY_LIMIT : Z := 256.
Definition class_default : bytes := text "class-default".
(** route_policy.rs *)
Definition policy_name_valid (name : bytes) : bool :=
  negb (bool_decide (name = [])) && (len name <=? 64)
  && forallb (λ b, is_ascii_alphanumeric b || bool_decide (b ∈ text "_.-")) name.

(** ** config.rs *)

Definition class_maps (d : Device) : gmap QosClassId QosClassMap := qos_classes (qos (running_config d)).
Definition policy_maps (d : Device) : gmap QosPolicyId QosPolicyMap := policies (qos (running_config d)).
Definition set_class_maps (f : gmap QosClassId QosClassMap → gmap QosClassId QosClassMap) (d : Device) : Device :=
  d <| running_config ::= λ r, r <| qos ::= λ q, q <| qos_classes ::= f |> |> |>.
Definition set_policy_maps (f : gmap QosPolicyId QosPolicyMap → gmap QosPolicyId QosPolicyMap) (d : Device) : Device :=
  d <| running_config ::= λ r, r <| qos ::= λ q, q <| policies ::= f |> |> |>.

Definition default_class (class : option QosClassId) : QosPolicyClass :=
  {| policy_class := class; bandwidth_kbps := None; class_priority := None; class_police := None; class_shape := None |}.
(** [find_map] over the names. *)
Definition class_named (d : Device) (name : bytes) : option QosClassId :=
  fst <$> find (λ e, bool_decide (class_name e.2 = name)) (items (class_maps d)).
Definition policy_named (d : Device) (name : bytes) : option QosPolicyId :=
  fst <$> find (λ e, bool_decide (policy_name e.2 = name)) (items (policy_maps d)).
(** [last_key_value().map_or(Some(1), |(id, _)| id.0.checked_add(1))]. *)
Definition next_id {V} (m : gmap Z V) : option Z :=
  match last_entry (λ k, [k]) m with Some (id, _) => checked_add U32_MAX id 1 | None => Some 1 end.
Definition manageable (d : Device) : bool := supports_routing d || supports_switching d.

Definition with_match (every : bool) (c : QosClassMap) : QosClassMap :=
  {| class_name := class_name c; match_all := every; class_dscp := class_dscp c; class_precedence := class_precedence c;
     class_access_lists := class_access_lists c |}.
Definition ensure_qos_class (name : bytes) (every : bool) : op QosClassId :=
  reject_if (λ d, negb (manageable d) || negb (policy_name_valid name) || bool_decide (name = class_default)) InvalidQosConfig;;
  existing ← gets (λ d, class_named d name);
  match existing with
  | Some id => modify (set_class_maps (alter (with_match every) id));; mret id
  | None =>
      reject_if (λ d, INVENTORY_LIMIT <=? Z.of_nat (size (class_maps d))) InvalidQosConfig;;
      id ← require (λ d, next_id (class_maps d)) InvalidQosConfig;
      modify (set_class_maps (insert id {| class_name := name; match_all := every; class_dscp := ∅; class_precedence := ∅;
                                           class_access_lists := ∅ |}));;
      mret id
  end.
Definition criteria_invalid (c : QosClassMap) : bool :=
  bool_decide (set_Exists (λ n, 63 < n) (class_dscp c)) || bool_decide (set_Exists (λ n, 7 < n) (class_precedence c))
  || (64 <? Z.of_nat (size (class_access_lists c)))
  || bool_decide (set_Exists (λ n, policy_name_valid n = false) (class_access_lists c)).
Definition set_qos_class (id : QosClassId) (class : QosClassMap) : op () :=
  reject_if (λ _, criteria_invalid class) InvalidQosConfig;;
  target ← require (λ d, class_maps d !! id) InvalidQosConfig;
  reject_if (λ _, negb (bool_decide (class_name target = class_name class))) InvalidQosConfig;;
  modify (set_class_maps (insert id class)).
Definition class_used (d : Device) (id : QosClassId) : bool :=
  existsb (λ e, existsb (λ c, bool_decide (policy_class c = Some id)) (policy_classes e.2)) (items (policy_maps d)).
Definition remove_qos_class (name : bytes) : op () :=
  found ← gets (λ d, class_named d name);
  match found with
  | None => mret ()
  | Some id =>
      reject_if (λ d, class_used d id) InvalidQosConfig;;
      modify (set_class_maps (delete id))
  end.
Definition ensure_qos_policy (name : bytes) : op QosPolicyId :=
  reject_if (λ d, negb (manageable d) || negb (policy_name_valid name)) InvalidQosConfig;;
  existing ← gets (λ d, policy_named d name);
  match existing with
  | Some id => mret id
  | None =>
      reject_if (λ d, INVENTORY_LIMIT <=? Z.of_nat (size (policy_maps d))) InvalidQosConfig;;
      id ← require (λ d, next_id (policy_maps d)) InvalidQosConfig;
      modify (set_policy_maps (insert id {| policy_name := name; policy_classes := [default_class None] |}));;
      mret id
  end.
(** The class a name means in a policy. *)
Definition named_class (name : bytes) : op (option QosClassId) :=
  if bool_decide (name = class_default) then mret None
  else id ← require (λ d, class_named d name) InvalidQosConfig; mret (Some id).
Definition with_class (class : option QosClassId) (l : list QosPolicyClass) : list QosPolicyClass :=
  take (length l - 1) l ++ [default_class class] ++ drop (length l - 1) l.
Definition class_is (class : option QosClassId) (c : QosPolicyClass) : bool := bool_decide (policy_class c = class).
Definition has_class (class : option QosClassId) (l : list QosPolicyClass) : bool := existsb (class_is class) l.
Definition set_classes (id : QosPolicyId) (f : list QosPolicyClass → list QosPolicyClass) : Device → Device :=
  set_policy_maps (alter (λ p, {| policy_name := policy_name p; policy_classes := f (policy_classes p) |}) id).
Definition ensure_qos_policy_class (policy : QosPolicyId) (name : bytes) : op (option QosClassId) :=
  id ← named_class name;
  p ← require (λ d, policy_maps d !! policy) InvalidQosConfig;
  if has_class id (policy_classes p) then mret id
  else
    reject_if (λ _, 64 <=? len (policy_classes p)) InvalidQosConfig;;
    modify (set_classes policy (with_class id));;
    mret id.
Definition some_invalid (o : option QosRate) : bool := is_some_and o (λ r, negb (rate_valid r)).
Definition actions_invalid (c : QosPolicyClass) : bool :=
  is_some_and (bandwidth_kbps c) (λ kbps, negb ((1 <=? kbps) && (kbps <=? 1000000000)))
  || (bool_decide (is_Some (bandwidth_kbps c)) && bool_decide (is_Some (class_priority c)))
  || is_some_and (class_priority c) (λ r, negb (rate_bits_per_second r `mod` 1000 =? 0))
  || (some_invalid (class_priority c) || some_invalid (class_police c) || some_invalid (class_shape c)).
(** [iter_mut().find(p)], and an assignment to what it finds. *)
Fixpoint replace_first (p : QosPolicyClass → bool) (c : QosPolicyClass) (l : list QosPolicyClass) : list QosPolicyClass :=
  match l with [] => [] | x :: l => if p x then c :: l else x :: replace_first p c l end.
Definition set_qos_policy_class (id : QosPolicyId) (class : QosPolicyClass) : op () :=
  reject_if (λ _, actions_invalid class) InvalidQosConfig;;
  p ← require (λ d, policy_maps d !! id) InvalidQosConfig;
  reject_if (λ _, negb (has_class (policy_class class) (policy_classes p))) InvalidQosConfig;;
  modify (set_classes id (replace_first (class_is (policy_class class)) class)).
Definition remove_qos_policy_class (id : QosPolicyId) (name : bytes) : op () :=
  class ← named_class name;
  require (λ d, policy_maps d !! id) InvalidQosConfig;;
  modify (set_classes id
    (if bool_decide (class = None) then replace_first (class_is None) (default_class None)
     else filter (λ c, policy_class c ≠ class))).
Definition policy_used (d : Device) (id : QosPolicyId) : bool :=
  existsb (λ e, bool_decide (service_policy_output e.2 = Some id)) (items (configs d)).
Definition remove_qos_policy (name : bytes) : op () :=
  found ← gets (λ d, policy_named d name);
  match found with
  | None => mret ()
  | Some id => reject_if (λ d, policy_used d id) InvalidQosConfig;; modify (set_policy_maps (delete id))
  end.
Definition set_service_policy_output (interface : InterfaceId) (policy : option QosPolicyId) : op () :=
  reject_if (λ d, negb (is_some_and (interfaces d !! interface) (λ i, is_ethernet (kind i)))
                  || is_some_and policy (λ id, negb (bool_decide (is_Some (policy_maps d !! id))))) InvalidQosConfig;;
  update_config interface (λ c, c <| service_policy_output := policy |>).

(** ** mod.rs *)

Record QosProfileClass := { profile_class : option QosClassId; profile_class_name : bytes; class_scheduling : Qos.QueueClassConfig }.
Record QosProfile := { profile_mtu : Z; profile_id : QosPolicyId; profile_name : bytes; profile_classes : list QosProfileClass }.

Definition reserved_of (c : QosPolicyClass) : Z :=
  sat_add U64_MAX (sat_mul U64_MAX (default 0 (bandwidth_kbps c)) 1000) (default 0 (rate_bits_per_second <$> class_priority c)).
Definition clamp (lo hi x : Z) : Z := Z.min hi (Z.max lo x).
Definition default_weight (link_bps : Z) (cs : list QosPolicyClass) : Z :=
  let reserved := foldl (sat_add U64_MAX) 0 (reserved_of <$> cs) in
  let unreserved := Z.max 1 (len (filter (λ c, bandwidth_kbps c = None ∧ class_priority c = None) cs)) in
  clamp 1 1000000000000 (sat_sub link_bps reserved `div` unreserved).
Definition qos_profile (d : Device) (interface : InterfaceId) (link_bps : option Z) : option QosProfile :=
  port ← configs d !! interface;
  id ← service_policy_output port;
  policy ← policy_maps d !! id;
  link_bps ← match link_bps with
             | Some b => Some b
             | None => i ← interfaces d !! interface;
                       Some (if bool_decide (kind i = TenGigabitEthernet) then 10000000000 else 1000000000)
             end;
  Some {| profile_mtu := mtu port; profile_id := id; profile_name := policy_name policy;
          profile_classes := (λ c, {| profile_class := policy_class c;
              profile_class_name := default class_default (class_name <$> (i ← policy_class c; class_maps d !! i));
              class_scheduling := scheduling c (mtu port) (default_weight link_bps (policy_classes policy)) |})
            <$> policy_classes policy |}.

(** The frame as it is without a tag: its type and payload. *)
Definition frame_contents (f : EthernetFrame) : EtherType * bytes :=
  match ethertype f, payload f with
  | Dot1Q, _ :: _ :: a :: b :: rest => (EtherType_from_u16 (a * 256 + b), rest)
  | kind, payload => (kind, payload)
  end.
Definition frame_ipv4 (f : EthernetFrame) : option Ipv4Packet :=
  let '(kind, payload) := frame_contents f in
  if bool_decide (kind = Ethernet.Ipv4) then ok (ipv4_decode payload) else None.
Definition frame_ds (f : EthernetFrame) : option Z :=
  match frame_ipv4 f with
  | Some ip => Some (dscp_ecn ip)
  | None =>
      let '(kind, payload) := frame_contents f in
      if bool_decide (kind = Ethernet.Ipv6) && (40 <=? len payload) && (Z.shiftr (nth 0 payload 0) 4 =? 6)
      then Some (Z.lor (Z.shiftl (nth 0 payload 0) 4 `mod` 256) (Z.shiftr (nth 1 payload 0) 4)) else None
  end.
Definition qos_acl_permits (d : Device) (name : bytes) (packet : Ipv4Packet) : bool :=
  match acl_id d name with
  | Some id =>
      match lists d !! id with
      | Some l => bool_decide (((λ e, evaluate e.2 packet) <$> deciding_rule l packet) = Some (Some Permit))
      | None => false
      end
  | None => is_some_and (n ← parse U8_MAX name; AccessListId_new n) (λ id, access_list_permits d id (Ipv4.source packet))
  end.
(** The criteria a class has, each decided on the frame. *)
Definition criteria (d : Device) (c : QosClassMap) (f : EthernetFrame) : list bool :=
  (if bool_decide (class_dscp c = ∅) then [] else [is_some_and (frame_ds f) (λ ds, bool_decide (Z.shiftr ds 2 ∈ class_dscp c))])
  ++ (if bool_decide (class_precedence c = ∅) then []
      else [is_some_and (frame_ipv4 f) (λ ip, bool_decide (precedence ip ∈ class_precedence c))])
  ++ (if bool_decide (class_access_lists c = ∅) then []
      else [is_some_and (frame_ipv4 f) (λ ip, bool_decide (set_Exists (λ name, qos_acl_permits d name ip = true) (class_access_lists c)))]).
Definition class_matches (d : Device) (f : EthernetFrame) (entry : QosPolicyClass) : bool :=
  match policy_class entry with
  | None => true
  | Some id =>
      match class_maps d !! id with
      | None => false
      | Some c =>
          let matches := criteria d c f in
          negb (bool_decide (matches = [])) && (if match_all c then forallb (λ m, m) matches else existsb (λ m, m) matches)
      end
  end.
Definition qos_classify (d : Device) (policy : QosPolicyId) (f : EthernetFrame) : option nat :=
  p ← policy_maps d !! policy;
  fst <$> list_find (λ c, class_matches d f c = true) (policy_classes p).

(** ** The calls as data *)

Inductive qos_operation :=
| EnsureClass (name : bytes) (every : bool) | SetClass (id : QosClassId) (class : QosClassMap) | RemoveClass (name : bytes)
| EnsurePolicy (name : bytes) | EnsurePolicyClass (policy : QosPolicyId) (name : bytes)
| SetPolicyClass (id : QosPolicyId) (class : QosPolicyClass) | RemovePolicyClass (id : QosPolicyId) (name : bytes)
| RemovePolicy (name : bytes) | SetOutput (interface : InterfaceId) (policy : option QosPolicyId).
Definition run_qos (o : qos_operation) : op () :=
  match o with
  | EnsureClass n e => ensure_qos_class n e;; mret ()
  | SetClass i c => set_qos_class i c
  | RemoveClass n => remove_qos_class n
  | EnsurePolicy n => ensure_qos_policy n;; mret ()
  | EnsurePolicyClass p n => ensure_qos_policy_class p n;; mret ()
  | SetPolicyClass i c => set_qos_policy_class i c
  | RemovePolicyClass i n => remove_qos_policy_class i n
  | RemovePolicy n => remove_qos_policy n
  | SetOutput i p => set_service_policy_output i p
  end.
Definition run_qoss (os : list qos_operation) (d : Device) : Device := foldl (λ d o, (run_qos o d).2) d os.

(** ** Well-formed policies *)

Definition class_good (c : QosPolicyClass) : Prop :=
  class_rates_valid c ∧ (∀ k, bandwidth_kbps c = Some k → 1 ≤ k ≤ 1000000000).
(** The default class is last, every other class is named and exists, none
    twice, and the actions of each are valid. *)
Record policy_good (maps : gmap QosClassId QosClassMap) (l : list QosPolicyClass) : Prop := {
  good_default : ∃ named c, l = named ++ [c] ∧ policy_class c = None;
  good_size : len l ≤ 64;
  good_once : NoDup (policy_class <$> l);
  good_actions : Forall class_good l;
  good_classes : ∀ c id, c ∈ l → policy_class c = Some id → is_Some (maps !! id)
}.
Record qos_ok (d : Device) : Prop := {
  qos_class_names : ∀ a b x y, class_maps d !! a = Some x → class_maps d !! b = Some y → class_name x = class_name y → a = b;
  qos_policy_names : ∀ a b x y, policy_maps d !! a = Some x → policy_maps d !! b = Some y → policy_name x = policy_name y → a = b;
  qos_policies : ∀ id p, policy_maps d !! id = Some p → policy_good (class_maps d) (policy_classes p);
  qos_outputs : ∀ i c id, configs d !! i = Some c → service_policy_output c = Some id → is_Some (policy_maps d !! id)
}.

(** ** Helper lemmas: lists of classes *)

Lemma default_good class : class_good (default_class class).
Proof. split; [|done]. by split_and!. Qed.
Lemma has_class_false class l : has_class class l = false → class ∉ policy_class <$> l.
Proof.
  intros H (c & -> & Hin)%list_elem_of_fmap. apply not_true_iff_false in H. apply H. apply existsb_exists.
  exists c. split; [by apply list_elem_of_In|by apply bool_decide_eq_true].
Qed.
Lemma policy_good_singleton maps : policy_good maps [default_class None].
Proof.
  constructor; cbn.
  - by exists [], (default_class None).
  - done.
  - apply NoDup_singleton.
  - apply Forall_singleton, default_good.
  - intros c id ->%list_elem_of_singleton. done.
Qed.
Lemma policy_good_with maps l class :
  policy_good maps l → class ∉ policy_class <$> l → (∀ id, class = Some id → is_Some (maps !! id)) → len l < 64 →
  policy_good maps (with_class class l).
Proof.
  intros [(named & c & -> & Hc) Hs Ho Ha Hcl] Hnew Hex Hlen.
  assert (Hw : with_class class (named ++ [c]) = named ++ [default_class class; c]).
  { unfold with_class. rewrite length_app. cbn [length]. replace (length named + 1 - 1)%nat with (length named) by lia.
    by rewrite take_app_length, drop_app_length. }
  rewrite Hw. constructor.
  - exists (named ++ [default_class class]), c. by rewrite <-app_assoc.
  - unfold len in *. rewrite length_app in *. cbn [length] in *. lia.
  - rewrite fmap_app in *. cbn [fmap list_fmap policy_class default_class] in *.
    apply NoDup_app in Ho as (N1 & N2 & N3). apply NoDup_app. split; [done|].
    assert (class ∉ policy_class <$> named ∧ class ≠ policy_class c) as [Hn1 Hn2].
    { split; intros H; apply Hnew; [apply elem_of_app; by left|apply elem_of_app; right; subst; by left]. }
    split; [|constructor; [by intros ->%list_elem_of_singleton|done]].
    intros x Hx [->|Hin]%elem_of_cons; [done|]. by apply (N2 x Hx).
  - rewrite Forall_app in *. destruct Ha as [? ?]. split; [done|]. constructor; [apply default_good|done].
  - intros x id Hx Hid. apply elem_of_app in Hx as [Hx|[->|Hx]%elem_of_cons].
    + apply (Hcl x id); [apply elem_of_app; by left|done].
    + by apply Hex.
    + apply (Hcl x id); [apply elem_of_app; by right|done].
Qed.
Lemma replace_first_classes class c l :
  policy_class c = class → policy_class <$> replace_first (class_is class) c l = policy_class <$> l.
Proof.
  intros Hc. induction l as [|x l IH]; cbn [replace_first]; [done|]. unfold class_is at 1. case_bool_decide as E; cbn [fmap list_fmap]; [congruence|].
  by rewrite IH.
Qed.
Lemma replace_first_elem p c l x : x ∈ replace_first p c l → x = c ∨ x ∈ l.
Proof.
  induction l as [|y l IH]; cbn [replace_first]; [by intros ?%elem_of_nil|]. destruct (p y).
  - intros [->|H]%elem_of_cons; [by left|right; by right].
  - intros [->|H]%elem_of_cons; [right; by left|]. destruct (IH H); [by left|right; by right].
Qed.
(** What [policy_good] sees of the order. *)
Lemma policy_good_classes maps l l' :
  policy_good maps l → policy_class <$> l' = policy_class <$> l → Forall class_good l' → policy_good maps l'.
Proof.
  intros [(named & c & -> & Hc) Hs Ho Ha Hcl] He Hg. constructor.
  - rewrite fmap_app in He. cbn in He. apply fmap_app_inv in He as (k1 & k2 & E1 & E2 & ->).
    destruct k2 as [|c' [|? ?]]; try done. cbn in E2. injection E2 as E2. exists k1, c'. split; [done|congruence].
  - apply (f_equal length) in He. rewrite !length_fmap in He. unfold len in *. lia.
  - by rewrite He.
  - done.
  - intros x id Hx Hid. assert (Hin : Some id ∈ policy_class <$> l') by (apply list_elem_of_fmap; by exists x).
    rewrite He in Hin. apply list_elem_of_fmap in Hin as (y & Hy & Hin). by apply (Hcl y id).
Qed.
Lemma policy_good_replace maps l class c :
  policy_good maps l → policy_class c = class → class_good c →
  policy_good maps (replace_first (class_is class) c l).
Proof.
  intros Hl Hc Hg. apply (policy_good_classes maps l); [done|by apply replace_first_classes|].
  apply Forall_forall. intros x [->|Hx]%replace_first_elem; [done|]. destruct Hl as [_ _ _ Ha _]. rewrite Forall_forall in Ha. by apply Ha.
Qed.
Lemma policy_good_filter maps l class :
  policy_good maps l → class ≠ None → policy_good maps (filter (λ c, policy_class c ≠ class) l).
Proof.
  intros [(named & c & -> & Hc) Hs Ho Ha Hcl] Hn. constructor.
  - exists (filter (λ c, policy_class c ≠ class) named), c. rewrite filter_app. split; [|done].
    rewrite (filter_cons_True _ c) by congruence. done.
  - pose proof (length_filter (λ c, policy_class c ≠ class) (named ++ [c])). unfold len in *. lia.
  - eapply sublist_NoDup; [exact Ho|]. apply fmap_sublist, sublist_filter.
  - apply Forall_forall. intros x [_ Hx]%list_elem_of_filter. rewrite Forall_forall in Ha. by apply Ha.
  - intros x id [_ Hx]%list_elem_of_filter. by apply Hcl.
Qed.

(** ** Helper lemmas: the calls *)

Lemma class_named_Some d name id : class_named d name = Some id → ∃ c, class_maps d !! id = Some c ∧ class_name c = name.
Proof.
  unfold class_named. intros H. apply fmap_Some in H as ([k c] & Hf & ->). apply find_entries in Hf as (Hc & Hn & _).
  exists c. split; [done|]. by apply bool_decide_eq_true in Hn.
Qed.
Lemma class_named_None d name : class_named d name = None → ∀ id c, class_maps d !! id = Some c → class_name c ≠ name.
Proof. unfold class_named, items. rewrite fmap_None, find_entries_None. intros H id c Hc. specialize (H id c Hc). by apply bool_decide_eq_false in H. Qed.
Lemma policy_named_None d name : policy_named d name = None → ∀ id c, policy_maps d !! id = Some c → policy_name c ≠ name.
Proof. unfold policy_named, items. rewrite fmap_None, find_entries_None. intros H id c Hc. specialize (H id c Hc). by apply bool_decide_eq_false in H. Qed.
Lemma next_id_fresh {V} (m : gmap Z V) id : next_id m = Some id → m !! id = None.
Proof.
  unfold next_id. destruct (last_entry _ m) as [[k v]|] eqn:E.
  - intros H. apply last_entry_spec in E as [_ Hmax]. apply eq_None_not_Some. intros Hid. specialize (Hmax id Hid). cbn in Hmax.
    unfold checked_add in H. destruct (_ <=? _); [|done]. injection H as <-. lia.
  - intros [= <-]. by apply last_entry_None in E as ->.
Qed.

Lemma qos_ok_classes d f :
  qos_ok d → (∀ id, is_Some (class_maps d !! id) → is_Some (f (class_maps d) !! id) ∨ class_used d id = false) →
  (∀ a b x y, f (class_maps d) !! a = Some x → f (class_maps d) !! b = Some y → class_name x = class_name y → a = b) →
  qos_ok (set_class_maps f d).
Proof.
  intros [Kc Kp Kg Ko] Hkeep Hnames. constructor; [done|done| |done]. intros id p Hp. specialize (Kg id p Hp).
  destruct Kg as [G1 G2 G3 G4 G5]. constructor; try done. intros c cid Hc Hcid.
  destruct (Hkeep cid (G5 c cid Hc Hcid)) as [H|Hu]; [done|]. exfalso. apply not_true_iff_false in Hu. apply Hu.
  unfold class_used. apply existsb_exists. exists (id, p). split; [by apply list_elem_of_In, elem_of_entries|].
  apply existsb_exists. exists c. split; [by apply list_elem_of_In|by apply bool_decide_eq_true].
Qed.
Lemma qos_ok_policies d f :
  qos_ok d → (∀ id, is_Some (policy_maps d !! id) → is_Some (f (policy_maps d) !! id) ∨ policy_used d id = false) →
  (∀ a b x y, f (policy_maps d) !! a = Some x → f (policy_maps d) !! b = Some y → policy_name x = policy_name y → a = b) →
  (∀ id p, f (policy_maps d) !! id = Some p → policy_good (class_maps d) (policy_classes p)) →
  qos_ok (set_policy_maps f d).
Proof.
  intros [Kc Kp Kg Ko] Hkeep Hnames Hgood. constructor; [done|done|done|]. intros i c id Hc Hid.
  destruct (Hkeep id (Ko i c id Hc Hid)) as [H|Hu]; [done|]. exfalso. apply not_true_iff_false in Hu. apply Hu.
  unfold policy_used. apply existsb_exists. exists (i, c). split; [by apply list_elem_of_In, elem_of_entries|by apply bool_decide_eq_true].
Qed.
(** A policy whose classes are changed. *)
Lemma qos_ok_set_classes d id p f :
  qos_ok d → policy_maps d !! id = Some p → policy_good (class_maps d) (f (policy_classes p)) → qos_ok (set_classes id f d).
Proof.
  intros Hd Hp Hg. pose proof Hd as [_ Kp Kg _]. unfold set_classes.
  assert (Hl : ∀ x q, alter (λ p, {| policy_name := policy_name p; policy_classes := f (policy_classes p) |}) id (policy_maps d) !! x = Some q →
    ∃ q0, policy_maps d !! x = Some q0 ∧ policy_name q = policy_name q0 ∧ (x = id ∨ q = q0)).
  { intros x q. destruct (decide (id = x)) as [<-|Hne].
    - rewrite lookup_alter_eq, Hp. intros [= <-]. exists p. split_and!; try done. by left.
    - rewrite lookup_alter_ne by done. intros Hq. exists q. split_and!; try done. by right. }
  apply qos_ok_policies; [done| | |].
  - intros x [q Hq]. left. destruct (decide (id = x)) as [<-|Hne]; [rewrite lookup_alter_eq, Hq|rewrite lookup_alter_ne, Hq by done]; by eexists.
  - intros a b x y Hx Hy He. destruct (Hl a x Hx) as (x0 & Hx0 & Ex & _), (Hl b y Hy) as (y0 & Hy0 & Ey & _).
    apply (Kp a b x0 y0); try done. congruence.
  - intros x q Hq. destruct (decide (id = x)) as [<-|Hne].
    + rewrite lookup_alter_eq, Hp in Hq. injection Hq as <-. done.
    + rewrite lookup_alter_ne in Hq by done. by apply (Kg x).
Qed.
Lemma named_class_spec name d :
  (named_class name d = (Ok None, d) ∧ name = class_default)
  ∨ (∃ id c, named_class name d = (Ok (Some id), d) ∧ class_maps d !! id = Some c) ∨ named_class name d = (Err InvalidQosConfig, d).
Proof.
  unfold named_class. case_bool_decide; [by left|right]. rewrite run_require. destruct (class_named d name) as [id|] eqn:E; [left|by right].
  destruct (class_named_Some _ _ _ E) as (c & Hc & _). by exists id, c.
Qed.
Lemma keeps_ensure_class n e d : qos_ok d → qos_ok (ensure_qos_class n e d).2.
Proof.
  intros Hd. pose proof Hd as [Kc _ _ _]. unfold ensure_qos_class. rewrite run_reject. destruct (_ || _); [done|]. rewrite run_gets.
  destruct (class_named d n) as [id|] eqn:En.
  - rewrite run_modify. cbn [snd mret stateful_mret].
    assert (Hl : ∀ x c, alter (with_match e) id (class_maps d) !! x = Some c → ∃ c0, class_maps d !! x = Some c0 ∧ class_name c = class_name c0).
    { intros x c. destruct (decide (id = x)) as [<-|Hne]; [rewrite lookup_alter_eq|rewrite lookup_alter_ne by done; by exists c].
      intros (c0 & Hc0 & ->)%fmap_Some. by exists c0. }
    apply qos_ok_classes; [done| |].
    + intros x [c Hc]. left. destruct (decide (id = x)) as [<-|Hne]; [rewrite lookup_alter_eq, Hc|rewrite lookup_alter_ne, Hc by done]; by eexists.
    + intros a b x y Hx Hy He. destruct (Hl a x Hx) as (x0 & Hx0 & Ex), (Hl b y Hy) as (y0 & Hy0 & Ey). apply (Kc a b x0 y0); try done. congruence.
  - rewrite run_reject. destruct (_ <=? _); [done|]. rewrite run_require. destruct (next_id (class_maps d)) as [id|] eqn:Hid; [|done].
    rewrite run_modify. cbn [snd mret stateful_mret]. apply next_id_fresh in Hid. pose proof (class_named_None d n En) as Hnone.
    apply qos_ok_classes; [done| |].
    + intros x [c Hc]. left. destruct (decide (id = x)) as [<-|Hne]; [rewrite lookup_insert_eq|rewrite lookup_insert_ne, Hc by done]; by eexists.
    + intros a b x y [[<- <-]|[Ha Hx]]%lookup_insert_Some [[<- <-]|[Hb Hy]]%lookup_insert_Some He; try done.
      * by destruct (Hnone b y Hy).
      * by destruct (Hnone a x Hx).
      * by apply (Kc a b x y).
Qed.
Lemma keeps_set_class id c d : qos_ok d → qos_ok (set_qos_class id c d).2.
Proof.
  intros Hd. pose proof Hd as [Kc _ _ _]. unfold set_qos_class. rewrite run_reject. destruct (criteria_invalid c); [done|].
  rewrite run_require. destruct (class_maps d !! id) as [t|] eqn:Ht; [|done]. rewrite run_reject.
  case_bool_decide as Hn; [|done]. cbn [negb modify snd]. apply qos_ok_classes; [done| |].
  - intros x [y Hy]. left. destruct (decide (id = x)) as [<-|Hne]; [rewrite lookup_insert_eq|rewrite lookup_insert_ne, Hy by done]; by eexists.
  - intros a b x y [[<- <-]|[Ha Hx]]%lookup_insert_Some [[<- <-]|[Hb Hy]]%lookup_insert_Some He; try done.
    + apply (Kc id b t y); [done..|congruence].
    + apply (Kc a id x t); [done..|congruence].
    + by apply (Kc a b x y).
Qed.
Lemma keeps_remove_class n d : qos_ok d → qos_ok (remove_qos_class n d).2.
Proof.
  intros Hd. pose proof Hd as [Kc _ _ _]. unfold remove_qos_class. rewrite run_gets. destruct (class_named d n) as [id|]; [|done].
  rewrite run_reject. destruct (class_used d id) eqn:Hu; [done|]. cbn [modify snd]. apply qos_ok_classes; [done| |].
  - intros x Hx. destruct (decide (id = x)) as [<-|Hne]; [by right|left; by rewrite lookup_delete_ne].
  - intros a b x y [_ Hx]%lookup_delete_Some [_ Hy]%lookup_delete_Some. by apply Kc.
Qed.
Lemma keeps_ensure_policy n d : qos_ok d → qos_ok (ensure_qos_policy n d).2.
Proof.
  intros Hd. pose proof Hd as [_ Kp Kg _]. unfold ensure_qos_policy. rewrite run_reject. destruct (_ || _); [done|]. rewrite run_gets.
  destruct (policy_named d n) as [id|] eqn:En; [done|]. rewrite run_reject. destruct (_ <=? _); [done|]. rewrite run_require.
  destruct (next_id (policy_maps d)) as [id|] eqn:Hid; [|done]. rewrite run_modify. cbn [snd mret stateful_mret].
  apply next_id_fresh in Hid. pose proof (policy_named_None d n En) as Hnone. apply qos_ok_policies; [done| | |].
  - intros x [c Hc]. left. destruct (decide (id = x)) as [<-|Hne]; [rewrite lookup_insert_eq|rewrite lookup_insert_ne, Hc by done]; by eexists.
  - intros a b x y [[<- <-]|[Ha Hx]]%lookup_insert_Some [[<- <-]|[Hb Hy]]%lookup_insert_Some He; try done.
    + by destruct (Hnone b y Hy).
    + by destruct (Hnone a x Hx).
    + by apply (Kp a b x y).
  - intros x p [[<- <-]|[_ Hx]]%lookup_insert_Some; [apply policy_good_singleton|by apply (Kg x)].
Qed.
Lemma keeps_policy_class p n d : qos_ok d → qos_ok (ensure_qos_policy_class p n d).2.
Proof.
  intros Hd. pose proof Hd as [_ _ Kg _]. unfold ensure_qos_policy_class. rewrite run_bind.
  assert (H : ∀ id, (∀ x, id = Some x → is_Some (class_maps d !! x)) →
    qos_ok ((q ← require (λ d, policy_maps d !! p) InvalidQosConfig;
      if has_class id (policy_classes q) then mret id
      else reject_if (λ _, 64 <=? len (policy_classes q)) InvalidQosConfig;; modify (set_classes p (with_class id));; mret id) d).2).
  { intros id Hid. rewrite run_require. destruct (policy_maps d !! p) as [q|] eqn:Hq; [|done].
    destruct (has_class id (policy_classes q)) eqn:Hh; [done|]. rewrite run_reject. destruct (64 <=? len (policy_classes q)) eqn:Hl; [done|].
    rewrite run_modify. cbn [snd mret stateful_mret]. apply (qos_ok_set_classes d p q); [done..|].
    apply policy_good_with; [by apply (Kg p)|by apply has_class_false|done|lia]. }
  destruct (named_class_spec n d) as [[-> _]|[(id & c & -> & Hc)| ->]]; [by apply H| |done].
  apply H. intros x [= <-]. by eexists.
Qed.
Lemma actions_good c : actions_invalid c = false → class_good c.
Proof.
  unfold actions_invalid. rewrite !orb_false_iff. intros [[[Hk _] _] [[Hp Hq] Hs]].
  assert (Hv : ∀ o r, some_invalid o = false → o = Some r → rate_valid r = true) by (intros o r H ->; by apply negb_false_iff in H).
  split; [split; [|split]; intros r Hr; by eapply Hv, Hr|]. intros k Ek. rewrite Ek in Hk. cbn in Hk. lia.
Qed.
Lemma keeps_set_policy_class id c d : qos_ok d → qos_ok (set_qos_policy_class id c d).2.
Proof.
  intros Hd. pose proof Hd as [_ _ Kg _]. unfold set_qos_policy_class. rewrite run_reject. destruct (actions_invalid c) eqn:Ha; [done|].
  rewrite run_require. destruct (policy_maps d !! id) as [q|] eqn:Hq; [|done]. rewrite run_reject. destruct (negb _); [done|].
  cbn [modify snd]. apply (qos_ok_set_classes d id q); [done..|]. apply policy_good_replace; [by apply (Kg id)|done|by apply actions_good].
Qed.
Lemma keeps_remove_policy_class id n d : qos_ok d → qos_ok (remove_qos_policy_class id n d).2.
Proof.
  intros Hd. pose proof Hd as [_ _ Kg _]. unfold remove_qos_policy_class. rewrite run_bind.
  destruct (named_class_spec n d) as [[-> _]|[(x & c & -> & _)| ->]]; [| |done];
    rewrite run_require; destruct (policy_maps d !! id) as [q|] eqn:Hq; try done; cbn [modify snd].
  - rewrite bool_decide_true by done. apply (qos_ok_set_classes d id q); [done..|].
    apply policy_good_replace; [by apply (Kg id)|done|apply default_good].
  - rewrite bool_decide_false by done. apply (qos_ok_set_classes d id q); [done..|]. apply policy_good_filter; [by apply (Kg id)|done].
Qed.
Lemma keeps_remove_policy n d : qos_ok d → qos_ok (remove_qos_policy n d).2.
Proof.
  intros Hd. pose proof Hd as [_ Kp Kg _]. unfold remove_qos_policy. rewrite run_gets. destruct (policy_named d n) as [id|]; [|done].
  rewrite run_reject. destruct (policy_used d id) eqn:Hu; [done|]. cbn [modify snd]. apply qos_ok_policies; [done| | |].
  - intros x Hx. destruct (decide (id = x)) as [<-|Hne]; [by right|left; by rewrite lookup_delete_ne].
  - intros a b x y [_ Hx]%lookup_delete_Some [_ Hy]%lookup_delete_Some. by apply Kp.
  - intros x p [_ Hp]%lookup_delete_Some. by apply (Kg x).
Qed.
Lemma keeps_output i p d : qos_ok d → qos_ok (set_service_policy_output i p d).2.
Proof.
  intros Hd. pose proof Hd as [Kc Kp Kg Ko]. unfold set_service_policy_output. rewrite run_reject. destruct (_ || _) eqn:E; [done|].
  unfold update_config. destruct (configs d !! i) as [c|] eqn:Hc; [|done]. cbn [snd]. apply orb_false_iff in E as [_ E].
  constructor; [done..|]. intros j cj id. rewrite configs_set. intros [[<- <-]|[_ Hj]]%lookup_insert_Some Hid; [|by apply (Ko j cj)].
  cbn in Hid. subst p. cbn in E. by apply negb_false_iff, bool_decide_eq_true in E.
Qed.
Lemma keeps_run_qos o d : qos_ok d → qos_ok (run_qos o d).2.
Proof.
  intros Hd.
  assert (Hq : ∀ A (m : op A), qos_ok (m d).2 → qos_ok ((m;; mret ()) d).2) by (intros A m H; rewrite run_bind; by destruct (m d) as [[]]).
  destruct o; cbn [run_qos]; try apply Hq; [apply keeps_ensure_class|apply keeps_set_class|apply keeps_remove_class|apply keeps_ensure_policy
    |apply keeps_policy_class|apply keeps_set_policy_class|apply keeps_remove_policy_class|apply keeps_remove_policy|apply keeps_output]; done.
Qed.
Lemma keeps_run_qoss os d : qos_ok d → qos_ok (run_qoss os d).
Proof. unfold run_qoss. revert d. induction os as [|o os IH]; intros d Hd; [done|]. cbn [foldl]. by apply IH, keeps_run_qos. Qed.

(** ** Theorems *)

(** C39: Whatever calls configure it, no policy refers to a class that does not
    exist and no interface to a policy that does not; names stay unique; every
    policy has its default class last, no class twice, at most 64 of them, and
    only rates the scheduler accepts. *)
Theorem qos_invariant d os : qos_ok d → qos_ok (run_qoss os d).
Proof. apply keeps_run_qoss. Qed.

Lemma default_weight_range link cs : 1 ≤ default_weight link cs ≤ 1000000000000.
Proof. unfold default_weight, clamp. lia. Qed.
Lemma classify_total maps d f l : policy_good maps l → ∃ k, fst <$> list_find (λ c, class_matches d f c = true) l = Some k ∧ (k < length l)%nat.
Proof.
  intros [(named & c & -> & Hc) _ _ _ _].
  assert (is_Some (list_find (λ c, class_matches d f c = true) (named ++ [c]))) as [[k x] Hk].
  { apply (list_find_elem_of _ _ c); [apply elem_of_app; right; by left|]. unfold class_matches. by rewrite Hc. }
  exists k. rewrite Hk. split; [done|]. apply list_find_Some in Hk as (Hx & _). by apply lookup_lt_Some in Hx.
Qed.

(** C40: An interface with an output policy always has a profile; the profile's
    classes make a scheduler, for any link rate and queue length, so no frame
    is lost to a configuration the scheduler refuses; and every frame has a
    class of that scheduler. *)
Theorem qos_profile_serves d i c id rate cap now :
  qos_ok d → is_Some (interfaces d !! i) → configs d !! i = Some c → 0 ≤ mtu c → service_policy_output c = Some id → 1 ≤ cap ≤ 1000000 →
  ∃ p, qos_profile d i rate = Some p ∧ profile_id p = id
    ∧ (∃ s : Qos.QosScheduler EthernetFrame, Qos.scheduler_new (class_scheduling <$> profile_classes p) cap now = Ok s)
    ∧ ∀ f, ∃ k, qos_classify d id f = Some k ∧ (k < length (profile_classes p))%nat.
Proof.
  intros Hd [j Hj] Hc Hmtu Hid Hcap. destruct (qos_outputs _ Hd _ _ _ Hc Hid) as [p Hp]. pose proof (qos_policies _ Hd _ _ Hp) as Hg.
  unfold qos_profile. rewrite Hc. cbn [mbind option_bind]. rewrite Hid. cbn [mbind option_bind]. rewrite Hp. cbn [mbind option_bind].
  assert (∃ bps, match rate with Some b => Some b | None => i ← interfaces d !! i;
    Some (if bool_decide (kind i = TenGigabitEthernet) then 10000000000 else 1000000000) end = Some bps) as [bps ->]
    by (destruct rate; [by eexists|rewrite Hj; by eexists]).
  cbn [mbind option_bind]. eexists. split; [done|]. split; [done|]. cbn [profile_classes]. split.
  - pose proof Hg as [(named & x & El & _) Hs _ Ha _]. unfold Qos.scheduler_new.
    rewrite <-list_fmap_compose. set (configs := _ <$> policy_classes p).
    assert (Hl : len configs = len (policy_classes p)) by (unfold configs, len; by rewrite length_fmap).
    assert (0 < len (policy_classes p)) by (rewrite El; unfold len; rewrite length_app; cbn; lia).
    assert (He : existsb Qos.config_invalid configs = false).
    { apply not_true_iff_false. intros (k & Hk & Hbad)%existsb_exists. apply list_elem_of_In, list_elem_of_fmap in Hk as (y & -> & Hy).
      rewrite Forall_forall in Ha. destruct (Ha y Hy) as [Hr Hk']. cbn in Hbad. rewrite scheduling_valid in Hbad; [done..|apply default_weight_range]. }
    rewrite Hl, He. replace (len (policy_classes p) =? 0) with false by lia. replace (64 <? len (policy_classes p)) with false by lia.
    replace (negb ((1 <=? cap) && (cap <=? 1000000))) with false by lia. cbn [orb]. by eexists.
  - intros f. unfold qos_classify. rewrite Hp. cbn [mbind option_bind]. rewrite length_fmap. by apply (classify_total (class_maps d)).
Qed.

(** ** Concrete inputs *)

Lemma qos_ok_empty d :
  qos (running_config d) = QosConfig_default → map_Forall (λ _ c, service_policy_output c = None) (configs d) → qos_ok d.
Proof.
  intros H Hc. assert (class_maps d = ∅ ∧ policy_maps d = ∅) as [E1 E2] by (unfold class_maps, policy_maps; by rewrite H).
  constructor; rewrite ?E1, ?E2; try done. intros i c id Hi Hid. specialize (Hc i c Hi). cbn in Hc. congruence.
Qed.
(** A router that sends voice first. *)
Definition voice_setup : list qos_operation :=
  [EnsureClass (text "VOICE") true;
   SetClass 1 {| class_name := text "VOICE"; match_all := true; class_dscp := {[46]}; class_precedence := ∅; class_access_lists := ∅ |};
   EnsurePolicy (text "WAN"); EnsurePolicyClass 1 (text "VOICE");
   SetPolicyClass 1 {| policy_class := Some 1; bandwidth_kbps := None;
     class_priority := Some {| rate_bits_per_second := 128000; rate_burst_bytes := None |}; class_police := None; class_shape := None |};
   SetOutput 1 (Some 1); RemoveClass (text "VOICE"); RemovePolicy (text "WAN")].
Definition voice_router : res DeviceError Device :=
  d ← device_new 1 (text "R1") Router; Ok (run_operations [AddPhysicalInterface (text "gi0/0")] d).
Lemma voice_router_ok :
  ∃ d, voice_router = Ok d ∧ qos_ok d
    ∧ ∃ c, configs (run_qoss voice_setup d) !! 1 = Some c ∧ 0 ≤ mtu c ∧ service_policy_output c = Some 1
        ∧ is_Some (interfaces (run_qoss voice_setup d) !! 1).
Proof.
  destruct voice_router as [d|e|] eqn:E; [|by vm_compute in E..]. exists d. split; [done|].
  assert (H : (d ← voice_router; Ok (bool_decide (qos (running_config d) = QosConfig_default),
      bool_decide (map_Forall (λ _ c, service_policy_output c = None) (configs d)),
      (λ c, (mtu c, service_policy_output c)) <$> configs (run_qoss voice_setup d) !! 1,
      bool_decide (is_Some (interfaces (run_qoss voice_setup d) !! 1))))
    = @Ok DeviceError _ (true, true, Some (1500, Some 1), true)) by by vm_compute.
  rewrite E, bind_Ok in H. apply Ok_inj in H. rewrite !pair_equal_spec, !bool_decide_eq_true in H. destruct H as [[[H1 H2] H3] H4].
  split; [by apply qos_ok_empty|]. apply fmap_Some in H3 as (c & Hc & [= H5 H6]). exists c. split; [exact Hc|]. split; [lia|]. split; [by symmetry|exact H4].
Qed.
Lemma qos_invariant_witness : ∃ d, voice_router = Ok d ∧ qos_ok (run_qoss voice_setup d).
Proof.
  destruct voice_router_ok as (d & Hd & Hok & _). exists d. split; [exact Hd|]. exact (qos_invariant d voice_setup Hok).
Defined.
Lemma qos_profile_serves_witness :
  ∃ d p, voice_router = Ok d ∧ qos_profile (run_qoss voice_setup d) 1 None = Some p ∧ profile_id p = 1.
Proof.
  destruct voice_router_ok as (d & Hd & Hok & c & Hc & Hm & Hs & Hi).
  pose proof (keeps_run_qoss voice_setup d Hok) as Hq.
  destruct (qos_profile_serves (run_qoss voice_setup d) 1 c 1 None 1000 0 Hq Hi Hc Hm Hs ltac:(split; discriminate)) as (p & Hp & Hid & _).
  exists d, p. split; [exact Hd|]. split; [exact Hp|exact Hid].
Defined.
