(* ===== verification/SpanningTree.v ===== *)
(** A network of switches that run the spanning tree of [Stp]: once the
    messages on every cable are those the other end sends, the ports that
    forward in a VLAN form no loop ([stp_loop_free]).

    A network is a map of devices and a list of cables between their ports
    (the links of src/crates/rios-topology/src/lab.rs). The steady state is
    stated with the operations of [Stp] only: a refresh changes nothing, and on
    every cable each end has the vector the other end sends. *)
From S2P Require Import Prelude Wire State EventQueue Ethernet Switching Ipv4 Collections Config Inventory Device Interfaces Stp Text.

Abbreviation port_ref := (DeviceId * InterfaceId)%type.

Section network.
Context (devices : gmap DeviceId Device) (cables : list (port_ref * port_ref)) (vlan : VlanId) (now : SimTime).

Definition instance_at (a : DeviceId) : option StpInstance := d ← devices !! a; stp_runtime d !! vlan.
Definition bridge_at (a : DeviceId) : option Z := d ← devices !! a; bridge_id d vlan.
(** The vector the port sends now, and the one it holds from its cable. *)
Definition sent (x : port_ref) : option ConfigurationBpdu :=
  d ← devices !! x.1;
  p ← find (λ p, bool_decide (p.1 = (x.2, vlan))) (stp_packets now d).1;
  Some (configuration p.2).
Definition held (x : port_ref) : option ConfigurationBpdu :=
  i ← instance_at x.1; r ← stp_received i !! x.2; Some (configuration (bpdu r)).
Definition forwards (x : port_ref) : bool := is_some_and (devices !! x.1) (λ d, stp_forwarding d x.2 vlan).

(** The quiet state of the network in a VLAN. *)
Definition device_quiet (d : Device) : bool :=
  supports_switching d && bool_decide (is_Some (bridge_id d vlan)) && bool_decide (refresh_spanning_tree now d = d)
  && forallb (λ e : InterfaceId * InterfaceConfig, is_none_or (stp_cost (spanning_tree e.2)) (λ c, 1 <=? c)) (items (configs d))
  && is_none_or (stp_runtime d !! vlan) (λ i,
       (root_cost i <? U32_MAX) && forallb (λ e : InterfaceId * StpReceived, message_age (bpdu e.2) <? 4864) (items (stp_received i))).
Definition quiet : Prop :=
  map_Forall (λ _ d, device_quiet d = true) devices
  ∧ Forall (λ c : port_ref * port_ref, held c.2 = sent c.1 ∧ held c.1 = sent c.2) cables.

(** A step of a frame: over a cable, in either direction, from a port that
    forwards to one that forwards. *)
Definition step (x y : port_ref) : Prop :=
  ((x, y) ∈ cables ∨ (y, x) ∈ cables) ∧ forwards x = true ∧ forwards y = true.
(** A way round: every step starts at the device the one before reached, at
    another port, and the last one returns to the first. *)
Definition follows (s t : port_ref * port_ref) : Prop := s.2.1 = t.1.1 ∧ s.2 ≠ t.1.
Definition circuit (l : list (port_ref * port_ref)) : Prop :=
  l ≠ [] ∧ (∀ s, s ∈ l → step s.1 s.2)
  ∧ (∀ k s t, l !! k = Some s → l !! S k = Some t → follows s t)
  ∧ (∀ s t, last l = Some s → head l = Some t → follows s t).

(** ** Helper lemmas *)

Context (Hquiet : quiet).

Lemma device_quiet_inv a d :
  devices !! a = Some d →
  ∃ bridge, bridge_id d vlan = Some bridge ∧ refresh_spanning_tree now d = d
    ∧ (∀ port, 1 ≤ stp_cost_of d port)
    ∧ ∀ i, stp_runtime d !! vlan = Some i →
        root_cost i < U32_MAX ∧ (∀ p r, stp_received i !! p = Some r → message_age (bpdu r) < 4864)
        ∧ root_chosen d bridge i ∧ ∀ port s, stp_ports_of i !! port = Some s → port_assigned d bridge i port s.
Proof using Hquiet.
  intros Hd. destruct Hquiet as [Hq _]. specialize (Hq a d Hd). unfold device_quiet in Hq. rewrite !andb_true_iff in Hq.
  destruct Hq as [[[[Hs Hb] Hr] Hc] Hi]. apply bool_decide_eq_true in Hb as [bridge Hb]. apply bool_decide_eq_true in Hr.
  exists bridge. split_and!; [done|done| |].
  - intros port. unfold stp_cost_of, port_policy. destruct (configs d !! port) as [c|] eqn:Hcfg.
    + rewrite forallb_forall in Hc. assert (Hin : (port, c) ∈ items (configs d)) by by apply elem_of_entries.
      apply list_elem_of_In, Hc in Hin. cbn in Hin. destruct (stp_cost (spanning_tree c)); cbn in Hin; [lia|].
      destruct (is_some_and _ _); lia.
    + cbn. destruct (is_some_and _ _); lia.
  - intros i Hl. rewrite Hl in Hi. cbn in Hi. apply andb_true_iff in Hi as [Hcost Hage].
    rewrite <-Hr in Hl. destruct (refresh_instance now d vlan bridge i Hb Hs Hl) as (ports & i0 & Hi0).
    destruct (recompute_spec d bridge ports now i0) as [H1 H2]. rewrite <-Hi0 in H1, H2. split; [lia|]. split; [|done].
    intros p r Hp. rewrite forallb_forall in Hage. assert (Hin : (p, r) ∈ items (stp_received i)) by by apply elem_of_entries.
    apply list_elem_of_In, Hage in Hin. cbn in Hin. lia.
Qed.

(** The vector of a port that is designated, and of any port that sends. *)
Definition vector_of (d : Device) (bridge : Z) (i : StpInstance) (port : InterfaceId) : ConfigurationBpdu :=
  {| Switching.root_id := root_id i; Switching.root_cost := root_cost i;
     Switching.bridge_id := bridge; Switching.port_id := stp_port_id d port |}.
Lemma port_packet_vector d bridge i port role state p :
  port_packet d bridge i port role state = Some p →
  configuration p = vector_of d bridge i port ∧ role ≠ RoleAlternate.
Proof.
  unfold port_packet. cbv zeta. destruct (_ && _) eqn:Hr; [done|]. intros H. split.
  - destruct (root_port i ≫= _); (destruct (_ <? _); [|done]); by injection H as <-.
  - intros ->. by rewrite bool_decide_false, bool_decide_false, andb_false_r in Hr by done.
Qed.
Lemma port_packet_designated d bridge i port state :
  (∀ p r, stp_received i !! p = Some r → message_age (bpdu r) < 4864) →
  is_Some (port_packet d bridge i port RoleDesignated state).
Proof.
  intros Hage. unfold port_packet. rewrite bool_decide_true by done. cbn [negb andb]. cbv zeta.
  destruct (root_port i ≫= _) as [r|] eqn:Hr; cbn [message_age max_age stp_new].
  - apply bind_Some in Hr as (root & _ & Hr). apply Hage in Hr. unfold sat_add, U16_MAX. 
    assert (Z.min 65535 (message_age (bpdu r) + 256) <? 20 * 256 = true) as -> by lia. by eexists.
  - by eexists.
Qed.

Lemma forwards_inv x :
  forwards x = true →
  ∃ d i s, devices !! x.1 = Some d ∧ stp_runtime d !! vlan = Some i ∧ stp_ports_of i !! x.2 = Some s ∧ s.2 = Forwarding.
Proof using.
  unfold forwards, stp_forwarding, stp_port_state. destruct (devices !! x.1) as [d|]; [|done]. cbn [is_some_and].
  destruct (stp_runtime d !! vlan) as [i|] eqn:Hi; [|done]. cbn [mbind option_bind].
  destruct (stp_ports_of i !! x.2) as [s|] eqn:Hs; [|done]. cbn [is_some_and]. intros H%bool_decide_eq_true. by exists d, i, s.
Qed.
Lemma sent_inv x d bridge i c :
  devices !! x.1 = Some d → refresh_spanning_tree now d = d → stp_runtime d !! vlan = Some i → bridge_id d vlan = Some bridge →
  sent x = Some c → c = vector_of d bridge i x.2.
Proof using.
  intros Hd Hr Hi Hb. unfold sent. rewrite Hd. cbn [mbind option_bind]. intros H.
  apply bind_Some in H as ([[port v] p] & Hf & [= <-]). apply find_some in Hf as [Hin He]. cbn [fst snd] in He.
  apply bool_decide_eq_true in He. injection He as -> ->. apply list_elem_of_In, elem_of_packets in Hin as (i' & b' & role & st & Hp).
  cbv zeta in Hp. rewrite Hr, Hi, Hb in Hp. destruct Hp as ([= <-] & [= <-] & _ & Hp). by apply port_packet_vector in Hp as [-> _].
Qed.
Lemma sent_designated x d bridge i st :
  devices !! x.1 = Some d → refresh_spanning_tree now d = d → stp_runtime d !! vlan = Some i → bridge_id d vlan = Some bridge →
  (∀ p r, stp_received i !! p = Some r → message_age (bpdu r) < 4864) →
  stp_ports_of i !! x.2 = Some (RoleDesignated, st) → sent x = Some (vector_of d bridge i x.2).
Proof using.
  intros Hd Hr Hi Hb Hage Hs. destruct (sent x) as [c|] eqn:Hx; [by rewrite (sent_inv x d bridge i c)|].
  unfold sent in Hx. rewrite Hd in Hx. cbn [mbind option_bind] in Hx.
  destruct (port_packet_designated d bridge i x.2 st Hage) as [p Hp].
  assert (Hin : (x.2, vlan, p) ∈ (stp_packets now d).1).
  { apply elem_of_packets. exists i, bridge, RoleDesignated, st. cbv zeta. by rewrite Hr. }
  destruct (find _ _) eqn:Hf in Hx; [done|]. eapply find_none in Hf; [|apply list_elem_of_In, Hin].
  cbn in Hf. by apply bool_decide_eq_false in Hf.
Qed.

(** The cost of a device, and whether a port is its root port. *)
Definition cost_at (a : DeviceId) : Z := match instance_at a with Some i => root_cost i | None => 0 end.
Definition is_root_port (x : port_ref) : Prop := instance_at x.1 ≫= root_port = Some x.2.

(** A port that forwards as a root port is closer to the root at the other
    end; one that forwards as a designated port outranks what it holds. *)
Lemma end_role x y :
  forwards x = true → held x = sent y → forwards y = true →
  (is_root_port x ∧ cost_at y.1 < cost_at x.1)
  ∨ ∃ v, sent x = Some v ∧ ∀ w, sent y = Some w →
      lex_ltb [Switching.root_id v; Switching.root_cost v; Switching.bridge_id v; Switching.port_id v]
        [Switching.root_id w; Switching.root_cost w; Switching.bridge_id w; Switching.port_id w] = true.
Proof using Hquiet.
  intros Hx Hh Hy. destruct (forwards_inv x Hx) as (d & i & [role st] & Hd & Hi & Hs & [= ->]).
  destruct (forwards_inv y Hy) as (d' & i' & _ & Hd' & Hi' & _).
  destruct (device_quiet_inv _ d Hd) as (bridge & Hb & Hr & Hcost & Hq). destruct (Hq i Hi) as (Hlow & Hage & Hroot & Hports).
  destruct (device_quiet_inv _ d' Hd') as (bridge' & Hb' & Hr' & _ & _).
  destruct (Hports _ _ Hs) as [Hrole Hlive]. cbn [fst snd] in *. destruct (Hlive ltac:(done)) as [Hg Hna].
  assert (Hheld : held x = configuration ∘ bpdu <$> stp_received i !! x.2).
  { unfold held, instance_at. rewrite Hd. cbn [mbind option_bind]. rewrite Hi. cbn. by destruct (stp_received i !! x.2). }
  unfold role_of in Hrole. case_bool_decide as Hrp.
  - left. split; [unfold is_root_port, instance_at; rewrite Hd; cbn; rewrite Hi; cbn; by rewrite <-Hrp|].
    unfold root_chosen in Hroot. rewrite <-Hrp in Hroot. destruct Hroot as (r & Hr2 & _ & _ & Hc & _ & _).
    rewrite Hheld, Hr2 in Hh. cbn in Hh. symmetry in Hh. apply (sent_inv y d' bridge' i') in Hh; try done.
    rewrite Hh in Hc. cbn in Hc. unfold cost_at, instance_at. rewrite Hd, Hd'. cbn [mbind option_bind]. rewrite Hi, Hi'.
    specialize (Hcost x.2). unfold sat_add in Hc. lia.
  - right. rewrite Hg in Hrole. cbn [orb] in Hrole.
    destruct (is_none_or (stp_received i !! x.2) _) eqn:Hout; [|by subst role].
    subst role. exists (vector_of d bridge i x.2). split; [by apply (sent_designated x d bridge i Forwarding)|].
    intros w Hw. rewrite Hheld, Hw in Hh. destruct (stp_received i !! x.2) as [r|]; [|done]. cbn in Hh. injection Hh as <-.
    exact Hout.
Qed.
Lemma live_cable x y :
  step x y → (is_root_port x ∧ cost_at y.1 < cost_at x.1) ∨ (is_root_port y ∧ cost_at x.1 < cost_at y.1).
Proof using Hquiet.
  intros (Hc & Hx & Hy). assert (Hh : held y = sent x ∧ held x = sent y).
  { destruct Hquiet as [_ H]. rewrite Forall_forall in H. by destruct Hc as [Hc|Hc]; apply H in Hc as [? ?]. }
  destruct Hh as [Hhy Hhx]. destruct (end_role x y Hx Hhx Hy) as [|(v & Hv & Hlt)]; [by left|].
  destruct (end_role y x Hy Hhy Hx) as [|(w & Hw & Hgt)]; [by right|].
  specialize (Hlt w Hw). specialize (Hgt v Hv). apply lex_ltb_asym in Hlt. congruence.
Qed.

(** Around the costliest device of a way round both steps use its root port. *)
Lemma no_circuit l : ¬ circuit l.
Proof using Hquiet.
  intros (Hne & Hstep & Hnext & Hround).
  destruct (max_by_key (λ s : port_ref * port_ref, [cost_at s.2.1]) l) as [s|] eqn:Hmax; [|by apply max_by_key_None in Hmax].
  apply max_by_key_spec in Hmax as [Hs Hmax]. assert (Hle : ∀ t, t ∈ l → cost_at t.2.1 ≤ cost_at s.2.1).
  { intros t Ht. apply Hmax in Ht. by apply lex_single in Ht. }
  assert (∃ t, t ∈ l ∧ follows s t) as (t & Ht & Hst & Hturn).
  { apply list_elem_of_lookup in Hs as [k Hk]. destruct (l !! S k) as [t|] eqn:Hk'.
    - exists t. split; [by eapply list_elem_of_lookup_2|by eapply Hnext].
    - destruct l as [|t l]; [done|]. exists t. split; [set_solver|]. apply Hround; [|done]. rewrite last_lookup.
      apply lookup_ge_None in Hk'. pose proof (lookup_lt_Some _ _ _ Hk). replace (pred (length (t :: l))) with k by lia. done. }
  assert (∃ r, r ∈ l ∧ r.2.1 = s.1.1) as (r & Hr & Hrs).
  { apply list_elem_of_lookup in Hs as [[|k] Hk].
    - destruct (last l) as [r|] eqn:Hlast; [|by apply last_None in Hlast]. exists r. split; [by eapply last_Some_elem_of|].
      apply (Hround r s); [done|]. by rewrite head_lookup.
    - destruct (lookup_lt_is_Some_2 l k) as [r Hkr]; [apply lookup_lt_Some in Hk; lia|].
      exists r. split; [by eapply list_elem_of_lookup_2|]. by apply (Hnext k r s). }
  assert (Hback : is_root_port s.2).
  { destruct (live_cable s.1 s.2 (Hstep s Hs)) as [[_ Hlt]|[Hrp _]]; [|done]. specialize (Hle r Hr). rewrite Hrs in Hle. lia. }
  destruct (live_cable t.1 t.2 (Hstep t Ht)) as [[Hrp _]|[_ Hlt]]; [|specialize (Hle t Ht); rewrite Hst in Hle; lia].
  apply Hturn. unfold is_root_port in Hback, Hrp. rewrite <-Hst, Hback in Hrp. injection Hrp as Hrp.
  destruct s as [? [? ?]], t as [[? ?] ?]; cbn in *. congruence.
Qed.
End network.

(** C5: spanning tree leaves no loop. In a network of switches whose ports
    hold, on every cable, exactly the vectors the other ends send, there is no
    way round in a VLAN over cables that forward at both ends: a frame that is
    never sent back through the port it came in by cannot return to a device
    it has left. *)
Theorem stp_loop_free devices cables vlan now :
  quiet devices cables vlan now → ¬ ∃ l, circuit devices cables vlan l.
Proof. intros Hq [l Hl]. exact (no_circuit devices cables vlan now Hq l Hl). Qed.

(** Three switches in a triangle, left to themselves for fifty seconds. *)
Definition triangle_switch (number : Z) : res DeviceError Device :=
  d ← device_new number (text "SW") Switch;
  Ok (run_operations [AddPhysicalInterface (text "gi0/0"); AddPhysicalInterface (text "gi0/1");
                      SetLinkState 1 LinkUp; SetLinkState 2 LinkUp] d).
Definition triangle_cables : list (port_ref * port_ref) :=
  [((1, 1), (2, 1)); ((2, 2), (3, 1)); ((3, 2), (1, 2))].
(** A port sends what it has to send over its cable. *)
Definition deliver (now : SimTime) (devices : gmap DeviceId Device) (c : port_ref * port_ref) : gmap DeviceId Device :=
  match devices !! c.1.1, devices !! c.2.1 with
  | Some d, Some e =>
      match find (λ p, bool_decide (p.1 = (c.1.2, VlanId_DEFAULT))) (stp_packets now d).1 with
      | Some p => <[c.2.1 := (receive_stp_packet c.2.2 VlanId_DEFAULT p.2 now e).2]> (<[c.1.1 := (stp_packets now d).2]> devices)
      | None => <[c.1.1 := (stp_packets now d).2]> devices
      end
  | _, _ => devices
  end.
Definition exchange (devices : gmap DeviceId Device) (now : SimTime) : gmap DeviceId Device :=
  foldl (deliver now) devices (triangle_cables ++ map (λ c, (c.2, c.1)) triangle_cables).
Definition triangle : gmap DeviceId Device :=
  match triangle_switch 1, triangle_switch 2, triangle_switch 3 with
  | Ok a, Ok b, Ok c => foldl exchange (<[1 := a]> (<[2 := b]> {[3 := c]})) (map (λ k, k * 10000000) [0; 1; 2; 3; 4; 5])
  | _, _, _ => ∅
  end.
Lemma stp_loop_free_witness :
  map (λ c, forwards triangle VlanId_DEFAULT c.1 && forwards triangle VlanId_DEFAULT c.2) triangle_cables = [true; false; true]
  ∧ ¬ ∃ l, circuit triangle triangle_cables VlanId_DEFAULT l.
Proof.
  split; [by vm_compute|]. apply (stp_loop_free triangle triangle_cables VlanId_DEFAULT 50000000).
  apply (bool_decide_unpack _). vm_compute. exact I.
Defined.
