(* ===== verification/DeviceCalls.v ===== *)
(** One device and all its calls: the operations of every component that keeps
    state in the [Device] record, as one type of calls.

    [device_invariant] says that whatever calls are made, in any order, a
    device stays well formed, and [nat_mappings_unique] that its NAT table
    does. A component's own theorems are about its own calls; what is added
    here is that the calls of the other components do not disturb it. *)
From S2P Require Import Prelude Wire State Text Decimal EventQueue Ethernet Switching Ipv4 Collections AccessList RoutePolicy Config Inventory Device Interfaces AccessControl Nat Stp Switch Frame DhcpServer Forwarding QosPolicy.
From S2P Require TcpConnection Transport.

(** ** The calls *)

Inductive device_call :=
  | Manage (o : operation) | OnDhcp (o : dhcp_operation) | OnNat (o : nat_operation) | OnAcl (o : acl_operation)
  | OnQos (o : qos_operation) | OnTcp (o : Transport.tcp_operation)
  | SetStaticRoute (prefix : Ipv4Network) (next_hop : Ipv4Addr) | RemoveStaticRoute (prefix : Ipv4Network) (next_hop : Ipv4Addr)
  | LearnArp (a : Ipv4Addr) (mac : MacAddress) (id : InterfaceId) (now : SimTime) | LookupArp (a : Ipv4Addr) (now : SimTime)
  | AgeArp (now : SimTime)
  | LearnMac (vlan : VlanId) (a : MacAddress) (id : InterfaceId) (now : SimTime)
  | LookupMac (vlan : VlanId) (a : MacAddress) (now : SimTime)
  | SwitchFrame (connected : InterfaceId → bool) (ingress : InterfaceId) (vlan : VlanId) (frame : EthernetFrame) (now : SimTime)
  | RecordFrame (id : InterfaceId) (length : Z) (receive : bool) | RecordDrop (id : InterfaceId) (reason : DropReason)
  | SetStpPriority (vlan : VlanId) (priority : Z) | SetStpPort (id : InterfaceId) (policy : StpPortConfig)
  | SetStpRapid (rapid : bool) | StpPackets (now : SimTime)
  | ReceiveStp (id : InterfaceId) (vlan : VlanId) (packet : StpBpdu) (now : SimTime)
  | ReceiveLacp (id : InterfaceId) (pdu : Lacpdu) (now : SimTime) | LacpTick (now : SimTime).
Definition run_call (c : device_call) (d : Device) : Device :=
  match c with
  | Manage o => (run_operation o d).2
  | OnDhcp o => run_dhcp o d
  | OnNat o => (run_nat o d).2
  | OnAcl o => (run_acl o d).2
  | OnQos o => (run_qos o d).2
  | OnTcp o => (Transport.run_tcp o d).2
  | SetStaticRoute p n => set_static_route p n d
  | RemoveStaticRoute p n => remove_static_route p n d
  | LearnArp a m i now => (learn_arp a m i now d).2
  | LookupArp a now => (arp_lookup a now d).2
  | AgeArp now => arp_age now d
  | LearnMac v a i now => (learn_mac v a i now d).2
  | LookupMac v a now => (mac_lookup v a now d).2
  | SwitchFrame c i v f now => (forward_switch_frame c i v f now d).2
  | RecordFrame i n r => (record_frame i n r d).2
  | RecordDrop i r => (record_drop_reason i r d).2
  | SetStpPriority v p => (set_stp_priority v p d).2
  | SetStpPort i p => (set_stp_port i p d).2
  | SetStpRapid b => (set_stp_rapid b d).2
  | StpPackets now => (stp_packets now d).2
  | ReceiveStp i v p now => (receive_stp_packet i v p now d).2
  | ReceiveLacp i p now => (receive_lacp i p now d).2
  | LacpTick now => (lacp_tick now d).2
  end.
Definition run_device (cs : list device_call) (d : Device) : Device := foldl (λ d c, run_call c d) d cs.

(** ** Helper lemmas: calls that respect a preorder on devices *)

Section respects.
Context (R : Device → Device → Prop) `{!PreOrder R}.
Definition respects {E A} (m : stateful Device E A) : Prop := ∀ d, R d (m d).2.
Lemma respects_reads {E A} (m : stateful Device E A) : reads m → respects m.
Proof using All. intros H d. by rewrite H. Qed.
Lemma respects_bind {E A B} (m : stateful Device E A) (k : A → stateful Device E B) :
  respects m → (∀ a, respects (k a)) → respects (m ≫= k).
Proof using All.
  intros Hm Hk d. rewrite run_bind. specialize (Hm d). destruct (m d) as [[a| |] d']; [|done..]. etrans; [exact Hm|apply Hk].
Qed.
Lemma respects_modify {E} f : (∀ d, R d (f d)) → respects (@modify Device E f).
Proof using. intros H d. apply H. Qed.
Lemma respects_foldl {B} (f : Device → B → Device) l : (∀ d b, R d (f d b)) → ∀ d, R d (foldl f d l).
Proof using All. intros H. induction l as [|b l IH]; intros d; [done|]. cbn. etrans; [apply H|apply IH]. Qed.
End respects.

(** What the well-formedness of a device looks at: the same interfaces and
    configurations, and no new learned entries. *)
Record skeleton (d d' : Device) : Prop := {
  sk_type : device_type d' = device_type d;
  sk_interfaces : interfaces d' = interfaces d;
  sk_configs : configs d' = configs d;
  sk_macs : mac_table d' ⊆ mac_table d;
  sk_arp : arp_cache d' ⊆ arp_cache d;
  sk_lacp : lacp_neighbors d' ⊆ lacp_neighbors d
}.
(** What the NAT table is judged by. *)
Definition nat_part (d : Device) :=
  (static_nat (running_config d), nat_pool_rule (running_config d), nat_pools (running_config d), nat_overload (running_config d),
   nat_translations d, next_nat_port d).
Definition same_nat (d d' : Device) : Prop := nat_part d' = nat_part d.
(** Calls that change neither. *)
Definition quiet (d d' : Device) : Prop := skeleton d d' ∧ same_nat d d'.

#[export] Instance skeleton_po : PreOrder skeleton.
Proof.
  split; [done|]. intros ??? [A1 A2 A3 A4 A5 A6] [B1 B2 B3 B4 B5 B6]. split; (congruence || (etrans; eassumption)).
Qed.
#[export] Instance same_nat_po : PreOrder same_nat.
Proof. split; unfold same_nat; [done|congruence]. Qed.
#[export] Instance quiet_po : PreOrder quiet.
Proof. split; [done|]. intros ??? [??] [??]. split; (etrans; eassumption). Qed.

Lemma skeleton_ok d d' : skeleton d d' → device_ok d → device_ok d'.
Proof. intros []. by apply device_ok_kept, kept_same. Qed.
Lemma same_nat_ok d d' : same_nat d d' → nat_ok d → nat_ok d'.
Proof.
  unfold same_nat, nat_part. intros [= E1 E2 E3 E4 E5 E6] [On Os Oc Or [Tl To Tm Tp]].
  constructor; rewrite ?E1, ?E2, ?E3, ?E4, ?E5, ?E6; try done. constructor; rewrite ?E1, ?E2, ?E3; try done.
  unfold nat_shared, port_not_static in *. by rewrite E1, E2, E4.
Qed.
#[export] Instance nat_apart : Apart nat_part.
Proof. by constructor. Qed.
Lemma respects_nat {A} (m : op A) : leaves nat_part m → respects same_nat m.
Proof. intros H d. apply H. Qed.
Lemma keeps_skeleton {A} (m : op A) : respects skeleton m → preserves device_ok m.
Proof. intros H d. by apply skeleton_ok. Qed.

(** One write of the device. *)
Ltac write_same :=
  lazymatch goal with
  | |- quiet _ _ => split; [|reflexivity]
  | |- _ => idtac
  end;
  (constructor; first [reflexivity | apply map_filter_subseteq | apply delete_subseteq]).
Ltac respects :=
  repeat lazymatch goal with
  | |- respects _ (_ ≫= _) => apply respects_bind; [apply _| |intros ?]
  | |- respects _ (let '(_, _) := ?x in _) => destruct x
  | |- respects _ (match ?x with _ => _ end) => destruct x
  | |- respects _ (modify _) => apply respects_modify; intros ?
  | |- respects _ _ => apply respects_reads; [apply _|]; solve [eauto with stateful]
  end;
  repeat case_match; try reflexivity; try write_same.

(** *** DHCP *)

Lemma quiet_expire_server now d : quiet d (expire_dhcp_server_state now d).
Proof. write_same. Qed.
Lemma quiet_offer i m s now : respects quiet (offer_dhcp_on_network i m s now).
Proof.
  intros d. unfold offer_dhcp_on_network, fresh_offer. destruct (interface_ipv4 d i); [|reflexivity]. cbv zeta.
  etrans; [apply (quiet_expire_server now)|]. set (dx := expire_dhcp_server_state now d).
  repeat case_match; try reflexivity; write_same.
Qed.
Lemma quiet_dhcp o d :
  match o with SetHelper _ _ | SetClient _ | DhcpServer.Configure _ => True | _ => quiet d (run_dhcp o d) end.
Proof.
  destruct o; cbn [run_dhcp]; try exact I; revert d.
  - change (respects quiet (ensure_dhcp_pool name)). unfold ensure_dhcp_pool. respects.
  - change (respects quiet (update_dhcp_pool id pool)). unfold update_dhcp_pool. respects.
  - change (respects quiet (set_dhcp_pool_network id network)). unfold set_dhcp_pool_network, update_dhcp_pool. respects.
  - change (respects quiet (set_dhcp_default_router id address)). unfold set_dhcp_default_router, update_dhcp_pool. respects.
  - change (respects quiet (exclude_dhcp_addresses first last0)). unfold exclude_dhcp_addresses. respects.
  - change (respects quiet (install_dhcp_lease interface lease)). unfold install_dhcp_lease. respects.
  - intros d. unfold expire_dhcp_lease. case_match; [write_same|reflexivity].
  - intros d. apply quiet_offer.
  - intros d. unfold offer_dhcp. destruct (interface_ipv4 d interface); [apply quiet_offer|reflexivity].
  - intros d. unfold commit_dhcp. cbv zeta. etrans; [apply (quiet_expire_server now)|].
    set (dx := expire_dhcp_server_state now d). repeat case_match; try reflexivity; write_same.
  - intros d. unfold decline_dhcp. cbv zeta. repeat case_match; try reflexivity; write_same.
  - intros d. apply quiet_expire_server.
Qed.
Lemma dhcp_device_ok o d : device_ok d → device_ok (run_dhcp o d).
Proof.
  intros Hd. pose proof (quiet_dhcp o d) as Hq.
  destruct o; try (apply (skeleton_ok d); [apply Hq|exact Hd]); cbn [run_dhcp].
  - clear Hq; revert d Hd. change (preserves device_ok (set_dhcp_helper interface address)).
    do 2 (apply preserves_bind; [auto with stateful|intros _]). keeps_fields.
  - clear Hq; revert d Hd. change (preserves device_ok (set_dhcp_client interface)).
    do 2 (apply preserves_bind; [auto with stateful|intros _]). apply preserves_bind; [auto with stateful|intros was].
    apply preserves_bind; [keeps_fields|intros _]. apply keeps_skeleton. respects.
  - by apply keeps_operation.
Qed.
Lemma dhcp_same_nat o d : same_nat d (run_dhcp o d).
Proof.
  pose proof (quiet_dhcp o d) as Hq. destruct o; try apply Hq; cbn [run_dhcp]; clear Hq; revert d.
  - change (respects same_nat (set_dhcp_helper interface address)). apply respects_nat. unfold set_dhcp_helper. leaves.
  - change (respects same_nat (set_dhcp_client interface)). apply respects_nat. unfold set_dhcp_client. leaves.
  - intros d. apply (apart_operation nat_part).
Qed.

(** *** NAT *)

Lemma skeleton_allocate tries d : skeleton d (allocate_from tries d).2.
Proof.
  revert d. induction tries as [|n IH]; intros d; cbn [allocate_from]; [reflexivity|]. cbv zeta.
  destruct (port_free _ _); [write_same|]. etrans; [|apply IH]. write_same.
Qed.
Lemma skeleton_expire_nat now d : skeleton d (expire_nat now d).
Proof. write_same. Qed.
Lemma skeleton_use i e p now d : skeleton d (use_outbound i e p now d).2.
Proof. unfold use_outbound. cbv zeta. destruct (rewrite _ _ _ _); write_same. Qed.
Lemma skeleton_new e p t pool o now d : skeleton d (new_translation e p t pool o now d).2.
Proof.
  unfold new_translation. destruct t as [[k lp] op]. destruct (_ <=? _); [reflexivity|].
  destruct (match pool with Some _ => _ | None => _ end); [|reflexivity]. destruct o; [|reflexivity].
  pose proof (skeleton_allocate (Z.to_nat (NAT_PORT_LAST - NAT_PORT_FIRST + 1)) d) as H. unfold allocate_nat_port.
  destruct (allocate_from _ d) as [[port|] d1]; exact H.
Qed.
Lemma skeleton_dynamic e p now pool o d : skeleton d (nat_dynamic e p now pool o d).2.
Proof.
  unfold nat_dynamic. destruct (outbound_transport p) as [[[k lp] op]|]; [|write_same]. cbv zeta.
  etrans; [apply (skeleton_expire_nat now)|]. set (dx := expire_nat now d).
  destruct (position _ _) as [i|].
  - destruct (nat_translations dx !! i); [apply skeleton_use|reflexivity].
  - pose proof (skeleton_new e p (k, lp, op) pool o now dx) as H. destruct (new_translation _ _ _ _ _ _ dx) as [[en|] d1].
    + etrans; [exact H|]. etrans; [|apply skeleton_use]. write_same.
    + etrans; [exact H|]. write_same.
Qed.
Lemma skeleton_static p from d p' d' : translate_static p from d = Some (p', d') → skeleton d d'.
Proof.
  unfold translate_static. cbv zeta. intros (r & _ & H)%bind_Some. apply bind_Some in H as (q & _ & [= _ <-]). write_same.
Qed.
Lemma skeleton_nat o : respects skeleton (run_nat o) ∨ ∃ i r, o = SetNatRole i r.
Proof.
  destruct o; cbn [run_nat]; [right; by eexists _, _|left..].
  - unfold set_nat_overload, validate_nat_acl. respects.
  - unfold add_static_nat. respects.
  - unfold set_nat_pool. respects.
  - unfold set_nat_pool_rule, validate_nat_acl. respects.
  - respects.
  - intros d. cbn [modify snd]. unfold nat_outbound. destruct (_ || _); [reflexivity|].
    destruct (translate_static packet true d) as [[p' d']|] eqn:Hs; [by eapply skeleton_static|].
    destruct (nat_policy d egress) as [[[acl pool] o]|]; [|reflexivity].
    destruct (access_list_permits _ _ _); [apply skeleton_dynamic|reflexivity].
  - intros d. cbn [modify snd]. unfold translate_nat_inbound. destruct (negb _); [reflexivity|].
    destruct (translate_static packet false d) as [[p' d']|] eqn:Hs; [by eapply skeleton_static|]. cbv zeta.
    etrans; [apply (skeleton_expire_nat now)|]. set (dx := expire_nat now d). repeat case_match; try reflexivity; write_same.
  - intros d. cbn [modify snd]. unfold nat_owns_address. destruct (_ || _); [reflexivity|]. apply skeleton_expire_nat.
Qed.
Lemma nat_device_ok o d : device_ok d → device_ok (run_nat o d).2.
Proof.
  intros Hd. destruct (skeleton_nat o) as [H|(i & r & ->)]; [by apply (skeleton_ok d)|].
  revert d Hd. change (preserves device_ok (set_nat_role i r)). apply preserves_bind; [auto with stateful|intros _]. keeps_fields.
Qed.

(** *** Access lists, QoS policies and TCP *)

Lemma quiet_set_acl_entry i s e : respects quiet (set_acl_entry i s e).
Proof. unfold set_acl_entry. respects. Qed.
Lemma quiet_evaluate id p d : quiet d (evaluate_named_acl id p d).2.
Proof. unfold evaluate_named_acl. cbv zeta. repeat case_match; try reflexivity; write_same. Qed.
Lemma quiet_acl o :
  match o with SetAccessGroup _ _ _ | SetNamedAccessGroup _ _ _ => True | _ => respects quiet (run_acl o) end.
Proof.
  destruct o; cbn [run_acl]; try exact I.
  - unfold ensure_acl. respects.
  - apply quiet_set_acl_entry.
  - unfold remove_acl_entry. respects.
  - unfold add_access_list_entry. apply respects_bind; [apply _|respects|intros _].
    apply respects_bind; [apply _|respects|intros [named|]]; [apply quiet_set_acl_entry|respects].
  - intros d. cbn [modify snd]. unfold permits_ipv4. destruct (configs d !! interface) as [c|]; [|reflexivity].
    repeat case_match; first [reflexivity | apply quiet_evaluate | cbn [snd]; write_same].
  - intros d. write_same.
Qed.
Lemma keeps_named_group i n dir : preserves device_ok (set_named_access_group i n dir).
Proof.
  unfold set_named_access_group. apply preserves_bind; [auto with stateful|]. intros id. destruct dir; keeps_fields.
Qed.
Lemma acl_device_ok o d : device_ok d → device_ok (run_acl o d).2.
Proof.
  intros Hd. pose proof (quiet_acl o) as Hq.
  destruct o; try (apply (skeleton_ok d); [apply Hq|exact Hd]); clear Hq; revert d Hd; cbn [run_acl].
  - change (preserves device_ok (set_access_group interface id direction)). unfold set_access_group.
    apply preserves_bind; [auto with stateful|intros _]. apply preserves_bind; [auto with stateful|intros [n|]].
    + apply keeps_named_group.
    + apply preserves_bind; [auto with stateful|intros _]. destruct direction; keeps_fields.
  - apply keeps_named_group.
Qed.
Lemma acl_same_nat o d : same_nat d (run_acl o d).2.
Proof.
  pose proof (quiet_acl o) as Hq. destruct o; try apply Hq; clear Hq; revert d; cbn [run_acl].
  - change (respects same_nat (set_access_group interface id direction)). apply respects_nat.
    unfold set_access_group, set_named_access_group. leaves.
  - change (respects same_nat (set_named_access_group interface name direction)). apply respects_nat.
    unfold set_named_access_group. leaves.
Qed.

Lemma quiet_qos o : match o with SetOutput _ _ => True | _ => respects quiet (run_qos o) end.
Proof.
  destruct o; cbn [run_qos]; try exact I;
    unfold ensure_qos_class, set_qos_class, remove_qos_class, ensure_qos_policy, ensure_qos_policy_class,
      set_qos_policy_class, remove_qos_policy_class, remove_qos_policy, named_class; respects.
Qed.
Lemma qos_device_ok o d : device_ok d → device_ok (run_qos o d).2.
Proof.
  intros Hd. pose proof (quiet_qos o) as Hq. destruct o; try (apply (skeleton_ok d); [apply Hq|exact Hd]).
  clear Hq. revert d Hd. change (preserves device_ok (set_service_policy_output interface policy)).
  apply preserves_bind; [auto with stateful|intros _]. keeps_fields.
Qed.
Lemma qos_same_nat o d : same_nat d (run_qos o d).2.
Proof.
  pose proof (quiet_qos o) as Hq. destruct o; try apply Hq. clear Hq. revert d.
  change (respects same_nat (set_service_policy_output interface policy)). apply respects_nat.
  unfold set_service_policy_output. leaves.
Qed.

Lemma quiet_sequence : respects quiet Transport.tcp_initial_sequence.
Proof. intros d. write_same. Qed.
#[local] Hint Resolve quiet_sequence : stateful.
Lemma quiet_tcp o : respects quiet (Transport.run_tcp o).
Proof.
  destruct o; cbn [Transport.run_tcp];
    unfold Transport.one, Transport.tcp_listen, Transport.tcp_set_idle_timeout, Transport.tcp_abort, Transport.tcp_connect,
      Transport.tcp_send, Transport.tcp_close, Transport.tcp_read, Transport.receive_tcp, Transport.receive_segment,
      Transport.tcp_tick; respects; apply quiet_sequence.
Qed.

(** *** Routes, ARP, learned addresses and frames *)

Lemma quiet_static p n d : quiet d (set_static_route p n d) ∧ quiet d (remove_static_route p n d).
Proof. split; [write_same|]. unfold remove_static_route. case_bool_decide; [write_same|reflexivity]. Qed.
Lemma quiet_arp a now d : quiet d (arp_lookup a now d).2 ∧ quiet d (arp_age now d).
Proof.
  split; [|write_same]. unfold arp_lookup. destruct (arp_cache d !! a); [|reflexivity].
  destruct (arp_fresh _ _); [reflexivity|write_same].
Qed.
(** The same interfaces and configurations with other tables. *)
Lemma device_ok_tables d d' :
  device_type d' = device_type d → interfaces d' = interfaces d → configs d' = configs d → device_ok d →
  (∀ v m e, mac_table d' !! (v, m) = Some e → entry_vlan e = v ∧ entry_mac e = m ∧ is_Some (interfaces d !! entry_interface e)) →
  (∀ a e, arp_cache d' !! a = Some e → arp_address e = a ∧ is_Some (interfaces d !! arp_interface e)) →
  (∀ id n, lacp_neighbors d' !! id = Some n → ethernet_at d id) → device_ok d'.
Proof.
  intros Et Ei Ec [H1 H2 H3 H4 _ _ _] Hm Ha Hl. constructor; unfold ethernet_at in *; rewrite ?Ei, ?Ec; try done.
  intros x i c Hi Hc. apply (interface_ok_mono d d' x i i c); try done; [| |by apply H2].
  - intros l lc Hlc. exists lc. by rewrite Ec.
  - intros p j Hj. exists j. by rewrite Ei.
Qed.
Lemma learn_arp_ok a m i now : preserves device_ok (learn_arp a m i now).
Proof.
  intros d Hd. unfold learn_arp. rewrite run_reject. destruct (negb _) eqn:E; [done|].
  apply negb_false_iff, bool_decide_eq_true in E. 
  apply (device_ok_tables d); try done; [exact (ok_mac_table _ Hd)| |exact (ok_lacp _ Hd)].
  cbn. intros b e [[<- <-]|[_ He]]%lookup_insert_Some; [done|by apply (ok_arp _ Hd)].
Qed.
Lemma learn_mac_ok v a i now : preserves device_ok (learn_mac v a i now).
Proof.
  intros d Hd. unfold learn_mac. rewrite run_reject. destruct (_ || _) eqn:E; [done|].
  apply orb_false_iff in E as [_ E%negb_false_iff%bool_decide_eq_true]. cbn [modify snd]. destruct (_ && _); [|done].
  apply (device_ok_tables d); try done; [|exact (ok_arp _ Hd)|exact (ok_lacp _ Hd)].
  cbn. intros w b e [[[= <- <-] <-]|[_ He]]%lookup_insert_Some; [done|by apply (ok_mac_table _ Hd)].
Qed.
Lemma same_nat_learn v a i now : respects same_nat (learn_mac v a i now).
Proof. apply respects_nat. unfold learn_mac. leaves. Qed.
Lemma quiet_lookup v a now d : quiet d (mac_lookup v a now d).2.
Proof. unfold mac_lookup. repeat case_match; try reflexivity; write_same. Qed.
Lemma quiet_lookup_for v f now d : quiet d (lookup_for v f now d).2.
Proof. unfold lookup_for. case_match; [reflexivity|apply quiet_lookup]. Qed.

Lemma update_counters_ok i f : preserves device_ok (update_counters i f).
Proof.
  intros d Hd. unfold update_counters. rewrite run_require. destruct (interfaces d !! i) as [j|] eqn:Hj; [|done]. cbn [modify snd].
  eapply device_ok_kept; [|exact Hd]. constructor; try done; intros x; [|exact (configs_refl d x)].
  cbn. destruct (decide (x = i)) as [->|Hx]; [by rewrite lookup_insert_eq, Hj|by rewrite lookup_insert_ne].
Qed.
Lemma same_nat_counters i f : respects same_nat (update_counters i f).
Proof. apply respects_nat. unfold update_counters. leaves. Qed.
Lemma record_drop_ok i r : preserves device_ok (record_drop_reason i r).
Proof. apply preserves_bind; [apply update_counters_ok|intros _; apply update_counters_ok]. Qed.
Lemma same_nat_drop i r : respects same_nat (record_drop_reason i r).
Proof. apply respects_bind; [apply _|apply same_nat_counters|intros _; apply same_nat_counters]. Qed.

Lemma forward_frame_ok c i v f now : preserves device_ok (forward_switch_frame c i v f now).
Proof.
  apply preserves_bind; [auto with stateful|intros []].
  - apply preserves_bind; [apply record_drop_ok|auto with stateful].
  - apply preserves_bind; [apply learn_mac_ok|intros _]. apply preserves_bind; [|auto with stateful].
    intros d Hd. pose proof (quiet_lookup_for v f now d) as [H _]. destruct (lookup_for _ _ _ d). by apply (skeleton_ok d).
Qed.
Lemma same_nat_forward c i v f now : respects same_nat (forward_switch_frame c i v f now).
Proof.
  apply respects_bind; [apply _|respects|intros []].
  - apply respects_bind; [apply _|apply same_nat_drop|respects].
  - apply respects_bind; [apply _|apply same_nat_learn|intros _]. apply respects_bind; [apply _| |respects].
    intros d. pose proof (quiet_lookup_for v f now d) as [_ H]. by destruct (lookup_for _ _ _ d).
Qed.

(** *** Spanning tree and bundles *)

Lemma quiet_recompute v ps now d : quiet d (recompute_stp_instance v ps now d).
Proof. unfold recompute_stp_instance. destruct (bridge_id d v); [|reflexivity]. destruct (recompute_instance _ _ _ _ _) as [i []]; write_same. Qed.
Lemma quiet_refresh now d : quiet d (refresh_spanning_tree now d).
Proof.
  unfold refresh_spanning_tree. destruct (negb _); [reflexivity|]. cbv zeta.
  etrans; [|apply (respects_foldl quiet); intros; apply quiet_recompute]. write_same.
Qed.
Lemma quiet_stp_config v p b : respects quiet (set_stp_priority v p) ∧ respects quiet (set_stp_rapid b).
Proof. split; [unfold set_stp_priority|unfold set_stp_rapid]; respects. Qed.
Lemma set_stp_port_ok i p : preserves device_ok (set_stp_port i p).
Proof.
  apply preserves_bind; [auto with stateful|intros _]. apply preserves_bind; [|intros _; keeps_fields].
  apply keeps_skeleton. respects.
Qed.
Lemma same_nat_stp_port i p : respects same_nat (set_stp_port i p).
Proof. apply respects_nat. unfold set_stp_port. leaves. Qed.

Lemma receive_stp_cases i v p now d :
  quiet d (receive_stp_packet i v p now d).2 ∨ (receive_stp_packet i v p now d).2 = shut_guarded i d.
Proof.
  unfold receive_stp_packet. destruct (stp_ports d !! v) as [members|]; [|by left]. destruct (negb _); [by left|].
  destruct (bpdu_guard _); [by right|left]. destruct (bridge_id d v) as [bridge|]; [|reflexivity]. cbv zeta.
  destruct (_ =? _); [reflexivity|]. cbn [snd]. etrans; [apply (quiet_refresh now)|]. set (d1 := refresh_spanning_tree now d).
  set (d2 := update_instance v _ d1). assert (H2 : quiet d1 d2) by write_same.
  etrans; [exact H2|]. etrans; [apply (quiet_recompute v members now)|]. set (d3 := recompute_stp_instance v members now d2).
  destruct (_ && _); [|reflexivity]. etrans; [|apply quiet_recompute]. write_same.
Qed.
Lemma shut_guarded_ok i d : device_ok d → device_ok (shut_guarded i d).
Proof.
  intros Hd. unfold shut_guarded. apply refresh_svi_states_ok. eapply device_ok_kept; [apply forget_kept|].
  apply (skeleton_ok d); [write_same|done].
Qed.
Lemma same_nat_shut i d : same_nat d (shut_guarded i d).
Proof. unfold same_nat, shut_guarded. by rewrite (svi_apart nat_part). Qed.
Lemma receive_stp_ok i v p now d : device_ok d → device_ok (receive_stp_packet i v p now d).2.
Proof. intros Hd. destruct (receive_stp_cases i v p now d) as [[H _]| ->]; [by apply (skeleton_ok d)|by apply shut_guarded_ok]. Qed.
Lemma same_nat_receive_stp i v p now d : same_nat d (receive_stp_packet i v p now d).2.
Proof. destruct (receive_stp_cases i v p now d) as [[_ H]| ->]; [exact H|apply same_nat_shut]. Qed.

Lemma actor_ethernet f d id info : device_ok d → lacp_actor_with f d id = Some info → ethernet_at d id.
Proof.
  intros Hd. unfold lacp_actor_with. intros (c & Hc & H)%bind_Some. apply bind_Some in H as (g & Hg & _).
  by eapply in_group_ethernet.
Qed.
Lemma neighbor_ok id n d : device_ok d → ethernet_at d id → device_ok (d <| lacp_neighbors ::= insert id n |>).
Proof.
  intros Hd He. apply (device_ok_tables d); try done; [exact (ok_mac_table _ Hd)|exact (ok_arp _ Hd)|].
  cbn. intros x m [[<- <-]|[_ Hm]]%lookup_insert_Some; [exact He|by apply (ok_lacp _ Hd _ _ Hm)].
Qed.
Lemma receive_lacp_ok i p now d : device_ok d → device_ok (receive_lacp i p now d).2.
Proof.
  intros Hd. unfold receive_lacp. destruct (lacp_actor_with _ d i) as [info|] eqn:Ha; [|done].
  destruct (negb _); [done|]. apply refresh_svi_states_ok, neighbor_ok; [done|]. by eapply actor_ethernet.
Qed.
Lemma same_nat_receive_lacp i p now d : same_nat d (receive_lacp i p now d).2.
Proof.
  unfold receive_lacp. destruct (lacp_actor_with _ d i) as [info|]; [|reflexivity]. destruct (negb _); [reflexivity|].
  unfold same_nat. cbn [snd]. by rewrite (svi_apart nat_part).
Qed.
Lemma lacp_tick_ok now d : device_ok d → device_ok (lacp_tick now d).2.
Proof. intros Hd. apply refresh_svi_states_ok, (skeleton_ok d); [write_same|done]. Qed.
Lemma same_nat_lacp_tick now d : same_nat d (lacp_tick now d).2.
Proof. unfold same_nat, lacp_tick. cbn [snd]. by rewrite (svi_apart nat_part). Qed.

(** ** Every call *)

Lemma run_call_ok c d : device_ok d → device_ok (run_call c d).
Proof.
  intros Hd. destruct c; cbn [run_call].
  - by apply keeps_operation.
  - by apply dhcp_device_ok.
  - by apply nat_device_ok.
  - by apply acl_device_ok.
  - by apply qos_device_ok.
  - by apply (skeleton_ok d); [apply quiet_tcp|].
  - by apply (skeleton_ok d); [apply quiet_static|].
  - by apply (skeleton_ok d); [apply quiet_static|].
  - by apply learn_arp_ok.
  - by apply (skeleton_ok d); [apply (quiet_arp a now)|].
  - by apply (skeleton_ok d); [apply (quiet_arp 0 now)|].
  - by apply learn_mac_ok.
  - by apply (skeleton_ok d); [apply quiet_lookup|].
  - by apply forward_frame_ok.
  - by apply update_counters_ok.
  - by apply record_drop_ok.
  - by apply (skeleton_ok d); [apply (quiet_stp_config vlan priority false)|].
  - by apply set_stp_port_ok.
  - by apply (skeleton_ok d); [apply (quiet_stp_config 0 0 rapid)|].
  - by apply (skeleton_ok d); [apply quiet_refresh|].
  - by apply receive_stp_ok.
  - by apply receive_lacp_ok.
  - by apply lacp_tick_ok.
Qed.
Lemma run_call_nat_ok c d : nat_ok d → nat_ok (run_call c d).
Proof.
  intros Hd. destruct c; cbn [run_call]; [| |by apply keeps_run_nat|..]; apply (same_nat_ok d); try exact Hd.
  - apply (apart_operation nat_part).
  - apply dhcp_same_nat.
  - apply acl_same_nat.
  - apply qos_same_nat.
  - apply quiet_tcp.
  - apply quiet_static.
  - apply quiet_static.
  - apply respects_nat. unfold learn_arp. leaves.
  - apply quiet_arp.
  - apply (quiet_arp 0 now).
  - apply same_nat_learn.
  - apply quiet_lookup.
  - apply same_nat_forward.
  - apply same_nat_counters.
  - apply same_nat_drop.
  - apply (quiet_stp_config vlan priority false).
  - apply same_nat_stp_port.
  - apply (quiet_stp_config 0 0 rapid).
  - apply quiet_refresh.
  - apply same_nat_receive_stp.
  - apply same_nat_receive_lacp.
  - apply same_nat_lacp_tick.
Qed.
Lemma run_device_keeps (I : Device → Prop) cs d : (∀ c d, I d → I (run_call c d)) → I d → I (run_device cs d).
Proof. intros H. unfold run_device. revert d. induction cs as [|c cs IH]; intros d Hd; [done|]. apply IH. by apply H. Qed.
Lemma device_new_nat_ok n h t d : device_new n h t = Ok d → nat_ok d.
Proof.
  unfold device_new. intros (_ & _ & H)%bind_Ok_inv. destruct (_ <? _); [done|].
  apply Ok_inj in H. subst d. constructor; try done. apply table_ok_nil.
Qed.

(** ** Properties *)

(** C3: a device stays well formed: after any calls of its configuration, its
    tables and its protocols, refused ones included and in any order, the
    inventory and the configuration have the same interfaces under different
    canonical names, bundles and subinterfaces refer to interfaces that exist,
    a switch port or a bundle member has no configured address, the
    subinterfaces of a port have different tags, the members of a bundle are
    alike, and the MAC table, the ARP cache and the LACP neighbours name
    existing interfaces, those of LACP Ethernet ports. (An address may still
    come to a switch port by a DHCP lease, see [switchport_dhcp_client].) *)
Theorem device_invariant number hostname type d cs :
  device_new number hostname type = Ok d → device_ok (run_device cs d).
Proof. intros Hd%device_new_ok. by apply run_device_keeps; [apply run_call_ok|]. Qed.

(** C8: However interfaces, access lists and NAT are configured and whatever
    packets pass, from a new device on, no two translations of the table have
    the same outbound key or the same inbound key, so every reply belongs to
    one flow; the table is bounded and the next port stays in its range. *)
Theorem nat_mappings_unique number hostname type d cs :
  device_new number hostname type = Ok d →
  let d := run_device cs d in
  len (nat_translations d) ≤ MAX_TRANSLATIONS ∧ NAT_PORT_FIRST ≤ next_nat_port d ≤ NAT_PORT_LAST
  ∧ ∀ i j e e', nat_translations d !! i = Some e → nat_translations d !! j = Some e' → i ≠ j →
      outbound_key e ≠ outbound_key e' ∧ inbound_key e ≠ inbound_key e'.
Proof.
  intros Hn%device_new_nat_ok. assert (H : nat_ok (run_device cs d)) by (by apply run_device_keeps; [apply run_call_nat_ok|]).
  cbv zeta. split; [exact (table_len _ _ (nat_table _ H))|]. split; [exact (nat_next _ H)|].
  intros i j e e' Hi Hj Hij. split; [|by intros He; apply Hij, (inbound_unique _ _ _ _ _ H Hi Hj)].
  intros He. apply Hij. eapply NoDup_lookup; [exact (table_outbound _ _ (nat_table _ H))|by rewrite list_lookup_fmap, Hi|].
  rewrite list_lookup_fmap, Hj. cbn. by rewrite He.
Qed.

(** A layer-3 switch with a bundle, a routed port, a DHCP client and the tables
    its traffic fills. *)
Definition switch_calls : list device_call :=
  map Manage Interfaces.sample_setup
  ++ [OnDhcp (SetClient 3); Manage (SetLinkState 1 LinkUp); LearnMac 10 [2; 0; 0; 0; 0; 9] 5 1000;
      LearnArp 0x0a000002 [2; 0; 0; 0; 0; 9] 3 1000; LookupMac 10 [2; 0; 0; 0; 0; 9] 2000].
Lemma device_invariant_witness :
  ∃ d, device_new 7 (text "core") Layer3Switch = Ok d ∧ device_ok (run_device switch_calls d)
    ∧ is_Some (mac_table (run_device switch_calls d) !! (10, [2; 0; 0; 0; 0; 9]))
    ∧ is_Some (arp_cache (run_device switch_calls d) !! 0x0a000002).
Proof.
  destruct (device_new 7 (text "core") Layer3Switch) as [d|e|] eqn:E; [|by vm_compute in E..].
  exists d. split; [done|]. split; [by apply (device_invariant 7 (text "core") Layer3Switch)|].
  assert (H : (d ← device_new 7 (text "core") Layer3Switch; let d := run_device switch_calls d in
    Ok (bool_decide (is_Some (mac_table d !! (10, [2; 0; 0; 0; 0; 9]))) && bool_decide (is_Some (arp_cache d !! 0x0a000002))))
    = @Ok DeviceError _ true) by by vm_compute.
  rewrite E, bind_Ok in H. cbv zeta in H. apply Ok_inj, andb_true_iff in H as [H1%bool_decide_eq_true H2%bool_decide_eq_true].
  split; [exact H1|exact H2].
Defined.
(** A router that shares the address of its second port with the hosts of 10/8;
    two of them ask the same server. *)
Definition query_of (host : Ipv4Addr) : Ipv4Packet :=
  {| dscp_ecn := 0; source := host; destination := 0xcb007102; ttl := 64; protocol := Udp; payload := udp_octets 1234 53 |}.
Definition router_calls : list device_call :=
  [Manage (AddPhysicalInterface (text "gi0/0")); Manage (AddPhysicalInterface (text "gi0/1"));
   Manage (SetIpv4 2 {| address := 0xcb007101; prefix_len := 24 |});
   OnAcl (AddAccessListEntry 1 {| standard_action := Permit; standard_source := 0x0a000000; standard_wildcard := 0xffffff |});
   OnNat (SetNatRole 1 Inside); OnNat (SetNatRole 2 Outside); OnNat (SetNatOverload 1 2);
   OnNat (OutboundPacket 1 2 (query_of 0x0a000002) 0); OnNat (OutboundPacket 1 2 (query_of 0x0a000003) 5);
   OnNat (OutboundPacket 1 2 (query_of 0x0a000002) 10)].
Lemma nat_mappings_unique_witness :
  ∃ d e e', device_new 1 (text "R1") Router = Ok d ∧ nat_translations (run_device router_calls d) = [e; e']
    ∧ inside_local_address e = 0x0a000002 ∧ inside_local_address e' = 0x0a000003 ∧ inbound_key e ≠ inbound_key e'.
Proof.
  destruct (device_new 1 (text "R1") Router) as [d|err|] eqn:E; [|by vm_compute in E..].
  assert (H : (d ← device_new 1 (text "R1") Router;
    Ok (map (λ e, inside_local_address e) (nat_translations (run_device router_calls d))))
    = @Ok DeviceError _ [0x0a000002; 0x0a000003]) by by vm_compute.
  rewrite E, bind_Ok in H. apply Ok_inj in H.
  destruct (nat_translations (run_device router_calls d)) as [|e [|e' [|]]] eqn:Ht; try discriminate H.
  cbn in H. injection H as H1 H2. exists d, e, e'. split; [reflexivity|]. split; [exact Ht|]. split; [exact H1|]. split; [exact H2|].
  destruct (nat_mappings_unique 1 (text "R1") Router d router_calls E) as (_ & _ & Hu). cbv zeta in Hu. rewrite Ht in Hu.
  exact (proj2 (Hu 0%nat 1%nat e e' eq_refl eq_refl ltac:(discriminate))).
Defined.
