(* ===== verification/Lab.v ===== *)
(** The virtual lab (src/crates/rios-topology/src/lab.rs, lib.rs, qos.rs,
    delivery.rs and network/lacp.rs): the devices and the cables between them,
    the clock and the frames on their way.

    [Lab] has the fields that decide what the lab does; captured and traced
    packets, which only record it, are left out, and so are the state of pings
    and of the protocols above Ethernet. Those protocols enter through
    [Protocols]: what they do with a frame a device accepts, and whether a
    device runs BGP. *)
From S2P Require Import Prelude State Text Wire Decimal EventQueue Ipv4 Ethernet Switching Collections Config Inventory Device Interfaces Stp Switch QosPolicy DhcpServer.
From S2P Require Link Qos Dhcp.

(** ** The lab *)

Record InterfaceRef := { ref_device : DeviceId; ref_interface : InterfaceId }.
#[export] Instance InterfaceRef_eq_dec : EqDecision InterfaceRef.
Proof. solve_decision. Defined.
#[export] Instance InterfaceRef_countable : Countable InterfaceRef.
Proof.
  refine (inj_countable' (λ r, (ref_device r, ref_interface r)) (λ '(d, i), {| ref_device := d; ref_interface := i |}) _).
  by intros [].
Defined.
Definition ref_code (r : InterfaceRef) : list Z := [ref_device r; ref_interface r].
Abbreviation LinkId := Z.

(** A cable. *)
Record Link := {
  link_id : LinkId; endpoint_a : InterfaceRef; endpoint_b : InterfaceRef; cable_state : LinkState; delay_ms : Z;
  link_config : Link.LinkConfig; a_to_b : Link.DirectionalLinkRuntime; b_to_a : Link.DirectionalLinkRuntime;
  link_active : bool; generation : Z
}.
#[export] Instance Link_eta : Eta Link := λ k,
  {| link_id := link_id k; endpoint_a := endpoint_a k; endpoint_b := endpoint_b k; cable_state := cable_state k;
     delay_ms := delay_ms k; link_config := link_config k; a_to_b := a_to_b k; b_to_a := b_to_a k;
     link_active := link_active k; generation := generation k |}.

Inductive SimulationEvent :=
| QosTransmit (source : InterfaceRef) (epoch : Z)
| BgpTimer (device : DeviceId) (generation : Z)
| Ipv6Timer (device : DeviceId) (generation : Z)
| TcpTick (device : DeviceId)
| FrameReceived (link : LinkId) (generation : Z) (interface : InterfaceRef) (frame : EthernetFrame) (source : InterfaceRef)
    (lost : bool)
| LinkStateChanged (link : LinkId) (state : LinkState)
| TimerExpired (timer : Z)
| OspfHello (device : DeviceId) (generation : Z)
| StpHello (device : DeviceId) (generation : Z)
| DhcpClient (device : DeviceId) (generation : Z)
| LacpTick (device : DeviceId)
| DhcpProbe (interface : InterfaceRef) (xid : Z)
| DhcpRenew (interface : InterfaceRef) (deadline : SimTime)
| DhcpLeaseExpired (device : DeviceId) (interface : InterfaceId) (address : Ipv4Addr) (deadline : SimTime).

(** The errors of the operations below. *)
Inductive LabError :=
| InvalidTopology | UnknownDevice | UnknownEndpoint | UnknownLink (link : LinkId) | Dropped (reason : DropReason)
| DeviceFailed (e : DeviceError) | ScheduleFailed (e : ScheduleError) | Capacity.

Record QosPortRuntime := {
  runtime_profile : QosProfile; runtime_link : LinkId; runtime_generation : Z; runtime_capacity : Z;
  queue : Qos.QosScheduler EthernetFrame; wakes : gmap SimTime Z
}.
#[export] Instance QosPortRuntime_eta : Eta QosPortRuntime := λ r,
  {| runtime_profile := runtime_profile r; runtime_link := runtime_link r; runtime_generation := runtime_generation r;
     runtime_capacity := runtime_capacity r; queue := queue r; wakes := wakes r |}.

Record Lab := {
  qos_queues : gmap InterfaceRef QosPortRuntime; qos_epoch : Z; bgp_generations : gmap DeviceId Z;
  ipv6_generations : gmap DeviceId Z; ospf_generations : gmap DeviceId Z; stp_generations : gmap DeviceId Z;
  dhcp_generations : gmap DeviceId Z; lacp_timers : gset DeviceId; rng : Z; next_link_id : LinkId;
  devices : gmap DeviceId Device; names : gmap bytes DeviceId; links : gmap LinkId Link;
  ports : gmap InterfaceRef LinkId; events : EventQueue SimulationEvent;
  dhcp_transactions : gmap InterfaceRef Z; dhcp_probes : gmap InterfaceRef Dhcp.DhcpMessage
}.
#[export] Instance Lab_eta : Eta Lab := λ s,
  {| qos_queues := qos_queues s; qos_epoch := qos_epoch s; bgp_generations := bgp_generations s;
     ipv6_generations := ipv6_generations s; ospf_generations := ospf_generations s; stp_generations := stp_generations s;
     dhcp_generations := dhcp_generations s; lacp_timers := lacp_timers s; rng := rng s; next_link_id := next_link_id s;
     devices := devices s; names := names s; links := links s; ports := ports s; events := events s;
     dhcp_transactions := dhcp_transactions s; dhcp_probes := dhcp_probes s |}.
Definition with_seed (seed : Z) : Lab :=
  {| qos_queues := ∅; qos_epoch := 0; bgp_generations := ∅; ipv6_generations := ∅; ospf_generations := ∅;
     stp_generations := ∅; dhcp_generations := ∅; lacp_timers := ∅; rng := seed; next_link_id := 0; devices := ∅;
     names := ∅; links := ∅; ports := ∅; events := EventQueue_default; dhcp_transactions := ∅; dhcp_probes := ∅ |}.

Abbreviation lab_op := (stateful Lab LabError).

(** ** Reaching into the lab *)

(** [self.now()]. *)
Definition lab_now (s : Lab) : SimTime := EventQueue.now (events s).
Definition device (id : DeviceId) : lab_op Device := require (λ s, devices s !! id) UnknownDevice.
(** A method on the device [id], looked up with [get_mut]; [missing] is what the
    code does without the device. *)
Definition on_device {A} (missing : res LabError A) (id : DeviceId) (m : op A) : lab_op A := λ s,
  match devices s !! id with
  | None => (missing, s)
  | Some d => let '(r, d') := m d in (map_err DeviceFailed r, s <| devices ::= insert id d' |>)
  end.
(** The same for a method that cannot fail. *)
Definition update_device {A} (missing : res LabError A) (id : DeviceId) (f : Device → A * Device) : lab_op A :=
  on_device missing id (λ d, (Ok (f d).1, (f d).2)).
Definition schedule (t : SimTime) (e : SimulationEvent) : lab_op () := λ s,
  let '(q, r) := schedule_at (events s) t e in (map_err ScheduleFailed r, s <| events := q |>).
Definition schedule_in (delay_ms : Z) (e : SimulationEvent) : lab_op () := λ s,
  let '(q, r) := schedule_after (events s) delay_ms e in (map_err ScheduleFailed r, s <| events := q |>).
Definition sample : lab_op Z := λ s, let '(state, v) := Link.rng_sample (rng s) in (Ok v, s <| rng := state |>).
(** [for x in l { f(x)?; }]. *)
Fixpoint for_each {A} (l : list A) (f : A → lab_op ()) : lab_op () :=
  match l with [] => mret () | x :: l => f x;; for_each l f end.
(** [match m { Ok(()) | Err(LabError::Dropped(_)) => Ok(()), other => other }]. *)
Definition ignore_drop (m : lab_op ()) : lab_op () := λ s,
  match m s with (Err (Dropped _), s) => (Ok (), s) | other => other end.

(** The direction of a cable a port sends in. *)
Definition outgoing (k : Link) (source : InterfaceRef) : Link.DirectionalLinkRuntime :=
  if bool_decide (endpoint_a k = source) then a_to_b k else b_to_a k.
Definition set_outgoing (source : InterfaceRef) (f : Link.DirectionalLinkRuntime → Link.DirectionalLinkRuntime) (k : Link) : Link :=
  if bool_decide (endpoint_a k = source) then k <| a_to_b ::= f |> else k <| b_to_a ::= f |>.
Definition with_link_counters (f : Link.LinkCounters → Link.LinkCounters) (r : Link.DirectionalLinkRuntime) :
    Link.DirectionalLinkRuntime :=
  {| Link.finishes := Link.finishes r; Link.last_arrival := Link.last_arrival r; Link.counters := f (Link.counters r) |}.
(** [self.ports.get(&source).and_then(|id| self.links.get(id))]. *)
Definition cable_at (s : Lab) (source : InterfaceRef) : option Link := l ← ports s !! source; links s !! l.
Definition cable_rate (s : Lab) (source : InterfaceRef) : option Z := k ← cable_at s source; Link.bandwidth (link_config k).
Definition put_link (k : Link) : Lab → Lab := λ s, s <| links ::= insert (link_id k) k |>.

(** Addresses and times of the control traffic (rios-switching). *)
Definition STP_MULTICAST : MacAddress := [0x01; 0x80; 0xc2; 0x00; 0x00; 0x00].
Definition LACP_MULTICAST : MacAddress := [0x01; 0x80; 0xc2; 0x00; 0x00; 0x02].
Definition LACP_ETHERTYPE : Z := 0x8809.
Definition STP_HELLO_MS : Z := 2000.

(** ** Queues of the ports (qos.rs) *)

#[export] Instance RateLimit_eq_dec : EqDecision Qos.RateLimit.
Proof. solve_decision. Defined.
#[export] Instance QueueClassConfig_eq_dec : EqDecision Qos.QueueClassConfig.
Proof. solve_decision. Defined.
#[export] Instance QosProfileClass_eq_dec : EqDecision QosProfileClass.
Proof. solve_decision. Defined.
#[export] Instance QosProfile_eq_dec : EqDecision QosProfile.
Proof. solve_decision. Defined.

Definition qos_drop (source : InterfaceRef) (reason : DropReason) : lab_op () :=
  on_device (Err (Dropped DropNoLink)) (ref_device source) (record_drop_reason (ref_interface source) reason);;
  modify (λ s,
    match ports s !! source with
    | Some l => if bool_decide (reason = DropQueueFull)
                then s <| links ::= alter (set_outgoing source (with_link_counters Link.count_queue_drop)) l |>
                else s
    | None => s
    end).

(** Why the queue of [source] is dropped, if it is. *)
Definition stale_reason (s : Lab) (source : InterfaceRef) (r : QosPortRuntime) : option DropReason :=
  let link := cable_at s source in
  if is_none_or link (λ k, negb (link_id k =? runtime_link r) || negb (generation k =? runtime_generation r))
  then Some DropLinkChanged
  else
    let profile := d ← devices s !! ref_device source; qos_profile d (ref_interface source) (cable_rate s source) in
    if negb (bool_decide (profile = Some (runtime_profile r)))
       || is_some_and link (λ k, negb (Link.queue_packets (link_config k) =? runtime_capacity r))
    then Some DropQosPolicyChanged
    else None.
Definition drop_queue (e : InterfaceRef * DropReason) : lab_op () :=
  found ← gets (λ s, qos_queues s !! e.1);
  match found with
  | None => mret ()
  | Some r =>
      modify (λ s, s <| qos_queues ::= delete e.1 |>);;
      for_each (Qos.drain (queue r)).2 (λ _, qos_drop e.1 e.2)
  end.
Definition refresh_qos : lab_op () :=
  stale ← gets (λ s, omap (λ e, reason ← stale_reason s e.1 e.2; Some (e.1, reason)) (entries ref_code (qos_queues s)));
  for_each stale drop_queue.

(** ** Carrier (lab.rs) *)

Definition port_enabled (s : Lab) (e : InterfaceRef) : bool :=
  is_some_and (d ← devices s !! ref_device e; configs d !! ref_interface e) (λ c, bool_decide (admin_state c = AdminUp)).
Definition set_carrier (state : LinkState) (e : InterfaceRef) : lab_op () :=
  on_device (Err UnknownDevice) (ref_device e) (set_link_state (ref_interface e) state).
Definition refresh_carrier (l : LinkId) : lab_op () :=
  found ← gets (λ s, links s !! l);
  match found with
  | None => mret ()
  | Some k =>
      active ← gets (λ s, bool_decide (cable_state k = LinkUp) && port_enabled s (endpoint_a k) && port_enabled s (endpoint_b k));
      (if Bool.eqb active (link_active k) then mret ()
       else
         next ← lift (ok_or (checked_add U64_MAX (generation k) 1) Capacity);
         modify (λ s, s <| links ::= insert l (k <| generation := next |> <| link_active := active |>
                                                 <| a_to_b ::= Link.reset |> <| b_to_a ::= Link.reset |>) |>));;
      for_each [endpoint_a k; endpoint_b k] (set_carrier (if active : bool then LinkUp else LinkDown))
  end.
Definition refresh_carriers : lab_op () :=
  ids ← gets (λ s, (items (links s)).*1);
  for_each ids refresh_carrier;;
  switches ← gets (λ s, (items (devices s)).*1);
  for_each switches (λ id, on_device (Ok ()) id refresh_svi_states_checked);;
  refresh_qos.

(** ** Timers of the protocols (lab.rs, network/) *)

(** [generation += 1], then an event that carries the new generation. *)
Definition schedule_generation (get : Lab → gmap DeviceId Z) (set : gmap DeviceId Z → Lab → Lab) (id : DeviceId)
    (t : SimTime) (e : Z → SimulationEvent) : lab_op () :=
  old ← gets (λ s, default 0 (get s !! id));
  modify (λ s, set (<[id := old]> (get s)) s);;
  next ← lift (ok_or (checked_add U64_MAX old 1) Capacity);
  modify (λ s, set (<[id := next]> (get s)) s);;
  schedule t (e next).
Definition schedule_ospf_at (id : DeviceId) (deadline : SimTime) : lab_op () :=
  d ← device id;
  match ospf_process (running_config d) with
  | None => mret ()
  | Some _ => schedule_generation ospf_generations (λ m s, s <| ospf_generations := m |>) id deadline (OspfHello id)
  end.
Definition schedule_ospf_now (id : DeviceId) : lab_op () := now ← gets lab_now; schedule_ospf_at id now.
Definition schedule_stp_now (id : DeviceId) : lab_op () :=
  d ← device id;
  now ← gets lab_now;
  if negb (supports_switching d) then mret ()
  else schedule_generation stp_generations (λ m s, s <| stp_generations := m |>) id now (StpHello id).
Definition has_ipv6 (d : Device) : bool := existsb (λ c, active (ipv6 c)) (values (configs d)).

(** The protocols above Ethernet (network/, except lacp.rs) are parameters: what
    they do when a device accepts a frame or one of their timers expires is a
    program of the calls they make of the lab. They look at it, call methods of
    a device, send frames, schedule events, and keep tables of their own; each
    result goes to the rest of the program. *)
Inductive protocol_program :=
| Finish (r : res LabError ())
| Inspect (k : Lab → protocol_program)
| EditDevice (id : DeviceId) (f : Device → Device) (k : protocol_program)
| SendFrame (source : InterfaceRef) (frame : EthernetFrame) (k : res LabError () → protocol_program)
| Schedule (t : SimTime) (e : SimulationEvent) (k : res LabError () → protocol_program)
| KeepTables (ospf ipv6 bgp dhcp : gmap DeviceId Z) (transactions : gmap InterfaceRef Z)
    (probes : gmap InterfaceRef Dhcp.DhcpMessage) (k : protocol_program).
Class Protocols := {
  has_bgp : Device → bool;
  handle_protocol_frame : InterfaceRef → EthernetFrame → protocol_program;
  handle_timer : SimulationEvent → protocol_program
}.

Section lab.
Context `{Protocols}.

Definition schedule_ipv6_at (id : DeviceId) (deadline : SimTime) : lab_op () :=
  d ← device id;
  if negb (has_ipv6 d) then mret ()
  else schedule_generation ipv6_generations (λ m s, s <| ipv6_generations := m |>) id deadline (Ipv6Timer id).
Definition schedule_ipv6_now (id : DeviceId) : lab_op () := now ← gets lab_now; schedule_ipv6_at id now.
Definition schedule_bgp_at (id : DeviceId) (deadline : SimTime) : lab_op () :=
  d ← device id;
  if negb (has_bgp d) then mret ()
  else schedule_generation bgp_generations (λ m s, s <| bgp_generations := m |>) id deadline (BgpTimer id).
Definition schedule_bgp_now (id : DeviceId) : lab_op () := now ← gets lab_now; schedule_bgp_at id now.
Definition schedule_dhcp_now (id : DeviceId) : lab_op () :=
  old ← gets (λ s, default 0 (dhcp_generations s !! id));
  modify (λ s, s <| dhcp_generations ::= insert id old |>);;
  next ← lift (ok_or (checked_add U64_MAX old 1) Capacity);
  modify (λ s, s <| dhcp_generations ::= insert id next |>
                 <| dhcp_probes ::= filter (λ e, ref_device e.1 ≠ id) |>
                 <| dhcp_transactions ::= filter (λ e, ref_device e.1 ≠ id) |>);;
  d ← device id;
  now ← gets lab_now;
  if negb (has_pending_dhcp_client d) then mret () else schedule now (DhcpClient id next).
Definition schedule_lacp (id : DeviceId) : lab_op () :=
  d ← device id;
  waiting ← gets (λ s, bool_decide (id ∈ lacp_timers s));
  now ← gets lab_now;
  if negb (has_lacp d) || waiting : bool then mret ()
  else modify (λ s, s <| lacp_timers ::= union {[id]} |>);; schedule now (LacpTick id).

(** ** Devices of the lab (lab.rs) *)

Definition name_char_invalid (c : Z) : bool := is_whitespace c || is_control c || (c =? 58).
Definition add_device (name : bytes) (d : Device) : lab_op () :=
  reject_if (λ _, bool_decide (name = []) || existsb name_char_invalid name) InvalidTopology;;
  reject_if (λ s, bool_decide (is_Some (names s !! name)) || bool_decide (is_Some (devices s !! Device.id d))) InvalidTopology;;
  '(r, d) ← gets (λ _, foldl (λ '(r, d) i,
                          match r with Ok _ => set_link_state i LinkDown d | _ => (r, d) end) (Ok (), d) (items (interfaces d)).*1);
  lift (map_err DeviceFailed r);;
  modify (λ s, s <| names ::= insert name (Device.id d) |> <| devices ::= insert (Device.id d) d |>);;
  schedule_lacp (Device.id d);;
  schedule_stp_now (Device.id d);;
  schedule_dhcp_now (Device.id d).

(** The names of generated ports, counted for each kind. *)
Definition port_prefix (m : InterfaceMedia) : option bytes :=
  match m with
  | Rj45 | Sfp => Some (text "GigabitEthernet0/")
  | SfpPlus => Some (text "TenGigabitEthernet0/")
  | MediaSerial => Some (text "Serial0/")
  | MediaConsole => Some (text "Console")
  | Virtual => None
  end.
Fixpoint add_ports (l : list InterfaceMedia) (counts : gmap bytes Z) (d : Device) : res LabError Device :=
  match l with
  | [] => Ok d
  | m :: l =>
      prefix ← ok_or (port_prefix m) InvalidTopology;
      let n := default 0 (counts !! prefix) in
      let '(r, d) := add_port (prefix ++ to_string n) m d in
      map_err DeviceFailed r;;
      add_ports l (<[prefix := n + 1]> counts) d
  end.
Definition spawn_device_with_ports (name : bytes) (type : DeviceType) (l : list (InterfaceMedia * Z)) : lab_op DeviceId :=
  total ← lift (foldl (λ total e, total ← total; ok_or (checked_add U64_MAX total e.2) Capacity) (Ok 0) l);
  reject_if (λ _, (total =? 0) || (4096 <? total)) InvalidTopology;;
  id ← try_gets (λ s, match last (items (devices s)) with
                      | None => Ok 1
                      | Some (id, _) => ok_or (checked_add U32_MAX id 1) Capacity
                      end);
  d ← lift (map_err DeviceFailed (device_new id name type));
  d ← lift (add_ports (l ≫= λ e, replicate (Z.to_nat e.2) e.1) ∅ d);
  add_device name d;;
  mret id.
Definition spawn_device (name : bytes) (type : DeviceType) (ports : Z) : lab_op DeviceId :=
  spawn_device_with_ports name type [(Rj45, ports)].

(** Whether an edit replaces an interface: its identity, kind, address or name.
    The old configuration is indexed without a check. *)
Definition replaced {E : Type} (old new : Device) (e : InterfaceId * Interface) : res E bool :=
  match interfaces new !! e.1 with
  | None => Ok true
  | Some i =>
      if negb ((interface_id i =? interface_id e.2) && bool_decide (kind i = kind e.2)
               && bool_decide (mac_address i = mac_address e.2)) then Ok true
      else
        match configs new !! e.1, configs old !! e.1 with
        | None, _ => Ok true
        | Some c, Some before => Ok (negb (bool_decide (name c = name before)))
        | Some _, None => Panic
        end
  end.
Definition with_device_mut {A} (id : DeviceId) (edit : Device → A * Device) : lab_op A :=
  old ← device id;
  let '(result, new) := edit old in
  reject_if (λ _, negb ((Device.id new =? id) && bool_decide (device_type new = device_type old))) InvalidTopology;;
  try_reject_if (λ _, try_any (replaced old new) (items (interfaces old))) InvalidTopology;;
  unplugged ← gets (λ s, filter (λ i, ports s !! {| ref_device := id; ref_interface := i |} = None) (items (interfaces new)).*1);
  '(r, new) ← gets (λ _, foldl (λ '(r, d) i,
                          match r with Ok _ => set_link_state i LinkDown d | _ => (r, d) end) (Ok (), new) unplugged);
  lift (map_err DeviceFailed r);;
  modify (λ s, s <| devices ::= insert id new |>);;
  refresh_carriers;;
  schedule_lacp id;;
  schedule_ospf_now id;;
  schedule_ipv6_now id;;
  schedule_bgp_now id;;
  schedule_stp_now id;;
  schedule_dhcp_now id;;
  mret result.

(** ** Cables (lab.rs) *)

Definition check_endpoint (e : InterfaceRef) : lab_op () :=
  d ← device (ref_device e);
  i ← lift (ok_or (interfaces d !! ref_interface e) UnknownEndpoint);
  reject_if (λ _, negb (is_ethernet (kind i))) InvalidTopology;;
  reject_if (λ s, bool_decide (is_Some (ports s !! e))) InvalidTopology.
Definition port_media (e : InterfaceRef) : lab_op InterfaceMedia :=
  d ← device (ref_device e);
  lift (match interfaces d !! ref_interface e with Some i => Ok (media i) | None => Panic end).
Definition connect_configured (a b : InterfaceRef) (config : Link.LinkConfig) : lab_op LinkId :=
  lift (map_err (λ _, InvalidTopology) (Link.validate config));;
  reject_if (λ _, bool_decide (a = b)) InvalidTopology;;
  for_each [a; b] check_endpoint;;
  media_a ← port_media a;
  media_b ← port_media b;
  reject_if (λ _, negb (bool_decide (media_a = media_b))) InvalidTopology;;
  id ← try_gets (λ s, ok_or (checked_add U64_MAX (next_link_id s) 1) Capacity);
  modify (λ s, s <| next_link_id := id |>
    <| links ::= insert id {| link_id := id; endpoint_a := a; endpoint_b := b; cable_state := LinkUp;
         delay_ms := Link.delay_us config `div` 1000; link_config := config; a_to_b := Link.Runtime_default;
         b_to_a := Link.Runtime_default; link_active := false; generation := 0 |} |>
    <| ports ::= insert a id |> <| ports ::= insert b id |>);;
  refresh_carriers;;
  mret id.
Definition connect (a b : InterfaceRef) (delay_ms : Z) : lab_op LinkId :=
  delay ← lift (ok_or (checked_mul U64_MAX delay_ms 1000) (ScheduleFailed Overflow));
  connect_configured a b {| Link.bandwidth := Link.bandwidth Link.LinkConfig_default; Link.delay_us := delay;
    Link.jitter_us := Link.jitter_us Link.LinkConfig_default; Link.loss_ppm := Link.loss_ppm Link.LinkConfig_default;
    Link.queue_packets := Link.queue_packets Link.LinkConfig_default |}.
Definition disconnect (id : LinkId) : lab_op () :=
  k ← require (λ s, links s !! id) (UnknownLink id);
  modify (λ s, s <| links ::= delete id |> <| ports ::= delete (endpoint_a k) |> <| ports ::= delete (endpoint_b k) |>);;
  for_each [endpoint_a k; endpoint_b k] (set_carrier LinkDown);;
  refresh_carriers.
Definition set_cable_state (id : LinkId) (state : LinkState) : lab_op () :=
  k ← require (λ s, links s !! id) (UnknownLink id);
  modify (λ s, s <| links ::= insert id (k <| cable_state := state |>) |>);;
  refresh_carriers.
Definition schedule_link_state (id : LinkId) (state : LinkState) (time : SimTime) : lab_op () :=
  reject_if (λ s, negb (bool_decide (is_Some (links s !! id)))) (UnknownLink id);;
  schedule time (LinkStateChanged id state).
Definition schedule_timer (timer delay_ms : Z) : lab_op () := schedule_in delay_ms (TimerExpired timer).

(** ** Sending (delivery.rs, qos.rs) *)

(** Why the cable of [source] refuses a frame, if it does. *)
Definition refusal (s : Lab) (source : InterfaceRef) (d : Device) (frame : EthernetFrame) : option DropReason :=
  match ports s !! source with
  | None => Some DropNoLink
  | Some l =>
      if is_some_and (links s !! l) (λ k, bool_decide (cable_state k = LinkDown)) then Some DropLinkDown
      else check_frame d (ref_interface source) frame false
  end.
Definition refuse (source : InterfaceRef) (missing : res LabError ()) (reason : DropReason) : lab_op () :=
  on_device missing (ref_device source) (record_drop_reason (ref_interface source) reason);;
  fail (Dropped reason).
Definition transmit_on_link (source : InterfaceRef) (frame : EthernetFrame) : lab_op () :=
  d ← device (ref_device source);
  lift (ok_or (interfaces d !! ref_interface source) UnknownEndpoint);;
  check ← gets (λ s, refusal s source d frame);
  match check with
  | Some reason => refuse source Panic reason
  | None =>
      now ← gets lab_now;
      jitter ← sample;
      loss ← sample;
      k ← require (λ s, cable_at s source) (Dropped DropNoLink);
      let target := if bool_decide (endpoint_a k = source) then endpoint_b k else endpoint_a k in
      let '(r, admission) := Link.link_admit (outgoing k source) (link_config k) now (frame_len frame) jitter loss in
      modify (λ s, s <| links ::= alter (set_outgoing source (λ _, r)) (default 0 (ports s !! source)) |>);;
      admission ← lift (map_err ScheduleFailed admission);
      match admission with
      | Link.Full => refuse source (Err (Dropped DropNoLink)) DropQueueFull
      | Link.Scheduled arrival lost =>
          schedule arrival (FrameReceived (link_id k) (generation k) target frame source lost);;
          on_device Panic (ref_device source) (record_frame (ref_interface source) (frame_len frame) false)
      end
  end.

Definition put_runtime (source : InterfaceRef) (r : QosPortRuntime) : lab_op () :=
  modify (λ s, s <| qos_queues ::= insert source r |>).
Definition first_wake (r : QosPortRuntime) : option SimTime := fst <$> head (items (wakes r)).
Definition schedule_qos (source : InterfaceRef) : lab_op () :=
  now ← gets lab_now;
  cable ← gets (λ s, cable_at s source);
  runtime ← gets (λ s, qos_queues s !! source);
  match cable, runtime with
  | Some k, Some r =>
      let available := Link.available_at (outgoing k source) now in
      let '(q, ready) := Qos.next_ready (queue r) now in
      let r := r <| queue := q |> in
      put_runtime source r;;
      ready ← lift (map_err ScheduleFailed ready);
      match ready with
      | None => mret ()
      | Some ready =>
          let at_ := Z.max ready available in
          if is_some_and (first_wake r) (λ deadline, deadline <=? at_) then mret ()
          else
            epoch ← try_gets (λ s, ok_or (checked_add U64_MAX (qos_epoch s) 1) Capacity);
            modify (λ s, s <| qos_epoch := epoch |>);;
            schedule at_ (QosTransmit source epoch);;
            put_runtime source (r <| wakes ::= insert at_ epoch |>)
      end
  | _, _ => mret ()
  end.

(** Control traffic is not checked again when it leaves a queue. *)
Definition inner_type (f : EthernetFrame) : EtherType :=
  if bool_decide (ethertype f = Dot1Q) && (4 <=? len (payload f))
  then EtherType_from_u16 (nth 2 (payload f) 0 * 256 + nth 3 (payload f) 0)
  else ethertype f.
Definition is_control_frame (f : EthernetFrame) : bool :=
  (bool_decide (destination f = STP_MULTICAST) && match inner_type f with Length _ => true | _ => false end)
  || (bool_decide (destination f = LACP_MULTICAST) && bool_decide (inner_type f = Other 0x8809)).
Definition egress_blocked (d : Device) (port : InterfaceId) (f : EthernetFrame) : option DropReason :=
  let logical := default port (channel_interface d port) in
  if is_switchport d logical && negb (is_control_frame f) then
    match classify_switch_ingress d logical f with
    | Some (vlan, _) => if stp_forwarding d logical vlan then None else Some DropStpBlocking
    | None => Some DropVlanFiltered
    end
  else None.
Definition service_qos (source : InterfaceRef) : lab_op () :=
  now ← gets lab_now;
  cable ← gets (λ s, cable_at s source);
  match cable with
  | None => mret ()
  | Some k =>
      runtime ← gets (λ s, qos_queues s !! source);
      match runtime with
      | Some r =>
          if Link.available_at (outgoing k source) now <=? now then
            let '(q, departure) := Qos.dequeue_ready (queue r) now in
            put_runtime source (r <| queue := q |>);;
            match departure with
            | None => mret ()
            | Some departure =>
                d ← device (ref_device source);
                match egress_blocked d (ref_interface source) (Qos.dep_packet departure) with
                | Some reason => qos_drop source reason
                | None => ignore_drop (transmit_on_link source (Qos.dep_packet departure))
                end
            end
          else mret ()
      | None => mret ()
      end;;
      schedule_qos source
  end.
Definition qos_timer (source : InterfaceRef) (epoch : Z) : lab_op () :=
  now ← gets lab_now;
  runtime ← gets (λ s, qos_queues s !! source);
  match runtime with
  | None => mret ()
  | Some r =>
      if negb (bool_decide (wakes r !! now = Some epoch)) then mret ()
      else put_runtime source (r <| wakes ::= delete now |>);; service_qos source
  end.

Definition reject_reason (r : Qos.QueueRejectReason) : DropReason :=
  match r with
  | Qos.QueueFull => DropQueueFull
  | Qos.Policed => DropQosPoliced
  | Qos.PriorityExceeded => DropQosPriorityExceeded
  | Qos.ShapeBurstExceeded => DropQosBurstExceeded
  | Qos.UnknownClass => DropQosPolicyChanged
  end.
Definition port_runtime (source : InterfaceRef) (profile : QosProfile) (k : Link) : lab_op QosPortRuntime :=
  existing ← gets (λ s, qos_queues s !! source);
  match existing with
  | Some r => mret r
  | None =>
      now ← gets lab_now;
      q ← lift (map_err (λ _, DeviceFailed InvalidQosConfig)
                  (Qos.scheduler_new (class_scheduling <$> profile_classes profile) (Link.queue_packets (link_config k)) now));
      let r := {| runtime_profile := profile; runtime_link := link_id k; runtime_generation := generation k;
                  runtime_capacity := Link.queue_packets (link_config k); queue := q; wakes := ∅ |} in
      put_runtime source r;; mret r
  end.
Definition enqueue_qos (source : InterfaceRef) (profile : QosProfile) (frame : EthernetFrame) : lab_op () :=
  cable ← gets (λ s, cable_at s source);
  match cable with
  | None => qos_drop source DropNoLink;; fail (Dropped DropNoLink)
  | Some k =>
      now ← gets lab_now;
      d ← device (ref_device source);
      class ← lift (ok_or (qos_classify d (profile_id profile) frame) (DeviceFailed InvalidQosConfig));
      r ← port_runtime source profile k;
      let '(q, result) := Qos.enqueue (queue r) class now frame (frame_len frame) (Link.queued (outgoing k source) now) in
      put_runtime source (r <| queue := q |>);;
      match result with
      | Ok _ => service_qos source
      | Err rejected =>
          let reason := reject_reason (Qos.reason rejected) in
          qos_drop source reason;; fail (Dropped reason)
      | Panic => lift Panic
      end
  end.
Definition transmit (source : InterfaceRef) (frame : EthernetFrame) : lab_op () :=
  d ← device (ref_device source);
  rate ← gets (λ s, cable_rate s source);
  match qos_profile d (ref_interface source) rate with
  | Some profile =>
      match check_frame d (ref_interface source) frame false with
      | Some reason => qos_drop source reason;; fail (Dropped reason)
      | None => enqueue_qos source profile frame
      end
  | None => transmit_on_link source frame
  end.

Definition transmit_protocol (source : InterfaceRef) (frame : EthernetFrame) : lab_op () :=
  d ← device (ref_device source);
  if is_port_channel d (ref_interface source) then
    match channel_egress d (ref_interface source) frame with
    | None => on_device (Err (Dropped DropNoLink)) (ref_device source) (record_drop_reason (ref_interface source) DropChannelInactive)
    | Some member =>
        on_device (Err (Dropped DropNoLink)) (ref_device source) (record_frame (ref_interface source) (frame_len frame) false);;
        ignore_drop (transmit {| ref_device := ref_device source; ref_interface := member |} frame)
    end
  else ignore_drop (transmit source frame).
(** A frame of [vlan] to several ports of a switch. *)
Definition transmit_each (id : DeviceId) (l : list (InterfaceId * EthernetFrame)) : lab_op () :=
  for_each l (λ e, transmit_protocol {| ref_device := id; ref_interface := e.1 |} e.2).
Definition has_cable (s : Lab) (id : DeviceId) (port : InterfaceId) : bool :=
  bool_decide (is_Some (ports s !! {| ref_device := id; ref_interface := port |})).
(** The ports a switch sends a frame of its own to. The frames of all of them are
    prepared first: [prepare_switch_egress] reads what sending does not change. *)
Definition flood_port (d : Device) (connected : InterfaceId → bool) (vlan : VlanId) (learned : option MacEntry) (port : InterfaceId) :
    bool :=
  is_none_or learned (λ e, entry_interface e =? port) && protocol_up d port && stp_forwarding d port vlan
  && bool_decide (channel_interface d port = None) && (is_port_channel d port || connected port).
Definition flood (connected : InterfaceId → bool) (vlan : VlanId) (frame : EthernetFrame) (now : SimTime) (d : Device) :
    list (InterfaceId * EthernetFrame) * Device :=
  let '(learned, d) := lookup_for vlan frame now (refresh_spanning_tree now d) in
  (omap (λ port, f ← prepare_switch_egress d port vlan frame; Some (port, f))
     (filter (λ port, flood_port d connected vlan learned port = true) (items (interfaces d)).*1), d).
Definition transmit_network_frame (source : InterfaceRef) (frame : EthernetFrame) : lab_op () :=
  let id := ref_device source in
  d ← device id;
  if is_some_and (configs d !! ref_interface source) (λ c, bool_decide (is_Some (parent c))) then
    match subinterface_egress d (ref_interface source) frame with
    | None => on_device (Err (Dropped DropNoLink)) id (record_drop_reason (ref_interface source) DropInterfaceDown)
    | Some (p, wire) =>
        on_device (Err (Dropped DropNoLink)) id (record_frame (ref_interface source) (frame_len frame) false);;
        transmit_protocol {| ref_device := id; ref_interface := p |} wire
    end
  else
    match svi_vlan d (ref_interface source) with
    | None => transmit_protocol source frame
    | Some vlan =>
        if negb (protocol_up d (ref_interface source)) then refuse source Panic DropInterfaceDown
        else
          now ← gets lab_now;
          connected ← gets (λ s, has_cable s id);
          egress ← update_device Panic id (flood connected vlan frame now);
          transmit_each id egress;;
          on_device Panic id (record_frame (ref_interface source) (frame_len frame) false)
    end.

(** What the calls of a protocol do to the lab. *)
Fixpoint run_protocol (p : protocol_program) : lab_op () := λ s,
  match p with
  | Finish r => (r, s)
  | Inspect k => run_protocol (k s) s
  | EditDevice id f k => run_protocol k (s <| devices ::= alter f id |>)
  | SendFrame source frame k => let '(r, s) := transmit_network_frame source frame s in run_protocol (k r) s
  | Schedule t e k => let '(r, s) := schedule t e s in run_protocol (k r) s
  | KeepTables ospf ipv6 bgp dhcp transactions probes k =>
      run_protocol k (s <| ospf_generations := ospf |> <| ipv6_generations := ipv6 |> <| bgp_generations := bgp |>
                        <| dhcp_generations := dhcp |> <| dhcp_transactions := transactions |> <| dhcp_probes := probes |>)
  end.

(** ** Receiving (delivery.rs, network/lacp.rs) *)

Definition port_mac (source : InterfaceRef) : lab_op MacAddress :=
  d ← device (ref_device source);
  lift (match interfaces d !! ref_interface source with Some i => Ok (mac_address i) | None => Panic end).
Definition send_lacp (source : InterfaceRef) (p : Lacpdu) : lab_op () :=
  mac ← port_mac source;
  payload ← lift (match lacp_encode p with Ok payload => Ok payload | _ => Panic end);
  transmit_network_frame source
    {| destination := LACP_MULTICAST; Ethernet.source := mac; ethertype := Other LACP_ETHERTYPE; payload := payload |}.
Definition lacp_timer (id : DeviceId) : lab_op () :=
  modify (λ s, s <| lacp_timers ::= λ t, t ∖ {[id]} |>);;
  now ← gets lab_now;
  packets ← update_device (Err (Dropped DropNoLink)) id (lacp_tick now);
  for_each packets (λ e, send_lacp {| ref_device := id; ref_interface := e.1 |} e.2);;
  d ← device id;
  waiting ← gets (λ s, bool_decide (id ∈ lacp_timers s));
  if negb (has_lacp d) || waiting : bool then mret ()
  else
    modify (λ s, s <| lacp_timers ::= union {[id]} |>);;
    schedule_in 1000 (LacpTick id).
Definition handle_lacp_frame (port : InterfaceRef) (frame : EthernetFrame) : lab_op bool :=
  if negb (bool_decide (ethertype frame = Other LACP_ETHERTYPE)) || negb (bool_decide (destination frame = LACP_MULTICAST))
  then mret false
  else
    match lacp_decode (payload frame) with
    | Ok p =>
        now ← gets lab_now;
        response ← update_device (Err (Dropped DropNoLink)) (ref_device port) (receive_lacp (ref_interface port) p now);
        match response with Some response => send_lacp port response | None => mret () end;;
        mret true
    | Err _ => mret true
    | Panic => lift Panic
    end.

Definition send_bpdu (id : DeviceId) (e : InterfaceId * VlanId * StpBpdu) : lab_op () :=
  let '(port, vlan, packet) := e in
  let source := {| ref_device := id; ref_interface := port |} in
  payload ← lift (match stp_encode packet with Ok payload => Ok payload | _ => Panic end);
  mac ← port_mac source;
  d ← device id;
  match prepare_switch_egress d port vlan
          {| destination := STP_MULTICAST; Ethernet.source := mac; ethertype := Length (len payload `mod` 65536); payload := payload |} with
  | Some frame => transmit_protocol source frame
  | None => mret ()
  end.
Definition emit_stp_bpdus (id : DeviceId) : lab_op () :=
  now ← gets lab_now;
  packets ← update_device (Err (Dropped DropNoLink)) id (stp_packets now);
  for_each packets (send_bpdu id).
Definition send_stp_bpdus (id : DeviceId) (g : Z) : lab_op () :=
  current ← gets (λ s, stp_generations s !! id);
  if negb (bool_decide (current = Some g)) then mret ()
  else
    emit_stp_bpdus id;;
    now ← gets lab_now;
    next ← lift (ok_or (checked_add U64_MAX now (STP_HELLO_MS * 1000)) Capacity);
    schedule next (StpHello id g).

Definition forward_frame (ingress : InterfaceRef) (vlan : VlanId) (frame : EthernetFrame) : lab_op () :=
  now ← gets lab_now;
  connected ← gets (λ s, has_cable s (ref_device ingress));
  egress ← on_device Panic (ref_device ingress) (Switch.forward_switch_frame connected (ref_interface ingress) vlan frame now);
  transmit_each (ref_device ingress) egress.
(** A frame of a VLAN that spanning tree lets through: to the switch itself, and
    on. *)
Definition accept_switch_frame (ingress : InterfaceRef) (vlan : VlanId) (frame : EthernetFrame) : lab_op () :=
  d ← device (ref_device ingress);
  match active_svi d vlan with
  | None => forward_frame ingress vlan frame
  | Some svi =>
      let svi := {| ref_device := ref_device ingress; ref_interface := svi |} in
      local_mac ← port_mac svi;
      (if bool_decide (destination frame = local_mac) || is_multicast (destination frame)
       then run_protocol (handle_protocol_frame svi frame) else mret ());;
      if bool_decide (destination frame = local_mac) then mret () else forward_frame ingress vlan frame
  end.
Definition handle_switch_frame (ingress : InterfaceRef) (frame : EthernetFrame) : lab_op () :=
  d ← device (ref_device ingress);
  match classify_switch_ingress d (ref_interface ingress) frame with
  | None => mret ()
  | Some (vlan, frame) =>
      now ← gets lab_now;
      if bool_decide (destination frame = STP_MULTICAST) then
        match stp_decode (payload frame) with
        | Ok p =>
            changed ← update_device (Err (Dropped DropNoLink)) (ref_device ingress) (receive_stp_packet (ref_interface ingress) vlan p now);
            if changed : bool then emit_stp_bpdus (ref_device ingress) else mret ()
        | Err _ => mret ()
        | Panic => lift Panic
        end
      else
        forwarding ← update_device (Err (Dropped DropNoLink)) (ref_device ingress) (λ d,
          let d := refresh_spanning_tree now d in (stp_forwarding d (ref_interface ingress) vlan, d));
        if negb forwarding then
          on_device Panic (ref_device ingress)
            (learning ← gets (λ d, stp_learning d (ref_interface ingress) vlan);
             (if learning : bool then learn_mac vlan (source frame) (ref_interface ingress) now else mret ());;
             record_drop_reason (ref_interface ingress) DropStpBlocking)
        else accept_switch_frame ingress vlan frame
  end.

Definition is_stp_frame (frame : EthernetFrame) : bool :=
  match (if bool_decide (ethertype frame = Dot1Q) then snd <$> ok (untagged frame) else Some frame) with
  | None => false
  | Some f => bool_decide (destination f = STP_MULTICAST) && bool_decide (is_Some (ok (stp_decode (payload f))))
  end.

Inductive EventOutcome :=
| OutcomeFrameReceived (interface : InterfaceRef) (frame : EthernetFrame)
| OutcomeFrameDropped (interface : InterfaceRef) (reason : DropReason)
| OutcomeLinkStateChanged (link : LinkId) (state : LinkState)
| OutcomeTimerExpired (timer : Z).

(** Whether the frame at the end of a cable is still good, and the counters of
    the cable. *)
Definition arrival_check (l : LinkId) (g : Z) (port : InterfaceRef) (frame : EthernetFrame) (lost : bool) : lab_op (option DropReason) :=
  current ← gets (λ s, is_some_and (links s !! l) (λ k, link_active k && (generation k =? g)));
  if negb current then mret (Some DropLinkChanged)
  else if lost then mret (Some DropSimulatedLoss)
  else d ← device (ref_device port); mret (check_frame d (ref_interface port) frame true).
Definition count_arrival (check : option DropReason) (length : Z) (c : Link.LinkCounters) : Link.LinkCounters :=
  {| Link.tx_packets := Link.tx_packets c; Link.tx_bytes := Link.tx_bytes c;
     Link.rx_packets := match check with None => sat_add U64_MAX (Link.rx_packets c) 1 | _ => Link.rx_packets c end;
     Link.rx_bytes := match check with None => sat_add U64_MAX (Link.rx_bytes c) length | _ => Link.rx_bytes c end;
     Link.queue_drops := Link.queue_drops c;
     Link.loss_drops := match check with
                        | Some DropSimulatedLoss => sat_add U64_MAX (Link.loss_drops c) 1
                        | _ => Link.loss_drops c
                        end;
     Link.changed_drops := match check with
                           | Some DropLinkChanged => sat_add U64_MAX (Link.changed_drops c) 1
                           | _ => Link.changed_drops c
                           end |}.
(** A frame its port accepts: to LACP, the switch, or the protocols above. *)
Definition accept_frame (port : InterfaceRef) (frame : EthernetFrame) : lab_op (option EventOutcome) :=
  let id := ref_device port in
  consumed ← handle_lacp_frame port frame;
  if consumed : bool then mret (Some (OutcomeFrameReceived port frame))
  else
    d ← device id;
    match channel_ingress d (ref_interface port) with
    | Err reason =>
        on_device (Err (Dropped reason)) id (record_drop_reason (ref_interface port) reason);;
        mret (Some (OutcomeFrameDropped port reason))
    | Panic => lift Panic
    | Ok logical =>
        (if logical =? ref_interface port then mret ()
         else on_device (Err (Dropped DropNoLink)) id (record_frame logical (frame_len frame) true));;
        d ← device id;
        (if is_switchport d logical then handle_switch_frame {| ref_device := id; ref_interface := logical |} frame
         else
           match routed_ingress d logical frame with
           | None => mret ()
           | Some (upper, inner) =>
               (if upper =? logical then mret ()
                else on_device (Err (Dropped DropNoLink)) id (record_frame upper (frame_len inner) true));;
               run_protocol (handle_protocol_frame {| ref_device := id; ref_interface := upper |} inner)
           end);;
        mret (if is_stp_frame frame then None else Some (OutcomeFrameReceived port frame))
    end.
Definition frame_received (l : LinkId) (g : Z) (port : InterfaceRef) (frame : EthernetFrame) (source : InterfaceRef)
    (lost : bool) : lab_op (option EventOutcome) :=
  check ← arrival_check l g port frame lost;
  modify (λ s, s <| links ::= alter (set_outgoing source (with_link_counters (count_arrival check (frame_len frame)))) l |>);;
  match check with
  | None =>
      on_device Panic (ref_device port) (record_frame (ref_interface port) (frame_len frame) true);;
      accept_frame port frame
  | Some reason =>
      on_device (Err UnknownDevice) (ref_device port) (record_drop_reason (ref_interface port) reason);;
      mret (Some (OutcomeFrameDropped port reason))
  end.

Definition handle_event (e : SimulationEvent) : lab_op (option EventOutcome) :=
  match e with
  | QosTransmit source epoch => qos_timer source epoch;; mret None
  | LacpTick id => lacp_timer id;; mret None
  | FrameReceived l g port frame source lost => frame_received l g port frame source lost
  | LinkStateChanged l state => set_cable_state l state;; mret (Some (OutcomeLinkStateChanged l state))
  | TimerExpired timer => mret (Some (OutcomeTimerExpired timer))
  | StpHello id g => send_stp_bpdus id g;; mret None
  | DhcpLeaseExpired id interface address deadline =>
      expired ← update_device (Err UnknownDevice) id (expire_dhcp_lease interface address deadline);
      (if expired : bool then schedule_dhcp_now id else mret ());;
      mret None
  | BgpTimer _ _ | Ipv6Timer _ _ | TcpTick _ | OspfHello _ _ | DhcpClient _ _ | DhcpProbe _ _ | DhcpRenew _ _ =>
      run_protocol (handle_timer e);; mret None
  end.
Definition lab_step : lab_op (option EventOutcome) := λ s,
  match step (events s) with
  | (q, None) => (Ok None, s <| events := q |>)
  | (q, Some ev) => handle_event (event ev) (s <| events := q |>)
  end.
(** The end of [Lab::run_until] and [Lab::advance_until], after the steps up to
    [time]. *)
Definition lab_advance (time : SimTime) : lab_op () := λ s,
  let '(q, r) := advance_to (events s) time in (map_err ScheduleFailed r, s <| events := q |>).
End lab.
