(* ===== verification/Wiring.v ===== *)
(** The invariant of a lab's cables, and that every operation of [Lab] keeps it.

    [lab_ok] says: every port of a cable is an Ethernet interface of a device,
    a cable is active when it is up and both its ends are enabled, its ends
    hear exactly that, and every frame on its way belongs to a cable that
    carries or to an older generation of it. [good] and [keeps] say of an
    operation that it keeps the invariant and that it moves the cables on
    ([evolves]): generations grow, and new frames go behind those on their way.
    They compose over the operations of the lab, whatever the protocols above
    Ethernet do through the calls of [protocol_program] as long as they are
    [well_behaved]. *)
From S2P Require Import Prelude State Text Wire Decimal Ipv4 Ethernet Switching Collections Config Inventory Device Interfaces Stp Switch QosPolicy DhcpServer EventQueue Lab.
From S2P Require Link Qos Dhcp.
From Stdlib Require Import Sorting.Permutation Sorting.Sorted.
From stdpp Require Import sorting.
#[local] Open Scope Z_scope.

(** ** The events of a queue in the order of their delivery *)

Section agenda.
Context {E : Type}.
Implicit Types (q : EventQueue E).

Definition agenda_le (a b : ScheduledEvent E) : Prop := ¬ key_lt b a.
#[local] Instance agenda_le_dec a b : Decision (agenda_le a b).
Proof. unfold agenda_le, key_lt. apply _. Defined.
#[local] Instance agenda_le_total : Total agenda_le.
Proof. intros a b. unfold agenda_le, key_lt. lia. Qed.
#[local] Instance agenda_le_trans : Transitive agenda_le.
Proof. intros a b c. unfold agenda_le, key_lt. lia. Qed.
Definition agenda q : list (SimTime * E) := (λ ev, (time ev, event ev)) <$> merge_sort agenda_le (pending q).
Definition queue_spec q : Spec.state E := Spec.mkState (now q) (next_sequence q) (agenda q).

Lemma sorted_unique (l l' : list (ScheduledEvent E)) :
  Permutation l l' → StronglySorted key_lt l → StronglySorted key_lt l' → l = l'.
Proof.
  revert l'. induction l as [|x l IH]; intros l' Hp Hl Hl'; [by apply Permutation_nil in Hp|].
  destruct l' as [|y l']; [by apply Permutation_sym, Permutation_nil in Hp|].
  apply StronglySorted_inv in Hl as [Hl Hx]. apply StronglySorted_inv in Hl' as [Hl' Hy].
  assert (x = y) as ->.
  { assert (Hxy : x ∈ y :: l') by (rewrite <-Hp; left). assert (Hyx : y ∈ x :: l) by (rewrite Hp; left).
    apply elem_of_cons in Hxy as [|Hxy]; [done|]. apply elem_of_cons in Hyx as [|Hyx]; [done|].
    rewrite Forall_forall in Hx, Hy. specialize (Hx _ Hyx). specialize (Hy _ Hxy). unfold key_lt in *. lia. }
  f_equal. apply IH; [by apply Permutation_cons_inv in Hp|done|done].
Qed.
Lemma sort_strict (l : list (ScheduledEvent E)) :
  NoDup (map sequence l) → StronglySorted key_lt (merge_sort agenda_le l).
Proof.
  intros Hn. assert (Hs : StronglySorted agenda_le (merge_sort agenda_le l)).
  { apply Sorted_StronglySorted; [apply _|]. apply Sorted_merge_sort. apply _. }
  assert (Hn' : NoDup (map sequence (merge_sort agenda_le l))) by (by rewrite merge_sort_Permutation).
  clear Hn. induction Hs as [|x m Hm IH Hx]; [constructor|]. cbn in Hn'. apply NoDup_cons in Hn' as [Hnot Hn'].
  constructor; [by apply IH|]. rewrite Forall_forall in *. intros y Hy. specialize (Hx y Hy).
  assert (sequence y ≠ sequence x) by (intros He; apply Hnot; rewrite <-He; by apply list_elem_of_fmap_2).
  unfold agenda_le, key_lt in *. lia.
Qed.

Lemma queue_refines q : queue_inv q → refines q (queue_spec q).
Proof.
  intros Hq. split; [done|]. split; [done|]. split; [done|]. exists (merge_sort agenda_le (pending q)).
  split; [by rewrite merge_sort_Permutation|]. split; [by apply sort_strict; destruct Hq as (_ & ? & _)|done].
Qed.
Lemma refines_spec q s : refines q s → s = queue_spec q ∧ queue_inv q.
Proof.
  intros (Hq & Hn & Hi & l & Hp & Hs & Ha). split; [|done]. destruct s as [c i a]. cbn in *. subst. unfold queue_spec, agenda.
  f_equal. f_equal. apply sorted_unique; [|done|by apply sort_strict; destruct Hq as (_ & ? & _)].
  by rewrite <-Hp, merge_sort_Permutation.
Qed.
Lemma schedule_at_agenda q t e :
  queue_inv q → queue_inv (schedule_at q t e).1 ∧ queue_spec (schedule_at q t e).1 = (Spec.schedule_at (queue_spec q) t e).1
    ∧ (schedule_at q t e).2 = (Spec.schedule_at (queue_spec q) t e).2.
Proof. intros [Hr [Hs Hq]%refines_spec]%(λ H, refines_schedule_at q _ t e (queue_refines q H)). by split_and!. Qed.
Lemma step_agenda q :
  queue_inv q → match step q with
  | (q', None) => q' = q ∧ agenda q = []
  | (q', Some ev) => queue_inv q' ∧ now q' = time ev ∧ agenda q = (time ev, event ev) :: agenda q' ∧ now q ≤ time ev
  end.
Proof.
  intros Hq. pose proof (queue_refines q Hq) as Hr. unfold step. destruct (heap_pop (pending q)) as [[m rest]|] eqn:Hp.
  - destruct (refines_pop _ _ _ _ Hr Hp) as (a & Ha & [Hs Hq']%refines_spec). apply (f_equal Spec.agenda) in Hs. cbn in Ha, Hs. subst a.
    split; [done|]. split; [done|]. split; [done|]. destruct Hq as [Hev _]. rewrite Forall_forall in Hev.
    apply heap_pop_spec in Hp as [Hperm _]. apply Hev. rewrite Hperm. left.
  - split; [done|]. by apply (refines_empty _ _ Hr) in Hp.
Qed.
Lemma agenda_pending q te : te ∈ agenda q ↔ ∃ ev, ev ∈ pending q ∧ te = (time ev, event ev).
Proof.
  unfold agenda. rewrite list_elem_of_fmap. split; intros (ev & ? & ?); exists ev; [|split];
    rewrite ?merge_sort_Permutation in *; naive_solver.
Qed.
End agenda.

(** ** The frames on their way *)

(** A direction of a cable: the end its frames leave, in one generation. *)
Record direction := { dir_link : LinkId; dir_generation : Z; dir_source : InterfaceRef }.
#[export] Instance direction_eq_dec : EqDecision direction.
Proof. solve_decision. Defined.
Definition travels (r : direction) (e : SimulationEvent) : bool :=
  match e with
  | FrameReceived l g _ _ source _ => bool_decide (r = {| dir_link := l; dir_generation := g; dir_source := source |})
  | _ => false
  end.
Definition is_frame (e : SimulationEvent) : Prop := match e with FrameReceived _ _ _ _ _ _ => True | _ => False end.
(** Their arrivals, in the order the queue delivers them. *)
Definition flying (r : direction) (l : list (SimTime * SimulationEvent)) : list SimulationEvent :=
  filter (λ e, travels r e = true) l.*2.
Definition flights (r : direction) (s : Lab) : list SimulationEvent := flying r (agenda (events s)).

Lemma flying_cons r t e l : flying r ((t, e) :: l) = if travels r e then e :: flying r l else flying r l.
Proof. unfold flying. rewrite fmap_cons, filter_cons. cbn [snd]. case_decide as H; [by rewrite H|]. by destruct (travels r e). Qed.
Lemma flying_insert_other r t e l : travels r e = false → flying r (Spec.insert t e l) = flying r l.
Proof.
  intros He. induction l as [|[t' e'] l IH]; cbn [Spec.insert]; [|destruct (t <? t')];
    by rewrite ?flying_cons, ?He, ?IH, ?flying_cons.
Qed.
Lemma flying_none r l : (∀ te, te ∈ l → travels r te.2 = false) → flying r l = [].
Proof.
  induction l as [|[t e] l IH]; intros Hl; [done|]. pose proof (Hl (t, e) (list_elem_of_here _ _)) as He. cbn in He. rewrite flying_cons, He. apply IH. intros te Hte. apply Hl. by right.
Qed.
Lemma flying_insert_last r t e l :
  StronglySorted (λ a b : SimTime * SimulationEvent, a.1 ≤ b.1) l → (∀ te, te ∈ l → travels r te.2 = true → te.1 ≤ t) →
  travels r e = true → flying r (Spec.insert t e l) = flying r l ++ [e].
Proof.
  intros Hs Hl He. induction Hs as [|[t' e'] l Hs IH Hle]; cbn [Spec.insert]; [by rewrite flying_cons, He|].
  destruct (Z.ltb_spec t t') as [Ht|Ht].
  - rewrite flying_cons, He, (flying_none r ((t', e') :: l)); [done|]. intros te Hte.
    destruct (travels r te.2) eqn:E; [|done]. specialize (Hl te Hte E). apply elem_of_cons in Hte as [->|Hte]; [cbn in *; lia|].
    rewrite Forall_forall in Hle. specialize (Hle te Hte). cbn in *. lia.
  - rewrite !flying_cons, IH; [by destruct (travels r e')|]. intros te Hte. apply Hl. by right.
Qed.
Lemma agenda_sorted (q : EventQueue SimulationEvent) : queue_inv q → StronglySorted (λ a b : SimTime * SimulationEvent, a.1 ≤ b.1) (agenda q).
Proof.
  intros (_ & Hn & _). pose proof (sort_strict (pending q) Hn) as Hs. unfold agenda.
  induction Hs as [|x l _ IH Hx]; cbn; constructor; [done|]. rewrite Forall_forall in Hx. apply Forall_forall. intros te (ev & -> & Hev)%list_elem_of_fmap.
  specialize (Hx ev Hev). unfold key_lt in Hx. cbn. lia.
Qed.
(** What scheduling an event does to the frames of a direction. *)
Lemma flying_schedule r q t e :
  queue_inv q →
  (travels r e = true → ∀ ev, ev ∈ pending q → travels r (event ev) = true → time ev ≤ t) →
  flying r (agenda (schedule_at q t e).1)
  = flying r (agenda q) ++ (match (schedule_at q t e).2 with Ok _ => if travels r e then [e] else [] | _ => [] end).
Proof.
  intros Hq Hlast. destruct (schedule_at_agenda q t e Hq) as (_ & Hs & Hr). apply (f_equal Spec.agenda) in Hs. cbn in Hs. rewrite Hs, Hr.
  unfold Spec.schedule_at. destruct (t <? _); [by rewrite app_nil_r|]. destruct (U64_MAX <=? _); cbn [fst snd Spec.agenda]; [by rewrite app_nil_r|].
  destruct (travels r e) eqn:E; [|by rewrite flying_insert_other, app_nil_r].
  apply flying_insert_last; [by apply agenda_sorted| |done]. intros te (ev & Hev & ->)%agenda_pending. by apply Hlast.
Qed.

(** ** The invariant *)

(** The carrier of an Ethernet port, and whether it is enabled. *)
Definition port_view (d : Device) (i : InterfaceId) : option (LinkState * bool) :=
  x ← interfaces d !! i;
  if is_ethernet (kind x)
  then Some (link_state x, is_some_and (configs d !! i) (λ c, bool_decide (admin_state c = AdminUp))) else None.
Definition view (s : Lab) (e : InterfaceRef) : option (LinkState * bool) := d ← devices s !! ref_device e; port_view d (ref_interface e).
Definition endpoint (k : Lab.Link) (e : InterfaceRef) : Prop := e = endpoint_a k ∨ e = endpoint_b k.
Definition signal (active : bool) : LinkState := if active then LinkUp else LinkDown.

Record link_good (s : Lab) (l : LinkId) (k : Lab.Link) : Prop := {
  good_id : link_id k = l ∧ 1 ≤ l ≤ next_link_id s;
  good_ends : endpoint_a k ≠ endpoint_b k ∧ ∀ e, endpoint k e → ports s !! e = Some l ∧ is_Some (view s e);
  good_config : Link.config_ok (link_config k) ∧ Link.link_inv (link_config k) (a_to_b k) ∧ Link.link_inv (link_config k) (b_to_a k)
}.
(** A frame on its way: sent into one end of its cable, towards the other; a
    frame of the current generation is on a cable that carries, and no frame
    sent earlier in its direction arrives later. *)
Definition flight_ok (s : Lab) (t : SimTime) (e : SimulationEvent) : Prop :=
  match e with
  | FrameReceived l g port _ source _ =>
      l ≤ next_link_id s ∧ ∀ k, links s !! l = Some k →
        (source = endpoint_a k ∧ port = endpoint_b k ∨ source = endpoint_b k ∧ port = endpoint_a k)
        ∧ g ≤ generation k ∧ (g = generation k → link_active k = true ∧ t ≤ Link.last_arrival (outgoing k source))
  | _ => True
  end.
Record wired (s : Lab) : Prop := {
  wired_queue : queue_inv (events s) ∧ 0 ≤ lab_now s;
  wired_next : 0 ≤ next_link_id s;
  wired_links : ∀ l k, links s !! l = Some k → link_good s l k;
  wired_ports : ∀ e l, ports s !! e = Some l → ∃ k, links s !! l = Some k ∧ endpoint k e;
  wired_flights : ∀ ev, ev ∈ pending (events s) → flight_ok s (time ev) (event ev)
}.
Definition unplugged (s : Lab) : Prop := ∀ e v, view s e = Some v → ports s !! e = None → v.1 = LinkDown.
(** A cable is active when it is up and both ends are enabled, and its ends
    hear it. *)
Definition carried (s : Lab) (k : Lab.Link) : Prop :=
  link_active k = bool_decide (cable_state k = LinkUp) && port_enabled s (endpoint_a k) && port_enabled s (endpoint_b k)
  ∧ ∀ e v, endpoint k e → view s e = Some v → v.1 = signal (link_active k).
Record lab_ok (s : Lab) : Prop := {
  ok_wired : wired s;
  ok_unplugged : unplugged s;
  ok_carried : ∀ l k, links s !! l = Some k → carried s k
}.

(** Cables only move on: a cable that was there is the same cable, and every
    change of whether it carries has a generation of its own. *)
Record moves_on (s s' : Lab) : Prop := {
  moves_next : next_link_id s ≤ next_link_id s';
  moves_links : ∀ l k', l ≤ next_link_id s → links s' !! l = Some k' →
    ∃ k, links s !! l = Some k ∧ generation k ≤ generation k' ∧ (generation k = generation k' → link_active k = link_active k')
}.
#[export] Instance moves_on_preorder : PreOrder moves_on.
Proof.
  split.
  - intros s. split; [done|]. intros l k _ Hk. by exists k.
  - intros s1 s2 s3 [Hn1 H1] [Hn2 H2]. split; [lia|]. intros l k3 Hl Hk3.
    destruct (H2 l k3) as (k2 & Hk2 & Hg2 & Ha2); [lia|done|]. destruct (H1 l k2) as (k1 & Hk1 & Hg1 & Ha1); [done..|].
    exists k1. split; [done|]. split; [lia|]. intros He. rewrite Ha1, Ha2; [done|lia..].
Qed.
(** And new frames go behind those that are on their way. *)
Record evolves (s s' : Lab) : Prop := {
  evolves_moves : moves_on s s';
  evolves_flights : queue_inv (events s) → queue_inv (events s') ∧ ∀ r, flights r s `prefix_of` flights r s'
}.
#[export] Instance evolves_preorder : PreOrder evolves.
Proof.
  split; [by intros s; split|]. intros s1 s2 s3 [M1 F1] [M2 F2]. split; [by transitivity s2|].
  intros [Hq2 P2]%F1. destruct (F2 Hq2) as [Hq3 P3]. split; [done|]. intros r. by transitivity (flights r s2).
Qed.
(** Operations that leave the queue alone. *)
Lemma evolves_intro s s' :
  next_link_id s ≤ next_link_id s' →
  (∀ l k', l ≤ next_link_id s → links s' !! l = Some k' →
    ∃ k, links s !! l = Some k ∧ generation k ≤ generation k' ∧ (generation k = generation k' → link_active k = link_active k')) →
  events s' = events s → evolves s s'.
Proof. intros Hn Hl He. split; [by split|]. unfold flights. by rewrite He. Qed.

(** Operations that leave the cables as they are, counters and reservations
    apart, and send no frame. *)
Definition runtime_grows (c : Link.LinkConfig) (r r' : Link.DirectionalLinkRuntime) : Prop :=
  (Link.config_ok c → Link.link_inv c r → Link.link_inv c r') ∧ Link.last_arrival r ≤ Link.last_arrival r'.
#[export] Instance runtime_grows_preorder c : PreOrder (runtime_grows c).
Proof. split; [by split|]. intros r1 r2 r3 [? ?] [? ?]. split; [auto|lia]. Qed.
Record link_same (k k' : Lab.Link) : Prop := {
  same_id : link_id k' = link_id k;
  same_ends : endpoint_a k' = endpoint_a k ∧ endpoint_b k' = endpoint_b k;
  same_state : cable_state k' = cable_state k ∧ link_active k' = link_active k ∧ generation k' = generation k;
  same_config : link_config k' = link_config k;
  same_a : runtime_grows (link_config k) (a_to_b k) (a_to_b k');
  same_b : runtime_grows (link_config k) (b_to_a k) (b_to_a k')
}.
#[export] Instance link_same_preorder : PreOrder link_same.
Proof.
  split; [by intros k; split|]. intros k1 k2 k3 [? [] (? & ? & ?) C1 A1 B1] [? [] (? & ? & ?) C2 A2 B2].
  split; [congruence|split; congruence|split_and!; congruence|congruence|..]; rewrite C1 in *; by etransitivity.
Qed.
Record calm (s s' : Lab) : Prop := {
  calm_links : ∀ l, option_Forall2 link_same (links s !! l) (links s' !! l);
  calm_ports : ports s' = ports s ∧ next_link_id s' = next_link_id s;
  calm_views : ∀ e, view s' e = view s e ∧ port_enabled s' e = port_enabled s e;
  calm_queue : queue_inv (events s) → queue_inv (events s') ∧ ∀ r, flights r s' = flights r s;
  calm_events : lab_now s ≤ lab_now s' ∧ ∀ ev, ev ∈ pending (events s') → ev ∈ pending (events s) ∨ ¬ is_frame (event ev)
}.
#[export] Instance calm_preorder : PreOrder calm.
Proof.
  split.
  - intros s. split; try done. split; [done|]. by left.
  - intros s1 s2 s3 [L1 [P1 N1] V1 Q1 [T1 E1]] [L2 [P2 N2] V2 Q2 [T2 E2]]. split.
    + intros l. by transitivity (links s2 !! l).
    + split; congruence.
    + intros e. destruct (V1 e), (V2 e). split; congruence.
    + intros [Hq2 F1]%Q1. destruct (Q2 Hq2) as [Hq3 F2]. split; [done|]. intros r. congruence.
    + split; [lia|]. intros ev [He|He]%E2; [by apply E1|by right].
Qed.
Lemma link_same_outgoing k k' e : link_same k k' → Link.last_arrival (outgoing k e) ≤ Link.last_arrival (outgoing k' e).
Proof. intros [_ [Ha _] _ _ [] []]. unfold outgoing. rewrite Ha. by case_bool_decide. Qed.
Lemma calm_back s s' l k' : calm s s' → links s' !! l = Some k' → ∃ k, links s !! l = Some k ∧ link_same k k'.
Proof. intros Hc Hk. pose proof (calm_links _ _ Hc l) as Hl. rewrite Hk in Hl. inv Hl. eauto. Qed.
Lemma calm_evolves s s' : calm s s' → evolves s s'.
Proof.
  intros Hc. destruct (calm_ports _ _ Hc) as [_ Hn]. split; [split; [lia|]|].
  - intros l k' _ Hk'. destruct (calm_back _ _ _ _ Hc Hk') as (k & Hk & [_ _ (_ & Ha & Hg) _ _ _]).
    exists k. split; [done|]. split; [lia|done].
  - intros [Hq F]%(calm_queue _ _ Hc). split; [done|]. intros r. by rewrite F.
Qed.
Lemma calm_wired s s' : calm s s' → wired s → wired s'.
Proof.
  intros Hc [[Hq Hnow] Hn Hl Hp Hf]. pose proof Hc as [L [P N] V Q [T E]]. split.
  - split; [by apply Q|lia].
  - lia.
  - intros l k' (k & Hk & Hs)%(calm_back _ _ _ _ Hc). destruct (Hl l k Hk) as [[I1 I2] [E1 E2] (C1 & C2 & C3)].
    pose proof Hs as [Hid [Ha Hb] _ Hcfg [A1 _] [B1 _]]. split; [rewrite Hid, N; split; [done|lia]| |rewrite Hcfg; auto].
    unfold endpoint in *. rewrite Ha, Hb. split; [done|]. intros e He. rewrite P. destruct (V e) as [-> _]. auto.
  - intros e l Hel. rewrite P in Hel. destruct (Hp e l Hel) as (k & Hk & He). specialize (L l). rewrite Hk in L. inv L as [? k' Hs|].
    exists k'. split; [done|]. destruct Hs as [_ [Ha Hb] _ _ _ _]. unfold endpoint. by rewrite Ha, Hb.
  - intros ev [He|He]%E; [|by destruct (event ev)]. specialize (Hf ev He). unfold flight_ok in *.
    destruct (event ev) as [| | | |l g port f src lost| | | | | | | | |]; try done. destruct Hf as [Hlt Hf]. split; [lia|].
    intros k' (k & Hk & Hs)%(calm_back _ _ _ _ Hc). pose proof (link_same_outgoing _ _ src Hs).
    destruct Hs as [_ [-> ->] (_ & -> & ->) _ _ _]. destruct (Hf k Hk) as (? & ? & Hcur). split_and!; [done|done|].
    intros [? ?]%Hcur. split; [done|lia].
Qed.
Lemma calm_ok s s' : calm s s' → lab_ok s → lab_ok s'.
Proof.
  intros Hc [Hw Hu Hk]. split; [by apply (calm_wired s)| |]; pose proof Hc as [L [P N] V _ _].
  - intros e v Hv Hpo. destruct (V e) as [Hve _]. rewrite Hve in Hv. rewrite P in Hpo. by apply (Hu e).
  - intros l k' (k & Hk' & [_ [Ha Hb] (Hst & Hact & _) _ _ _])%(calm_back _ _ _ _ Hc). destruct (Hk l k Hk') as [C1 C2].
    unfold carried, endpoint in *. rewrite Ha, Hb, Hst, Hact. destruct (V (endpoint_a k)) as [_ ->], (V (endpoint_b k)) as [_ ->].
    split; [done|]. intros e v He Hv. destruct (V e) as [Hve _]. rewrite Hve in Hv. by apply (C2 e).
Qed.

(** ** Operations that keep the invariant *)

Definition good {A} (m : lab_op A) : Prop :=
  ∀ s, lab_ok s → evolves s (m s).2 ∧ ((m s).1 = Err Capacity ∨ lab_ok (m s).2).
Definition calms {A} (m : lab_op A) : Prop := ∀ s, 0 ≤ lab_now s → calm s (m s).2.

(** The same whatever the result. *)
Definition keeps {A} (m : lab_op A) : Prop := ∀ s, lab_ok s → evolves s (m s).2 ∧ lab_ok (m s).2.
Lemma good_keeps {A} (m : lab_op A) : keeps m → good m.
Proof. intros Hm s Hs. destruct (Hm s Hs). split; [done|by right]. Qed.
Lemma keeps_calms {A} (m : lab_op A) : calms m → keeps m.
Proof.
  intros Hm s Hs. assert (0 ≤ lab_now s) as H0 by apply (wired_queue s (ok_wired s Hs)). specialize (Hm s H0).
  split; [by apply calm_evolves|by apply (calm_ok s)].
Qed.
Lemma keeps_bind {A B} (m : lab_op A) (k : A → lab_op B) : keeps m → (∀ a, keeps (k a)) → keeps (m ≫= k).
Proof.
  intros Hm Hk s Hs. destruct (Hm s Hs) as [H1 Hs1]. rewrite run_bind. destruct (m s) as [[a|e|] s1]; cbn in *; [|done..].
  destruct (Hk a s1 Hs1) as [H2 Hs2]. split; [by transitivity s1|done].
Qed.
Lemma keeps_for_each {A} (l : list A) (f : A → lab_op ()) : (∀ x, keeps (f x)) → keeps (for_each l f).
Proof.
  intros Hf. induction l as [|x l IH]; [|by apply keeps_bind]. intros s Hs. by split.
Qed.
Lemma keeps_ignore_drop (m : lab_op ()) : keeps m → keeps (ignore_drop m).
Proof. intros Hm s Hs. specialize (Hm s Hs). unfold ignore_drop. by destruct (m s) as [[|[]|] s1]. Qed.
Lemma good_calms {A} (m : lab_op A) : calms m → good m.
Proof. intros Hm. by apply good_keeps, keeps_calms. Qed.
Lemma good_bind {A B} (m : lab_op A) (k : A → lab_op B) : good m → (∀ a, good (k a)) → good (m ≫= k).
Proof.
  intros Hm Hk s Hs. specialize (Hm s Hs). rewrite run_bind. destruct (m s) as [[a|e|] s1]; cbn in *.
  - destruct Hm as (H1 & [|Hs1]); [done|]. destruct (Hk a s1 Hs1) as [H2 H3]. split; [by transitivity s1|done].
  - destruct Hm as (H1 & [|Hs1]); (split; [done|]); [left; congruence|by right].
  - destruct Hm as (H1 & [|Hs1]); (split; [done|]); [done|by right].
Qed.
Lemma calms_bind {A B} (m : lab_op A) (k : A → lab_op B) : calms m → (∀ a, calms (k a)) → calms (m ≫= k).
Proof.
  intros Hm Hk s Hs. specialize (Hm s Hs). rewrite run_bind. destruct (m s) as [[a|e|] s1]; cbn in *; [|done..].
  transitivity s1; [done|]. apply Hk. destruct Hm as [_ _ _ _ []]. lia.
Qed.
Lemma calms_reads {A} (m : lab_op A) : reads m → calms m.
Proof. intros Hm s _. by rewrite Hm. Qed.
Lemma calms_for_each {A} (l : list A) (f : A → lab_op ()) : (∀ x, calms (f x)) → calms (for_each l f).
Proof. intros Hf. induction l as [|x l IH]; [by apply calms_reads|]. by apply calms_bind. Qed.
Lemma good_for_each {A} (l : list A) (f : A → lab_op ()) : (∀ x, good (f x)) → good (for_each l f).
Proof. intros Hf. induction l as [|x l IH]; [by apply good_calms, calms_reads|]. by apply good_bind. Qed.
Lemma calms_modify f : (∀ s, 0 ≤ lab_now s → calm s (f s)) → calms (modify f).
Proof. intros H s Hs. by apply H. Qed.
(** What no cable depends on. *)
Lemma calm_fields s s' :
  links s' = links s → ports s' = ports s → next_link_id s' = next_link_id s → devices s' = devices s → events s' = events s →
  calm s s'.
Proof.
  intros Hl Hp Hn Hd He. split; unfold lab_now, flights; rewrite ?Hl, ?Hp, ?He; [done|done| |done|split; [done|by left]].
  intros e. unfold view, port_enabled. by rewrite Hd.
Qed.
Lemma calms_fields f :
  (∀ s, links (f s) = links s ∧ ports (f s) = ports s ∧ next_link_id (f s) = next_link_id s ∧ devices (f s) = devices s
        ∧ events (f s) = events s) → calms (modify f).
Proof. intros H. apply calms_modify. intros s _. destruct (H s) as (? & ? & ? & ? & ?). by apply calm_fields. Qed.
Lemma calms_schedule t e : ¬ is_frame e → calms (schedule t e).
Proof.
  intros He s _. unfold schedule. destruct (schedule_at (events s) t e) as [q r] eqn:E. cbn.
  assert (Hq : queue_inv (events s) → queue_inv q ∧ ∀ d, flying d (agenda q) = flying d (agenda (events s))).
  { intros H. replace q with (schedule_at (events s) t e).1 by (by rewrite E). split; [by apply schedule_at_agenda|].
    intros d. assert (Ht : travels d e = false) by (by destruct e; try done; destruct He).
    rewrite flying_schedule, Ht by (done || congruence). destruct (schedule_at (events s) t e).2; by rewrite app_nil_r. }
  split; try done. unfold lab_now. cbn. unfold schedule_at in E. destruct (t <? now (events s)); [by simplify_eq; split; [done|left]|].
  destruct (checked_add _ _ _); simplify_eq; cbn; (split; [done|]); [|by left].
  intros ev [->|]%elem_of_cons; [by right|by left].
Qed.
Lemma calms_schedule_in d e : ¬ is_frame e → calms (schedule_in d e).
Proof.
  intros He s H0. unfold schedule_in, schedule_after. destruct (checked_mul _ _ _) as [x|]; [|by destruct s].
  destruct (checked_add _ _ x) as [t|]; [|by destruct s]. by apply (calms_schedule t e).
Qed.
Lemma calms_sample : calms sample.
Proof. intros s _. unfold sample. destruct (Link.rng_sample (rng s)). by apply calm_fields. Qed.

(** Device operations that leave carriers and administrative states alone. *)
Definition same_ports (d d' : Device) : Prop :=
  ∀ i, port_view d' i = port_view d i
       ∧ is_some_and (configs d' !! i) (λ c, bool_decide (admin_state c = AdminUp))
         = is_some_and (configs d !! i) (λ c, bool_decide (admin_state c = AdminUp)).
#[export] Instance same_ports_preorder : PreOrder same_ports.
Proof. split; [done|]. intros d1 d2 d3 H1 H2 i. destruct (H1 i), (H2 i). split; congruence. Qed.
Definition quiet {A} (m : op A) : Prop := ∀ d, same_ports d (m d).2.
Lemma quiet_bind {A B} (m : op A) (k : A → op B) : quiet m → (∀ a, quiet (k a)) → quiet (m ≫= k).
Proof.
  intros Hm Hk d. specialize (Hm d). rewrite run_bind. destruct (m d) as [[a|e|] d1]; cbn in *; [|done..].
  transitivity d1; [done|]. apply Hk.
Qed.
Lemma quiet_reads {A} (m : op A) : reads m → quiet m.
Proof. intros Hm d. by rewrite Hm. Qed.
Lemma quiet_modify f : (∀ d, same_ports d (f d)) → quiet (modify f).
Proof. done. Qed.
Lemma same_ports_bases d d' : bases d' = bases d → same_ports d d'.
Proof. unfold bases. intros [= Hi Hc] i. unfold port_view, configs. by rewrite Hi, Hc. Qed.
Lemma calm_device s id d d' :
  devices s !! id = Some d → same_ports d d' → calm s (s <| devices ::= insert id d' |>).
Proof.
  intros Hd Hp. split; try done; [|split; [done|by left]]. intros [j i]. unfold view, port_enabled. cbn.
  destruct (decide (j = id)) as [->|]; [|by rewrite lookup_insert_ne]. rewrite lookup_insert_eq, Hd. cbn. apply Hp.
Qed.
Lemma calms_on_device {A} (missing : res LabError A) id (m : op A) : quiet m → calms (on_device missing id m).
Proof.
  intros Hm s _. unfold on_device. destruct (devices s !! id) as [d|] eqn:E; [|done]. specialize (Hm d).
  destruct (m d) as [r d']. by apply (calm_device _ _ d).
Qed.
Lemma calms_update_device {A} (missing : res LabError A) id (f : Device → A * Device) :
  (∀ d, same_ports d (f d).2) → calms (update_device missing id f).
Proof. intros Hf. apply calms_on_device. intros d. apply Hf. Qed.

Lemma quiet_counters id f : quiet (update_counters id f).
Proof.
  intros d. unfold update_counters. rewrite run_require. destruct (interfaces d !! id) as [x|] eqn:E; [|done].
  intros i. split; [|done]. unfold port_view, configs. cbn.
  destruct (decide (i = id)) as [->|]; [by rewrite lookup_insert_eq, E|by rewrite lookup_insert_ne].
Qed.
Lemma quiet_drop id reason : quiet (record_drop_reason id reason).
Proof. apply quiet_bind; [|intros _]; apply quiet_counters. Qed.
Lemma quiet_frame id n b : quiet (record_frame id n b).
Proof. apply quiet_counters. Qed.
Lemma same_ports_svi d : same_ports d (refresh_svi_states d).
Proof.
  intros i. split; [|done]. unfold port_view, refresh_svi_states, configs. cbn. rewrite map_lookup_imap.
  destruct (interfaces d !! i) as [x|]; [|done]. cbn. case_bool_decide as Hk; [|done]. cbn. by rewrite Hk.
Qed.
#[export] Hint Resolve quiet_counters quiet_drop quiet_frame same_ports_svi : lab.
#[export] Hint Extern 1 (same_ports ?d ?d) => reflexivity : lab.
(** The operations of spanning tree, LACP, DHCP and the address table. *)
Lemma same_ports_refresh now d : same_ports d (refresh_spanning_tree now d).
Proof. apply same_ports_bases, refresh_bases. Qed.
Lemma bases_recompute vlan ports now d : bases (recompute_stp_instance vlan ports now d) = bases d.
Proof. apply recompute_device. Qed.
Lemma bases_update vlan f d : bases (update_instance vlan f d) = bases d.
Proof. done. Qed.
Lemma same_ports_bpdu i vlan p now d : same_ports d (receive_stp_packet i vlan p now d).2.
Proof.
  unfold receive_stp_packet. destruct (stp_ports d !! vlan) as [members|]; [|done]. destruct (negb _); [done|].
  destruct (bpdu_guard _).
  { cbn. unfold shut_guarded, forget_macs. etransitivity; [|apply same_ports_svi]. by apply same_ports_bases. }
  destruct (bridge_id d vlan) as [bridge|]; [|done]. destruct (_ =? bridge); [done|]. cbn [snd]. apply same_ports_bases.
  match goal with |- bases (if ?c then _ else _) = _ => destruct c end;
    by rewrite ?bases_recompute, ?bases_update, ?bases_recompute, ?bases_update, ?refresh_bases.
Qed.
Lemma same_ports_lacp id p now d : same_ports d (receive_lacp id p now d).2.
Proof.
  unfold receive_lacp. destruct (lacp_actor_with _ _ _); [|done]. destruct (negb _); [done|]. cbn.
  etransitivity; [|apply same_ports_svi]. by apply same_ports_bases.
Qed.
Lemma same_ports_tick now d : same_ports d (lacp_tick now d).2.
Proof. unfold lacp_tick. cbn. etransitivity; [|apply same_ports_svi]. by apply same_ports_bases. Qed.
Lemma same_ports_expire i a t d : same_ports d (expire_dhcp_lease i a t d).2.
Proof. unfold expire_dhcp_lease. destruct (is_some_and _ _); [by apply same_ports_bases|done]. Qed.
Lemma same_ports_lookup vlan f now d : same_ports d (lookup_for vlan f now d).2.
Proof.
  unfold lookup_for, mac_lookup. destruct (is_multicast _); [done|]. destruct (mac_table d !! _); [|done].
  destruct (_ <=? _); [by apply same_ports_bases|done].
Qed.
Lemma quiet_learn vlan a i now : quiet (learn_mac vlan a i now).
Proof.
  unfold learn_mac. apply quiet_bind; [apply quiet_reads, reads_reject_if|]. intros _ d. cbn.
  destruct (_ && _); [by apply same_ports_bases|done].
Qed.
Lemma same_ports_flood connected vlan f now d : same_ports d (flood connected vlan f now d).2.
Proof.
  unfold flood. pose proof (same_ports_lookup vlan f now (refresh_spanning_tree now d)) as H.
  destruct (lookup_for _ _ _ _) as [e d']. cbn in *. etransitivity; [apply same_ports_refresh|done].
Qed.
Lemma quiet_forward connected i vlan f now : quiet (Switch.forward_switch_frame connected i vlan f now).
Proof.
  unfold Switch.forward_switch_frame. apply quiet_bind; [by apply quiet_reads|]. intros [].
  - apply quiet_bind; [apply quiet_drop|]. by intros _.
  - apply quiet_bind; [apply quiet_learn|]. intros _. apply quiet_bind; [|by intros ?; apply quiet_reads].
    intros d. pose proof (same_ports_lookup vlan f now d) as H. by destruct (lookup_for _ _ _ _).
Qed.
#[export] Hint Resolve same_ports_refresh same_ports_bpdu same_ports_lacp same_ports_tick same_ports_expire same_ports_flood
  quiet_learn quiet_forward : lab.

(** [calm_steps] goes through an operation that is calm, [good_steps] through
    one that is good. *)
Ltac lab_step tac :=
  match goal with
  | |- _ (match ?x with _ => _ end) => destruct x
  | |- _ (if ?x then _ else _) => destruct x
  | |- ∀ _, _ => intros
  | |- calms (_ ≫= _) => apply calms_bind
  | |- good (_ ≫= _) => apply good_bind
  | |- calms (for_each _ _) => apply calms_for_each
  | |- good (for_each _ _) => apply good_for_each
  | |- keeps (_ ≫= _) => apply keeps_bind
  | |- keeps (for_each _ _) => apply keeps_for_each
  | |- keeps (ignore_drop _) => apply keeps_ignore_drop
  | |- calms (gets _) => apply calms_reads, reads_gets
  | |- calms (try_gets _) => apply calms_reads, reads_try_gets
  | |- calms (lift _) => apply calms_reads, reads_lift
  | |- calms (fail _) => apply calms_reads, reads_fail
  | |- calms (require _ _) => apply calms_reads, reads_require
  | |- calms (reject_if _ _) => apply calms_reads, reads_reject_if
  | |- calms (mret _) => apply calms_reads, reads_ret
  | |- calms (device _) => apply calms_reads, reads_require
  | |- calms sample => apply calms_sample
  | |- calms (schedule _ _) => apply calms_schedule; solve [intros []|auto]
  | |- calms (schedule_in _ _) => apply calms_schedule_in; intros []
  | |- calms (on_device _ _ _) => apply calms_on_device; solve [eauto with lab]
  | |- calms (update_device _ _ _) => apply calms_update_device; solve [eauto with lab | intros; cbn [snd]; eauto with lab]
  | |- calms (modify _) => solve [apply calms_fields; intros; split_and!; reflexivity]
  | |- calms (put_runtime _ _) => apply calms_fields; intros; split_and!; reflexivity
  | |- _ => tac
  end.
Ltac calm_steps := repeat lab_step ltac:(solve [eauto with lab]).
Ltac keep_steps := repeat lab_step ltac:(solve [eauto with lab | apply keeps_calms; calm_steps]).
Ltac good_steps := repeat lab_step ltac:(solve [eauto with lab | apply good_calms; calm_steps | apply good_keeps; keep_steps]).

Lemma calm_alter s l f :
  (∀ k, links s !! l = Some k → link_same k (f k)) → calm s (s <| links ::= alter f l |>).
Proof.
  intros Hf. split; try done; [|split; [done|by left]]. intros l'. cbn. destruct (decide (l' = l)) as [->|].
  - rewrite lookup_alter_eq. destruct (links s !! l) as [k|] eqn:E; constructor. by apply Hf.
  - by rewrite lookup_alter_ne.
Qed.
Lemma link_same_outgoing_set k source f :
  runtime_grows (link_config k) (outgoing k source) (f (outgoing k source)) → link_same k (set_outgoing source f k).
Proof. unfold outgoing, set_outgoing. case_bool_decide; intros Hr; split; cbn; (done || reflexivity). Qed.
Lemma calms_counters f l source : calms (modify (λ s, s <| links ::= alter (set_outgoing source (with_link_counters f)) l |>)).
Proof. apply calms_modify. intros s _. apply calm_alter. intros k _. apply link_same_outgoing_set. by split. Qed.
#[export] Hint Resolve calms_counters : lab.

Lemma calms_qos_drop source reason : calms (qos_drop source reason).
Proof.
  unfold qos_drop. apply calms_bind; [calm_steps|]. intros _. apply calms_modify. intros s H0.
  destruct (ports s !! source) as [l|]; [|done]. case_bool_decide; [|done]. by apply (calms_counters Link.count_queue_drop l source).
Qed.
#[export] Hint Resolve calms_qos_drop : lab.
Lemma calms_drop_queue e : calms (drop_queue e).
Proof. unfold drop_queue. calm_steps. Qed.
#[export] Hint Resolve calms_drop_queue : lab.
Lemma calms_refresh_qos : calms refresh_qos.
Proof. unfold refresh_qos. calm_steps. Qed.
Lemma calms_generation get set id t e :
  (∀ g, ¬ is_frame (e g)) →
  (∀ m s, links (set m s) = links s ∧ ports (set m s) = ports s ∧ next_link_id (set m s) = next_link_id s
          ∧ devices (set m s) = devices s ∧ events (set m s) = events s) →
  calms (schedule_generation get set id t e).
Proof.
  intros He Hset. unfold schedule_generation.
  apply calms_bind; [calm_steps|]. intros old. apply calms_bind; [by apply calms_fields|]. intros _.
  apply calms_bind; [calm_steps|]. intros next. apply calms_bind; [by apply calms_fields|]. intros _. by apply calms_schedule.
Qed.
Lemma calms_schedule_qos source : calms (schedule_qos source).
Proof. unfold schedule_qos. calm_steps. Qed.
#[export] Hint Resolve calms_schedule_qos calms_refresh_qos : lab.

(** ** Sending a frame *)

(** A frame that finds room is accepted, unless the clock runs out. *)
Lemma queued_expire now fs : Link.ascending fs → len (Link.expire now fs) = len (filter (λ f, now < f) fs).
Proof.
  intros Ha. destruct (Link.expire_suffix now fs) as (gone & Heq & Hg). pose proof (Link.expire_live now fs Ha) as Hl.
  rewrite Heq at 2. rewrite filter_app. assert (Hnone : filter (λ f, now < f) gone = []).
  { clear -Hg. induction Hg; [done|]. rewrite filter_cons_False by lia. done. }
  rewrite Hnone. cbn. f_equal. symmetry. clear -Hl. induction Hl; [done|]. rewrite filter_cons_True by done. by f_equal.
Qed.
Lemma transmission_error r c now n jitter e : Link.transmission r c now n jitter = Err e → e = Overflow.
Proof.
  unfold Link.transmission. intros H. apply bind_Err_inv in H as [H|(ser & _ & H)].
  { destruct (Link.bandwidth c); [|done]. unfold Link.serialization_us in H. by destruct (try_from _ _); cbn in H; simplify_eq. }
  apply bind_Err_inv in H as [H|(finish & _ & H)]; [by destruct (checked_add _ _ _); cbn in H; simplify_eq|].
  apply bind_Err_inv in H as [H|(m & _ & H)]; [unfold arith in H; by case_match|].
  apply bind_Err_inv in H as [H|(arrival & _ & H)]; [by destruct (try_from _ _); cbn in H; simplify_eq|done].
Qed.
Lemma admit_room c r now n jitter loss :
  Link.config_ok c → Link.link_inv c r → 0 ≤ now → 0 ≤ n → Link.queued r now < Link.queue_packets c →
  (Link.link_admit r c now n jitter loss).2 = Err Overflow
  ∨ ∃ t lost, (Link.link_admit r c now n jitter loss).2 = Ok (Link.Scheduled t lost).
Proof.
  intros Hc (Hs & Hf & _) Hnow Hn Hroom. unfold Link.queued in Hroom. rewrite <-queued_expire in Hroom by done.
  unfold Link.link_admit. cbn [Link.finishes]. destruct (Z.geb_spec (len (Link.expire now (Link.finishes r))) (Link.queue_packets c)); [lia|].
  set (r1 := Link.Build_DirectionalLinkRuntime _ _ _). pose proof (Link.transmission_safe r1 c now n jitter Hc) as Hsafe.
  destruct (Link.transmission r1 c now n jitter) as [[finish arrival]|e|] eqn:E; [right|left|done].
  - by eexists _, _.
  - cbn. f_equal. by apply transmission_error in E.
Qed.
Lemma admit_future c r now n jitter loss t lost :
  Link.config_ok c → Link.link_inv c r → 0 ≤ now → 0 ≤ n → (Link.link_admit r c now n jitter loss).2 = Ok (Link.Scheduled t lost) → now ≤ t.
Proof.
  intros Hc (Hs & Hf & _) Hnow Hn. unfold Link.link_admit. case_match; [done|]. case_match eqn:E; [|done|done]. case_match. cbn.
  intros [= <- _]. apply Link.transmission_spec in E as (Hfin & _); [|done..|].
  - unfold Link.available_at in Hfin. lia.
  - cbn. apply Link.expire_Forall. eapply Forall_impl; [exact Hf|]. cbn. lia.
Qed.


Definition far_end (k : Lab.Link) (source : InterfaceRef) : InterfaceRef :=
  if bool_decide (endpoint_a k = source) then endpoint_b k else endpoint_a k.
(** From [s], a frame of [source] was put on its cable [k] to arrive at [t]. *)
Record sent (source : InterfaceRef) (frame : EthernetFrame) (s : Lab) (k : Lab.Link) (t : SimTime) (lost : bool) (s1 : Lab) : Prop := {
  sent_cable : cable_at s source = Some k;
  sent_accepted : ∃ d, devices s !! ref_device source = Some d ∧ check_frame d (ref_interface source) frame false = None;
  sent_calm : calm s s1 ∧ events s1 = events s ∧ devices s1 = devices s;
  sent_reserved : ∃ k1, links s1 !! link_id k = Some k1 ∧ link_same k k1 ∧ Link.last_arrival (outgoing k1 source) = t;
  sent_order : Link.last_arrival (outgoing k source) ≤ t ∧ lab_now s ≤ t
}.
(** The port may send the frame and its cable has room for it. *)
Definition has_room (s : Lab) (source : InterfaceRef) (frame : EthernetFrame) (k : Lab.Link) : Prop :=
  (∃ d, devices s !! ref_device source = Some d ∧ refusal s source d frame = None) ∧ cable_at s source = Some k
  ∧ Link.queued (outgoing k source) (lab_now s) < Link.queue_packets (link_config k).
Definition arrival_event (source : InterfaceRef) (frame : EthernetFrame) (k : Lab.Link) (lost : bool) : SimulationEvent :=
  FrameReceived (link_id k) (generation k) (far_end k source) frame source lost.

Lemma admit_grows k source now n jitter loss :
  0 ≤ now → 0 ≤ n →
  runtime_grows (link_config k) (outgoing k source) (Link.link_admit (outgoing k source) (link_config k) now n jitter loss).1.
Proof.
  intros Hnow Hn. split; [intros Hc Hl; by apply Link.admit_inv|].
  destruct (Link.link_admit (outgoing k source) (link_config k) now n jitter loss).2 as [[|t lost]| |] eqn:E.
  2: { apply Link.admit_arrival in E. lia. }
  all: rewrite Link.admit_no_arrival; [done|]; intros t' lost'; congruence.
Qed.
Lemma frame_len_nonneg f : 0 ≤ frame_len f.
Proof. unfold frame_len, len. lia. Qed.
Lemma outgoing_set k source r : outgoing (set_outgoing source (λ _, r) k) source = r.
Proof. unfold set_outgoing. case_bool_decide; unfold outgoing; cbn; by case_bool_decide. Qed.

Lemma run_sample {A} (k : Z → lab_op A) s :
  (sample ≫= k) s = k (Link.rng_sample (rng s)).2 (s <| rng := (Link.rng_sample (rng s)).1 |>).
Proof. rewrite run_bind. unfold sample. by destruct (Link.rng_sample (rng s)). Qed.
Lemma calms_refuse source missing reason : calms (refuse source missing reason).
Proof. unfold refuse. calm_steps. Qed.
Lemma cable_at_port s source k : wired s → cable_at s source = Some k → ports s !! source = Some (link_id k) ∧ links s !! link_id k = Some k ∧ endpoint k source.
Proof.
  intros Hw Hk. unfold cable_at in Hk. destruct (ports s !! source) as [l|] eqn:Hl; cbn in Hk; [|done].
  destruct (good_id _ _ _ (wired_links s Hw l k Hk)) as [-> _]. destruct (wired_ports s Hw _ _ Hl) as (k' & Hk' & He).
  split_and!; [done|done|]. by simplify_eq.
Qed.
Lemma refusal_None s source d frame :
  refusal s source d frame = None → check_frame d (ref_interface source) frame false = None ∧ is_Some (interfaces d !! ref_interface source).
Proof.
  unfold refusal. destruct (ports s !! source) as [l|]; [|done]. destruct (is_some_and _ _); [done|]. intros H. split; [done|].
  unfold check_frame in H. by destruct (interfaces d !! ref_interface source).
Qed.
(** A frame either leaves the cables alone or is put on its cable. *)
Lemma transmit_on_link_cases source frame s :
  wired s →
  (calm s (transmit_on_link source frame s).2
   ∧ ∀ k, has_room s source frame k → (transmit_on_link source frame s).1 = Err (ScheduleFailed Overflow))
  ∨ ∃ k t lost s1, sent source frame s k t lost s1
      ∧ transmit_on_link source frame s
        = (schedule t (arrival_event source frame k lost);;
           on_device Panic (ref_device source) (record_frame (ref_interface source) (frame_len frame) false)) s1.
Proof.
  intros Hw. assert (H0 : 0 ≤ lab_now s) by apply Hw. unfold transmit_on_link, device.
  rewrite run_require. destruct (devices s !! ref_device source) as [d|] eqn:Hd.
  2: { left. split; [done|]. intros k ((d & Hd' & _) & _). congruence. }
  assert (Hroom : ∀ k, has_room s source frame k → refusal s source d frame = None ∧ cable_at s source = Some k
      ∧ Link.queued (outgoing k source) (lab_now s) < Link.queue_packets (link_config k)).
  { intros k ((d' & Hd' & Hr) & Hk & Hq). rewrite Hd in Hd'. by injection Hd' as <-. }
  rewrite run_lift. destruct (interfaces d !! ref_interface source) as [i|] eqn:Hi.
  2: { left. split; [done|]. intros k (Hr & _)%Hroom. apply refusal_None in Hr as [_ [i Hi']]. congruence. }
  cbn [ok_or option_rect].
  rewrite run_gets. destruct (refusal s source d frame) as [reason|] eqn:Hr.
  { left. split; [by apply calms_refuse|]. intros k (Hr' & _)%Hroom. congruence. }
  rewrite run_gets, !run_sample, run_require.
  generalize (Link.rng_sample (rng s)).2 (Link.rng_sample (rng (s <| rng := (Link.rng_sample (rng s)).1 |>))).2.
  intros jitter loss.
  set (s0 := set_field rng _ (set_field rng _ s)). assert (Hs0 : calm s s0) by by apply calm_fields.
  change (cable_at s0 source) with (cable_at s source). destruct (cable_at s source) as [k|] eqn:Hk.
  2: { left. split; [done|]. intros k (_ & Hk' & _)%Hroom. congruence. }
  destruct (cable_at_port s source k Hw Hk) as (Hp & Hlk & He). cbv zeta.
  pose proof (admit_grows k source (lab_now s) (frame_len frame) jitter loss H0 (frame_len_nonneg frame)) as Hgrow.
  destruct (good_config _ _ _ (wired_links s Hw _ _ Hlk)) as (Hcfg & Hinv_a & Hinv_b).
  assert (Hinv : Link.link_inv (link_config k) (outgoing k source)) by (unfold outgoing; by case_bool_decide).
  assert (Hfull : ∀ k', has_room s source frame k' →
      (Link.link_admit (outgoing k source) (link_config k) (lab_now s) (frame_len frame) jitter loss).2 = Err Overflow
      ∨ ∃ t lost, (Link.link_admit (outgoing k source) (link_config k) (lab_now s) (frame_len frame) jitter loss).2 = Ok (Link.Scheduled t lost)).
  { intros k' (_ & [= <-] & Hq)%Hroom. apply admit_room; try done. apply frame_len_nonneg. }
  pose proof (admit_future (link_config k) (outgoing k source) (lab_now s) (frame_len frame) jitter loss) as Hfuture.
  pose proof (Link.admit_arrival (outgoing k source) (link_config k) (lab_now s) (frame_len frame) jitter loss) as Harr.
  destruct (Link.link_admit _ _ _ _ _ _) as [r admission] eqn:Ha. rewrite run_modify. cbn [fst snd] in *.
  assert (Hp0 : ports s0 !! source = Some (link_id k)) by exact Hp. rewrite Hp0. cbn [default option_rect].
  set (s1 := set_field links _ s0).
  assert (Hs1 : calm s s1).
  { transitivity s0; [done|]. apply calm_alter. intros k' Hk'. change (links s !! link_id k = Some k') in Hk'. simplify_eq. by apply link_same_outgoing_set. }
  rewrite run_lift. destruct admission as [[|t lost]|e|] eqn:Eadm; cbn [map_err].
  - left. assert (lab_now s1 = lab_now s) by done. split; [transitivity s1; [done|]; apply calms_refuse; lia|].
    intros k' Hk'. by destruct (Hfull k' Hk') as [|(? & ? & ?)].
  - right. exists k, t, lost, s1. split; [|done]. split; [done| |done| |].
    + exists d. split; [done|]. by apply (refusal_None s source d frame).
    + exists (set_outgoing source (λ _, r) k). split; [unfold s1; cbn; by rewrite lookup_alter_eq, Hlk|].
      split; [by apply link_same_outgoing_set|]. rewrite outgoing_set. by apply (Harr t lost).
    + split; [by apply (Harr t lost)|]. apply (Hfuture t lost); try done. apply frame_len_nonneg.
  - left. split; [done|]. intros k' Hk'. destruct (Hfull k' Hk') as [[= ->]|(? & ? & ?)]; [done|congruence].
  - left. split; [done|]. intros k' Hk'. by destruct (Hfull k' Hk') as [|(? & ? & ?)].
Qed.

(** An Ethernet port that may send has a carrier. *)
Lemma protocol_up_carrier d i x : interfaces d !! i = Some x → is_ethernet (kind x) = true → protocol_up d i = true → link_state x = LinkUp.
Proof.
  intros Hx Hk. unfold protocol_up, up_rounds, protocol_up_with at 1. rewrite Hx. destruct (kind x); try done; intros Hup;
    apply andb_true_iff in Hup as [_ Hup]; by apply bool_decide_eq_true in Hup.
Qed.
Lemma sent_active s source frame k t lost s1 : lab_ok s → sent source frame s k t lost s1 → link_active k = true.
Proof.
  intros [Hw _ Hc] [Hk (d & Hd & Hf) _ _ _]. destruct (cable_at_port s source k Hw Hk) as (_ & Hl & He).
  destruct (Hc _ _ Hl) as [_ Hsig]. unfold check_frame in Hf. destruct (interfaces d !! ref_interface source) as [x|] eqn:Hx; [|done].
  destruct (is_ethernet (kind x)) eqn:Heth; [|done]. cbn [negb] in Hf. destruct (protocol_up d (ref_interface source)) eqn:Hup; [|done].
  specialize (Hsig source (link_state x, is_some_and (configs d !! ref_interface source) (λ c, bool_decide (admin_state c = AdminUp))) He).
  rewrite (protocol_up_carrier _ _ _ Hx Heth Hup) in Hsig. cbn in Hsig. unfold view, port_view in Hsig. rewrite Hd in Hsig. cbn in Hsig.
  rewrite Hx in Hsig. cbn in Hsig. rewrite Heth, (protocol_up_carrier _ _ _ Hx Heth Hup) in Hsig. specialize (Hsig eq_refl).
  by destruct (link_active k).
Qed.
Lemma push_ok s t e q r :
  schedule_at (events s) t e = (q, r) → flight_ok s t e → lab_ok s → lab_ok (s <| events := q |>).
Proof.
  intros E Hf [[[Hq Hnow] Hn Hl Hp Hfl] Hu Hc].
  assert (Hq' : queue_inv q) by (replace q with (schedule_at (events s) t e).1 by (by rewrite E); by apply schedule_at_agenda).
  unfold schedule_at in E. split; [|done|done]. split; try done.
  - split; [done|]. unfold lab_now in *. cbn. destruct (t <? now (events s)); simplify_eq; [done|]. by destruct (checked_add _ _ _); simplify_eq.
  - intros l k Hk. destruct (Hl l k Hk). by split.
  - intros ev. cbn. destruct (t <? now (events s)); simplify_eq; [apply Hfl|].
    destruct (checked_add _ _ _); simplify_eq; cbn; [|apply Hfl]. intros [->|Hev]%elem_of_cons; [done|by apply Hfl].
Qed.
Lemma keeps_transmit_on_link source frame : keeps (transmit_on_link source frame).
Proof.
  intros s Hs. destruct (transmit_on_link_cases source frame s (ok_wired s Hs)) as [[Hc _]|(k & t & lost & s1 & Hsent & ->)].
  { split; [by apply calm_evolves|by apply (calm_ok s)]. }
  pose proof (sent_active _ _ _ _ _ _ _ Hs Hsent) as Hact. destruct Hsent as [Hk _ (Hc & He & _) (k1 & Hk1 & Hsame & Ht) [Hord _]].
  destruct (cable_at_port s source k (ok_wired s Hs) Hk) as (Hp & Hl & Hend).
  assert (Hs1 : lab_ok s1) by by apply (calm_ok s). rewrite run_bind. unfold schedule.
  destruct (schedule_at (events s1) t _) as [q r] eqn:E.
  assert (Hs2 : lab_ok (s1 <| events := q |>)).
  { apply (push_ok _ _ _ _ _ E); [|done]. split.
    - destruct (good_id _ _ _ (wired_links s1 (ok_wired s1 Hs1) _ _ Hk1)) as [_ ?]. lia.
    - intros k' Hk'. rewrite Hk' in Hk1. injection Hk1 as ->. pose proof Hsame as [_ [Ha Hb] (_ & Hac & Hg) _ _ _]. rewrite Ha, Hb, Hg, Hac.
      split_and!; [|done|]; [|intros _; split; [done|lia]]. unfold far_end. destruct Hend as [-> | ->]; [left; by rewrite bool_decide_true|].
      right. rewrite bool_decide_false; [done|]. apply (wired_links s (ok_wired s Hs) _ _ Hl). }
  assert (Hev : evolves s (s1 <| events := q |>)).
  { transitivity s1; [by apply calm_evolves|]. split; [split; [done|intros l k' _ Hk'; by exists k']|].
    replace q with (schedule_at (events s1) t (arrival_event source frame k lost)).1 by (by rewrite E).
    intros Hq. split; [by apply schedule_at_agenda|]. intros d. unfold flights. cbn. rewrite flying_schedule; [by eexists|done|].
    intros Hd%bool_decide_eq_true ev Hev Hev'. rewrite He in Hev. pose proof (wired_flights s (ok_wired s Hs) ev Hev) as Hf.
    destruct (event ev); try done. apply bool_decide_eq_true in Hev'. simplify_eq. destruct Hf as [_ Hf]. destruct (Hf k Hl) as (_ & _ & Hlast).
    destruct (Hlast eq_refl). lia. }
  destruct r as [[]|e|]; cbn [map_err]; try by split.
  assert (Hc2 : calm (s1 <| events := q |>) (on_device Panic (ref_device source) (record_frame (ref_interface source) (frame_len frame) false) (s1 <| events := q |>)).2).
  { apply calms_on_device; [eauto with lab|]. apply Hs2. }
  split; [etransitivity; [done|by apply calm_evolves]|by apply (calm_ok _ _ Hc2)].
Qed.
#[export] Hint Resolve keeps_transmit_on_link : lab.

(** ** Carrier *)

Lemma set_link_state_spec i st (d : Device) (x : Interface) :
  interfaces d !! i = Some x →
  ∃ d', set_link_state i st d = (Ok (), d') ∧ interfaces d' = insert i (x <| link_state := st |>) (interfaces d)
    ∧ running_config d' = running_config d ∧ Device.id d' = Device.id d ∧ device_type d' = device_type d.
Proof.
  intros Hx. unfold set_link_state. rewrite run_modify.
  assert (Hd : ∀ c : bool, ∃ d0, (if c then reset_ipv6_interface i d else d) = d0 ∧ interfaces d0 = interfaces d
      ∧ running_config d0 = running_config d ∧ Device.id d0 = Device.id d ∧ device_type d0 = device_type d)
    by (intros []; by eexists).
  match goal with |- context [if ?c then reset_ipv6_interface i d else d] => destruct (Hd c) as (d0 & -> & Hi & Hr & Hid & Ht) end.
  rewrite run_require, Hi, Hx, run_modify. unfold modify. eexists. split; [done|].
  case_bool_decide; unfold forget_macs; cbn; by rewrite Hi, Hr, Hid, Ht.
Qed.

(** Operations that change carriers, and nothing else of the cables. *)
Record rewired (s s' : Lab) : Prop := {
  rewired_cables : links s' = links s ∧ ports s' = ports s ∧ next_link_id s' = next_link_id s ∧ events s' = events s;
  rewired_enabled : ∀ e, port_enabled s' e = port_enabled s e;
  rewired_views : ∀ e, is_Some (view s' e) ↔ is_Some (view s e)
}.
#[export] Instance rewired_preorder : PreOrder rewired.
Proof.
  split; [by intros s; split|]. intros s1 s2 s3 [(? & ? & ? & ?) E1 V1] [(? & ? & ? & ?) E2 V2].
  split; [split_and!; congruence|intros e; by rewrite E2|intros e; by rewrite V2].
Qed.
Lemma rewired_evolves s s' : rewired s s' → evolves s s'.
Proof. intros [(Hl & _ & Hn & He) _ _]. apply evolves_intro; [lia| |done]. intros l k _ Hk. rewrite Hl in Hk. by exists k. Qed.
Lemma rewired_wired s s' : rewired s s' → wired s → wired s'.
Proof.
  intros [(Hl & Hp & Hn & He) _ Hv] [[Hq Hnow] Hnx Hlk Hpo Hf]. split.
  - unfold lab_now in *. by rewrite He.
  - by rewrite Hn.
  - rewrite Hl. intros l k Hk. destruct (Hlk l k Hk) as [? [Hne Hends] ?]. split; [by rewrite Hn| |done]. split; [done|].
    intros e Hek. rewrite Hp. destruct (Hends e Hek). split; [done|]. by apply Hv.
  - rewrite Hl, Hp. done.
  - rewrite He. intros ev Hev. specialize (Hf ev Hev). unfold flight_ok in *. destruct (event ev); try done. by rewrite Hl, Hn.
Qed.
Lemma set_carrier_spec st e s v :
  view s e = Some v →
  ∃ s', set_carrier st e s = (Ok (), s') ∧ rewired s s' ∧ view s' e = Some (st, v.2) ∧ ∀ e', e' ≠ e → view s' e' = view s e'.
Proof.
  intros Hv. unfold view in Hv. destruct (devices s !! ref_device e) as [d|] eqn:Hd; cbn in Hv; [|done].
  unfold port_view in Hv. destruct (interfaces d !! ref_interface e) as [x|] eqn:Hx; cbn in Hv; [|done].
  destruct (is_ethernet (kind x)) eqn:Hk; [|done]. injection Hv as <-.
  destruct (set_link_state_spec (ref_interface e) st d x Hx) as (d' & Hset & Hi & Hr & _).
  unfold set_carrier, on_device. rewrite Hd, Hset. cbn [map_err]. eexists. split; [done|].
  assert (Hsame : ∀ e', e' ≠ e → view (s <| devices ::= insert (ref_device e) d' |>) e' = view s e').
  { intros [dv i] Hne. unfold view. cbn. destruct (decide (dv = ref_device e)) as [->|Hdv]; [|by rewrite lookup_insert_ne].
    rewrite lookup_insert_eq, Hd. cbn. unfold port_view, configs. rewrite Hi, Hr, lookup_insert_ne; [done|].
    intros <-. apply Hne. by destruct e. }
  assert (Hat : view (s <| devices ::= insert (ref_device e) d' |>) e = Some (st, (link_state x, is_some_and (configs d !! ref_interface e) (λ c, bool_decide (admin_state c = AdminUp))).2)).
  { unfold view. cbn. rewrite lookup_insert_eq. cbn. unfold port_view, configs. rewrite Hi, Hr, lookup_insert_eq. cbn. by rewrite Hk. }
  split; [|done]. split; [done| |].
  - intros [dv i]. unfold port_enabled. cbn. destruct (decide (dv = ref_device e)) as [->|Hdv]; [|by rewrite lookup_insert_ne].
    rewrite lookup_insert_eq, Hd. cbn. unfold configs. by rewrite Hr.
  - intros e'. destruct (decide (e' = e)) as [->|Hne]; [|by rewrite Hsame]. rewrite Hat. unfold view. rewrite Hd. cbn. unfold port_view.
    rewrite Hx. cbn. by rewrite Hk.
Qed.
(** Both ends of a cable. *)
Lemma set_carriers_spec st a b s :
  a ≠ b → is_Some (view s a) → is_Some (view s b) →
  ∃ s', for_each [a; b] (set_carrier st) s = (Ok (), s') ∧ rewired s s'
    ∧ (∀ e v, e = a ∨ e = b → view s' e = Some v → v.1 = st) ∧ ∀ e, e ≠ a → e ≠ b → view s' e = view s e.
Proof.
  intros Hab [va Ha] [vb Hb]. destruct (set_carrier_spec st a s va Ha) as (s1 & H1 & R1 & V1 & O1).
  assert (Hb1 : view s1 b = Some vb) by by rewrite O1. destruct (set_carrier_spec st b s1 vb Hb1) as (s2 & H2 & R2 & V2 & O2).
  exists s2. cbn [for_each]. rewrite run_bind, H1, run_bind, H2. split; [done|]. split; [by transitivity s1|]. split.
  - intros e v [-> | ->] Hv; [rewrite O2, V1 in Hv by done|rewrite V2 in Hv]; by injection Hv as <-.
  - intros e Hea Heb. by rewrite O2, O1.
Qed.

Lemma reset_inv c r : Link.config_ok c → Link.link_inv c (Link.reset r).
Proof. intros (_ & _ & _ & _ & _ & Hq). unfold Link.link_inv, Link.reset. cbn. unfold len. cbn. split_and!; (done || constructor || lia). Qed.

(** Everything but the carriers; the carriers of the cables [l]. *)
Definition carried_of (l : list LinkId) (s : Lab) : Prop :=
  wired s ∧ unplugged s ∧ ∀ i k, i ∈ l → links s !! i = Some k → carried s k.
Definition refreshes (m : lab_op ()) (before after : Lab → Prop) : Prop :=
  ∀ s, before s → evolves s (m s).2 ∧ next_link_id (m s).2 = next_link_id s ∧ ((m s).1 = Err Capacity ∨ (m s).1 = Ok () ∧ after (m s).2).

(** A cable that carries differently from before gets a new generation. *)
Lemma regenerate_ok s l k active next :
  wired s → unplugged s → links s !! l = Some k → active ≠ link_active k → next = generation k + 1 →
  let k' := k <| generation := next |> <| link_active := active |> <| a_to_b ::= Link.reset |> <| b_to_a ::= Link.reset |> in
  let s' := s <| links ::= insert l k' |> in wired s' ∧ unplugged s' ∧ evolves s s'.
Proof.
  intros [Hq Hnx Hlk Hpo Hf] Hu Hk Hact -> k' s'. pose proof (Hlk l k Hk) as [Hid [Hne Hends] (Hc & _)].
  split; [split|split]; try done.
  - intros l2 k2. cbn. destruct (decide (l2 = l)) as [->|]; [|rewrite lookup_insert_ne by done].
    + rewrite lookup_insert_eq. intros [= <-]. split; [done|done|]. split; [done|]. by split; apply reset_inv.
    + intros [? ? ?]%Hlk. by split.
  - intros e l2 [k2 [Hk2 He2]]%Hpo. cbn. destruct (decide (l2 = l)) as [->|]; [|rewrite lookup_insert_ne by done; by exists k2].
    rewrite lookup_insert_eq. exists k'. split; [done|]. by simplify_eq.
  - intros ev Hev. specialize (Hf ev Hev). unfold flight_ok in *. destruct (event ev) as [| | | |l2 g port f src lost| | | | | | | | |]; try done.
    destruct Hf as [? Hf]. split; [done|]. intros k2. cbn. destruct (decide (l2 = l)) as [->|]; [|rewrite lookup_insert_ne by done; apply Hf].
    rewrite lookup_insert_eq. intros [= <-]. destruct (Hf k Hk) as (? & ? & _). cbn. split_and!; [done|lia|lia].
  - apply evolves_intro; [done| |done]. intros l2 k2 _. cbn. destruct (decide (l2 = l)) as [->|]; [|rewrite lookup_insert_ne by done; by exists k2].
    rewrite lookup_insert_eq. intros [= <-]. exists k. cbn. split_and!; [done|lia|lia].
Qed.
Lemma rewired_carried s s' k :
  rewired s s' → (∀ e, endpoint k e → view s' e = view s e) → carried s k → carried s' k.
Proof.
  intros [_ He _] Hv [H1 H2]. split; [by rewrite !He|]. intros e v Hek Hev. rewrite Hv in Hev by done. by apply (H2 e).
Qed.
Lemma endpoint_of s l k e : wired s → links s !! l = Some k → endpoint k e → ports s !! e = Some l ∧ is_Some (view s e).
Proof. intros Hw Hk He. by apply (wired_links s Hw l k Hk). Qed.
Lemma rewired_unplugged s s' k l :
  rewired s s' → wired s → links s !! l = Some k → (∀ e, ¬ endpoint k e → view s' e = view s e) → unplugged s → unplugged s'.
Proof.
  intros [(_ & Hp & _) _ _] Hw Hk Hv Hu e v Hev Hpe. rewrite Hp in Hpe.
  rewrite Hv in Hev; [by apply (Hu e)|]. intros He. destruct (endpoint_of s l k e Hw Hk He). congruence.
Qed.
Lemma carried_rest s k k' l l' s' :
  wired s → links s !! l = Some k → links s !! l' = Some k' → l' ≠ l → rewired s s' →
  (∀ e, ¬ endpoint k e → view s' e = view s e) → carried s k' → carried s' k'.
Proof.
  intros Hw Hk Hk' Hne Hr Hv. apply rewired_carried; [done|]. intros e He. apply Hv. intros He'.
  destruct (endpoint_of s l k e Hw Hk He') as [? _], (endpoint_of s l' k' e Hw Hk' He) as [? _]. congruence.
Qed.
Lemma refresh_carrier_spec l done_ :
  refreshes (refresh_carrier l) (carried_of done_) (carried_of (l :: done_)).
Proof.
  intros s (Hw & Hu & Hc). unfold refresh_carrier. rewrite run_gets. destruct (links s !! l) as [k|] eqn:Hk.
  2: { split; [done|]. split; [done|right]. split; [done|]. split_and!; [done..|]. intros i k [->|Hi]%elem_of_cons Hik; [by pose proof (eq_trans (eq_sym Hk) Hik)|by apply (Hc i)]. }
  rewrite run_gets. set (act := bool_decide (cable_state k = LinkUp) && port_enabled s (endpoint_a k) && port_enabled s (endpoint_b k)).
  rewrite run_bind.
  assert (Hgen : let m := (if Bool.eqb act (link_active k) then mret ()
       else next ← lift (ok_or (checked_add U64_MAX (generation k) 1) Capacity);
         modify (λ s, s <| links ::= insert l (k <| generation := next |> <| link_active := act |>
                                                 <| a_to_b ::= Link.reset |> <| b_to_a ::= Link.reset |>) |>)) : lab_op () in
    (m s).1 = Err Capacity ∧ (m s).2 = s
    ∨ (m s).1 = Ok () ∧ wired (m s).2 ∧ unplugged (m s).2 ∧ evolves s (m s).2
      ∧ next_link_id (m s).2 = next_link_id s ∧ (∃ k1, links (m s).2 !! l = Some k1 ∧ link_active k1 = act ∧ cable_state k1 = cable_state k
           ∧ endpoint_a k1 = endpoint_a k ∧ endpoint_b k1 = endpoint_b k)
      ∧ (∀ l', l' ≠ l → links (m s).2 !! l' = links s !! l')
      ∧ ∀ e, port_enabled (m s).2 e = port_enabled s e ∧ view (m s).2 e = view s e).
  { cbv zeta. destruct (Bool.eqb act (link_active k)) eqn:E.
    - right. apply eqb_prop in E. split_and!; try done. by exists k.
    - apply eqb_false_iff in E. rewrite run_lift. unfold checked_add. destruct (_ <=? U64_MAX); cbn; [|by left]. right.
      destruct (regenerate_ok s l k act (generation k + 1) Hw Hu Hk E eq_refl) as (W & U & V). split_and!; try done.
      + eexists. rewrite lookup_insert_eq. by split_and!.
      + intros l' Hl'. by rewrite lookup_insert_ne. }
  cbv zeta in Hgen. match type of Hgen with context [(?m s).1 = Err Capacity] => destruct (m s) as [r s1] end. cbn [fst snd] in Hgen.
  destruct Hgen as [[-> ->]|(-> & W & U & V & Hnext & (k1 & Hk1 & Hact & Hst & Ha & Hb) & Hrest & Hsame)]; [by split; [|split; [|left]]|].
  pose proof (wired_links s1 W l k1 Hk1) as [_ [Hne Hends] _]. rewrite Ha, Hb in Hne.
  destruct (Hends (endpoint_a k1)) as [_ Va]; [by left|]. destruct (Hends (endpoint_b k1)) as [_ Vb]; [by right|]. rewrite Ha in Va. rewrite Hb in Vb.
  destruct (set_carriers_spec (signal act) (endpoint_a k) (endpoint_b k) s1 Hne Va Vb) as (s2 & Hfor & R & Von & Voff).
  unfold signal in Hfor. rewrite Hfor. cbn [fst snd].
  assert (Hoff : ∀ e, ¬ endpoint k1 e → view s2 e = view s1 e).
  { intros e He. apply Voff; intros ->; apply He; unfold endpoint; rewrite Ha, Hb; auto. }
  assert (Hl2 : links s2 = links s1) by apply R.
  split; [transitivity s1; [done|by apply rewired_evolves]|]. split; [rewrite <-Hnext; apply R|]. right. split; [done|]. split_and!.
  - by apply (rewired_wired s1).
  - by apply (rewired_unplugged s1 s2 k1 l).
  - intros i ki Hi Hki. rewrite Hl2 in Hki. destruct (decide (i = l)) as [->|Hil].
    + simplify_eq. split.
      * rewrite Ha, Hb, !(rewired_enabled _ _ R), Hact, Hst. destruct (Hsame (endpoint_a k)) as [-> _], (Hsame (endpoint_b k)) as [-> _]. done.
      * intros e v He Hv. rewrite Hact. apply (Von e v); [|done]. unfold endpoint in He. by rewrite Ha, Hb in He.
    + apply elem_of_cons in Hi as [|Hi]; [done|]. apply (carried_rest s1 k1 ki l i s2); try done.
      rewrite Hrest in Hki by done. destruct (Hc i ki Hi Hki) as [C1 C2]. split.
      * destruct (Hsame (endpoint_a ki)) as [-> _], (Hsame (endpoint_b ki)) as [-> _]. done.
      * intros e v He Hv. destruct (Hsame e) as [_ Hse]. rewrite Hse in Hv. by apply (C2 e).
Qed.
Lemma refresh_all l done_ : refreshes (for_each l refresh_carrier) (carried_of done_) (carried_of (reverse l ++ done_)).
Proof.
  revert done_. induction l as [|x l IH]; intros done_ s Hs; cbn [for_each].
  - split; [done|]. split; [done|]. right. by split.
  - destruct (refresh_carrier_spec x done_ s Hs) as (He & Hn & Hr). rewrite run_bind.
    destruct (refresh_carrier x s) as [r s1]. cbn [fst snd] in *. destruct Hr as [->|[-> H1]]; [by split; [|split; [|left]]|].
    destruct (IH (x :: done_) s1 H1) as (He2 & Hn2 & Hr2). split; [by transitivity s1|]. split; [congruence|].
    rewrite reverse_cons, <-app_assoc. exact Hr2.
Qed.
Lemma alter_states (states : list (InterfaceId * bool)) (flag : bool) (m : gmap InterfaceId Interface) i :
  (∀ j b x, (j, b) ∈ states → m !! j = Some x → is_ethernet (kind x) = false) →
  let eth (o : option Interface) := x ← o; if is_ethernet (kind x) then Some (link_state x, flag) else None in
  eth (foldl (λ m s, alter (autostate s.2) s.1 m) m states !! i) = eth (m !! i).
Proof.
  intros H eth. revert m H. induction states as [|[j b] states IH]; intros m H; [done|]. cbn [foldl]. rewrite IH; cbn [fst snd].
  - destruct (decide (i = j)) as [->|Hij]; [rewrite lookup_alter_eq|by rewrite lookup_alter_ne].
    unfold eth. generalize (H j b). destruct (lookup j m) as [x|]; intros Hb; [|done]. cbn. by rewrite (Hb x) by (done || left).
  - intros j' b' x Hin. destruct (decide (j' = j)) as [->|Hne]; [rewrite lookup_alter_eq|rewrite lookup_alter_ne by done].
    + intros (y & Hy & ->)%fmap_Some. cbn. apply (H j b y); [left|done].
    + apply (H j' b' x). by right.
Qed.
Lemma quiet_svi : quiet refresh_svi_states_checked.
Proof.
  intros d. unfold refresh_svi_states_checked. rewrite run_try_gets.
  destruct (svi_states d) as [states|e|] eqn:E; [|done..]. intros i. split; [|done].
  apply (alter_states states _ (interfaces d) i). intros j b x Hj Hx. unfold svi_states in E. apply try_map_Ok in E.
  apply list_elem_of_lookup in Hj as [n Hn]. destruct (Forall2_lookup_r _ _ _ _ _ E Hn) as ([j' x'] & Hj' & Hf).
  apply bind_Ok_inv in Hf as (? & _ & Hf). apply bind_Ok_inv in Hf as (? & _ & Hf). apply Ok_inj in Hf. cbn in Hf. simplify_eq.
  apply list_elem_of_lookup_2 in Hj'. apply list_elem_of_filter in Hj' as [Hk Hx'%elem_of_entries]. cbn in *. simplify_eq. by rewrite Hk.
Qed.
#[export] Hint Resolve quiet_svi : lab.
(** Refreshing restores the invariant from any carriers. *)
Lemma refresh_carriers_spec s :
  wired s → unplugged s →
  evolves s (refresh_carriers s).2 ∧ ((refresh_carriers s).1 = Err Capacity ∨ lab_ok (refresh_carriers s).2).
Proof.
  intros Hw Hu. unfold refresh_carriers. rewrite run_gets, run_bind.
  destruct (refresh_all (items (links s)).*1 [] s) as (He & Hn & Hr); [by split_and!; try done; intros ? ? ?%elem_of_nil|].
  destruct (for_each _ _ s) as [r s1]. cbn [fst snd] in *. destruct Hr as [->|(-> & W & U & C)]; [by split; [|left]|].
  assert (Hs1 : lab_ok s1).
  { split; [done|done|]. intros l k Hk. apply (C l); [|done]. rewrite app_nil_r, elem_of_reverse.
    destruct (good_id _ _ _ (wired_links s1 W l k Hk)) as [_ Hl]. destruct (moves_links _ _ (evolves_moves _ _ He) l k) as (k0 & Hk0 & _); [lia|done|].
    apply list_elem_of_fmap. exists (l, k0). split; [done|]. by apply elem_of_entries. }
  assert (Hc : calm s1 ((switches ← gets (λ s, (items (devices s)).*1);
      for_each switches (λ id, on_device (Ok ()) id refresh_svi_states_checked);; refresh_qos) s1).2).
  { assert (H : calms (switches ← gets (λ s, (items (devices s)).*1);
      for_each switches (λ id, on_device (Ok ()) id refresh_svi_states_checked);; refresh_qos)) by calm_steps. apply H, Hs1. }
  split; [transitivity s1; [done|by apply calm_evolves]|right; by apply (calm_ok s1)].
Qed.

(** ** Connecting, disconnecting and editing *)

Lemma refreshed s s' :
  wired s' → unplugged s' → evolves s s' →
  evolves s (refresh_carriers s').2 ∧ ((refresh_carriers s').1 = Err Capacity ∨ lab_ok (refresh_carriers s').2).
Proof. intros Hw Hu He. destruct (refresh_carriers_spec s' Hw Hu) as [He' Hr]. split; [by transitivity s'|done]. Qed.
Lemma good_guarded {A B} (m : lab_op A) (k : A → lab_op B) :
  reads m → (∀ s a, lab_ok s → (m s).1 = Ok a → evolves s (k a s).2 ∧ ((k a s).1 = Err Capacity ∨ lab_ok (k a s).2)) → good (m ≫= k).
Proof.
  intros Hm Hk s Hs. specialize (Hm s). rewrite run_bind. specialize (Hk s). destruct (m s) as [[a|e|] s']; cbn in *; subst; [by apply Hk|..];
    (split; [done|by right]).
Qed.
Lemma after_refresh {A} (m : lab_op ()) (a : A) s s' :
  evolves s (m s').2 ∧ ((m s').1 = Err Capacity ∨ lab_ok (m s').2) →
  evolves s ((m;; mret a) s').2 ∧ (((m;; mret a) s').1 = Err Capacity ∨ lab_ok ((m;; mret a) s').2).
Proof.
  intros [He Hr]. rewrite run_bind. destruct (m s') as [[[]|e|] s2]; cbn in *; (split; [done|]); destruct Hr as [Hr|Hr]; try done; try (by right).
  left. congruence.
Qed.

Lemma check_endpoint_reads e : reads (check_endpoint e).
Proof.
  unfold check_endpoint. apply reads_bind; [apply reads_require|]. intros d. apply reads_bind; [apply reads_lift|]. intros x.
  apply reads_bind; [apply reads_reject_if|]. intros _. apply reads_reject_if.
Qed.
Lemma check_endpoint_Ok e s : (check_endpoint e s).1 = Ok () → is_Some (view s e) ∧ ports s !! e = None.
Proof.
  unfold check_endpoint, device. rewrite run_require. destruct (devices s !! ref_device e) as [d|] eqn:Hd; [|done]. rewrite run_lift.
  destruct (interfaces d !! ref_interface e) as [x|] eqn:Hx; cbn; [|done]. rewrite run_reject. destruct (is_ethernet (kind x)) eqn:Hk; [|done]. cbn.
  unfold reject_if. case_bool_decide as Hp; [done|]. intros _. split; [|by apply eq_None_not_Some].
  unfold view, port_view. rewrite Hd. cbn. rewrite Hx. cbn. rewrite Hk. by eexists.
Qed.
Lemma wired_connect s a b config id :
  wired s → unplugged s → a ≠ b → is_Some (view s a) → is_Some (view s b) → ports s !! a = None → ports s !! b = None →
  Link.config_ok config → id = next_link_id s + 1 →
  let k := {| link_id := id; endpoint_a := a; endpoint_b := b; cable_state := LinkUp;
         delay_ms := Link.delay_us config `div` 1000; link_config := config; a_to_b := Link.Runtime_default;
         b_to_a := Link.Runtime_default; link_active := false; generation := 0 |} in
  let s' := s <| next_link_id := id |> <| links ::= insert id k |> <| ports ::= insert a id |> <| ports ::= insert b id |> in
  wired s' ∧ unplugged s' ∧ evolves s s'.
Proof.
  intros [Hq Hnx Hlk Hpo Hf] Hu Hab Va Vb Pa Pb Hc -> k s'.
  assert (Hfresh : links s !! (next_link_id s + 1) = None).
  { destruct (links s !! _) as [k0|] eqn:E; [|done]. destruct (good_id _ _ _ (Hlk _ _ E)). lia. }
  assert (Hports : ∀ e l, ports s !! e = Some l → ports s' !! e = Some l ∧ l ≠ next_link_id s + 1).
  { intros e l Hel. cbn. rewrite !lookup_insert_ne by congruence. split; [done|]. destruct (Hpo e l Hel) as (k0 & Hk0 & _).
    intros ->. congruence. }
  split; [split|split]; try done; cbn.
  - lia.
  - intros l k0. destruct (decide (l = next_link_id s + 1)) as [->|Hl]; [rewrite lookup_insert_eq|rewrite lookup_insert_ne by done].
    + intros [= <-]. split; cbn; [lia| |].
      * split; [done|]. intros e [-> | ->]; cbn; (split; [|done]); [by rewrite lookup_insert_ne, lookup_insert_eq|by rewrite lookup_insert_eq].
      * split; [done|]. by split; apply (reset_inv config Link.Runtime_default).
    + intros Hk0. destruct (Hlk l k0 Hk0) as [[? ?] [? Hends] ?]. split; cbn; [split; [done|lia]| |done]. split; [done|].
      intros e He. destruct (Hends e He) as [Hp ?]. split; [by apply Hports in Hp as [? _]|done].
  - intros e l. destruct (decide (e = b)) as [->|Heb]; [rewrite lookup_insert_eq|rewrite lookup_insert_ne by done].
    { intros [= <-]. exists k. rewrite lookup_insert_eq. split; [done|by right]. }
    destruct (decide (e = a)) as [->|Hea]; [rewrite lookup_insert_eq|rewrite lookup_insert_ne by done].
    { intros [= <-]. exists k. rewrite lookup_insert_eq. split; [done|by left]. }
    intros Hel. destruct (Hports e l Hel) as [_ Hl]. rewrite lookup_insert_ne by done. by apply Hpo.
  - intros ev Hev. specialize (Hf ev Hev). unfold flight_ok in *. destruct (event ev) as [| | | |l g port f src lost| | | | | | | | |]; try done.
    destruct Hf as [? Hf]. cbn. split; [lia|]. rewrite lookup_insert_ne by lia. done.
  - intros e v Hv. cbn. destruct (decide (e = b)) as [->|Heb]; [by rewrite lookup_insert_eq|rewrite lookup_insert_ne by done].
    destruct (decide (e = a)) as [->|Hea]; [by rewrite lookup_insert_eq|rewrite lookup_insert_ne by done]. by apply Hu.
  - apply evolves_intro; cbn; [lia| |done]. intros l k0 Hl. rewrite lookup_insert_ne by lia. by exists k0.
Qed.
(** The ranges of the types of a configuration. *)
Definition config_typed (c : Link.LinkConfig) : Prop :=
  (∀ rate, Link.bandwidth c = Some rate → 0 < rate) ∧ u64 (Link.delay_us c) ∧ u64 (Link.jitter_us c) ∧ 0 ≤ Link.loss_ppm c
  ∧ 0 ≤ Link.queue_packets c.
Lemma good_connect a b config : config_typed config → good (connect_configured a b config).
Proof.
  intros Ht. unfold connect_configured. apply good_guarded; [apply reads_lift|]. intros s [] Hs Hvalid.
  assert (Hc : Link.config_ok config) by (by split; [unfold lift in Hvalid; cbn in Hvalid; destruct (Link.validate config) as [[]| |]|]).
  rewrite run_reject. case_bool_decide as Hab; [by split; [|right]|]. cbn [for_each].
  rewrite run_bind, run_bind. pose proof (check_endpoint_reads a s) as Ra. pose proof (check_endpoint_Ok a s) as Oa.
  destruct (check_endpoint a s) as [[[]|e|] sa]; cbn in Ra; subst sa; [|by split; [|right]..]. destruct (Oa eq_refl) as [Va Pa].
  rewrite run_bind. pose proof (check_endpoint_reads b s) as Rb. pose proof (check_endpoint_Ok b s) as Ob.
  destruct (check_endpoint b s) as [[[]|e|] sb]; cbn in Rb; subst sb; [|by split; [|right]..]. destruct (Ob eq_refl) as [Vb Pb].
  assert (Hm : ∀ e, (port_media e s).2 = s) by (intros e; apply reads_bind; [apply reads_require|intros ?; apply reads_lift]).
  cbn [mret stateful_mret]. rewrite run_bind. pose proof (Hm a) as Ma. destruct (port_media a s) as [[ma|e|] sa]; cbn in Ma; subst sa; [|by split; [|right]..].
  rewrite run_bind. pose proof (Hm b) as Mb. destruct (port_media b s) as [[mb|e|] sb]; cbn in Mb; subst sb; [|by split; [|right]..].
  rewrite run_reject. destruct (negb _); [by split; [|right]|]. rewrite run_try_gets. unfold checked_add.
  destruct (_ <=? U64_MAX); cbn [ok_or option_rect]; [|by split; [|left]]. rewrite run_modify.
  destruct (wired_connect s a b config _ (ok_wired s Hs) (ok_unplugged s Hs) Hab Va Vb Pa Pb Hc eq_refl) as (W & U & V).
  by apply after_refresh, refreshed.
Qed.

Lemma good_disconnect id : good (disconnect id).
Proof.
  unfold disconnect. apply good_guarded; [apply reads_require|]. intros s k Hs Hk. unfold require in Hk. cbn in Hk.
  destruct (links s !! id) as [k'|] eqn:Hl; [|done]. injection Hk as ->. pose proof Hs as [Hw Hu _].
  pose proof (wired_links s Hw id k Hl) as [Hid [Hne Hends] _].
  rewrite run_modify. set (s1 := s <| links ::= _ |> <| ports ::= _ |> <| ports ::= _ |>). rewrite run_bind.
  destruct (Hends (endpoint_a k)) as [_ Va]; [by left|]. destruct (Hends (endpoint_b k)) as [_ Vb]; [by right|].
  destruct (set_carriers_spec LinkDown (endpoint_a k) (endpoint_b k) s1 Hne Va Vb) as (s2 & -> & R & Von & Voff).
  assert (Hlinks : ∀ l k0, links s1 !! l = Some k0 → l ≠ id ∧ links s !! l = Some k0).
  { intros l k0. cbn. destruct (decide (l = id)) as [->|]; [by rewrite lookup_delete_eq|by rewrite lookup_delete_ne]. }
  assert (Hports : ∀ e l, ports s1 !! e = Some l ↔ ports s !! e = Some l ∧ ¬ endpoint k e).
  { intros e l. cbn. rewrite !lookup_delete_Some. unfold endpoint. naive_solver. }
  assert (Hw1 : wired s1).
  { destruct Hw as [Hq Hnx Hlk Hpo Hf]. split; [done|done| | |].
    - intros l k0 [Hl0 Hk0]%Hlinks. destruct (Hlk l k0 Hk0) as [? [? Hends0] ?]. split; [done| |done]. split; [done|].
      intros e He. destruct (Hends0 e He) as [Hpe ?]. split; [|done]. apply Hports. split; [done|]. intros He'. destruct (Hends e He'). congruence.
    - intros e l [Hel Hnot]%Hports. destruct (Hpo e l Hel) as (k0 & Hk0 & He). exists k0. split; [|done]. cbn.
      rewrite lookup_delete_ne; [done|]. intros <-. apply Hnot. by simplify_eq.
    - intros ev Hev. specialize (Hf ev Hev). unfold flight_ok in *. destruct (event ev); try done. destruct Hf as [? Hf]. split; [done|].
      intros k0 [_ Hk0]%Hlinks. by apply Hf. }
  apply refreshed.
  - by apply (rewired_wired s1).
  - intros e v Hv Hp. destruct R as [(_ & HR & _) _ _]. rewrite HR in Hp. destruct (decide (e = endpoint_a k)) as [->|Ha]; [apply (Von _ _ (or_introl eq_refl) Hv)|].
    destruct (decide (e = endpoint_b k)) as [->|Hb]; [apply (Von _ _ (or_intror eq_refl) Hv)|]. rewrite Voff in Hv by done.
    apply (Hu e v Hv). destruct (ports s !! e) as [l|] eqn:E; [|done]. exfalso. assert (ports s1 !! e = Some l) by (apply Hports; split; [done|by intros [|]]). congruence.
  - etransitivity; [|by apply rewired_evolves]. apply evolves_intro; [done| |done]. intros l k0 _ [_ Hk0]%Hlinks. by exists k0.
Qed.
Lemma good_set_cable id st : good (set_cable_state id st).
Proof.
  unfold set_cable_state. apply good_guarded; [apply reads_require|]. intros s k Hs Hk. unfold require in Hk. cbn in Hk.
  destruct (links s !! id) as [k'|] eqn:Hl; [|done]. injection Hk as ->. pose proof Hs as [[Hq Hnx Hlk Hpo Hf] Hu _].
  rewrite run_modify. set (s1 := set_field links _ s).
  assert (Hlinks : ∀ l k1, links s1 !! l = Some k1 → ∃ k0, links s !! l = Some k0 ∧ k1 = k0 <| cable_state := cable_state k1 |>).
  { intros l k1. cbn. destruct (decide (l = id)) as [->|]; [rewrite lookup_insert_eq; intros [= <-]; by exists k|].
    rewrite lookup_insert_ne by done. intros Hk1. exists k1. split; [done|]. by destruct k1. }
  apply refreshed; [split| |]; try done.
  - intros l k1 (k0 & Hk0 & E)%Hlinks. destruct (Hlk l k0 Hk0) as [? [? Hends] ?]. rewrite E. by split.
  - intros e l (k0 & Hk0 & He)%Hpo. cbn. destruct (decide (l = id)) as [->|Hl0]; [rewrite lookup_insert_eq|rewrite lookup_insert_ne by done; by exists k0].
    eexists. split; [done|]. by simplify_eq.
  - intros ev Hev. specialize (Hf ev Hev). unfold flight_ok in *. destruct (event ev); try done. destruct Hf as [? Hf]. split; [done|].
    intros k1 (k0 & Hk0 & E)%Hlinks. rewrite E. exact (Hf k0 Hk0).
  - apply evolves_intro; [done| |done]. intros l k1 _ (k0 & Hk0 & E)%Hlinks. exists k0. split; [done|]. by rewrite E.
Qed.

(** Devices whose interfaces [l] lose their carrier. *)
Definition take_down (d : Device) (l : list InterfaceId) : res DeviceError () * Device :=
  foldl (λ '(r, d) i, match r with Ok _ => set_link_state i LinkDown d | _ => (r, d) end) (Ok (), d) l.
Lemma take_down_spec l d :
  (∀ i, i ∈ l → is_Some (interfaces d !! i)) →
  ∃ d', take_down d l = (Ok (), d') ∧ running_config d' = running_config d ∧ Device.id d' = Device.id d
    ∧ ∀ i, interfaces d' !! i = (λ x : Interface, if bool_decide (i ∈ l) then x <| link_state := LinkDown |> else x) <$> interfaces d !! i.
Proof.
  revert d. induction l as [|j l IH]; intros d Hd.
  - exists d. split_and!; try done. intros i. by destruct (interfaces d !! i).
  - destruct (Hd j) as [x Hx]; [left|]. destruct (set_link_state_spec j LinkDown d x Hx) as (d1 & H1 & Hi & Hr & Hid & _).
    unfold take_down. cbn [foldl]. rewrite H1. destruct (IH d1) as (d2 & H2 & Hr2 & Hid2 & Hi2).
    { intros i Hil. rewrite Hi. destruct (decide (i = j)) as [->|]; [rewrite lookup_insert_eq; by eexists|].
      rewrite lookup_insert_ne by done. apply Hd. by right. }
    exists d2. split; [done|]. split_and!; [congruence|congruence|]. intros i. rewrite Hi2, Hi. destruct (decide (i = j)) as [->|Hij].
    + rewrite lookup_insert_eq, Hx. cbn. rewrite (bool_decide_true (j ∈ j :: l)) by left. by case_bool_decide.
    + rewrite lookup_insert_ne by done. destruct (interfaces d !! i); cbn; [|done].
      by rewrite (bool_decide_ext (i ∈ j :: l) (i ∈ l)) by (rewrite elem_of_cons; naive_solver).
Qed.
Lemma take_down_view (d d' : Device) (l : list InterfaceId) i :
  running_config d' = running_config d →
  (∀ i, interfaces d' !! i = (λ x : Interface, if bool_decide (i ∈ l) then x <| link_state := LinkDown |> else x) <$> interfaces d !! i) →
  port_view d' i = (λ v, if bool_decide (i ∈ l) then (LinkDown, v.2) else v) <$> port_view d i.
Proof.
  intros Hr Hi. unfold port_view, configs. rewrite Hi, Hr. destruct (interfaces d !! i) as [x|]; cbn; [|done].
  case_bool_decide; cbn; by destruct (is_ethernet (kind x)).
Qed.

Lemma wired_devices s f :
  (∀ e, is_Some (ports s !! e) → is_Some (view s e) → is_Some (view (s <| devices ::= f |>) e)) → wired s → wired (s <| devices ::= f |>).
Proof.
  intros Hv [Hq Hnx Hlk Hpo Hf]. split; try done. intros l k Hk. destruct (Hlk l k Hk) as [? [? Hends] ?]. split; [done| |done].
  split; [done|]. intros e He. destruct (Hends e He) as [Hp Hs]. split; [done|]. apply Hv; [by eexists|done].
Qed.
Lemma view_insert s id d e :
  view (s <| devices ::= insert id d |>) e = if bool_decide (ref_device e = id) then port_view d (ref_interface e) else view s e.
Proof. unfold view. cbn. case_bool_decide as He; [by rewrite He, lookup_insert_eq|by rewrite lookup_insert_ne]. Qed.
Lemma items_keys {V} (m : gmap Z V) i : i ∈ (items m).*1 ↔ is_Some (m !! i).
Proof.
  rewrite list_elem_of_fmap. split; [intros ([j v] & -> & Hv%elem_of_entries); by eexists|].
  intros [v Hv]. exists (i, v). split; [done|]. by apply elem_of_entries.
Qed.
Lemma try_any_false {E A : Type} (f : A → res E bool) (l : list A) x : try_any f l = Ok false → x ∈ l → f x = Ok false.
Proof.
  induction l as [|y l IH]; cbn [try_any]; [by intros _ ?%elem_of_nil|]. intros (b & Hy & Hl)%bind_Ok_inv.
  destruct b; [done|]. intros [->|Hx]%elem_of_cons; [done|by apply IH].
Qed.
Lemma replaced_view {E : Type} old new i :
  @try_any E _ (replaced old new) (items (interfaces old)) = Ok false → is_Some (port_view old i) → is_Some (port_view new i).
Proof.
  intros Hall Hv. unfold port_view in *. destruct (interfaces old !! i) as [x|] eqn:Hx; cbn in Hv; [|by destruct Hv].
  assert (Hin : (i, x) ∈ items (interfaces old)) by by apply elem_of_entries.
  pose proof (try_any_false _ _ _ Hall Hin) as H. unfold replaced in H. cbn [fst snd] in H.
  destruct (interfaces new !! i) as [y|]; cbn; [|done]. destruct (bool_decide_reflect (kind y = kind x)) as [Hk|Hk].
  - rewrite Hk. destruct (is_ethernet (kind x)); [by eexists|by destruct Hv].
  - rewrite andb_false_r in H. done.
Qed.

Section operations.
Context `{Protocols}.
Lemma calms_ospf id t : calms (schedule_ospf_at id t).
Proof. unfold schedule_ospf_at. calm_steps. apply calms_generation; [by intros ? []|done]. Qed.
Lemma calms_stp id : calms (schedule_stp_now id).
Proof. unfold schedule_stp_now. calm_steps. apply calms_generation; [by intros ? []|done]. Qed.
Lemma calms_ipv6 id t : calms (schedule_ipv6_at id t).
Proof. unfold schedule_ipv6_at. calm_steps. apply calms_generation; [by intros ? []|done]. Qed.
Lemma calms_bgp id t : calms (schedule_bgp_at id t).
Proof. unfold schedule_bgp_at. calm_steps. apply calms_generation; [by intros ? []|done]. Qed.
Lemma calms_dhcp id : calms (schedule_dhcp_now id).
Proof. unfold schedule_dhcp_now. calm_steps. Qed.
Lemma calms_lacp id : calms (schedule_lacp id).
Proof. unfold schedule_lacp. calm_steps. Qed.
Hint Resolve calms_ospf calms_stp calms_ipv6 calms_bgp calms_dhcp calms_lacp : lab.

Lemma good_with_device {A} id (edit : Device → A * Device) : good (with_device_mut id edit).
Proof.
  unfold with_device_mut. apply good_guarded; [apply reads_require|]. intros s old Hs Hold. unfold device, require in Hold. cbn in Hold.
  destruct (devices s !! id) as [d|] eqn:Hd; [|done]. injection Hold as ->. destruct (edit old) as [result new].
  rewrite run_reject. destruct (negb _); [by split; [|right]|]. 
  destruct (@try_any LabError _ (replaced old new) (items (interfaces old))) as [b|e|] eqn:Hkept;
    [|by rewrite run_bind; split; [|right]..].
  rewrite (run_try_reject _ _ _ _ b) by done. destruct b; [by split; [|right]|].
  rewrite run_gets. set (lost := filter _ _). rewrite run_gets. change (foldl _ (Ok (), new) lost) with (take_down new lost).
  destruct (take_down_spec lost new) as (new' & -> & Hr & _ & Hi).
  { intros i [_ Hin]%list_elem_of_filter. by apply items_keys. }
  rewrite run_lift. cbn [map_err]. rewrite run_modify. set (s1 := _ <| devices ::= _ |>).
  assert (Hview : ∀ e, view s1 e = if bool_decide (ref_device e = id)
      then (λ v : LinkState * bool, if bool_decide (ref_interface e ∈ lost) then (LinkDown, v.2) else v) <$> port_view new (ref_interface e) else view s e).
  { intros e. unfold s1. rewrite view_insert. by rewrite (take_down_view new new' lost (ref_interface e) Hr Hi). }
  pose proof Hs as [Hw Hu _]. assert (Hs1 : evolves s (refresh_carriers s1).2 ∧ ((refresh_carriers s1).1 = Err Capacity ∨ lab_ok (refresh_carriers s1).2)).
  { apply refreshed; [| |apply evolves_intro; [done|intros l k _ Hk; by exists k|done]].
    - apply wired_devices; [|done]. intros e _ Hv. fold s1. rewrite Hview. case_bool_decide as He; [|done].
      apply fmap_is_Some, (replaced_view old new _ Hkept). unfold view in Hv. by rewrite He, Hd in Hv.
    - intros e v Hv Hp. rewrite Hview in Hv. case_bool_decide as He; [|by apply (Hu e)].
      destruct (port_view new (ref_interface e)) as [w|] eqn:Hw'; cbn in Hv; [|done]. injection Hv as <-.
      rewrite bool_decide_true; [done|]. apply list_elem_of_filter. split.
      + rewrite <-He. by destruct e.
      + apply items_keys. unfold port_view in Hw'. destruct (interfaces new !! ref_interface e); [by eexists|done]. }
  destruct Hs1 as [He Hr1]. rewrite run_bind. destruct (refresh_carriers s1) as [[[]|e|] s2]; cbn [fst snd] in *;
    [|split; [done|destruct Hr1; [left; congruence|by right]]..].
  destruct Hr1 as [|Hs2]; [done|]. match goal with |- context [?m s2] => assert (Hm : good m) end.
  { unfold schedule_ospf_now, schedule_ipv6_now, schedule_bgp_now. good_steps. }
  destruct (Hm s2 Hs2) as [He2 Hr2]. split; [by transitivity s2|done].
Qed.
Lemma good_add_device name d : good (add_device name d).
Proof.
  unfold add_device. apply good_guarded; [apply reads_reject_if|]. intros s _ Hs _. rewrite run_reject.
  destruct (bool_decide (is_Some (names s !! name)) || bool_decide (is_Some (devices s !! Device.id d))) eqn:Hfresh; [by split; [|right]|].
  apply orb_false_iff in Hfresh as [_ Hfresh]. apply bool_decide_eq_false, eq_None_not_Some in Hfresh.
  rewrite run_gets. change (foldl _ (Ok (), d) (items (interfaces d)).*1) with (take_down d (items (interfaces d)).*1).
  destruct (take_down_spec (items (interfaces d)).*1 d) as (d' & -> & Hr & Hid & Hi); [intros i; by rewrite items_keys|].
  rewrite run_lift. cbn [map_err]. rewrite Hid, run_modify. set (s1 := _ <| devices ::= _ |>).
  assert (Hview : ∀ e, view s1 e = if bool_decide (ref_device e = Device.id d) then port_view d' (ref_interface e) else view s e).
  { intros e. unfold s1. by rewrite view_insert. }
  assert (Hother : ∀ e, is_Some (view s e) → view s1 e = view s e ∧ port_enabled s1 e = port_enabled s e).
  { intros e Hv. assert (ref_device e ≠ Device.id d).
    { intros He. unfold view in Hv. rewrite He, Hfresh in Hv. by destruct Hv. }
    rewrite Hview, bool_decide_false by done. split; [done|]. unfold port_enabled. cbn. by rewrite lookup_insert_ne. }
  pose proof Hs as [Hw Hu Hc]. assert (Hs1 : lab_ok s1).
  { split.
    - apply (wired_devices (s <| names ::= insert name (Device.id d) |>)).
      + intros e _ Hv. destruct (Hother e Hv) as [E _]. fold s1. by rewrite E.
      + destruct Hw as [Hq Hnx Hlk Hpo Hf]. split; try done. intros l k Hk. destruct (Hlk l k Hk). by split.
    - intros e v Hv Hp. rewrite Hview in Hv. case_bool_decide as He; [|by apply (Hu e)].
      rewrite (take_down_view d d' _ _ Hr Hi) in Hv. destruct (port_view d (ref_interface e)) as [w|] eqn:Hw'; cbn in Hv; [|done].
      injection Hv as <-. rewrite bool_decide_true; [done|]. apply items_keys. unfold port_view in Hw'.
      by destruct (interfaces d !! ref_interface e); [eexists|].
    - intros l k Hk. destruct (Hc l k Hk) as [C1 C2]. destruct (endpoint_of s l k (endpoint_a k) Hw Hk) as [_ Va]; [by left|].
      destruct (endpoint_of s l k (endpoint_b k) Hw Hk) as [_ Vb]; [by right|].
      split; [by rewrite (proj2 (Hother _ Va)), (proj2 (Hother _ Vb))|]. intros e v He Hv.
      destruct (endpoint_of s l k e Hw Hk He) as [_ Ve]. rewrite (proj1 (Hother _ Ve)) in Hv. by apply (C2 e). }
  match goal with |- context [?m s1] => assert (Hm : good m) by good_steps end.
  destruct (Hm s1 Hs1) as [He Hr1]. split; [|done]. etransitivity; [|done]. apply evolves_intro; [done|intros l k _ Hk; by exists k|done].
Qed.
Hint Resolve good_add_device : lab.
Lemma good_spawn name type l : good (spawn_device_with_ports name type l).
Proof. unfold spawn_device_with_ports. good_steps. Qed.
End operations.
#[export] Hint Resolve calms_ospf calms_stp calms_ipv6 calms_bgp calms_dhcp calms_lacp good_with_device good_add_device good_spawn : lab.

(** ** Sending and receiving *)

Lemma keeps_service_qos source : keeps (service_qos source).
Proof. unfold service_qos. keep_steps. Qed.
#[export] Hint Resolve keeps_service_qos : lab.
Lemma keeps_qos_timer source epoch : keeps (qos_timer source epoch).
Proof. unfold qos_timer. keep_steps. Qed.
Lemma calms_port_runtime source profile k : calms (port_runtime source profile k).
Proof. unfold port_runtime. calm_steps. Qed.
#[export] Hint Resolve keeps_qos_timer calms_port_runtime : lab.
Lemma keeps_enqueue_qos source profile frame : keeps (enqueue_qos source profile frame).
Proof. unfold enqueue_qos. keep_steps. Qed.
#[export] Hint Resolve keeps_enqueue_qos : lab.
Lemma keeps_transmit source frame : keeps (transmit source frame).
Proof. unfold transmit. keep_steps. Qed.
#[export] Hint Resolve keeps_transmit : lab.
Lemma keeps_transmit_protocol source frame : keeps (transmit_protocol source frame).
Proof. unfold transmit_protocol. keep_steps. Qed.
#[export] Hint Resolve keeps_transmit_protocol : lab.
Lemma keeps_transmit_each id l : keeps (transmit_each id l).
Proof. unfold transmit_each. keep_steps. Qed.
#[export] Hint Resolve keeps_transmit_each : lab.
#[export] Hint Resolve calms_refuse : lab.
Lemma keeps_network_frame source frame : keeps (transmit_network_frame source frame).
Proof. unfold transmit_network_frame. keep_steps. Qed.
#[export] Hint Resolve keeps_network_frame : lab.
Lemma calms_port_mac source : calms (port_mac source).
Proof. unfold port_mac. calm_steps. Qed.
#[export] Hint Resolve calms_port_mac : lab.
Lemma keeps_send_lacp source p : keeps (send_lacp source p).
Proof. unfold send_lacp. keep_steps. Qed.
#[export] Hint Resolve keeps_send_lacp : lab.
Lemma keeps_lacp_timer id : keeps (lacp_timer id).
Proof. unfold lacp_timer. keep_steps. Qed.
Lemma keeps_lacp_frame port frame : keeps (handle_lacp_frame port frame).
Proof. unfold handle_lacp_frame. keep_steps. Qed.
Lemma same_ports_packets now d : same_ports d (stp_packets now d).2.
Proof. apply same_ports_refresh. Qed.
#[export] Hint Resolve keeps_lacp_timer keeps_lacp_frame same_ports_packets : lab.
Lemma keeps_send_bpdu id e : keeps (send_bpdu id e).
Proof. unfold send_bpdu. destruct e as [[port vlan] packet]. keep_steps. Qed.
#[export] Hint Resolve keeps_send_bpdu : lab.
Lemma keeps_emit_stp id : keeps (emit_stp_bpdus id).
Proof. unfold emit_stp_bpdus. keep_steps. Qed.
#[export] Hint Resolve keeps_emit_stp : lab.
Lemma keeps_send_stp id g : keeps (send_stp_bpdus id g).
Proof. unfold send_stp_bpdus. keep_steps. Qed.
Lemma keeps_forward_frame ingress vlan frame : keeps (forward_frame ingress vlan frame).
Proof. unfold forward_frame. keep_steps. Qed.
#[export] Hint Resolve keeps_send_stp keeps_forward_frame : lab.

(** The protocols above: their device calls leave carriers and administrative
    states alone, and they schedule no arrivals of frames. *)
Fixpoint well_behaved (p : protocol_program) : Prop :=
  match p with
  | Finish _ => True
  | Inspect k => ∀ s, well_behaved (k s)
  | EditDevice _ f k => (∀ d, same_ports d (f d)) ∧ well_behaved k
  | SendFrame _ _ k => ∀ r, well_behaved (k r)
  | Schedule _ e k => ¬ is_frame e ∧ ∀ r, well_behaved (k r)
  | KeepTables _ _ _ _ _ _ k => well_behaved k
  end.
Lemma calm_edit id f s : (∀ d, same_ports d (f d)) → calm s (s <| devices ::= alter f id |>).
Proof.
  intros Hf. split; try done; [|split; [done|by left]]. intros [j i]. unfold view, port_enabled. cbn.
  destruct (decide (j = id)) as [->|]; [rewrite lookup_alter_eq; destruct (devices s !! id) as [d|]; [apply Hf|done]|by rewrite lookup_alter_ne].
Qed.
Lemma keeps_protocol p : well_behaved p → keeps (run_protocol p).
Proof.
  induction p as [r|k IH|id f k IH|source frame k IH|t e k IH|ospf ipv6 bgp dhcp transactions probes k IH]; cbn [well_behaved]; intros Hp s Hs;
    cbn [run_protocol].
  - by split.
  - by apply IH.
  - destruct Hp as [Hf Hk]. assert (Hc := calm_edit id f s Hf). destruct (IH Hk _ (calm_ok _ _ Hc Hs)) as [He Hs'].
    split; [|done]. etransitivity; [by apply calm_evolves|done].
  - destruct (keeps_network_frame source frame s Hs) as [He Hs1]. destruct (transmit_network_frame source frame s) as [r s1].
    destruct (IH r (Hp r) s1 Hs1) as [He2 Hs2]. split; [by transitivity s1|done].
  - destruct Hp as [He Hk]. destruct (keeps_calms _ (calms_schedule t e He) s Hs) as [Hs1 Hok]. destruct (schedule t e s) as [r s1].
    destruct (IH r (Hk r) s1 Hok) as [He2 Hs2]. split; [by transitivity s1|done].
  - match goal with |- context [run_protocol k ?s'] => assert (Hc : calm s s') by by apply calm_fields end.
    destruct (IH Hp _ (calm_ok _ _ Hc Hs)) as [He Hs']. split; [|done]. etransitivity; [by apply calm_evolves|done].
Qed.

(** Protocols whose programs are well behaved. *)
Class ProtocolsBehave `{Protocols} := {
  frames_behave : ∀ port frame, well_behaved (handle_protocol_frame port frame);
  timers_behave : ∀ e, well_behaved (handle_timer e)
}.

Section events.
Context `{ProtocolsBehave}.
Lemma keeps_frames port frame : keeps (run_protocol (handle_protocol_frame port frame)).
Proof. apply keeps_protocol, frames_behave. Qed.
Lemma keeps_timers e : keeps (run_protocol (handle_timer e)).
Proof. apply keeps_protocol, timers_behave. Qed.
#[local] Hint Resolve keeps_frames keeps_timers : lab.
Lemma keeps_accept_switch ingress vlan frame : keeps (accept_switch_frame ingress vlan frame).
Proof. unfold accept_switch_frame. keep_steps. Qed.
#[local] Hint Resolve keeps_accept_switch : lab.
Lemma quiet_blocked vlan frame i now :
  quiet (learning ← gets (λ d, stp_learning d i vlan);
         (if learning : bool then learn_mac vlan (source frame) i now else mret ());;
         record_drop_reason i DropStpBlocking).
Proof.
  apply quiet_bind; [by apply quiet_reads, reads_gets|]. intros b. apply quiet_bind; [|intros; apply quiet_drop].
  destruct b; [apply quiet_learn|by apply quiet_reads, reads_ret].
Qed.
#[local] Hint Resolve quiet_blocked : lab.
Lemma keeps_switch_frame ingress frame : keeps (handle_switch_frame ingress frame).
Proof. unfold handle_switch_frame. keep_steps. Qed.
#[local] Hint Resolve keeps_switch_frame : lab.
Lemma keeps_accept_frame port frame : keeps (accept_frame port frame).
Proof. unfold accept_frame. keep_steps. Qed.
#[local] Hint Resolve keeps_accept_frame : lab.
Lemma keeps_arrival l g port frame lost : keeps (arrival_check l g port frame lost).
Proof. unfold arrival_check. keep_steps. Qed.
#[local] Hint Resolve keeps_arrival : lab.
Lemma keeps_frame_received l g port frame source lost : keeps (frame_received l g port frame source lost).
Proof. unfold frame_received. keep_steps. Qed.
#[local] Hint Resolve keeps_frame_received good_set_cable : lab.
Lemma good_handle_event e : good (handle_event e).
Proof. destruct e; cbn [handle_event]; good_steps. Qed.
End events.
